(* ===== verification/_CoqProject ===== *)
-Q . S2P
Prelude.v
RBTree.v
RBTreeShape.v
RBTreeFixup.v
RBTreeUnlink.v
RBTreeSpec.v
List.v
SearchTree.v
CInt.v
MappedDNS.v
RBTreeProps.v
RBTreeCached.v
Sched.v
SchedSpec.v
SchedRun.v
Tasks.v
TasksSpec.v
TasksOps.v
TasksSafe.v
TasksFair.v
SchedProps.v
TasksKeep.v
Mutex.v
MutexProps.v
Slice.v
SliceSpec.v
SliceProps.v
MappedDNSSpec.v
MappedDNSQuery.v
MappedDNSProps.v
RingBuffer.v
RingBufferProps.v
Splice.v
SpliceProps.v
Pbuf.v
PbufRefs.v
PbufOps.v
SessionTCP.v
PbufSpec.v
PbufProps.v
Chksum.v
SessionTCPSpec.v
SessionTCPProps.v
Effect.v
SockIO.v
Addr.v
AddrSpec.v
AddrProps.v
Socks5.v
Descriptors.v
Client.v
ClientSpec.v
ClientProps.v
Authenticator.v
AuthenticatorProps.v
Server.v
ServerSpec.v
ServerProps.v
Handshake.v
UDP.v
UDPSpec.v
UDPSafe.v
UDPProps.v
Config.v
ConfigSpec.v
ConfigParse.v
ConfigProps.v
SessionUDP.v
SessionUDPSpec.v
SessionUDPRelay.v
SessionUDPProps.v
Session.v
Tunnel.v
TunnelSpec.v
TunnelProps.v
TunDevice.v
TunnelInit.v
TunnelInitProps.v
TunPackets.v
Program.v
