(* ===== verification/Prelude.v ===== *)
(** * A verification library for the PSocks tun2socks engine

    The program (src/app/src/main/jni/psocks-engine/src) reads the IP packets of
    a tunnel device, lets lwIP turn them into TCP connections and UDP datagrams,
    and relays each of them through a SOCKS5 proxy: a session is a SOCKS5 client
    in a task of its own that splices lwIP's side and the proxy's.  Names can be
    mapped to made-up addresses, so that the proxy is asked for the name.

    ** The parts and their files

    Paths are below the program's directory; [core/src/] holds the SOCKS5
    library.  A definition has the name of the C function, type or variable it
    models; a loop or a branch of a function that has a definition of its own is
    named after it.  The files of a part come in the order: model, lemmas
    ([...Spec], [...Run], ...), properties ([...Props]).

    - Containers.  RBTree: core/src/hev-rbtree.c, over a heap of nodes with the
      colour in the parent's word; RBTreeShape, RBTreeFixup,
      RBTreeUnlink, RBTreeSpec, SearchTree: its lemmas and its
      contract for clients.  List: misc/hev-list.c.  RBTreeProps: both.
      RingBuffer, RingBufferProps: misc/hev-ring-buffer.c.
    - Task library (third-part/hev-task-system/src), which the program's
      sessions, memory and relays rest on.  RBTreeCached:
      lib/rbtree/hev-rbtree-cached.c (its hev-rbtree.c is the program's).  Sched:
      kern/core/hev-task-system-schedule.c, kern/time/hev-task-timer.c,
      kern/task/hev-task.c; SchedSpec, SchedRun: its lemmas.  Tasks:
      sequences of the tasks' calls and returns; TasksSpec, TasksOps, TasksSafe,
      TasksFair, TasksKeep, SchedProps.  Mutex, MutexProps:
      kern/sync/hev-task-mutex.c.  Slice, SliceSpec, SliceProps:
      mem/slice/hev-memory-allocator-slice.c, mem/api.  Splice, SpliceProps:
      lib/io/buffer/hev-circular-buffer.c, lib/io/basic/hev-task-io.c and its
      user core/src/hev-socks5-tcp.c.
    - Packet buffers (third-part/lwip/src/core), the part of lwIP that the
      program itself manages.  Pbuf: pbuf.c over a heap of structs and of the
      memory they point to; PbufRefs: reference counts; PbufOps: allocation and
      chains; PbufSpec: contents; PbufProps.  Chksum: inet_chksum.c.
    - Mapped DNS.  MappedDNS, MappedDNSSpec, MappedDNSQuery, MappedDNSProps:
      hev-mapped-dns.c; the allocator and strdup are a type class, either of which
      may refuse ([StrdupWorks]: strdup does not).
    - Effects.  CInt: machine integers, byte buffers, C strings.  Effect: a state
      monad whose faults are [None]; [mwp] is total correctness, [hoare] partial.
      SockIO: hev-task-io-socket.c of the task library and the kernel, as event
      scripts and a function of the calls so far.  Descriptors: open descriptors.
    - Addresses.  Addr, AddrSpec, AddrProps: core/src/hev-socks5-proto.h,
      core/src/hev-socks5-misc.c, misc/hev-utils.c.
    - SOCKS5.  Socks5: core/src/hev-socks5.c and the sockets of
      hev-socks5-misc.c.  Client, ClientSpec, ClientProps:
      core/src/hev-socks5-client.c, -client-tcp.c, -client-udp.c.
      Authenticator, AuthenticatorProps: -authenticator.c, -user.c.  Server,
      ServerSpec, ServerProps: -server.c.  Handshake: client and server together.
      UDP, UDPSpec, UDPSafe, UDPProps: -udp.c.
    - Configuration.  Config, ConfigSpec, ConfigParse, ConfigProps: hev-config.c,
      over the document of the YAML library.
    - Sessions.  SessionTCP, SessionTCPSpec, SessionTCPProps:
      hev-socks5-session-tcp.c.  SessionUDP, SessionUDPSpec, SessionUDPRelay,
      SessionUDPProps: hev-socks5-session-udp.c.  Session:
      hev-socks5-session.c and the sessions' construction.
    - Tunnel.  Tunnel, TunnelSpec, TunnelProps: the list of sessions, lwIP's
      callbacks and the stop of hev-socks5-tunnel.c.  TunDevice:
      hev-tunnel-linux.c.  TunnelInit, TunnelInitProps: start and end.
      TunPackets: hev-tunnel.h, the loops of the device's and the timer's tasks
      and the mapped DNS's datagrams, over the packet buffers.
    - Program.  Program: hev-main.c, the loggers, the limits of
      misc/hev-utils.c and the task system's construction and destruction.

    ** How the parts interact

    The tunnel's callbacks make sessions and put them into a list; a session runs
    the client's connection and handshake (Session over Client) and then its
    splice, whose other side lwIP drives by callbacks.  The callbacks run while
    the session's task waits, so a splice is a loop over turns, each of which
    says which callbacks happen during which wait; the theorems hold for every
    such script.  The client is parametrised by its virtual methods
    ([ClientClass]), which the TCP, UDP and session clients instantiate.  The
    mapped DNS and the authenticator use the tree through RBTreeSpec's contract
    and SearchTree only.

    ** What the theorems show

    The doc comment of each states its conditions in full.

    - C1-C3: the tree keeps its order, colours and parents under insertion,
      removal and traversal (replacement and the list's operations: RBTreeProps).
    - C4-C5: no sequence of the tasks' calls breaks the scheduler, and a ready
      task gets its turn, unless one has priority zero (priority_zero_starves) or
      a key wraps around.  C6: the mutex excludes and loses no wake-up.  C7: the
      allocator is a malloc, for sizes of at most 2^36-16 bytes
      (alloc_truncates).  C8: the relay between two descriptors delivers
      everything.  Beside them: the result of a sleep (sleep_time_left), the
      order of the mutex's waiters (first_waiter_gets_lock), that the relay waits
      only when it must (relay_waits_when_blocked).
    - C9-C12: the mapped DNS refines a least-recently-used cache, of whose names
      one is NULL when strdup fails (unnamed_node_faults: what that leads to);
      with copies of the names ([StrdupWorks]) its two directions fit together
      (lookup_refines_lru: the second one alone), and its query handler
      terminates, is memory-safe on a query that a readable byte follows
      (handle_overread: otherwise not) and answers as RFC 1035 says
      (destruct_frees_all: its end).
    - C13: the ring buffer is a queue.
    - C14-C16: for clients that keep the rules ([legal]) a packet buffer's count
      is the number of pointers to it, what is written is what is read, and the
      TCP session's queue of buffers is the list of chunks of the session's model
      (memfind_first: searching).
    - C17-C18: the checksum is RFC 1071's, for up to 131074 bytes, and one that
      is filled in verifies (packet_checksum: for a chain of buffers).
    - C19-C20: a TCP session loses, duplicates and reorders nothing, but for what
      a tcp_write refuses when the next one is not refused (tcp_write_hole: that
      happens), and its end is graceful.
    - C21-C22: the address conversions are inverse to each other, and the proxy
      is asked for the name that was mapped, while the cache still holds it.
    - C23-C27: what client and server send and return is a function of the peer's
      bytes and of what the system calls return; a server that says so has done
      what was asked for ([answered]: connected to the very address, or to what
      the resolver gave for the very name); no descriptor leaks, the
      authenticator is a map, client and server with matching credentials agree
      when run against each other.
    - C28-C31: datagrams framed in TCP (to names of at most 248 bytes) and UDP
      are read back; the relay sends each that can be read to its destination
      (udp_fwd_b_relays: and back), if none is to a name or empty; over UDP it
      stays in the block that it allocates, on arbitrary packets
      (truncated_frame_faults: over TCP it does not).
    - C32-C33: the configuration's variables stay well formed, which documents
      are refused.
    - C34: the UDP session gives every packet buffer back
      (udp_session_forwards_in_order, udp_session_delivers: what it forwards).
    - C35-C37: the tunnel's list holds exactly the live sessions, least recently
      active first; a stop ends them all, but for those whose handshake restarts
      their timeout; start and end give back what they took, but for the
      descriptor of a device whose settings failed.
    - C38-C39: packets from the device reach lwIP whole and in order, the mapped
      DNS's datagrams are answered (under the conditions of C11), and no buffer is
      lost (device_gets_packet: the way to the device).
    - C40: what the whole program returns and leaves, by the part that failed.

    ** Fuel and bounds

    Loops over the tree have fuel; the theorems ask for more than twice the
    logarithm of the number of nodes, which bounds the depth of a red-black tree,
    or more than the number of nodes, and conclude that the operation returns.
    Loops over a list use the number of its nodes.  Loops that wait for the outside are structural in the script
    of events; a script that is too short leaves the loop running, which is a
    result of its own ([false], or the state so far), and the theorems cover it.
    Everything else is structural.  Integers have the width of the C type where
    it can be exceeded (sizes of the ring buffer, header bytes, [int] parameters
    of the configuration, ports); counters bounded by memory are plain.

    ** What is not modelled

    The TCP/IP stack but for its packet buffers and checksums, and the YAML
    parser, are third-party code under third-part/: their results and callbacks
    are parameters or events.  Of the task library, condition variables and
    channels (which the program does not use), the registration of descriptors
    with the reactor, the stacks and the resolver's thread are left out; the
    sessions' models keep their own scripts of turns rather than the scheduler's
    steps, the device task's rounds keep the buffers of the other tasks as
    arguments, and the program's run is an argument of Program.  Of the loggers
    the formatting is left out, and scripts only start processes.  The devices of
    other systems (FreeBSD, macOS, NetBSD, Windows) are left out.  The Java application and
    hev-jni.c are not C logic of the engine.  Memory is modelled where the code
    manages it by hand (nodes, frames, buffers, reference counts); the contents
    of an object's class pointers are not. *)
From Stdlib Require Export ZArith Lia.
From stdpp Require Export base numbers option list gmap.

#[global] Open Scope Z_scope.

(** ** Generic tactics *)

(** Inverts an equation between an option computation and [Some]. *)
Ltac inv_some :=
  repeat match goal with
  | H : Some _ = Some _ |- _ => injection H; clear H; intros; subst
  | H : None = Some _ |- _ => discriminate H
  | H : mbind _ _ = Some _ |- _ => apply bind_Some in H as (? & ? & H)
  | H : (_, _) = (_, _) |- _ => injection H; clear H; intros; subst
  end.

(** Case analysis on every boolean integer comparison of the goal. *)
Ltac case_Z :=
  repeat match goal with
  | |- context [Z.eqb ?a ?b] => destruct (Z.eqb_spec a b); try lia
  | |- context [Z.leb ?a ?b] => destruct (Z.leb_spec a b); try lia
  | |- context [Z.ltb ?a ?b] => destruct (Z.ltb_spec a b); try lia
  end.

(** ** Total correctness of option computations

    [wp m Q]: the computation [m] returns (no memory fault, enough fuel) and
    its result satisfies [Q]. *)

Definition wp {A} (m : option A) (Q : A -> Prop) : Prop :=
  exists a, m = Some a /\ Q a.

Lemma wp_ret {A} (a : A) (Q : A -> Prop) : Q a -> wp (Some a) Q.
Proof. exists a. done. Qed.

Lemma wp_bind {A B} (m : option A) (k : A -> option B) (Q : B -> Prop) :
  wp m (fun a => wp (k a) Q) -> wp (m ≫= k) Q.
Proof. intros (a & -> & b & Hb & HQ). exists b. done. Qed.

Lemma wp_bind_inv {A B} (m : option A) (k : A -> option B) (Q : B -> Prop) :
  wp (m ≫= k) Q -> wp m (fun a => wp (k a) Q).
Proof.
  intros (b & Hb & HQ). destruct m as [a|]; [|done]. exists a. split; [done|]. by exists b.
Qed.

Lemma wp_prim {A} (m : option A) a (Q : A -> Prop) : m = Some a -> Q a -> wp m Q.
Proof. intros -> ?. by exists a. Qed.

Lemma wp_mono {A} (m : option A) (P Q : A -> Prop) :
  wp m P -> (forall a, P a -> Q a) -> wp m Q.
Proof. intros (a & -> & HP) H. exists a. auto. Qed.

(** ** Occurrence counting

    Pointer structures are described by the list of the addresses they own.
    Counting occurrences turns "these addresses are pairwise distinct" into
    linear arithmetic that is insensitive to the order of the list. *)

Fixpoint cnt (x : Z) (l : list Z) : nat :=
  match l with
  | [] => 0%nat
  | y :: l' => ((if Z.eqb x y then 1 else 0) + cnt x l')%nat
  end.

Definition uniq (l : list Z) : Prop := forall x, (cnt x l <= 1)%nat.

Lemma cnt_app x l1 l2 : cnt x (l1 ++ l2) = (cnt x l1 + cnt x l2)%nat.
Proof. induction l1 as [|y l1 IH]; simpl; [done|]. rewrite IH. lia. Qed.

Lemma cnt_nil x : cnt x [] = 0%nat.
Proof. done. Qed.

Lemma cnt_cons x y l : cnt x (y :: l) = ((if Z.eqb x y then 1 else 0) + cnt x l)%nat.
Proof. done. Qed.

Lemma cnt_cons_eq x l : cnt x (x :: l) = S (cnt x l).
Proof. simpl. by rewrite Z.eqb_refl. Qed.

Lemma cnt_zero x l : cnt x l = 0%nat <-> x ∉ l.
Proof.
  induction l as [|y l IH]; simpl.
  - split; [intros _; apply not_elem_of_nil|done].
  - rewrite not_elem_of_cons, <- IH. destruct (Z.eqb_spec x y).
    + split; [lia|]. intros [? _]. done.
    + split; [intros; split; [done|lia]|intros [_ ?]; lia].
Qed.

Lemma cnt_pos x l : (0 < cnt x l)%nat <-> x ∈ l.
Proof.
  pose proof (cnt_zero x l) as H. destruct (decide (x ∈ l)) as [Hi|Hi].
  - split; [done|]. intros _. destruct (cnt x l); [|lia].
    exfalso. by apply H.
  - split; [|done]. apply H in Hi. lia.
Qed.

Lemma uniq_NoDup l : uniq l <-> NoDup l.
Proof.
  induction l as [|y l IH]; split.
  - intros _. constructor.
  - intros _ x. simpl. lia.
  - intros H. constructor.
    + apply cnt_zero. specialize (H y). rewrite cnt_cons_eq in H. lia.
    + apply IH. intros x. specialize (H x). simpl in H. lia.
  - intros [Hy Hl]%NoDup_cons x. apply IH in Hl. specialize (Hl x). simpl.
    destruct (Z.eqb_spec x y) as [->|]; [|lia].
    apply cnt_zero in Hy. lia.
Qed.

Lemma uniq_cons x l : x ∉ l -> uniq l -> uniq (x :: l).
Proof.
  intros Hx Hl y. simpl. specialize (Hl y). destruct (Z.eqb_spec y x) as [->|]; [|lia].
  apply cnt_zero in Hx. lia.
Qed.

Lemma uniq_app_comm l1 l2 : uniq (l1 ++ l2) -> uniq (l2 ++ l1).
Proof. intros H x. specialize (H x). rewrite cnt_app in *. lia. Qed.

Lemma uniq_app_l l1 l2 : uniq (l1 ++ l2) -> uniq l1.
Proof. intros H x. specialize (H x). rewrite cnt_app in H. lia. Qed.

Lemma uniq_app_r l1 l2 : uniq (l1 ++ l2) -> uniq l2.
Proof. intros H x. specialize (H x). rewrite cnt_app in H. lia. Qed.

Create Rewrite HintDb cnt.
#[export] Hint Rewrite cnt_app cnt_cons cnt_nil : cnt.

(** [disj] proves [a <> b], [a ∉ l] and [uniq l] from the distinctness
    hypotheses of the context. *)
Ltac clear_all := repeat match goal with H : _ |- _ => clear H end.

(** Keeps only the counting facts at [x] and decides them. *)
Ltac cnt_gather x :=
  repeat match goal with
  | H : uniq _ |- _ => generalize (H x); clear H
  | H : context [cnt _ _] |- _ => revert H
  end.

Ltac cnt_decide :=
  clear_all; autorewrite with cnt;
  rewrite ?Z.eqb_refl; intros; lia.

Ltac disj_ne a b :=
  let E := fresh in intros E; cnt_gather b; rewrite E; cnt_decide.

Ltac disj :=
  match goal with
  | |- ?a <> ?b => first [assumption | disj_ne a b]
  | |- ?a ∉ ?l => apply cnt_zero; cnt_gather a; cnt_decide
  | |- uniq _ => let x := fresh "x" in intros x; cnt_gather x; cnt_decide
  end.

(** ** Counting *)

(** As many distinct numbers below [n] as [n] are all of them. *)
Lemma NoDup_incl_onto (l : list nat) n i :
  NoDup l -> length l = n -> (forall k, k ∈ l -> (k < n)%nat) -> (i < n)%nat -> i ∈ l.
Proof.
  intros Hnd Hlen Hin Hi.
  assert (l ≡ₚ seq 0 n) as ->; [|apply elem_of_seq; lia].
  assert (l ⊆+ seq 0 n) as Hsub.
  { apply NoDup_submseteq; [done|]. intros k Hk. apply elem_of_seq. apply Hin in Hk. lia. }
  apply submseteq_length_Permutation; [done|]. rewrite length_seq. lia.
Qed.

(** ** The largest address in use *)

Lemma set_fold_max (live : gset Z) a : a ∈ live -> a <= set_fold Z.max 0 live.
Proof.
  revert a. apply (set_fold_ind_L (fun r (X : gset Z) => forall a, a ∈ X -> a <= r)).
  - set_solver.
  - intros x X r Hx IH a Ha. apply elem_of_union in Ha as [Ha|Ha].
    + apply elem_of_singleton in Ha. lia.
    + specialize (IH a Ha). lia.
Qed.

Lemma set_fold_nonneg (live : gset Z) : 0 <= set_fold Z.max 0 live.
Proof.
  apply (set_fold_ind_L (fun r (X : gset Z) => 0 <= r)); [done|]. intros x X r Hx IH. lia.
Qed.
