(* ===== verification/RBTree.v ===== *)
(** * The intrusive red-black tree (core/src/hev-rbtree.c, hev-rbtree.h)

    Nodes live in a heap of cells addressed by integers; [0] is [NULL].  The
    parent pointer and the colour share one word, as in the code.  Every
    access goes through a checked load or store: a dereference of an address
    without a cell makes the whole operation [None]. *)
From S2P Require Import Prelude.

(** ** Data (hev-rbtree.h) *)

Record HevRBTreeNode := mkRBNode {
  __parent_color : Z;
  right : Z;
  left : Z;
}.

(** The tree header together with the memory that holds the nodes. *)
Record HevRBTree := mkRBTree {
  root : Z;
  cells : gmap Z HevRBTreeNode;
}.

Definition HEV_RBTREE_RED : Z := 0.
Definition HEV_RBTREE_BLACK : Z := 1.

(** ** Loads and stores *)

Definition rd (t : HevRBTree) (a : Z) : option HevRBTreeNode := cells t !! a.

Definition wr (t : HevRBTree) (a : Z) (f : HevRBTreeNode -> HevRBTreeNode)
  : option HevRBTree :=
  n ← cells t !! a; Some (mkRBTree (root t) (<[a := f n]> (cells t))).

Definition with_pc (v : Z) (n : HevRBTreeNode) := mkRBNode v (right n) (left n).
Definition with_right (v : Z) (n : HevRBTreeNode) := mkRBNode (__parent_color n) v (left n).
Definition with_left (v : Z) (n : HevRBTreeNode) := mkRBNode (__parent_color n) (right n) v.

Definition rd_left t a := n ← rd t a; Some (left n).
Definition rd_right t a := n ← rd t a; Some (right n).
Definition rd_pc t a := n ← rd t a; Some (__parent_color n).
Definition wr_left t a v := wr t a (with_left v).
Definition wr_right t a v := wr t a (with_right v).
Definition wr_pc t a v := wr t a (with_pc v).
Definition wr_root t v := mkRBTree v (cells t).

(** ** Inline helpers *)

Definition hev_rbtree_node_color t node : option Z :=
  pc ← rd_pc t node; Some (Z.land pc 1).

Definition hev_rbtree_node_is_red t node : option bool :=
  c ← hev_rbtree_node_color t node; Some (Z.eqb (Z.land c HEV_RBTREE_BLACK) 0).

Definition hev_rbtree_node_is_black t node : option bool :=
  c ← hev_rbtree_node_color t node;
  Some (negb (Z.eqb (Z.land c HEV_RBTREE_BLACK) 0)).

Definition _hev_rbtree_node_is_black (pc : Z) : bool :=
  negb (Z.eqb (Z.land pc HEV_RBTREE_BLACK) 0).

Definition _hev_rbtree_node_parent (pc : Z) : Z := Z.land pc (Z.lnot 3).

Definition hev_rbtree_node_empty t node : option bool :=
  pc ← rd_pc t node; Some (Z.eqb pc node).

Definition hev_rbtree_node_parent t node : option Z :=
  pc ← rd_pc t node; Some (Z.land pc (Z.lnot 3)).

Definition hev_rbtree_node_red_parent t node : option Z := rd_pc t node.

Definition hev_rbtree_node_set_black t node : option HevRBTree :=
  pc ← rd_pc t node; wr_pc t node (Z.lor pc HEV_RBTREE_BLACK).

Definition hev_rbtree_node_set_parent t node parent : option HevRBTree :=
  c ← hev_rbtree_node_color t node; wr_pc t node (Z.lor c parent).

Definition hev_rbtree_node_set_parent_color t node parent color : option HevRBTree :=
  wr_pc t node (Z.lor parent color).

(** [link] is the address of the child slot: the root, or a side of a node. *)
Inductive link_slot := LinkRoot | LinkLeft (p : Z) | LinkRight (p : Z).

Definition rd_slot t (s : link_slot) : option Z :=
  match s with
  | LinkRoot => Some (root t)
  | LinkLeft p => rd_left t p
  | LinkRight p => rd_right t p
  end.

Definition wr_slot t (s : link_slot) (v : Z) : option HevRBTree :=
  match s with
  | LinkRoot => Some (wr_root t v)
  | LinkLeft p => wr_left t p v
  | LinkRight p => wr_right t p v
  end.

Definition hev_rbtree_node_link t node parent link : option HevRBTree :=
  t ← wr_pc t node parent;
  t ← wr_right t node 0;
  t ← wr_left t node 0;
  wr_slot t link node.

Definition hev_rbtree_change_child t old new parent : option HevRBTree :=
  if negb (Z.eqb parent 0) then
    l ← rd_left t parent;
    if Z.eqb l old then wr_left t parent new else wr_right t parent new
  else Some (wr_root t new).

Definition hev_rbtree_rotate_set_parents t old new color : option HevRBTree :=
  parent ← hev_rbtree_node_parent t old;
  opc ← rd_pc t old;
  t ← wr_pc t new opc;
  t ← hev_rbtree_node_set_parent_color t old new color;
  hev_rbtree_change_child t old new parent.

(** ** Traversal: the loops run at most [fuel] times. *)

Fixpoint leftmost_loop (fuel : nat) t (n : Z) : option Z :=
  match fuel with
  | O => None
  | S fuel =>
      l ← rd_left t n;
      if negb (Z.eqb l 0) then leftmost_loop fuel t l else Some n
  end.

Fixpoint rightmost_loop (fuel : nat) t (n : Z) : option Z :=
  match fuel with
  | O => None
  | S fuel =>
      r ← rd_right t n;
      if negb (Z.eqb r 0) then rightmost_loop fuel t r else Some n
  end.

Definition hev_rbtree_first (fuel : nat) t : option Z :=
  let n := root t in
  if Z.eqb n 0 then Some 0 else leftmost_loop fuel t n.

Definition hev_rbtree_last (fuel : nat) t : option Z :=
  let n := root t in
  if Z.eqb n 0 then Some 0 else rightmost_loop fuel t n.

(** [while ((parent = parent (node)) && node == parent->left) node = parent;] *)
Fixpoint climb_left_loop (fuel : nat) t (node : Z) : option Z :=
  match fuel with
  | O => None
  | S fuel =>
      parent ← hev_rbtree_node_parent t node;
      if Z.eqb parent 0 then Some parent else
      l ← rd_left t parent;
      if Z.eqb node l then climb_left_loop fuel t parent else Some parent
  end.

Fixpoint climb_right_loop (fuel : nat) t (node : Z) : option Z :=
  match fuel with
  | O => None
  | S fuel =>
      parent ← hev_rbtree_node_parent t node;
      if Z.eqb parent 0 then Some parent else
      r ← rd_right t parent;
      if Z.eqb node r then climb_right_loop fuel t parent else Some parent
  end.

Definition hev_rbtree_node_prev (fuel : nat) t node : option Z :=
  e ← hev_rbtree_node_empty t node;
  if (e : bool) then Some 0 else
  l ← rd_left t node;
  if negb (Z.eqb l 0) then rightmost_loop fuel t l
  else climb_left_loop fuel t node.

Definition hev_rbtree_node_next (fuel : nat) t node : option Z :=
  e ← hev_rbtree_node_empty t node;
  if (e : bool) then Some 0 else
  r ← rd_right t node;
  if negb (Z.eqb r 0) then leftmost_loop fuel t r
  else climb_right_loop fuel t node.

(** ** Insertion *)

(** The parent is the left child of the grandparent: the body of the first
    branch of the loop, [inl (node, parent)] to continue, [inr tt] to stop. *)
Definition insert_color_left t node parent gparent tmp
  : option (HevRBTree * (Z * Z + unit)) :=
  uncle_red ← (if negb (Z.eqb tmp 0) then hev_rbtree_node_is_red t tmp
               else Some false);
  if (uncle_red : bool) then
    t ← hev_rbtree_node_set_parent_color t tmp gparent HEV_RBTREE_BLACK;
    t ← hev_rbtree_node_set_parent_color t parent gparent HEV_RBTREE_BLACK;
    let node := gparent in
    parent ← hev_rbtree_node_parent t node;
    t ← hev_rbtree_node_set_parent_color t node parent HEV_RBTREE_RED;
    Some (t, inl (node, parent))
  else
    tmp ← rd_right t parent;
    '(t, parent, tmp) ←
      (if Z.eqb node tmp then
         tmp ← rd_left t node;
         t ← wr_right t parent tmp;
         t ← wr_left t node parent;
         t ← (if negb (Z.eqb tmp 0) then
                hev_rbtree_node_set_parent_color t tmp parent HEV_RBTREE_BLACK
              else Some t);
         t ← hev_rbtree_node_set_parent_color t parent node HEV_RBTREE_RED;
         let parent := node in
         tmp ← rd_right t node;
         Some (t, parent, tmp)
       else Some (t, parent, tmp));
    t ← wr_left t gparent tmp;
    t ← wr_right t parent gparent;
    t ← (if negb (Z.eqb tmp 0) then
           hev_rbtree_node_set_parent_color t tmp gparent HEV_RBTREE_BLACK
         else Some t);
    t ← hev_rbtree_rotate_set_parents t gparent parent HEV_RBTREE_RED;
    Some (t, inr tt).

Definition insert_color_right t node parent gparent
  : option (HevRBTree * (Z * Z + unit)) :=
  tmp ← rd_left t gparent;
  uncle_red ← (if negb (Z.eqb tmp 0) then hev_rbtree_node_is_red t tmp
               else Some false);
  if (uncle_red : bool) then
    t ← hev_rbtree_node_set_parent_color t tmp gparent HEV_RBTREE_BLACK;
    t ← hev_rbtree_node_set_parent_color t parent gparent HEV_RBTREE_BLACK;
    let node := gparent in
    parent ← hev_rbtree_node_parent t node;
    t ← hev_rbtree_node_set_parent_color t node parent HEV_RBTREE_RED;
    Some (t, inl (node, parent))
  else
    tmp ← rd_left t parent;
    '(t, parent, tmp) ←
      (if Z.eqb node tmp then
         tmp ← rd_right t node;
         t ← wr_left t parent tmp;
         t ← wr_right t node parent;
         t ← (if negb (Z.eqb tmp 0) then
                hev_rbtree_node_set_parent_color t tmp parent HEV_RBTREE_BLACK
              else Some t);
         t ← hev_rbtree_node_set_parent_color t parent node HEV_RBTREE_RED;
         let parent := node in
         tmp ← rd_left t node;
         Some (t, parent, tmp)
       else Some (t, parent, tmp));
    t ← wr_right t gparent tmp;
    t ← wr_left t parent gparent;
    t ← (if negb (Z.eqb tmp 0) then
           hev_rbtree_node_set_parent_color t tmp gparent HEV_RBTREE_BLACK
         else Some t);
    t ← hev_rbtree_rotate_set_parents t gparent parent HEV_RBTREE_RED;
    Some (t, inr tt).

Definition insert_color_step t node parent : option (HevRBTree * (Z * Z + unit)) :=
  if Z.eqb parent 0 then
    t ← hev_rbtree_node_set_parent_color t node 0 HEV_RBTREE_BLACK;
    Some (t, inr tt)
  else
  pb ← hev_rbtree_node_is_black t parent;
  if (pb : bool) then Some (t, inr tt) else
  gparent ← hev_rbtree_node_red_parent t parent;
  tmp ← rd_right t gparent;
  if negb (Z.eqb parent tmp) then insert_color_left t node parent gparent tmp
  else insert_color_right t node parent gparent.

Fixpoint insert_color_loop (fuel : nat) t node parent : option HevRBTree :=
  match fuel with
  | O => None
  | S fuel =>
      '(t, r) ← insert_color_step t node parent;
      match r with
      | inl (node, parent) => insert_color_loop fuel t node parent
      | inr _ => Some t
      end
  end.

Definition hev_rbtree_insert_color (fuel : nat) t node : option HevRBTree :=
  parent ← hev_rbtree_node_red_parent t node;
  insert_color_loop fuel t node parent.

(** ** Replacement *)

Definition hev_rbtree_replace t victim new : option HevRBTree :=
  parent ← hev_rbtree_node_parent t victim;
  v ← rd t victim;
  t ← wr t new (fun _ => v);
  l ← rd_left t victim;
  t ← (if negb (Z.eqb l 0) then hev_rbtree_node_set_parent t l new else Some t);
  r ← rd_right t victim;
  t ← (if negb (Z.eqb r 0) then hev_rbtree_node_set_parent t r new else Some t);
  hev_rbtree_change_child t victim new parent.

(** ** Erasure *)

(** [do { parent = successor; successor = tmp; tmp = tmp->left; } while (tmp);] *)
Fixpoint successor_loop (fuel : nat) t (successor tmp : Z) : option (Z * Z) :=
  match fuel with
  | O => None
  | S fuel =>
      let parent := successor in
      let successor := tmp in
      tmp ← rd_left t tmp;
      if negb (Z.eqb tmp 0) then successor_loop fuel t successor tmp
      else Some (parent, successor)
  end.

(** The two-children case of [_hev_rbtree_erase]. *)
Definition erase_two (fuel : nat) t node child : option (HevRBTree * Z) :=
  tmp ← rd_left t child;
  '(t, parent, successor, child2) ←
    (if Z.eqb tmp 0 then
       let successor := child in
       child2 ← rd_right t successor;
       Some (t, successor, successor, child2)
     else
       '(parent, successor) ← successor_loop fuel t child tmp;
       child2 ← rd_right t successor;
       t ← wr_left t parent child2;
       t ← wr_right t successor child;
       t ← hev_rbtree_node_set_parent t child successor;
       Some (t, parent, successor, child2));
  tmp ← rd_left t node;
  t ← wr_left t successor tmp;
  t ← hev_rbtree_node_set_parent t tmp successor;
  pc ← rd_pc t node;
  let tmp := _hev_rbtree_node_parent pc in
  t ← hev_rbtree_change_child t node successor tmp;
  '(t, rebalance) ←
    (if negb (Z.eqb child2 0) then
       t ← hev_rbtree_node_set_parent_color t child2 parent HEV_RBTREE_BLACK;
       Some (t, 0)
     else
       b ← hev_rbtree_node_is_black t successor;
       Some (t, if (b : bool) then parent else 0));
  t ← wr_pc t successor pc;
  Some (t, rebalance).

Definition _hev_rbtree_erase (fuel : nat) t node : option (HevRBTree * Z) :=
  child ← rd_right t node;
  tmp ← rd_left t node;
  if Z.eqb tmp 0 then
    pc ← rd_pc t node;
    let parent := _hev_rbtree_node_parent pc in
    t ← hev_rbtree_change_child t node child parent;
    if negb (Z.eqb child 0) then
      t ← wr_pc t child pc;
      Some (t, 0)
    else Some (t, if _hev_rbtree_node_is_black pc then parent else 0)
  else if Z.eqb child 0 then
    pc ← rd_pc t node;
    t ← wr_pc t tmp pc;
    let parent := _hev_rbtree_node_parent pc in
    t ← hev_rbtree_change_child t node tmp parent;
    Some (t, 0)
  else erase_two fuel t node child.

(** [!n || hev_rbtree_node_is_black (n)] *)
Definition null_or_black t n : option bool :=
  if Z.eqb n 0 then Some true else hev_rbtree_node_is_black t n.

(** Case 4: rotate at [parent] and flip the colours. *)
Definition erase_case4_left t parent sibling tmp1
  : option (HevRBTree * (Z * Z + unit)) :=
  tmp2 ← rd_left t sibling;
  t ← wr_right t parent tmp2;
  t ← wr_left t sibling parent;
  t ← hev_rbtree_node_set_parent_color t tmp1 sibling HEV_RBTREE_BLACK;
  t ← (if negb (Z.eqb tmp2 0) then hev_rbtree_node_set_parent t tmp2 parent
       else Some t);
  t ← hev_rbtree_rotate_set_parents t parent sibling HEV_RBTREE_BLACK;
  Some (t, inr tt).

(** Cases 2 to 4, the sibling being black. *)
Definition erase_case234_left t parent sibling : option (HevRBTree * (Z * Z + unit)) :=
  tmp1 ← rd_right t sibling;
  b1 ← null_or_black t tmp1;
  if (b1 : bool) then
    tmp2 ← rd_left t sibling;
    b2 ← null_or_black t tmp2;
    if (b2 : bool) then
      t ← hev_rbtree_node_set_parent_color t sibling parent HEV_RBTREE_RED;
      pr ← hev_rbtree_node_is_red t parent;
      if (pr : bool) then
        t ← hev_rbtree_node_set_black t parent; Some (t, inr tt)
      else
        let node := parent in
        parent ← hev_rbtree_node_parent t node;
        Some (t, if negb (Z.eqb parent 0) then inl (node, parent) else inr tt)
    else
      tmp1 ← rd_right t tmp2;
      t ← wr_left t sibling tmp1;
      t ← wr_right t tmp2 sibling;
      t ← wr_right t parent tmp2;
      t ← (if negb (Z.eqb tmp1 0) then
             hev_rbtree_node_set_parent_color t tmp1 sibling HEV_RBTREE_BLACK
           else Some t);
      let tmp1 := sibling in
      let sibling := tmp2 in
      erase_case4_left t parent sibling tmp1
  else
    erase_case4_left t parent sibling tmp1.

(** Case 1: a red sibling is rotated above [parent]. *)
Definition erase_case1_left t parent sibling : option (HevRBTree * Z) :=
  red ← hev_rbtree_node_is_red t sibling;
  if (red : bool) then
    tmp1 ← rd_left t sibling;
    t ← wr_right t parent tmp1;
    t ← wr_left t sibling parent;
    t ← hev_rbtree_node_set_parent_color t tmp1 parent HEV_RBTREE_BLACK;
    t ← hev_rbtree_rotate_set_parents t parent sibling HEV_RBTREE_RED;
    Some (t, tmp1)
  else Some (t, sibling).

(** The node to fix is the left child of [parent]; [inl (node, parent)] to
    continue the loop one level up. *)
Definition erase_color_left t parent sibling : option (HevRBTree * (Z * Z + unit)) :=
  '(t, sibling) ← erase_case1_left t parent sibling;
  erase_case234_left t parent sibling.

(** Case 4: rotate at [parent] and flip the colours. *)
Definition erase_case4_right t parent sibling tmp1
  : option (HevRBTree * (Z * Z + unit)) :=
  tmp2 ← rd_right t sibling;
  t ← wr_left t parent tmp2;
  t ← wr_right t sibling parent;
  t ← hev_rbtree_node_set_parent_color t tmp1 sibling HEV_RBTREE_BLACK;
  t ← (if negb (Z.eqb tmp2 0) then hev_rbtree_node_set_parent t tmp2 parent
       else Some t);
  t ← hev_rbtree_rotate_set_parents t parent sibling HEV_RBTREE_BLACK;
  Some (t, inr tt).

(** Cases 2 to 4, the sibling being black. *)
Definition erase_case234_right t parent sibling : option (HevRBTree * (Z * Z + unit)) :=
  tmp1 ← rd_left t sibling;
  b1 ← null_or_black t tmp1;
  if (b1 : bool) then
    tmp2 ← rd_right t sibling;
    b2 ← null_or_black t tmp2;
    if (b2 : bool) then
      t ← hev_rbtree_node_set_parent_color t sibling parent HEV_RBTREE_RED;
      pr ← hev_rbtree_node_is_red t parent;
      if (pr : bool) then
        t ← hev_rbtree_node_set_black t parent; Some (t, inr tt)
      else
        let node := parent in
        parent ← hev_rbtree_node_parent t node;
        Some (t, if negb (Z.eqb parent 0) then inl (node, parent) else inr tt)
    else
      tmp1 ← rd_left t tmp2;
      t ← wr_right t sibling tmp1;
      t ← wr_left t tmp2 sibling;
      t ← wr_left t parent tmp2;
      t ← (if negb (Z.eqb tmp1 0) then
             hev_rbtree_node_set_parent_color t tmp1 sibling HEV_RBTREE_BLACK
           else Some t);
      let tmp1 := sibling in
      let sibling := tmp2 in
      erase_case4_right t parent sibling tmp1
  else
    erase_case4_right t parent sibling tmp1.

(** Case 1: a red sibling is rotated above [parent]. *)
Definition erase_case1_right t parent sibling : option (HevRBTree * Z) :=
  red ← hev_rbtree_node_is_red t sibling;
  if (red : bool) then
    tmp1 ← rd_right t sibling;
    t ← wr_left t parent tmp1;
    t ← wr_right t sibling parent;
    t ← hev_rbtree_node_set_parent_color t tmp1 parent HEV_RBTREE_BLACK;
    t ← hev_rbtree_rotate_set_parents t parent sibling HEV_RBTREE_RED;
    Some (t, tmp1)
  else Some (t, sibling).

(** The node to fix is the right child of [parent]; [inl (node, parent)] to
    continue the loop one level up. *)
Definition erase_color_right t parent : option (HevRBTree * (Z * Z + unit)) :=
  sibling ← rd_left t parent;
  '(t, sibling) ← erase_case1_right t parent sibling;
  erase_case234_right t parent sibling.

Definition erase_color_step t node parent : option (HevRBTree * (Z * Z + unit)) :=
  sibling ← rd_right t parent;
  if negb (Z.eqb node sibling) then erase_color_left t parent sibling
  else erase_color_right t parent.

Fixpoint erase_color_loop (fuel : nat) t node parent : option HevRBTree :=
  match fuel with
  | O => None
  | S fuel =>
      '(t, r) ← erase_color_step t node parent;
      match r with
      | inl (node, parent) => erase_color_loop fuel t node parent
      | inr _ => Some t
      end
  end.

Definition _hev_rbtree_erase_color (fuel : nat) t parent : option HevRBTree :=
  erase_color_loop fuel t 0 parent.

Definition hev_rbtree_erase (fuel : nat) t node : option HevRBTree :=
  '(t, rebalance) ← _hev_rbtree_erase fuel t node;
  if negb (Z.eqb rebalance 0) then _hev_rbtree_erase_color fuel t rebalance
  else Some t.
