(* ===== verification/RBTreeShape.v ===== *)
(** * Shapes: abstract trees, contexts and their representation in memory

    A red-black tree in memory is described by an inductive [tree] whose nodes
    carry the addresses of the cells; a position inside it by a context, the
    list of the frames from that position up to the root. *)
From S2P Require Import Prelude RBTree.

Inductive color := Red | Black.

Inductive tree :=
| Leaf
| Node (c : color) (l : tree) (a : Z) (r : tree).

Inductive dir := DL | DR.

(** The hole is the [d] child of the node [a] of colour [c], whose other
    child is [s]. *)
Inductive frame := Fr (d : dir) (c : color) (a : Z) (s : tree).

Abbreviation ctx := (list frame).

Definition colz (c : color) : Z :=
  match c with Red => HEV_RBTREE_RED | Black => HEV_RBTREE_BLACK end.

Definition mkpc (p : Z) (c : color) : Z := Z.lor p (colz c).

Definition aligned (a : Z) : Prop := Z.land a 3 = 0.
Definition addr_ok (a : Z) : Prop := a <> 0 /\ aligned a.

Definition tree_root (t : tree) : Z :=
  match t with Leaf => 0 | Node _ _ a _ => a end.

Definition top (k : ctx) : Z :=
  match k with [] => 0 | Fr _ _ a _ :: _ => a end.

Fixpoint inorder (t : tree) : list Z :=
  match t with
  | Leaf => []
  | Node _ l a r => inorder l ++ a :: inorder r
  end.

Fixpoint plug (k : ctx) (t : tree) : tree :=
  match k with
  | [] => t
  | Fr DL c a s :: k => plug k (Node c t a s)
  | Fr DR c a s :: k => plug k (Node c s a t)
  end.

(** The subtree of a frame once its hole is filled with [t]. *)
Definition graft (d : dir) (c : color) (t : tree) (a : Z) (s : tree) : tree :=
  match d with DL => Node c t a s | DR => Node c s a t end.

(** The addresses before and after the hole of a context. *)
Fixpoint lctx (k : ctx) : list Z :=
  match k with
  | [] => []
  | Fr DL _ _ _ :: k => lctx k
  | Fr DR _ a s :: k => lctx k ++ inorder s ++ [a]
  end.

Fixpoint rctx (k : ctx) : list Z :=
  match k with
  | [] => []
  | Fr DL _ a s :: k => a :: inorder s ++ rctx k
  | Fr DR _ _ _ :: k => rctx k
  end.

Definition frame_cell (p : Z) (d : dir) (c : color) (hole s : Z) : HevRBTreeNode :=
  match d with
  | DL => mkRBNode (mkpc p c) s hole
  | DR => mkRBNode (mkpc p c) hole s
  end.

(** [tree_at h p t]: the cells of [h] hold [t], hanging under parent [p]. *)
Fixpoint tree_at (h : gmap Z HevRBTreeNode) (p : Z) (t : tree) : Prop :=
  match t with
  | Leaf => True
  | Node c l a r =>
      addr_ok a /\ h !! a = Some (mkRBNode (mkpc p c) (tree_root r) (tree_root l)) /\
      tree_at h a l /\ tree_at h a r
  end.

Fixpoint ctx_at (T : HevRBTree) (hole : Z) (k : ctx) : Prop :=
  match k with
  | [] => root T = hole
  | Fr d c a s :: k =>
      addr_ok a /\ cells T !! a = Some (frame_cell (top k) d c hole (tree_root s)) /\
      tree_at (cells T) a s /\ ctx_at T a k
  end.

Definition zip_at (T : HevRBTree) (k : ctx) (t : tree) : Prop :=
  ctx_at T (tree_root t) k /\ tree_at (cells T) (top k) t /\
  uniq (inorder t ++ lctx k ++ rctx k).

(** The memory represents exactly [t]. *)
Definition whole (T : HevRBTree) (t : tree) : Prop := zip_at T [] t.

(** ** Red-black invariants: root colour and black height *)

Inductive isrb : tree -> color -> nat -> Prop :=
| RB_leaf : isrb Leaf Black 0
| RB_red l a r n : isrb l Black n -> isrb r Black n -> isrb (Node Red l a r) Red n
| RB_black l a r cl cr n :
    isrb l cl n -> isrb r cr n -> isrb (Node Black l a r) Black (S n).

(** [isctx k c n]: filling the hole of [k] with a tree of root colour [c] and
    black height [n] gives a red-black tree with a black root. *)
Inductive isctx : ctx -> color -> nat -> Prop :=
| C_nil n : isctx [] Black n
| C_red d a s k n : isrb s Black n -> isctx k Red n -> isctx (Fr d Red a s :: k) Black n
| C_black d a s k c cs n :
    isrb s cs n -> isctx k Black (S n) -> isctx (Fr d Black a s :: k) c n.

(** The component's invariant: the memory holds a red-black tree whose nodes,
    from left to right, are [xs]. *)
Definition rb_rep (T : HevRBTree) (xs : list Z) : Prop :=
  exists t n, whole T t /\ isrb t Black n /\ inorder t = xs.

(** ** The parent-and-colour word *)

Lemma land_1_of_3 p : aligned p -> Z.land p 1 = 0.
Proof.
  unfold aligned. intros H. replace 1 with (Z.land 3 1) by reflexivity.
  by rewrite Z.land_assoc, H.
Qed.

Lemma pc_color p c : aligned p -> Z.land (mkpc p c) 1 = colz c.
Proof.
  intros H. unfold mkpc. rewrite Z.land_lor_distr_l, (land_1_of_3 p H).
  by destruct c.
Qed.

Lemma pc_parent p c : aligned p -> Z.land (mkpc p c) (Z.lnot 3) = p.
Proof.
  intros H. unfold mkpc. rewrite Z.land_lor_distr_l.
  replace (Z.land (colz c) (Z.lnot 3)) with 0 by (by destruct c).
  rewrite Z.lor_0_r. unfold aligned in H. apply Z.bits_inj'. intros i Hi.
  rewrite Z.land_spec, Z.lnot_spec by done.
  assert (Z.testbit (Z.land p 3) i = false) as Hb by (rewrite H; apply Z.bits_0).
  rewrite Z.land_spec in Hb. by destruct (Z.testbit p i), (Z.testbit 3 i).
Qed.

Lemma mkpc_black_lor p : Z.lor (mkpc p Red) HEV_RBTREE_BLACK = mkpc p Black.
Proof. unfold mkpc. simpl. by rewrite Z.lor_0_r. Qed.

Lemma mkpc_red p : mkpc p Red = p.
Proof. apply Z.lor_0_r. Qed.

Lemma lor_red p : Z.lor p HEV_RBTREE_RED = p.
Proof. apply Z.lor_0_r. Qed.

Lemma mkpc_lor_comm p c : Z.lor (colz c) p = mkpc p c.
Proof. apply Z.lor_comm. Qed.

Lemma aligned_0 : aligned 0.
Proof. done. Qed.

Lemma addr_ok_aligned a : addr_ok a -> aligned a.
Proof. by intros [_ ?]. Qed.

Lemma addr_ok_ne a : addr_ok a -> a <> 0.
Proof. by intros [? _]. Qed.

Create HintDb rb.
#[export] Hint Resolve aligned_0 addr_ok_aligned addr_ok_ne : rb.
#[export] Hint Constructors isrb isctx : rb.

(** ** Structure lemmas *)

Lemma inorder_plug k t : inorder (plug k t) = lctx k ++ inorder t ++ rctx k.
Proof.
  revert t. induction k as [|[[] c a s] k IH]; intros t; simpl.
  - by rewrite app_nil_r.
  - rewrite IH. simpl. by rewrite <- app_assoc.
  - rewrite IH. simpl. by rewrite <- !app_assoc.
Qed.

Lemma tree_at_frame h h' p t :
  (forall a, a ∈ inorder t -> h' !! a = h !! a) -> tree_at h p t -> tree_at h' p t.
Proof.
  revert p. induction t as [|c l IHl a r IHr]; intros p Hf; simpl; [done|].
  intros (Ha & Hc & Hl & Hr). simpl in Hf. split_and!; [done| | |].
  - rewrite Hf; [done|]. rewrite elem_of_app, elem_of_cons. auto.
  - apply IHl; [|done]. intros x Hx. apply Hf. rewrite elem_of_app. auto.
  - apply IHr; [|done]. intros x Hx. apply Hf.
    rewrite elem_of_app, elem_of_cons. auto.
Qed.

Lemma ctx_at_frame T T' hole k :
  root T' = root T ->
  (forall a, a ∈ lctx k ++ rctx k -> cells T' !! a = cells T !! a) ->
  ctx_at T hole k -> ctx_at T' hole k.
Proof.
  intros Hr. revert hole.
  induction k as [|[d c a s] k IH]; intros hole Hf; simpl; [by rewrite Hr|].
  intros (Ha & Hc & Hs & Hk). split_and!; [done| | |].
  - rewrite Hf; [done|]. destruct d; simpl; set_solver.
  - apply (tree_at_frame (cells T)); [|done]. intros x Hx. apply Hf.
    destruct d; simpl; set_solver.
  - apply IH; [|done]. intros x Hx. apply Hf. destruct d; simpl; set_solver.
Qed.

Lemma tree_at_addr_ok h p t a : tree_at h p t -> a ∈ inorder t -> addr_ok a.
Proof.
  revert p. induction t as [|c l IHl b r IHr]; intros p; simpl; [set_solver|].
  intros (Hb & _ & Hl & Hr). rewrite elem_of_app, elem_of_cons.
  intros [?|[->|?]]; eauto.
Qed.

Lemma tree_at_cell h p t a : tree_at h p t -> a ∈ inorder t -> is_Some (h !! a).
Proof.
  revert p. induction t as [|c l IHl b r IHr]; intros p; simpl; [set_solver|].
  intros (_ & Hb & Hl & Hr). rewrite elem_of_app, elem_of_cons.
  intros [?|[->|?]]; eauto.
Qed.

Lemma tree_root_not_in h p t a : tree_at h p t -> addr_ok a -> a ∉ inorder t ->
  tree_root t <> a.
Proof.
  destruct t as [|c l b r]; simpl.
  - intros _ [? _] _. auto.
  - intros _ _ Hn ->. apply Hn. set_solver.
Qed.

Lemma isctx_top_aligned T hole k : ctx_at T hole k -> aligned (top k).
Proof. destruct k as [|[d c a s] k]; simpl; [done|]. intros (?&_). auto with rb. Qed.

Lemma plug_whole T k t : zip_at T k t -> whole T (plug k t).
Proof.
  revert t. induction k as [|[d c a s] k IH]; intros t; simpl; [done|].
  intros ((Ha & Hc & Hs & Hk) & Ht & Hu). simpl in *.
  destruct d; apply IH; unfold zip_at; simpl in *; (split; [done|split; [done|]]);
    intros x; cnt_gather x; cnt_decide.
Qed.

Lemma plug_isrb k c n t : isctx k c n -> isrb t c n ->
  exists m, isrb (plug k t) Black m.
Proof.
  intros Hk. revert t. induction Hk as [|d a s k n|d a s k c cs n]; intros t Ht; simpl.
  - eauto.
  - destruct d; apply IHHk; by constructor.
  - destruct d; apply IHHk; by econstructor.
Qed.

Lemma isctx_black k n : isctx k Red n -> isctx k Black n.
Proof. inversion 1; subst; econstructor; eauto. Qed.

(** [isrb]-guided case analysis: a black tree is a leaf or a black node. *)
Lemma isrb_black_inv t n : isrb t Black n ->
  (t = Leaf /\ n = 0%nat) \/
  (exists l a r cl cr m, t = Node Black l a r /\ n = S m /\ isrb l cl m /\ isrb r cr m).
Proof. inversion 1; subst; [by left|right; eauto 10]. Qed.

Lemma isrb_S_inv t c n : isrb t c (S n) ->
  exists l a r, t = Node c l a r.
Proof. inversion 1; subst; eauto. Qed.

(** ** Symbolic execution *)

(** Derives the pairwise distinctness of all node addresses of the context. *)
Ltac gen_ne :=
  repeat match goal with
  | Ha : addr_ok ?a, Hb : addr_ok ?b |- _ =>
      lazymatch a with b => fail | _ => idtac end;
      lazymatch goal with
      | _ : a <> b |- _ => fail
      | _ : b <> a |- _ => fail
      | _ => assert (a <> b) by disj
      end
  end;
  repeat match goal with
  | Ha : addr_ok ?a |- _ =>
      lazymatch goal with
      | _ : a <> 0 |- _ => fail
      | _ => pose proof (addr_ok_ne a Ha)
      end
  end.

Ltac ne_solve :=
  lazymatch goal with
  | |- tree_root ?s <> ?a =>
      eapply (tree_root_not_in _ _ s); [eassumption|assumption|disj]
  | |- ?a <> tree_root ?s => apply not_eq_sym; ne_solve
  | |- _ => first [assumption | apply not_eq_sym; assumption | disj]
  end.

Ltac rb_unfold :=
  unfold null_or_black, hev_rbtree_rotate_set_parents,
    hev_rbtree_node_set_parent_color,
    hev_rbtree_node_set_parent, hev_rbtree_node_set_black,
    hev_rbtree_node_is_red, hev_rbtree_node_is_black,
    _hev_rbtree_node_is_black, _hev_rbtree_node_parent,
    hev_rbtree_node_red_parent, hev_rbtree_node_parent,
    hev_rbtree_node_color, rd_left, rd_right, rd_pc,
    wr_left, wr_right, wr_pc, wr, rd, with_pc, with_left, with_right in *.

Ltac rb_simpl :=
  cbn [mbind option_bind root cells __parent_color right left tree_root
       frame_cell top negb colz] in *.

(** One lookup, comparison or colour test of the goal. *)
Ltac rb_step1 :=
  match goal with
  | H : cells ?T !! ?a = Some _ |- context [cells ?T !! ?a] => rewrite H
  | Hf : forall a, a ∉ _ -> cells ?T !! a = _ |- context [cells ?T !! _] =>
      rewrite Hf by disj
  | |- context [<[?a:=_]> _ !! ?a] => rewrite lookup_insert_eq
  | |- context [<[?b:=_]> _ !! ?a] => rewrite lookup_insert_ne by ne_solve
  | |- context [Z.eqb ?a ?a] => rewrite (Z.eqb_refl a)
  | |- context [Z.eqb ?a ?b] => rewrite (proj2 (Z.eqb_neq a b)) by ne_solve
  | |- context [Z.eqb (Z.land HEV_RBTREE_RED HEV_RBTREE_BLACK) 0] =>
      change (Z.eqb (Z.land HEV_RBTREE_RED HEV_RBTREE_BLACK) 0) with true
  | |- context [Z.eqb (Z.land HEV_RBTREE_BLACK HEV_RBTREE_BLACK) 0] =>
      change (Z.eqb (Z.land HEV_RBTREE_BLACK HEV_RBTREE_BLACK) 0) with false
  | |- context [Z.land (mkpc ?p ?c) 1] => rewrite (pc_color p c) by eauto with rb
  | |- context [Z.land (mkpc ?p ?c) (Z.lnot 3)] =>
      rewrite (pc_parent p c) by eauto with rb
  end; rb_simpl.

Ltac rb_exec := rb_unfold; rb_simpl; repeat rb_step1.

Ltac rb_done :=
  first [ reflexivity
        | solve [rb_exec; rewrite ?mkpc_red; reflexivity] ].

Ltac rb_cond a b :=
  first [ constr_eq a b; rewrite (Z.eqb_refl a)
        | rewrite (proj2 (Z.eqb_neq a b)) by ne_solve ];
  cbn [negb].

(** One step of a computation; stops where a lemma below takes over: at
    [hev_rbtree_change_child] and at operations on an optional subtree. *)
Ltac rb_run1 :=
  lazymatch goal with
  | |- wp (hev_rbtree_change_child _ _ _ _) _ => fail
  | |- wp (if negb (Z.eqb (tree_root _) 0) then _ else _) _ => fail
  | |- wp (null_or_black _ (tree_root _)) _ => fail
  | |- wp (mbind _ _) _ => apply wp_bind
  | |- wp (Some _) _ => apply wp_ret; cbv beta iota zeta
  | |- wp (if negb (Z.eqb ?a ?b) then _ else _) _ => rb_cond a b
  | |- wp (if Z.eqb ?a ?b then _ else _) _ => rb_cond a b
  | |- wp (hev_rbtree_rotate_set_parents _ _ _ _) _ =>
      unfold hev_rbtree_rotate_set_parents
  | |- wp (match _ with _ => _ end) _ => progress rb_simpl
  | |- wp _ _ => eapply wp_prim; [rb_done|cbv beta iota zeta]
  end.

Ltac rb_run := repeat rb_run1.

(** *** Discharging representations in updated heaps *)

Ltac use_frame :=
  repeat match goal with
  | Hf : forall a, a ∉ _ -> cells ?T !! a = _ |- context [cells ?T !! _] =>
      rewrite Hf by disj; rb_simpl
  | |- context [<[?b:=_]> _ !! ?a] => rewrite lookup_insert_ne by disj
  end.

(** [h' !! y = h !! y] for the addresses [y] of an unmodified part. *)
Ltac frame_solve :=
  let y := fresh "y" in let Hy := fresh "Hy" in
  intros y Hy; first [apply cnt_pos in Hy | apply cnt_zero in Hy];
  rb_simpl; use_frame; try reflexivity.

Ltac cell_solve := rb_exec; rewrite ?mkpc_red, ?lor_red; reflexivity.

Ltac tree_solve :=
  match goal with
  | |- True => exact I
  | |- tree_at _ _ Leaf => exact I
  | |- tree_at _ _ (Node _ _ _ _) => cbn [tree_at tree_root]; tree_solve
  | |- _ /\ _ =>
      refine (conj _ (conj _ (conj _ _)));
      [ assumption | cell_solve | tree_solve | tree_solve ]
  | H : tree_at ?h ?p ?t |- tree_at _ ?p ?t => exact H
  | H : tree_at ?h ?p ?t |- tree_at _ ?p ?t =>
      apply (tree_at_frame h); [frame_solve|exact H]
  end.

(** The same when the parent is to be found. *)
Ltac tree_find :=
  match goal with
  | H : tree_at ?h ?q ?t |- tree_at ?h _ ?t => exact H
  | H : tree_at ?h ?q ?t |- tree_at ?h' _ ?t =>
      apply (tree_at_frame h h' q t); [frame_solve|exact H]
  end.

Ltac root_solve :=
  rb_simpl;
  repeat match goal with
  | H : root ?T = _ |- context [root ?T] => rewrite H; rb_simpl
  end; reflexivity.

Ltac ctx_solve :=
  match goal with
  | H : ctx_at ?T ?h ?k |- ctx_at _ ?h ?k => exact H
  | H : ctx_at ?T ?h ?k |- ctx_at _ ?h ?k =>
      apply (ctx_at_frame T); [root_solve|frame_solve|exact H]
  end.

Ltac norm_app :=
  cbn [inorder lctx rctx app];
  repeat progress (rewrite <- ?app_assoc; cbn [app]); reflexivity.

(** ** Storing a new child under the parent of a position *)
Lemma wp_change_child T old new k :
  ctx_at T old k -> addr_ok old -> uniq (old :: lctx k ++ rctx k) ->
  wp (hev_rbtree_change_child T old new (top k)) (fun T' =>
    ctx_at T' new k /\
    (forall a, a ∉ lctx k ++ rctx k -> cells T' !! a = cells T !! a)).
Proof.
  destruct k as [|[d c a s] k]; simpl.
  - intros _ _ _. eexists. split; [done|]. split; [done|]. done.
  - intros (Ha & Hc & Hs & Hk) Ho Hu. unfold hev_rbtree_change_child.
    assert (a <> 0) as Hn by auto with rb.
    rewrite (proj2 (Z.eqb_neq a 0) Hn). simpl.
    destruct d; simpl in Hc.
    + eexists. split; [rb_exec; reflexivity|].
      split; [split_and!; [done|apply lookup_insert_eq| |]|].
      * apply (tree_at_frame (cells T)); [|done]. intros x Hx. simpl.
        apply lookup_insert_ne. apply cnt_pos in Hx. disj.
      * apply (ctx_at_frame T); [done| |done]. intros x Hx. simpl.
        apply lookup_insert_ne. apply cnt_pos in Hx. disj.
      * intros x Hx. simpl. apply lookup_insert_ne. apply cnt_zero in Hx. disj.
    + assert (tree_root s <> old) as Hso.
      { apply (tree_root_not_in (cells T) a); [done..|].
        disj. }
      eexists. split.
      { rb_exec. reflexivity. }
      split; [split_and!; [done|apply lookup_insert_eq| |]|].
      * apply (tree_at_frame (cells T)); [|done]. intros x Hx. simpl.
        apply lookup_insert_ne. apply cnt_pos in Hx. disj.
      * apply (ctx_at_frame T); [done| |done]. intros x Hx. simpl.
        apply lookup_insert_ne. apply cnt_pos in Hx. disj.
      * intros x Hx. simpl. apply lookup_insert_ne. apply cnt_zero in Hx. disj.
Qed.

(** ** Hanging an optional subtree under a new parent *)

Definition reparented (T T' : HevRBTree) (p : Z) (s : tree) : Prop :=
  root T' = root T /\ tree_at (cells T') p s /\
  (forall a, a ∉ inorder s -> cells T' !! a = cells T !! a).

Lemma reparent_insert T q p c l a r :
  tree_at (cells T) q (Node c l a r) -> uniq (inorder (Node c l a r)) ->
  reparented T
    (mkRBTree (root T)
      (<[a := mkRBNode (mkpc p c) (tree_root r) (tree_root l)]> (cells T))) p
    (Node c l a r).
Proof.
  intros (Ha & Hc & Hl & Hr) Hu. simpl in Hu. split; [done|]. split.
  - simpl. split; [done|]. split; [apply lookup_insert_eq|].
    split; (eapply tree_at_frame; [|eassumption]); intros y Hy;
      apply cnt_pos in Hy; apply lookup_insert_ne; disj.
  - intros y Hy. simpl in *. apply cnt_zero in Hy. apply lookup_insert_ne. disj.
Qed.

Lemma wp_blacken_child T q p s n :
  tree_at (cells T) q s -> isrb s Black n -> uniq (inorder s) ->
  wp (if negb (Z.eqb (tree_root s) 0)
      then hev_rbtree_node_set_parent_color T (tree_root s) p HEV_RBTREE_BLACK
      else Some T) (fun T' => reparented T T' p s).
Proof.
  intros Hs Hb Hu. destruct s as [|c l a r]; simpl.
  - by exists T.
  - assert (c = Black) as -> by (by inversion Hb).
    pose proof (reparent_insert T q p Black l a r Hs Hu) as Hrep.
    destruct Hs as ([Ha0 Ha] & Hc & Hl & Hr). rewrite (proj2 (Z.eqb_neq a 0) Ha0). simpl.
    eexists. split; [|exact Hrep]. rb_exec. reflexivity.
Qed.

Lemma wp_reparent_child T q p s :
  tree_at (cells T) q s -> aligned q -> uniq (inorder s) ->
  wp (if negb (Z.eqb (tree_root s) 0)
      then hev_rbtree_node_set_parent T (tree_root s) p
      else Some T) (fun T' => reparented T T' p s).
Proof.
  intros Hs Hq Hu. destruct s as [|c l a r]; simpl.
  - by exists T.
  - pose proof (reparent_insert T q p c l a r Hs Hu) as Hrep.
    destruct Hs as ([Ha0 Ha] & Hc & Hl & Hr). rewrite (proj2 (Z.eqb_neq a 0) Ha0). simpl.
    eexists. split; [|exact Hrep]. rb_exec. rewrite mkpc_lor_comm. reflexivity.
Qed.

Lemma wp_black_not_red T q s n :
  tree_at (cells T) q s -> aligned q -> isrb s Black n ->
  wp (if negb (Z.eqb (tree_root s) 0) then hev_rbtree_node_is_red T (tree_root s)
      else Some false) (fun b => b = false).
Proof.
  intros Hs Hq Hb. destruct s as [|c l a r]; simpl.
  - by exists false.
  - assert (c = Black) as -> by (by inversion Hb).
    destruct Hs as ([Ha0 Ha] & Hc & Hl & Hr). rewrite (proj2 (Z.eqb_neq a 0) Ha0). simpl.
    eexists. split; [|reflexivity]. rb_exec. reflexivity.
Qed.

(** *** Tactics that step over these operations *)

Ltac rb_change_child T' Hk' Hf :=
  eapply wp_mono;
  [ eapply wp_change_child; [ctx_solve|assumption|disj]
  | intros T' [Hk' Hf]; rb_run ].

Ltac rb_blacken T' Hr Ht Hf :=
  eapply wp_mono;
  [ eapply wp_blacken_child; [tree_find|eassumption|disj]
  | intros T' (Hr & Ht & Hf); rb_run ].

Ltac rb_reparent T' Hr Ht Hf :=
  eapply wp_mono;
  [ eapply wp_reparent_child; [tree_find|eauto with rb|disj]
  | intros T' (Hr & Ht & Hf); rb_run ].

Ltac rb_not_red :=
  eapply wp_mono;
  [ eapply wp_black_not_red; [tree_find|eauto with rb|eassumption]
  | intros ? ->; rb_run ].
