(* ===== verification/RBTreeFixup.v ===== *)
(** * Correctness of the recolouring after an insertion and of hev_rbtree_erase *)
From S2P Require Import Prelude RBTree RBTreeShape.

(** What one iteration of a rebalancing loop guarantees: it either stops with
    a red-black tree over the same nodes, or moves the red node up. *)
Definition insert_post (T : HevRBTree) (k : ctx) (xs : list Z)
    (out : HevRBTree * (Z * Z + unit)) : Prop :=
  let '(T', res) := out in
  (forall a, a ∉ xs -> cells T' !! a = cells T !! a) /\
  match res with
  | inr _ => rb_rep T' xs
  | inl (node, parent) =>
      exists k' l r m,
        zip_at T' k' (Node Red l node r) /\ isrb l Black m /\ isrb r Black m /\
        isctx k' Black m /\ parent = top k' /\ (length k' < length k)%nat /\
        lctx k' ++ inorder (Node Red l node r) ++ rctx k' = xs
  end.

Lemma rb_rep_zip T k t c m xs :
  zip_at T k t -> isctx k c m -> isrb t c m ->
  lctx k ++ inorder t ++ rctx k = xs -> rb_rep T xs.
Proof.
  intros Hz Hk Ht <-. destruct (plug_isrb k c m t Hk Ht) as [n Hn].
  exists (plug k t), n. split; [by apply plug_whole|].
  split; [done|]. apply inorder_plug.
Qed.

Ltac finish_recolor k l r m :=
  exists k, l, r, m; refine (conj _ _); [|split_and!];
  [ refine (conj _ (conj _ _)); [ctx_solve|tree_solve|cbn [inorder]; disj]
  | eauto with rb | eauto with rb | assumption | reflexivity | cbn [length]; lia | norm_app ].

(** Case 1: the uncle is red. *)
Lemma insert_step_recolor T k d1 p s d2 g ul ua ur l x r m :
  zip_at T (Fr d1 Red p s :: Fr d2 Black g (Node Red ul ua ur) :: k) (Node Red l x r) ->
  isrb l Black m -> isrb r Black m -> isrb s Black m ->
  isrb (Node Red ul ua ur) Red m -> isctx k Black (S m) ->
  let k0 := Fr d1 Red p s :: Fr d2 Black g (Node Red ul ua ur) :: k in
  wp (insert_color_step T x p)
    (insert_post T k0 (lctx k0 ++ inorder (Node Red l x r) ++ rctx k0)).
Proof.
  intros ((Hp & Cp & Ts & Hg & Cg & (Hu & Cu & Tul & Tur) & Hk) & (Hx & Cx & Tl & Tr) & Hun)
    Bl Br Bs Bu Hc k0; subst k0.
  pose proof (isctx_top_aligned _ _ _ Hk) as Hal. inversion_clear Bu.
  destruct d1, d2; simpl in *; gen_ne;
    unfold insert_color_step, insert_color_left, insert_color_right; rb_run;
    (split; [frame_solve|]).
  - finish_recolor k (Node Black (Node Red l x r) p s) (Node Black ul ua ur) (S m).
  - finish_recolor k (Node Black ul ua ur) (Node Black (Node Red l x r) p s) (S m).
  - finish_recolor k (Node Black s p (Node Red l x r)) (Node Black ul ua ur) (S m).
  - finish_recolor k (Node Black ul ua ur) (Node Black s p (Node Red l x r)) (S m).
Qed.

Ltac finish_rotate k t m :=
  apply (rb_rep_zip _ k t Black (S m));
  [ refine (conj _ (conj _ _)); [ctx_solve|tree_solve|cbn [inorder]; disj]
  | assumption | eauto 8 with rb | norm_app ].

(** Cases 2 and 3: the uncle is black or missing. *)
Lemma insert_step_rotate T k d1 p s d2 g u l x r m :
  zip_at T (Fr d1 Red p s :: Fr d2 Black g u :: k) (Node Red l x r) ->
  isrb l Black m -> isrb r Black m -> isrb s Black m ->
  isrb u Black m -> isctx k Black (S m) ->
  let k0 := Fr d1 Red p s :: Fr d2 Black g u :: k in
  wp (insert_color_step T x p)
    (insert_post T k0 (lctx k0 ++ inorder (Node Red l x r) ++ rctx k0)).
Proof.
  intros ((Hp & Cp & Ts & Hg & Cg & Tu & Hk) & (Hx & Cx & Tl & Tr) & Hun)
    Bl Br Bs Bu Hc k0; subst k0.
  pose proof (isctx_top_aligned _ _ _ Hk) as Hal.
  unfold insert_color_step, insert_color_left, insert_color_right.
  destruct d1, d2; simpl in *; gen_ne; rb_run.
  - rb_not_red. rb_blacken T1 Hr1 Ht1 Hf1. rb_change_child T2 Hk2 Hf2.
    split; [frame_solve|].
    finish_rotate k (Node Black (Node Red l x r) p (Node Red s g u)) m.
  - rb_not_red. rb_blacken T1 Hr1 Ht1 Hf1. rb_blacken T2 Hr2 Ht2 Hf2.
    rb_change_child T3 Hk3 Hf3. split; [frame_solve|].
    finish_rotate k (Node Black (Node Red u g l) x (Node Red r p s)) m.
  - rb_not_red. rb_blacken T1 Hr1 Ht1 Hf1. rb_blacken T2 Hr2 Ht2 Hf2.
    rb_change_child T3 Hk3 Hf3. split; [frame_solve|].
    finish_rotate k (Node Black (Node Red s p l) x (Node Red r g u)) m.
  - rb_not_red. rb_blacken T1 Hr1 Ht1 Hf1. rb_change_child T2 Hk2 Hf2.
    split; [frame_solve|].
    finish_rotate k (Node Black (Node Red u g s) p (Node Red l x r)) m.
Qed.

(** The inserted node became the root. *)
Lemma insert_step_root T l x r m :
  zip_at T [] (Node Red l x r) -> isrb l Black m -> isrb r Black m ->
  wp (insert_color_step T x 0)
    (insert_post T [] (lctx [] ++ inorder (Node Red l x r) ++ rctx [])).
Proof.
  intros (Hk & (Hx & Cx & Tl & Tr) & Hun) Bl Br.
  unfold insert_color_step. simpl in *. gen_ne. rb_run.
  split; [frame_solve|].
  apply (rb_rep_zip _ [] (Node Black l x r) Black (S m)); [|constructor|eauto with rb|done].
  refine (conj _ (conj _ _)); [exact Hk|tree_solve|simpl; disj].
Qed.

Lemma insert_step_ok T k l x r m :
  zip_at T k (Node Red l x r) -> isrb l Black m -> isrb r Black m -> isctx k Black m ->
  wp (insert_color_step T x (top k))
    (insert_post T k (lctx k ++ inorder (Node Red l x r) ++ rctx k)).
Proof.
  intros Hz Bl Br Hk. inversion Hk as [n|d p s k' n Bs Hk'|d p s k' c cs n Bs Hk']; subst.
  - by eapply insert_step_root.
  - inversion Hk' as [n|d' g u k'' n Bu Hk''|d' g u k'' c cs n Bu Hk'']; subst.
    destruct cs.
    + inversion Bu; subst. by eapply insert_step_recolor.
    + by eapply insert_step_rotate.
  - destruct Hz as ((Hp & Cp & Ts & Hkk) & Ht & Hun).
    pose proof (isctx_top_aligned _ _ _ Hkk) as Hal.
    unfold insert_color_step. simpl in *. gen_ne.
    destruct d; simpl in *; rb_run; (split; [done|]).
    + apply (rb_rep_zip T (Fr DL Black p s :: k') (Node Red l x r) Red m);
        [done|by econstructor|eauto with rb|norm_app].
    + apply (rb_rep_zip T (Fr DR Black p s :: k') (Node Red l x r) Red m);
        [done|by econstructor|eauto with rb|norm_app].
Qed.

Lemma insert_loop_ok fuel T k l x r m :
  (length k < fuel)%nat ->
  zip_at T k (Node Red l x r) -> isrb l Black m -> isrb r Black m -> isctx k Black m ->
  let xs := lctx k ++ inorder (Node Red l x r) ++ rctx k in
  wp (insert_color_loop fuel T x (top k)) (fun T' =>
    rb_rep T' xs /\ (forall a, a ∉ xs -> cells T' !! a = cells T !! a)).
Proof.
  revert T k l x r m. induction fuel as [|fuel IH]; [lia|].
  intros T k l x r m Hlen Hz Bl Br Hk xs. simpl. apply wp_bind.
  eapply wp_mono; [by eapply insert_step_ok|].
  intros [T' [[node parent]|[]]] [Hf Hres].
  - destruct Hres as (k' & l' & r' & m' & Hz' & Bl' & Br' & Hk' & -> & Hlt & Hxs).
    eapply wp_mono; [eapply (IH T' k' l' node r' m'); [lia|done..]|].
    intros T2 [Hrep Hf2]. rewrite Hxs in Hrep, Hf2. split; [done|].
    intros a Ha. by rewrite Hf2, Hf.
  - by apply wp_ret.
Qed.

(** * Correctness of hev_rbtree_erase *)

(** ** The sibling of a hole, seen from the hole *)

(** [sib d c near a far]: a tree whose [near] child is on the side of the hole. *)
Definition sib (d : dir) (c : color) (near : tree) (a : Z) (far : tree) : tree :=
  match d with DL => Node c near a far | DR => Node c far a near end.

(** The context above a parent of colour [c] accepts it with a black child of
    height [S m]. *)
Definition fits (c : color) (k : ctx) (m : nat) : Prop :=
  match c with Red => isctx k Red (S m) | Black => isctx k Black (S (S m)) end.

(** One iteration: stop with a red-black tree, or continue with a hole whose
    black height is one short, one level up. *)
Definition erase_post (T : HevRBTree) (k : ctx) (xs : list Z)
    (out : HevRBTree * (Z * Z + unit)) : Prop :=
  let '(T', res) := out in
  (forall a, a ∉ xs -> cells T' !! a = cells T !! a) /\
  match res with
  | inr _ => rb_rep T' xs
  | inl (node, parent) =>
      exists k' hole m,
        zip_at T' k' hole /\ isrb hole Black m /\ isctx k' Black (S m) /\
        node = tree_root hole /\ parent = top k' /\ parent <> 0 /\
        (length k' < length k)%nat /\
        lctx k' ++ inorder hole ++ rctx k' = xs
  end.

Definition step234 (d : dir) :=
  match d with DL => erase_case234_left | DR => erase_case234_right end.

Lemma rb_rep_fits T k t c m xs :
  zip_at T k t -> fits c k m -> isrb t c (match c with Red => S m | Black => S (S m) end) ->
  lctx k ++ inorder t ++ rctx k = xs -> rb_rep T xs.
Proof.
  intros Hz Hk Ht <-. destruct c; simpl in *;
    (edestruct plug_isrb as [n Hn]; [exact Hk|exact Ht|]);
    exists (plug k t), n; (split; [by apply plug_whole|]; split; [done|]);
    apply inorder_plug.
Qed.

Lemma wp_null_or_black T q s c n :
  tree_at (cells T) q s -> aligned q -> isrb s c n ->
  wp (null_or_black T (tree_root s))
     (fun b => b = match c with Black => true | Red => false end).
Proof.
  intros Hs Hq Hb. unfold null_or_black. destruct s as [|c' l a r].
  - inversion Hb; subst. by exists true.
  - destruct Hs as ([Ha0 Ha] & Hc & Hl & Hr). cbn [tree_root].
    rewrite (proj2 (Z.eqb_neq a 0) Ha0).
    eexists. split; [rb_exec; reflexivity|]. by inversion Hb; subst.
Qed.

Ltac rb_nob :=
  eapply wp_mono;
  [ eapply wp_null_or_black; [tree_find|eauto with rb|eassumption]
  | intros ? ->; cbv match; rb_run ].

Ltac finish_fits k t c m :=
  apply (rb_rep_fits _ k t c m);
  [ refine (conj _ (conj _ _)); [ctx_solve|tree_solve|cbn [inorder]; disj]
  | assumption | destruct c; eauto 8 with rb | norm_app ].

(** Case 4: the far nephew is red. *)
Lemma step234_far_red d T c p near sa fl fa fr k hole cn m :
  zip_at T (Fr d c p (sib d Black near sa (Node Red fl fa fr)) :: k) hole ->
  isrb hole Black m -> isrb near cn m -> isrb fl Black m -> isrb fr Black m ->
  fits c k m ->
  let k0 := Fr d c p (sib d Black near sa (Node Red fl fa fr)) :: k in
  wp (step234 d T p sa) (fun out =>
    erase_post T k0 (lctx k0 ++ inorder hole ++ rctx k0) out /\
    (c = Red -> out.2 = inr tt)).
Proof.
  intros ((Hp & Cp & Ts & Hk) & Th & Hun) Bh Bn Bfl Bfr Hc k0; subst k0.
  pose proof (isctx_top_aligned _ _ _ Hk) as Hal.
  destruct d; simpl in *.
  - destruct Ts as (Hs & Cs & Tn & (Hf & Cf & Tfl & Tfr)). gen_ne.
    unfold erase_case234_left, erase_case4_left. rb_run.
    rb_reparent T1 Hr1 Ht1 Hf1. rb_change_child T2 Hk2 Hf2.
    split; [|done]. split; [frame_solve|].
    finish_fits k (Node c (Node Black hole p near) sa (Node Black fl fa fr)) c m.
  - destruct Ts as (Hs & Cs & (Hf & Cf & Tfl & Tfr) & Tn). gen_ne.
    unfold erase_case234_right, erase_case4_right. rb_run.
    rb_reparent T1 Hr1 Ht1 Hf1. rb_change_child T2 Hk2 Hf2.
    split; [|done]. split; [frame_solve|].
    finish_fits k (Node c (Node Black fl fa fr) sa (Node Black near p hole)) c m.
Qed.

(** Cases 3 and 4: the far nephew is black, the near one red. *)
Lemma step234_near_red d T c p nl na nr sa far k hole m :
  zip_at T (Fr d c p (sib d Black (Node Red nl na nr) sa far) :: k) hole ->
  isrb hole Black m -> isrb nl Black m -> isrb nr Black m -> isrb far Black m ->
  fits c k m ->
  let k0 := Fr d c p (sib d Black (Node Red nl na nr) sa far) :: k in
  wp (step234 d T p sa) (fun out =>
    erase_post T k0 (lctx k0 ++ inorder hole ++ rctx k0) out /\
    (c = Red -> out.2 = inr tt)).
Proof.
  intros ((Hp & Cp & Ts & Hk) & Th & Hun) Bh Bnl Bnr Bf Hc k0; subst k0.
  pose proof (isctx_top_aligned _ _ _ Hk) as Hal.
  destruct d; simpl in *.
  - destruct Ts as (Hs & Cs & (Hn & Cn & Tnl & Tnr) & Tf). gen_ne.
    unfold erase_case234_left, erase_case4_left. rb_run. rb_nob.
    rb_blacken T1 Hr1 Ht1 Hf1. rb_reparent T2 Hr2 Ht2 Hf2.
    rb_change_child T3 Hk3 Hf3. split; [|done]. split; [frame_solve|].
    finish_fits k (Node c (Node Black hole p nl) na (Node Black nr sa far)) c m.
  - destruct Ts as (Hs & Cs & Tf & (Hn & Cn & Tnl & Tnr)). gen_ne.
    unfold erase_case234_right, erase_case4_right. rb_run. rb_nob.
    rb_blacken T1 Hr1 Ht1 Hf1. rb_reparent T2 Hr2 Ht2 Hf2.
    rb_change_child T3 Hk3 Hf3. split; [|done]. split; [frame_solve|].
    finish_fits k (Node c (Node Black far sa nl) na (Node Black nr p hole)) c m.
Qed.

(** Case 2: both nephews are black. *)
Lemma step234_black d T c p near sa far k hole m :
  zip_at T (Fr d c p (sib d Black near sa far) :: k) hole ->
  isrb hole Black m -> isrb near Black m -> isrb far Black m ->
  fits c k m ->
  let k0 := Fr d c p (sib d Black near sa far) :: k in
  wp (step234 d T p sa) (fun out =>
    erase_post T k0 (lctx k0 ++ inorder hole ++ rctx k0) out /\
    (c = Red -> out.2 = inr tt)).
Proof.
  intros ((Hp & Cp & Ts & Hk) & Th & Hun) Bh Bn Bf Hc k0; subst k0.
  pose proof (isctx_top_aligned _ _ _ Hk) as Hal.
  pose (t' := fun c => graft d c hole p (sib d Red near sa far)).
  assert (isrb (t' Black) Black (S m)) as Bt
    by (subst t'; destruct d; simpl; eauto with rb).
  assert (lctx k ++ inorder (t' Black) ++ rctx k =
    lctx (Fr d c p (sib d Black near sa far) :: k) ++ inorder hole ++
    rctx (Fr d c p (sib d Black near sa far) :: k)) as Hin
    by (subst t'; destruct d; simpl; norm_app).
  assert (forall T', zip_at T' k (t' Black) -> c = Red ->
    rb_rep T' (lctx k ++ inorder (t' Black) ++ rctx k)) as Hred.
  { intros T' Hz ->. destruct (plug_isrb k Black (S m) (t' Black)) as [n Hn];
      [by apply isctx_black|done|].
    exists (plug k (t' Black)), n. split; [by apply plug_whole|].
    split; [done|apply inorder_plug]. }
  assert (forall T', zip_at T' k (t' Black) -> c = Black ->
    (forall a, a ∉ lctx k ++ inorder (t' Black) ++ rctx k -> cells T' !! a = cells T !! a) ->
    erase_post T (Fr d c p (sib d Black near sa far) :: k)
      (lctx k ++ inorder (t' Black) ++ rctx k)
      (T', if negb (Z.eqb (top k) 0) then inl (p, top k) else inr tt)) as Hblack.
  { intros T' Hz -> Hf. simpl in Hc. split; [done|].
    destruct k as [|[d' c' a' s'] k']; simpl.
    - exists (t' Black), (S m). rewrite app_nil_r. done.
    - destruct Hz as ((Ha' & ?) & ?). rewrite (proj2 (Z.eqb_neq a' 0)); [|by apply addr_ok_ne].
      exists (Fr d' c' a' s' :: k'), (t' Black), (S m).
      split; [done|]. split; [done|]. split; [done|]. split; [by destruct d|].
      split; [done|]. split; [by apply addr_ok_ne|]. split; [simpl; lia|done]. }
  rewrite <- Hin. subst t'.
  destruct d; simpl in *;
    [destruct Ts as (Hs & Cs & Tn & Tf)|destruct Ts as (Hs & Cs & Tf & Tn)];
    gen_ne; unfold erase_case234_left, erase_case234_right;
    destruct c; rb_run; rb_nob; rb_nob.
  all: split; [|done].
  all: first
    [ split; [frame_solve|]; apply Hred; [|reflexivity]
    | apply Hblack; [|reflexivity|frame_solve] ];
    (refine (conj _ (conj _ _)); [ctx_solve|tree_solve|cbn [inorder]; disj]).
Qed.

Lemma step234_ok d T c p near sa far k hole cn cf m :
  zip_at T (Fr d c p (sib d Black near sa far) :: k) hole ->
  isrb hole Black m -> isrb near cn m -> isrb far cf m -> fits c k m ->
  let k0 := Fr d c p (sib d Black near sa far) :: k in
  wp (step234 d T p sa) (fun out =>
    erase_post T k0 (lctx k0 ++ inorder hole ++ rctx k0) out /\
    (c = Red -> out.2 = inr tt)).
Proof.
  intros Hz Bh Bn Bf Hc. destruct cf; [|destruct cn].
  - inversion Bf; subst. by eapply step234_far_red.
  - inversion Bn; subst. by eapply step234_near_red.
  - by apply (step234_black _ _ _ _ _ _ _ _ _ m).
Qed.

(** ** Case 1: rotating a red sibling away *)

Definition case1 (d : dir) :=
  match d with DL => erase_case1_left | DR => erase_case1_right end.

Lemma case1_ok d T p nl na nr sa far k hole :
  let near := Node Black nl na nr in
  zip_at T (Fr d Black p (sib d Red near sa far) :: k) hole ->
  wp (case1 d T p sa) (fun '(T', s') => s' = na /\
    zip_at T' (Fr d Red p near :: Fr d Black sa far :: k) hole /\
    (forall a, a ∉ lctx k ++ inorder hole ++ inorder near ++ inorder far ++ p :: sa :: rctx k ->
      cells T' !! a = cells T !! a)).
Proof.
  intros near ((Hp & Cp & Ts & Hk) & Th & Hun).
  pose proof (isctx_top_aligned _ _ _ Hk) as Hal. subst near.
  destruct d; simpl in *.
  - destruct Ts as (Hs & Cs & (Hn & Cn & Tnl & Tnr) & Tf). gen_ne.
    unfold erase_case1_left. rb_run.
    rb_change_child T1 Hk1 Hf1. split; [done|]. split; [|frame_solve].
    split; [|split; [tree_solve|simpl; disj]].
    split; [assumption|]. split; [cell_solve|]. split; [tree_solve|].
    split; [assumption|]. split; [cell_solve|]. split; [tree_solve|exact Hk1].
  - destruct Ts as (Hs & Cs & Tf & (Hn & Cn & Tnl & Tnr)). gen_ne.
    unfold erase_case1_right. rb_run.
    rb_change_child T1 Hk1 Hf1. split; [done|]. split; [|frame_solve].
    split; [|split; [tree_solve|simpl; disj]].
    split; [assumption|]. split; [cell_solve|]. split; [tree_solve|].
    split; [assumption|]. split; [cell_solve|]. split; [tree_solve|exact Hk1].
Qed.

Lemma case1_black d T p near sa far q :
  tree_at (cells T) q (sib d Black near sa far) -> aligned q ->
  case1 d T p sa = Some (T, sa).
Proof.
  intros Ht Hq. destruct d; simpl in *; destruct Ht as (Hs & Cs & Tn & Tf);
    unfold erase_case1_left, erase_case1_right; rb_exec; reflexivity.
Qed.

(** ** One iteration of the loop *)

Definition color_step (d : dir) T p : option (HevRBTree * (Z * Z + unit)) :=
  match d with
  | DL => sibling ← rd_right T p; erase_color_left T p sibling
  | DR => erase_color_right T p
  end.

Lemma color_step_eq d T c p s k hole :
  zip_at T (Fr d c p s :: k) hole -> s <> Leaf ->
  erase_color_step T (tree_root hole) p = color_step d T p.
Proof.
  intros ((Hp & Cp & Ts & Hk) & Th & Hun) Hs. unfold erase_color_step.
  destruct s as [|cs sl sa sr]; [done|]. destruct Ts as (Hsa & _ & _ & _).
  destruct d; simpl in *.
  - unfold rd_right, rd. rewrite Cp. simpl.
    rewrite (proj2 (Z.eqb_neq (tree_root hole) sa)); [done|ne_solve].
  - unfold rd_right, rd. rewrite Cp. simpl. by rewrite Z.eqb_refl.
Qed.

Lemma color_step_case1 d T c p cs near sa far k hole Q :
  zip_at T (Fr d c p (sib d cs near sa far) :: k) hole ->
  wp (case1 d T p sa) (fun '(T', s') => wp (step234 d T' p s') Q) ->
  wp (color_step d T p) Q.
Proof.
  intros ((Hp & Cp & Ts & Hk) & Th & Hun) Hwp.
  destruct d; simpl in *; unfold erase_color_left, erase_color_right.
  - apply wp_bind. eapply wp_prim; [unfold rd_right, rd; by rewrite Cp|].
    apply wp_bind. eapply wp_mono; [exact Hwp|]. by intros [??].
  - apply wp_bind. eapply wp_prim; [unfold rd_left, rd; by rewrite Cp|].
    apply wp_bind. eapply wp_mono; [exact Hwp|]. by intros [??].
Qed.

Lemma sib_surj d c l a r : exists near far, Node c l a r = sib d c near a far.
Proof. destruct d; simpl; eauto. Qed.

Lemma isrb_sib d c near a far c' n : isrb (sib d c near a far) c' (S n) ->
  match c with
  | Red => c' = Red /\ isrb near Black (S n) /\ isrb far Black (S n)
  | Black => c' = Black /\ exists cn cf, isrb near cn n /\ isrb far cf n
  end.
Proof. destruct d; simpl; inversion 1; subst; eauto 10. Qed.

Lemma color_step_black d T c p near sa far k hole cn cf m :
  zip_at T (Fr d c p (sib d Black near sa far) :: k) hole ->
  isrb hole Black m -> isrb near cn m -> isrb far cf m -> fits c k m ->
  let k0 := Fr d c p (sib d Black near sa far) :: k in
  wp (color_step d T p) (erase_post T k0 (lctx k0 ++ inorder hole ++ rctx k0)).
Proof.
  intros Hz Bh Bn Bf Hc k0. eapply color_step_case1; [exact Hz|].
  destruct Hz as ((Hp & Cp & Ts & Hk) & Th & Hun) eqn:E.
  rewrite (case1_black d T p near sa far p) by eauto with rb.
  apply wp_ret. eapply wp_mono; [by eapply step234_ok|]. by intros out [? _].
Qed.

Lemma color_step_red d T p near sa far k hole m :
  zip_at T (Fr d Black p (sib d Red near sa far) :: k) hole ->
  isrb hole Black m -> isrb near Black (S m) -> isrb far Black (S m) ->
  isctx k Black (S (S m)) ->
  let k0 := Fr d Black p (sib d Red near sa far) :: k in
  wp (color_step d T p) (erase_post T k0 (lctx k0 ++ inorder hole ++ rctx k0)).
Proof.
  intros Hz Bh Bn Bf Hc k0; subst k0. eapply color_step_case1; [exact Hz|].
  inversion Bn as [| |nl na nr cl cr n Bnl Bnr]; subst.
  eapply wp_mono; [by eapply case1_ok|].
  intros [T1 s1] (-> & Hz1 & Hf1).
  destruct (sib_surj d Black nl na nr) as (n' & f' & E). rewrite E in *.
  apply isrb_sib in Bn as (_ & cn & cf & Bn' & Bf').
  eapply wp_mono.
  { eapply (step234_ok d T1 Red p n' na f' (Fr d Black sa far :: k) hole cn cf m);
      [done..|]. by apply (C_black d sa far k Red Black (S m)). }
  intros [T2 res] [[Hf2 Hres] Hinr]. simpl in Hinr. rewrite (Hinr eq_refl) in *.
  match goal with |- erase_post _ _ ?xs _ =>
    match type of Hres with rb_rep _ ?ys =>
      assert (ys = xs) as Hxs by (destruct d; simpl; norm_app) end end.
  rewrite Hxs in Hres, Hf2. split; [|done].
  intros a Ha. rewrite Hf2 by done. apply Hf1. clear -Ha. apply cnt_zero in Ha.
  apply cnt_zero. destruct d; simpl in *; cnt_gather a; cnt_decide.
Qed.

Lemma erase_color_step_ok T k hole m :
  k <> [] -> zip_at T k hole -> isrb hole Black m -> isctx k Black (S m) ->
  wp (erase_color_step T (tree_root hole) (top k))
    (erase_post T k (lctx k ++ inorder hole ++ rctx k)).
Proof.
  intros Hne Hz Bh Hk.
  assert (exists d c p s k' cs, k = Fr d c p s :: k' /\ isrb s cs (S m) /\ fits c k' m)
    as (d & c & p & s & k' & cs & -> & Bs & Hfit).
  { inversion Hk; subst; [done|..]; eauto 15. }
  assert (s <> Leaf) as Hs by (by intros ->; inversion Bs).
  simpl top. rewrite (color_step_eq d T c p s k' hole Hz Hs).
  apply isrb_S_inv in Bs as Hs'. destruct Hs' as (sl & sa & sr & ->).
  destruct (sib_surj d cs sl sa sr) as (near & far & E). rewrite E in *.
  apply isrb_sib in Bs. destruct cs.
  - destruct Bs as (_ & Bn & Bf).
    assert (c = Black) as ->.
    { destruct c; [|done]. inversion Hk; subst.
      match goal with H : isrb (sib d Red _ _ _) Black _ |- _ =>
        by destruct d; inversion H end. }
    by apply (color_step_red d T p near sa far k' hole m).
  - destruct Bs as (_ & cn & cf & Bn & Bf).
    by apply (color_step_black d T c p near sa far k' hole cn cf m).
Qed.

Lemma erase_color_loop_ok fuel T k hole m :
  (length k < fuel)%nat -> k <> [] ->
  zip_at T k hole -> isrb hole Black m -> isctx k Black (S m) ->
  let xs := lctx k ++ inorder hole ++ rctx k in
  wp (erase_color_loop fuel T (tree_root hole) (top k)) (fun T' =>
    rb_rep T' xs /\ (forall a, a ∉ xs -> cells T' !! a = cells T !! a)).
Proof.
  revert T k hole m. induction fuel as [|fuel IH]; [lia|].
  intros T k hole m Hlen Hne Hz Bh Hk xs. simpl. apply wp_bind.
  eapply wp_mono; [by eapply erase_color_step_ok|].
  intros [T' [[node parent]|[]]] [Hf Hres].
  - destruct Hres as (k' & hole' & m' & Hz' & Bh' & Hk' & -> & -> & Hp & Hlt & Hxs).
    eapply wp_mono; [eapply (IH T' k' hole' m'); [lia| |done..]|].
    { by intros ->. }
    intros T2 [Hrep Hf2]. rewrite Hxs in Hrep, Hf2. split; [done|].
    intros a Ha. by rewrite Hf2, Hf.
  - by apply wp_ret.
Qed.

(** ** Contexts inside a subtree *)

Lemma plug_app k1 k2 t : plug (k1 ++ k2) t = plug k2 (plug k1 t).
Proof. revert t. induction k1 as [|[[] c a s] k1 IH]; intros t; simpl; auto. Qed.

Lemma lctx_app k1 k2 : lctx (k1 ++ k2) = lctx k2 ++ lctx k1.
Proof.
  induction k1 as [|[[] c a s] k1 IH]; simpl; [by rewrite app_nil_r|done|].
  by rewrite IH, <- app_assoc.
Qed.

Lemma rctx_app k1 k2 : rctx (k1 ++ k2) = rctx k1 ++ rctx k2.
Proof.
  induction k1 as [|[[] c a s] k1 IH]; simpl; [done| |done].
  by rewrite IH, <- app_assoc.
Qed.

Lemma zip_unplug T kr k t : zip_at T k (plug kr t) -> zip_at T (kr ++ k) t.
Proof.
  revert t. induction kr as [|[d c a s] kr IH]; intros t; simpl; [done|].
  intros Hz.
  assert (zip_at T (kr ++ k) (graft d c t a s)) as (Hk & Ht & Hu)
    by (apply IH; by destruct d).
  destruct d; simpl in *; destruct Ht as (Ha & Hc & H1 & H2);
    (split; [done|]); (split; [done|]); simpl; disj.
Qed.

Lemma isctx_unplug kr k c n t :
  isctx k c n -> isrb (plug kr t) c n ->
  exists c' n', isrb t c' n' /\ isctx (kr ++ k) c' n'.
Proof.
  intros Hk. revert t. induction kr as [|[d c0 a s] kr IH]; intros t Ht; simpl; [eauto|].
  assert (exists c' n', isrb (graft d c0 t a s) c' n' /\ isctx (kr ++ k) c' n')
    as (c' & n' & Hg & Hk') by (apply IH; by destruct d).
  destruct d; simpl in Hg; inversion Hg; subst; eexists _, _;
    (split; [eassumption|]); econstructor; eauto.
Qed.

Lemma isctx_replace kr d c x y s k c' n :
  isctx (kr ++ Fr d c x s :: k) c' n -> isctx (kr ++ Fr d c y s :: k) c' n.
Proof.
  revert c' n. induction kr as [|f kr IH]; simpl; intros c' n.
  - inversion 1; subst; econstructor; eauto.
  - inversion 1; subst; econstructor; eauto.
Qed.

Lemma find_node t x : x ∈ inorder t -> exists kr c l r, t = plug kr (Node c l x r).
Proof.
  induction t as [|c l IHl a r IHr]; simpl; [by intros ?%not_elem_of_nil|].
  rewrite elem_of_app, elem_of_cons. intros [H|[->|H]].
  - destruct (IHl H) as (kr & c' & l' & r' & ->).
    exists (kr ++ [Fr DL c a r]), c', l', r'. by rewrite plug_app.
  - by exists [], c, l, r.
  - destruct (IHr H) as (kr & c' & l' & r' & ->).
    exists (kr ++ [Fr DR c a l]), c', l', r'. by rewrite plug_app.
Qed.

Definition all_left (k : ctx) : Prop :=
  Forall (fun f => match f with Fr DL _ _ _ => True | _ => False end) k.

Lemma all_left_lctx k : all_left k -> lctx k = [].
Proof. induction 1 as [|[[] c a s] k Hf Hk IH]; simpl; done. Qed.

Fixpoint height (t : tree) : nat :=
  match t with Leaf => 0 | Node _ l _ r => S (Nat.max (height l) (height r)) end.

Lemma successor_loop_ok fuel T q t c l a r :
  (height l < fuel)%nat -> tree_at (cells T) q t -> t = Node c l a r -> l <> Leaf ->
  wp (successor_loop fuel T a (tree_root l)) (fun '(parent, succ) =>
    exists kr cs sr, kr <> [] /\ all_left kr /\
      t = plug kr (Node cs Leaf succ sr) /\ parent = top kr).
Proof.
  revert q t c l a r. induction fuel as [|fuel IH]; [lia|].
  intros q t c l a r Hh Ht -> Hl. destruct l as [|cl ll la lr]; [done|].
  destruct Ht as (Ha & Ca & (Hla & Cla & Tll & Tlr) & Tr).
  cbn [successor_loop tree_root].
  apply wp_bind. eapply wp_prim; [unfold rd_left, rd; by rewrite Cla|]. cbn [left].
  destruct ll as [|cll lll lla llr]; cbn [tree_root].
  - apply wp_ret. exists [Fr DL c a r], cl, lr. split; [done|].
    split; [by repeat constructor|done].
  - destruct Tll as (Hlla & Tll). rewrite (proj2 (Z.eqb_neq lla 0)); [|by apply addr_ok_ne].
    cbn [negb].
    eapply wp_mono.
    { apply (IH a (Node cl (Node cll lll lla llr) la lr) cl (Node cll lll lla llr) la lr);
        [simpl in Hh |- *; lia|by split_and!|done|done]. }
    intros [parent succ] (kr & cs & sr & Hne & Hall & Heq & ->).
    exists (kr ++ [Fr DL c a r]), cs, sr. split; [by destruct kr|].
    split; [apply Forall_app; split; [done|by repeat constructor]|].
    split; [rewrite plug_app, <- Heq; done|by destruct kr].
Qed.
