(* ===== verification/RBTreeUnlink.v ===== *)
(** * Correctness of _hev_rbtree_erase and hev_rbtree_erase *)
From S2P Require Import Prelude RBTree RBTreeShape RBTreeFixup.

(** ** Segments: the frames between a subtree's root and a position in it *)

Definition topp (kr : ctx) (p : Z) : Z :=
  match kr with [] => p | Fr _ _ a _ :: _ => a end.

(** The address at the root of the segment, [hole] if the segment is empty. *)
Fixpoint base (kr : ctx) (hole : Z) : Z :=
  match kr with [] => hole | Fr _ _ a _ :: kr => base kr a end.

Fixpoint seg_at (h : gmap Z HevRBTreeNode) (p hole : Z) (kr : ctx) : Prop :=
  match kr with
  | [] => True
  | Fr d c a s :: kr =>
      addr_ok a /\ h !! a = Some (frame_cell (topp kr p) d c hole (tree_root s)) /\
      tree_at h a s /\ seg_at h p a kr
  end.

Lemma seg_at_frame h h' p hole kr :
  (forall a, a ∈ lctx kr ++ rctx kr -> h' !! a = h !! a) ->
  seg_at h p hole kr -> seg_at h' p hole kr.
Proof.
  revert hole. induction kr as [|[d c a s] kr IH]; intros hole Hf; simpl; [done|].
  intros (Ha & Hc & Hs & Hk). split_and!; [done| | |].
  - rewrite Hf; [done|]. destruct d; simpl; set_solver.
  - apply (tree_at_frame h); [|done]. intros x Hx. apply Hf. destruct d; simpl; set_solver.
  - apply IH; [|done]. intros x Hx. apply Hf. destruct d; simpl; set_solver.
Qed.

Lemma tree_root_plug kr t : tree_root (plug kr t) = base kr (tree_root t).
Proof. revert t. induction kr as [|[[] c a s] kr IH]; intros t; simpl; [done|by rewrite IH..]. Qed.

Lemma tree_at_plug h p kr t :
  tree_at h p (plug kr t) <->
  seg_at h p (tree_root t) kr /\ tree_at h (topp kr p) t.
Proof.
  revert t. induction kr as [|[[] c a s] kr IH]; intros t; simpl; [tauto| |];
    rewrite IH; simpl; tauto.
Qed.

Lemma topp_app kr k : topp kr (top k) = top (kr ++ k).
Proof. by destruct kr as [|[]]. Qed.

Lemma ctx_at_app T hole kr k :
  seg_at (cells T) (top k) hole kr -> ctx_at T (base kr hole) k ->
  ctx_at T hole (kr ++ k).
Proof.
  revert hole. induction kr as [|[d c a s] kr IH]; intros hole; simpl; [done|].
  intros (Ha & Hc & Hs & Hk) Hb. rewrite topp_app in Hc. auto.
Qed.

Lemma cnt_frame x d c a s k :
  cnt x (lctx (Fr d c a s :: k) ++ rctx (Fr d c a s :: k)) =
  cnt x (a :: inorder s ++ lctx k ++ rctx k).
Proof. destruct d; simpl lctx; simpl rctx; autorewrite with cnt; lia. Qed.

Lemma uniq_frame d c a s k :
  uniq (lctx (Fr d c a s :: k) ++ rctx (Fr d c a s :: k)) ->
  uniq (a :: inorder s ++ lctx k ++ rctx k).
Proof. intros H x. rewrite <- (cnt_frame x d c). apply H. Qed.

Lemma base_ok h p hole kr : kr <> [] -> seg_at h p hole kr ->
  addr_ok (base kr hole) /\ base kr hole ∈ lctx kr ++ rctx kr.
Proof.
  revert hole. induction kr as [|[d c a s] kr IH]; intros hole; [done|].
  intros _ (Ha & Hc & Hs & Hk). destruct kr as [|f kr].
  - simpl. split; [done|]. destruct d; set_solver.
  - destruct (IH a) as [? Hi]; [done..|]. split; [done|].
    change (base _ hole) with (base (f :: kr) a). apply cnt_pos in Hi.
    apply cnt_pos. rewrite cnt_frame. autorewrite with cnt in *. lia.
Qed.

Lemma aligned_topp h q p hole kr : aligned p -> seg_at h q hole kr -> aligned (topp kr p).
Proof. destruct kr as [|[]]; simpl; [done|]. intros _ ([_ ?]&_). done. Qed.

(** Re-hanging a whole (non-empty) segment under a new parent. *)
Lemma seg_set_parent T q p hole kr :
  kr <> [] -> seg_at (cells T) q hole kr -> aligned q -> uniq (lctx kr ++ rctx kr) ->
  wp (hev_rbtree_node_set_parent T (base kr hole) p) (fun T' =>
    root T' = root T /\ seg_at (cells T') p hole kr /\
    (forall a, a ∉ lctx kr ++ rctx kr -> cells T' !! a = cells T !! a)).
Proof.
  revert hole. induction kr as [|[d c a s] kr IH]; intros hole; [done|].
  intros _ (Ha & Hc & Hs & Hk) Hq Hu. simpl base. destruct kr as [|f kr].
  - simpl in *. destruct d; simpl in *;
      (eexists; split; [rb_exec; rewrite mkpc_lor_comm; reflexivity|]);
      (split; [done|]); (split; [split_and!; [done|apply lookup_insert_eq| |done]|]);
      first [by apply (tree_at_frame (cells T)); [frame_solve|]|frame_solve].
  - pose proof (uniq_frame _ _ _ _ _ Hu) as Hu'.
    eapply wp_mono; [apply IH; [done..|disj]|]. intros T' (Hr & Hk' & Hf).
    split; [done|]. split.
    + split; [done|]. split; [rewrite Hf; [done|disj]|]. split; [|done].
      apply (tree_at_frame (cells T)); [|done]. intros y Hy. apply Hf.
      apply cnt_pos in Hy. disj.
    + intros y Hy. apply Hf. apply cnt_zero in Hy. rewrite cnt_frame in Hy. disj.
Qed.

(** ** The two-children case *)

Definition blacken (t : tree) : tree :=
  match t with Leaf => Leaf | Node _ l a r => Node Black l a r end.

(** What the unlinking phase leaves for the rebalancing phase. *)
Definition unlink_post (T : HevRBTree) (x : Z) (xs : list Z) (out : HevRBTree * Z) : Prop :=
  let '(T', rebalance) := out in
  (forall a, a ∉ x :: xs -> cells T' !! a = cells T !! a) /\
  if Z.eqb rebalance 0 then rb_rep T' xs
  else exists k, zip_at T' k Leaf /\ isctx k Black 1 /\ rebalance = top k /\
    lctx k ++ rctx k = xs.

(** The successor has left its place: its cell [s] is free to take over that of
    the erased node [x]. *)
Definition detached (T T1 : HevRBTree) (x : Z) (kr : ctx) (cs : color) (s : Z) (sr : tree) : Prop :=
  root T1 = root T /\
  seg_at (cells T1) s (tree_root sr) kr /\ tree_at (cells T1) s sr /\
  cells T1 !! s = Some (mkRBNode (mkpc (topp kr x) cs) (base kr (tree_root sr)) 0) /\
  (forall a, a ∉ s :: lctx kr ++ rctx kr -> cells T1 !! a = cells T !! a).

(** The first statement of the two-children case. *)
Definition erase_two_detach (fuel : nat) t child : option (HevRBTree * Z * Z * Z) :=
  tmp ← rd_left t child;
  (if Z.eqb tmp 0 then
     let successor := child in
     child2 ← rd_right t successor;
     Some (t, successor, successor, child2)
   else
     '(parent, successor) ← successor_loop fuel t child tmp;
     child2 ← rd_right t successor;
     t ← wr_left t parent child2;
     t ← wr_right t successor child;
     t ← hev_rbtree_node_set_parent t child successor;
     Some (t, parent, successor, child2)).

Lemma detach_ok fuel T x R :
  R <> Leaf -> (height R <= fuel)%nat -> tree_at (cells T) x R -> addr_ok x ->
  uniq (inorder R) ->
  wp (erase_two_detach fuel T (tree_root R)) (fun '(T1, parent, s, child2) =>
    exists kr cs sr, all_left kr /\ R = plug kr (Node cs Leaf s sr) /\
      parent = topp kr s /\ child2 = tree_root sr /\ detached T T1 x kr cs s sr).
Proof.
  intros Hne Hh HR Hx Hu. destruct R as [|c l a r]; [done|].
  pose proof HR as (Ha & Ca & Tl & Tr). unfold erase_two_detach. cbn [tree_root].
  apply wp_bind. eapply wp_prim; [unfold rd_left, rd; by rewrite Ca|]. cbn [left].
  destruct l as [|cl ll la lr].
  - simpl. apply wp_bind. eapply wp_prim; [unfold rd_right, rd; by rewrite Ca|].
    apply wp_ret. exists [], c, r. split; [constructor|]. split; [done|].
    split; [done|]. split; [done|]. split; [done|]. by split_and!.
  - rewrite (proj2 (Z.eqb_neq _ 0)) by (simpl; destruct Tl; auto with rb).
    apply wp_bind. eapply wp_mono.
    { eapply (successor_loop_ok fuel T x (Node c (Node cl ll la lr) a r) c (Node cl ll la lr) a r);
        [simpl in *; lia|done..]. }
    intros [parent s] (kr & cs & sr & Hkr & Hall & Heq & ->).
    destruct kr as [|[[] cp p sp] kr]; [done| |by inversion Hall].
    pose proof HR as HR'. rewrite Heq in HR', Hu.
    apply tree_at_plug in HR' as [(Hp & Cp & Tsp & Hseg) (Hs & Cs & _ & Tsr)].
    rewrite inorder_plug in Hu. simpl in Cp, Cs, Tsr, Hu. simpl top.
    assert (aligned (topp kr x)) as Hal by (eapply aligned_topp; [|done]; auto with rb).
    gen_ne. rb_run.
    assert (a = base (Fr DL cp p sp :: kr) (tree_root sr)) as Hbase.
    { change a with (tree_root (Node c (Node cl ll la lr) a r)).
      rewrite Heq, tree_root_plug. done. }
    rewrite Hbase. eapply wp_mono.
    { apply (seg_set_parent _ x s (tree_root sr)); [done| |auto with rb|simpl; disj].
      split; [done|]. split; [cell_solve|].
      split; [eapply tree_at_frame; [|exact Tsp]; frame_solve|].
      eapply seg_at_frame; [|exact Hseg]. frame_solve. }
    intros T1 (Hr & Hseg1 & Hf). apply wp_ret.
    exists (Fr DL cp p sp :: kr), cs, sr. simpl lctx in Hf. simpl rctx in Hf.
    split; [done|]. split; [by rewrite <- Hbase|]. split; [done|]. split; [done|]. split; [done|].
    split; [done|]. split; [|split].
    + tree_find.
    + rewrite Hf by disj. rb_exec. done.
    + cbn [lctx rctx]. frame_solve.
Qed.

(** The statements after it: [x] is replaced by the detached successor. *)
Definition erase_two_attach t node parent successor child2 : option (HevRBTree * Z) :=
  tmp ← rd_left t node;
  t ← wr_left t successor tmp;
  t ← hev_rbtree_node_set_parent t tmp successor;
  pc ← rd_pc t node;
  let tmp := _hev_rbtree_node_parent pc in
  t ← hev_rbtree_change_child t node successor tmp;
  '(t, rebalance) ←
    (if negb (Z.eqb child2 0) then
       t ← hev_rbtree_node_set_parent_color t child2 parent HEV_RBTREE_BLACK;
       Some (t, 0)
     else
       b ← hev_rbtree_node_is_black t successor;
       Some (t, if (b : bool) then parent else 0));
  t ← wr_pc t successor pc;
  Some (t, rebalance).

Lemma erase_two_split fuel T x child :
  erase_two fuel T x child =
  '(t, parent, successor, child2) ← erase_two_detach fuel T child;
  erase_two_attach t x parent successor child2.
Proof.
  unfold erase_two, erase_two_detach, erase_two_attach.
  destruct (rd_left T child); [|done]. simpl. by destruct (if _ =? _ then _ else _).
Qed.

(** The right child of a node without left child: missing, or a red leaf under
    a black node. *)
Lemma isrb_no_left c s r n : isrb (Node c Leaf s r) c n ->
  r = Leaf \/ (exists a, r = Node Red Leaf a Leaf /\ c = Black).
Proof.
  inversion 1 as [|l a r' m Hl Hr|l a r' cl cr m Hl Hr]; subst; inversion Hl; subst.
  - inversion Hr; subst. by left.
  - inversion Hr as [|l' a' r' m Hl' Hr'|]; subst; [by left|].
    inversion Hl'; subst. inversion Hr'; subst. right. eauto.
Qed.

Ltac attach_zip_solve kr :=
  refine (conj _ (conj _ _)); cbn [blacken tree_root];
  [ apply ctx_at_app; cbn [top];
    [ match goal with H : seg_at _ _ _ _ |- _ => eapply seg_at_frame; [|exact H] end;
      frame_solve
    | cbn [ctx_at]; split; [assumption|split; [rb_exec; reflexivity|]];
      split; [tree_solve|ctx_solve] ]
  | rewrite <- topp_app; cbn [top]; tree_solve
  | rewrite lctx_app, rctx_app; cbn [lctx rctx inorder blacken]; disj ].

Lemma attach_zip T T1 x c L kr cs s sr k :
  ctx_at T x k -> addr_ok x -> addr_ok s ->
  cells T !! x = Some (mkRBNode (mkpc (top k) c) (base kr s) (tree_root L)) ->
  tree_at (cells T) x L -> L <> Leaf ->
  detached T T1 x kr cs s sr ->
  uniq (lctx k ++ inorder L ++ x :: lctx kr ++ s :: inorder sr ++ rctx kr ++ rctx k) ->
  (sr = Leaf \/ exists a, sr = Node Red Leaf a Leaf /\ cs = Black) ->
  wp (erase_two_attach T1 x (topp kr s) s (tree_root sr)) (fun '(T', rebalance) =>
    zip_at T' (kr ++ Fr DR c s L :: k) (blacken sr) /\
    (forall a, a ∉ lctx k ++ inorder L ++ x :: lctx kr ++ s :: inorder sr ++ rctx kr ++ rctx k ->
       cells T' !! a = cells T !! a) /\
    rebalance = match sr, cs with Leaf, Black => topp kr s | _, _ => 0 end).
Proof.
  intros Hk Hx Hs Cx TL HL (Hr1 & Hseg & Hsr & Cs & Hf1) Hu Hcase.
  pose proof (isctx_top_aligned _ _ _ Hk) as Hal.
  assert (aligned (topp kr x)) as Hal2 by (eapply aligned_topp; [|exact Hseg]; auto with rb).
  destruct L as [|lc ll la lr]; [done|]. destruct TL as (Hla & Cla & Tll & Tlr).
  unfold erase_two_attach. simpl inorder in *. simpl tree_root in *. gen_ne. rb_run.
  rewrite mkpc_lor_comm. unfold _hev_rbtree_node_parent. rewrite pc_parent by done.
  rb_change_child T2 Hk2 Hf2.
  destruct Hcase as [->|(w & -> & ->)].
  - simpl tree_root in *. rb_run. split; [|split; [frame_solve|by destruct cs]].
    attach_zip_solve kr.
  - destruct Hsr as (Hw & Cw & _). simpl inorder in *. simpl tree_root in *. gen_ne. rb_run.
    split; [|split; [frame_solve|done]].
    attach_zip_solve kr.
Qed.

(** Closes [unlink_post] with an already red-black tree. *)
Lemma unlink_done T T' x xs k t m :
  zip_at T' k t -> isctx k Black m -> isrb t Black m ->
  (forall a, a ∉ x :: xs -> cells T' !! a = cells T !! a) ->
  lctx k ++ inorder t ++ rctx k = xs -> unlink_post T x xs (T', 0).
Proof.
  intros Hz Hk Ht Hf <-. split; [done|]. simpl.
  destruct (plug_isrb k Black m t Hk Ht) as [n Hn].
  exists (plug k t), n. split; [by apply plug_whole|]. split; [done|apply inorder_plug].
Qed.

(** Closes it with a hole one black node short, unless it is the root. *)
Lemma unlink_hole T T' x xs k :
  zip_at T' k Leaf -> isctx k Black 1 ->
  (forall a, a ∉ x :: xs -> cells T' !! a = cells T !! a) ->
  lctx k ++ rctx k = xs -> unlink_post T x xs (T', top k).
Proof.
  intros Hz Hk Hf Hxs. split; [done|]. destruct k as [|[d c a s] k].
  - simpl. exists Leaf, 0%nat. split; [done|]. split; [constructor|done].
  - simpl top. pose proof Hz as ((Ha & _) & _). rewrite (proj2 (Z.eqb_neq a 0)) by auto with rb.
    exists (Fr d c a s :: k). done.
Qed.

Lemma erase_two_ok fuel T k c L x R n :
  zip_at T k (Node c L x R) -> isrb (Node c L x R) c n -> isctx k c n ->
  L <> Leaf -> R <> Leaf -> (height R <= fuel)%nat ->
  wp (erase_two fuel T x (tree_root R))
    (unlink_post T x (lctx k ++ inorder L ++ inorder R ++ rctx k)).
Proof.
  intros (Hk & (Hx & Cx & TL & TR) & Hu) HB HC HL HR Hh. simpl inorder in Hu.
  simpl tree_root in Hk. rewrite erase_two_split. apply wp_bind. eapply wp_mono.
  { apply (detach_ok fuel T x R); [done..|disj]. }
  intros [[[T1 parent] s'] child2] (kr & cs & sr & Hall & HeqR & -> & -> & Hdet).
  set (s := s') in *. clearbody s. clear s'.
  assert (exists n', isrb (Node cs Leaf s sr) cs n' /\ isctx (kr ++ Fr DR c s L :: k) cs n')
    as (n' & HB' & HC').
  { destruct (isctx_unplug (kr ++ [Fr DR c x L]) k c n (Node cs Leaf s sr))
      as (c' & n' & ? & Hc'); [done|by rewrite plug_app, <- HeqR|].
    assert (c' = cs) as -> by (match goal with H : isrb _ c' _ |- _ => by inversion H end).
    exists n'. split; [done|]. rewrite <- app_assoc in Hc'. by eapply isctx_replace. }
  assert (addr_ok s) as Hs.
  { apply (tree_at_addr_ok (cells T) x R); [done|].
    rewrite HeqR, inorder_plug. simpl. set_solver. }
  assert (tree_root R = base kr s) as HrR by (by rewrite HeqR, tree_root_plug).
  rewrite HrR in Cx. rewrite HeqR, inorder_plug in Hu. simpl in Hu.
  eapply wp_mono.
  { eapply (attach_zip T T1 x c L kr cs s sr k); [done..| |by eapply isrb_no_left]. disj. }
  rewrite HeqR, inorder_plug, (all_left_lctx kr Hall) in *. simpl.
  intros [T' rb] (Hz & Hf & ->).
  assert (forall a, a ∉ x :: lctx k ++ inorder L ++ (s :: inorder sr ++ rctx kr) ++ rctx k ->
    cells T' !! a = cells T !! a) as Hf' by (intros a Ha; apply Hf; apply cnt_zero in Ha; disj).
  assert (lctx (kr ++ Fr DR c s L :: k) ++ inorder sr ++ rctx (kr ++ Fr DR c s L :: k)
    = lctx k ++ inorder L ++ (s :: inorder sr ++ rctx kr) ++ rctx k) as Hxs.
  { rewrite lctx_app, rctx_app, (all_left_lctx kr Hall). cbn [lctx rctx]. norm_app. }
  destruct (isrb_no_left _ _ _ _ HB') as [->|(w & -> & ->)].
  - destruct cs.
    + inversion HB' as [|? ? ? ? Hl0|]; subst. inversion Hl0; subst.
      eapply unlink_done; [done|by apply isctx_black|constructor|done|done].
    + inversion HB' as [| |? ? ? ? ? ? Hl0]; subst. inversion Hl0; subst.
      change (topp kr s) with (topp kr (top (Fr DR c s L :: k))). rewrite topp_app.
      by apply unlink_hole.
  - inversion HB' as [| |? ? ? ? ? ? Hl0]; subst. inversion Hl0; subst.
    eapply unlink_done; [done|done|eauto with rb|done|done].
Qed.

(** ** At most one child *)

Lemma isrb_no_right c l s n : isrb (Node c l s Leaf) c n ->
  l = Leaf \/ (exists a, l = Node Red Leaf a Leaf /\ c = Black).
Proof.
  inversion 1 as [|l' a r' m Hl Hr|l' a r' cl cr m Hl Hr]; subst; inversion Hr; subst.
  - inversion Hl; subst. by left.
  - inversion Hl as [|l1 a1 r1 m Hl1 Hr1|]; subst; [by left|].
    inversion Hl1; subst. inversion Hr1; subst. right. eauto.
Qed.

Lemma isctx_leaf_hole c x k n :
  isrb (Node c Leaf x Leaf) c n -> isctx k c n ->
  match c with Red => isctx k Black 0 | Black => isctx k Black 1 end.
Proof.
  inversion 1 as [|l a r m Hl|l a r cl cr m Hl]; subst; inversion Hl; subst; intros Hk;
    [by apply isctx_black|done].
Qed.

Lemma erase_leaf_ok fuel T k c x n :
  zip_at T k (Node c Leaf x Leaf) -> isrb (Node c Leaf x Leaf) c n -> isctx k c n ->
  wp (_hev_rbtree_erase fuel T x) (unlink_post T x (lctx k ++ rctx k)).
Proof.
  intros (Hk & (Hx & Cx & _) & Hu) HB HC. simpl in Hu, Hk, Cx.
  pose proof (isctx_top_aligned _ _ _ Hk) as Hal.
  pose proof (isctx_leaf_hole _ _ _ _ HB HC) as HC'.
  unfold _hev_rbtree_erase. gen_ne. rb_run.
  unfold _hev_rbtree_node_parent. rewrite pc_parent by done.
  rb_change_child T2 Hk2 Hf2.
  assert (zip_at T2 k Leaf) as Hz by (split; [done|split; [done|simpl; disj]]).
  assert (forall a, a ∉ x :: lctx k ++ rctx k -> cells T2 !! a = cells T !! a) as Hf
    by frame_solve.
  unfold _hev_rbtree_node_is_black. destruct c.
  - change HEV_RBTREE_BLACK with 1. rewrite pc_color by done.
    eapply unlink_done; [done..|constructor|done|done].
  - change HEV_RBTREE_BLACK with 1. rewrite pc_color by done. simpl.
    by apply unlink_hole.
Qed.

Lemma erase_one_right_ok fuel T k x w n :
  zip_at T k (Node Black Leaf x (Node Red Leaf w Leaf)) -> isctx k Black n -> n = 1%nat ->
  wp (_hev_rbtree_erase fuel T x) (unlink_post T x (lctx k ++ [w] ++ rctx k)).
Proof.
  intros (Hk & (Hx & Cx & _ & (Hw & Cw & _)) & Hu) HC ->. simpl in Hu, Hk, Cx, Cw.
  pose proof (isctx_top_aligned _ _ _ Hk) as Hal.
  unfold _hev_rbtree_erase. gen_ne. rb_run.
  unfold _hev_rbtree_node_parent. rewrite pc_parent by done.
  rb_change_child T2 Hk2 Hf2.
  eapply (unlink_done _ _ _ _ k (Node Black Leaf w Leaf) 1);
    [|done|eauto with rb|frame_solve|done].
  refine (conj _ (conj _ _)); [ctx_solve|tree_solve|simpl; disj].
Qed.

Lemma erase_one_left_ok fuel T k x w n :
  zip_at T k (Node Black (Node Red Leaf w Leaf) x Leaf) -> isctx k Black n -> n = 1%nat ->
  wp (_hev_rbtree_erase fuel T x) (unlink_post T x (lctx k ++ [w] ++ rctx k)).
Proof.
  intros (Hk & (Hx & Cx & (Hw & Cw & _) & _) & Hu) HC ->. simpl in Hu, Hk, Cx, Cw.
  pose proof (isctx_top_aligned _ _ _ Hk) as Hal.
  unfold _hev_rbtree_erase. gen_ne. rb_run.
  unfold _hev_rbtree_node_parent. rewrite pc_parent by done.
  rb_change_child T2 Hk2 Hf2.
  eapply (unlink_done _ _ _ _ k (Node Black Leaf w Leaf) 1);
    [|done|eauto with rb|frame_solve|done].
  refine (conj _ (conj _ _)); [ctx_solve|tree_solve|simpl; disj].
Qed.

Lemma isrb_black_red_child n l x r w :
  isrb (Node Black l x r) Black n ->
  l = Leaf \/ r = Leaf -> l = Node Red Leaf w Leaf \/ r = Node Red Leaf w Leaf -> n = 1%nat.
Proof.
  inversion 1 as [| |? ? ? cl cr m Hl Hr]; subst. intros [->| ->] [Hw|Hw]; try discriminate Hw.
  - by inversion Hl; subst.
  - by inversion Hr; subst.
Qed.

Lemma unlink_ok fuel T k c L x R n :
  zip_at T k (Node c L x R) -> isrb (Node c L x R) c n -> isctx k c n ->
  (height R <= fuel)%nat ->
  wp (_hev_rbtree_erase fuel T x)
    (unlink_post T x (lctx k ++ (inorder L ++ inorder R) ++ rctx k)).
Proof.
  intros Hz HB HC Hh. rewrite <- app_assoc. destruct L as [|lc ll la lr].
  - destruct (isrb_no_left _ _ _ _ HB) as [->|(w & -> & ->)].
    + by eapply erase_leaf_ok.
    + eapply erase_one_right_ok; [done..|]. apply (isrb_black_red_child _ _ _ _ w HB); auto.
  - destruct R as [|rc rl ra rr].
    + destruct (isrb_no_right _ _ _ _ HB) as [?|(w & [= -> -> -> ->] & ->)]; [done|].
      eapply erase_one_left_ok; [done..|]. apply (isrb_black_red_child _ _ _ _ w HB); auto.
    + pose proof Hz as (Hk & (Hx & Cx & (Hla & _) & (Hra & _)) & Hu).
      unfold _hev_rbtree_erase. simpl in Cx. gen_ne. rb_run.
      by eapply (erase_two_ok fuel T k c (Node lc ll la lr) x (Node rc rl ra rr)).
Qed.

(** ** hev_rbtree_erase *)

Lemma height_plug k t : (height t <= height (plug k t))%nat.
Proof.
  revert t. induction k as [|[[] c a s] k IH]; intros t; simpl; [done| |];
    (etrans; [|apply IH]); simpl; lia.
Qed.

Lemma length_height k t : (length k + height t <= height (plug k t))%nat.
Proof.
  revert t. induction k as [|[[] c a s] k IH]; intros t; simpl; [done| |];
    (etrans; [|apply IH]); simpl; lia.
Qed.

Lemma height_size t : (height t <= length (inorder t))%nat.
Proof. induction t as [|c l IHl a r IHr]; simpl; rewrite ?length_app; simpl; lia. Qed.

Lemma length_ctx k : (length k <= length (lctx k ++ rctx k))%nat.
Proof.
  induction k as [|[[] c a s] k IH]; simpl; [done| |];
    rewrite !length_app in *; simpl; rewrite ?length_app; simpl; lia.
Qed.

(** Splitting a node list at a member finds the position of that member. *)
Lemma inorder_split t ls x rs : uniq (ls ++ x :: rs) -> inorder t = ls ++ x :: rs ->
  exists k c l r, t = plug k (Node c l x r) /\ ls = lctx k ++ inorder l /\
    rs = inorder r ++ rctx k.
Proof.
  intros Hu Ht. destruct (find_node t x) as (k & c & l & r & ->).
  { rewrite Ht. set_solver. }
  exists k, c, l, r. split; [done|]. rewrite inorder_plug in Ht. simpl in Ht.
  rewrite <- !app_assoc in Ht. simpl in Ht. rewrite app_assoc in Ht.
  revert Hu Ht. clear. generalize (lctx k ++ inorder l) (inorder r ++ rctx k).
  intros l1 l2. revert ls. induction l1 as [|y l1 IH]; intros [|z ls] Hu; simpl.
  - by intros [= ->].
  - intros [= <- ->]. specialize (Hu x). simpl in Hu.
    rewrite Z.eqb_refl, cnt_app, cnt_cons_eq in Hu. lia.
  - intros [= -> <-]. specialize (Hu x). simpl in Hu.
    rewrite Z.eqb_refl, cnt_app, cnt_cons_eq in Hu. lia.
  - intros [= -> E]. destruct (IH ls) as [-> ->]; [|done|done].
    intros w. specialize (Hu w). simpl in Hu. lia.
Qed.

Lemma rb_rep_uniq T xs : rb_rep T xs -> uniq xs.
Proof. intros (t & n & (_ & _ & Hu) & _ & <-). simpl in Hu. disj. Qed.

Lemma erase_ok fuel T ls x rs :
  rb_rep T (ls ++ x :: rs) -> (length (ls ++ rs) < fuel)%nat ->
  wp (hev_rbtree_erase fuel T x) (fun T' =>
    rb_rep T' (ls ++ rs) /\
    (forall a, a ∉ ls ++ x :: rs -> cells T' !! a = cells T !! a)).
Proof.
  intros Hrep Hfuel. pose proof (rb_rep_uniq _ _ Hrep) as Hu.
  destruct Hrep as (t & n & Hw & HB & Hin).
  destruct (inorder_split t ls x rs Hu Hin) as (k & c & l & r & -> & -> & ->).
  assert (zip_at T k (Node c l x r)) as Hz.
  { rewrite <- (app_nil_r k). by apply zip_unplug. }
  destruct (isctx_unplug k [] Black n (Node c l x r)) as (c' & n' & HB' & HC'); [by constructor|done|].
  rewrite app_nil_r in HC'.
  assert (c' = c) as -> by (by inversion HB').
  assert (forall (A B C D : list Z), (A ++ B) ++ C ++ D = A ++ (B ++ C) ++ D) as Hass
    by (intros; by rewrite <- !app_assoc).
  assert (forall a, a ∉ (lctx k ++ inorder l) ++ x :: inorder r ++ rctx k ->
    a ∉ x :: lctx k ++ (inorder l ++ inorder r) ++ rctx k) as Hperm.
  { intros a Ha. apply cnt_zero in Ha. disj. }
  rewrite Hass in *. unfold hev_rbtree_erase. apply wp_bind. eapply wp_mono.
  { apply (unlink_ok fuel T k c l x r n' Hz HB' HC').
    pose proof (height_size r). rewrite !length_app in Hfuel. lia. }
  intros [T' rb] [Hf Hcase]. destruct (Z.eqb_spec rb 0) as [->|Hne]; simpl.
  - apply wp_ret. auto.
  - destruct Hcase as (k' & Hz' & HC2 & -> & Hxs). unfold _hev_rbtree_erase_color.
    eapply wp_mono.
    { apply (erase_color_loop_ok fuel T' k' Leaf 0); [|by intros ->|done|constructor|done].
      pose proof (length_ctx k') as Hl. rewrite Hxs in Hl. lia. }
    simpl. rewrite Hxs. intros T2 [Hrep Hf2]. split; [done|].
    intros a Ha. apply Hperm in Ha. rewrite Hf2, Hf; [done|done|].
    intros ?. apply Ha. apply elem_of_cons; auto.
Qed.
