(* ===== verification/RBTreeSpec.v ===== *)
(** * The contract of the red-black tree, for its clients

    Clients see a tree as the list of its nodes in order ([rb_rep]), a descent
    as a [cursor] and an insertion point as a [gap]; the shapes of the trees
    stay inside this file. *)
From S2P Require Import Prelude RBTree RBTreeShape RBTreeFixup RBTreeUnlink.

(** ** Cursors and gaps *)

Definition slot_of (k : ctx) : link_slot :=
  match k with
  | [] => LinkRoot
  | Fr DL _ a _ :: _ => LinkLeft a
  | Fr DR _ a _ :: _ => LinkRight a
  end.

(** [cursor T ls mid rs node parent slot]: a descent has reached [node], found
    in [slot] of [parent]; the nodes below it are [mid], those before and after
    them [ls] and [rs]. *)
Definition cursor (T : HevRBTree) (ls mid rs : list Z) (node parent : Z)
    (slot : link_slot) : Prop :=
  exists k t c n, zip_at T k t /\ isctx k c n /\ isrb t c n /\
    node = tree_root t /\ parent = top k /\ slot = slot_of k /\
    ls = lctx k /\ mid = inorder t /\ rs = rctx k.

Definition gap (T : HevRBTree) (ls rs : list Z) (parent : Z) (slot : link_slot) : Prop :=
  cursor T ls [] rs 0 parent slot.

Lemma cursor_start T xs : rb_rep T xs -> cursor T [] xs [] (root T) 0 LinkRoot.
Proof.
  intros (t & n & Hw & HB & <-). pose proof Hw as (Hr & _). simpl in Hr.
  exists [], t, Black, n. split_and!; try done. constructor.
Qed.

Lemma cursor_rb_rep T ls mid rs node parent slot :
  cursor T ls mid rs node parent slot -> rb_rep T (ls ++ mid ++ rs).
Proof.
  intros (k & t & c & n & Hz & Hk & Ht & -> & -> & -> & -> & -> & ->).
  by eapply rb_rep_zip.
Qed.

(** Nothing outside the nodes and the root pointer matters. *)
Lemma zip_at_frame T T' k t :
  root T' = root T ->
  (forall a, a ∈ lctx k ++ inorder t ++ rctx k -> cells T' !! a = cells T !! a) ->
  zip_at T k t -> zip_at T' k t.
Proof.
  intros Hr Hf (Hk & Ht & Hu). split; [|split; [|done]].
  - apply (ctx_at_frame T); [done| |done]. intros a Ha. apply Hf. set_solver.
  - apply (tree_at_frame (cells T)); [|done]. intros a Ha. apply Hf. set_solver.
Qed.

Lemma cursor_frame T T' ls mid rs node parent slot :
  root T' = root T ->
  (forall a, a ∈ ls ++ mid ++ rs -> cells T' !! a = cells T !! a) ->
  cursor T ls mid rs node parent slot -> cursor T' ls mid rs node parent slot.
Proof.
  intros Hr Hf (k & t & c & n & Hz & Hk & Ht & -> & -> & -> & -> & -> & ->).
  exists k, t, c, n. split; [by apply (zip_at_frame T)|]. done.
Qed.

Lemma rb_rep_frame T T' xs :
  root T' = root T -> (forall a, a ∈ xs -> cells T' !! a = cells T !! a) ->
  rb_rep T xs -> rb_rep T' xs.
Proof.
  intros Hr Hf (t & n & Hw & HB & <-). exists t, n. split; [|done].
  apply (zip_at_frame T); [done| |done]. simpl. rewrite app_nil_r. exact Hf.
Qed.

Lemma rb_rep_empty h : rb_rep (mkRBTree 0 h) [].
Proof.
  exists Leaf, 0%nat. split; [|split; [constructor|done]].
  split; [done|]. split; [done|]. intros x. simpl. lia.
Qed.

Lemma rb_rep_addr_ok T xs a : rb_rep T xs -> a ∈ xs -> addr_ok a.
Proof. intros (t & n & (_ & Ht & _) & _ & <-). by apply (tree_at_addr_ok _ _ _ _ Ht). Qed.

Lemma rb_rep_cell T xs a : rb_rep T xs -> a ∈ xs -> is_Some (cells T !! a).
Proof. intros (t & n & (_ & Ht & _) & _ & <-). by apply (tree_at_cell _ _ _ _ Ht). Qed.

(** A tree holds one sequence. *)
Lemma tree_at_inj h t : forall p p' t', tree_at h p t -> tree_at h p' t' ->
  tree_root t = tree_root t' -> inorder t = inorder t'.
Proof.
  induction t as [|c l IHl a r IHr]; intros p p' [|c' l' a' r']; simpl; [done|..].
  - intros _ [[Ha _] _] E. by destruct Ha.
  - intros [[Ha _] _] _ E. by destruct Ha.
  - intros (_ & Ha & Hl & Hr) (_ & Ha' & Hl' & Hr') <-. rewrite Ha in Ha'.
    injection Ha' as _ Er El. by rewrite (IHl a a l'), (IHr a a r').
Qed.

Lemma rb_rep_inj T xs ys : rb_rep T xs -> rb_rep T ys -> xs = ys.
Proof.
  intros (t & n & (H1 & H2 & _) & _ & <-) (t' & n' & (H1' & H2' & _) & _ & <-).
  eapply tree_at_inj; [exact H2|exact H2'|]. simpl in *. congruence.
Qed.

Lemma cursor_slot T ls mid rs node parent slot :
  cursor T ls mid rs node parent slot -> rd_slot T slot = Some node.
Proof.
  intros (k & t & c & n & (Hk & _ & _) & _ & _ & -> & _ & -> & _).
  destruct k as [|[[] c' a s] k]; simpl in *; [by rewrite Hk| |];
    destruct Hk as (_ & Hc & _); unfold rd_left, rd_right, rd; by rewrite Hc.
Qed.

Lemma cursor_null T ls mid rs parent slot :
  cursor T ls mid rs 0 parent slot -> mid = [] /\ gap T ls rs parent slot.
Proof.
  intros (k & t & c & n & Hz & Hk & Ht & Hn & Hp & Hs & Hls & Hmid & Hrs).
  destruct t as [|c' l a r].
  - split; [done|]. exists k, Leaf, c, n. done.
  - simpl in Hn. subst a. destruct Hz as (_ & ([? _] & _) & _). done.
Qed.

(** Descending: the nodes below split around the current one. *)
Lemma cursor_step T ls mid rs node parent slot :
  cursor T ls mid rs node parent slot -> node <> 0 ->
  exists l r nl nr, mid = l ++ node :: r /\
    rd_left T node = Some nl /\ rd_right T node = Some nr /\
    cursor T ls l (node :: r ++ rs) nl node (LinkLeft node) /\
    cursor T (ls ++ l ++ [node]) r rs nr node (LinkRight node).
Proof.
  intros (k & t & c & n & Hz & Hk & Ht & -> & -> & -> & -> & -> & ->) Hne.
  destruct t as [|c' l a r]; [done|].
  assert (c' = c) as -> by (by inversion Ht).
  destruct (isctx_unplug [Fr DL c a r] k c n l) as (cl & nl & HBl & HCl); [done..|].
  destruct (isctx_unplug [Fr DR c a l] k c n r) as (cr & nr & HBr & HCr); [done..|].
  pose proof (zip_unplug T [Fr DL c a r] k l Hz) as Hzl.
  pose proof (zip_unplug T [Fr DR c a l] k r Hz) as Hzr.
  destruct Hz as (_ & (_ & Hc & _) & _).
  exists (inorder l), (inorder r), (tree_root l), (tree_root r).
  split; [done|]. unfold rd_left, rd_right, rd. simpl tree_root. rewrite Hc.
  split; [done|]. split; [done|]. split.
  - by exists (Fr DL c a r :: k), l, cl, nl.
  - by exists (Fr DR c a l :: k), r, cr, nr.
Qed.

(** ** Depth *)

Lemma isrb_size t c n : isrb t c n -> (2 ^ n <= S (length (inorder t)))%nat.
Proof.
  induction 1 as [|l a r n Hl IHl Hr IHr|l a r cl cr n Hl IHl Hr IHr]; simpl;
    rewrite ?length_app; simpl; lia.
Qed.

Lemma isrb_height t c n : isrb t c n ->
  (height t <= 2 * n + match c with Red => 1 | Black => 0 end)%nat.
Proof.
  induction 1 as [|l a r n Hl IHl Hr IHr|l a r cl cr n Hl IHl Hr IHr]; simpl; [lia..|].
  destruct cl, cr; lia.
Qed.

(** The longest path of a tree of [n] nodes. *)
Definition depth_bound (n : nat) : nat := 2 * Nat.log2 (S n).

Lemma height_log t n : isrb t Black n -> (height t <= depth_bound (length (inorder t)))%nat.
Proof.
  intros H. pose proof (isrb_height _ _ _ H) as Hh. pose proof (isrb_size _ _ _ H) as Hs.
  apply Nat.log2_le_mono in Hs. rewrite Nat.log2_pow2 in Hs by lia.
  unfold depth_bound. cbn iota in Hh. lia.
Qed.

Lemma depth_bound_le n : (depth_bound n <= S n)%nat.
Proof.
  unfold depth_bound. pose proof (Nat.log2_spec (S n)) as [H _]; [lia|].
  revert H. generalize (Nat.log2 (S n)). intros k.
  assert (2 * k <= 2 ^ k)%nat as Hk; [|lia].
  destruct k as [|k]; [simpl; lia|]. induction k as [|k IH]; simpl in *; lia.
Qed.

(** ** Insertion at a gap *)

(** [hev_rbtree_node_link] followed by [hev_rbtree_insert_color], as every
    client calls them. *)
Definition rb_insert (fuel : nat) t node parent slot : option HevRBTree :=
  t ← hev_rbtree_node_link t node parent slot;
  hev_rbtree_insert_color fuel t node.

Lemma link_ok T k x :
  zip_at T k Leaf -> addr_ok x -> x ∉ lctx k ++ rctx k -> is_Some (cells T !! x) ->
  wp (hev_rbtree_node_link T x (top k) (slot_of k)) (fun T' =>
    zip_at T' k (Node Red Leaf x Leaf) /\
    (forall a, a ∉ x :: lctx k ++ rctx k -> cells T' !! a = cells T !! a)).
Proof.
  intros (Hk & _ & Hu) Hx Hni [old Hc]. simpl in Hu.
  pose proof (uniq_cons _ _ Hni Hu) as Hux. apply cnt_zero in Hni.
  pose proof (isctx_top_aligned _ _ _ Hk) as Hal. unfold hev_rbtree_node_link.
  destruct k as [|[[] c a s] k].
  - simpl in *. rb_unfold. rewrite Hc. rb_simpl. rb_exec. eexists. split; [done|].
    unfold wr_root. split; [|frame_solve]. split; [done|]. split.
    + simpl. rewrite lookup_insert_eq, mkpc_red. done.
    + exact Hux.
  - simpl in *. destruct Hk as (Ha & Ca & Hs & Hk). gen_ne. rb_unfold. rewrite Hc. rb_simpl.
    rb_exec. eexists. split; [done|]. split; [|frame_solve].
    refine (conj _ (conj _ _)); [|tree_solve|simpl; disj].
    cbn [ctx_at]. split; [done|]. split; [rb_exec; done|]. split; [tree_find|ctx_solve].
  - simpl in *. destruct Hk as (Ha & Ca & Hs & Hk). gen_ne. rb_unfold. rewrite Hc. rb_simpl.
    rb_exec. eexists. split; [done|]. split; [|frame_solve].
    refine (conj _ (conj _ _)); [|tree_solve|simpl; disj].
    cbn [ctx_at]. split; [done|]. split; [rb_exec; done|]. split; [tree_find|ctx_solve].
Qed.

Lemma insert_gap_ok fuel T ls rs parent slot x :
  gap T ls rs parent slot -> addr_ok x -> x ∉ ls ++ rs -> is_Some (cells T !! x) ->
  (depth_bound (length (ls ++ rs)) < fuel)%nat ->
  wp (rb_insert fuel T x parent slot) (fun T' =>
    rb_rep T' (ls ++ x :: rs) /\
    (forall a, a ∉ ls ++ x :: rs -> cells T' !! a = cells T !! a)).
Proof.
  intros (k & t & c & n & Hz & Hk & Ht & Hn & -> & -> & -> & Hmid & ->) Hx Hni Hc Hlen.
  destruct t as [|c' l a r]; [|simpl in Hmid; by destruct (inorder l)].
  inversion Ht; subst. unfold rb_insert. apply wp_bind.
  eapply wp_mono; [by apply link_ok|]. intros T1 (Hz1 & Hf1).
  unfold hev_rbtree_insert_color. apply wp_bind.
  pose proof Hz1 as (_ & (_ & Cx & _) & _).
  eapply wp_prim; [unfold hev_rbtree_node_red_parent, rd_pc, rd; by rewrite Cx|].
  simpl. rewrite mkpc_red. eapply wp_mono.
  { apply (insert_loop_ok fuel T1 k Leaf x Leaf 0); [|done|constructor|constructor|done].
    destruct (plug_isrb k Black 0 Leaf Hk Ht) as [m Hm].
    pose proof (height_log _ _ Hm) as Hl. pose proof (length_height k Leaf).
    rewrite inorder_plug in Hl. simpl in Hl, H. lia. }
  simpl. intros T2 [Hrep Hf]. split; [done|]. intros a Ha. rewrite Hf by done.
  apply Hf1. apply cnt_zero in Ha. disj.
Qed.

(** * Traversal and replacement in the red-black tree *)

(** ** First and last *)

Lemma leftmost_ok fuel T p c l a r :
  tree_at (cells T) p (Node c l a r) -> (height (Node c l a r) <= fuel)%nat ->
  leftmost_loop fuel T a = head (inorder (Node c l a r)).
Proof.
  revert p c l a r. induction fuel as [|fuel IH]; intros p c l a r; [simpl; lia|].
  intros (Ha & Hc & Hl & Hr) Hh. simpl. unfold rd_left, rd. rewrite Hc. simpl.
  destruct l as [|c' l' a' r']; [done|].
  pose proof Hl as (Ha' & _). rewrite (proj2 (Z.eqb_neq _ 0)) by (simpl; auto with rb).
  cbn [negb tree_root]. rewrite (IH a c' l' a' r' Hl) by (simpl in *; lia). simpl.
  by destruct (inorder l').
Qed.

Lemma rightmost_ok fuel T p c l a r :
  tree_at (cells T) p (Node c l a r) -> (height (Node c l a r) <= fuel)%nat ->
  rightmost_loop fuel T a = last (inorder (Node c l a r)).
Proof.
  revert p c l a r. induction fuel as [|fuel IH]; intros p c l a r; [simpl; lia|].
  intros (Ha & Hc & Hl & Hr) Hh. simpl. unfold rd_right, rd. rewrite Hc. simpl.
  rewrite last_app_cons. destruct r as [|c' l' a' r']; [done|].
  pose proof Hr as (Ha' & _). rewrite (proj2 (Z.eqb_neq _ 0)) by (simpl; auto with rb).
  cbn [negb tree_root]. rewrite (IH a c' l' a' r' Hr) by (simpl in *; lia). simpl.
  rewrite last_cons. by rewrite last_app_cons; destruct (last (a' :: inorder r')) eqn:E;
    [|apply last_None in E].
Qed.

Lemma first_ok fuel T xs : rb_rep T xs -> (depth_bound (length xs) <= fuel)%nat ->
  hev_rbtree_first fuel T = Some (default 0 (head xs)).
Proof.
  intros (t & n & (Hr & Ht & _) & HB & <-) Hf. simpl in Hr, Ht. unfold hev_rbtree_first.
  pose proof (height_log _ _ HB). rewrite Hr. destruct t as [|c l a r]; [done|].
  pose proof Ht as (Ha & _). rewrite (proj2 (Z.eqb_neq _ 0)) by (simpl; auto with rb).
  simpl tree_root. rewrite (leftmost_ok fuel T 0 c l a r) by (done || lia).
  simpl. by destruct (inorder l).
Qed.

Lemma last_ok fuel T xs : rb_rep T xs -> (depth_bound (length xs) <= fuel)%nat ->
  hev_rbtree_last fuel T = Some (default 0 (last xs)).
Proof.
  intros (t & n & (Hr & Ht & _) & HB & <-) Hf. simpl in Hr, Ht. unfold hev_rbtree_last.
  pose proof (height_log _ _ HB). rewrite Hr. destruct t as [|c l a r]; [done|].
  pose proof Ht as (Ha & _). rewrite (proj2 (Z.eqb_neq _ 0)) by (simpl; auto with rb).
  simpl tree_root. rewrite (rightmost_ok fuel T 0 c l a r) by (done || lia).
  simpl. rewrite last_app_cons. by destruct (last (a :: inorder r)) eqn:E;
    [|apply last_None in E].
Qed.

(** ** Successor and predecessor *)

Lemma climb_right_ok fuel T k x c :
  ctx_at T x k -> rd_pc T x = Some (mkpc (top k) c) -> addr_ok x ->
  uniq (x :: lctx k ++ rctx k) -> (length k < fuel)%nat ->
  climb_right_loop fuel T x = Some (default 0 (head (rctx k))).
Proof.
  revert fuel x c. induction k as [|[d c' a s] k IH]; intros [|fuel] x c Hk Hpc Hx Hu; simpl;
    [lia| |lia|]; intros Hf; unfold hev_rbtree_node_parent; rewrite Hpc; cbn [mbind option_bind top].
  - by rewrite pc_parent.
  - destruct Hk as (Ha & Hc & Hs & Hk). pose proof (isctx_top_aligned _ _ _ Hk).
    rewrite pc_parent by auto with rb.
    rewrite (proj2 (Z.eqb_neq a 0)) by auto with rb.
    unfold rd_right, rd. rewrite Hc. simpl. destruct d; simpl in *.
    + assert (x <> tree_root s) as Hne by (ne_solve).
      by rewrite (proj2 (Z.eqb_neq _ _) Hne).
    + rewrite Z.eqb_refl. apply (IH fuel a c'); [done| |done|disj|lia].
      unfold rd_pc, rd. by rewrite Hc.
Qed.

Lemma climb_left_ok fuel T k x c :
  ctx_at T x k -> rd_pc T x = Some (mkpc (top k) c) -> addr_ok x ->
  uniq (x :: lctx k ++ rctx k) -> (length k < fuel)%nat ->
  climb_left_loop fuel T x = Some (default 0 (last (lctx k))).
Proof.
  revert fuel x c. induction k as [|[d c' a s] k IH]; intros [|fuel] x c Hk Hpc Hx Hu; simpl;
    [lia| |lia|]; intros Hf; unfold hev_rbtree_node_parent; rewrite Hpc; cbn [mbind option_bind top].
  - by rewrite pc_parent.
  - destruct Hk as (Ha & Hc & Hs & Hk). pose proof (isctx_top_aligned _ _ _ Hk).
    rewrite pc_parent by auto with rb.
    rewrite (proj2 (Z.eqb_neq a 0)) by auto with rb.
    unfold rd_left, rd. rewrite Hc. simpl. destruct d; simpl in *.
    + rewrite Z.eqb_refl. apply (IH fuel a c'); [done| |done|disj|lia].
      unfold rd_pc, rd. by rewrite Hc.
    + assert (x <> tree_root s) as Hne by (ne_solve).
      rewrite (proj2 (Z.eqb_neq _ _) Hne). by rewrite app_assoc, last_snoc.
Qed.

Lemma land_not3 x : aligned x -> Z.land x (Z.lnot 3) = x.
Proof. intros H. rewrite <- (pc_parent x Red H) at 2. by rewrite mkpc_red. Qed.

Lemma mkpc_ne p c x : aligned p -> aligned x -> p <> x -> mkpc p c <> x.
Proof.
  intros Hp Hx Hne E. apply Hne. rewrite <- (pc_parent p c Hp), E. by apply land_not3.
Qed.

(** The position of a member of a represented tree. *)
Lemma rb_rep_position T ls x rs : rb_rep T (ls ++ x :: rs) ->
  exists k c l r n, zip_at T k (Node c l x r) /\ isrb (Node c l x r) c n /\ isctx k c n /\
    ls = lctx k ++ inorder l /\ rs = inorder r ++ rctx k /\
    (length k + height (Node c l x r) <= depth_bound (length (ls ++ x :: rs)))%nat.
Proof.
  intros Hrep. pose proof (rb_rep_uniq _ _ Hrep) as Hu.
  destruct Hrep as (t & n & Hw & HB & Hin). rewrite <- Hin.
  pose proof (height_log _ _ HB) as Hh.
  destruct (inorder_split t ls x rs Hu Hin) as (k & c & l & r & -> & -> & ->).
  assert (zip_at T k (Node c l x r)) as Hz.
  { rewrite <- (app_nil_r k). by apply zip_unplug. }
  destruct (isctx_unplug k [] Black n (Node c l x r)) as (c' & n' & HB' & HC');
    [by constructor|done|].
  rewrite app_nil_r in HC'. assert (c' = c) as -> by (by inversion HB').
  exists k, c, l, r, n'. split_and!; try done. etrans; [apply length_height|done].
Qed.

Lemma zip_ne_top T k c l x r : zip_at T k (Node c l x r) -> aligned (top k) /\ top k <> x.
Proof.
  intros (Hk & (Hx & _) & Hu). split; [by eapply isctx_top_aligned|].
  destruct k as [|[d c' a s] k]; simpl in *; [destruct Hx; auto|].
  destruct d; simpl in Hu; disj.
Qed.

Lemma zip_not_empty T k c l x r : zip_at T k (Node c l x r) ->
  hev_rbtree_node_empty T x = Some false.
Proof.
  intros Hz. destruct (zip_ne_top _ _ _ _ _ _ Hz) as [Hal Hne].
  destruct Hz as (Hk & (Hx & Hc & _) & Hu).
  unfold hev_rbtree_node_empty, rd_pc, rd. rewrite Hc. simpl. f_equal. apply Z.eqb_neq.
  apply mkpc_ne; auto with rb.
Qed.

Lemma next_ok fuel T ls x rs :
  rb_rep T (ls ++ x :: rs) -> (depth_bound (length (ls ++ x :: rs)) <= fuel)%nat ->
  hev_rbtree_node_next fuel T x = Some (default 0 (head rs)).
Proof.
  intros Hrep Hf.
  destruct (rb_rep_position _ _ _ _ Hrep) as (k & c & l & r & n & Hz & _ & _ & _ & -> & Hh).
  unfold hev_rbtree_node_next. rewrite (zip_not_empty _ _ _ _ _ _ Hz).
  destruct Hz as (Hk & (Hx & Hc & Hl & Hr) & Hu). simpl in Hk, Hu, Hh. simpl.
  unfold rd_right, rd. rewrite Hc. simpl. destruct r as [|c' l' a' r'].
  - simpl. apply (climb_right_ok fuel T k x c); [done| |done|disj|lia].
    unfold rd_pc, rd. by rewrite Hc.
  - pose proof Hr as (Ha' & _). rewrite (proj2 (Z.eqb_neq _ 0)) by (simpl; auto with rb).
    cbn [negb tree_root]. rewrite (leftmost_ok fuel T x c' l' a' r') by (done || simpl in *; lia).
    simpl. by destruct (inorder l').
Qed.

Lemma prev_ok fuel T ls x rs :
  rb_rep T (ls ++ x :: rs) -> (depth_bound (length (ls ++ x :: rs)) <= fuel)%nat ->
  hev_rbtree_node_prev fuel T x = Some (default 0 (last ls)).
Proof.
  intros Hrep Hf.
  destruct (rb_rep_position _ _ _ _ Hrep) as (k & c & l & r & n & Hz & _ & _ & -> & _ & Hh).
  unfold hev_rbtree_node_prev. rewrite (zip_not_empty _ _ _ _ _ _ Hz).
  destruct Hz as (Hk & (Hx & Hc & Hl & Hr) & Hu). simpl in Hk, Hu, Hh. simpl.
  unfold rd_left, rd. rewrite Hc. simpl. destruct l as [|c' l' a' r'].
  - simpl. rewrite app_nil_r. apply (climb_left_ok fuel T k x c); [done| |done|disj|lia].
    unfold rd_pc, rd. by rewrite Hc.
  - pose proof Hl as (Ha' & _). rewrite (proj2 (Z.eqb_neq _ 0)) by (simpl; auto with rb).
    cbn [negb tree_root]. rewrite (rightmost_ok fuel T x c' l' a' r') by (done || simpl in *; lia).
    simpl. rewrite app_assoc, !last_app_cons. by destruct (last (a' :: inorder r')) eqn:E;
      [|apply last_None in E].
Qed.

(** ** Replacement *)

Lemma replace_ok T ls x rs y :
  rb_rep T (ls ++ x :: rs) -> addr_ok y -> y ∉ ls ++ x :: rs -> is_Some (cells T !! y) ->
  wp (hev_rbtree_replace T x y) (fun T' =>
    rb_rep T' (ls ++ y :: rs) /\
    (forall a, a ∉ y :: ls ++ rs -> cells T' !! a = cells T !! a)).
Proof.
  intros Hrep Hy Hni [old Hold].
  pose proof (uniq_cons _ _ Hni (rb_rep_uniq _ _ Hrep)) as Huy.
  destruct (rb_rep_position _ _ _ _ Hrep) as (k & c & l & r & n & Hz & HB & HC & -> & -> & _).
  destruct (zip_ne_top _ _ _ _ _ _ Hz) as [Hal _].
  destruct Hz as (Hk & (Hx & Hc & Hl & Hr) & Hu). simpl in Hk, Hu. clear Hni.
  unfold hev_rbtree_replace. gen_ne. rb_run.
  rb_reparent T1 Hr1 Ht1 Hf1. rb_reparent T2 Hr2 Ht2 Hf2. rb_change_child T3 Hk3 Hf3.
  split; [|frame_solve].
  eapply (rb_rep_zip _ k (Node c l y r) c n); [|done| |norm_app].
  - refine (conj _ (conj _ _)); [ctx_solve|tree_solve|simpl; disj].
  - inversion HB; subst; by econstructor.
Qed.
