(* ===== verification/List.v ===== *)
(** * The intrusive doubly-linked list (misc/hev-list.c, misc/hev-list.h)

    The list header is kept together with the memory that holds the nodes;
    [0] is [NULL], and an access to an address without a node is [None]. *)
From S2P Require Import Prelude.

(** ** Data and operations *)

Record HevListNode := mkListNode { l_next : Z; l_prev : Z }.

Record HevList := mkList {
  l_head : Z;
  l_tail : Z;
  lcells : gmap Z HevListNode;
}.

Definition set_next (L : HevList) (a v : Z) : option HevList :=
  n ← lcells L !! a;
  Some (mkList (l_head L) (l_tail L) (<[a := mkListNode v (l_prev n)]> (lcells L))).

Definition set_prev (L : HevList) (a v : Z) : option HevList :=
  n ← lcells L !! a;
  Some (mkList (l_head L) (l_tail L) (<[a := mkListNode (l_next n) v]> (lcells L))).

Definition set_head (L : HevList) (v : Z) : HevList := mkList v (l_tail L) (lcells L).
Definition set_tail (L : HevList) (v : Z) : HevList := mkList (l_head L) v (lcells L).

Definition hev_list_node_prev (L : HevList) (node : Z) : option Z :=
  n ← lcells L !! node; Some (l_prev n).

Definition hev_list_node_next (L : HevList) (node : Z) : option Z :=
  n ← lcells L !! node; Some (l_next n).

Definition hev_list_first (self : HevList) : Z := l_head self.
Definition hev_list_last (self : HevList) : Z := l_tail self.

Definition hev_list_add_tail (self : HevList) (new_ : Z) : option HevList :=
  self ← set_prev self new_ (l_tail self);
  self ← set_next self new_ 0;
  self ← (if negb (Z.eqb (l_tail self) 0) then set_next self (l_tail self) new_
          else Some (set_head self new_));
  Some (set_tail self new_).

Definition hev_list_del (self : HevList) (node : Z) : option HevList :=
  prev ← hev_list_node_prev self node;
  next ← hev_list_node_next self node;
  self ← (if negb (Z.eqb prev 0) then set_next self prev next
          else Some (set_head self next));
  next ← hev_list_node_next self node;
  prev ← hev_list_node_prev self node;
  (if negb (Z.eqb next 0) then set_prev self next prev
   else Some (set_tail self prev)).

(** ** The represented sequence *)

Definition hd_or (d : Z) (xs : list Z) : Z := default d (head xs).
Definition last_or (d : Z) (xs : list Z) : Z := default d (last xs).

(** [seg h p xs n]: the nodes [xs] are linked in both directions, the first one
    preceded by [p] and the last one followed by [n]. *)
Fixpoint seg (h : gmap Z HevListNode) (p : Z) (xs : list Z) (n : Z) : Prop :=
  match xs with
  | [] => True
  | x :: xs => x <> 0 /\ h !! x = Some (mkListNode (hd_or n xs) p) /\ seg h x xs n
  end.

Definition dll (L : HevList) (xs : list Z) : Prop :=
  l_head L = hd_or 0 xs /\ l_tail L = last_or 0 xs /\
  seg (lcells L) 0 xs 0 /\ uniq xs.

Lemma hd_or_app d xs ys : hd_or d (xs ++ ys) = hd_or (hd_or d ys) xs.
Proof. by destruct xs. Qed.

Lemma last_or_cons d x xs : last_or d (x :: xs) = last_or x xs.
Proof. unfold last_or. rewrite last_cons. by destruct (last xs). Qed.

Lemma last_or_app d xs ys : last_or d (xs ++ ys) = last_or (last_or d xs) ys.
Proof.
  revert d. induction xs as [|x xs IH]; intros d; [done|]. by rewrite <- app_comm_cons, !last_or_cons.
Qed.

Lemma seg_app h p xs ys n :
  seg h p (xs ++ ys) n <-> seg h p xs (hd_or n ys) /\ seg h (last_or p xs) ys n.
Proof.
  revert p. induction xs as [|x xs IH]; intros p; simpl; [tauto|].
  rewrite IH, hd_or_app, last_or_cons. tauto.
Qed.

Lemma seg_frame h h' p xs n :
  (forall a, a ∈ xs -> h' !! a = h !! a) -> seg h p xs n -> seg h' p xs n.
Proof.
  revert p. induction xs as [|x xs IH]; intros p Hf; simpl; [done|].
  intros (Hx & Hc & Hs). split; [done|]. split; [rewrite Hf; [done|set_solver]|].
  apply IH; [set_solver|done].
Qed.

Lemma seg_nonzero h p xs n x : seg h p xs n -> x ∈ xs -> x <> 0.
Proof.
  revert p. induction xs as [|y xs IH]; intros p; simpl; [set_solver|].
  intros (Hy & _ & Hs) [->|Hx]%elem_of_cons; eauto.
Qed.

Lemma dll_empty h : dll (mkList 0 0 h) [].
Proof. split_and!; try done. intros x. simpl. lia. Qed.

Lemma dll_cell L xs x : dll L xs -> x ∈ xs -> is_Some (lcells L !! x).
Proof.
  intros (_ & _ & Hs & _). revert Hs. generalize 0 at 1. induction xs as [|y xs IH];
    intros p; simpl; [set_solver|]. intros (_ & Hc & Hs) [->|Hx]%elem_of_cons; eauto.
Qed.

(** ** Appending at the tail *)

Lemma last_or_snoc_cases xs : xs = [] \/ exists ys y, xs = ys ++ [y] /\ last_or 0 xs = y.
Proof.
  destruct (decide (xs = [])) as [->|H]; [by left|right].
  destruct (exists_last H) as (ys & y & ->). exists ys, y. split; [done|].
  by rewrite last_or_app.
Qed.

Lemma add_tail_ok L xs x :
  dll L xs -> x <> 0 -> x ∉ xs -> is_Some (lcells L !! x) ->
  wp (hev_list_add_tail L x) (fun L' =>
    dll L' (xs ++ [x]) /\ (forall a, a ∉ x :: xs -> lcells L' !! a = lcells L !! a)).
Proof.
  intros (Hh & Ht & Hs & Hu) Hx Hni [old Hc].
  assert (uniq (xs ++ [x])) as Hu'.
  { apply uniq_app_comm. by apply uniq_cons. }
  unfold hev_list_add_tail, set_prev, set_next. rewrite Hc. simpl.
  rewrite lookup_insert_eq. simpl. rewrite Ht.
  destruct (last_or_snoc_cases xs) as [->|(ys & y & -> & Hy)].
  - simpl. eexists. split; [done|]. split.
    + split_and!; try done. simpl. by rewrite lookup_insert_eq.
    + intros a Ha. simpl. rewrite !lookup_insert_ne; set_solver.
  - rewrite Hy. apply seg_app in Hs as [Hs (Hy0 & Cy & _)].
    rewrite (proj2 (Z.eqb_neq _ _) Hy0). simpl.
    assert (x <> y) as Hxy by (intros ->; apply Hni; set_solver).
    rewrite !lookup_insert_ne, Cy by done. simpl. eexists. split; [done|]. split.
    + split_and!.
      * simpl. rewrite Hh. by destruct ys.
      * simpl. by rewrite last_or_app.
      * rewrite <- app_assoc. apply seg_app. simpl. split; [|split_and!; try done].
        -- eapply seg_frame; [|exact Hs]. intros a Ha.
           rewrite !lookup_insert_ne; [done|set_solver..|].
           intros ->. specialize (Hu a). rewrite cnt_app in Hu. apply cnt_pos in Ha.
           simpl in Hu. rewrite Z.eqb_refl in Hu. lia.
        -- by rewrite lookup_insert_eq.
        -- rewrite lookup_insert_ne, lookup_insert_eq by done. done.
      * done.
    + intros a Ha. simpl. rewrite !lookup_insert_ne; set_solver.
Qed.

(** ** Removal *)

(** Changing the link that enters or leaves a segment. *)
Lemma seg_set_last h p xs y n n' c :
  seg h p (xs ++ [y]) n -> uniq (xs ++ [y]) -> h !! y = Some c ->
  seg (<[y := mkListNode n' (l_prev c)]> h) p (xs ++ [y]) n'.
Proof.
  intros Hs Hu Hc. apply seg_app in Hs as [Hs (Hy & Cy & _)]. apply seg_app.
  split; [|split; [done|]; split; [|done]].
  - eapply seg_frame; [|exact Hs]. intros a Ha. rewrite lookup_insert_ne; [done|].
    intros ->. specialize (Hu a). rewrite cnt_app in Hu. apply cnt_pos in Ha.
    simpl in Hu. rewrite Z.eqb_refl in Hu. lia.
  - rewrite lookup_insert_eq. rewrite Cy in Hc. injection Hc as <-. done.
Qed.

Lemma seg_set_first h p p' y ys n c :
  seg h p (y :: ys) n -> uniq (y :: ys) -> h !! y = Some c ->
  seg (<[y := mkListNode (l_next c) p']> h) p' (y :: ys) n.
Proof.
  intros (Hy & Cy & Hs) Hu Hc. split; [done|]. split.
  - rewrite lookup_insert_eq. rewrite Cy in Hc. injection Hc as <-. done.
  - eapply seg_frame; [|exact Hs]. intros a Ha. rewrite lookup_insert_ne; [done|].
    intros ->. specialize (Hu a). apply cnt_pos in Ha. simpl in Hu.
    rewrite Z.eqb_refl in Hu. lia.
Qed.

(** Unlinking from the left neighbour, or from the header. *)
Lemma del_left L xs x ys :
  dll L (xs ++ x :: ys) ->
  exists L1, (prev ← hev_list_node_prev L x;
              next ← hev_list_node_next L x;
              if negb (Z.eqb prev 0) then set_next L prev next
              else Some (set_head L next)) = Some L1 /\
    l_head L1 = hd_or 0 (xs ++ ys) /\ l_tail L1 = l_tail L /\
    seg (lcells L1) 0 xs (hd_or 0 ys) /\ seg (lcells L1) x ys 0 /\
    lcells L1 !! x = Some (mkListNode (hd_or 0 ys) (last_or 0 xs)) /\
    (forall a, a ∉ xs ++ x :: ys -> lcells L1 !! a = lcells L !! a).
Proof.
  intros (Hh & Ht & Hs & Hu). apply seg_app in Hs as [Hsx (Hx & Cx & Hsy)].
  unfold hev_list_node_prev, hev_list_node_next, set_next. rewrite Cx. simpl.
  destruct (last_or_snoc_cases xs) as [->|(xs0 & p & -> & Hp)].
  - simpl. eexists. split; [done|]. by split_and!.
  - rewrite Hp. pose proof Hsx as Hsx'. apply seg_app in Hsx' as [_ (Hp0 & Cp & _)].
    rewrite (proj2 (Z.eqb_neq _ _) Hp0). simpl. rewrite Cp. simpl.
    eexists. split; [done|]. split_and!.
    + simpl. rewrite Hh. unfold hd_or. by destruct xs0.
    + done.
    + exact (seg_set_last _ _ _ _ _ (hd_or 0 ys) _ Hsx (uniq_app_l _ _ Hu) Cp).
    + eapply seg_frame; [|exact Hsy]. simpl. intros a Ha. rewrite lookup_insert_ne; [done|].
      apply cnt_pos in Ha. disj.
    + simpl. rewrite lookup_insert_ne by disj. by rewrite Cx, Hp.
    + simpl. intros a Ha. rewrite lookup_insert_ne; [done|]. apply cnt_zero in Ha. disj.
Qed.

Lemma del_ok L xs x ys :
  dll L (xs ++ x :: ys) ->
  wp (hev_list_del L x) (fun L' =>
    dll L' (xs ++ ys) /\ is_Some (lcells L' !! x) /\
    (forall a, a ∉ xs ++ x :: ys -> lcells L' !! a = lcells L !! a)).
Proof.
  intros Hd. pose proof Hd as (_ & Ht & _ & Hu).
  destruct (del_left L xs x ys Hd) as (L1 & E & Hh1 & Ht1 & Hsx & Hsy & Cx & Hf).
  unfold hev_list_del. destruct (hev_list_node_prev L x) as [prev|]; [|discriminate E].
  simpl in E |- *. destruct (hev_list_node_next L x) as [next|]; [|discriminate E].
  simpl in E |- *. rewrite E. simpl.
  unfold hev_list_node_prev, hev_list_node_next, set_prev. rewrite Cx. simpl.
  assert (uniq (xs ++ ys)) as Hu' by disj. destruct ys as [|y ys].
  - simpl. eexists. split; [done|]. rewrite app_nil_r in *. split_and!; try done.
  - change (hd_or 0 (y :: ys)) with y in *. pose proof Hsy as (Hy & Cy & _).
    rewrite (proj2 (Z.eqb_neq _ _) Hy). cbn [negb]. rewrite Cy. simpl.
    eexists. split; [done|]. split; [split; [|split; [|split]]|split]; simpl.
    + exact Hh1.
    + rewrite Ht1, Ht, !last_or_app, !last_or_cons. done.
    + apply seg_app. split.
      * eapply seg_frame; [|exact Hsx]. intros a Ha. rewrite lookup_insert_ne; [done|].
        apply cnt_pos in Ha. disj.
      * apply (seg_set_first _ x (last_or 0 xs) y ys 0 (mkListNode (hd_or 0 ys) x) Hsy); [disj|exact Cy].
    + done.
    + rewrite lookup_insert_ne, Cx; [eauto|disj].
    + intros a Ha. rewrite lookup_insert_ne; [by apply Hf|]. apply cnt_zero in Ha. disj.
Qed.

(** The two calls that clients use to mark a node as most recent. *)
Lemma del_add_tail_ok L xs x ys :
  dll L (xs ++ x :: ys) ->
  wp (L1 ← hev_list_del L x; hev_list_add_tail L1 x) (fun L' =>
    dll L' (xs ++ ys ++ [x]) /\
    (forall a, a ∉ xs ++ x :: ys -> lcells L' !! a = lcells L !! a)).
Proof.
  intros Hd. pose proof Hd as (_ & _ & Hs & Hu). apply wp_bind.
  eapply wp_mono; [by apply del_ok|]. intros L1 (Hd1 & Hc1 & Hf1).
  eapply wp_mono; [apply (add_tail_ok _ _ x Hd1); [|disj|done]|].
  { eapply seg_nonzero; [exact Hs|set_solver]. }
  intros L2 [Hd2 Hf2]. rewrite <- app_assoc in Hd2. split; [done|]. intros a Ha.
  rewrite Hf2, Hf1; [done|done|]. apply cnt_zero in Ha. disj.
Qed.
