(* ===== verification/SearchTree.v ===== *)
(** * Ordered use of the red-black tree

    The clients of the tree keep it sorted by a key of their own and walk it
    with the same loop.  [KeyOrder] states what a comparison routine promises;
    the loop, the order invariant and their properties are proved against it
    once.  A smaller key is kept to the right, as the clients' loops do. *)
From S2P Require Import Prelude RBTree RBTreeShape RBTreeSpec.

(** The sign of [key_cmp a b] orders the keys, like [strcmp] and [memcmp]. *)
Class KeyOrder (K : Type) := {
  key_cmp : K -> K -> Z;
  key_cmp_eq : forall a b, key_cmp a b = 0 <-> a = b;
  key_cmp_anti : forall a b, key_cmp a b < 0 <-> 0 < key_cmp b a;
  key_cmp_trans : forall a b c, 0 < key_cmp a b -> 0 < key_cmp b c -> 0 < key_cmp a c;
}.

Section search.
Context {K : Type} `{KeyOrder K}.

(** [key a] reads the key of the object that embeds the tree node [a]. *)
Variable key : Z -> option K.

(** The descent: [Some (0, parent, slot)] when the key is absent. *)
Fixpoint descend (fuel : nat) t (k : K) (node parent : Z) (slot : link_slot)
  : option (Z * Z * link_slot) :=
  match fuel with
  | O => None
  | S fuel =>
      if Z.eqb node 0 then Some (0, parent, slot) else
      k' ← key node;
      let res := key_cmp k' k in
      if Z.ltb res 0 then
        l ← rd_left t node; descend fuel t k l node (LinkLeft node)
      else if Z.ltb 0 res then
        r ← rd_right t node; descend fuel t k r node (LinkRight node)
      else Some (node, parent, slot)
  end.

(** The keys of the nodes, from the first to the last, decrease. *)
Fixpoint sorted (xs : list Z) : Prop :=
  match xs with
  | [] => True
  | x :: xs =>
      (exists k, key x = Some k /\
        Forall (fun y => exists k', key y = Some k' /\ 0 < key_cmp k k') xs) /\ sorted xs
  end.

Lemma sorted_app xs ys :
  sorted (xs ++ ys) <->
  sorted xs /\ sorted ys /\
  forall x y, x ∈ xs -> y ∈ ys ->
    exists k k', key x = Some k /\ key y = Some k' /\ 0 < key_cmp k k'.
Proof.
  induction xs as [|x xs IH]; simpl.
  - split; [intros Hs; split_and!; [done|done|set_solver]|tauto].
  - rewrite IH. setoid_rewrite Forall_app. split.
    + intros [(k & Hk & Hxs & Hys) (H1 & H2 & H3)]. split_and!; [by eauto|done|done|].
      intros x' y Hx Hy. apply elem_of_cons in Hx as [->|Hx]; [|by apply H3].
      rewrite Forall_forall in Hys. destruct (Hys y Hy) as (k' & Hk' & Hlt). eauto.
    + intros ([(k & Hk & Hxs) H1] & H2 & H3). split_and!; [|done|done|].
      * exists k. split_and!; [done|done|]. apply Forall_forall. intros y Hy.
        destruct (H3 x y) as (k1 & k' & Hk1 & Hk' & Hlt); [set_solver|done|].
        rewrite Hk in Hk1. injection Hk1 as <-. eauto.
      * intros x' y Hx Hy. apply H3; set_solver.
Qed.

Lemma sorted_key xs x : sorted xs -> x ∈ xs -> is_Some (key x).
Proof.
  induction xs as [|y xs IH]; simpl; [set_solver|].
  intros [(k & Hk & _) Hs] [->|Hx]%elem_of_cons; eauto.
Qed.

Lemma key_cmp_refl k : key_cmp k k = 0.
Proof. by apply key_cmp_eq. Qed.

(** Distinct nodes of a sorted tree have distinct keys. *)
Lemma sorted_inj xs x y k : sorted xs -> x ∈ xs -> y ∈ xs ->
  key x = Some k -> key y = Some k -> x = y.
Proof.
  induction xs as [|z xs IH]; simpl; [set_solver|].
  intros [(kz & Hkz & Hall) Hs] Hx Hy Hkx Hky. rewrite Forall_forall in Hall.
  apply elem_of_cons in Hx as [->|Hx]; apply elem_of_cons in Hy as [->|Hy]; [done| | |auto].
  - destruct (Hall y Hy) as (k' & Hk' & Hlt). rewrite Hkz in Hkx. simplify_eq.
    rewrite key_cmp_refl in Hlt. lia.
  - destruct (Hall x Hx) as (k' & Hk' & Hlt). rewrite Hkz in Hky. simplify_eq.
    rewrite key_cmp_refl in Hlt. lia.
Qed.

(** The bounds that a descent for [k] has established. *)
Definition above (k : K) (xs : list Z) : Prop :=
  Forall (fun x => exists k', key x = Some k' /\ 0 < key_cmp k' k) xs.
Definition below (k : K) (xs : list Z) : Prop :=
  Forall (fun x => exists k', key x = Some k' /\ key_cmp k' k < 0) xs.

Lemma sorted_insert ls x rs k :
  sorted (ls ++ rs) -> key x = Some k -> above k ls -> below k rs -> sorted (ls ++ x :: rs).
Proof.
  intros Hs Hk Ha Hb. apply sorted_app in Hs as (Hl & Hr & Hlr). apply sorted_app.
  unfold above, below in *. rewrite Forall_forall in Ha. split; [done|]. split.
  - simpl. split; [|done]. exists k. split; [done|]. eapply Forall_impl; [exact Hb|].
    intros y (k' & Hk' & Hlt). exists k'. split; [done|]. by apply key_cmp_anti.
  - intros x' y Hx Hy. apply elem_of_cons in Hy as [->|Hy]; [|auto].
    destruct (Ha x' Hx) as (k' & Hk' & Hlt). eauto.
Qed.

Lemma sorted_delete ls x rs : sorted (ls ++ x :: rs) -> sorted (ls ++ rs).
Proof.
  rewrite !sorted_app. simpl. intros (Hl & [_ Hr] & Hlr). split_and!; [done|done|].
  intros y z Hy Hz. apply Hlr; set_solver.
Qed.

Definition descend_post (T : HevRBTree) (xs : list Z) (k : K) (out : Z * Z * link_slot) : Prop :=
  let '(node, parent, slot) := out in
  if Z.eqb node 0 then
    exists ls rs, xs = ls ++ rs /\ gap T ls rs parent slot /\ above k ls /\ below k rs
  else node ∈ xs /\ key node = Some k.

Lemma descend_cursor fuel T k ls mid rs node parent slot :
  cursor T ls mid rs node parent slot -> sorted (ls ++ mid ++ rs) ->
  above k ls -> below k rs -> (length mid < fuel)%nat ->
  wp (descend fuel T k node parent slot) (descend_post T (ls ++ mid ++ rs) k).
Proof.
  revert ls mid rs node parent slot. induction fuel as [|fuel IH]; [lia|].
  intros ls mid rs node parent slot Hc Hs Ha Hb Hlen. simpl.
  destruct (Z.eqb_spec node 0) as [->|Hne].
  - apply wp_ret. apply cursor_null in Hc as [-> Hg]. simpl. eauto 10.
  - destruct (cursor_step _ _ _ _ _ _ _ Hc Hne)
      as (l & r & nl & nr & -> & El & Er & Hcl & Hcr).
    rewrite length_app in Hlen. simpl in Hlen.
    rewrite <- app_assoc in Hs |- *. simpl in Hs |- *.
    pose proof Hs as Hs'. apply sorted_app in Hs' as (_ & Hs' & _).
    apply sorted_app in Hs' as (_ & Hs2 & Hs3).
    destruct Hs2 as [(k' & Hk' & Hright) _]. rewrite Hk'. simpl.
    destruct (Z.ltb_spec (key_cmp k' k) 0) as [Hlt|Hge]; [|destruct (Z.ltb_spec 0 (key_cmp k' k))].
    + rewrite El. simpl. apply IH; [done|done|done| |lia].
      constructor; [eauto|]. apply Forall_app. split; [|done].
      apply Forall_app in Hright as [Hright _]. eapply Forall_impl; [exact Hright|].
      intros y (ky & Hky & Hlty). exists ky. split; [done|]. apply key_cmp_anti.
      eapply key_cmp_trans; [by apply key_cmp_anti|done].
    + rewrite Er. simpl.
      assert (ls ++ l ++ node :: r ++ rs = (ls ++ l ++ [node]) ++ r ++ rs) as E
        by (by rewrite <- !app_assoc).
      rewrite E in *. apply IH; [done|done| |done|lia].
      apply Forall_app. split; [done|]. apply Forall_app. split; [|by repeat econstructor].
      apply Forall_forall. intros y Hy. destruct (Hs3 y node) as (k1 & k2 & Hk1 & Hk2 & Hlty);
        [done|set_solver|]. exists k1. split; [done|]. rewrite Hk' in Hk2. injection Hk2 as <-.
      by eapply key_cmp_trans.
    + apply wp_ret. simpl. rewrite (proj2 (Z.eqb_neq _ _) Hne). split; [set_solver|].
      assert (k' = k) as -> by (apply key_cmp_eq; lia). done.
Qed.

Lemma descend_ok fuel T k xs :
  rb_rep T xs -> sorted xs -> (length xs < fuel)%nat ->
  wp (descend fuel T k (root T) 0 LinkRoot) (descend_post T xs k).
Proof.
  intros Hrep Hs Hlen. replace xs with ([] ++ xs ++ []) by (by rewrite app_nil_r).
  apply descend_cursor; [|by rewrite app_nil_r|constructor|constructor|done].
  by apply cursor_start.
Qed.
End search.

(** The order only depends on the keys of the members. *)
Lemma sorted_ext {K} `{KeyOrder K} (key key' : Z -> option K) xs :
  (forall x, x ∈ xs -> key' x = key x) -> sorted key xs -> sorted key' xs.
Proof.
  induction xs as [|x xs IH]; intros Hk; simpl; [done|].
  intros [(k & Hkx & Hall) Hs]. split; [|apply IH; [set_solver|done]].
  exists k. split; [rewrite Hk; [done|set_solver]|].
  apply Forall_forall. intros y Hy. rewrite Forall_forall in Hall.
  rewrite Hk by set_solver. auto.
Qed.

Lemma above_ext {K} `{KeyOrder K} (key key' : Z -> option K) k xs :
  (forall x, x ∈ xs -> key' x = key x) -> above key k xs -> above key' k xs.
Proof.
  unfold above. rewrite !Forall_forall. intros Hk Ha x Hx. rewrite Hk by done. auto.
Qed.

Lemma below_ext {K} `{KeyOrder K} (key key' : Z -> option K) k xs :
  (forall x, x ∈ xs -> key' x = key x) -> below key k xs -> below key' k xs.
Proof.
  unfold below. rewrite !Forall_forall. intros Hk Ha x Hx. rewrite Hk by done. auto.
Qed.
