(* ===== verification/CInt.v ===== *)
(** * C integers, byte buffers and C strings

    Bytes are integers in [0, 256); a buffer is the list of its bytes and an
    access outside it is [None].  The host is little-endian, as every target of
    the Android build is. *)
From S2P Require Import Prelude SearchTree.

(** ** Fixed-width integers *)

Definition u8 (z : Z) : Z := z mod 2 ^ 8.
Definition u16 (z : Z) : Z := z mod 2 ^ 16.
Definition u32 (z : Z) : Z := z mod 2 ^ 32.
Definition u64 (z : Z) : Z := z mod 2 ^ 64.

(** Two's complement conversion to [int]. *)
Definition i32 (z : Z) : Z := (z + 2 ^ 31) mod 2 ^ 32 - 2 ^ 31.

Definition byte_ok (b : Z) : Prop := 0 <= b < 256.
Definition bytes_ok (l : list Z) : Prop := Forall byte_ok l.

Lemma u8_ok z : byte_ok (u8 z).
Proof. unfold byte_ok, u8. apply Z.mod_pos_bound. lia. Qed.

Lemma u8_id z : byte_ok z -> u8 z = z.
Proof. unfold byte_ok, u8. intros. by rewrite Z.mod_small. Qed.

Lemma u16_id z : 0 <= z < 65536 -> u16 z = z.
Proof. unfold u16. intros. by rewrite Z.mod_small. Qed.

Lemma u32_id z : 0 <= z < 2 ^ 32 -> u32 z = z.
Proof. unfold u32. intros. by rewrite Z.mod_small. Qed.

Lemma u64_id z : 0 <= z < 2 ^ 64 -> u64 z = z.
Proof. unfold u64. intros. by rewrite Z.mod_small. Qed.

Lemma i32_id z : - 2 ^ 31 <= z < 2 ^ 31 -> i32 z = z.
Proof. unfold i32. intros. rewrite Z.mod_small; lia. Qed.

(** Linear arithmetic with division and remainder by constants. *)
Ltac dlia := Z.div_mod_to_equations; lia.

(** ** Byte order *)

Definition ntohs (v : Z) : Z := Z.lor (Z.shiftl (Z.land v 255) 8) (Z.shiftr (u16 v) 8).
Definition htons (v : Z) : Z := ntohs v.

Definition ntohl (v : Z) : Z :=
  Z.lor (Z.lor (Z.shiftl (Z.land v 255) 24) (Z.shiftl (Z.land (Z.shiftr v 8) 255) 16))
        (Z.lor (Z.shiftl (Z.land (Z.shiftr v 16) 255) 8) (Z.land (Z.shiftr v 24) 255)).

(** The two bytes of a big-endian 16-bit number, and back. *)
Definition be16 (v : Z) : list Z := [u8 (Z.shiftr v 8); u8 v].
Definition of_be16 (hi lo : Z) : Z := 256 * hi + lo.

(** The host's (little-endian) load and store. *)
Definition le16 (v : Z) : list Z := [u8 v; u8 (Z.shiftr v 8)].
Definition of_le16 (b0 b1 : Z) : Z := b0 + 256 * b1.

Lemma lor_shift8 hi lo : 0 <= lo < 256 -> Z.lor (Z.shiftl hi 8) lo = 256 * hi + lo.
Proof.
  intros Hlo. rewrite Z.shiftl_mul_pow2 by lia.
  rewrite Z.mul_comm. change (2 ^ 8) with 256.
  rewrite <- Z.add_lor_land. 
  replace (Z.land (256 * hi) lo) with 0; [lia|].
  symmetry. apply Z.bits_inj'. intros i Hi. rewrite Z.land_spec, Z.bits_0.
  destruct (Z.ltb_spec i 8).
  - replace (256 * hi) with (hi * 2 ^ 8) by lia. by rewrite Z.mul_pow2_bits_low.
  - rewrite (Z.bits_above_log2 lo i); [apply andb_false_r|lia|].
    destruct (decide (lo = 0)) as [->|]; [simpl; lia|].
    assert (Z.log2 lo < 8); [|lia]. apply Z.log2_lt_pow2; lia.
Qed.

Lemma ntohs_arith v : 0 <= v < 65536 -> ntohs v = 256 * (v mod 256) + v / 256.
Proof.
  intros Hv. unfold ntohs. rewrite u16_id by done.
  rewrite Z.shiftr_div_pow2 by lia. change (2 ^ 8) with 256.
  change 255 with (Z.ones 8). rewrite Z.land_ones by lia. change (2 ^ 8) with 256.
  apply lor_shift8. split; [apply Z.div_pos; lia|apply Z.div_lt_upper_bound; lia].
Qed.

Lemma ntohs_range v : 0 <= v < 65536 -> 0 <= ntohs v < 65536.
Proof. intros Hv. rewrite ntohs_arith by done. dlia. Qed.

(** Converting to network order and back is the identity. *)
Lemma ntohs_htons v : 0 <= v < 65536 -> ntohs (htons v) = v.
Proof.
  intros Hv. unfold htons. rewrite (ntohs_arith (ntohs v)) by (by apply ntohs_range).
  rewrite (ntohs_arith v) by done. dlia.
Qed.

Lemma ntohs_le16 b0 b1 : byte_ok b0 -> byte_ok b1 -> ntohs (of_le16 b0 b1) = of_be16 b0 b1.
Proof.
  unfold byte_ok, of_le16, of_be16. intros H0 H1. rewrite ntohs_arith by lia. dlia.
Qed.

Lemma le16_htons v : 0 <= v < 65536 -> le16 (htons v) = be16 v.
Proof.
  intros Hv. unfold le16, be16, htons. rewrite ntohs_arith by done. unfold u8.
  rewrite !Z.shiftr_div_pow2 by lia. change (2 ^ 8) with 256. f_equal; [dlia|].
  f_equal. dlia.
Qed.

Lemma of_be16_be16 v : 0 <= v < 65536 -> of_be16 (u8 (Z.shiftr v 8)) (u8 v) = v.
Proof.
  intros Hv. unfold of_be16, u8. rewrite Z.shiftr_div_pow2 by lia. change (2 ^ 8) with 256.
  dlia.
Qed.

(** ** Buffers *)

Definition rd8 (b : list Z) (off : Z) : option Z :=
  if Z.ltb off 0 then None else b !! Z.to_nat off.

Definition wr8 (b : list Z) (off v : Z) : option (list Z) :=
  if Z.ltb off 0 then None
  else if Z.ltb off (Z.of_nat (length b)) then Some (<[Z.to_nat off := u8 v]> b) else None.

(** The host's 16-bit load and store. *)
Definition load16 (b : list Z) (off : Z) : option Z :=
  b0 ← rd8 b off; b1 ← rd8 b (off + 1); Some (of_le16 b0 b1).

Definition store16 (b : list Z) (off v : Z) : option (list Z) :=
  b ← wr8 b off v; wr8 b (off + 1) (Z.shiftr v 8).

(** [memcpy (dst + doff, src, n)] of the first [n] bytes of [src]. *)
Definition memcpy (dst : list Z) (doff : Z) (src : list Z) (n : Z) : option (list Z) :=
  if (Z.ltb doff 0 || Z.ltb n 0 || Z.ltb (Z.of_nat (length src)) n
      || Z.ltb (Z.of_nat (length dst)) (doff + n))%bool then None
  else Some (take (Z.to_nat doff) dst ++ take (Z.to_nat n) src
             ++ drop (Z.to_nat (doff + n)) dst).

Lemma rd8_in b off : 0 <= off < Z.of_nat (length b) -> is_Some (rd8 b off).
Proof.
  intros H. unfold rd8. destruct (Z.ltb_spec off 0); [lia|]. apply lookup_lt_is_Some. lia.
Qed.

Lemma wr8_in b off v : 0 <= off < Z.of_nat (length b) ->
  wr8 b off v = Some (<[Z.to_nat off := u8 v]> b).
Proof.
  intros H. unfold wr8. destruct (Z.ltb_spec off 0); [lia|].
  destruct (Z.ltb_spec off (Z.of_nat (length b))); [done|lia].
Qed.

Lemma rd8_app_r l r off : Z.of_nat (length l) <= off -> rd8 (l ++ r) off = rd8 r (off - Z.of_nat (length l)).
Proof.
  intros H. unfold rd8. destruct (Z.ltb_spec off 0); [lia|].
  destruct (Z.ltb_spec (off - Z.of_nat (length l)) 0); [lia|].
  rewrite lookup_app_r by lia. f_equal. lia.
Qed.

Lemma rd8_app_l l r off : off < Z.of_nat (length l) -> rd8 (l ++ r) off = rd8 l off.
Proof.
  intros H. unfold rd8. destruct (Z.ltb_spec off 0); [done|]. rewrite lookup_app_l by lia. done.
Qed.

Lemma rd8_cons x r off : 0 < off -> rd8 (x :: r) off = rd8 r (off - 1).
Proof.
  intros H. change (x :: r) with ([x] ++ r). rewrite rd8_app_r by (simpl; lia). done.
Qed.

Lemma rd8_ok b off v : bytes_ok b -> rd8 b off = Some v -> byte_ok v.
Proof.
  unfold bytes_ok, rd8. rewrite Forall_lookup. intros H.
  destruct (Z.ltb_spec off 0); [done|]. apply H.
Qed.

Lemma wr8_app l x r off v : off = Z.of_nat (length l) ->
  wr8 (l ++ x :: r) off v = Some (l ++ u8 v :: r).
Proof.
  intros ->. rewrite wr8_in by (rewrite length_app; simpl; lia). f_equal.
  rewrite Nat2Z.id. by rewrite insert_app_r_alt, Nat.sub_diag by lia.
Qed.

Lemma wr8_length b off v b' : wr8 b off v = Some b' -> length b' = length b.
Proof.
  unfold wr8. destruct (Z.ltb off 0); [done|]. destruct (Z.ltb _ _); [|done].
  intros [= <-]. apply length_insert.
Qed.

(** ** C strings *)

(** The string that starts at [off]: the bytes before the first zero. *)
Fixpoint c_string_from (b : list Z) : option (list Z) :=
  match b with
  | [] => None
  | x :: b => if Z.eqb x 0 then Some [] else s ← c_string_from b; Some (x :: s)
  end.

Definition c_string (b : list Z) (off : Z) : option (list Z) :=
  if Z.ltb off 0 then None else c_string_from (drop (Z.to_nat off) b).

Definition nonzero (s : list Z) : Prop := Forall (fun x => x <> 0) s.

Lemma c_string_from_app s r : nonzero s -> c_string_from (s ++ 0 :: r) = Some s.
Proof.
  induction 1 as [|x s Hx Hs IH]; simpl; [done|].
  by rewrite (proj2 (Z.eqb_neq x 0) Hx), IH.
Qed.

(** What a C string reads of some bytes: up to the first zero. *)
Fixpoint cstr (v : list Z) : list Z :=
  match v with [] => [] | x :: v => if Z.eqb x 0 then [] else x :: cstr v end.

Lemma c_string_from_cstr w r : c_string_from (w ++ 0 :: r) = Some (cstr w).
Proof.
  induction w as [|x w IH]; [done|]. cbn [app cstr c_string_from].
  destruct (Z.eqb x 0); [done|]. by rewrite IH.
Qed.

(** [strcmp], and [memcmp] on blocks of one size: the sign of the first
    difference. *)
Fixpoint strcmp (a b : list Z) : Z :=
  match a, b with
  | [], [] => 0
  | [], _ :: _ => -1
  | _ :: _, [] => 1
  | x :: a, y :: b => if Z.ltb x y then -1 else if Z.ltb y x then 1 else strcmp a b
  end.

Definition memcmp (a b : list Z) : Z := strcmp a b.

Lemma strcmp_eq a b : strcmp a b = 0 <-> a = b.
Proof.
  revert b. induction a as [|x a IH]; intros [|y b]; simpl; [done..|].
  destruct (Z.ltb_spec x y); [split; [lia|intros [= -> ->]; lia]|].
  destruct (Z.ltb_spec y x); [split; [lia|intros [= -> ->]; lia]|].
  rewrite IH. split; [intros ->; f_equal; lia|by intros [= _ ->]].
Qed.

Lemma strcmp_anti a b : strcmp a b = - strcmp b a.
Proof.
  revert b. induction a as [|x a IH]; intros [|y b]; simpl; [done..|].
  destruct (Z.ltb_spec x y), (Z.ltb_spec y x); try lia. apply IH.
Qed.

Lemma strcmp_trans a b c : 0 < strcmp a b -> 0 < strcmp b c -> 0 < strcmp a c.
Proof.
  revert b c. induction a as [|x a IH]; intros [|y b] [|z c]; simpl; try lia.
  destruct (Z.ltb_spec x y), (Z.ltb_spec y x), (Z.ltb_spec y z), (Z.ltb_spec z y),
    (Z.ltb_spec x z), (Z.ltb_spec z x); try lia. apply IH.
Qed.

(** Names ordered by [strcmp]. *)
#[export] Instance strcmp_order : KeyOrder (list Z).
Proof.
  refine {| key_cmp := strcmp |}.
  - apply strcmp_eq.
  - intros a b. rewrite (strcmp_anti a b). lia.
  - apply strcmp_trans.
Defined.
