(* ===== verification/MappedDNS.v ===== *)
(** * The mapped DNS cache (hev-mapped-dns.c)

    A name asked for is given a number, and an address made of that number and
    a network prefix; the address leads back to the name.  The names are kept
    in a red-black tree, in a list from the least to the most recently used
    one, and in an array indexed by their number.

    The three fields of a node live in three memories: the embedded tree node
    and list node in those of [RBTree] and [List], the name and number here. *)
From S2P Require Import Prelude RBTree RBTreeShape RBTreeSpec List SearchTree CInt.

(** ** Memory *)

(** [hev_malloc0] is given the live blocks; so is [strdup], which gives a copy or,
    without memory, [NULL]. *)
Class Allocator := {
  hev_malloc0 : gset Z -> option Z;
  hev_malloc0_ok : forall live a, hev_malloc0 live = Some a ->
    0 < a /\ aligned a /\ a ∉ live;
  strdup : gset Z -> list Z -> option (list Z);
  strdup_ok : forall live s s', strdup live s = Some s' -> s' = s;
}.

(** There is memory for the copies of the names. *)
Class StrdupWorks `{Allocator} : Prop := strdup_works : forall live s, strdup live s = Some s.

(** [name]: [None] is [NULL]. *)
Record HevMappedDNSNode := mkDNSNode { name : option (list Z); idx : Z }.

(** [list] is the second member of a node, after the three words of [tree]. *)
Definition offsetof_list : Z := 24.
Definition node_list (node : Z) : Z := node + offsetof_list.
Definition container_of_list (n : Z) : Z := n - offsetof_list.

Record HevMappedDNS := mkDNS {
  use : Z;
  max : Z;
  net : Z;
  mask : Z;
  dlist : HevList;
  dtree : HevRBTree;
  records : list Z;
  nodes : gmap Z HevMappedDNSNode;
}.

Definition set_use v s :=
  mkDNS v (max s) (net s) (mask s) (dlist s) (dtree s) (records s) (nodes s).
Definition set_list v s :=
  mkDNS (use s) (max s) (net s) (mask s) v (dtree s) (records s) (nodes s).
Definition set_tree v s :=
  mkDNS (use s) (max s) (net s) (mask s) (dlist s) v (records s) (nodes s).
Definition set_records v s :=
  mkDNS (use s) (max s) (net s) (mask s) (dlist s) (dtree s) v (nodes s).
Definition set_nodes v s :=
  mkDNS (use s) (max s) (net s) (mask s) (dlist s) (dtree s) (records s) v.

(** ** Construction *)

(** The result is negative when the addresses do not suffice. *)
Definition hev_mapped_dns_construct (self : HevMappedDNS) (net_ mask_ max_ : Z)
  : HevMappedDNS * Z :=
  if Z.ltb (Z.lnot mask_) max_ then (self, -1)
  else (mkDNS (use self) max_ net_ mask_ (dlist self) (dtree self) (records self)
          (nodes self), 0).

Definition hev_mapped_dns_new (net_ mask_ max_ : Z) : option HevMappedDNS :=
  let self := mkDNS 0 0 0 0 (mkList 0 0 ∅) (mkRBTree 0 ∅)
                (replicate (Z.to_nat max_) 0) ∅ in
  let '(self, res) := hev_mapped_dns_construct self net_ mask_ max_ in
  if Z.ltb res 0 then None else Some self.

(** The process keeps one instance. *)
Definition singleton := option HevMappedDNS.
Definition hev_mapped_dns_get (s : singleton) : option HevMappedDNS := s.
Definition hev_mapped_dns_put (s : singleton) (self : option HevMappedDNS) : singleton := self.

(** ** Nodes *)

Section dns.
Context `{Allocator}.

(** The node at [a], cleared but for its name. *)
Definition new_node (self : HevMappedDNS) (a : Z) (nm : option (list Z)) : HevMappedDNS :=
  let self := set_nodes (<[a := mkDNSNode nm 0]> (nodes self)) self in
  let self := set_tree (mkRBTree (root (dtree self))
                 (<[a := mkRBNode 0 0 0]> (cells (dtree self)))) self in
  set_list (mkList (l_head (dlist self)) (l_tail (dlist self))
              (<[node_list a := mkListNode 0 0]> (lcells (dlist self)))) self.

(** The result of [strdup] is stored as it is. *)
Definition hev_mapped_dns_node_alloc (self : HevMappedDNS) (nm : list Z)
  : HevMappedDNS * Z :=
  match hev_malloc0 (dom (nodes self)) with
  | None => (self, 0)
  | Some a => (new_node self a (strdup (dom (nodes self)) nm), a)
  end.

Definition hev_mapped_dns_node_free (self : HevMappedDNS) (node : Z) : HevMappedDNS :=
  let self := set_nodes (delete node (nodes self)) self in
  let self := set_tree (mkRBTree (root (dtree self)) (delete node (cells (dtree self)))) self in
  set_list (mkList (l_head (dlist self)) (l_tail (dlist self))
              (delete (node_list node) (lcells (dlist self)))) self.

(** The name as [strcmp] reads it, which faults for [NULL]. *)
Definition node_key (self : HevMappedDNS) (node : Z) : option (list Z) :=
  n ← nodes self !! node; name n.

Definition node_idx (self : HevMappedDNS) (node : Z) : option Z :=
  n ← nodes self !! node; Some (idx n).

Definition set_idx (self : HevMappedDNS) (node v : Z) : option HevMappedDNS :=
  n ← nodes self !! node;
  Some (set_nodes (<[node := mkDNSNode (name n) v]> (nodes self)) self).

(** [self->records[i] = v] and [self->records[i]]. *)
Definition wr_record (self : HevMappedDNS) (i v : Z) : option HevMappedDNS :=
  if Z.ltb i 0 then None else
  if Z.ltb i (Z.of_nat (length (records self)))
  then Some (set_records (<[Z.to_nat i := v]> (records self)) self) else None.

Definition rd_record (self : HevMappedDNS) (i : Z) : option Z :=
  if Z.ltb i 0 then None else records self !! Z.to_nat i.

(** Both calls on the list when a node is used. *)
Definition move_to_tail (self : HevMappedDNS) (node : Z) : option HevMappedDNS :=
  l ← hev_list_del (dlist self) (node_list node);
  l ← hev_list_add_tail l (node_list node);
  Some (set_list l self).

(** A new node enters the tree, at the end of a descent, and the list. *)
Definition attach (fuel : nat) (self : HevMappedDNS) (node parent : Z) (new : link_slot)
  : option HevMappedDNS :=
  t ← hev_rbtree_node_link (dtree self) node parent new;
  t ← hev_rbtree_insert_color fuel t node;
  l ← hev_list_add_tail (dlist self) (node_list node);
  Some (set_list l (set_tree t self)).

(** The least recently used node leaves both and is freed; its number is kept. *)
Definition evict (fuel : nat) (self : HevMappedDNS) : option (HevMappedDNS * Z) :=
  let nl := hev_list_first (dlist self) in
  let nf := container_of_list nl in
  i ← node_idx self nf;
  t ← hev_rbtree_erase fuel (dtree self) nf;
  l ← hev_list_del (dlist self) (node_list nf);
  Some (hev_mapped_dns_node_free (set_list l (set_tree t self)) nf, i).

(** ** Looking a name up, or giving it a number *)

(** The new node gets its place, and its number: the next one, [i], or that of
    the evicted node. *)
Definition enter (fuel : nat) (self : HevMappedDNS) (i node parent : Z) (new : link_slot)
  : option (HevMappedDNS * Z) :=
  self ← attach fuel self node parent new;
  '(self, i) ←
    (if Z.ltb (use self) (max self) then Some (set_use (use self + 1) self, i)
     else evict fuel self);
  self ← wr_record self i node;
  self ← set_idx self node i;
  i ← node_idx self node;
  Some (self, i).

Definition hev_mapped_dns_find (fuel : nat) (self : HevMappedDNS) (nm : list Z)
  : option (HevMappedDNS * Z) :=
  let i := use self in
  '(node, parent, new) ←
    descend (node_key self) fuel (dtree self) nm (root (dtree self)) 0 LinkRoot;
  if negb (Z.eqb node 0) then
    self ← move_to_tail self node;
    i ← node_idx self node;
    Some (self, i)
  else
  let '(self, node) := hev_mapped_dns_node_alloc self nm in
  if Z.eqb node 0 then Some (self, -1) else enter fuel self i node parent new.

(** ** From an address back to the name; [None] inside stands for [NULL]. *)

Definition hev_mapped_dns_lookup (self : HevMappedDNS) (ip : Z)
  : option (HevMappedDNS * option (list Z)) :=
  let i := Z.land ip (Z.lnot (mask self)) in
  if Z.leb (max self) i then Some (self, None) else
  node ← rd_record self i;
  if Z.eqb node 0 then Some (self, None) else
  self ← move_to_tail self node;
  n ← nodes self !! node;
  Some (self, name n).

(** ** Destruction: every node is freed. *)

Fixpoint destruct_loop (fuel : nat) (self : HevMappedDNS) (n : Z) : option HevMappedDNS :=
  match fuel with
  | O => None
  | S fuel =>
      if Z.eqb n 0 then Some self else
      let t := container_of_list n in
      n ← hev_list_node_next (dlist self) n;
      _ ← nodes self !! t;
      destruct_loop fuel (hev_mapped_dns_node_free self t) n
  end.

Definition hev_mapped_dns_destruct (fuel : nat) (self : HevMappedDNS) : option HevMappedDNS :=
  destruct_loop fuel self (hev_list_first (dlist self)).

(** ** Answering a query *)

Definition read_u16 (b : list Z) (off : Z) : option Z :=
  p0 ← rd8 b off; p1 ← rd8 b (off + 1); Some (Z.lor (Z.shiftl p0 8) p1).

Definition write_u16 (b : list Z) (off v : Z) : option (list Z) :=
  b ← wr8 b off (Z.shiftr v 8); wr8 b (off + 1) v.

Definition write_u32 (b : list Z) (off v : Z) : option (list Z) :=
  b ← wr8 b off (Z.shiftr v 24);
  b ← wr8 b (off + 1) (Z.shiftr v 16);
  b ← wr8 b (off + 2) (Z.shiftr v 8);
  wr8 b (off + 3) v.

(** [sizeof (DNSHdr)] and the offsets of its members. *)
Definition sizeof_DNSHdr : Z := 12.
Definition off_fl : Z := 2.
Definition off_qd : Z := 4.
Definition off_an : Z := 6.
Definition off_ns : Z := 8.
Definition off_ar : Z := 10.

(** The labels of a name: every length byte becomes a dot.  [None] inside is
    the [return -1] of a label that leaves the query. *)
Fixpoint handle_name (fuel : nat) (rb : list Z) (qlen off : Z)
  : option (list Z * option Z) :=
  match fuel with
  | O => None
  | S fuel =>
      c ← rd8 rb off;
      if Z.eqb c 0 then Some (rb, Some off) else
      let poff := off in
      let off := off + (1 + c) in
      if Z.leb qlen off then Some (rb, None) else
      rb ← wr8 rb poff 46;
      handle_name fuel rb qlen off
  end.

(** One question; the numbers and offsets of the names to answer so far are
    [ips] and [ipo]. *)
Definition handle_question (fuel : nat) (self : HevMappedDNS) (rb : list Z) (qlen off : Z)
    (ips ipo : list Z)
  : option (HevMappedDNS * list Z * option (Z * list Z * list Z)) :=
  let start := off in
  '(rb, o) ← handle_name fuel rb qlen off;
  match o with
  | None => Some (self, rb, None)
  | Some off =>
      let off := off + 1 in
      if Z.leb qlen (off + 3) then Some (self, rb, None) else
      type ← read_u16 rb (off + 0);
      class ← (if Z.eqb type 1 then read_u16 rb (off + 2) else Some 0);
      if (Z.eqb type 1 && Z.eqb class 1)%bool then
        nm ← c_string rb (start + 1);
        '(self, i) ← hev_mapped_dns_find fuel self nm;
        if Z.leb 0 i then
          Some (self, rb, Some (off + 4, ips ++ [Z.lor (net self) i], ipo ++ [start]))
        else Some (self, rb, Some (off + 4, ips, ipo))
      else Some (self, rb, Some (off + 4, ips, ipo))
  end.

Fixpoint handle_questions (n : nat) (fuel : nat) (self : HevMappedDNS) (rb : list Z)
    (qlen off : Z) (ips ipo : list Z)
  : option (HevMappedDNS * list Z * option (Z * list Z * list Z)) :=
  match n with
  | O => Some (self, rb, Some (off, ips, ipo))
  | S n =>
      '(self, rb, r) ← handle_question fuel self rb qlen off ips ipo;
      match r with
      | None => Some (self, rb, None)
      | Some (off, ips, ipo) => handle_questions n fuel self rb qlen off ips ipo
      end
  end.

(** The answer records, sixteen bytes each. *)
Fixpoint handle_answers (ips ipo : list Z) (sb : list Z) (slen off : Z)
  : option (list Z * option Z) :=
  match ips, ipo with
  | ip :: ips, po :: ipo =>
      if Z.leb slen (off + 15) then Some (sb, None) else
      sb ← wr8 sb (off + 0) 192;
      sb ← wr8 sb (off + 1) po;
      sb ← write_u16 sb (off + 2) 1;
      sb ← write_u16 sb (off + 4) 1;
      sb ← write_u32 sb (off + 6) 1;
      sb ← write_u16 sb (off + 10) 4;
      sb ← write_u32 sb (off + 12) ip;
      handle_answers ips ipo sb slen (off + 16)
  | _, _ => Some (sb, Some off)
  end.

(** The result holds the cache, the two buffers and the returned length. *)
Definition hev_mapped_dns_handle (fuel : nat) (self : HevMappedDNS) (req : list Z) (qlen : Z)
    (res : list Z) (slen : Z) : option (HevMappedDNS * list Z * list Z * Z) :=
  if Z.ltb slen qlen then Some (self, req, res, -1) else
  res ← memcpy res 0 req qlen;
  qd ← load16 req off_qd;
  let qd := ntohs qd in
  req ← store16 req off_qd qd;
  fl ← load16 res off_fl;
  res ← store16 res off_fl (ntohs fl);
  res ← store16 res off_ns 0;
  res ← store16 res off_an 0;
  res ← store16 res off_ar 0;
  if Z.ltb 32 qd then Some (self, req, res, -1) else
  '(self, req, r) ← handle_questions (Z.to_nat qd) fuel self req qlen sizeof_DNSHdr [] [];
  match r with
  | None => Some (self, req, res, -1)
  | Some (off, ips, ipo) =>
      '(res, o) ← handle_answers ips ipo res slen off;
      match o with
      | None => Some (self, req, res, -1)
      | Some off =>
          fl ← load16 res off_fl;
          res ← store16 res off_fl
            (htons (Z.lor (Z.lor fl 0x8000) (Z.shiftr (Z.land fl 0x100) 1)));
          res ← store16 res off_an (htons (Z.of_nat (length ips)));
          Some (self, req, res, off)
      end
  end.
End dns.
