(* ===== verification/RBTreeProps.v ===== *)
(** * Properties of the red-black tree and of the list

    Each theorem is followed by its application to a concrete structure. *)
From S2P Require Import Prelude RBTree RBTreeShape RBTreeUnlink RBTreeSpec List.

(** ** A tree of three nodes and a free one, and a list of three *)

Definition demo_tree : HevRBTree :=
  mkRBTree 8 (list_to_map
    [(8, mkRBNode 1 12 4); (4, mkRBNode 8 0 0); (12, mkRBNode 8 0 0); (16, mkRBNode 0 0 0)]).

Definition demo_shape : tree :=
  Node Black (Node Red Leaf 4 Leaf) 8 (Node Red Leaf 12 Leaf).

Lemma uniq_dec l : bool_decide (NoDup l) = true -> uniq l.
Proof. intros H. apply uniq_NoDup. exact (bool_decide_eq_true_1 _ H). Defined.

Lemma demo_rep : rb_rep demo_tree [4; 8; 12].
Proof.
  exists demo_shape, 1%nat. split; [|split; [|reflexivity]].
  - split; [reflexivity|]. split; [|by apply uniq_dec].
    unfold demo_shape. simpl. repeat split; try done.
  - repeat econstructor.
Defined.

(** The place for a node between 8 and 12: the left child slot of 12. *)
Lemma demo_gap : gap demo_tree [4; 8] [12] 12 (LinkLeft 12).
Proof.
  exists [Fr DL Red 12 Leaf; Fr DR Black 8 (Node Red Leaf 4 Leaf)], Leaf, Black, 0%nat.
  split; [split; [|split; [done|by apply uniq_dec]]|].
  - simpl. repeat split; try done.
  - split; [repeat econstructor|]. split; [constructor|]. done.
Defined.

(** C1: [hev_rbtree_node_link] followed by [hev_rbtree_insert_color] at the end
    of a descent puts the node exactly there: the result is a red-black tree
    (colours, black heights, parent words) over the old nodes with the new one
    in between; the loop stops within the depth of the tree, which is at most
    twice the logarithm of its size, no access faults, and no memory outside
    the tree is touched. *)
Theorem rb_insert_correct fuel T ls rs parent slot x :
  gap T ls rs parent slot -> addr_ok x -> x ∉ ls ++ rs -> is_Some (cells T !! x) ->
  (2 * Nat.log2 (S (length (ls ++ rs))) < fuel)%nat ->
  wp (rb_insert fuel T x parent slot) (fun T' =>
    rb_rep T' (ls ++ x :: rs) /\
    (forall a, a ∉ ls ++ x :: rs -> cells T' !! a = cells T !! a)).
Proof. apply insert_gap_ok. Qed.

Lemma rb_insert_correct_witness :
  wp (rb_insert 10 demo_tree 16 12 (LinkLeft 12)) (fun T' =>
    rb_rep T' ([4; 8] ++ 16 :: [12]) /\
    (forall a, a ∉ [4; 8] ++ 16 :: [12] -> cells T' !! a = cells demo_tree !! a)).
Proof.
  apply (rb_insert_correct 10 demo_tree [4; 8] [12] 12 (LinkLeft 12) 16).
  - exact demo_gap.
  - by split.
  - by apply (bool_decide_eq_true_1 (16 ∉ [4; 8; 12])).
  - by eexists.
  - simpl. lia.
Defined.

(** C2: [hev_rbtree_erase] removes exactly the node it is given, whatever its
    position and colour: the result is a red-black tree over the other nodes in
    their order, the loops stop within the number of nodes, no access faults,
    and no memory outside the tree is touched. *)
Theorem rb_erase_correct fuel T ls x rs :
  rb_rep T (ls ++ x :: rs) -> (length (ls ++ rs) < fuel)%nat ->
  wp (hev_rbtree_erase fuel T x) (fun T' =>
    rb_rep T' (ls ++ rs) /\
    (forall a, a ∉ ls ++ x :: rs -> cells T' !! a = cells T !! a)).
Proof. apply erase_ok. Qed.

Lemma rb_erase_correct_witness :
  wp (hev_rbtree_erase 3 demo_tree 8) (fun T' =>
    rb_rep T' ([4] ++ [12]) /\
    (forall a, a ∉ [4] ++ 8 :: [12] -> cells T' !! a = cells demo_tree !! a)).
Proof. apply (rb_erase_correct 3 demo_tree [4] 8 [12]); [exact demo_rep|simpl; lia]. Defined.

(** Repeated [hev_rbtree_node_next] from a node, [n] times at most. *)
Fixpoint rb_walk (n fuel : nat) (T : HevRBTree) (node : Z) : option (list Z) :=
  match n with
  | O => Some []
  | S n =>
      if Z.eqb node 0 then Some [] else
      next ← hev_rbtree_node_next fuel T node;
      rest ← rb_walk n fuel T next;
      Some (node :: rest)
  end.

Lemma rb_walk_from fuel T ls rs : rb_rep T (ls ++ rs) ->
  (depth_bound (length (ls ++ rs)) <= fuel)%nat ->
  rb_walk (length rs) fuel T (default 0 (head rs)) = Some rs.
Proof.
  revert ls. induction rs as [|x rs IH]; intros ls Hrep Hf; [done|].
  assert (x <> 0) as Hx.
  { assert (addr_ok x) as [? _]; [|done]. eapply rb_rep_addr_ok; [done|set_solver]. }
  simpl. rewrite (proj2 (Z.eqb_neq _ _) Hx), (next_ok fuel T ls x rs Hrep Hf). simpl.
  rewrite (IH (ls ++ [x])); rewrite <- ?app_assoc; done.
Qed.

(** C3: the traversal functions agree with the order of the tree: the first and
    last nodes are those of the sequence, the successor and predecessor of every
    node are its neighbours, and walking from the first node by
    [hev_rbtree_node_next] visits every node once, in order. *)
Theorem rb_traversal_correct fuel T xs :
  rb_rep T xs -> (depth_bound (length xs) <= fuel)%nat ->
  hev_rbtree_first fuel T = Some (default 0 (head xs)) /\
  hev_rbtree_last fuel T = Some (default 0 (last xs)) /\
  (forall ls x rs, xs = ls ++ x :: rs ->
     hev_rbtree_node_next fuel T x = Some (default 0 (head rs)) /\
     hev_rbtree_node_prev fuel T x = Some (default 0 (last ls))) /\
  (first ← hev_rbtree_first fuel T; rb_walk (length xs) fuel T first) = Some xs.
Proof.
  intros Hrep Hf. split; [by apply first_ok|]. split; [by apply last_ok|]. split.
  - intros ls x rs ->. split; [by apply (next_ok fuel T ls)|by apply (prev_ok fuel T ls x rs)].
  - rewrite (first_ok fuel T xs) by done. simpl. by apply (rb_walk_from fuel T []).
Qed.

Lemma rb_traversal_correct_witness :
  hev_rbtree_first 4 demo_tree = Some (default 0 (head [4; 8; 12])) /\
  hev_rbtree_last 4 demo_tree = Some (default 0 (last [4; 8; 12])) /\
  (forall ls x rs, [4; 8; 12] = ls ++ x :: rs ->
     hev_rbtree_node_next 4 demo_tree x = Some (default 0 (head rs)) /\
     hev_rbtree_node_prev 4 demo_tree x = Some (default 0 (last ls))) /\
  (first ← hev_rbtree_first 4 demo_tree; rb_walk (length [4; 8; 12]) 4 demo_tree first)
    = Some [4; 8; 12].
Proof. apply rb_traversal_correct; [exact demo_rep|vm_compute; lia]. Defined.

(** [hev_rbtree_replace] puts a fresh node in the place of another one and
    changes nothing else of the tree. *)
Theorem rb_replace_correct T ls x rs y :
  rb_rep T (ls ++ x :: rs) -> addr_ok y -> y ∉ ls ++ x :: rs -> is_Some (cells T !! y) ->
  wp (hev_rbtree_replace T x y) (fun T' =>
    rb_rep T' (ls ++ y :: rs) /\
    (forall a, a ∉ y :: ls ++ rs -> cells T' !! a = cells T !! a)).
Proof. apply replace_ok. Qed.

Lemma rb_replace_correct_witness :
  wp (hev_rbtree_replace demo_tree 8 16) (fun T' =>
    rb_rep T' ([4] ++ 16 :: [12]) /\
    (forall a, a ∉ 16 :: [4] ++ [12] -> cells T' !! a = cells demo_tree !! a)).
Proof.
  apply (rb_replace_correct demo_tree [4] 8 [12] 16); [exact demo_rep|by split| |by eexists].
  by apply (bool_decide_eq_true_1 (16 ∉ [4; 8; 12])).
Defined.

(** ** The list *)

Definition demo_list : HevList :=
  mkList 4 12 (list_to_map
    [(4, mkListNode 8 0); (8, mkListNode 12 4); (12, mkListNode 0 8); (16, mkListNode 0 0)]).

Lemma demo_dll : dll demo_list [4; 8; 12].
Proof.
  split; [reflexivity|]. split; [reflexivity|]. split; [|by apply uniq_dec].
  simpl. repeat split; done.
Defined.

(** [hev_list_add_tail] appends the node and [hev_list_del] removes it from
    wherever it is, both directions of the links and the header included, and
    neither touches memory outside the list. *)
Theorem list_ops_correct L xs x ys y :
  dll L (xs ++ x :: ys) -> y <> 0 -> y ∉ xs ++ x :: ys -> is_Some (lcells L !! y) ->
  wp (hev_list_add_tail L y) (fun L' =>
    dll L' (xs ++ x :: ys ++ [y]) /\
    (forall a, a ∉ y :: xs ++ x :: ys -> lcells L' !! a = lcells L !! a)) /\
  wp (hev_list_del L x) (fun L' =>
    dll L' (xs ++ ys) /\
    (forall a, a ∉ xs ++ x :: ys -> lcells L' !! a = lcells L !! a)).
Proof.
  intros Hd Hy Hni Hc. split.
  - eapply wp_mono; [by apply (add_tail_ok L _ y Hd)|]. intros L' [HL' Hf].
    rewrite <- app_assoc in HL'. by split.
  - eapply wp_mono; [by apply (del_ok L xs x ys Hd)|]. intros L' (HL' & _ & Hf). by split.
Qed.

Lemma list_ops_correct_witness :
  wp (hev_list_add_tail demo_list 16) (fun L' =>
    dll L' ([4] ++ 8 :: [12] ++ [16]) /\
    (forall a, a ∉ 16 :: [4] ++ 8 :: [12] -> lcells L' !! a = lcells demo_list !! a)) /\
  wp (hev_list_del demo_list 8) (fun L' =>
    dll L' ([4] ++ [12]) /\
    (forall a, a ∉ [4] ++ 8 :: [12] -> lcells L' !! a = lcells demo_list !! a)).
Proof.
  apply (list_ops_correct demo_list [4] 8 [12] 16); [exact demo_dll|done| |by eexists].
  by apply (bool_decide_eq_true_1 (16 ∉ [4; 8; 12])).
Defined.
