(* ===== verification/RBTreeCached.v ===== *)
(** * Trees that remember their first node (task library, hev-rbtree-cached.c)

    The task library has its own copy of hev-rbtree.c, identical to the one that
    RBTree models, and keeps the first node of a tree beside it.  Its clients,
    the scheduler and the timer, share one way to insert: a descent that puts a
    node behind all nodes it does not go before. *)
From stdpp Require Import sorting.
From S2P Require Import Prelude RBTree RBTreeShape RBTreeUnlink RBTreeSpec.

(** Whatever the computation returns satisfies [Q]. *)
Definition pwp {A} (m : option A) (Q : A -> Prop) : Prop := forall a, m = Some a -> Q a.

Lemma pwp_bind {A B} (m : option A) (f : A -> option B) Q :
  pwp m (fun a => pwp (f a) Q) -> pwp (m ≫= f) Q.
Proof. intros H b (a & Ha & Hb)%bind_Some. by apply (H a). Qed.

Lemma pwp_ret {A} (a : A) (Q : A -> Prop) : Q a -> pwp (Some a) Q.
Proof. by intros H ? [= <-]. Qed.

Lemma pwp_none {A} (Q : A -> Prop) : pwp None Q.
Proof. intros a. done. Qed.

Lemma pwp_mono {A} (m : option A) (P Q : A -> Prop) : pwp m P -> (forall a, P a -> Q a) -> pwp m Q.
Proof. intros H HPQ a Ha. by apply HPQ, H. Qed.

Definition keeps (T T' : HevRBTree) : Prop := forall a, is_Some (cells T !! a) -> is_Some (cells T' !! a).

Lemma keeps_refl T : keeps T T.
Proof. by intros a. Qed.

Lemma keeps_wr T t a f : keeps T t -> pwp (wr t a f) (keeps T).
Proof.
  intros H. unfold wr. intros t' (n & Hn & [= <-])%bind_Some b Hb. simpl.
  rewrite lookup_insert_is_Some. destruct (decide (a = b)); [by left|right]. split; [done|by apply H].
Qed.

Create HintDb keeps.
#[export] Hint Resolve keeps_wr keeps_refl : keeps.

(** One step: a write by its lemma, a read by its result. *)
Ltac keeps_step :=
  match goal with
  | |- pwp (mbind _ (match ?x with _ => _ end)) _ => destruct x
  | |- pwp (mbind _ _) _ => apply pwp_bind
  | |- pwp (Some _) _ => apply pwp_ret
  | |- pwp None _ => apply pwp_none
  | |- pwp (if ?b then _ else _) _ => destruct b
  | |- pwp (match ?x with pair _ _ => _ end) _ => destruct x; simpl in *
  | |- pwp (let _ := _ in _) _ => cbv zeta
  | |- pwp (match ?x with inl _ => _ | inr _ => _ end) _ => destruct x
  | H : keeps _ ?t |- pwp _ _ => eapply pwp_mono; [solve [eauto 2 with keeps]|simpl; intros ? ?]
  | |- pwp _ _ => intros ? _
  end.
Ltac keeps := repeat keeps_step; simpl; eauto with keeps.

Lemma keeps_root T t v : keeps T t -> keeps T (wr_root t v).
Proof. done. Qed.
Lemma keeps_left T t a v : keeps T t -> pwp (wr_left t a v) (keeps T).
Proof. apply keeps_wr. Qed.
Lemma keeps_right T t a v : keeps T t -> pwp (wr_right t a v) (keeps T).
Proof. apply keeps_wr. Qed.
Lemma keeps_pc T t a v : keeps T t -> pwp (wr_pc t a v) (keeps T).
Proof. apply keeps_wr. Qed.
Lemma keeps_parent_color T t a p c : keeps T t -> pwp (hev_rbtree_node_set_parent_color t a p c) (keeps T).
Proof. apply keeps_wr. Qed.
#[export] Hint Resolve keeps_root keeps_left keeps_right keeps_pc keeps_parent_color : keeps.

Lemma keeps_parent T t a p : keeps T t -> pwp (hev_rbtree_node_set_parent t a p) (keeps T).
Proof. intros H. unfold hev_rbtree_node_set_parent. keeps. Qed.
Lemma keeps_black T t a : keeps T t -> pwp (hev_rbtree_node_set_black t a) (keeps T).
Proof. intros H. unfold hev_rbtree_node_set_black. keeps. Qed.
Lemma keeps_child T t o n p : keeps T t -> pwp (hev_rbtree_change_child t o n p) (keeps T).
Proof. intros H. unfold hev_rbtree_change_child. keeps. Qed.
#[export] Hint Resolve keeps_parent keeps_black keeps_child : keeps.

Lemma keeps_rotate T t o n c : keeps T t -> pwp (hev_rbtree_rotate_set_parents t o n c) (keeps T).
Proof. intros H. unfold hev_rbtree_rotate_set_parents. keeps. Qed.
#[export] Hint Resolve keeps_rotate : keeps.

Abbreviation keeps1 T := (fun r => keeps T (fst r)).

Lemma keeps_case4_left T t p s x : keeps T t -> pwp (erase_case4_left t p s x) (keeps1 T).
Proof. intros H. unfold erase_case4_left. keeps. Qed.
Lemma keeps_case4_right T t p s x : keeps T t -> pwp (erase_case4_right t p s x) (keeps1 T).
Proof. intros H. unfold erase_case4_right. keeps. Qed.
#[export] Hint Resolve keeps_case4_left keeps_case4_right : keeps.

Lemma keeps_case234_left T t p s : keeps T t -> pwp (erase_case234_left t p s) (keeps1 T).
Proof. intros H. unfold erase_case234_left. keeps. Qed.
Lemma keeps_case234_right T t p s : keeps T t -> pwp (erase_case234_right t p s) (keeps1 T).
Proof. intros H. unfold erase_case234_right. keeps. Qed.
Lemma keeps_case1_left T t p s : keeps T t -> pwp (erase_case1_left t p s) (keeps1 T).
Proof. intros H. unfold erase_case1_left. keeps. Qed.
Lemma keeps_case1_right T t p s : keeps T t -> pwp (erase_case1_right t p s) (keeps1 T).
Proof. intros H. unfold erase_case1_right. keeps. Qed.
#[export] Hint Resolve keeps_case234_left keeps_case234_right keeps_case1_left keeps_case1_right : keeps.

Lemma keeps_color_step T t n p : keeps T t -> pwp (erase_color_step t n p) (keeps1 T).
Proof. intros H. unfold erase_color_step, erase_color_left, erase_color_right. keeps. Qed.
#[export] Hint Resolve keeps_color_step : keeps.

Lemma keeps_color_loop fuel T t n p : keeps T t -> pwp (erase_color_loop fuel t n p) (keeps T).
Proof.
  revert t n p. induction fuel as [|fuel IH]; intros t n p H; simpl; [apply pwp_none|]. keeps.
Qed.

Lemma keeps_erase_two fuel T t n c : keeps T t -> pwp (erase_two fuel t n c) (keeps1 T).
Proof. intros H. unfold erase_two. keeps. Qed.
#[export] Hint Resolve keeps_color_loop keeps_erase_two : keeps.

Lemma keeps_erase fuel T t n : keeps T t -> pwp (hev_rbtree_erase fuel t n) (keeps T).
Proof.
  intros H. unfold hev_rbtree_erase. apply pwp_bind. apply (pwp_mono _ (keeps1 T)).
  - unfold _hev_rbtree_erase. keeps.
  - unfold _hev_rbtree_erase_color. intros [t' r] Ht. simpl in Ht. keeps.
Qed.

Lemma erase_keeps_cell fuel T T' n a :
  hev_rbtree_erase fuel T n = Some T' -> is_Some (cells T !! a) -> is_Some (cells T' !! a).
Proof. intros E. by apply (keeps_erase fuel T T n (keeps_refl T) T' E). Qed.

(** * Trees that remember their first node (task library, hev-rbtree-cached.c)

    The task library has its own copy of hev-rbtree.c, identical to the one that
    RBTree models, and keeps the first node of a tree beside it.  Its clients,
    the scheduler and the timer, share one way to insert: a descent that puts a
    node behind all nodes it does not go before. *)

(** ** Data and operations *)

Record HevRBTreeCached := mkCached { base : HevRBTree; leftmost : Z }.

Definition cached_empty : HevRBTreeCached := mkCached (mkRBTree 0 ∅) 0.

Definition hev_rbtree_cached_first (self : HevRBTreeCached) : Z := leftmost self.

Definition hev_rbtree_cached_insert_color (fuel : nat) (self : HevRBTreeCached) (node : Z)
    (is_leftmost : bool) : option HevRBTreeCached :=
  let l := if is_leftmost then node else leftmost self in
  t ← hev_rbtree_insert_color fuel (base self) node;
  Some (mkCached t l).

Definition hev_rbtree_cached_replace (self : HevRBTreeCached) (victim new : Z)
  : option HevRBTreeCached :=
  t ← hev_rbtree_replace (base self) victim new;
  Some (mkCached t (if Z.eqb (leftmost self) victim then new else leftmost self)).

Definition hev_rbtree_cached_erase (fuel : nat) (self : HevRBTreeCached) (node : Z)
  : option HevRBTreeCached :=
  l ← (if Z.eqb node (leftmost self) then hev_rbtree_node_next fuel (base self) node
       else Some (leftmost self));
  t ← hev_rbtree_erase fuel (base self) node;
  Some (mkCached t l).

(** A node's memory is given to the tree's heap, or taken back. *)
Definition cached_alloc (a : Z) (self : HevRBTreeCached) : HevRBTreeCached :=
  mkCached (mkRBTree (root (base self)) (<[a := mkRBNode 0 0 0]> (cells (base self)))) (leftmost self).

Definition cached_free (a : Z) (self : HevRBTreeCached) : HevRBTreeCached :=
  mkCached (mkRBTree (root (base self)) (delete a (cells (base self)))) (leftmost self).

Section insert.

(** Does the new node go before the one at this address? *)
Variable before : Z -> option bool.

(** [while ( *new) { ... }] of the clients' insertions. *)
Fixpoint cached_descend (fuel : nat) t (node parent : Z) (slot : link_slot) (is_leftmost : bool)
  : option (Z * link_slot * bool) :=
  match fuel with
  | O => None
  | S fuel =>
      if Z.eqb node 0 then Some (parent, slot, is_leftmost) else
      b ← before node;
      if (b : bool) then
        l ← rd_left t node; cached_descend fuel t l node (LinkLeft node) is_leftmost
      else
        r ← rd_right t node; cached_descend fuel t r node (LinkRight node) false
  end.

Definition cached_insert (fuel : nat) (self : HevRBTreeCached) (node : Z)
  : option (HevRBTreeCached * bool) :=
  '(parent, slot, lm) ← cached_descend fuel (base self) (root (base self)) 0 LinkRoot true;
  t ← hev_rbtree_node_link (base self) node parent slot;
  self ← hev_rbtree_cached_insert_color fuel (mkCached t (leftmost self)) node lm;
  Some (self, lm).
End insert.

(** ** The represented sequence *)

Definition cached_rep (T : HevRBTreeCached) (xs : list Z) : Prop :=
  rb_rep (base T) xs /\ leftmost T = default 0 (head xs).

Lemma cached_rep_empty : cached_rep cached_empty [].
Proof. split; [apply rb_rep_empty|done]. Qed.

Lemma cached_rep_uniq T xs : cached_rep T xs -> uniq xs.
Proof. intros [H _]. by eapply rb_rep_uniq. Qed.

Lemma cached_rep_nonzero T xs a : cached_rep T xs -> a ∈ xs -> a <> 0.
Proof. intros [H _] Ha. by destruct (rb_rep_addr_ok _ _ _ H Ha). Qed.

(** The first node, or NULL when there is none. *)
Lemma cached_first_ok T xs : cached_rep T xs -> hev_rbtree_cached_first T = default 0 (head xs).
Proof. by intros [_ H]. Qed.

Lemma cached_first_zero T xs : cached_rep T xs -> hev_rbtree_cached_first T = 0 -> xs = [].
Proof.
  intros HT H0. rewrite (cached_first_ok _ _ HT) in H0. destruct xs as [|x xs]; [done|].
  exfalso. eapply (cached_rep_nonzero _ _ x HT); [set_solver|done].
Qed.

Lemma cached_rep_frame T T' xs :
  root (base T') = root (base T) -> leftmost T' = leftmost T ->
  (forall a, a ∈ xs -> cells (base T') !! a = cells (base T) !! a) ->
  cached_rep T xs -> cached_rep T' xs.
Proof.
  intros Hr Hl Hf [H1 H2]. split; [by apply (rb_rep_frame (base T))|by rewrite Hl].
Qed.

Lemma cached_alloc_ok T xs a : a ∉ xs -> cached_rep T xs ->
  cached_rep (cached_alloc a T) xs /\ is_Some (cells (base (cached_alloc a T)) !! a).
Proof.
  intros Ha H. split; [|simpl; by rewrite lookup_insert_eq].
  eapply cached_rep_frame; [..|exact H]; [done..|]. intros b Hb. simpl.
  apply lookup_insert_ne. by intros ->.
Qed.

Lemma cached_free_ok T xs a : a ∉ xs -> cached_rep T xs -> cached_rep (cached_free a T) xs.
Proof.
  intros Ha H. eapply cached_rep_frame; [..|exact H]; [done..|]. intros b Hb. simpl.
  apply lookup_delete_ne. by intros ->.
Qed.

(** The descent ends between the nodes that stay before and those that follow. *)
Definition cut_at (before : Z -> option bool) (ls rs : list Z) : Prop :=
  Forall (fun x => before x = Some false) ls /\ Forall (fun x => before x = Some true) rs.

Lemma cached_descend_ok before fuel T ls l r rs node parent slot :
  cursor T ls (l ++ r) rs node parent slot -> cut_at before l r ->
  (length (l ++ r) < fuel)%nat ->
  wp (cached_descend before fuel T node parent slot (bool_decide (ls = []))) (fun '(p, s, lm) =>
    gap T (ls ++ l) (r ++ rs) p s /\ lm = bool_decide (ls ++ l = [])).
Proof.
  revert ls l r rs node parent slot. induction fuel as [|fuel IH]; [lia|].
  intros ls l r rs node parent slot Hc [Hl Hr] Hf. simpl.
  destruct (Z.eqb_spec node 0) as [->|Hne].
  - apply cursor_null in Hc as [E Hg]. apply app_eq_nil in E as [-> ->]. apply wp_ret.
    rewrite app_nil_r. by split.
  - destruct (cursor_step _ _ _ _ _ _ _ Hc Hne) as (l' & r' & nl & nr & E & El & Er & Hcl & Hcr).
    assert ((exists k, l' = l ++ k /\ r = k ++ node :: r') \/
            (exists k, l = l' ++ node :: k /\ r' = k ++ r)) as [(k & -> & ->)|(k & -> & ->)].
    { destruct (app_eq_inv _ _ _ _ E) as [([|y k] & El' & Ek)|(k & El' & Ek)];
        simpl in Ek; simplify_eq; [|right; by exists k|left; by exists k].
      left. exists []. by rewrite !app_nil_r. }
    + apply Forall_app in Hr as [Hr1 Hr2]. apply Forall_cons in Hr2 as [Hn Hr2].
      rewrite Hn. simpl. rewrite El. simpl. eapply wp_mono.
      { apply (IH ls l k); [exact Hcl|by split|]. rewrite !length_app in *. simpl in Hf. lia. }
      intros [[p s] lm] [Hg Hlm]. split; [|done]. by rewrite <- app_assoc.
    + apply Forall_app in Hl as [Hl1 Hl2]. apply Forall_cons in Hl2 as [Hn Hl2].
      rewrite Hn. simpl. rewrite Er. simpl.
      replace false with (bool_decide (ls ++ l' ++ [node] = []))
        by (apply bool_decide_eq_false; by destruct ls, l').
      eapply wp_mono.
      { apply (IH (ls ++ l' ++ [node]) k r); [exact Hcr|by split|].
        rewrite !length_app in *. simpl in Hf. lia. }
      intros [[p s] lm] [Hg Hlm]. rewrite <- !app_assoc in Hg, Hlm. by split.
Qed.

Lemma cached_insert_ok before fuel T ls rs x :
  cached_rep T (ls ++ rs) -> cut_at before ls rs ->
  addr_ok x -> x ∉ ls ++ rs -> is_Some (cells (base T) !! x) ->
  (2 * length (ls ++ rs) + 2 < fuel)%nat ->
  wp (cached_insert before fuel T x) (fun '(T', lm) =>
    cached_rep T' (ls ++ x :: rs) /\ lm = bool_decide (ls = []) /\
    (forall a, a ∉ ls ++ x :: rs -> cells (base T') !! a = cells (base T) !! a)).
Proof.
  intros [Hrep Hlm] Hcut Hx Hni Hc Hf. unfold cached_insert. apply wp_bind.
  pose proof (depth_bound_le (length (ls ++ rs))) as Hdb.
  eapply wp_mono.
  { apply (cached_descend_ok before fuel (base T) [] ls rs [] _ _ _ (cursor_start _ _ Hrep) Hcut).
    lia. }
  intros [[p s] lm] [Hg ->]. rewrite app_nil_r in Hg. simpl in *.
  pose proof (insert_gap_ok fuel (base T) ls rs p s x Hg Hx Hni Hc ltac:(lia)) as Hins.
  unfold rb_insert in Hins. apply wp_bind_inv in Hins.
  apply wp_bind. eapply wp_mono; [exact Hins|]. clear Hins. intros T1 Hins. apply wp_bind.
  unfold hev_rbtree_cached_insert_color. simpl. apply wp_bind.
  eapply wp_mono; [exact Hins|]. intros T2 [Hrep2 Hf2]. do 2 apply wp_ret.
  split; [|done]. split; [done|]. simpl. destruct ls as [|y ls]; [done|].
  by rewrite Hlm.
Qed.

Lemma cached_erase_ok fuel T ls x rs :
  cached_rep T (ls ++ x :: rs) -> (2 * length (ls ++ x :: rs) + 2 < fuel)%nat ->
  wp (hev_rbtree_cached_erase fuel T x) (fun T' =>
    cached_rep T' (ls ++ rs) /\
    (forall a, a ∉ ls ++ x :: rs -> cells (base T') !! a = cells (base T) !! a)).
Proof.
  intros HT Hf. pose proof (cached_rep_uniq _ _ HT) as Hu. destruct HT as [Hrep Hlm].
  pose proof (depth_bound_le (length (ls ++ x :: rs))) as Hdb.
  assert (length (ls ++ rs) < fuel)%nat as Hlen.
  { rewrite length_app in *. simpl in Hf. lia. }
  unfold hev_rbtree_cached_erase. apply wp_bind.
  destruct ls as [|y ls]; simpl in Hlm; rewrite Hlm.
  - rewrite Z.eqb_refl. rewrite (next_ok fuel (base T) [] x rs Hrep) by (simpl in *; lia).
    apply wp_ret. apply wp_bind. eapply wp_mono; [by apply (erase_ok fuel (base T) [] x rs)|].
    intros t [Hrep' Hfr]. apply wp_ret. by split.
  - rewrite (proj2 (Z.eqb_neq x y)) by disj. apply wp_ret. apply wp_bind.
    eapply wp_mono; [by apply (erase_ok fuel (base T) (y :: ls) x rs)|].
    intros t [Hrep' Hfr]. apply wp_ret. by split.
Qed.

Lemma cached_replace_ok T ls x rs y :
  cached_rep T (ls ++ x :: rs) -> addr_ok y -> y ∉ ls ++ x :: rs ->
  is_Some (cells (base T) !! y) ->
  wp (hev_rbtree_cached_replace T x y) (fun T' =>
    cached_rep T' (ls ++ y :: rs) /\
    (forall a, a ∉ y :: ls ++ rs -> cells (base T') !! a = cells (base T) !! a)).
Proof.
  intros HT Hy Hni Hc. pose proof (cached_rep_uniq _ _ HT) as Hu. destruct HT as [Hrep Hlm].
  unfold hev_rbtree_cached_replace. apply wp_bind. eapply wp_mono; [by apply (replace_ok _ ls x rs)|].
  intros t [Hrep' Hfr]. apply wp_ret. split; [|done]. split; [done|]. simpl.
  destruct ls as [|z ls]; simpl in *; rewrite Hlm.
  - by rewrite Z.eqb_refl.
  - by rewrite (proj2 (Z.eqb_neq z x)) by disj.
Qed.

(** ** Ordered sequences *)

Section ordered.
Variable R : relation Z.

Lemma ordered_delete ls x rs : StronglySorted R (ls ++ x :: rs) -> StronglySorted R (ls ++ rs).
Proof.
  rewrite !StronglySorted_app. intros (Hlr & Hl & Hr). split_and!; [|done|by inversion Hr].
  intros y z Hy Hz. apply Hlr; [done|by right].
Qed.

Lemma ordered_insert ls x rs : StronglySorted R (ls ++ rs) ->
  Forall (fun y => R y x) ls -> Forall (R x) rs -> StronglySorted R (ls ++ x :: rs).
Proof.
  rewrite !StronglySorted_app. rewrite Forall_forall. intros (Hlr & Hl & Hr) H1 H2.
  split_and!; [|done|by constructor].
  intros y z Hy [->|Hz]%elem_of_cons; [by apply H1|by apply Hlr].
Qed.

Lemma ordered_head x xs y : StronglySorted R (x :: xs) -> y ∈ xs -> R x y.
Proof. intros H Hy. inversion H as [|? ? _ Hf]. rewrite Forall_forall in Hf. by apply Hf. Qed.

(** Where a node goes that stays behind what [before] does not put after it. *)
Lemma ordered_cut (before : Z -> option bool) xs : StronglySorted R xs ->
  (forall x, x ∈ xs -> is_Some (before x)) ->
  (forall x y, x ∈ xs -> y ∈ xs -> R x y -> before x = Some true -> before y = Some true) ->
  exists ls rs, xs = ls ++ rs /\ cut_at before ls rs.
Proof.
  induction xs as [|x xs IH]; intros H Hs Hm; [by exists [], []|].
  destruct (Hs x) as [[] Hb]; [by left| |].
  - exists [], (x :: xs). split; [done|]. split; [done|]. constructor; [done|].
    apply Forall_forall. intros y Hy. apply (Hm x); [by left|by right| |done].
    by eapply ordered_head.
  - destruct IH as (ls & rs & -> & Hl & Hr); [by inversion H| | |].
    + intros y Hy. apply Hs. by right.
    + intros y z Hy Hz. apply Hm; by right.
    + exists (x :: ls), rs. split; [done|]. split; [by constructor|done].
Qed.
End ordered.

Lemma ordered_ext (R R' : relation Z) xs :
  (forall x y, x ∈ xs -> y ∈ xs -> R x y -> R' x y) -> StronglySorted R xs -> StronglySorted R' xs.
Proof.
  intros Hk. induction 1 as [|x xs Hs IH Hf]; constructor.
  - apply IH. intros y z Hy Hz. apply Hk; by right.
  - rewrite Forall_forall in *. intros y Hy. apply Hk; [by left|by right|by apply Hf].
Qed.
