(* ===== verification/Sched.v ===== *)
(** * The task scheduler and its timer
      (task library: hev-task-system-schedule.c, hev-task.c, hev-task-timer.c)

    A task is designated by the address of its structure, which is also the
    address of its tree node and list node here; a timer node lives on the stack
    of the task that sleeps.  [setjmp] and [longjmp] make a yield of the current
    task a call of the scheduler that returns in another task: [hev_task_yield]
    is modelled by what the kernel context does until it jumps.  Readings of the
    clock and the events of each poll are arguments.  [abort] and a bad access
    are [None].  The library is built with CLOCK_NONE as scheduling clock. *)
From S2P Require Import Prelude CInt RBTree RBTreeCached List.

(** ** Data *)

Inductive HevTaskState := HEV_TASK_STOPPED | HEV_TASK_RUNNING | HEV_TASK_WAITING.
#[export] Instance HevTaskState_dec : EqDecision HevTaskState.
Proof. solve_decision. Defined.

Definition HEV_TASK_PRIORITY_MIN : Z := 0.
Definition HEV_TASK_PRIORITY_MAX : Z := 15.
Definition HEV_TASK_PRIORITY_DEFAULT : Z := 8.

Record HevTask := mkTask {
  sched_key : Z;
  joiner : Z;
  ref_count : Z;
  priority : Z;
  next_priority : Z;
  state : HevTaskState;
}.

(** [struct timespec]. *)
Record timespec := mkTime { tv_sec : Z; tv_nsec : Z }.

Record HevTaskTimerNode := mkTimerNode { expire : timespec; tn_task : Z }.

(** [sort_tree] and [timer_nodes] are the timer. *)
Record HevTaskSystemContext := mkCtx {
  total_task_count : Z;
  running_task_count : Z;
  current_task : Z;
  running_tasks : HevRBTreeCached;
  tasks : gmap Z HevTask;
  sort_tree : HevRBTreeCached;
  timer_nodes : gmap Z HevTaskTimerNode;
  all_tasks : HevList;
}.
Abbreviation Ctx := HevTaskSystemContext.

Definition set_counts total running c := mkCtx total running (current_task c) (running_tasks c)
  (tasks c) (sort_tree c) (timer_nodes c) (all_tasks c).
Definition set_current t c := mkCtx (total_task_count c) (running_task_count c) t (running_tasks c)
  (tasks c) (sort_tree c) (timer_nodes c) (all_tasks c).
Definition set_running T c := mkCtx (total_task_count c) (running_task_count c) (current_task c) T
  (tasks c) (sort_tree c) (timer_nodes c) (all_tasks c).
Definition set_tasks m c := mkCtx (total_task_count c) (running_task_count c) (current_task c)
  (running_tasks c) m (sort_tree c) (timer_nodes c) (all_tasks c).
Definition set_timer T m c := mkCtx (total_task_count c) (running_task_count c) (current_task c)
  (running_tasks c) (tasks c) T m (all_tasks c).
Definition set_all l c := mkCtx (total_task_count c) (running_task_count c) (current_task c)
  (running_tasks c) (tasks c) (sort_tree c) (timer_nodes c) l.

Definition upd_task (a : Z) (f : HevTask -> HevTask) (c : Ctx) : option Ctx :=
  t ← tasks c !! a; Some (set_tasks (<[a := f t]> (tasks c)) c).

Definition with_key k t := mkTask k (joiner t) (ref_count t) (priority t) (next_priority t) (state t).
Definition with_joiner j t := mkTask (sched_key t) j (ref_count t) (priority t) (next_priority t) (state t).
Definition with_ref n t := mkTask (sched_key t) (joiner t) n (priority t) (next_priority t) (state t).
Definition with_priority p t := mkTask (sched_key t) (joiner t) (ref_count t) p (next_priority t) (state t).
Definition with_next p t := mkTask (sched_key t) (joiner t) (ref_count t) (priority t) p (state t).
Definition with_state s t := mkTask (sched_key t) (joiner t) (ref_count t) (priority t) (next_priority t) s.

(** ** The tree of running tasks *)

Definition hev_task_system_update_sched_key (c : Ctx) : option Ctx :=
  upd_task (current_task c)
    (fun t => with_key (u64 (sched_key t + u64 (1 * u64 (priority t)))) t) c.

Definition hev_task_system_get_min_sched_key (c : Ctx) : option Z :=
  let sched_node := hev_rbtree_cached_first (running_tasks c) in
  if negb (Z.eqb sched_node 0) then t ← tasks c !! sched_node; Some (sched_key t) else Some 0.

Definition sched_before (c : Ctx) (key : Z) (this : Z) : option bool :=
  t ← tasks c !! this; Some (Z.ltb key (sched_key t)).

Definition _hev_task_system_insert_task (fuel : nat) (task : Z) (c : Ctx) : option Ctx :=
  t ← tasks c !! task;
  '(T, _) ← cached_insert (sched_before c (sched_key t)) fuel (running_tasks c) task;
  Some (set_running T c).

Definition hev_task_system_insert_task (fuel : nat) (task : Z) (c : Ctx) : option Ctx :=
  c ← upd_task task (with_state HEV_TASK_RUNNING) c;
  c ← upd_task task (fun t => with_priority (next_priority t) t) c;
  c ← _hev_task_system_insert_task fuel task c;
  Some (set_counts (total_task_count c) (running_task_count c + 1) c).

Definition hev_task_system_reinsert_current_task (fuel : nat) (c : Ctx) : option Ctx :=
  let task := current_task c in
  c ← upd_task task (fun t => with_priority (next_priority t) t) c;
  T ← hev_rbtree_cached_erase fuel (running_tasks c) task;
  _hev_task_system_insert_task fuel task (set_running T c).

(** hev-task.c.  The memory of the structure goes with the last reference. *)
Definition hev_task_ref (self : Z) (c : Ctx) : option Ctx :=
  upd_task self (fun t => with_ref (ref_count t + 1) t) c.

Definition task_free (self : Z) (c : Ctx) : Ctx :=
  let l := all_tasks c in
  set_running (cached_free self (running_tasks c))
    (set_tasks (delete self (tasks c))
      (set_all (mkList (l_head l) (l_tail l) (delete self (lcells l))) c)).

Definition hev_task_unref (self : Z) (c : Ctx) : option Ctx :=
  c ← upd_task self (fun t => with_ref (ref_count t - 1) t) c;
  t ← tasks c !! self;
  if negb (Z.eqb (ref_count t) 0) then Some c else
  l ← hev_list_del (all_tasks c) self;
  Some (task_free self (set_all l c)).

Definition hev_task_system_remove_current_task (fuel : nat) (st : HevTaskState) (c : Ctx)
  : option Ctx :=
  let task := current_task c in
  c ← upd_task task (with_state st) c;
  T ← hev_rbtree_cached_erase fuel (running_tasks c) task;
  let c := set_counts (total_task_count c) (running_task_count c - 1) (set_running T c) in
  if decide (st = HEV_TASK_STOPPED) then
    hev_task_unref task (set_counts (total_task_count c - 1) (running_task_count c) c)
  else upd_task task (fun t => with_key (u64 (next_priority t)) t) c.

Definition hev_task_system_wakeup_task_with_context (fuel : nat) (task : Z) (c : Ctx)
  : option Ctx :=
  t ← tasks c !! task;
  if decide (state t = HEV_TASK_RUNNING) then Some c else
  if decide (state t = HEV_TASK_STOPPED) then None else
  min ← hev_task_system_get_min_sched_key c;
  c ← upd_task task (fun t => with_key (u64 (sched_key t + min)) t) c;
  hev_task_system_insert_task fuel task c.

(** ** The timer *)

Definition hev_task_timer_cmp (a b : timespec) : Z :=
  if Z.ltb (tv_sec a) (tv_sec b) then -1 else
  if Z.ltb (tv_sec b) (tv_sec a) then 1 else
  if Z.ltb (tv_nsec a) (tv_nsec b) then -1 else
  if Z.ltb (tv_nsec b) (tv_nsec a) then 1 else 0.

(** The last comparison is that of the nodes' addresses. *)
Definition hev_task_timer_node_cmp (ea : timespec) (a : Z) (eb : timespec) (b : Z) : Z :=
  let res := hev_task_timer_cmp ea eb in
  if negb (Z.eqb res 0) then res else
  if Z.ltb a b then -1 else if Z.ltb b a then 1 else 0.

Definition hev_task_timer_get_expire (e : timespec) (milliseconds : Z) : timespec :=
  let sec := tv_sec e + milliseconds / 1000 in
  let nsec := tv_nsec e + milliseconds mod 1000 * 1000000 in
  if Z.ltb 1000000000 nsec then mkTime (sec + 1) (nsec - 1000000000) else mkTime sec nsec.

(** [unsigned int], from a 64-bit [time_t] and [long]. *)
Definition hev_task_timer_get_time (curr e : timespec) : Z :=
  let sec := tv_sec e - tv_sec curr in
  let nsec := tv_nsec e - tv_nsec curr in
  let '(sec, nsec) := if Z.ltb nsec 0 then (sec - 1, nsec + 1000000000) else (sec, nsec) in
  if Z.ltb sec 0 then 0 else u32 (sec * 1000 + Z.quot (nsec + 999999) 1000000).

(** The [int] that the reactor waits for; [-1] without a timer. *)
Definition hev_task_timer_get_timeout (curr : timespec) (c : Ctx) : option Z :=
  let node := hev_rbtree_cached_first (sort_tree c) in
  if Z.eqb node 0 then Some (-1) else
  this ← timer_nodes c !! node;
  Some (i32 (hev_task_timer_get_time curr (expire this))).

Definition hev_task_timer_wakeup (fuel : nat) (curr : timespec) (c : Ctx) : option Ctx :=
  let node := hev_rbtree_cached_first (sort_tree c) in
  if Z.eqb node 0 then Some c else
  this ← timer_nodes c !! node;
  if Z.ltb (hev_task_timer_cmp curr (expire this)) 0 then Some c else
  hev_task_system_wakeup_task_with_context fuel (tn_task this) c.

Definition hev_task_timer_wake (fuel : nat) (curr : timespec) (c : Ctx) : option Ctx :=
  let node := hev_rbtree_cached_first (sort_tree c) in
  if Z.eqb node 0 then Some c else hev_task_timer_wakeup fuel curr c.

Definition timer_before (c : Ctx) (e : timespec) (node : Z) (this : Z) : option bool :=
  n ← timer_nodes c !! this;
  Some (Z.ltb (hev_task_timer_node_cmp e node (expire n) this) 0).

(** [hev_task_timer_wait] up to its yield; [node] is the address of its local. *)
Definition timer_wait_begin (fuel : nat) (now : timespec) (milliseconds : Z) (node task : Z) (c : Ctx)
  : option (Ctx * bool) :=
  let e := hev_task_timer_get_expire now milliseconds in
  let c := set_timer (cached_alloc node (sort_tree c))
             (<[node := mkTimerNode e task]> (timer_nodes c)) c in
  '(T, lm) ← cached_insert (timer_before c e node) fuel (sort_tree c) node;
  Some (set_timer T (timer_nodes c) c, lm).

(** After the yield; [lm] is the local [leftmost]. *)
Definition timer_wait_end (fuel : nat) (now : timespec) (node : Z) (lm : bool) (c : Ctx)
  : option (Ctx * Z) :=
  let lm := (Z.eqb node (hev_rbtree_cached_first (sort_tree c)) || lm)%bool in
  T ← hev_rbtree_cached_erase fuel (sort_tree c) node;
  n ← timer_nodes c !! node;
  let c := set_timer T (timer_nodes c) c in
  c ← (if lm then hev_task_timer_wakeup fuel now c else Some c);
  Some (set_timer (cached_free node (sort_tree c)) (delete node (timer_nodes c)) c,
        hev_task_timer_get_time now (expire n)).

(** ** Scheduling *)

(** What a poll gives: the tasks of its events and the time after it. *)
Record Poll := mkPoll { p_events : list Z; p_now : timespec }.

Fixpoint wakeup_events (fuel : nat) (es : list Z) (c : Ctx) : option Ctx :=
  match es with
  | [] => Some c
  | e :: es =>
      c ← hev_task_system_wakeup_task_with_context fuel e c; wakeup_events fuel es c
  end.

Definition hev_task_system_io_poll (fuel : nat) (p : Poll) (c : Ctx) : option Ctx :=
  c ← wakeup_events fuel (p_events p) c; hev_task_timer_wake fuel (p_now p) c.

(** What follows a scheduler's call: a task runs, all tasks have ended, or a poll
    of the script's end has not returned yet. *)
Inductive SchedResult := Switched | Exited | Polling.

(** [do { io_poll } while (!running_task_count)]. *)
Fixpoint poll_loop (fuel : nat) (ps : list Poll) (c : Ctx) : option (Ctx * list Poll * bool) :=
  match ps with
  | [] => Some (c, [], false)
  | p :: ps =>
      c ← hev_task_system_io_poll fuel p c;
      if Z.eqb (running_task_count c) 0 then poll_loop fuel ps c else Some (c, ps, true)
  end.

Definition hev_task_system_pick_current_task (fuel : nat) (ps : list Poll) (c : Ctx)
  : option (Ctx * list Poll * bool) :=
  '(c, ps, polled) ←
    (if Z.ltb (running_task_count c) (total_task_count c) then
       if negb (Z.eqb (running_task_count c) 0) then
         match ps with
         | [] => Some (c, [], false)
         | p :: ps => c ← hev_task_system_io_poll fuel p c; Some (c, ps, true)
         end
       else poll_loop fuel ps c
     else Some (c, ps, true));
  if (polled : bool) then
    Some (set_current (hev_rbtree_cached_first (running_tasks c)) c, ps, true)
  else Some (c, ps, false).

Inductive HevTaskYieldType :=
| HEV_TASK_YIELD | HEV_TASK_WAITIO | HEV_TASK_SCHED_REMOVE | HEV_TASK_RUN_SCHEDULER.

(** The kernel context of [hev_task_system_schedule], from the jump into it (or,
    for [HEV_TASK_RUN_SCHEDULER], from its call) to the jump out of it. *)
Definition hev_task_system_schedule (fuel : nat) (type : HevTaskYieldType) (ps : list Poll) (c : Ctx)
  : option (Ctx * list Poll * SchedResult) :=
  c ← match type with
      | HEV_TASK_YIELD =>
          c ← hev_task_system_update_sched_key c; hev_task_system_reinsert_current_task fuel c
      | HEV_TASK_WAITIO =>
          c ← hev_task_system_update_sched_key c;
          hev_task_system_remove_current_task fuel HEV_TASK_WAITING c
      | HEV_TASK_SCHED_REMOVE => hev_task_system_remove_current_task fuel HEV_TASK_STOPPED c
      | HEV_TASK_RUN_SCHEDULER => Some c
      end;
  if Z.eqb (total_task_count c) 0 then Some (set_current 0 c, ps, Exited) else
  '(c, ps, polled) ← hev_task_system_pick_current_task fuel ps c;
  Some (c, ps, if (polled : bool) then Switched else Polling).

(** ** What tasks call (hev-task.c) *)

(** A task at a fresh address [a]; [stack_ok]: there is memory for its stack. *)
Definition hev_task_new (a : Z) (stack_ok : bool) (c : Ctx) : option (Ctx * Z) :=
  if negb stack_ok then Some (c, 0) else
  let l := all_tasks c in
  let c := set_tasks (<[a := mkTask 0 0 1 0 HEV_TASK_PRIORITY_DEFAULT HEV_TASK_STOPPED]> (tasks c)) c in
  let c := set_running (cached_alloc a (running_tasks c)) c in
  l ← hev_list_add_tail (mkList (l_head l) (l_tail l) (<[a := mkListNode 0 0]> (lcells l))) a;
  Some (set_all l c, a).

Definition hev_task_set_priority (self p : Z) (c : Ctx) : option Ctx :=
  let p := if Z.ltb p HEV_TASK_PRIORITY_MIN then HEV_TASK_PRIORITY_MIN
           else if Z.ltb HEV_TASK_PRIORITY_MAX p then HEV_TASK_PRIORITY_MAX else p in
  upd_task self (with_next p) c.

Definition hev_task_get_priority (self : Z) (c : Ctx) : option Z :=
  t ← tasks c !! self; Some (next_priority t).

Definition hev_task_get_state (self : Z) (c : Ctx) : option HevTaskState :=
  t ← tasks c !! self; Some (state t).

Definition hev_task_self (c : Ctx) : Z := current_task c.

Definition hev_task_wakeup := hev_task_system_wakeup_task_with_context.

Definition hev_task_system_run_new_task (fuel : nat) (task : Z) (c : Ctx) : option Ctx :=
  c ← (if negb (Z.eqb (current_task c) 0) then
         min ← hev_task_system_get_min_sched_key c;
         upd_task task (fun t => with_key (u64 (sched_key t + min)) t) c
       else Some c);
  c ← hev_task_system_insert_task fuel task c;
  Some (set_counts (total_task_count c + 1) (running_task_count c) c).

Definition hev_task_run (fuel : nat) (self : Z) (c : Ctx) : option Ctx :=
  t ← tasks c !! self;
  if decide (state t <> HEV_TASK_STOPPED) then Some c else
  c ← upd_task self (fun t => with_priority (next_priority t) t) c;
  c ← upd_task self (fun t => with_key (u64 (next_priority t)) t) c;
  hev_task_system_run_new_task fuel self c.

(** [hev_task_sleep] up to its yield, and from there. *)
Definition hev_task_sleep_begin (fuel : nat) (now : timespec) (milliseconds node : Z) (c : Ctx)
  : option (Ctx * option bool) :=
  if Z.eqb milliseconds 0 then Some (c, None) else
  '(c, lm) ← timer_wait_begin fuel now milliseconds node (current_task c) c; Some (c, Some lm).

(** A turn of the loop of [hev_task_join]: whether the task has ended. *)
Definition join_turn (fuel : nat) (task : Z) (c : Ctx) : option (Ctx * bool) :=
  st ← hev_task_get_state task c;
  if decide (st = HEV_TASK_STOPPED) then Some (c, true) else
  c ← hev_task_wakeup fuel task c; Some (c, false).

Definition hev_task_join (fuel : nat) (task : Z) (c : Ctx) : option (Ctx * option bool) :=
  t ← tasks c !! task;
  if negb (Z.eqb (joiner t) 0) then Some (c, None) else
  c ← upd_task task (with_joiner (hev_task_self c)) c;
  '(c, e) ← join_turn fuel task c; Some (c, Some e).

(** [hev_task_executer] after the task's entry has returned, up to its jump. *)
Definition executer_end (fuel : nat) (task : Z) (c : Ctx) : option Ctx :=
  t ← tasks c !! task;
  if negb (Z.eqb (joiner t) 0) then hev_task_wakeup fuel (joiner t) c else Some c.

(** A fresh context of [hev_task_system_init]. *)
Definition ctx0 : Ctx := mkCtx 0 0 0 cached_empty ∅ cached_empty ∅ (mkList 0 0 ∅).
