(* ===== verification/SchedSpec.v ===== *)
(** * The scheduler and the timer: their invariant, and what each operation does to it *)
From stdpp Require Import sorting.
From S2P Require Import Prelude RBTree RBTreeShape RBTreeSpec List CInt RBTreeCached Sched.

(** ** The invariant *)

Definition skey (m : gmap Z HevTask) (a : Z) : Z := default 0 (sched_key <$> m !! a).
Definition key_le (m : gmap Z HevTask) (a b : Z) : Prop := skey m a <= skey m b.
Definition in_state (m : gmap Z HevTask) (st : HevTaskState) (a : Z) : Prop :=
  exists t, m !! a = Some t /\ state t = st.

(** The instants, in the order of [hev_task_timer_cmp], and the timer's nodes. *)
Definition time_ok (e : timespec) : Prop := 0 <= tv_nsec e <= 1000000000.
Definition node_le (m : gmap Z HevTaskTimerNode) (a b : Z) : Prop :=
  exists na nb, m !! a = Some na /\ m !! b = Some nb /\
    hev_task_timer_node_cmp (expire na) a (expire nb) b <= 0.

Definition prio_ok (p : Z) : Prop := HEV_TASK_PRIORITY_MIN <= p <= HEV_TASK_PRIORITY_MAX.

Record task_ok (T : HevRBTreeCached) (a : Z) (t : HevTask) : Prop := {
  tok_addr : addr_ok a;
  tok_cell : is_Some (cells (base T) !! a);
  tok_ref : 1 <= ref_count t;
  tok_prio : prio_ok (next_priority t);
  tok_key : 0 <= sched_key t < 2 ^ 64;
}.

(** [run]: the running tasks, the next one first; [wait]: the waiting tasks. *)
Record sched_ok (c : Ctx) (run wait : list Z) : Prop := {
  ok_tree : cached_rep (running_tasks c) run;
  ok_order : StronglySorted (key_le (tasks c)) run;
  ok_run : forall a, a ∈ run <-> in_state (tasks c) HEV_TASK_RUNNING a;
  ok_wait : forall a, a ∈ wait <-> in_state (tasks c) HEV_TASK_WAITING a;
  ok_wait_nd : NoDup wait;
  ok_tasks : map_Forall (task_ok (running_tasks c)) (tasks c);
  ok_wait_key : forall a t, tasks c !! a = Some t -> state t = HEV_TASK_WAITING ->
    sched_key t <= HEV_TASK_PRIORITY_MAX;
  ok_running : running_task_count c = Z.of_nat (length run);
}.

(** [sl]: the sleepers' timer nodes, the earliest first; [al]: all tasks. *)
Record ctx_ok (c : Ctx) (run wait sl al : list Z) : Prop := {
  ok_sched : sched_ok c run wait;
  ok_total : total_task_count c = Z.of_nat (length run + length wait);
  ok_timer : cached_rep (sort_tree c) sl;
  ok_timer_order : StronglySorted (node_le (timer_nodes c)) sl;
  ok_nodes : forall a, a ∈ sl -> exists n, timer_nodes c !! a = Some n /\
    time_ok (expire n) /\ tn_task n ∈ run ++ wait;
  ok_all : dll (all_tasks c) al;
  ok_all_in : forall a, a ∈ al <-> is_Some (tasks c !! a);
}.

(** What a wake-up leaves of a task that it does not concern, and of all. *)
Definition same_static (t t' : HevTask) : Prop :=
  joiner t' = joiner t /\ ref_count t' = ref_count t /\ next_priority t' = next_priority t.

Record ctx_frame (c c' : Ctx) : Prop := {
  fr_total : total_task_count c' = total_task_count c;
  fr_current : current_task c' = current_task c;
  fr_tree : sort_tree c' = sort_tree c;
  fr_nodes : timer_nodes c' = timer_nodes c;
  fr_all : all_tasks c' = all_tasks c;
  fr_tasks : forall a, option_Forall2 same_static (tasks c !! a) (tasks c' !! a);
}.

#[export] Instance ctx_frame_preorder : PreOrder ctx_frame.
Proof.
  split.
  - intros c. constructor; try done. intros a. destruct (tasks c !! a); by constructor.
  - intros c1 c2 c3 [] []. constructor; try congruence. intros a.
    specialize (fr_tasks0 a). specialize (fr_tasks1 a).
    inversion fr_tasks0 as [t1 t2 (E1 & E2 & E3) H1 H2|H1 H2]; rewrite <- H2 in fr_tasks1;
      inversion fr_tasks1 as [t2' t3 (E4 & E5 & E6) H3 H4|H3 H4]; constructor.
    split_and!; congruence.
Qed.

(** ** Small facts *)

Lemma skey_some m a t : m !! a = Some t -> skey m a = sched_key t.
Proof. unfold skey. by intros ->. Qed.

Lemma skey_insert_ne m a b t : a <> b -> skey (<[a := t]> m) b = skey m b.
Proof. intros H. unfold skey. by rewrite lookup_insert_ne. Qed.

Lemma in_state_inj m a st st' : in_state m st a -> in_state m st' a -> st = st'.
Proof. intros (t & H & <-) (t' & H' & <-). congruence. Qed.

Lemma in_state_insert m a t st b :
  in_state (<[a := t]> m) st b <-> (b = a /\ state t = st) \/ (b <> a /\ in_state m st b).
Proof.
  unfold in_state. destruct (decide (b = a)) as [->|Hne].
  - rewrite lookup_insert_eq. split; [intros (t' & [= <-] & <-); by left|].
    intros [[_ <-]|[? _]]; [by exists t|done].
  - rewrite lookup_insert_ne by done. split; [by right|by intros [[? _]|[_ ?]]].
Qed.

Lemma in_state_exists m st a : in_state m st a -> is_Some (m !! a).
Proof. intros (t & H & _). by exists t. Qed.

Lemma key_le_ext m m' xs : (forall a, a ∈ xs -> skey m' a = skey m a) ->
  StronglySorted (key_le m) xs -> StronglySorted (key_le m') xs.
Proof. intros H. apply ordered_ext. intros a b Ha Hb. unfold key_le. by rewrite !H. Qed.

Lemma upd_task_ok c a f t (Q : Ctx -> Prop) : tasks c !! a = Some t ->
  Q (set_tasks (<[a := f t]> (tasks c)) c) -> wp (upd_task a f c) Q.
Proof. intros Ht HQ. unfold upd_task. rewrite Ht. by apply wp_ret. Qed.

Lemma u64_ok v : 0 <= u64 v < 2 ^ 64.
Proof. unfold u64. apply Z.mod_pos_bound. lia. Qed.

(** ** Putting a task into the running tree *)

Section ops.
Variable fuel : nat.

(** Enough turns for every loop over a tree. *)
Definition enough (xs : list Z) : Prop := (2 * length xs + 8 < fuel)%nat.

Lemma insert_raw_ok c run a t :
  cached_rep (running_tasks c) run -> StronglySorted (key_le (tasks c)) run ->
  (forall x, x ∈ run -> is_Some (tasks c !! x)) -> tasks c !! a = Some t -> a ∉ run ->
  task_ok (running_tasks c) a t -> enough run ->
  wp (_hev_task_system_insert_task fuel a c) (fun c' => exists T ls rs,
    c' = set_running T c /\ run = ls ++ rs /\ cached_rep T (ls ++ a :: rs) /\
    StronglySorted (key_le (tasks c)) (ls ++ a :: rs) /\
    (forall x, x ∈ ls -> skey (tasks c) x <= sched_key t) /\
    (forall x, x ∈ rs -> sched_key t < skey (tasks c) x) /\
    (forall x, x ∉ ls ++ a :: rs -> cells (base T) !! x = cells (base (running_tasks c)) !! x)).
Proof.
  intros Hrep Hs Hex Ha Hni Hok Hf. unfold _hev_task_system_insert_task. rewrite Ha. simpl.
  apply wp_bind.
  destruct (ordered_cut _ (sched_before c (sched_key t)) run Hs) as (ls & rs & -> & Hl & Hr).
  - intros x Hx. destruct (Hex x Hx) as [tx Hx']. unfold sched_before. rewrite Hx'. by eexists.
  - intros x y Hx Hy. unfold key_le, sched_before.
    destruct (Hex x Hx) as [tx Hx'], (Hex y Hy) as [ty Hy'].
    rewrite (skey_some _ _ _ Hx'), (skey_some _ _ _ Hy'), Hx', Hy'. simpl.
    intros Hxy [= Hlt%Z.ltb_lt]. f_equal. apply Z.ltb_lt. lia.
  - assert (Hbefore : forall x b, x ∈ ls ++ rs -> sched_before c (sched_key t) x = Some b ->
      b = Z.ltb (sched_key t) (skey (tasks c) x)).
    { intros x b Hx. unfold sched_before. destruct (Hex x Hx) as [tx Hx'].
      rewrite Hx', (skey_some _ _ _ Hx'). by intros [= <-]. }
    rewrite Forall_forall in Hl, Hr.
    assert (Hl' : forall x, x ∈ ls -> skey (tasks c) x <= sched_key t).
    { intros x Hx. apply Z.ltb_ge. symmetry. apply Hbefore; [set_solver|by apply Hl]. }
    assert (Hr' : forall x, x ∈ rs -> sched_key t < skey (tasks c) x).
    { intros x Hx. apply Z.ltb_lt. symmetry. apply Hbefore; [set_solver|by apply Hr]. }
    eapply wp_mono.
    { apply cached_insert_ok; [exact Hrep|split; by apply Forall_forall|apply Hok|done|apply Hok|].
      unfold enough in Hf. lia. }
    intros [T lm] (Hrep' & _ & Hfr). apply wp_ret. exists T, ls, rs. split_and!; try done.
    apply ordered_insert; [done|apply Forall_forall..]; intros x Hx; unfold key_le;
      rewrite (skey_some _ a _ Ha); [by apply Hl'|]. specialize (Hr' x Hx). lia.
Qed.

(** ** Waking a task *)

Definition head_key (m : gmap Z HevTask) (run : list Z) : Z :=
  match run with [] => 0 | x :: _ => skey m x end.

(** No task has the priority zero, so each turn costs something. *)
Definition weighs (t : HevTask) : Prop :=
  1 <= next_priority t <= HEV_TASK_PRIORITY_MAX /\
  (state t <> HEV_TASK_STOPPED -> 1 <= priority t <= HEV_TASK_PRIORITY_MAX) /\
  (state t = HEV_TASK_WAITING -> 1 <= sched_key t).
Definition weighted (m : gmap Z HevTask) : Prop := map_Forall (fun _ => weighs) m.

(** The keys of the running tasks are close together, and do not wrap yet. *)
Record fair (m : gmap Z HevTask) (run : list Z) : Prop := {
  fa_weighted : weighted m;
  fa_level : forall y, y ∈ run -> skey m y <= head_key m run + HEV_TASK_PRIORITY_MAX;
  fa_wrap : head_key m run + HEV_TASK_PRIORITY_MAX < 2 ^ 64;
}.

(** Running tasks have come behind the first one; the others keep their keys. *)
Record grow (m : gmap Z HevTask) (run : list Z) (m' : gmap Z HevTask) (run' : list Z) : Prop := {
  gr_fair : fair m' run';
  gr_sub : run `sublist_of` run';
  gr_keys : forall y, y ∈ run -> skey m' y = skey m y;
  gr_head : run <> [] -> head run' = head run;
  gr_new : run <> [] -> forall y, y ∈ run' -> y ∉ run -> head_key m run < skey m' y;
}.

Lemma min_key_ok c run wait : sched_ok c run wait ->
  hev_task_system_get_min_sched_key c = Some (head_key (tasks c) run).
Proof.
  intros H. unfold hev_task_system_get_min_sched_key.
  rewrite (cached_first_ok _ _ (ok_tree _ _ _ H)). destruct run as [|x run]; [done|].
  pose proof (cached_rep_nonzero _ _ x (ok_tree _ _ _ H)) as Hx. simpl.
  rewrite (proj2 (Z.eqb_neq x 0)) by (apply Hx; by left). simpl.
  destruct (proj1 (ok_run _ _ _ H x)) as (t & Ht & _); [by left|].
  by rewrite Ht, (skey_some _ _ _ Ht).
Qed.

(** The task [a] is running after it; the others are as they were. *)
Record woken (a : Z) (c c' : Ctx) (run wait run' wait' : list Z) : Prop := {
  wk_run : a ∈ run';
  wk_sub : run `sublist_of` run';
  wk_new : forall x, x ∈ run' -> x ∈ run \/ x = a;
  wk_perm : run' ++ wait' ≡ₚ run ++ wait;
  wk_others : forall x, x <> a -> tasks c' !! x = tasks c !! x;
  wk_idle : a ∈ run -> c' = c /\ run' = run /\ wait' = wait;
  wk_task : a ∉ run -> exists t, tasks c !! a = Some t /\ tasks c' !! a = Some
    (mkTask (u64 (sched_key t + head_key (tasks c) run)) (joiner t) (ref_count t)
       (next_priority t) (next_priority t) HEV_TASK_RUNNING);
  wk_head : run <> [] -> head_key (tasks c) run + HEV_TASK_PRIORITY_MAX < 2 ^ 64 ->
    head run' = head run;
}.

(** A record update of tasks that are not in the tree. *)
Lemma task_ok_tree T T' a t : task_ok T a t -> is_Some (cells (base T') !! a) -> task_ok T' a t.
Proof. intros [] ?. by constructor. Qed.

Lemma woken_waiting c run wait a : sched_ok c run wait -> a ∈ wait -> enough run ->
  wp (hev_task_system_wakeup_task_with_context fuel a c) (fun c' => exists run' wait',
    sched_ok c' run' wait' /\ ctx_frame c c' /\ woken a c c' run wait run' wait').
Proof.
  intros H Ha Hf. destruct (proj1 (ok_wait _ _ _ H a) Ha) as (t & Ht & Hst).
  assert (Hni : a ∉ run).
  { intros Hin. apply (ok_run _ _ _ H) in Hin as (t' & Ht' & Hst'). congruence. }
  unfold hev_task_system_wakeup_task_with_context. rewrite Ht. simpl. rewrite Hst.
  do 2 (rewrite decide_False by done). rewrite (min_key_ok _ _ _ H). simpl.
  set (k := u64 (sched_key t + head_key (tasks c) run)).
  apply wp_bind. eapply upd_task_ok; [exact Ht|].
  unfold hev_task_system_insert_task. apply wp_bind.
  eapply upd_task_ok; [by simpl; apply lookup_insert_eq|]. apply wp_bind.
  eapply upd_task_ok; [by simpl; apply lookup_insert_eq|]. apply wp_bind. simpl.
  rewrite !insert_insert_eq.
  set (t' := with_priority _ _). set (c1 := set_tasks _ _).
  pose proof (ok_tasks _ _ _ H a t Ht) as Htok.
  assert (Hkeys : forall x, x ∈ run -> skey (<[a := t']> (tasks c)) x = skey (tasks c) x).
  { intros x Hx. apply skey_insert_ne. by intros ->. }
  eapply wp_mono.
  { apply (insert_raw_ok c1 run a t'); simpl.
    - apply (ok_tree _ _ _ H).
    - eapply key_le_ext; [exact Hkeys|apply (ok_order _ _ _ H)].
    - intros x Hx. rewrite lookup_insert_ne by (by intros ->).
      apply (ok_run _ _ _ H) in Hx. by eapply in_state_exists.
    - apply lookup_insert_eq.
    - done.
    - destruct Htok. constructor; try done. apply u64_ok.
    - done. }
  intros c2 (T & ls & rs & -> & -> & Hrep & Hord & _ & Hrs & Hfr). apply wp_ret. simpl in *.
  pose proof (ok_wait_key _ _ _ H a t Ht Hst) as Hwk.
  destruct (list_elem_of_split _ _ Ha) as (wl & wr & ->).
  exists (ls ++ a :: rs), (wl ++ wr). split; [|split].
  - constructor; simpl; try done.
    + intros x. rewrite in_state_insert, elem_of_app, elem_of_cons, <- (ok_run _ _ _ H x), elem_of_app.
      destruct (decide (x = a)) as [->|]; [|tauto]. split; [by left|intros _; tauto].
    + intros x. rewrite in_state_insert, <- (ok_wait _ _ _ H x).
      pose proof (ok_wait_nd _ _ _ H) as Hnd. apply NoDup_app in Hnd as (_ & Hd & Hnd).
      apply NoDup_cons in Hnd as [Hnr _].
      rewrite !elem_of_app, elem_of_cons. split.
      * intros Hx. right. split; [|tauto]. intros ->. destruct Hx as [Hx|Hx]; [|done].
        apply (Hd a Hx). by left.
      * intros [[_ E]|[Hne Hx]]; [done|tauto].
    + pose proof (ok_wait_nd _ _ _ H) as Hnd. rewrite <- Permutation_middle in Hnd.
      by apply NoDup_cons in Hnd as [_ ?].
    + intros x tx. destruct (decide (x = a)) as [->|Hne].
      * rewrite lookup_insert_eq. intros [= <-]. destruct Htok. constructor; try done; [|apply u64_ok].
        eapply rb_rep_cell; [apply Hrep|set_solver].
      * rewrite lookup_insert_ne by done. intros Hx. pose proof (ok_tasks _ _ _ H x tx Hx) as Hxok.
        apply (task_ok_tree _ _ _ _ Hxok).
        destruct (decide (x ∈ ls ++ a :: rs)); [eapply rb_rep_cell; [apply Hrep|done]|].
        rewrite Hfr by done. apply Hxok.
    + intros x tx. destruct (decide (x = a)) as [->|Hne];
        [rewrite lookup_insert_eq; by intros [= <-]|rewrite lookup_insert_ne by done].
      by apply (ok_wait_key _ _ _ H).
    + rewrite (ok_running _ _ _ H), !length_app. simpl. lia.
  - constructor; try done. simpl. intros x. destruct (decide (x = a)) as [->|Hne].
    + rewrite lookup_insert_eq, Ht. by constructor.
    + rewrite lookup_insert_ne by done. destruct (tasks c !! x); by constructor.
  - constructor; simpl; try done.
    + set_solver.
    + apply sublist_app; [done|]. by apply sublist_cons.
    + intros x. rewrite !elem_of_app, elem_of_cons. tauto.
    + by rewrite <- (Permutation_middle ls rs a), <- (Permutation_middle wl wr a), <- (Permutation_middle (ls ++ rs)).
    + intros x Hx. by rewrite lookup_insert_ne.
    + intros _. exists t. split; [done|]. by rewrite lookup_insert_eq.
    + intros Hne Hk. destruct ls as [|y ls]; [exfalso|done]. destruct rs as [|x rs]; [done|].
      specialize (Hrs x ltac:(by left)). simpl in Hk. rewrite Hkeys in Hrs by (by left).
      assert (0 <= skey (tasks c) x).
      { destruct (proj1 (ok_run _ _ _ H x)) as (tx & Htx & _); [by left|].
        rewrite (skey_some _ _ _ Htx). by apply (ok_tasks _ _ _ H x tx Htx). }
      revert Hrs. unfold k. simpl. destruct Htok. rewrite u64_id by lia. lia.
Qed.

Lemma wakeup_ok c run wait a : sched_ok c run wait -> a ∈ run ++ wait -> enough run ->
  wp (hev_task_system_wakeup_task_with_context fuel a c) (fun c' => exists run' wait',
    sched_ok c' run' wait' /\ ctx_frame c c' /\ woken a c c' run wait run' wait').
Proof.
  intros H [Ha|Ha]%elem_of_app Hf; [|by apply woken_waiting].
  pose proof Ha as (t & Ht & Hst)%(ok_run _ _ _ H).
  unfold hev_task_system_wakeup_task_with_context. rewrite Ht. simpl.
  rewrite decide_True by done. apply wp_ret. exists run, wait. split_and!; [done|done|].
  constructor; try done. intros x Hx. by left.
Qed.

(** Several wake-ups. *)
Record awoke (c c' : Ctx) (run wait run' wait' : list Z) : Prop := {
  aw_ok : sched_ok c' run' wait';
  aw_frame : ctx_frame c c';
  aw_sub : run `sublist_of` run';
  aw_perm : run' ++ wait' ≡ₚ run ++ wait;
  aw_same : forall x, x ∈ run \/ x ∉ run' -> tasks c' !! x = tasks c !! x;
  aw_grow : fair (tasks c) run -> grow (tasks c) run (tasks c') run';
}.

Lemma grow_refl m run : fair m run -> grow m run m run.
Proof. intros H. by constructor. Qed.

Lemma awoke_refl c run wait : sched_ok c run wait -> awoke c c run wait run wait.
Proof. intros H. constructor; try done. Qed.

Lemma head_key_same m m' run run' :
  head run' = head run -> (forall x, x ∈ run -> skey m' x = skey m x) ->
  head_key m' run' = head_key m run.
Proof.
  intros Hh Hs. destruct run as [|x run], run' as [|y run']; simpl in *; simplify_eq; [done|].
  apply Hs. by left.
Qed.

Lemma head_nonempty (run run' : list Z) : head run' = head run -> run <> [] -> run' <> [].
Proof. by destruct run, run'. Qed.

Lemma sublist_in (l l' : list Z) x : l `sublist_of` l' -> x ∈ l -> x ∈ l'.
Proof. intros H Hx. by eapply elem_of_sublist. Qed.

Lemma grow_head_key m run m' run' : grow m run m' run' -> run <> [] ->
  head_key m' run' = head_key m run.
Proof. intros G Hne. apply head_key_same; [by apply G|apply G]. Qed.

Lemma grow_trans m1 r1 m2 r2 m3 r3 : grow m1 r1 m2 r2 -> grow m2 r2 m3 r3 -> grow m1 r1 m3 r3.
Proof.
  intros G1 G2. constructor; [apply G2|etrans; [apply G1|apply G2]|..].
  - intros y Hy. rewrite (gr_keys _ _ _ _ G2), (gr_keys _ _ _ _ G1); [done|done|].
    eapply sublist_in; [apply G1|done].
  - intros Hne. pose proof (gr_head _ _ _ _ G1 Hne) as E. rewrite <- E. apply G2.
    by eapply head_nonempty.
  - intros Hne y Hy Hni. pose proof (grow_head_key _ _ _ _ G1 Hne) as E.
    assert (Hne2 : r2 <> []) by by eapply head_nonempty; [apply G1|].
    destruct (decide (y ∈ r2)) as [Hy2|Hy2].
    + rewrite (gr_keys _ _ _ _ G2 y Hy2). by apply G1.
    + rewrite <- E. by apply G2.
Qed.

Lemma awoke_trans c1 c2 c3 r1 w1 r2 w2 r3 w3 :
  awoke c1 c2 r1 w1 r2 w2 -> awoke c2 c3 r2 w2 r3 w3 -> awoke c1 c3 r1 w1 r3 w3.
Proof.
  intros [O1 F1 S1 P1 E1 G1] [O2 F2 S2 P2 E2 G2].
  assert (HS1 : forall x, x ∈ r1 -> x ∈ r2) by (intros x; by apply sublist_in).
  assert (HS2 : forall x, x ∈ r2 -> x ∈ r3) by (intros x; by apply sublist_in).
  constructor; [done|by etrans|by etrans|by etrans|..].
  - intros x Hx. rewrite E2, E1; [done|..]; naive_solver.
  - intros Hf. specialize (G1 Hf). eapply grow_trans; [exact G1|]. apply G2, G1.
Qed.

(** The key of a task that is woken. *)
Lemma woken_key a c c' run wait run' wait' :
  sched_ok c run wait -> a ∈ run ++ wait -> a ∉ run -> woken a c c' run wait run' wait' ->
  fair (tasks c) run ->
  head_key (tasks c) run < skey (tasks c') a <= head_key (tasks c) run + HEV_TASK_PRIORITY_MAX /\
  weighted (tasks c').
Proof.
  intros H Ha Hni W [Hwt _ Hwrap]. destruct (wk_task _ _ _ _ _ _ _ W Hni) as (t & Ht & Ht').
  assert (Hw : a ∈ wait) by set_solver.
  destruct (proj1 (ok_wait _ _ _ H a) Hw) as (t' & E & Hst). rewrite Ht in E. injection E as <-.
  pose proof (ok_wait_key _ _ _ H a t Ht Hst). destruct (Hwt a t Ht) as (Hnext & _ & Hkey).
  specialize (Hkey Hst). split.
  - rewrite (skey_some _ _ _ Ht'). simpl.
    assert (0 <= head_key (tasks c) run).
    { destruct run as [|y run]; [done|]. simpl.
      destruct (proj1 (ok_run _ _ _ H y)) as (ty & Hty & _); [by left|].
      rewrite (skey_some _ _ _ Hty). by apply (ok_tasks _ _ _ H y ty Hty). }
    rewrite u64_id by lia. lia.
  - intros b tb Hb. destruct (decide (b = a)) as [->|Hne].
    + rewrite Ht' in Hb. injection Hb as <-. by simpl.
    + rewrite (wk_others _ _ _ _ _ _ _ W b Hne) in Hb. by apply (Hwt b).
Qed.

Lemma woken_grow a c c' run wait run' wait' :
  sched_ok c run wait -> a ∈ run ++ wait -> woken a c c' run wait run' wait' ->
  fair (tasks c) run -> grow (tasks c) run (tasks c') run'.
Proof.
  intros H Ha W Hf. destruct (decide (a ∈ run)) as [Hin|Hni].
  { destruct (wk_idle _ _ _ _ _ _ _ W Hin) as (-> & -> & _). by apply grow_refl. }
  destruct (woken_key a c c' run wait run' wait' H Ha Hni W Hf) as [Hk Hwt].
  assert (Hkeys : forall y, y ∈ run -> skey (tasks c') y = skey (tasks c) y).
  { intros y Hy. unfold skey. rewrite (wk_others _ _ _ _ _ _ _ W); [done|by intros ->]. }
  pose proof Hf as [_ Hlev Hwrap].
  assert (Hhead : run <> [] -> head run' = head run).
  { intros Hne. by apply (wk_head _ _ _ _ _ _ _ W). }
  assert (Hnew : forall y, y ∈ run' -> y ∉ run -> y = a).
  { intros y Hy Hny. by destruct (wk_new _ _ _ _ _ _ _ W y Hy). }
  constructor; [|apply W|done|done|].
  - destruct (decide (run = [])) as [->|Hne].
    + assert (E : head_key (tasks c') run' = skey (tasks c') a).
      { destruct run' as [|z r]; [by pose proof (wk_run _ _ _ _ _ _ _ W) as Hr%elem_of_nil|].
        simpl. f_equal. apply Hnew; [by left|by intros ?%elem_of_nil]. }
      simpl in Hk. unfold HEV_TASK_PRIORITY_MAX in *. constructor; unfold HEV_TASK_PRIORITY_MAX; [done| |lia].
      intros y Hy. rewrite E, (Hnew y Hy) by by intros ?%elem_of_nil. lia.
    + pose proof (head_key_same _ _ _ _ (Hhead Hne) Hkeys) as E. constructor; [done| |by rewrite E].
      intros y Hy. rewrite E. destruct (decide (y ∈ run)) as [Hyr|Hyr].
      * rewrite Hkeys by done. by apply Hlev.
      * rewrite (Hnew y Hy Hyr). apply Hk.
  - intros Hne y Hy Hny. rewrite (Hnew y Hy Hny). apply Hk.
Qed.

Lemma woken_awoke a c c' run wait run' wait' :
  sched_ok c run wait -> a ∈ run ++ wait ->
  sched_ok c' run' wait' -> ctx_frame c c' -> woken a c c' run wait run' wait' ->
  awoke c c' run wait run' wait'.
Proof.
  intros H Ha H' HF W. constructor; [done|done|apply W|apply W| |by eapply woken_grow].
  intros x Hx. destruct (decide (x = a)) as [->|Hne]; [|by apply (wk_others _ _ _ _ _ _ _ W)].
  destruct (decide (a ∈ run)) as [Hin|Hni].
  - by destruct (wk_idle _ _ _ _ _ _ _ W Hin) as (-> & _ & _).
  - destruct Hx as [|Hx]; [done|]. destruct Hx. apply (wk_run _ _ _ _ _ _ _ W).
Qed.

Lemma wakeup_awoke c run wait a :
  sched_ok c run wait -> a ∈ run ++ wait -> enough (run ++ wait) ->
  wp (hev_task_system_wakeup_task_with_context fuel a c) (fun c' => exists run' wait',
    awoke c c' run wait run' wait' /\ a ∈ run').
Proof.
  intros H Ha Hf. eapply wp_mono.
  { apply (wakeup_ok c run wait a H Ha). unfold enough in *. rewrite length_app in Hf. lia. }
  intros c' (run' & wait' & H' & HF & W). exists run', wait'. split; [|apply W].
  by eapply woken_awoke.
Qed.

Lemma enough_perm xs ys : ys ≡ₚ xs -> enough xs -> enough ys.
Proof. unfold enough. by intros ->. Qed.

Lemma wakeup_events_ok es c run wait :
  sched_ok c run wait -> Forall (fun e => e ∈ run ++ wait) es -> enough (run ++ wait) ->
  wp (wakeup_events fuel es c) (fun c' => exists run' wait',
    awoke c c' run wait run' wait' /\ forall e, e ∈ es -> e ∈ run').
Proof.
  intros H He Hf. revert c run wait H He Hf.
  induction es as [|e es IH]; intros c run wait H He Hf; simpl.
  { apply wp_ret. exists run, wait. split; [by apply awoke_refl|set_solver]. }
  apply Forall_cons in He as [He Hes]. apply wp_bind.
  eapply wp_mono; [by apply (wakeup_awoke c run wait)|]. intros c1 (r1 & w1 & A1 & He1).
  eapply wp_mono.
  { apply (IH c1 r1 w1); [apply A1| |by eapply enough_perm; [apply A1|]].
    eapply Forall_impl; [exact Hes|]. intros x Hx. by rewrite (aw_perm _ _ _ _ _ _ A1). }
  intros c2 (r2 & w2 & A2 & He2). exists r2, w2. split; [by eapply awoke_trans|].
  intros x [->|Hx]%elem_of_cons; [|by apply He2]. eapply sublist_in; [apply A2|done].
Qed.
End ops.

(** * The timer: order of instants, expiry arithmetic, wake-ups *)

(** ** Instants *)

(** Nanoseconds, as an unbounded number. *)
Definition nanos (t : timespec) : Z := tv_sec t * 1000000000 + tv_nsec t.

(** A reading of the clock. *)
Definition clock_ok (t : timespec) : Prop := 0 <= tv_nsec t < 1000000000.

Lemma clock_time_ok t : clock_ok t -> time_ok t.
Proof. unfold clock_ok, time_ok. lia. Qed.

Ltac cmp_solve :=
  unfold hev_task_timer_node_cmp, hev_task_timer_cmp, nanos, time_ok, clock_ok in *;
  repeat match goal with
  | |- context [Z.ltb ?a ?b] => destruct (Z.ltb_spec a b); simpl
  | H : context [Z.ltb ?a ?b] |- _ => destruct (Z.ltb_spec a b); simpl in *
  end; try lia.

(** Against a reading of the clock the comparison is that of the instants. *)
Lemma timer_cmp_nanos now e : clock_ok now -> time_ok e ->
  hev_task_timer_cmp now e < 0 <-> nanos now < nanos e.
Proof. intros H1 H2. cmp_solve. Qed.

Lemma timer_cmp_le a b : time_ok a -> time_ok b ->
  hev_task_timer_cmp a b <= 0 -> nanos a <= nanos b.
Proof. intros H1 H2. cmp_solve. Qed.

Lemma node_cmp_trans ea a eb b ec c :
  hev_task_timer_node_cmp ea a eb b <= 0 -> hev_task_timer_node_cmp eb b ec c <= 0 ->
  hev_task_timer_node_cmp ea a ec c <= 0.
Proof. cmp_solve. Qed.

Lemma node_cmp_total ea a eb b :
  ~ hev_task_timer_node_cmp ea a eb b < 0 -> hev_task_timer_node_cmp eb b ea a <= 0.
Proof. cmp_solve. Qed.

Lemma node_cmp_lt_le ea a eb b ec c :
  hev_task_timer_node_cmp ea a eb b < 0 -> hev_task_timer_node_cmp eb b ec c <= 0 ->
  hev_task_timer_node_cmp ea a ec c < 0.
Proof. cmp_solve. Qed.

Lemma node_cmp_time ea a eb b : time_ok ea -> time_ok eb ->
  hev_task_timer_node_cmp ea a eb b <= 0 -> nanos ea <= nanos eb.
Proof. intros H1 H2. cmp_solve. Qed.

(** ** Expiry and the time left *)

Lemma get_expire_ok now ms : clock_ok now -> 0 <= ms < 2 ^ 32 ->
  time_ok (hev_task_timer_get_expire now ms) /\
  nanos (hev_task_timer_get_expire now ms) = nanos now + ms * 1000000.
Proof.
  unfold hev_task_timer_get_expire, clock_ok, time_ok, nanos. intros H1 H2.
  pose proof (Z.div_mod ms 1000 ltac:(lia)). pose proof (Z.mod_pos_bound ms 1000 ltac:(lia)).
  destruct (Z.ltb_spec 1000000000 (tv_nsec now + ms mod 1000 * 1000000)); simpl; lia.
Qed.

(** The milliseconds until an instant, rounded up. *)
Definition millis_until (now e : timespec) : Z := (nanos e - nanos now + 999999) / 1000000.

Lemma get_time_exact now e : clock_ok now -> time_ok e ->
  hev_task_timer_get_time now e =
    if Z.ltb (nanos now) (nanos e) then u32 (millis_until now e) else 0.
Proof.
  unfold hev_task_timer_get_time, millis_until, clock_ok, time_ok, nanos. intros H1 H2.
  destruct (Z.ltb_spec (tv_nsec e - tv_nsec now) 0) as [Hn|Hn];
    [destruct (Z.ltb_spec (tv_sec e - tv_sec now - 1) 0)|destruct (Z.ltb_spec (tv_sec e - tv_sec now) 0)].
  - by rewrite (proj2 (Z.ltb_ge _ _)) by lia.
  - rewrite (proj2 (Z.ltb_lt _ _)) by lia. f_equal. rewrite Z.quot_div_nonneg by lia. dlia.
  - by rewrite (proj2 (Z.ltb_ge _ _)) by lia.
  - rewrite Z.quot_div_nonneg by lia. destruct (Z.ltb_spec (tv_sec now * 1000000000 + tv_nsec now)
      (tv_sec e * 1000000000 + tv_nsec e)); [f_equal; dlia|].
    replace ((tv_sec e - tv_sec now) * 1000 + (tv_nsec e - tv_nsec now + 999999) / 1000000) with 0 by dlia.
    done.
Qed.

(** A sleep that is read at a later time: zero exactly when it is over. *)
Lemma get_time_sleep now later ms : clock_ok now -> clock_ok later -> 0 <= ms < 2 ^ 32 ->
  nanos now <= nanos later ->
  let rest := hev_task_timer_get_time later (hev_task_timer_get_expire now ms) in
  0 <= rest <= ms /\ (rest = 0 <-> nanos now + ms * 1000000 <= nanos later) /\
  (0 < rest -> (rest - 1) * 1000000 < nanos now + ms * 1000000 - nanos later <= rest * 1000000).
Proof.
  intros H1 H2 Hms Hle. destruct (get_expire_ok now ms H1 Hms) as [He Hn].
  cbv zeta. rewrite (get_time_exact _ _ H2 He). unfold millis_until. rewrite Hn.
  destruct (Z.ltb_spec (nanos later) (nanos now + ms * 1000000)); [|lia].
  assert (0 <= (nanos now + ms * 1000000 - nanos later + 999999) / 1000000 <= ms) by dlia.
  rewrite u32_id by lia. split; [lia|]. split; dlia.
Qed.

(** ** Wake-ups by the timer *)

(** The first node's time has come. *)
Definition due (now : timespec) (m : gmap Z HevTaskTimerNode) (sl : list Z) : option Z :=
  node ← head sl; n ← m !! node;
  if Z.leb (nanos (expire n)) (nanos now) then Some (tn_task n) else None.

Section timer.
Variable fuel : nat.

(** A context that only wake-ups have changed stays well formed. *)
Lemma ctx_ok_awoke c c' run wait run' wait' sl al :
  ctx_ok c run wait sl al -> awoke c c' run wait run' wait' -> ctx_ok c' run' wait' sl al.
Proof.
  intros [Hsc Htot Htm Hto Hnd Hal Hain] A. pose proof (aw_frame _ _ _ _ _ _ A) as [Ft Fc Ftr Fn Fa Fs].
  pose proof (aw_perm _ _ _ _ _ _ A) as HP.
  constructor; rewrite ?Ftr, ?Fn, ?Fa, ?Ft; try done.
  - apply A.
  - rewrite Htot. apply Permutation_length in HP. rewrite !length_app in HP. lia.
  - intros a Ha. setoid_rewrite HP. by apply Hnd.
  - intros a. rewrite Hain. specialize (Fs a).
    split; intros [t Ht]; rewrite Ht in Fs; inversion Fs; by eexists.
Qed.

Lemma ok_enough c run wait sl al xs : ctx_ok c run wait sl al ->
  xs ≡ₚ run ++ wait -> enough fuel (run ++ wait) -> enough fuel xs.
Proof. intros _. by apply enough_perm. Qed.

Lemma timer_wakeup_ok now c run wait sl al :
  ctx_ok c run wait sl al -> clock_ok now -> enough fuel (run ++ wait) ->
  wp (hev_task_timer_wakeup fuel now c) (fun c' => exists run' wait',
    awoke c c' run wait run' wait' /\
    forall t, due now (timer_nodes c) sl = Some t -> t ∈ run').
Proof.
  intros H Hnow Hf. unfold hev_task_timer_wakeup.
  rewrite (cached_first_ok _ _ (ok_timer _ _ _ _ _ H)). destruct sl as [|node sl]; simpl.
  { apply wp_ret. exists run, wait. split; [apply awoke_refl; apply H|done]. }
  pose proof (cached_rep_nonzero _ _ node (ok_timer _ _ _ _ _ H)) as Hnz.
  rewrite (proj2 (Z.eqb_neq node 0)) by (apply Hnz; by left).
  destruct (ok_nodes _ _ _ _ _ H node) as (n & Hn & Ht & Hin); [by left|]. unfold due. simpl. rewrite Hn. simpl.
  pose proof (timer_cmp_nanos now (expire n) Hnow Ht) as Hcmp.
  destruct (Z.ltb_spec (hev_task_timer_cmp now (expire n)) 0).
  - apply wp_ret. exists run, wait. split; [apply awoke_refl; apply H|].
    intros t. by rewrite (proj2 (Z.leb_gt _ _)) by lia.
  - eapply wp_mono; [apply (wakeup_awoke fuel c run wait); [apply H|done|done]|].
    intros c' (r & w & A & Hr). exists r, w. split; [done|]. intros t.
    rewrite (proj2 (Z.leb_le _ _)) by lia. by intros [= <-].
Qed.

Lemma timer_wake_ok now c run wait sl al :
  ctx_ok c run wait sl al -> clock_ok now -> enough fuel (run ++ wait) ->
  wp (hev_task_timer_wake fuel now c) (fun c' => exists run' wait',
    awoke c c' run wait run' wait' /\
    forall t, due now (timer_nodes c) sl = Some t -> t ∈ run').
Proof.
  intros H Hnow Hf. unfold hev_task_timer_wake.
  destruct (Z.eqb_spec (hev_rbtree_cached_first (sort_tree c)) 0) as [E|]; [|by eapply timer_wakeup_ok].
  apply (cached_first_zero _ _ (ok_timer _ _ _ _ _ H)) in E as ->.
  apply wp_ret. exists run, wait. split; [apply awoke_refl; apply H|done].
Qed.

(** ** Beginning and ending a sleep *)

Lemma node_le_ext m m' xs : (forall a, a ∈ xs -> m' !! a = m !! a) ->
  StronglySorted (node_le m) xs -> StronglySorted (node_le m') xs.
Proof. intros E. apply ordered_ext. intros a b Ha Hb. unfold node_le. by rewrite !E. Qed.

Lemma timer_wait_begin_ok now ms node task c run wait sl al :
  ctx_ok c run wait sl al -> clock_ok now -> 0 <= ms < 2 ^ 32 -> task ∈ run ++ wait ->
  addr_ok node -> node ∉ sl -> enough fuel sl ->
  wp (timer_wait_begin fuel now ms node task c) (fun '(c', lm) => exists ls rs,
    sl = ls ++ rs /\ ctx_ok c' run wait (ls ++ node :: rs) al /\ lm = bool_decide (ls = []) /\
    timer_nodes c' = <[node := mkTimerNode (hev_task_timer_get_expire now ms) task]> (timer_nodes c) /\
    c' = set_timer (sort_tree c') (timer_nodes c') c).
Proof.
  intros H Hnow Hms Htask Hnode Hni Hf. unfold timer_wait_begin.
  destruct (get_expire_ok now ms Hnow Hms) as [He _].
  set (e := hev_task_timer_get_expire now ms) in *.
  set (m := <[node := mkTimerNode e task]> (timer_nodes c)).
  assert (Hm : forall a, a ∈ sl -> m !! a = timer_nodes c !! a).
  { intros a Ha. apply lookup_insert_ne. by intros ->. }
  destruct (cached_alloc_ok _ _ node Hni (ok_timer _ _ _ _ _ H)) as [Hrep Hcell].
  pose proof (node_le_ext _ m sl Hm (ok_timer_order _ _ _ _ _ H)) as Hord.
  set (c1 := set_timer (cached_alloc node (sort_tree c)) m c).
  destruct (ordered_cut _ (timer_before c1 e node) sl Hord) as (ls & rs & -> & Hcut).
  - intros a Ha. destruct (ok_nodes _ _ _ _ _ H a Ha) as (n & Hn & _).
    unfold timer_before. simpl. rewrite Hm, Hn by done. by eexists.
  - intros a b Ha Hb (na & nb & Hna & Hnb & Hab). unfold timer_before. simpl.
    rewrite Hna, Hnb. simpl. intros [= Hlt%Z.ltb_lt]. f_equal. apply Z.ltb_lt.
    by eapply node_cmp_lt_le.
  - apply wp_bind. eapply wp_mono.
    { apply (cached_insert_ok _ fuel _ ls rs node Hrep Hcut Hnode Hni Hcell).
      unfold enough in Hf. lia. }
    intros [T lm] (Hrep' & -> & _). apply wp_ret. exists ls, rs. split; [done|].
    split; [|by split_and!]. destruct H as [Hsc Htot Htm Hto Hnd Hal Hain]. constructor; simpl; try done.
    + destruct Hsc. constructor; done.
    + destruct Hcut as [Hl Hr]. rewrite Forall_forall in Hl, Hr.
      assert (Hself : m !! node = Some (mkTimerNode e task)) by apply lookup_insert_eq.
      apply ordered_insert; [done|apply Forall_forall..]; intros a Ha.
      * specialize (Hl a Ha). unfold timer_before in Hl. simpl in Hl.
        destruct (m !! a) as [n|] eqn:Hna; [|done]. simpl in Hl. injection Hl as Hl%Z.ltb_ge.
        exists n, (mkTimerNode e task). split_and!; [done|done|]. simpl. apply node_cmp_total. lia.
      * specialize (Hr a Ha). unfold timer_before in Hr. simpl in Hr.
        destruct (m !! a) as [n|] eqn:Hna; [|done]. simpl in Hr. injection Hr as Hr%Z.ltb_lt.
        exists (mkTimerNode e task), n. split_and!; [done|done|]. simpl. lia.
    + intros a. rewrite elem_of_app, elem_of_cons. destruct (decide (a = node)) as [->|Hne].
      * intros _. exists (mkTimerNode e task). split; [apply lookup_insert_eq|done].
      * unfold m. rewrite lookup_insert_ne by done. intros Ha. apply Hnd. set_solver.
Qed.

(** Nodes that are not in the tree do not matter. *)
Lemma ctx_ok_timer c run wait sl sl' al T m :
  ctx_ok c run wait sl al -> cached_rep T sl' -> StronglySorted (node_le (timer_nodes c)) sl' ->
  (forall a, a ∈ sl' -> a ∈ sl /\ m !! a = timer_nodes c !! a) ->
  ctx_ok (set_timer T m c) run wait sl' al.
Proof.
  intros [Hsc Htot Htm Hto Hnd Hal Hain] HT Ho Hm. constructor; simpl; try done.
  - destruct Hsc. by constructor.
  - eapply node_le_ext; [|exact Ho]. intros a Ha. by apply Hm.
  - intros a Ha. destruct (Hm a Ha) as [Hin ->]. by apply Hnd.
Qed.

Lemma timer_wait_end_ok now node lm c run wait ls rs al n :
  ctx_ok c run wait (ls ++ node :: rs) al -> timer_nodes c !! node = Some n -> clock_ok now ->
  enough fuel (ls ++ node :: rs) -> enough fuel (run ++ wait) ->
  wp (timer_wait_end fuel now node lm c) (fun '(c', rest) => exists run' wait' c1 c2,
    (exists T, c1 = set_timer T (timer_nodes c) c) /\ awoke c1 c2 run wait run' wait' /\
    (exists T, c' = set_timer T (delete node (timer_nodes c)) c2) /\
    ctx_ok c' run' wait' (ls ++ rs) al /\ rest = hev_task_timer_get_time now (expire n) /\
    (ls = [] -> forall t, due now (timer_nodes c) rs = Some t -> t ∈ run')).
Proof.
  intros H Hn Hnow Hf Hf2. unfold timer_wait_end.
  pose proof (cached_rep_uniq _ _ (ok_timer _ _ _ _ _ H)) as Hu.
  assert (Hni : node ∉ ls ++ rs) by disj.
  apply wp_bind. eapply wp_mono.
  { apply cached_erase_ok; [apply (ok_timer _ _ _ _ _ H)|]. unfold enough in Hf. lia. }
  intros T [Hrep Hcells]. rewrite Hn. simpl.
  assert (H1 : ctx_ok (set_timer T (timer_nodes c) c) run wait (ls ++ rs) al).
  { eapply ctx_ok_timer; [exact H|done|eapply ordered_delete, (ok_timer_order _ _ _ _ _ H)|].
    intros a Ha. split; [set_solver|done]. }
  assert (Hend : forall c2 run' wait', ctx_ok c2 run' wait' (ls ++ rs) al ->
    timer_nodes c2 = timer_nodes c ->
    ctx_ok (set_timer (cached_free node (sort_tree c2)) (delete node (timer_nodes c2)) c2)
      run' wait' (ls ++ rs) al).
  { intros c2 r w H2 Hm2. eapply ctx_ok_timer; [exact H2| |apply (ok_timer_order _ _ _ _ _ H2)|].
    - apply cached_free_ok; [done|]. apply (ok_timer _ _ _ _ _ H2).
    - intros a Ha. split; [done|]. apply lookup_delete_ne. by intros ->. }
  assert (Hlm : ls = [] -> Z.eqb node (hev_rbtree_cached_first (sort_tree c)) = true).
  { intros ->. rewrite (cached_first_ok _ _ (ok_timer _ _ _ _ _ H)). apply Z.eqb_refl. }
  apply wp_bind. destruct (Z.eqb _ _ || lm)%bool eqn:E.
  - eapply wp_mono; [by apply (timer_wakeup_ok now _ run wait (ls ++ rs) al)|].
    intros c2 (r & w & A & Hd). apply wp_ret. pose proof (ctx_ok_awoke _ _ _ _ _ _ _ _ H1 A) as H2.
    pose proof (fr_nodes _ _ (aw_frame _ _ _ _ _ _ A)) as Hm2. simpl in Hm2.
    exists r, w, (set_timer T (timer_nodes c) c), c2. split_and!; try done; [by eexists|..].
    + rewrite Hm2. by eexists.
    + by apply Hend.
    + intros ->. exact Hd.
  - do 2 apply wp_ret. exists run, wait, (set_timer T (timer_nodes c) c), (set_timer T (timer_nodes c) c).
    split_and!; [by eexists|apply awoke_refl, H1|by eexists|by apply Hend|done|].
    intros ->. rewrite Hlm in E by done. discriminate E.
Qed.
End timer.
