(* ===== verification/SchedRun.v ===== *)
(** * The scheduler's turns: yields, ends of tasks, polls and the choice *)
From stdpp Require Import sorting.
From S2P Require Import Prelude CInt RBTree RBTreeShape RBTreeSpec RBTreeCached List Sched SchedSpec.

(** The key after a turn: the elapsed "time" is one, weighted by the priority. *)
Definition next_key (t : HevTask) : Z := u64 (sched_key t + u64 (1 * u64 (priority t))).

Definition requeued_task (t : HevTask) : HevTask :=
  mkTask (next_key t) (joiner t) (ref_count t) (next_priority t) (next_priority t) (state t).

Definition waiting_task (t : HevTask) : HevTask :=
  mkTask (u64 (next_priority t)) (joiner t) (ref_count t) (priority t) (next_priority t)
    HEV_TASK_WAITING.

Section run.
Variable fuel : nat.

Lemma all_in_insert (al : list Z) (m : gmap Z HevTask) a t t' :
  (forall x, x ∈ al <-> is_Some (m !! x)) -> m !! a = Some t ->
  forall x, x ∈ al <-> is_Some (<[a := t']> m !! x).
Proof.
  intros H Ha x. rewrite H, lookup_insert_is_Some. split; [|naive_solver].
  destruct (decide (a = x)); [by left|by right].
Qed.

(** An erasure leaves everybody's memory. *)
Lemma erase_tasks_ok T ls x rs (m : gmap Z HevTask) : cached_rep T (ls ++ x :: rs) -> enough fuel (ls ++ x :: rs) ->
  map_Forall (task_ok T) m ->
  wp (hev_rbtree_cached_erase fuel T x) (fun T' => cached_rep T' (ls ++ rs) /\
    map_Forall (task_ok T') m).
Proof.
  intros H Hf Hm. destruct (cached_erase_ok fuel T ls x rs H) as (T' & E & H' & Hc).
  { unfold enough in Hf. lia. }
  exists T'. split; [done|]. split; [done|]. intros a t Ha. pose proof (Hm a t Ha) as Hok.
  apply (task_ok_tree T); [done|]. unfold hev_rbtree_cached_erase in E.
  apply bind_Some in E as (l & _ & E). apply bind_Some in E as (T0 & E & [= <-]). simpl.
  by eapply erase_keeps_cell, Hok.
Qed.

Lemma run_split c run wait a : sched_ok c run wait -> a ∈ run ->
  exists ls rs t, run = ls ++ a :: rs /\ tasks c !! a = Some t /\ state t = HEV_TASK_RUNNING /\
    a ∉ ls ++ rs /\ a ∉ wait.
Proof.
  intros H Ha. destruct (list_elem_of_split _ _ Ha) as (ls & rs & ->).
  destruct (proj1 (ok_run _ _ _ H a) Ha) as (t & Ht & Hst).
  exists ls, rs, t. split_and!; try done.
  - pose proof (cached_rep_uniq _ _ (ok_tree _ _ _ H)) as Hu. disj.
  - intros Hw. apply (ok_wait _ _ _ H) in Hw as (t' & Ht' & Hst'). congruence.
Qed.

(** The state that a task is in after an update of another field. *)
Lemma in_state_same m a t t' st b : m !! a = Some t -> state t' = state t ->
  in_state (<[a := t']> m) st b <-> in_state m st b.
Proof.
  intros Ha Hs. rewrite in_state_insert. destruct (decide (b = a)) as [->|Hne]; [|tauto].
  split; [intros [[_ <-]|[? _]]; [by exists t|done]|]. intros (t0 & E & <-). left. split; [done|].
  rewrite Ha in E. by injection E as <-.
Qed.

(** ** A yield of the current task that stays ready *)

Lemma yield_ok c run wait sl al :
  ctx_ok c run wait sl al -> current_task c ∈ run -> enough fuel run ->
  wp (c ← hev_task_system_update_sched_key c; hev_task_system_reinsert_current_task fuel c)
    (fun c' => exists ls rs ls' rs' t, run = ls ++ current_task c :: rs /\
      ls ++ rs = ls' ++ rs' /\ tasks c !! current_task c = Some t /\
      tasks c' = <[current_task c := requeued_task t]> (tasks c) /\
      ctx_ok c' (ls' ++ current_task c :: rs') wait sl al /\
      current_task c' = current_task c /\ timer_nodes c' = timer_nodes c /\
      (forall x, x ∈ ls' -> skey (tasks c) x <= next_key t) /\
      (forall x, x ∈ rs' -> next_key t < skey (tasks c) x)).
Proof.
  intros H Hcur Hf. pose proof (ok_sched _ _ _ _ _ H) as HS.
  set (cur := current_task c) in *.
  destruct (run_split _ _ _ _ HS Hcur) as (ls & rs & t & -> & Ht & Hst & Hni & Hnw).
  unfold hev_task_system_update_sched_key. apply wp_bind. eapply upd_task_ok; [exact Ht|].
  unfold hev_task_system_reinsert_current_task. simpl. fold cur. apply wp_bind.
  eapply upd_task_ok; [by simpl; apply lookup_insert_eq|]. apply wp_bind. simpl.
  rewrite insert_insert_eq. set (t' := with_priority _ _).
  assert (Et : t' = requeued_task t) by done. rewrite Et in *. clear t' Et.
  pose proof (ok_tasks _ _ _ HS cur t Ht) as Htok.
  assert (Hm : map_Forall (task_ok (running_tasks c)) (<[cur := requeued_task t]> (tasks c))).
  { apply map_Forall_insert_2; [|apply HS]. destruct Htok. constructor; try done. apply u64_ok. }
  eapply wp_mono; [apply (erase_tasks_ok _ _ _ _ _ (ok_tree _ _ _ HS) Hf Hm)|].
  intros T [Hrep HT]. set (c1 := set_running T _).
  assert (Hkeys : forall x, x ∈ ls ++ rs ->
    skey (<[cur := requeued_task t]> (tasks c)) x = skey (tasks c) x).
  { intros x Hx. apply skey_insert_ne. by intros <-. }
  assert (Hlen : enough fuel (ls ++ rs)).
  { unfold enough in *. rewrite length_app in *. simpl in Hf. lia. }
  eapply wp_mono.
  { apply (insert_raw_ok fuel c1 (ls ++ rs) cur (requeued_task t)); simpl; try done.
    - eapply key_le_ext; [exact Hkeys|]. eapply ordered_delete, (ok_order _ _ _ HS).
    - intros x Hx. rewrite lookup_insert_is_Some. right. split; [by intros ->|].
      eapply in_state_exists, (ok_run _ _ _ HS). set_solver.
    - apply lookup_insert_eq.
    - apply HT. apply lookup_insert_eq. }
  intros c2 (T2 & ls' & rs' & -> & E & Hrep2 & Hord & Hl & Hr & Hfr). simpl in *.
  exists ls, rs, ls', rs', t. split; [done|]. split; [done|]. split; [done|]. split; [done|].
  assert (Hperm : ls' ++ cur :: rs' ≡ₚ ls ++ cur :: rs).
  { by rewrite <- !Permutation_middle, E. }
  split_and!; try done.
  - destruct H. constructor; simpl; try done.
    + constructor; simpl; try done.
      * intros a. rewrite Hperm, (ok_run _ _ _ HS a). symmetry. by eapply in_state_same.
      * intros a. rewrite (ok_wait _ _ _ HS a). symmetry. by eapply in_state_same.
      * apply HS.
      * intros a ta Ha. pose proof (HT a ta Ha) as Hok. apply (task_ok_tree T); [done|].
        destruct (decide (a ∈ ls' ++ cur :: rs')); [by eapply rb_rep_cell; [apply Hrep2|]|].
        rewrite Hfr by done. apply Hok.
      * intros a ta. destruct (decide (a = cur)) as [->|Hne].
        -- rewrite lookup_insert_eq. intros [= <-]. simpl. by rewrite Hst.
        -- rewrite lookup_insert_ne by done. apply (ok_wait_key _ _ _ HS).
      * rewrite (ok_running _ _ _ HS). f_equal. by rewrite Hperm.
    + by rewrite Hperm.
    + intros a Ha. setoid_rewrite Hperm. by apply ok_nodes.
    + by eapply all_in_insert.
  - intros x Hx. rewrite <- (Hkeys x); [by apply Hl|]. rewrite E. set_solver.
  - intros x Hx. rewrite <- (Hkeys x); [by apply Hr|]. rewrite E. set_solver.
Qed.
(** ** The current task waits or ends *)

(** Taking a task out of the tree: what is common to both. *)
Lemma take_out_ok c run wait a t' t ls rs :
  sched_ok c run wait -> run = ls ++ a :: rs -> a ∉ ls ++ rs -> tasks c !! a = Some t ->
  task_ok (running_tasks c) a t' -> enough fuel run ->
  wp (hev_rbtree_cached_erase fuel (running_tasks c) a) (fun T =>
    cached_rep T (ls ++ rs) /\ map_Forall (task_ok T) (<[a := t']> (tasks c)) /\
    StronglySorted (key_le (<[a := t']> (tasks c))) (ls ++ rs)).
Proof.
  intros H -> Hni Ht Hok Hf.
  assert (Hm : map_Forall (task_ok (running_tasks c)) (<[a := t']> (tasks c))).
  { apply map_Forall_insert_2; [done|apply H]. }
  eapply wp_mono; [apply (erase_tasks_ok _ _ _ _ _ (ok_tree _ _ _ H) Hf Hm)|].
  intros T [Hrep HT]. split_and!; [done|done|].
  eapply key_le_ext; [|eapply ordered_delete, (ok_order _ _ _ H)].
  intros x Hx. apply skey_insert_ne. by intros ->.
Qed.

Lemma task_wait_ok c run wait sl al :
  ctx_ok c run wait sl al -> current_task c ∈ run -> enough fuel run ->
  wp (c ← hev_task_system_update_sched_key c;
      hev_task_system_remove_current_task fuel HEV_TASK_WAITING c)
    (fun c' => exists ls rs t, run = ls ++ current_task c :: rs /\
      tasks c !! current_task c = Some t /\
      tasks c' = <[current_task c := waiting_task t]> (tasks c) /\
      ctx_ok c' (ls ++ rs) (current_task c :: wait) sl al /\
      current_task c' = current_task c /\ timer_nodes c' = timer_nodes c).
Proof.
  intros H Hcur Hf. pose proof (ok_sched _ _ _ _ _ H) as HS.
  set (cur := current_task c) in *.
  destruct (run_split _ _ _ _ HS Hcur) as (ls & rs & t & Hrun & Ht & Hst & Hni & Hnw).
  unfold hev_task_system_update_sched_key. apply wp_bind. eapply upd_task_ok; [exact Ht|].
  unfold hev_task_system_remove_current_task. simpl. fold cur. apply wp_bind.
  eapply upd_task_ok; [by simpl; apply lookup_insert_eq|]. apply wp_bind. simpl.
  rewrite insert_insert_eq.
  pose proof (ok_tasks _ _ _ HS cur t Ht) as Htok.
  destruct (take_out_ok c run wait cur (waiting_task t) t ls rs HS Hrun Hni Ht)
    as (T & -> & Hrep & HT & Hord); [|done|].
  { destruct Htok. constructor; try done. apply u64_ok. }
  apply wp_ret. eapply upd_task_ok; [by simpl; apply lookup_insert_eq|]. simpl.
  rewrite insert_insert_eq. exists ls, rs, t. subst run. split_and!; try done.
  set (m := <[cur := _]> (tasks c)). change m with (<[cur := waiting_task t]> (tasks c)) in *.
  assert (Hprio : 0 <= next_priority t <= 15) by apply Htok.
  destruct H. constructor; simpl; try done.
  - constructor; simpl; try done.
    + intros a. rewrite in_state_insert, <- (ok_run _ _ _ HS a), !elem_of_app, elem_of_cons. simpl.
      rewrite elem_of_app in Hni. split; [|intros [[_ E]|[? ?]]; [done|tauto]].
      intros Ha. right. split; [|tauto]. intros E. rewrite E in Ha. tauto.
    + intros a. rewrite in_state_insert, <- (ok_wait _ _ _ HS a), elem_of_cons. simpl.
      destruct (decide (a = cur)); tauto.
    + constructor; [done|apply HS].
    + intros a ta. destruct (decide (a = cur)) as [->|Hne].
      * rewrite lookup_insert_eq. intros [= <-] _. simpl.
        unfold HEV_TASK_PRIORITY_MAX. rewrite u64_id by lia. lia.
      * rewrite lookup_insert_ne by done. apply (ok_wait_key _ _ _ HS).
    + rewrite (ok_running _ _ _ HS), !length_app. simpl. lia.
  - rewrite ok_total, !length_app. simpl. lia.
  - intros a Ha. destruct (ok_nodes a Ha) as (n & Hn & Htm & Hin). exists n. split_and!; [done|done|].
    revert Hin. rewrite !elem_of_app, !elem_of_cons. tauto.
  - by eapply all_in_insert.
Qed.

(** An update that leaves a task's state and key. *)
Lemma ctx_ok_upd c run wait sl al a t t' :
  ctx_ok c run wait sl al -> tasks c !! a = Some t -> state t' = state t ->
  sched_key t' = sched_key t -> task_ok (running_tasks c) a t' ->
  ctx_ok (set_tasks (<[a := t']> (tasks c)) c) run wait sl al.
Proof.
  intros H Ht Hst Hk Hok. pose proof (ok_sched _ _ _ _ _ H) as HS.
  destruct H. constructor; simpl; try done; [|by eapply all_in_insert].
  constructor; simpl; try apply HS.
  - eapply key_le_ext; [|apply (ok_order _ _ _ HS)]. intros x Hx. unfold skey.
    destruct (decide (x = a)) as [->|]; [rewrite lookup_insert_eq, Ht; exact Hk|].
    by rewrite lookup_insert_ne.
  - intros b. rewrite (ok_run _ _ _ HS b). symmetry. by eapply in_state_same.
  - intros b. rewrite (ok_wait _ _ _ HS b). symmetry. by eapply in_state_same.
  - apply map_Forall_insert_2; [done|apply HS].
  - intros b tb. destruct (decide (b = a)) as [->|]; [|rewrite lookup_insert_ne by done; apply HS].
    rewrite lookup_insert_eq. intros [= <-]. rewrite Hst, Hk. by apply (ok_wait_key _ _ _ HS a).
Qed.

Lemma dll_forget L xs a : dll L xs -> a ∉ xs ->
  dll (mkList (l_head L) (l_tail L) (delete a (lcells L))) xs.
Proof.
  intros (H1 & H2 & H3 & H4) Ha. split_and!; try done. simpl.
  eapply seg_frame; [|exact H3]. intros b Hb. apply lookup_delete_ne. by intros ->.
Qed.

(** The structure of a task that is in no tree and in no list is freed. *)
Lemma ctx_ok_free c run wait sl al L xs ys a t :
  ctx_ok c run wait sl al -> al = xs ++ a :: ys -> tasks c !! a = Some t ->
  state t = HEV_TASK_STOPPED -> dll L (xs ++ ys) ->
  ctx_ok (task_free a (set_all L c)) run wait sl (xs ++ ys).
Proof.
  intros H -> Ht Hst HL. pose proof (ok_sched _ _ _ _ _ H) as HS.
  pose proof (proj2 (proj2 (proj2 (ok_all _ _ _ _ _ H)))) as Hu.
  assert (Hnx : a ∉ xs ++ ys) by disj.
  assert (Hst' : forall st b, st <> HEV_TASK_STOPPED ->
    in_state (tasks c) st b <-> in_state (delete a (tasks c)) st b).
  { intros st b Hne. unfold in_state. destruct (decide (b = a)) as [->|]; [|by rewrite lookup_delete_ne].
    rewrite lookup_delete_eq. split; [|by intros (? & ? & _)]. intros (t' & E & <-). congruence. }
  assert (Hnr : a ∉ run).
  { intros Hin. apply (ok_run _ _ _ HS) in Hin as (t' & E & E'). congruence. }
  destruct H. constructor; simpl; try done.
  - constructor; simpl.
    + apply cached_free_ok; [done|apply HS].
    + eapply key_le_ext; [|apply (ok_order _ _ _ HS)]. intros x Hx. unfold skey.
      rewrite lookup_delete_ne; [done|by intros ->].
    + intros b. rewrite (ok_run _ _ _ HS b). by apply Hst'.
    + intros b. rewrite (ok_wait _ _ _ HS b). by apply Hst'.
    + apply HS.
    + intros b tb [Hne Hb]%lookup_delete_Some. pose proof (ok_tasks _ _ _ HS b tb Hb) as [].
      constructor; try done. simpl. by rewrite lookup_delete_ne.
    + intros b tb [Hne Hb]%lookup_delete_Some. by apply (ok_wait_key _ _ _ HS b).
    + apply HS.
  - by apply dll_forget.
  - intros b. rewrite lookup_delete_is_Some, <- ok_all_in.
    rewrite elem_of_app in Hnx. rewrite !elem_of_app, elem_of_cons. split; [|naive_solver].
    intros Hb. split; [|tauto]. intros <-. tauto.
Qed.

(** One reference less to a stopped task. *)
Definition dropped (m : gmap Z HevTask) (a : Z) (t : HevTask) : gmap Z HevTask :=
  if decide (ref_count t = 1) then delete a m
  else <[a := with_ref (ref_count t - 1) t]> m.

Lemma unref_stopped_ok c run wait sl al a t :
  ctx_ok c run wait sl al -> tasks c !! a = Some t -> state t = HEV_TASK_STOPPED ->
  wp (hev_task_unref a c) (fun c' => exists al', ctx_ok c' run wait sl al' /\
    tasks c' = dropped (tasks c) a t /\ current_task c' = current_task c /\
    timer_nodes c' = timer_nodes c).
Proof.
  intros H Ht Hst. pose proof (ok_sched _ _ _ _ _ H) as HS.
  pose proof (ok_tasks _ _ _ HS a t Ht) as Htok.
  unfold hev_task_unref, dropped. apply wp_bind. eapply upd_task_ok; [exact Ht|]. simpl.
  rewrite lookup_insert_eq. simpl. destruct (Z.eqb_spec (ref_count t - 1) 0) as [Hr|Hr]; simpl.
  - rewrite decide_True by lia. apply wp_bind.
    assert (Hin : a ∈ al) by (apply (ok_all_in _ _ _ _ _ H); by exists t).
    destruct (list_elem_of_split _ _ Hin) as (xs & ys & ->).
    eapply wp_mono; [apply (del_ok _ xs a ys), (ok_all _ _ _ _ _ H)|].
    intros L (Hdll & _ & _). apply wp_ret. exists (xs ++ ys).
    assert (task_free a (set_all L (set_tasks (<[a:=with_ref (ref_count t - 1) t]> (tasks c)) c))
      = task_free a (set_all L c)) as ->.
    { unfold task_free, set_all, set_tasks, set_running. simpl. by rewrite delete_insert_eq. }
    split_and!; [by eapply ctx_ok_free|done..].
  - rewrite decide_False by lia. apply wp_ret. exists al. split_and!; [|done..].
    eapply ctx_ok_upd; [done|done|done|done|]. destruct Htok. constructor; try done. simpl. lia.
Qed.

Lemma task_stop_ok c run wait sl al :
  ctx_ok c run wait sl al -> current_task c ∈ run -> enough fuel run ->
  (forall a n, a ∈ sl -> timer_nodes c !! a = Some n -> tn_task n <> current_task c) ->
  wp (hev_task_system_remove_current_task fuel HEV_TASK_STOPPED c)
    (fun c' => exists ls rs t al', run = ls ++ current_task c :: rs /\
      tasks c !! current_task c = Some t /\
      tasks c' = dropped (<[current_task c := with_state HEV_TASK_STOPPED t]> (tasks c))
        (current_task c) (with_state HEV_TASK_STOPPED t) /\
      ctx_ok c' (ls ++ rs) wait sl al' /\ current_task c' = current_task c /\
      timer_nodes c' = timer_nodes c).
Proof.
  intros H Hcur Hf Hsl. pose proof (ok_sched _ _ _ _ _ H) as HS.
  set (cur := current_task c) in *.
  destruct (run_split _ _ _ _ HS Hcur) as (ls & rs & t & Hrun & Ht & Hst & Hni & Hnw).
  unfold hev_task_system_remove_current_task. fold cur. apply wp_bind.
  eapply upd_task_ok; [exact Ht|]. simpl. apply wp_bind.
  pose proof (ok_tasks _ _ _ HS cur t Ht) as Htok.
  destruct (take_out_ok c run wait cur (with_state HEV_TASK_STOPPED t) t ls rs HS Hrun Hni Ht)
    as (T & -> & Hrep & HT & Hord); [by destruct Htok; constructor|done|].
  apply wp_ret. set (c1 := set_counts _ _ _).
  assert (H1 : ctx_ok c1 (ls ++ rs) wait sl al).
  { subst run. destruct H. constructor; simpl; try done.
    - constructor; simpl; try done.
      + intros a. rewrite in_state_insert, <- (ok_run _ _ _ HS a), !elem_of_app, elem_of_cons.
        simpl. rewrite elem_of_app in Hni. split; [|intros [[_ E]|[? ?]]; [done|tauto]].
        intros Ha. right. split; [|tauto]. intros E. rewrite E in Ha. tauto.
      + intros a. rewrite in_state_insert, <- (ok_wait _ _ _ HS a). simpl.
        split; [|intros [[_ E]|[? ?]]; done]. intros Ha. right. split; [|done]. by intros ->.
      + apply HS.
      + intros a ta. destruct (decide (a = cur)) as [->|Hne].
        * rewrite lookup_insert_eq. by intros [= <-].
        * rewrite lookup_insert_ne by done. apply (ok_wait_key _ _ _ HS).
      + rewrite (ok_running _ _ _ HS), !length_app. simpl. lia.
    - rewrite ok_total, !length_app. simpl. lia.
    - intros a Ha. destruct (ok_nodes a Ha) as (n & Hn & Htm & Hin). exists n.
      split_and!; [done|done|]. specialize (Hsl a n Ha Hn).
      rewrite !elem_of_app, elem_of_cons in Hin. rewrite !elem_of_app. tauto.
    - by eapply all_in_insert. }
  eapply wp_mono.
  { apply (unref_stopped_ok c1 (ls ++ rs) wait sl al cur (with_state HEV_TASK_STOPPED t)); [done| |done].
    simpl. apply lookup_insert_eq. }
  intros c' (al' & H' & Htasks & Hcur' & Hn'). exists ls, rs, t, al'. by split_and!.
Qed.

(** ** Polls and the choice of a task *)

Definition poll_ok (run wait : list Z) (p : Poll) : Prop :=
  Forall (fun e => e ∈ run ++ wait) (p_events p) /\ clock_ok (p_now p).

Lemma io_poll_ok p c run wait sl al :
  ctx_ok c run wait sl al -> poll_ok run wait p -> enough fuel (run ++ wait) ->
  wp (hev_task_system_io_poll fuel p c) (fun c' => exists run' wait',
    awoke c c' run wait run' wait' /\ (forall e, e ∈ p_events p -> e ∈ run') /\
    forall t, due (p_now p) (timer_nodes c) sl = Some t -> t ∈ run').
Proof.
  intros H [He Hnow] Hf. unfold hev_task_system_io_poll. apply wp_bind.
  eapply wp_mono; [apply (wakeup_events_ok fuel _ c run wait); [apply H|done|done]|].
  intros c1 (r1 & w1 & A1 & H1).
  pose proof (ctx_ok_awoke _ _ _ _ _ _ _ _ H A1) as Hc1.
  eapply wp_mono; [apply (timer_wake_ok fuel _ _ _ _ _ _ Hc1 Hnow)|].
  { eapply enough_perm; [apply A1|done]. }
  intros c2 (r2 & w2 & A2 & H2). exists r2, w2. split; [by eapply awoke_trans|]. split.
  - intros e Hin. eapply sublist_in; [apply A2|by apply H1].
  - intros t Ht. apply H2. by rewrite (fr_nodes _ _ (aw_frame _ _ _ _ _ _ A1)).
Qed.

Lemma poll_ok_perm run wait run' wait' p :
  run' ++ wait' ≡ₚ run ++ wait -> poll_ok run wait p -> poll_ok run' wait' p.
Proof.
  intros HP [He Hn]. split; [|done]. eapply Forall_impl; [exact He|]. intros e. by rewrite HP.
Qed.

Lemma running_zero c run wait : sched_ok c run wait ->
  Z.eqb (running_task_count c) 0 = bool_decide (run = []).
Proof.
  intros H. rewrite (ok_running _ _ _ H). destruct run; [done|].
  rewrite bool_decide_eq_false_2 by done. apply Z.eqb_neq. simpl. lia.
Qed.

Lemma poll_loop_ok ps c run wait sl al :
  ctx_ok c run wait sl al -> Forall (poll_ok run wait) ps -> enough fuel (run ++ wait) ->
  wp (poll_loop fuel ps c) (fun '(c', ps', b) => exists run' wait',
    awoke c c' run wait run' wait' /\ ps' `suffix_of` ps /\
    if (b : bool) then run' <> [] else ps' = [] /\ (run = [] -> run' = [])).
Proof.
  revert c run wait. induction ps as [|p ps IH]; intros c run wait H Hps Hf; simpl.
  { apply wp_ret. exists run, wait. split_and!; [apply awoke_refl, H|done|done|done]. }
  apply Forall_cons in Hps as [Hp Hps]. apply wp_bind.
  eapply wp_mono; [by apply (io_poll_ok p c run wait sl al)|].
  intros c1 (r1 & w1 & A1 & _). rewrite (running_zero _ r1 w1) by apply A1.
  pose proof (ctx_ok_awoke _ _ _ _ _ _ _ _ H A1) as H1.
  case_bool_decide as Hr1.
  - subst r1. eapply wp_mono.
    { apply (IH c1 [] w1 H1); [|by eapply enough_perm; [apply A1|]].
      eapply Forall_impl; [exact Hps|]. intros q. apply poll_ok_perm, A1. }
    intros [[c2 ps'] b] (r2 & w2 & A2 & Hsuf & Hb). exists r2, w2. split_and!.
    + by eapply awoke_trans.
    + by apply suffix_cons_r.
    + destruct b; [done|]. destruct Hb as [-> Hb]. split; [done|]. intros _. by apply Hb.
  - apply wp_ret. exists r1, w1. split_and!; [done|by apply suffix_cons_r|done].
Qed.

(** The choice: the first of the running tasks, after what the poll woke. *)
Lemma pick_ok ps c run wait sl al :
  ctx_ok c run wait sl al -> Forall (poll_ok run wait) ps -> run ++ wait <> [] ->
  enough fuel (run ++ wait) ->
  wp (hev_task_system_pick_current_task fuel ps c) (fun '(c', ps', b) => exists c1 run' wait',
    awoke c c1 run wait run' wait' /\ ctx_ok c' run' wait' sl al /\ ps' `suffix_of` ps /\
    tasks c' = tasks c1 /\ timer_nodes c' = timer_nodes c /\
    if (b : bool) then exists x rest, run' = x :: rest /\ current_task c' = x
    else ps' = [] /\ current_task c' = current_task c).
Proof.
  intros H Hps Hne Hf. pose proof (ok_sched _ _ _ _ _ H) as HS.
  unfold hev_task_system_pick_current_task. apply wp_bind.
  eapply (wp_mono _ (fun '(c1, ps', b) => exists run' wait', awoke c c1 run wait run' wait' /\
    ps' `suffix_of` ps /\ if (b : bool) then run' <> [] else ps' = [])).
  - rewrite (ok_total _ _ _ _ _ H), (ok_running _ _ _ HS) at 1.
    destruct (Z.ltb_spec (Z.of_nat (length run)) (Z.of_nat (length run + length wait))).
    + rewrite (running_zero _ _ _ HS). case_bool_decide as Hr; simpl.
      * eapply wp_mono; [by apply (poll_loop_ok ps c run wait sl al)|].
        intros [[c1 ps'] []] (r & w & A & Hsuf & Hb); exists r, w; by destruct_and?.
      * destruct ps as [|p ps].
        { apply wp_ret. exists run, wait. split; [by apply awoke_refl|done]. }
        apply Forall_cons in Hps as [Hp Hps]. apply wp_bind.
        eapply wp_mono; [by apply (io_poll_ok p c run wait sl al)|].
        intros c1 (r & w & A & _). apply wp_ret. exists r, w.
        split_and!; [done|by apply suffix_cons_r|].
        intros ->. pose proof (aw_sub _ _ _ _ _ _ A) as Hsub. by apply sublist_nil_r in Hsub.
    + apply wp_ret. exists run, wait. split_and!; [by apply awoke_refl|done|].
      intros ->. simpl in *. destruct wait; [done|simpl in *; lia].
  - intros [[c1 ps'] b] (r & w & A & Hsuf & Hb).
    pose proof (ctx_ok_awoke _ _ _ _ _ _ _ _ H A) as H1.
    pose proof (fr_nodes _ _ (aw_frame _ _ _ _ _ _ A)) as Hnodes.
    destruct b; apply wp_ret; exists c1, r, w; (split; [done|]).
    + split; [by destruct H1 as [[] ]; constructor|]. split_and!; [done|done|done|].
      destruct r as [|x r]; [done|]. exists x, r. split; [done|].
      simpl. by rewrite (cached_first_ok _ _ (ok_tree _ _ _ (ok_sched _ _ _ _ _ H1))).
    + split_and!; try done. apply A.
Qed.
End run.
