(* ===== verification/Tasks.v ===== *)
(** * Tasks at work: sequences of the library's calls

    A step is a call that the running task makes, or its return from a call in
    which it yielded.  The locals of such a call are the task's [frame]. *)
From S2P Require Import Prelude CInt RBTree RBTreeCached List Sched.

(** The yields inside [hev_task_timer_wait] and [hev_task_join]. *)
Inductive frame := FSleep (node : Z) (lm : bool) | FJoin (task : Z).

(** [Main]: before [hev_task_system_run]. *)
Inductive mode := Main | InTask | InPoll | Done.
#[export] Instance mode_dec : EqDecision mode.
Proof. solve_decision. Defined.

Record Sys := mkSys { sctx : Ctx; frames : gmap Z frame; smode : mode }.

Definition sys0 : Sys := mkSys ctx0 ∅ Main.

Inductive op :=
| ONew (a : Z) (stack_ok : bool)
| ORef (t : Z)
| OUnref (t : Z)
| OSetPriority (t p : Z)
| ORun (t : Z)
| OWakeup (t : Z)
| OSystemRun (ps : list Poll)
| OPoll (ps : list Poll)
| OYield (waitio : bool) (ps : list Poll)
| OSleep (ms node : Z) (now : timespec) (ps : list Poll)
| OJoin (t : Z) (ps : list Poll)
| OResume (now : timespec) (ps : list Poll)
| OEnd (ps : list Poll)
| OExit (ps : list Poll).

Section exec.
Variable fuel : nat.

Definition mode_of (r : SchedResult) : mode :=
  match r with Switched => InTask | Exited => Done | Polling => InPoll end.

(** [hev_task_yield], or the jump of [hev_task_system_kill_current_task]. *)
Definition switch (type : HevTaskYieldType) (ps : list Poll) (fs : gmap Z frame) (c : Ctx)
  : option Sys :=
  '(c, _, r) ← hev_task_system_schedule fuel type ps c; Some (mkSys c fs (mode_of r)).

Definition stay (s : Sys) (c : Ctx) : Sys := mkSys c (frames s) (smode s).

(** The return into [hev_task_timer_wait] or into the loop of [hev_task_join]. *)
Definition resume (now : timespec) (ps : list Poll) (s : Sys) : option Sys :=
  let c := sctx s in
  let fs := delete (current_task c) (frames s) in
  f ← frames s !! current_task c;
  match f with
  | FSleep node lm =>
      '(c, _) ← timer_wait_end fuel now node lm c; Some (mkSys c fs InTask)
  | FJoin t =>
      '(c, ended) ← join_turn fuel t c;
      if (ended : bool) then Some (mkSys c fs InTask)
      else switch HEV_TASK_WAITIO ps (frames s) c
  end.

Definition exec (o : op) (s : Sys) : option Sys :=
  let c := sctx s in
  let cur := current_task c in
  match o with
  | ONew a stack_ok => '(c, _) ← hev_task_new a stack_ok c; Some (stay s c)
  | ORef t => c ← hev_task_ref t c; Some (stay s c)
  | OUnref t => c ← hev_task_unref t c; Some (stay s c)
  | OSetPriority t p => c ← hev_task_set_priority t p c; Some (stay s c)
  | ORun t => c ← hev_task_run fuel t c; Some (stay s c)
  | OWakeup t => c ← hev_task_wakeup fuel t c; Some (stay s c)
  | OSystemRun ps => switch HEV_TASK_RUN_SCHEDULER ps (frames s) c
  | OPoll ps =>
      '(c, _, b) ← hev_task_system_pick_current_task fuel ps c;
      Some (mkSys c (frames s) (if (b : bool) then InTask else InPoll))
  | OYield waitio ps =>
      switch (if (waitio : bool) then HEV_TASK_WAITIO else HEV_TASK_YIELD) ps (frames s) c
  | OSleep ms node now ps =>
      '(c, lm) ← hev_task_sleep_begin fuel now ms node c;
      match lm with
      | None => Some (stay s c)
      | Some lm => switch HEV_TASK_WAITIO ps (<[cur := FSleep node lm]> (frames s)) c
      end
  | OJoin t ps =>
      '(c, ended) ← hev_task_join fuel t c;
      match ended with
      | Some false => switch HEV_TASK_WAITIO ps (<[cur := FJoin t]> (frames s)) c
      | _ => Some (stay s c)
      end
  | OResume now ps => resume now ps s
  | OEnd ps => c ← executer_end fuel cur c; switch HEV_TASK_SCHED_REMOVE ps (frames s) c
  | OExit ps => switch HEV_TASK_SCHED_REMOVE ps (frames s) c
  end.

Fixpoint execs (os : list op) (s : Sys) : option Sys :=
  match os with [] => Some s | o :: os => s ← exec o s; execs os s end.
End exec.

(** ** What the callers owe *)

Definition live (c : Ctx) (t : Z) : Prop :=
  exists x, tasks c !! t = Some x /\ state x <> HEV_TASK_STOPPED.

(** The references that are in use by the scheduler and by a join. *)
Definition joined (s : Sys) (t : Z) : Prop := exists j, frames s !! j = Some (FJoin t).
Definition spare_ref (s : Sys) (t : Z) : Prop := exists x, tasks (sctx s) !! t = Some x /\
  (state x <> HEV_TASK_STOPPED -> 1 < ref_count x) /\
  (joined s t -> 1 < ref_count x) /\
  (state x <> HEV_TASK_STOPPED -> joined s t -> 2 < ref_count x).

(** Events name tasks that have not ended. *)
Definition poll_live (c : Ctx) (but : Z) (p : Poll) : Prop :=
  Forall (fun e => live c e /\ e <> but) (p_events p) /\ 0 <= tv_nsec (p_now p) < 1000000000.
Definition polls_live (c : Ctx) (but : Z) (ps : list Poll) : Prop := Forall (poll_live c but) ps.

Definition calling (s : Sys) : Prop :=
  smode s = InTask /\ frames s !! current_task (sctx s) = None.

Definition op_ok (o : op) (s : Sys) : Prop :=
  let c := sctx s in
  match o with
  | ONew a _ => (smode s = Main \/ calling s) /\ tasks c !! a = None /\ a <> 0 /\ Z.land a 3 = 0
  | ORef t | OSetPriority t _ => (smode s = Main \/ calling s) /\ is_Some (tasks c !! t)
  | OUnref t => (smode s = Main \/ calling s) /\ spare_ref s t
  | ORun t => (smode s = Main \/ calling s) /\ exists x, tasks c !! t = Some x /\
      (state x = HEV_TASK_STOPPED -> joiner x = 0)
  | OWakeup t => (smode s = Main \/ calling s) /\ live c t
  | OSystemRun ps => smode s = Main /\ polls_live c 0 ps
  | OPoll ps => smode s = InPoll /\ polls_live c 0 ps
  | OYield _ ps => calling s /\ polls_live c 0 ps
  | OSleep ms node now ps => calling s /\ polls_live c 0 ps /\ 0 <= ms < 2 ^ 32 /\
      node <> 0 /\ Z.land node 3 = 0 /\ 0 <= tv_nsec now < 1000000000 /\
      (forall j n lm, frames s !! j = Some (FSleep n lm) -> n <> node)
  | OJoin t ps => calling s /\ polls_live c 0 ps /\ spare_ref s t
  | OResume now ps => smode s = InTask /\ is_Some (frames s !! current_task c) /\
      polls_live c 0 ps /\ 0 <= tv_nsec now < 1000000000
  | OEnd ps | OExit ps => calling s /\ polls_live c (current_task c) ps
  end.

Fixpoint ops_ok (fuel : nat) (os : list op) (s : Sys) : Prop :=
  match os with
  | [] => True
  | o :: os => op_ok o s /\ forall s', exec fuel o s = Some s' -> ops_ok fuel os s'
  end.

(** ** What the callers owe can be tested *)

Lemma exists_lookup_dec {A} (m : gmap Z A) (t : Z) (P : A -> Prop) `{!forall x, Decision (P x)} :
  Decision (exists x, m !! t = Some x /\ P x).
Proof.
  destruct (m !! t) as [x|]; [|right; by intros (? & ? & _)].
  destruct (decide (P x)); [left; by exists x|right]. by intros (? & [= <-] & ?).
Defined.

#[export] Instance live_dec c t : Decision (live c t).
Proof. apply exists_lookup_dec. intros x. apply _. Defined.

#[export] Instance frame_dec : EqDecision frame.
Proof. solve_decision. Defined.

#[export] Instance joined_dec s t : Decision (joined s t).
Proof.
  destruct (decide (map_Exists (fun _ f => f = FJoin t) (frames s))) as [H|H].
  - left. destruct H as (j & f & Hj & ->). by exists j.
  - right. intros (j & Hj). apply H. by exists j, (FJoin t).
Defined.

#[export] Instance spare_ref_dec s t : Decision (spare_ref s t).
Proof. apply exists_lookup_dec. intros x. apply _. Defined.

#[export] Instance poll_live_dec c but p : Decision (poll_live c but p).
Proof. unfold poll_live. apply _. Defined.

#[export] Instance polls_live_dec c but ps : Decision (polls_live c but ps).
Proof. unfold polls_live. apply _. Defined.

#[export] Instance calling_dec s : Decision (calling s).
Proof. unfold calling. apply _. Defined.

Definition sleeps_at (node : Z) (f : frame) : bool :=
  match f with FSleep n _ => Z.eqb n node | FJoin _ => false end.

Lemma no_sleeper_dec (fs : gmap Z frame) node :
  Decision (forall j n lm, fs !! j = Some (FSleep n lm) -> n <> node).
Proof.
  destruct (decide (map_Forall (fun _ f => sleeps_at node f = false) fs)) as [H|H]; [left|right].
  - intros j n lm Hj. by apply Z.eqb_neq, (H j _ Hj).
  - intros H'. apply H. intros j [n lm|t] Hj; [by apply Z.eqb_neq, (H' j n lm)|done].
Defined.

#[export] Instance op_ok_dec o s : Decision (op_ok o s).
Proof.
  destruct o; simpl; try apply _.
  - apply and_dec; [apply _|]. apply exists_lookup_dec. intros x. apply _.
  - do 6 (apply and_dec; [apply _|]). apply no_sleeper_dec.
Defined.

Fixpoint ops_okb (fuel : nat) (os : list op) (s : Sys) : bool :=
  match os with
  | [] => true
  | o :: os => bool_decide (op_ok o s) &&
      match exec fuel o s with Some s => ops_okb fuel os s | None => true end
  end.

Lemma ops_okb_ok fuel os s : ops_okb fuel os s = true -> ops_ok fuel os s.
Proof.
  revert s. induction os as [|o os IH]; intros s; simpl; [done|].
  intros [H1 H2]%andb_true_iff. split; [by apply bool_decide_eq_true in H1|].
  intros s' E. rewrite E in H2. by apply IH.
Qed.
