(* ===== verification/TasksSpec.v ===== *)
(** * Tasks at work: the invariant of every step *)
From stdpp Require Import sorting.
From S2P Require Import Prelude CInt RBTree RBTreeShape RBTreeSpec RBTreeCached List Sched SchedSpec SchedRun Tasks.

(** ** The invariant *)

(** The frames are those of live tasks; a timer node is the local of the task
    that it names; the task that is joined knows its joiner and is referenced. *)
Record frames_ok (fs : gmap Z frame) (c : Ctx) (run wait sl : list Z) : Prop := {
  fo_live : forall j f, fs !! j = Some f -> j ∈ run ++ wait;
  fo_sleep : forall j node lm, fs !! j = Some (FSleep node lm) -> node ∈ sl /\
    exists n, timer_nodes c !! node = Some n /\ tn_task n = j;
  fo_node : forall node n, node ∈ sl -> timer_nodes c !! node = Some n ->
    exists lm, fs !! tn_task n = Some (FSleep node lm);
  fo_join : forall j t, fs !! j = Some (FJoin t) -> exists x, tasks c !! t = Some x /\
    joiner x = j /\ (t ∈ run ++ wait -> 1 < ref_count x);
  fo_joiner : forall t x, tasks c !! t = Some x -> joiner x <> 0 -> t ∈ run ++ wait ->
    fs !! joiner x = Some (FJoin t);
}.

Record sys_ok (s : Sys) (run wait sl al : list Z) : Prop := {
  so_ctx : ctx_ok (sctx s) run wait sl al;
  so_frames : frames_ok (frames s) (sctx s) run wait sl;
  so_mode : match smode s with
            | Main => current_task (sctx s) = 0
            | InTask => current_task (sctx s) ∈ run
            | InPoll => run ++ wait <> []
            | Done => run ++ wait = []
            end;
}.

Definition ok (s : Sys) : Prop := exists run wait sl al, sys_ok s run wait sl al.

Lemma frames_ok_awoke fs c c' run wait run' wait' sl :
  frames_ok fs c run wait sl -> awoke c c' run wait run' wait' -> frames_ok fs c' run' wait' sl.
Proof.
  intros [Fl Fs Fn Fj Fr] A. pose proof (aw_perm _ _ _ _ _ _ A) as HP.
  pose proof (aw_frame _ _ _ _ _ _ A) as HF. pose proof (fr_nodes _ _ HF) as Hn.
  assert (Hin : forall x, x ∈ run' ++ wait' <-> x ∈ run ++ wait) by (intros x; by rewrite HP).
  constructor; rewrite ?Hn; try done.
  - intros j f Hj. apply Hin. by eapply Fl.
  - intros j t Hj. destruct (Fj j t Hj) as (x & Hx & Hjx & Hr).
    pose proof (fr_tasks _ _ HF t) as HF'. rewrite Hx in HF'.
    inversion HF' as [x0 x' (E1 & E2 & E3) E4 E5|]. subst. exists x'. rewrite Hin, E1, E2. done.
  - intros t x' Hx' Hj Ht. apply Hin in Ht.
    pose proof (fr_tasks _ _ HF t) as HF'. rewrite Hx' in HF'.
    inversion HF' as [x x0 (E1 & E2 & E3) E4 E5|]. subst. rewrite E1 in *. by apply Fr.
Qed.

(** Only the timer's nodes and the tasks matter. *)
Lemma frames_ok_ext fs c c' run wait sl :
  tasks c' = tasks c -> timer_nodes c' = timer_nodes c ->
  frames_ok fs c run wait sl -> frames_ok fs c' run wait sl.
Proof. intros E1 E2 []. by constructor; rewrite ?E1, ?E2. Qed.

Lemma frames_ok_perm fs c run wait run' wait' sl :
  run' ++ wait' ≡ₚ run ++ wait -> frames_ok fs c run wait sl -> frames_ok fs c run' wait' sl.
Proof.
  intros HP [Fl Fs Fn Fj Fr]. constructor; [|done|done|..].
  - intros j f Hj. rewrite HP. by eapply Fl.
  - intros j t Hj. setoid_rewrite HP. by apply Fj.
  - intros t x. rewrite HP. apply Fr.
Qed.

(** ** Enough turns *)

Lemma run_wait_nodup c run wait : sched_ok c run wait -> NoDup (run ++ wait).
Proof.
  intros H. apply NoDup_app. split_and!.
  - apply uniq_NoDup, (cached_rep_uniq _ _ (ok_tree _ _ _ H)).
  - intros x Hr Hw. apply (ok_run _ _ _ H) in Hr. apply (ok_wait _ _ _ H) in Hw.
    by pose proof (in_state_inj _ _ _ _ Hr Hw).
  - apply H.
Qed.

Lemma live_in c run wait t : sched_ok c run wait -> t ∈ run ++ wait <-> live c t.
Proof.
  intros H. rewrite elem_of_app, (ok_run _ _ _ H t), (ok_wait _ _ _ H t). unfold live, in_state.
  split; [intros [(x & ? & E)|(x & ? & E)]; exists x; by rewrite E|].
  intros (x & Hx & Hs). destruct (state x) eqn:E; [done|left|right]; by exists x.
Qed.

Lemma NoDup_dom_length {A} (m : gmap Z A) (l : list Z) :
  NoDup l -> (forall x, x ∈ l -> is_Some (m !! x)) -> (length l <= size m)%nat.
Proof.
  intros Hnd Hin. rewrite <- size_dom. rewrite <- (size_list_to_set (C := gset Z) l Hnd).
  apply subseteq_size. intros x Hx%elem_of_list_to_set. by apply elem_of_dom, Hin.
Qed.

Section ops.
Variable fuel : nat.

Definition room (c : Ctx) : Prop := (2 * size (tasks c) + 10 < fuel)%nat.

Lemma room_live c run wait : sched_ok c run wait -> room c -> enough fuel (run ++ wait).
Proof.
  intros H Hr. unfold enough, room in *.
  pose proof (NoDup_dom_length (tasks c) (run ++ wait) (run_wait_nodup _ _ _ H)) as Hl.
  assert (length (run ++ wait) <= size (tasks c))%nat; [|lia]. apply Hl.
  intros x (t & Ht & _)%(live_in _ _ _ _ H). by exists t.
Qed.

Lemma enough_app_l xs ys : enough fuel (xs ++ ys) -> enough fuel xs.
Proof. unfold enough. rewrite length_app. lia. Qed.

(** As many sleepers as frames, and no more frames than live tasks. *)
Lemma room_timer fs c run wait sl al :
  ctx_ok c run wait sl al -> frames_ok fs c run wait sl -> room c -> enough fuel sl.
Proof.
  intros H HF Hr. pose proof (room_live _ _ _ (ok_sched _ _ _ _ _ H) Hr) as Hl.
  set (task_of := fun a => default 0 (tn_task <$> timer_nodes c !! a)).
  assert (Hinj : forall a b, a ∈ sl -> b ∈ sl -> task_of a = task_of b -> a = b).
  { intros a b Ha Hb E. destruct (ok_nodes _ _ _ _ _ H a Ha) as (na & Hna & _).
    destruct (ok_nodes _ _ _ _ _ H b Hb) as (nb & Hnb & _). unfold task_of in E.
    rewrite Hna, Hnb in E. simpl in E.
    destruct (fo_node _ _ _ _ _ HF a na Ha Hna) as [la Ea].
    destruct (fo_node _ _ _ _ _ HF b nb Hb Hnb) as [lb Eb]. rewrite E in Ea. congruence. }
  assert (Hnd : NoDup sl) by apply uniq_NoDup, (cached_rep_uniq _ _ (ok_timer _ _ _ _ _ H)).
  assert (NoDup (task_of <$> sl)) as Hnd2.
  { clear - Hnd Hinj. induction Hnd as [|x l Hx Hl IH]; simpl; [constructor|]. constructor.
    - intros (y & E & Hy)%list_elem_of_fmap. apply Hx.
      rewrite (Hinj x y); [done|by left|by right|done].
    - apply IH. intros a b Ha Hb. apply Hinj; by right. }
  assert (length (task_of <$> sl) <= length (run ++ wait))%nat as Hlen.
  { apply submseteq_length, NoDup_submseteq; [done|]. intros t (a & -> & Ha)%list_elem_of_fmap.
    destruct (ok_nodes _ _ _ _ _ H a Ha) as (n & Hn & _ & Hin). unfold task_of. by rewrite Hn. }
  rewrite length_fmap in Hlen. unfold enough in *. lia.
Qed.

(** ** What every switch ends with *)

Lemma polls_ok c run wait but ps : sched_ok c run wait -> polls_live c but ps ->
  Forall (poll_ok run wait) ps.
Proof.
  intros H Hp. eapply Forall_impl; [exact Hp|]. intros p [He Hn]. split; [|done].
  eapply Forall_impl; [exact He|]. intros e [Hl _]. by apply (live_in _ _ _ _ H).
Qed.

Lemma after_pick c fs ps run wait sl al :
  ctx_ok c run wait sl al -> frames_ok fs c run wait sl -> Forall (poll_ok run wait) ps ->
  run ++ wait <> [] -> room c ->
  wp ('(c, _, b) ← hev_task_system_pick_current_task fuel ps c;
      Some (mkSys c fs (if (b : bool) then InTask else InPoll))) ok.
Proof.
  intros H HF Hps Hne Hr. pose proof (room_live _ _ _ (ok_sched _ _ _ _ _ H) Hr) as Hf.
  apply wp_bind. eapply wp_mono; [by apply (pick_ok fuel ps c run wait sl al)|].
  intros [[c' ps'] b] (c1 & r & w & A & H' & _ & Ht & Hn & Hb). apply wp_ret.
  exists r, w, sl, al. constructor; simpl; [done| |].
  - eapply (frames_ok_ext _ c1); [done| |by eapply frames_ok_awoke].
    rewrite Hn. symmetry. apply (fr_nodes _ _ (aw_frame _ _ _ _ _ _ A)).
  - destruct b.
    + destruct Hb as (x & rest & -> & ->). by left.
    + intros E. apply Hne. apply Permutation_nil_r. rewrite <- E. symmetry. apply A.
Qed.

Lemma after_type c fs ps run wait sl al :
  ctx_ok c run wait sl al -> frames_ok fs c run wait sl -> Forall (poll_ok run wait) ps -> room c ->
  wp ('(c, _, r) ←
        (if Z.eqb (total_task_count c) 0 then Some (set_current 0 c, ps, Exited) else
         '(c, ps, polled) ← hev_task_system_pick_current_task fuel ps c;
         Some (c, ps, if (polled : bool) then Switched else Polling));
      Some (mkSys c fs (mode_of r))) ok.
Proof.
  intros H HF Hps Hr. rewrite (ok_total _ _ _ _ _ H).
  destruct (Z.eqb_spec (Z.of_nat (length run + length wait)) 0) as [E|E].
  - apply wp_ret. exists run, wait, sl, al. constructor; simpl.
    + destruct H as [[] ]. by constructor.
    + by eapply frames_ok_ext; [..|exact HF].
    + apply length_zero_iff_nil. rewrite length_app. lia.
  - destruct (after_pick c fs ps run wait sl al) as (s & Hs & Hok); [done..| |done|].
    { intros E'. apply E. apply (f_equal length) in E'. rewrite length_app in E'. simpl in E'. lia. }
    apply bind_Some in Hs as ([[c' ps'] b] & Hp & [= <-]). exists (mkSys c' fs (if b then InTask else InPoll)).
    split; [|done]. rewrite Hp. by destruct b.
Qed.

(** The frames after an update of one task that keeps its joiner. *)
Lemma frames_ok_upd fs c run wait sl a t t' m :
  frames_ok fs c run wait sl -> tasks c !! a = Some t -> m = <[a := t']> (tasks c) ->
  joiner t' = joiner t -> (joined (mkSys c fs InTask) a -> a ∈ run ++ wait -> 1 < ref_count t') ->
  frames_ok fs (set_tasks m c) run wait sl.
Proof.
  intros [Fl Fs Fn Fj Fr] Ht -> Hjt Href. constructor; simpl; try done.
  - intros j u Hj. destruct (Fj j u Hj) as (x & Hx & Hjx & Hr).
    destruct (decide (u = a)) as [->|Hne]; [|exists x; by rewrite lookup_insert_ne].
    exists t'. rewrite lookup_insert_eq. rewrite Ht in Hx. injection Hx as <-.
    split_and!; [done|by rewrite Hjt|]. intros Hin. apply Href; [|done]. by exists j.
  - intros u x. destruct (decide (u = a)) as [->|Hne]; [|rewrite lookup_insert_ne by done; apply Fr].
    rewrite lookup_insert_eq. intros [= <-]. rewrite Hjt. by apply Fr.
Qed.

Lemma map_insert_existing {A} (m : gmap Z A) a x y : m !! a = Some x ->
  size (<[a := y]> m) = size m.
Proof. intros H. apply map_size_insert_Some. by exists x. Qed.

Lemma room_upd c a t t' : tasks c !! a = Some t -> room c -> room (set_tasks (<[a := t']> (tasks c)) c).
Proof. intros Ht. unfold room. simpl. by erewrite map_insert_existing. Qed.

(** ** The yields *)

Lemma switch_start_ok c fs ps run wait sl al :
  ctx_ok c run wait sl al -> frames_ok fs c run wait sl -> Forall (poll_ok run wait) ps -> room c ->
  wp (switch fuel HEV_TASK_RUN_SCHEDULER ps fs c) ok.
Proof. intros. by eapply after_type. Qed.

Lemma switch_yield_ok c fs ps run wait sl al :
  ctx_ok c run wait sl al -> frames_ok fs c run wait sl -> current_task c ∈ run ->
  Forall (poll_ok run wait) ps -> room c -> wp (switch fuel HEV_TASK_YIELD ps fs c) ok.
Proof.
  intros H HF Hcur Hps Hr. pose proof (room_live _ _ _ (ok_sched _ _ _ _ _ H) Hr) as Hf.
  destruct (yield_ok fuel c run wait sl al H Hcur (enough_app_l _ _ Hf))
    as (c' & Ec & ls & rs & ls' & rs' & t & Hrun & E & Ht & Htasks & H' & Hc' & Hn' & _).
  unfold switch, hev_task_system_schedule. rewrite Ec. cbn [mbind option_bind].
  assert (HP : (ls' ++ current_task c :: rs') ++ wait ≡ₚ run ++ wait).
  { by rewrite Hrun, <- !Permutation_middle, E. }
  eapply after_type.
  - exact H'.
  - eapply frames_ok_perm; [exact HP|].
    eapply (frames_ok_ext _ (set_tasks (tasks c') c)); [done|done|].
    eapply frames_ok_upd; [done|exact Ht|exact Htasks|done|]. simpl.
    intros [j Hj] Hin. destruct (fo_join _ _ _ _ _ HF j _ Hj) as (x & Hx & _ & Href).
    rewrite Ht in Hx. injection Hx as <-. by apply Href.
  - eapply Forall_impl; [exact Hps|]. intros p. by apply poll_ok_perm.
  - unfold room. rewrite Htasks. by erewrite map_insert_existing.
Qed.

Lemma switch_wait_ok c fs ps run wait sl al :
  ctx_ok c run wait sl al -> frames_ok fs c run wait sl -> current_task c ∈ run ->
  Forall (poll_ok run wait) ps -> room c -> wp (switch fuel HEV_TASK_WAITIO ps fs c) ok.
Proof.
  intros H HF Hcur Hps Hr. pose proof (room_live _ _ _ (ok_sched _ _ _ _ _ H) Hr) as Hf.
  destruct (task_wait_ok fuel c run wait sl al H Hcur (enough_app_l _ _ Hf))
    as (c' & Ec & ls & rs & t & Hrun & Ht & Htasks & H' & Hc' & Hn').
  unfold switch, hev_task_system_schedule. rewrite Ec. cbn [mbind option_bind].
  assert (HP : (ls ++ rs) ++ current_task c :: wait ≡ₚ run ++ wait).
  { by rewrite Hrun, <- !Permutation_middle. }
  eapply after_type.
  - exact H'.
  - eapply frames_ok_perm; [exact HP|].
    eapply (frames_ok_ext _ (set_tasks (tasks c') c)); [done|done|].
    eapply frames_ok_upd; [done|exact Ht|exact Htasks|done|]. simpl.
    intros [j Hj] Hin. destruct (fo_join _ _ _ _ _ HF j _ Hj) as (x & Hx & _ & Href).
    rewrite Ht in Hx. injection Hx as <-. by apply Href.
  - eapply Forall_impl; [exact Hps|]. intros p. by apply poll_ok_perm.
  - unfold room. rewrite Htasks. by erewrite map_insert_existing.
Qed.

(** A task without a frame ends. *)
Lemma switch_remove_ok c fs ps run wait sl al :
  ctx_ok c run wait sl al -> frames_ok fs c run wait sl -> current_task c ∈ run ->
  fs !! current_task c = None -> polls_live c (current_task c) ps -> room c ->
  wp (switch fuel HEV_TASK_SCHED_REMOVE ps fs c) ok.
Proof.
  intros H HF Hcur Hfr Hps Hr. pose proof (ok_sched _ _ _ _ _ H) as HS.
  pose proof (room_live _ _ _ HS Hr) as Hf.
  destruct (task_stop_ok fuel c run wait sl al H Hcur (enough_app_l _ _ Hf))
    as (c' & Ec & ls & rs & t & al' & Hrun & Ht & Htasks & H' & Hc' & Hn').
  { intros a n Ha Hn E. destruct (fo_node _ _ _ _ _ HF a n Ha Hn) as [lm El]. congruence. }
  set (cur := current_task c) in *.
  unfold switch, hev_task_system_schedule. rewrite Ec. cbn [mbind option_bind].
  pose proof (run_wait_nodup _ _ _ HS) as Hnd.
  assert (HP : run ++ wait ≡ₚ cur :: (ls ++ rs) ++ wait).
  { by rewrite Hrun, <- Permutation_middle. }
  assert (Hnd' : NoDup (cur :: (ls ++ rs) ++ wait)) by by rewrite <- HP.
  apply NoDup_cons in Hnd' as [Hni _].
  assert (Hin : forall x, x ∈ run ++ wait -> x <> cur -> x ∈ (ls ++ rs) ++ wait).
  { intros x. rewrite HP. by intros [->|?]%elem_of_cons. }
  assert (Hin' : forall x, x ∈ (ls ++ rs) ++ wait -> x ∈ run ++ wait /\ x <> cur).
  { intros x Hx. split; [rewrite HP; by right|by intros ->]. }
  assert (Hother : forall x tx, tasks c' !! x = Some tx -> x <> cur -> tasks c !! x = Some tx).
  { intros x tx. rewrite Htasks. unfold dropped. intros Hx Hne. revert Hx.
    destruct (decide _); by rewrite ?lookup_delete_ne, ?lookup_insert_ne. }
  eapply after_type.
  - exact H'.
  - destruct HF as [Fl Fs Fn Fj Fr]. constructor; rewrite ?Hn'; try done.
    + intros j f Hj. apply Hin; [by eapply Fl|]. intros ->. by rewrite Hfr in Hj.
    + intros j u Hj. destruct (Fj j u Hj) as (x & Hx & Hjx & Href).
      destruct (decide (u = cur)) as [->|Hne].
      * rewrite Ht in Hx. injection Hx as <-. specialize (Href ltac:(rewrite HP; by left)).
        exists (with_ref (ref_count t - 1) (with_state HEV_TASK_STOPPED t)).
        split_and!; [|done|by intros ?]. rewrite Htasks. unfold dropped. simpl.
        rewrite decide_False by lia. by rewrite lookup_insert_eq.
      * exists x. split_and!; [|done|intros Hu; by apply Href, Hin'].
        rewrite Htasks. unfold dropped.
        destruct (decide _); by rewrite ?lookup_delete_ne, ?lookup_insert_ne.
    + intros u x Hx Hj Hu. apply Hin' in Hu as [Hu Hne]. apply Fr; [by apply Hother|done|done].
  - eapply Forall_impl; [exact Hps|]. intros p [He Hn]. split; [|done].
    eapply Forall_impl; [exact He|]. intros e [Hl Hne]. apply Hin; [by apply (live_in _ _ _ _ HS)|done].
  - unfold room in *. rewrite Htasks. unfold dropped.
    assert (size (<[cur:=with_state HEV_TASK_STOPPED t]> (tasks c)) = size (tasks c)) as E
      by by erewrite map_insert_existing.
    destruct (decide _).
    + rewrite map_size_delete_Some by (rewrite lookup_insert_eq; by eexists). lia.
    + erewrite map_insert_existing by apply lookup_insert_eq. lia.
Qed.
End ops.
