(* ===== verification/TasksOps.v ===== *)
(** * Tasks at work: every call keeps the invariant *)
From stdpp Require Import sorting.
From S2P Require Import Prelude CInt RBTree RBTreeShape RBTreeSpec RBTreeCached List Sched SchedSpec SchedRun Tasks TasksSpec.

Section ops.
Variable fuel : nat.

(** ** Calls that switch nothing *)

(** A call that leaves the current task and the mode keeps the rest. *)
Lemma stay_ok s c' run wait sl al run' wait' sl' al' :
  sys_ok s run wait sl al -> ctx_ok c' run' wait' sl' al' ->
  frames_ok (frames s) c' run' wait' sl' -> current_task c' = current_task (sctx s) ->
  (smode s = InTask -> current_task (sctx s) ∈ run -> current_task (sctx s) ∈ run') ->
  (smode s = Main \/ calling s) -> ok (stay s c').
Proof.
  intros H Hc HF Hcur Hin Hm. exists run', wait', sl', al'. constructor; simpl; [done|done|].
  pose proof (so_mode _ _ _ _ _ H) as Hmode.
  destruct Hm as [Hm|[Hm _]]; rewrite Hm in *; rewrite Hcur; [done|by apply Hin].
Qed.

Lemma new_ctx_ok c run wait sl al a :
  ctx_ok c run wait sl al -> tasks c !! a = None -> addr_ok a ->
  wp (hev_task_new a true c) (fun '(c', r) => r = a /\ ctx_ok c' run wait sl (al ++ [a]) /\
    tasks c' = <[a := mkTask 0 0 1 0 HEV_TASK_PRIORITY_DEFAULT HEV_TASK_STOPPED]> (tasks c) /\
    timer_nodes c' = timer_nodes c /\ current_task c' = current_task c).
Proof.
  intros H Hfresh Ha. pose proof (ok_sched _ _ _ _ _ H) as HS.
  unfold hev_task_new. simpl. apply wp_bind.
  assert (Hnal : a ∉ al).
  { intros Hin. apply (ok_all_in _ _ _ _ _ H) in Hin as [x Hx]. congruence. }
  assert (Hnr : a ∉ run).
  { intros Hin. apply (ok_run _ _ _ HS) in Hin as (x & Hx & _). congruence. }
  set (L := mkList _ _ _).
  assert (HL : dll L al).
  { destruct (ok_all _ _ _ _ _ H) as (H1 & H2 & H3 & H4). split_and!; try done. simpl.
    eapply seg_frame; [|exact H3]. intros b Hb. apply lookup_insert_ne. by intros ->. }
  eapply wp_mono.
  { apply (add_tail_ok L al a HL); [apply Ha|done|]. simpl. rewrite lookup_insert_eq. by eexists. }
  intros L' [HL' _]. apply wp_ret. split; [done|].
  set (t := mkTask _ _ _ _ _ _).
  assert (Hst : forall st b, st <> HEV_TASK_STOPPED ->
    in_state (tasks c) st b <-> in_state (<[a := t]> (tasks c)) st b).
  { intros st b Hne. rewrite in_state_insert. simpl. split.
    - intros Hb. right. split; [|done]. intros ->. destruct Hb as (x & Hx & _). congruence.
    - intros [[_ E]|[_ Hb]]; [by rewrite E in Hne|done]. }
  destruct (cached_alloc_ok _ _ a Hnr (ok_tree _ _ _ HS)) as [Htree Hcell].
  split_and!; try done. destruct H. constructor; simpl; try done.
  - constructor; simpl.
    + done.
    + eapply key_le_ext; [|apply HS]. intros x Hx. apply skey_insert_ne. by intros ->.
    + intros b. rewrite (ok_run _ _ _ HS b). by apply Hst.
    + intros b. rewrite (ok_wait _ _ _ HS b). by apply Hst.
    + apply HS.
    + apply map_Forall_insert_2.
      * constructor; simpl; [done|done|lia|by unfold prio_ok|lia].
      * intros b tb Hb. apply (task_ok_tree (running_tasks c)); [by apply HS|].
        simpl. rewrite lookup_insert_is_Some. destruct (decide (a = b)); [by left|right].
        split; [done|]. by apply (ok_tasks _ _ _ HS b tb Hb).
    + intros b tb. destruct (decide (b = a)) as [->|Hne].
      * rewrite lookup_insert_eq. by intros [= <-].
      * rewrite lookup_insert_ne by done. apply HS.
    + apply HS.
  - intros b. rewrite elem_of_app, list_elem_of_singleton, lookup_insert_is_Some, ok_all_in.
    destruct (decide (a = b)); naive_solver.
Qed.

Lemma frames_ok_new fs c c' run wait sl a t :
  frames_ok fs c run wait sl -> tasks c !! a = None -> joiner t = 0 ->
  tasks c' = <[a := t]> (tasks c) -> timer_nodes c' = timer_nodes c ->
  frames_ok fs c' run wait sl.
Proof.
  intros [Fl Fs Fn Fj Fr] Hfresh Hj Ht Hn. constructor; rewrite ?Hn; try done.
  - intros j u Hju. destruct (Fj j u Hju) as (x & Hx & Hr). exists x. split; [|done].
    rewrite Ht, lookup_insert_ne; [done|]. intros ->. congruence.
  - intros u x. rewrite Ht. destruct (decide (u = a)) as [->|Hne].
    + rewrite lookup_insert_eq. by intros [= <-] ?.
    + rewrite lookup_insert_ne by done. apply Fr.
Qed.

Lemma set_tasks_nodes m c : timer_nodes (set_tasks m c) = timer_nodes c.
Proof. done. Qed.

(** An update of references or of the next priority. *)
Lemma upd_call_ok s run wait sl al a t f :
  sys_ok s run wait sl al -> (smode s = Main \/ calling s) -> tasks (sctx s) !! a = Some t ->
  state (f t) = state t -> sched_key (f t) = sched_key t -> joiner (f t) = joiner t ->
  task_ok (running_tasks (sctx s)) a (f t) ->
  (joined s a -> a ∈ run ++ wait -> 1 < ref_count (f t)) ->
  wp (c ← upd_task a f (sctx s); Some (stay s c)) ok.
Proof.
  intros H Hm Ht Hst Hk Hj Hok Href. apply wp_bind. eapply upd_task_ok; [done|]. apply wp_ret.
  eapply stay_ok; [exact H| | |done|done|done].
  - eapply ctx_ok_upd; [apply H|done..].
  - eapply frames_ok_upd; [apply H|exact Ht|done|done|exact Href].
Qed.

Lemma joined_ref s run wait sl al a t :
  sys_ok s run wait sl al -> tasks (sctx s) !! a = Some t ->
  joined s a -> a ∈ run ++ wait -> 1 < ref_count t.
Proof.
  intros H Ht [j Hj] Hin. destruct (fo_join _ _ _ _ _ (so_frames _ _ _ _ _ H) j a Hj) as (x & Hx & _ & Hr).
  rewrite Ht in Hx. injection Hx as <-. by apply Hr.
Qed.

Lemma so_tok s run wait sl al a t : sys_ok s run wait sl al -> tasks (sctx s) !! a = Some t ->
  task_ok (running_tasks (sctx s)) a t.
Proof. intros H. apply (ok_tasks _ _ _ (ok_sched _ _ _ _ _ (so_ctx _ _ _ _ _ H)) a). Qed.

Lemma ref_call_ok s run wait sl al t :
  sys_ok s run wait sl al -> op_ok (ORef t) s -> wp (exec fuel (ORef t) s) ok.
Proof.
  intros H [Hm [x Hx]]. eapply upd_call_ok; [exact H|done|exact Hx|done|done|done|..].
  - pose proof (so_tok _ _ _ _ _ _ _ H Hx) as []. constructor; try done. simpl. lia.
  - intros Hj Hin. pose proof (joined_ref _ _ _ _ _ _ _ H Hx Hj Hin). simpl. lia.
Qed.

Lemma set_priority_call_ok s run wait sl al t p :
  sys_ok s run wait sl al -> op_ok (OSetPriority t p) s -> wp (exec fuel (OSetPriority t p) s) ok.
Proof.
  intros H [Hm [x Hx]]. eapply upd_call_ok; [exact H|done|exact Hx|done|done|done|..].
  - pose proof (so_tok _ _ _ _ _ _ _ H Hx) as []. constructor; try done. simpl.
    unfold prio_ok, HEV_TASK_PRIORITY_MIN, HEV_TASK_PRIORITY_MAX. case_Z.
  - intros Hj Hin. by apply (joined_ref _ _ _ _ _ _ _ H Hx Hj Hin).
Qed.

Lemma unref_call_ok s run wait sl al t :
  sys_ok s run wait sl al -> op_ok (OUnref t) s -> wp (exec fuel (OUnref t) s) ok.
Proof.
  intros H (Hm & x & Hx & Hl & Hj & Hlj). pose proof (so_ctx _ _ _ _ _ H) as HC.
  pose proof (ok_sched _ _ _ _ _ HC) as HS. simpl.
  destruct (decide (state x = HEV_TASK_STOPPED)) as [Hst|Hst].
  - apply wp_bind. eapply wp_mono; [by apply (unref_stopped_ok _ run wait sl al t x)|].
    intros c' (al' & H' & Ht & Hc & Hn). apply wp_ret.
    assert (Hni : t ∉ run ++ wait).
    { intros (y & Hy & Hsy)%(live_in _ _ _ _ HS). congruence. }
    eapply stay_ok; [exact H|exact H'| |done|done|done].
    destruct (so_frames _ _ _ _ _ H) as [Fl Fs Fn Fj Fr]. constructor; rewrite ?Hn; try done.
    + intros j u Hju. destruct (Fj j u Hju) as (y & Hy & Hjy & Hr). rewrite Ht. unfold dropped.
      destruct (decide (u = t)) as [->|Hne].
      * rewrite Hx in Hy. injection Hy as <-. rewrite decide_False by (specialize (Hj ltac:(by exists j)); lia).
        eexists. rewrite lookup_insert_eq. by split_and!.
      * exists y. split; [|done]. destruct (decide _); by rewrite ?lookup_delete_ne, ?lookup_insert_ne.
    + intros u y Hy Hjy Hin. apply Fr; [|done|done]. revert Hy. rewrite Ht. unfold dropped.
      assert (u <> t) by by intros ->.
      destruct (decide _); by rewrite ?lookup_delete_ne, ?lookup_insert_ne.
  - specialize (Hl Hst). unfold hev_task_unref. apply wp_bind.
    assert (E : (c ← upd_task t (fun t => with_ref (ref_count t - 1) t) (sctx s);
      t0 ← tasks c !! t; if negb (ref_count t0 =? 0) then Some c
        else l ← hev_list_del (all_tasks c) t; Some (task_free t (set_all l c)))
      = Some (set_tasks (<[t := with_ref (ref_count x - 1) x]> (tasks (sctx s))) (sctx s))).
    { unfold upd_task. rewrite Hx. simpl. rewrite lookup_insert_eq. simpl.
      by rewrite (proj2 (Z.eqb_neq _ 0)) by lia. }
    rewrite E. apply wp_ret. apply wp_ret.
    eapply stay_ok; [exact H| | |done|done|done].
    + eapply ctx_ok_upd; [exact HC|exact Hx|done|done|].
      pose proof (so_tok _ _ _ _ _ _ _ H Hx) as []. constructor; try done. simpl. lia.
    + eapply frames_ok_upd; [apply H|exact Hx|done|done|]. simpl. intros Hjd _.
      specialize (Hlj Hst Hjd). lia.
Qed.

(** ** Starting and waking tasks *)

(** A stopped task as [hev_task_run] puts it into the tree. *)
Definition started_task (base : Z) (t : HevTask) : HevTask :=
  mkTask (u64 (u64 (next_priority t) + base)) (joiner t) (ref_count t) (next_priority t)
    (next_priority t) HEV_TASK_RUNNING.

(** What the context knows of a task that is made ready. *)
Lemma start_ctx_ok c run wait sl al a t t' :
  ctx_ok c run wait sl al -> tasks c !! a = Some t -> state t = HEV_TASK_STOPPED ->
  task_ok (running_tasks c) a t' -> state t' = HEV_TASK_RUNNING -> enough fuel run ->
  wp (c ← _hev_task_system_insert_task fuel a (set_tasks (<[a := t']> (tasks c)) c);
      c ← Some (set_counts (total_task_count c) (running_task_count c + 1) c);
      Some (set_counts (total_task_count c + 1) (running_task_count c) c))
    (fun c' => exists ls rs, run = ls ++ rs /\ ctx_ok c' (ls ++ a :: rs) wait sl al /\
      tasks c' = <[a := t']> (tasks c) /\ timer_nodes c' = timer_nodes c /\
      current_task c' = current_task c /\
      (forall x, x ∈ rs -> sched_key t' < skey (tasks c) x)).
Proof.
  intros H Ht Hst Htok Hst' Hf. pose proof (ok_sched _ _ _ _ _ H) as HS.
  assert (Hni : forall st, st <> HEV_TASK_STOPPED -> ~ in_state (tasks c) st a).
  { intros st Hne (y & Hy & E). congruence. }
  assert (Hnr : a ∉ run) by (rewrite (ok_run _ _ _ HS a); by apply Hni).
  assert (Hkeys : forall x, x ∈ run -> skey (<[a := t']> (tasks c)) x = skey (tasks c) x).
  { intros x Hx. apply skey_insert_ne. by intros ->. }
  apply wp_bind. eapply wp_mono.
  { apply (insert_raw_ok fuel _ run a t'); simpl; try done.
    - apply HS.
    - eapply key_le_ext; [exact Hkeys|apply HS].
    - intros x Hx. rewrite lookup_insert_ne by (by intros ->).
      apply (ok_run _ _ _ HS) in Hx. by eapply in_state_exists.
    - apply lookup_insert_eq. }
  intros c2 (T & ls & rs & -> & -> & Hrep & Hord & _ & Hrs & Hfr). simpl in *. apply wp_ret.
  exists ls, rs. split_and!; try done.
  2: { intros x Hx. rewrite <- (Hkeys x) by set_solver. by apply Hrs. }
  destruct H. constructor; simpl; try done.
  - constructor; simpl; try done; [..|rewrite (ok_running _ _ _ HS), !length_app; simpl; lia].
    + intros b. rewrite in_state_insert, Hst', elem_of_app, elem_of_cons.
      rewrite <- (ok_run _ _ _ HS b), elem_of_app. destruct (decide (b = a)); naive_solver.
    + intros b. rewrite in_state_insert, Hst', <- (ok_wait _ _ _ HS b). split.
      * intros Hb. right. split; [|done]. intros ->. apply (ok_wait _ _ _ HS) in Hb. by apply (Hni HEV_TASK_WAITING).
      * by intros [[_ E]|[_ ?]].
    + apply HS.
    + intros b tb Hb. assert (Hbok : task_ok (running_tasks c) b tb).
      { revert Hb. destruct (decide (b = a)) as [->|Hne];
          [rewrite lookup_insert_eq; by intros [= <-]|rewrite lookup_insert_ne by done; apply HS]. }
      apply (task_ok_tree (running_tasks c)); [done|].
      destruct (decide (b ∈ ls ++ a :: rs)); [by eapply rb_rep_cell; [apply Hrep|]|].
      rewrite Hfr by done. apply Hbok.
    + intros b tb. destruct (decide (b = a)) as [->|Hne];
        [rewrite lookup_insert_eq; intros [= <-]; by rewrite Hst'|rewrite lookup_insert_ne by done; apply HS].
  - rewrite ok_total, !length_app. simpl. lia.
  - intros b Hb. destruct (ok_nodes b Hb) as (n & Hn & Htm & Hin). exists n. split_and!; [done|done|].
    rewrite !elem_of_app, elem_of_cons in *. tauto.
  - by eapply all_in_insert.
Qed.

Lemma run_new_ok c run wait sl al a t :
  ctx_ok c run wait sl al -> tasks c !! a = Some t -> state t = HEV_TASK_STOPPED -> enough fuel run ->
  wp (hev_task_run fuel a c) (fun c' => exists ls rs t', run = ls ++ rs /\
    ctx_ok c' (ls ++ a :: rs) wait sl al /\ tasks c' = <[a := t']> (tasks c) /\
    joiner t' = joiner t /\ next_priority t' = next_priority t /\ priority t' = next_priority t /\
    state t' = HEV_TASK_RUNNING /\
    sched_key t' = (if Z.eqb (current_task c) 0 then u64 (next_priority t)
                    else u64 (u64 (next_priority t) + head_key (tasks c) run)) /\
    timer_nodes c' = timer_nodes c /\ current_task c' = current_task c /\
    (forall x, x ∈ rs -> sched_key t' < skey (tasks c) x)).
Proof.
  intros H Ht Hst Hf. pose proof (ok_sched _ _ _ _ _ H) as HS.
  pose proof (ok_tasks _ _ _ HS a t Ht) as Htok.
  assert (Hnr : a ∉ run).
  { intros (y & Hy & E)%(ok_run _ _ _ HS). congruence. }
  unfold hev_task_run. rewrite Ht. simpl. rewrite decide_False by tauto.
  do 2 (apply wp_bind; eapply upd_task_ok; [try exact Ht; simpl; by apply lookup_insert_eq|]).
  simpl. rewrite insert_insert_eq. set (t1 := with_key _ _). set (c1 := set_tasks _ c).
  unfold hev_task_system_run_new_task. simpl. apply wp_bind.
  assert (Hmin : hev_task_system_get_min_sched_key (set_tasks (<[a := t1]> (tasks c)) c1)
    = Some (head_key (tasks c) run)).
  { unfold hev_task_system_get_min_sched_key. simpl.
    rewrite (cached_first_ok _ _ (ok_tree _ _ _ HS)).
    pose proof (min_key_ok _ _ _ HS) as Hm. unfold hev_task_system_get_min_sched_key in Hm.
    rewrite (cached_first_ok _ _ (ok_tree _ _ _ HS)) in Hm.
    destruct run as [|x r]; [done|]. simpl in *.
    rewrite lookup_insert_ne by (intros ->; apply Hnr; by left). exact Hm. }
  set (k := if Z.eqb (current_task c) 0 then u64 (next_priority t)
            else u64 (u64 (next_priority t) + head_key (tasks c) run)).
  eapply (wp_mono _ (fun c2 => c2 = set_tasks (<[a := with_key k t1]> (tasks c)) c)).
  { unfold k. destruct (Z.eqb (current_task c) 0); simpl; [by apply wp_ret|].
    rewrite Hmin. simpl. eapply upd_task_ok; [by simpl; apply lookup_insert_eq|]. simpl.
    by rewrite insert_insert_eq. }
  intros c2 ->. unfold hev_task_system_insert_task. apply wp_bind.
  do 2 (apply wp_bind; eapply upd_task_ok; [by simpl; apply lookup_insert_eq|]).
  simpl. rewrite !insert_insert_eq. set (t' := with_priority _ _).
  set (c3 := set_tasks _ _).
  pose proof (start_ctx_ok c run wait sl al a t t' H Ht Hst) as Hstart.
  destruct Hstart as (c' & E & ls & rs & Hrun & H' & Htasks & Hn & Hc & Hrs); [|done|done|].
  { destruct Htok. constructor; try done. unfold t', k. simpl. destruct (Z.eqb _ 0); apply u64_ok. }
  apply bind_Some in E as (c4 & E4 & E). apply bind_Some in E as (c5 & [= <-] & [= <-]).
  apply wp_bind. eexists. split; [exact E4|]. do 2 apply wp_ret.
  exists ls, rs, t'. split_and!; try done.
Qed.

Lemma run_call_ok s run wait sl al t :
  sys_ok s run wait sl al -> op_ok (ORun t) s -> room fuel (sctx s) -> wp (exec fuel (ORun t) s) ok.
Proof.
  intros H (Hm & x & Hx & Hj) Hr. pose proof (so_ctx _ _ _ _ _ H) as HC.
  pose proof (ok_sched _ _ _ _ _ HC) as HS. simpl. apply wp_bind.
  destruct (decide (state x = HEV_TASK_STOPPED)) as [Hst|Hst].
  - eapply wp_mono; [apply (run_new_ok _ run wait sl al t x HC Hx Hst)|].
    { eapply enough_app_l. by eapply room_live. }
    intros c' (ls & rs & t' & -> & H' & Ht & Hjt & _ & _ & Hst' & _ & Hn & Hc & _). apply wp_ret.
    specialize (Hj Hst). eapply stay_ok; [exact H|exact H'| |done|set_solver|done].
    assert (Hni : t ∉ (ls ++ rs) ++ wait).
    { intros (y & Hy & Hsy)%(live_in _ _ _ _ HS). congruence. }
    destruct (so_frames _ _ _ _ _ H) as [Fl Fs Fn Fj Fr].
    constructor; rewrite ?Hn; try done.
    + intros j f Hjf. specialize (Fl j f Hjf). rewrite !elem_of_app, elem_of_cons in *. tauto.
    + intros j u Hju. destruct (Fj j u Hju) as (y & Hy & Hjy & Hry).
      assert (Hne : u <> t).
      { intros ->. rewrite Hx in Hy. injection Hy as <-. rewrite Hj in Hjy. subst j.
        specialize (Fl _ _ Hju). apply (live_in _ _ _ _ HS) in Fl as (z & Hz & _).
        pose proof (tok_addr _ _ _ (ok_tasks _ _ _ HS 0 z Hz)) as [? _]. done. }
      exists y. rewrite Ht, lookup_insert_ne by done. split_and!; [done|done|].
      intros Hin. apply Hry. rewrite !elem_of_app, elem_of_cons in *. tauto.
    + intros u y. rewrite Ht. destruct (decide (u = t)) as [->|Hne].
      * rewrite lookup_insert_eq. intros [= <-] Hjy. congruence.
      * rewrite lookup_insert_ne by done. intros Hy Hjy Hin. apply Fr; [done|done|].
        rewrite !elem_of_app, elem_of_cons in *. tauto.
  - unfold hev_task_run. rewrite Hx. simpl. rewrite decide_True by done. apply wp_ret. apply wp_ret.
    eapply stay_ok; [exact H|exact HC|apply H|done|done|done].
Qed.

Lemma wakeup_call_ok s run wait sl al t :
  sys_ok s run wait sl al -> op_ok (OWakeup t) s -> room fuel (sctx s) ->
  wp (exec fuel (OWakeup t) s) ok.
Proof.
  intros H (Hm & Hl) Hr. pose proof (so_ctx _ _ _ _ _ H) as HC.
  pose proof (ok_sched _ _ _ _ _ HC) as HS. simpl. apply wp_bind.
  eapply wp_mono; [apply (wakeup_awoke fuel _ run wait t HS)|].
  { by apply (live_in _ _ _ _ HS). }
  { by eapply room_live. }
  intros c' (r & w & A & _). apply wp_ret.
  eapply stay_ok; [exact H|by eapply ctx_ok_awoke|by eapply frames_ok_awoke; [apply H|]| |..|done].
  - apply (fr_current _ _ (aw_frame _ _ _ _ _ _ A)).
  - intros _ Hin. eapply sublist_in; [apply A|done].
Qed.

(** ** Calls that yield *)

Lemma calling_run s run wait sl al : sys_ok s run wait sl al -> calling s ->
  current_task (sctx s) ∈ run.
Proof. intros H [Hm _]. pose proof (so_mode _ _ _ _ _ H) as Hmode. by rewrite Hm in Hmode. Qed.

Lemma yield_call_ok s run wait sl al io ps :
  sys_ok s run wait sl al -> op_ok (OYield io ps) s -> room fuel (sctx s) ->
  wp (exec fuel (OYield io ps) s) ok.
Proof.
  intros H [Hc Hps] Hr. pose proof (so_ctx _ _ _ _ _ H) as HC.
  pose proof (calling_run _ _ _ _ _ H Hc) as Hcur.
  pose proof (polls_ok _ _ _ _ _ (ok_sched _ _ _ _ _ HC) Hps) as Hps'. simpl.
  destruct io.
  - by eapply switch_wait_ok; [exact HC|apply H|..].
  - by eapply switch_yield_ok; [exact HC|apply H|..].
Qed.

(** The frame of a sleep is pushed, together with its node. *)
Lemma frames_ok_sleep fs c c' run wait sl sl' cur node lm n :
  frames_ok fs c run wait sl -> fs !! cur = None -> cur ∈ run ++ wait -> node ∉ sl ->
  (forall a, a ∈ sl' <-> a = node \/ a ∈ sl) ->
  timer_nodes c' = <[node := n]> (timer_nodes c) -> tn_task n = cur -> tasks c' = tasks c ->
  frames_ok (<[cur := FSleep node lm]> fs) c' run wait sl'.
Proof.
  intros [Fl Fs Fn Fj Fr] Hcur Hin Hni Hsl Hn Htn Ht. constructor; rewrite ?Ht.
  - intros j f. destruct (decide (j = cur)) as [->|Hne]; [done|].
    rewrite lookup_insert_ne by done. apply Fl.
  - intros j a l. rewrite Hsl, Hn. destruct (decide (j = cur)) as [->|Hne].
    + rewrite lookup_insert_eq. intros [= <- <-]. split; [by left|]. exists n.
      by rewrite lookup_insert_eq.
    + rewrite lookup_insert_ne by done. intros Hj. destruct (Fs j a l Hj) as (Ha & n' & En & Et).
      split; [by right|]. exists n'. rewrite lookup_insert_ne; [done|]. by intros <-.
  - intros a n' Ha. rewrite Hn. destruct (decide (a = node)) as [->|Hne].
    + rewrite lookup_insert_eq. intros [= <-]. exists lm. by rewrite Htn, lookup_insert_eq.
    + rewrite lookup_insert_ne by done. apply Hsl in Ha as [|Ha]; [done|]. intros En.
      destruct (Fn a n' Ha En) as [l E]. exists l. rewrite lookup_insert_ne; [done|].
      intros Ec. rewrite <- Ec in E. congruence.
  - intros j u. destruct (decide (j = cur)) as [->|Hne]; [by rewrite lookup_insert_eq|].
    rewrite lookup_insert_ne by done. apply Fj.
  - intros u x Hx Hj Hu. specialize (Fr u x Hx Hj Hu).
    rewrite lookup_insert_ne; [done|]. intros Ec. rewrite <- Ec in Fr. congruence.
Qed.

(** The frame of a join is pushed, and its task is told. *)
Lemma frames_ok_join fs c run wait sl cur t x :
  frames_ok fs c run wait sl -> fs !! cur = None -> cur ∈ run ++ wait ->
  0 ∉ run ++ wait -> tasks c !! t = Some x -> joiner x = 0 ->
  (t ∈ run ++ wait -> 1 < ref_count x) ->
  frames_ok (<[cur := FJoin t]> fs) (set_tasks (<[t := with_joiner cur x]> (tasks c)) c) run wait sl.
Proof.
  intros [Fl Fs Fn Fj Fr] Hcur Hin H0 Hx Hj0 Href. constructor; simpl.
  - intros j f. destruct (decide (j = cur)) as [->|Hne]; [done|].
    rewrite lookup_insert_ne by done. apply Fl.
  - intros j a l. destruct (decide (j = cur)) as [->|Hne]; [by rewrite lookup_insert_eq|].
    rewrite lookup_insert_ne by done. apply Fs.
  - intros a n Ha En. destruct (Fn a n Ha En) as [l E]. exists l. rewrite lookup_insert_ne; [done|].
    intros Ec. rewrite <- Ec in E. congruence.
  - intros j u. destruct (decide (j = cur)) as [->|Hne].
    + rewrite lookup_insert_eq. intros [= ->]. exists (with_joiner cur x).
      by rewrite lookup_insert_eq.
    + rewrite lookup_insert_ne by done. intros Hju. destruct (Fj j u Hju) as (y & Hy & Hjy & Hr).
      destruct (decide (u = t)) as [->|]; [|exists y; by rewrite lookup_insert_ne].
      rewrite Hx in Hy. injection Hy as <-. rewrite Hj0 in Hjy. subst j.
      by apply Fl in Hju.
  - intros u y Hy Hjy Hu. destruct (decide (u = t)) as [->|Hne].
    + rewrite lookup_insert_eq in Hy. injection Hy as <-. simpl. by rewrite lookup_insert_eq.
    + rewrite lookup_insert_ne in Hy by done. specialize (Fr u y Hy Hjy Hu).
      rewrite lookup_insert_ne; [done|]. intros Ec. rewrite <- Ec in Fr. congruence.
Qed.

(** The frame of the current task is popped. *)
Lemma frames_ok_pop fs c c' run wait sl sl' cur f :
  frames_ok fs c run wait sl -> fs !! cur = Some f -> tasks c' = tasks c ->
  match f with
  | FSleep node _ => (forall a, a ∈ sl' <-> a <> node /\ a ∈ sl) /\
      timer_nodes c' = delete node (timer_nodes c)
  | FJoin t => sl' = sl /\ timer_nodes c' = timer_nodes c /\ t ∉ run ++ wait
  end ->
  frames_ok (delete cur fs) c' run wait sl'.
Proof.
  intros [Fl Fs Fn Fj Fr] Hcur Ht Hf.
  assert (Hnodes : forall a n, a ∈ sl' -> timer_nodes c' !! a = Some n ->
    a ∈ sl /\ timer_nodes c !! a = Some n /\ fs !! cur <> Some (FSleep a (match f with FSleep _ l => l | _ => false end))).
  { intros a n Ha Hn. destruct f as [node lm|t].
    - destruct Hf as [Hsl Hn']. apply Hsl in Ha as [Hne Ha]. rewrite Hn', lookup_delete_ne in Hn by done.
      split_and!; [done|done|]. rewrite Hcur. intros [= E]. done.
    - destruct Hf as (-> & Hn' & _). rewrite Hn' in Hn. split_and!; [done|done|]. by rewrite Hcur. }
  constructor; rewrite ?Ht.
  - intros j g [_ Hj]%lookup_delete_Some. by eapply Fl.
  - intros j a l [Hne Hj]%lookup_delete_Some. destruct (Fs j a l Hj) as (Ha & n & En & Et).
    destruct f as [node lm|t].
    + destruct Hf as [Hsl Hn']. destruct (Fs cur node lm Hcur) as (_ & n0 & En0 & Et0).
      assert (a <> node) by (intros ->; congruence). split; [by apply Hsl|].
      exists n. by rewrite Hn', lookup_delete_ne.
    + destruct Hf as (-> & Hn' & _). split; [done|]. exists n. by rewrite Hn'.
  - intros a n Ha Hn. destruct (Hnodes a n Ha Hn) as (Hin & En & Hnf).
    destruct (Fn a n Hin En) as [l E]. exists l. rewrite lookup_delete_ne; [done|].
    intros Ec. rewrite <- Ec in E. rewrite Hcur in E. injection E as ->. done.
  - intros j u [_ Hj]%lookup_delete_Some. by apply Fj.
  - intros u x Hx Hj Hu. specialize (Fr u x Hx Hj Hu). rewrite lookup_delete_ne; [done|].
    intros Ec. rewrite <- Ec, Hcur in Fr. injection Fr as ->. by destruct Hf as (_ & _ & ?).
Qed.

Lemma sleep_call_ok s run wait sl al ms node now ps :
  sys_ok s run wait sl al -> op_ok (OSleep ms node now ps) s -> room fuel (sctx s) ->
  wp (exec fuel (OSleep ms node now ps) s) ok.
Proof.
  intros H (Hc & Hps & Hms & Hnz & Hal & Hnow & Hfresh) Hr. pose proof (so_ctx _ _ _ _ _ H) as HC.
  pose proof (so_frames _ _ _ _ _ H) as HF. pose proof (ok_sched _ _ _ _ _ HC) as HS.
  pose proof (calling_run _ _ _ _ _ H Hc) as Hcur.
  assert (Hin : current_task (sctx s) ∈ run ++ wait) by (apply elem_of_app; by left).
  simpl. unfold hev_task_sleep_begin. apply wp_bind.
  destruct (Z.eqb ms 0).
  { do 2 apply wp_ret. eapply stay_ok; [exact H|exact HC|exact HF|done|done|by right]. }
  assert (Hni : node ∉ sl).
  { intros Hn. destruct (ok_nodes _ _ _ _ _ HC node Hn) as (n & E & _).
    destruct (fo_node _ _ _ _ _ HF node n Hn E) as [lm Ef]. by eapply Hfresh. }
  apply wp_bind. eapply wp_mono.
  { apply (timer_wait_begin_ok fuel now ms node (current_task (sctx s)) (sctx s) run wait sl al);
      try done. by eapply room_timer. }
  intros [c' lm] (ls & rs & -> & H' & _ & Hn & Ec). apply wp_ret.
  assert (Hcur' : current_task c' = current_task (sctx s)) by by rewrite Ec.
  assert (Htasks : tasks c' = tasks (sctx s)) by by rewrite Ec.
  eapply switch_wait_ok; [exact H'| | | |].
  - eapply frames_ok_sleep; [exact HF|apply Hc|exact Hin|exact Hni| |exact Hn|done|done].
    intros a. rewrite !elem_of_app, elem_of_cons. tauto.
  - by rewrite Hcur'.
  - by eapply polls_ok.
  - unfold room. by rewrite Htasks.
Qed.

Lemma zero_not_live c run wait : sched_ok c run wait -> 0 ∉ run ++ wait.
Proof.
  intros H (x & Hx & _)%(live_in _ _ _ _ H).
  by destruct (tok_addr _ _ _ (ok_tasks _ _ _ H 0 x Hx)).
Qed.

Lemma awoke_size c c' run wait run' wait' : awoke c c' run wait run' wait' ->
  size (tasks c') = size (tasks c).
Proof.
  intros A. pose proof (aw_frame _ _ _ _ _ _ A) as HFr.
  rewrite <- !size_dom. f_equal. apply set_eq. intros a. rewrite !elem_of_dom.
  pose proof (fr_tasks _ _ HFr a) as E. split; intros [x Hx]; rewrite Hx in E; inversion E; by eexists.
Qed.

Lemma awoke_room c c' run wait run' wait' : awoke c c' run wait run' wait' -> room fuel c -> room fuel c'.
Proof. intros A. unfold room. by rewrite (awoke_size _ _ _ _ _ _ A). Qed.

(** Waiting for a task that is alive: it is woken, and the caller waits. *)
Lemma join_wait_ok c fs run wait sl al t ps :
  ctx_ok c run wait sl al -> frames_ok fs c run wait sl -> current_task c ∈ run ->
  t ∈ run ++ wait -> Forall (poll_ok run wait) ps -> room fuel c ->
  wp (c ← hev_task_wakeup fuel t c; switch fuel HEV_TASK_WAITIO ps fs c) ok.
Proof.
  intros H HF Hcur Ht Hps Hr. pose proof (ok_sched _ _ _ _ _ H) as HS. apply wp_bind.
  eapply wp_mono; [apply (wakeup_awoke fuel _ run wait t HS Ht); by eapply room_live|].
  intros c' (r & w & A & _). pose proof (aw_frame _ _ _ _ _ _ A) as HFr.
  eapply switch_wait_ok.
  - by eapply ctx_ok_awoke.
  - by eapply frames_ok_awoke.
  - rewrite (fr_current _ _ HFr). eapply sublist_in; [apply A|done].
  - eapply Forall_impl; [exact Hps|]. intros p. apply poll_ok_perm, A.
  - by eapply awoke_room.
Qed.

Lemma join_call_ok s run wait sl al t ps :
  sys_ok s run wait sl al -> op_ok (OJoin t ps) s -> room fuel (sctx s) ->
  wp (exec fuel (OJoin t ps) s) ok.
Proof.
  intros H (Hc & Hps & x & Hx & Hl & _) Hr. pose proof (so_ctx _ _ _ _ _ H) as HC.
  pose proof (so_frames _ _ _ _ _ H) as HF. pose proof (ok_sched _ _ _ _ _ HC) as HS.
  pose proof (calling_run _ _ _ _ _ H Hc) as Hcur.
  assert (Hin : current_task (sctx s) ∈ run ++ wait) by (apply elem_of_app; by left).
  simpl. unfold hev_task_join. rewrite Hx. simpl.
  destruct (Z.eqb_spec (joiner x) 0) as [Hj|Hj]; simpl.
  2: { apply wp_ret. eapply stay_ok; [exact H|exact HC|exact HF|done|done|by right]. }
  unfold upd_task. rewrite Hx. simpl. unfold hev_task_self.
  set (cur := current_task (sctx s)) in *. set (c1 := set_tasks _ _).
  assert (Hx1 : tasks c1 !! t = Some (with_joiner cur x)) by apply lookup_insert_eq.
  assert (H1 : ctx_ok c1 run wait sl al).
  { eapply ctx_ok_upd; [exact HC|exact Hx|done|done|].
    pose proof (so_tok _ _ _ _ _ _ _ H Hx) as []. by constructor. }
  assert (Hr1 : room fuel c1) by by eapply room_upd.
  unfold join_turn, hev_task_get_state. rewrite Hx1. simpl.
  destruct (decide (state x = HEV_TASK_STOPPED)) as [Hst|Hst]; simpl.
  - apply wp_ret. eapply stay_ok; [exact H|exact H1| |done|done|by right].
    assert (Hni : t ∉ run ++ wait).
    { intros (y & Hy & Hsy)%(live_in _ _ _ _ HS). congruence. }
    destruct HF as [Fl Fs Fn Fj Fr]. constructor; try done.
    + intros j u Hju. destruct (Fj j u Hju) as (y & Hy & Hjy & Hry).
      destruct (decide (u = t)) as [->|Hne]; [|exists y; simpl; by rewrite lookup_insert_ne].
      rewrite Hx in Hy. injection Hy as <-. rewrite Hj in Hjy. subst j.
      by apply Fl, (zero_not_live _ _ _ HS) in Hju.
    + intros u y Hy Hjy Hu. assert (u <> t) by by intros ->.
      simpl in Hy. rewrite lookup_insert_ne in Hy by done. by apply Fr.
  - assert (Ht : t ∈ run ++ wait) by (apply (live_in _ _ _ _ HS); by exists x).
    destruct (join_wait_ok c1 (<[cur := FJoin t]> (frames s)) run wait sl al t ps H1)
      as (s' & E & Hok); [|exact Hcur|exact Ht|by eapply polls_ok|exact Hr1|].
    { apply frames_ok_join; [exact HF|apply Hc|exact Hin|by apply (zero_not_live _ _ _ HS)|done|done|].
      intros _. by apply Hl. }
    apply bind_Some in E as (c2 & E2 & E3). exists s'. split; [|done].
    rewrite E2. exact E3.
Qed.

Lemma resume_call_ok s run wait sl al now ps :
  sys_ok s run wait sl al -> op_ok (OResume now ps) s -> room fuel (sctx s) ->
  wp (exec fuel (OResume now ps) s) ok.
Proof.
  intros H (Hm & [f Hf] & Hps & Hnow) Hr. pose proof (so_ctx _ _ _ _ _ H) as HC.
  pose proof (so_frames _ _ _ _ _ H) as HF. pose proof (ok_sched _ _ _ _ _ HC) as HS.
  assert (Hcur : current_task (sctx s) ∈ run).
  { pose proof (so_mode _ _ _ _ _ H) as Hmode. by rewrite Hm in Hmode. }
  simpl. unfold resume. rewrite Hf. simpl. destruct f as [node lm|t].
  - destruct (fo_sleep _ _ _ _ _ HF _ _ _ Hf) as (Hin & n & Hn & Htn).
    destruct (list_elem_of_split _ _ Hin) as (ls & rs & ->). apply wp_bind.
    eapply wp_mono.
    { apply (timer_wait_end_ok fuel now node lm (sctx s) run wait ls rs al n HC Hn Hnow).
      - by eapply room_timer.
      - by eapply room_live. }
    intros [c' rest] (r & w & c1 & c2 & [T1 E1] & A & [T2 E2] & H' & _). apply wp_ret.
    pose proof (aw_frame _ _ _ _ _ _ A) as HFr.
    exists r, w, (ls ++ rs), al. constructor; simpl; [done| |].
    + assert (HF2 : frames_ok (frames s) c2 r w (ls ++ node :: rs)).
      { eapply frames_ok_awoke; [|exact A]. rewrite E1. by eapply frames_ok_ext; [..|exact HF]. }
      eapply frames_ok_pop; [exact HF2|exact Hf|by rewrite E2|]. split.
      * intros a. pose proof (cached_rep_uniq _ _ (ok_timer _ _ _ _ _ HC)) as Hu.
        assert (Hni : node ∉ ls ++ rs) by disj. rewrite elem_of_app in Hni.
        rewrite !elem_of_app, elem_of_cons. split; [|tauto]. intros Ha. split; [|tauto].
        intros E. rewrite E in Ha. tauto.
      * rewrite E2. simpl. f_equal. rewrite (fr_nodes _ _ HFr), E1. done.
    + rewrite E2. simpl. rewrite (fr_current _ _ HFr), E1. simpl.
      eapply sublist_in; [apply A|done].
  - destruct (fo_join _ _ _ _ _ HF _ _ Hf) as (x & Hx & Hjx & Href).
    unfold join_turn, hev_task_get_state. rewrite Hx. simpl.
    destruct (decide (state x = HEV_TASK_STOPPED)) as [Hst|Hst]; simpl.
    + apply wp_ret. exists run, wait, sl, al. constructor; simpl; [done| |done].
      eapply frames_ok_pop; [exact HF|exact Hf|done|]. split_and!; [done|done|].
      intros (y & Hy & Hsy)%(live_in _ _ _ _ HS). congruence.
    + assert (Ht : t ∈ run ++ wait) by (apply (live_in _ _ _ _ HS); by exists x).
      destruct (join_wait_ok (sctx s) (frames s) run wait sl al t ps HC HF Hcur Ht)
        as (s' & E & Hok); [by eapply polls_ok|done|].
      apply bind_Some in E as (c2 & E2 & E3). exists s'. split; [|done]. rewrite E2. exact E3.
Qed.

Lemma polls_awoke c c' run wait run' wait' but ps :
  sched_ok c run wait -> awoke c c' run wait run' wait' -> polls_live c but ps -> polls_live c' but ps.
Proof.
  intros H A Hp. eapply Forall_impl; [exact Hp|]. intros p [He Hn]. split; [|done].
  eapply Forall_impl; [exact He|]. intros e [Hl Hne]. split; [|done].
  apply (live_in _ _ _ _ H) in Hl. apply (live_in _ _ _ _ (aw_ok _ _ _ _ _ _ A)).
  by rewrite (aw_perm _ _ _ _ _ _ A).
Qed.

Lemma end_call_ok s run wait sl al ps :
  sys_ok s run wait sl al -> op_ok (OEnd ps) s -> room fuel (sctx s) -> wp (exec fuel (OEnd ps) s) ok.
Proof.
  intros H (Hc & Hps) Hr. pose proof (so_ctx _ _ _ _ _ H) as HC.
  pose proof (so_frames _ _ _ _ _ H) as HF. pose proof (ok_sched _ _ _ _ _ HC) as HS.
  pose proof (calling_run _ _ _ _ _ H Hc) as Hcur.
  assert (Hin : current_task (sctx s) ∈ run ++ wait) by (apply elem_of_app; by left).
  simpl. unfold executer_end. destruct (proj1 (ok_run _ _ _ HS _) Hcur) as (t & Ht & _).
  rewrite Ht. simpl. destruct (Z.eqb_spec (joiner t) 0) as [Hj|Hj]; simpl.
  - eapply switch_remove_ok; [exact HC|exact HF|exact Hcur|apply Hc|exact Hps|exact Hr].
  - pose proof (fo_joiner _ _ _ _ _ HF _ _ Ht Hj Hin) as Hfj.
    pose proof (fo_live _ _ _ _ _ HF _ _ Hfj) as Hjl. apply wp_bind.
    eapply wp_mono; [apply (wakeup_awoke fuel _ run wait _ HS Hjl); by eapply room_live|].
    intros c' (r & w & A & _). pose proof (fr_current _ _ (aw_frame _ _ _ _ _ _ A)) as Ecur.
    eapply switch_remove_ok.
    + by eapply ctx_ok_awoke.
    + by eapply frames_ok_awoke.
    + rewrite Ecur. eapply sublist_in; [apply A|done].
    + rewrite Ecur. apply Hc.
    + rewrite Ecur. by eapply polls_awoke.
    + by eapply awoke_room.
Qed.

(** ** Every call *)

Lemma exec_ok o s : ok s -> op_ok o s -> room fuel (sctx s) -> wp (exec fuel o s) ok.
Proof.
  intros (run & wait & sl & al & H) Ho Hr. pose proof (so_ctx _ _ _ _ _ H) as HC.
  pose proof (ok_sched _ _ _ _ _ HC) as HS. destruct o.
  - destruct Ho as (Hm & Hf & Ha). simpl. apply wp_bind. destruct stack_ok.
    + eapply wp_mono; [by apply (new_ctx_ok (sctx s) run wait sl al a)|].
      intros [c' r] (-> & H' & Ht & Hn & Hc). apply wp_ret.
      eapply stay_ok; [exact H|exact H'| |done|done|done].
      by eapply frames_ok_new; [apply H|exact Hf| |exact Ht|].
    + do 2 apply wp_ret. eapply stay_ok; [exact H|exact HC|apply H|done|done|done].
  - by eapply ref_call_ok.
  - by eapply unref_call_ok.
  - by eapply set_priority_call_ok.
  - by eapply run_call_ok.
  - by eapply wakeup_call_ok.
  - destruct Ho as [Hm Hps]. eapply switch_start_ok; [exact HC|apply H|by eapply polls_ok|done].
  - destruct Ho as [Hm Hps]. pose proof (so_mode _ _ _ _ _ H) as Hmode. rewrite Hm in Hmode.
    eapply after_pick; [exact HC|apply H|by eapply polls_ok|exact Hmode|done].
  - by eapply yield_call_ok.
  - by eapply sleep_call_ok.
  - by eapply join_call_ok.
  - by eapply resume_call_ok.
  - by eapply end_call_ok.
  - destruct Ho as [Hc Hps].
    eapply switch_remove_ok; [exact HC|apply H|by eapply calling_run|apply Hc|exact Hps|exact Hr].
Qed.
End ops.
