(* ===== verification/TasksSafe.v ===== *)
(** * Tasks at work: every sequence of calls keeps the invariant *)
From stdpp Require Import sorting.
From S2P Require Import Prelude CInt RBTree RBTreeShape RBTreeSpec RBTreeCached List Sched SchedSpec SchedRun Tasks TasksSpec TasksOps.

(** ** No call but [hev_task_new] makes a task *)

Definition no_more (c c' : Ctx) : Prop := dom (tasks c') ⊆ dom (tasks c).

#[export] Instance no_more_preorder : PreOrder no_more.
Proof. split; unfold no_more; [intros c; set_solver|]. intros c1 c2 c3. set_solver. Qed.

Lemma upd_task_no_more a f c c' : upd_task a f c = Some c' -> no_more c c'.
Proof.
  unfold upd_task. intros H. apply bind_Some in H as (t & Ht & [= <-]). unfold no_more. simpl.
  rewrite dom_insert. apply elem_of_dom_2 in Ht. set_solver.
Qed.

Lemma same_no_more c c' : tasks c' = tasks c -> no_more c c'.
Proof. unfold no_more. by intros ->. Qed.

Create HintDb no_more.
#[export] Hint Resolve upd_task_no_more : no_more.
#[export] Hint Extern 1 (no_more _ _) => (apply same_no_more; reflexivity) : no_more.

(** Opens an equation between a call and its result, and chains the steps. *)
Ltac open_call :=
  repeat match goal with
  | H : mbind _ _ = Some _ |- _ => apply bind_Some in H as (? & ? & H)
  | H : Some _ = Some _ |- _ => injection H; clear H; intros; subst
  | H : None = Some _ |- _ => discriminate H
  | H : (_, _) = (_, _) |- _ => injection H; clear H; intros; subst
  | H : (if ?b then _ else _) = Some _ |- _ => destruct b eqn:?; simpl in H
  | p : (_ * _)%type |- _ => destruct p
  | H : match ?x with _ => _ end = Some _ |- _ => destruct x; simpl in H
  end.

Section no_more.
Variable fuel : nat.

Lemma insert_raw_no_more t c c' : _hev_task_system_insert_task fuel t c = Some c' -> no_more c c'.
Proof. unfold _hev_task_system_insert_task. intros. open_call. eauto with no_more. Qed.

Lemma insert_no_more t c c' : hev_task_system_insert_task fuel t c = Some c' -> no_more c c'.
Proof.
  unfold hev_task_system_insert_task. intros H. open_call.
  etrans; [by eapply upd_task_no_more|]. etrans; [by eapply upd_task_no_more|].
  etrans; [by eapply insert_raw_no_more|]. by apply same_no_more.
Qed.

Lemma wakeup_no_more t c c' :
  hev_task_system_wakeup_task_with_context fuel t c = Some c' -> no_more c c'.
Proof.
  unfold hev_task_system_wakeup_task_with_context. intros H. open_call; [done|].
  etrans; [by eapply upd_task_no_more|]. by eapply insert_no_more.
Qed.

Lemma unref_no_more t c c' : hev_task_unref t c = Some c' -> no_more c c'.
Proof.
  unfold hev_task_unref. intros H. open_call.
  - by eapply upd_task_no_more.
  - etrans; [by eapply upd_task_no_more|]. unfold no_more. simpl. rewrite dom_delete. set_solver.
Qed.

Lemma timer_wakeup_no_more now c c' : hev_task_timer_wakeup fuel now c = Some c' -> no_more c c'.
Proof. unfold hev_task_timer_wakeup. intros H. open_call; try done. by eapply wakeup_no_more. Qed.

Lemma events_no_more es c c' : wakeup_events fuel es c = Some c' -> no_more c c'.
Proof.
  revert c. induction es as [|e es IH]; intros c H; simpl in H; open_call; [done|].
  etrans; [by eapply wakeup_no_more|]. by apply IH.
Qed.

Lemma io_poll_no_more p c c' : hev_task_system_io_poll fuel p c = Some c' -> no_more c c'.
Proof.
  unfold hev_task_system_io_poll, hev_task_timer_wake. intros H. open_call;
    (etrans; [by eapply events_no_more|]); [done|by eapply timer_wakeup_no_more].
Qed.

Lemma poll_loop_no_more ps c c' ps' b : poll_loop fuel ps c = Some (c', ps', b) -> no_more c c'.
Proof.
  revert c. induction ps as [|p ps IH]; intros c H; simpl in H; open_call; [done|..].
  - etrans; [by eapply io_poll_no_more|]. by apply IH.
  - by eapply io_poll_no_more.
Qed.

Lemma pick_no_more ps c c' ps' b :
  hev_task_system_pick_current_task fuel ps c = Some (c', ps', b) -> no_more c c'.
Proof.
  unfold hev_task_system_pick_current_task. intros H. open_call; try done.
  all: try (by eapply poll_loop_no_more); try (etrans; [by eapply io_poll_no_more|]); 
    try (etrans; [by eapply poll_loop_no_more|]); by apply same_no_more.
Qed.

Lemma schedule_no_more type ps c c' ps' r :
  hev_task_system_schedule fuel type ps c = Some (c', ps', r) -> no_more c c'.
Proof.
  unfold hev_task_system_schedule. intros H. apply bind_Some in H as (c1 & H1 & H).
  assert (no_more c c1) as ->.
  { clear H. destruct type; [..|by injection H1 as <-].
    - unfold hev_task_system_update_sched_key, hev_task_system_reinsert_current_task in H1.
      open_call. etrans; [by eapply upd_task_no_more|]. etrans; [by eapply upd_task_no_more|].
      by apply insert_raw_no_more in H1.
    - unfold hev_task_system_update_sched_key, hev_task_system_remove_current_task in H1.
      open_call; [done|]. etrans; [by eapply upd_task_no_more|]. etrans; [by eapply upd_task_no_more|].
      by apply upd_task_no_more in H1.
    - unfold hev_task_system_remove_current_task in H1. open_call; [|done].
      etrans; [by eapply upd_task_no_more|]. by apply unref_no_more in H1. }
  destruct (Z.eqb _ 0); [injection H as <- _ _; by apply same_no_more|].
  apply bind_Some in H as ([[c2 ps2] b] & H & [= <- _ _]). by eapply pick_no_more.
Qed.
End no_more.

Lemma no_more_size c c' : no_more c c' -> (size (tasks c') <= size (tasks c))%nat.
Proof. unfold no_more. rewrite <- !size_dom. apply subseteq_size. Qed.

Section calls.
Variable fuel : nat.

Lemma run_no_more t c c' : hev_task_run fuel t c = Some c' -> no_more c c'.
Proof.
  unfold hev_task_run, hev_task_system_run_new_task. intros H. open_call; [done|..].
  all: do 2 (etrans; [by eapply upd_task_no_more|]); try (etrans; [by eapply upd_task_no_more|]).
  all: etrans; [by eapply insert_no_more|]; by apply same_no_more.
Qed.

Lemma switch_no_more type ps fs c s : switch fuel type ps fs c = Some s -> no_more c (sctx s).
Proof.
  unfold switch. intros H. apply bind_Some in H as ([[c' ps'] r] & H & [= <-]).
  by eapply schedule_no_more.
Qed.

Lemma join_turn_no_more t c c' b : join_turn fuel t c = Some (c', b) -> no_more c c'.
Proof.
  unfold join_turn, hev_task_get_state. intros H. open_call; [done|by eapply wakeup_no_more].
Qed.

Lemma timer_wait_begin_no_more now ms node t c c' b :
  timer_wait_begin fuel now ms node t c = Some (c', b) -> no_more c c'.
Proof. unfold timer_wait_begin. intros H. open_call. by apply same_no_more. Qed.

Lemma timer_wait_end_no_more now node lm c c' r :
  timer_wait_end fuel now node lm c = Some (c', r) -> no_more c c'.
Proof.
  unfold timer_wait_end. intros H. apply bind_Some in H as (T & _ & H).
  apply bind_Some in H as (n & _ & H). apply bind_Some in H as (c1 & H1 & [= <- _]).
  transitivity c1; [|by apply same_no_more]. destruct (_ || _)%bool.
  - by apply timer_wakeup_no_more in H1.
  - injection H1 as <-. by apply same_no_more.
Qed.

Definition news (o : op) : nat := match o with ONew _ _ => 1 | _ => 0 end.

Lemma exec_size o s s' : exec fuel o s = Some s' ->
  (size (tasks (sctx s')) <= size (tasks (sctx s)) + news o)%nat.
Proof.
  intros H. destruct (decide (news o = 1%nat)) as [E|E].
  { destruct o; try discriminate E. simpl in H. unfold hev_task_new in H. destruct stack_ok.
    - simpl in H. open_call. simpl. destruct (tasks (sctx s) !! a) eqn:Ea.
      + rewrite map_size_insert_Some by (by eexists). lia.
      + rewrite map_size_insert_None by done. lia.
    - simpl in H. injection H as <-. simpl. lia. }
  assert (no_more (sctx s) (sctx s')) as Hn; [|apply no_more_size in Hn; lia].
  destruct o; simpl in H; try done.
  - open_call. by eapply upd_task_no_more.
  - open_call. by eapply unref_no_more.
  - open_call. by eapply upd_task_no_more.
  - open_call. by eapply run_no_more.
  - open_call. by eapply wakeup_no_more.
  - by eapply switch_no_more.
  - open_call; by eapply pick_no_more.
  - by eapply switch_no_more.
  - unfold hev_task_sleep_begin in H. apply bind_Some in H as ([c1 lm] & H1 & H).
    transitivity c1.
    + destruct (Z.eqb ms 0); [by injection H1 as <- _|]. open_call.
      by eapply timer_wait_begin_no_more.
    + destruct lm; [by eapply switch_no_more|by injection H as <-].
  - unfold hev_task_join in H. apply bind_Some in H as ([c1 e] & H1 & H). transitivity c1.
    + apply bind_Some in H1 as (x & _ & H1). destruct (negb _); [by injection H1 as <- _|].
      apply bind_Some in H1 as (c2 & H2 & H1). open_call.
      all: etrans; [by eapply upd_task_no_more|]; by eapply join_turn_no_more.
    + destruct e as [[]|]; [by injection H as <-|by eapply switch_no_more|by injection H as <-].
  - unfold resume in H. apply bind_Some in H as (f & _ & H). destruct f as [node lm|t].
    + open_call. by eapply timer_wait_end_no_more.
    + apply bind_Some in H as ([c1 e] & H1 & H). transitivity c1; [by eapply join_turn_no_more|].
      destruct e; [by injection H as <-|by eapply switch_no_more].
  - apply bind_Some in H as (c1 & H1 & H). transitivity c1; [|by eapply switch_no_more].
    unfold executer_end, hev_task_wakeup in H1. open_call; [by eapply wakeup_no_more|done].
  - by eapply switch_no_more.
Qed.
End calls.

Lemma sys0_ok : ok sys0.
Proof.
  exists [], [], [], []. constructor; simpl; [|by constructor; try set_solver|done].
  constructor; simpl; try done; try by constructor.
  - constructor; simpl; try done; try by constructor.
    + apply cached_rep_empty.
    + intros a. split; [set_solver|]. by intros (t & Ht & _).
    + intros a. split; [set_solver|]. by intros (t & Ht & _).
  - apply cached_rep_empty.
  - intros a. set_solver.
  - split_and!; [done|done|done|]. intros x. simpl. lia.
  - intros a. rewrite lookup_empty. split; [set_solver|by intros []].
Qed.

Lemma execs_ok fuel os s : ok s -> ops_ok fuel os s ->
  (2 * (size (tasks (sctx s)) + length os) + 10 < fuel)%nat -> wp (execs fuel os s) ok.
Proof.
  revert s. induction os as [|o os IH]; intros s Hs Hops Hf; simpl in *; [by apply wp_ret|].
  destruct Hops as [Ho Hops]. apply wp_bind.
  destruct (exec_ok fuel o s Hs Ho) as (s' & E & Hs'); [unfold room; lia|].
  exists s'. split; [done|]. apply IH; [done|by apply Hops|].
  pose proof (exec_size fuel o s s' E). assert (news o <= 1)%nat by (destruct o; simpl; lia). lia.
Qed.
