(* ===== verification/TasksFair.v ===== *)
(** * Tasks at work: how long a ready task waits for its turn *)
From stdpp Require Import sorting.
From S2P Require Import Prelude CInt RBTree RBTreeShape RBTreeSpec RBTreeCached List Sched SchedSpec SchedRun Tasks TasksSpec TasksOps TasksSafe.

(** ** The measure of a task that waits for its turn *)

(** How many tasks with the key [k] are before the task [x]. *)
Fixpoint ahead (m : gmap Z HevTask) (k x : Z) (run : list Z) : Z :=
  match run with
  | [] => 0
  | y :: run => if decide (y = x) then 0 else
      (if Z.eqb (skey m y) k then 1 else 0) + ahead m k x run
  end.

(** With at most [N] tasks: as many turns as are left at most. *)
Definition turns_left (N : Z) (m : gmap Z HevTask) (x : Z) (run : list Z) : Z :=
  (skey m x - head_key m run) * N + ahead m (head_key m run) x run.

Lemma ahead_nonneg m k x run : 0 <= ahead m k x run.
Proof.
  induction run as [|y run IH]; simpl; [done|]. destruct (decide _); [done|].
  destruct (Z.eqb _ _); lia.
Qed.

Lemma ahead_lt m k x run : x ∈ run -> ahead m k x run < Z.of_nat (length run).
Proof.
  induction run as [|y run IH]; simpl; [by intros ?%elem_of_nil|].
  intros Hx. destruct (decide (y = x)) as [->|Hne]; [lia|].
  apply elem_of_cons in Hx as [->|Hx]; [done|]. specialize (IH Hx).
  destruct (Z.eqb _ _); lia.
Qed.

(** Tasks with another key do not count. *)
Lemma ahead_sub m m' k x run run' :
  run `sublist_of` run' -> NoDup run' -> x ∈ run ->
  (forall y, y ∈ run -> skey m' y = skey m y) ->
  (forall y, y ∈ run' -> y ∉ run -> skey m' y <> k) -> ahead m' k x run' = ahead m k x run.
Proof.
  intros Hsub Hnd. revert Hnd. induction Hsub as [|y l l' Hsub IH|y l l' Hsub IH];
    intros Hnd Hx Hk Hn; [by apply elem_of_nil in Hx|..]; apply NoDup_cons in Hnd as [Hy Hnd]; simpl.
  - destruct (decide (y = x)) as [->|Hne]; [done|]. rewrite Hk by by left. f_equal.
    apply IH; [done|by apply elem_of_cons in Hx as [->|]|intros z Hz; apply Hk; by right|].
    intros z Hz Hzl. apply Hn; [by right|]. intros [->|?]%elem_of_cons; done.
  - assert (Hyl : y ∉ l) by (intros ?; apply Hy; by eapply sublist_in).
    rewrite decide_False by (intros ->; done).
    rewrite (proj2 (Z.eqb_neq _ _)) by (apply Hn; [by left|done]). rewrite Z.add_0_l.
    apply IH; try done. intros z Hz Hzl. apply Hn; [by right|done].
Qed.

(** New running tasks do not delay the others. *)
Lemma turns_left_grow N m run m' run' x :
  grow m run m' run' -> NoDup run' -> x ∈ run -> turns_left N m' x run' = turns_left N m x run.
Proof.
  intros G Hnd Hx. assert (Hne : run <> []) by by intros ->; apply elem_of_nil in Hx.
  unfold turns_left. rewrite (grow_head_key _ _ _ _ G Hne), (gr_keys _ _ _ _ G x Hx). f_equal.
  apply ahead_sub; [apply G|done|done|apply G|]. intros y Hy Hni.
  pose proof (gr_new _ _ _ _ G Hne y Hy Hni). lia.
Qed.

(** The first task has had its turn. *)
Record passes (m : gmap Z HevTask) (run : list Z) (m' : gmap Z HevTask) (run' : list Z) : Prop := {
  pa_fair : fair m' run';
  pa_order : StronglySorted (key_le m') run';
  pa_nodup : NoDup run';
  pa_moved : exists cur ls rs, run = cur :: ls ++ rs /\
    (forall y, y ∈ ls ++ rs -> skey m' y = skey m y) /\
    (run' = ls ++ rs \/ run' = ls ++ cur :: rs /\ head_key m run < skey m' cur);
}.

Lemma sorted_head_le m run y : StronglySorted (key_le m) run -> y ∈ run -> head_key m run <= skey m y.
Proof.
  destruct run as [|x run]; [by intros _ ?%elem_of_nil|]. intros Hs [->|Hy]%elem_of_cons; simpl; [lia|].
  by apply (ordered_head (key_le m) x run y Hs).
Qed.

Lemma turns_left_passes N m run m' run' x :
  passes m run m' run' -> StronglySorted (key_le m) run -> NoDup run -> x ∈ run ->
  head run <> Some x -> Z.of_nat (length run) <= N ->
  turns_left N m' x run' < turns_left N m x run.
Proof.
  intros [_ Hs' Hnd' (cur & ls & rs & -> & Hk & Hrun')] Hs Hnd Hx Hh HN.
  set (rest := ls ++ rs) in *. apply NoDup_cons in Hnd as [Hcur Hnd].
  assert (Hxr : x ∈ rest) by (apply elem_of_cons in Hx as [->|]; [by destruct Hh|done]).
  assert (Hne : cur <> x) by by intros ->.
  assert (Hsub : rest `sublist_of` run').
  { destruct Hrun' as [->|[-> _]]; [done|]. apply sublist_app; [done|by apply sublist_cons]. }
  assert (Hother : forall y, y ∈ run' -> y ∉ rest -> y = cur /\ skey m cur < skey m' cur).
  { intros y Hy Hny. destruct Hrun' as [->|[-> Hlt]]; [done|]. split; [|exact Hlt].
    unfold rest in Hny. rewrite elem_of_app, elem_of_cons in Hy. rewrite elem_of_app in Hny. tauto. }
  assert (Hlen : (length run' <= S (length rest))%nat).
  { unfold rest in *. destruct Hrun' as [->|[-> _]]; rewrite ?length_app; simpl; lia. }
  pose proof (sublist_in _ _ x Hsub Hxr) as Hx'.
  pose proof (sorted_head_le _ _ x Hs' Hx') as Hle. rewrite (Hk x Hxr) in Hle.
  assert (Hge : skey m cur <= head_key m' run').
  { destruct run' as [|z r]; [by apply elem_of_nil in Hx'|]. simpl.
    destruct (decide (z ∈ rest)) as [Hz|Hz].
    - rewrite (Hk z Hz). by apply (ordered_head (key_le m) cur rest z Hs).
    - destruct (Hother z) as [-> ?]; [by left|done|lia]. }
  unfold turns_left. simpl. rewrite (Hk x Hxr), decide_False, Z.eqb_refl by done. cbn match.
  pose proof (ahead_nonneg m (skey m cur) x rest). simpl in HN.
  destruct (decide (head_key m' run' = skey m cur)) as [E|E].
  - rewrite E. rewrite (ahead_sub m m' (skey m cur) x rest run') by
      (try done; intros y Hy Hny; destruct (Hother y Hy Hny) as [-> ?]; lia). lia.
  - pose proof (ahead_lt m' (head_key m' run') x run' Hx').
    pose proof (Z.mul_le_mono_nonneg_r (skey m x - head_key m' run' + 1)
      (skey m x - skey m cur) N ltac:(lia) ltac:(lia)). lia.
Qed.

Lemma turns_left_bound N m run x :
  fair m run -> x ∈ run -> Z.of_nat (length run) <= N -> turns_left N m x run < 16 * N.
Proof.
  intros [_ Hl _] Hx HN. specialize (Hl x Hx). unfold HEV_TASK_PRIORITY_MAX in Hl.
  pose proof (ahead_lt m (head_key m run) x run Hx). unfold turns_left.
  pose proof (Z.mul_le_mono_nonneg_r (skey m x - head_key m run) 15 N ltac:(lia) ltac:(lia)). lia.
Qed.

Lemma turns_left_nonneg N m run x :
  StronglySorted (key_le m) run -> x ∈ run -> 0 <= N -> 0 <= turns_left N m x run.
Proof.
  intros Hs Hx HN. pose proof (sorted_head_le _ _ x Hs Hx).
  pose proof (ahead_nonneg m (head_key m run) x run). unfold turns_left. nia.
Qed.

(** ** What the calls do to the running tasks *)

(** Far from a wrap of the keys. *)
Definition far (m : gmap Z HevTask) (run : list Z) : Prop := head_key m run + 32 < 2 ^ 64.

(** The running tasks where a call ends: the first of them is the current one. *)
Definition lands (m : gmap Z HevTask) (run : list Z) (s : Sys) : Prop :=
  exists run' wait', sched_ok (sctx s) run' wait' /\ grow m run (tasks (sctx s)) run' /\
    smode s <> Main /\ (smode s = InTask -> head run' = Some (current_task (sctx s))).

Section fair.
Variable fuel : nat.

Lemma pick_lands c fs ps run wait sl al :
  ctx_ok c run wait sl al -> fair (tasks c) run -> Forall (poll_ok run wait) ps ->
  run ++ wait <> [] -> room fuel c ->
  wp ('(c, _, b) ← hev_task_system_pick_current_task fuel ps c;
      Some (mkSys c fs (if (b : bool) then InTask else InPoll))) (lands (tasks c) run).
Proof.
  intros H Hf Hps Hne Hr. pose proof (room_live _ _ _ _ (ok_sched _ _ _ _ _ H) Hr) as He.
  apply wp_bind. eapply wp_mono; [by apply (pick_ok fuel ps c run wait sl al)|].
  intros [[c' ps'] b] (c1 & r & w & A & H' & _ & Ht & _ & Hb). apply wp_ret.
  exists r, w. simpl. split; [apply H'|]. rewrite Ht.
  split; [by apply (aw_grow _ _ _ _ _ _ A)|]. split; [by destruct b|].
  destruct b; [|done]. by destruct Hb as (y & rest & -> & ->).
Qed.

Lemma type_lands c fs ps run wait sl al :
  ctx_ok c run wait sl al -> fair (tasks c) run -> Forall (poll_ok run wait) ps -> room fuel c ->
  wp ('(c, _, r) ←
        (if Z.eqb (total_task_count c) 0 then Some (set_current 0 c, ps, Exited) else
         '(c, ps, polled) ← hev_task_system_pick_current_task fuel ps c;
         Some (c, ps, if (polled : bool) then Switched else Polling));
      Some (mkSys c fs (mode_of r))) (lands (tasks c) run).
Proof.
  intros H Hf Hps Hr. rewrite (ok_total _ _ _ _ _ H).
  destruct (Z.eqb_spec (Z.of_nat (length run + length wait)) 0) as [E|E].
  - apply wp_ret. exists run, wait. simpl. split; [destruct H as [[] ]; by constructor|].
    split; [by apply grow_refl|done].
  - destruct (pick_lands c fs ps run wait sl al) as (s & Hs & Hok); [done..| |done|].
    { intros E'. apply E. apply (f_equal length) in E'. rewrite length_app in E'. simpl in E'. lia. }
    apply bind_Some in Hs as ([[c' ps'] b] & Hp & [= <-]).
    exists (mkSys c' fs (if b then InTask else InPoll)). split; [|done]. rewrite Hp. by destruct b.
Qed.

(** The part of the keys' facts that an ordered list with old keys inherits. *)
Lemma fair_rest m run m' run' cur :
  fair m run -> far m run -> head run = Some cur -> StronglySorted (key_le m) run -> weighted m' ->
  (forall y, y ∈ run' -> y <> cur -> y ∈ run /\ skey m' y = skey m y) ->
  (cur ∈ run' -> head_key m run <= skey m' cur <= head_key m run + HEV_TASK_PRIORITY_MAX) ->
  fair m' run'.
Proof.
  intros [_ Hl Hw] Hfar Hh Hs Hwt Hk Hc.
  unfold far in Hfar.
  assert (Hall : forall y, y ∈ run' -> head_key m run <= skey m' y <= head_key m run + HEV_TASK_PRIORITY_MAX).
  { intros y Hy. destruct (decide (y = cur)) as [->|Hne]; [by apply Hc|].
    destruct (Hk y Hy Hne) as [Hin ->]. split; [by apply sorted_head_le|by apply Hl]. }
  unfold HEV_TASK_PRIORITY_MAX in *. destruct run' as [|z r].
  { constructor; [done|by intros y ?%elem_of_nil|done]. }
  pose proof (Hall z ltac:(by left)). constructor; unfold HEV_TASK_PRIORITY_MAX; simpl in *; [done| |lia].
  intros y Hy. pose proof (Hall y Hy). lia.
Qed.

Lemma weighted_insert m a t : weighted m -> weighs t -> weighted (<[a := t]> m).
Proof. intros H Ht. by apply map_Forall_insert_2. Qed.

Lemma weighted_dropped m a t : weighted m -> weighs t -> weighted (dropped m a t).
Proof.
  intros H Ht. unfold dropped. destruct (decide _); [by apply map_Forall_delete|].
  apply weighted_insert; [done|]. exact Ht.
Qed.

(** The facts about the first task that every switch uses. *)
Lemma head_split c cur ls rs run wait sl al :
  ctx_ok c run wait sl al -> head run = Some cur -> run = ls ++ cur :: rs -> ls = [] /\ run = cur :: rs /\ cur ∉ rs.
Proof.
  intros H Hh ->. pose proof (run_wait_nodup _ _ _ (ok_sched _ _ _ _ _ H)) as Hnd.
  apply NoDup_app in Hnd as (Hnd & _). destruct ls as [|z ls]; simpl in *.
  - apply NoDup_cons in Hnd as [? _]. done.
  - injection Hh as ->. apply NoDup_cons in Hnd as [Hz _]. destruct Hz. set_solver.
Qed.

Lemma ctx_nodup c run wait sl al : ctx_ok c run wait sl al -> NoDup run.
Proof.
  intros H. pose proof (run_wait_nodup _ _ _ (ok_sched _ _ _ _ _ H)) as Hnd.
  by apply NoDup_app in Hnd as (Hnd & _).
Qed.

(** Ready, or still ready: the state of what a switch leaves. *)
Definition turned (m : gmap Z HevTask) (run : list Z) (s : Sys) : Prop :=
  exists m1 run1, passes m run m1 run1 /\ lands m1 run1 s.

Lemma passes_intro c run wait sl al c' run' wait' al' cur ls rs :
  ctx_ok c run wait sl al -> ctx_ok c' run' wait' sl al' -> fair (tasks c) run -> far (tasks c) run ->
  run = cur :: ls ++ rs -> weighted (tasks c') ->
  (forall y, y <> cur -> y ∈ run -> skey (tasks c') y = skey (tasks c) y) ->
  (run' = ls ++ rs \/ run' = ls ++ cur :: rs /\
    head_key (tasks c) run < skey (tasks c') cur <= head_key (tasks c) run + HEV_TASK_PRIORITY_MAX) ->
  passes (tasks c) run (tasks c') run'.
Proof.
  intros H H' Hf Hfar Hrun Hwt Hk Hrun'. pose proof (ctx_nodup _ _ _ _ _ H) as Hnd.
  assert (Hni : cur ∉ ls ++ rs) by (rewrite Hrun in Hnd; by apply NoDup_cons in Hnd as [? _]).
  assert (Hin : forall y, y ∈ run' -> y <> cur -> y ∈ run).
  { intros y Hy Hne. rewrite Hrun, elem_of_cons, elem_of_app. right.
    destruct Hrun' as [->|[-> _]]; rewrite elem_of_app, ?elem_of_cons in Hy; tauto. }
  constructor.
  - eapply fair_rest; [exact Hf|exact Hfar|by rewrite Hrun|apply (ok_sched _ _ _ _ _ H)|done|..].
    + intros y Hy Hne. split; [by apply Hin|]. apply Hk; [done|by apply Hin].
    + intros Hc. destruct Hrun' as [->|[_ Hkey]]; [done|lia].
  - apply (ok_sched _ _ _ _ _ H').
  - by eapply ctx_nodup.
  - exists cur, ls, rs. split; [done|]. split.
    + intros y Hy. apply Hk; [by intros ->|]. rewrite Hrun. by right.
    + destruct Hrun' as [?|[? ?]]; [by left|right; split; [done|lia]].
Qed.

Lemma head_in (run : list Z) x : head run = Some x -> x ∈ run.
Proof. destruct run; [done|]. intros [= ->]. by left. Qed.

(** The task whose turn it is. *)
Lemma head_task c cur rs wait sl al t : ctx_ok c (cur :: rs) wait sl al -> fair (tasks c) (cur :: rs) ->
  tasks c !! cur = Some t -> state t = HEV_TASK_RUNNING /\ weighs t /\
  1 <= priority t <= HEV_TASK_PRIORITY_MAX /\ head_key (tasks c) (cur :: rs) = sched_key t.
Proof.
  intros H Hf Ht. pose proof (ok_sched _ _ _ _ _ H) as HS.
  destruct (proj1 (ok_run _ _ _ HS cur)) as (t' & Et & Es); [by left|].
  rewrite Ht in Et. injection Et as <-. pose proof (fa_weighted _ _ Hf cur t Ht) as Hw.
  split_and!; try done; [apply Hw; by rewrite Es..|by apply skey_some].
Qed.

Lemma switch_yield_fair c fs ps run wait sl al :
  ctx_ok c run wait sl al -> fair (tasks c) run -> far (tasks c) run ->
  head run = Some (current_task c) -> Forall (poll_ok run wait) ps -> room fuel c ->
  wp (switch fuel HEV_TASK_YIELD ps fs c) (turned (tasks c) run).
Proof.
  intros H Hf Hfar Hh Hps Hr. pose proof (room_live _ _ _ _ (ok_sched _ _ _ _ _ H) Hr) as He.
  destruct (yield_ok fuel c run wait sl al H (head_in _ _ Hh) (enough_app_l _ _ _ He))
    as (c' & Ec & l0 & rs & ls' & rs' & t & Hrun & E & Ht & Htasks & H' & Hc' & Hn' & Hl & Hr').
  destruct (head_split _ _ _ _ _ _ _ _ H Hh Hrun) as (-> & -> & Hni). simpl in E. subst rs. clear Hrun.
  set (cur := current_task c) in *. destruct (head_task _ _ _ _ _ _ _ H Hf Ht) as (Hst & Hw & Hprio & Hk0).
  unfold switch, hev_task_system_schedule. rewrite Ec. cbn [mbind option_bind].
  assert (Hkey : skey (tasks c') cur = sched_key t + priority t).
  { rewrite Htasks. erewrite skey_some by apply lookup_insert_eq. simpl. unfold next_key.
    unfold far in Hfar.
    destruct (ok_tasks _ _ _ (ok_sched _ _ _ _ _ H) cur t Ht).
    unfold HEV_TASK_PRIORITY_MAX in *. rewrite Z.mul_1_l, (u64_id (priority t)), (u64_id (priority t)), u64_id; lia. }
  assert (HP : passes (tasks c) (cur :: ls' ++ rs') (tasks c') (ls' ++ cur :: rs')).
  { eapply passes_intro; [exact H|exact H'|done|done|done|..].
    - rewrite Htasks. apply weighted_insert; [apply Hf|]. destruct Hw as (? & ? & ?).
      split; [done|]. split; [done|]. simpl. by rewrite Hst.
    - intros y Hy _. rewrite Htasks. by apply skey_insert_ne.
    - right. split; [done|]. lia. }
  eapply wp_mono; [|intros s' Hs'; by exists (tasks c'), (ls' ++ cur :: rs')].
  eapply type_lands; [exact H'|apply HP| |].
  - eapply Forall_impl; [exact Hps|]. intros p. apply poll_ok_perm. by rewrite <- !Permutation_middle.
  - unfold room. rewrite Htasks. by erewrite map_insert_existing.
Qed.

Lemma switch_wait_fair c fs ps run wait sl al :
  ctx_ok c run wait sl al -> fair (tasks c) run -> far (tasks c) run ->
  head run = Some (current_task c) -> Forall (poll_ok run wait) ps -> room fuel c ->
  wp (switch fuel HEV_TASK_WAITIO ps fs c) (turned (tasks c) run).
Proof.
  intros H Hf Hfar Hh Hps Hr. pose proof (room_live _ _ _ _ (ok_sched _ _ _ _ _ H) Hr) as He.
  destruct (task_wait_ok fuel c run wait sl al H (head_in _ _ Hh) (enough_app_l _ _ _ He))
    as (c' & Ec & l0 & rs & t & Hrun & Ht & Htasks & H' & Hc' & Hn').
  destruct (head_split _ _ _ _ _ _ _ _ H Hh Hrun) as (-> & -> & Hni). clear Hrun.
  set (cur := current_task c) in *. destruct (head_task _ _ _ _ _ _ _ H Hf Ht) as (Hst & Hw & Hprio & Hk0).
  unfold switch, hev_task_system_schedule. rewrite Ec. cbn [mbind option_bind].
  assert (HP : passes (tasks c) (cur :: [] ++ rs) (tasks c') ([] ++ rs)).
  { eapply passes_intro; [exact H|exact H'|done|done|done|..].
    - rewrite Htasks. apply weighted_insert; [apply Hf|]. destruct Hw as (? & ? & ?).
      split; [done|]. split; [done|]. intros _. simpl. unfold HEV_TASK_PRIORITY_MAX in *. rewrite u64_id; lia.
    - intros y Hy _. rewrite Htasks. by apply skey_insert_ne.
    - by left. }
  eapply wp_mono; [|intros s' Hs'; by exists (tasks c'), ([] ++ rs)].
  eapply type_lands; [exact H'|apply HP| |].
  - eapply Forall_impl; [exact Hps|]. intros p. apply poll_ok_perm. by rewrite <- !Permutation_middle.
  - unfold room. rewrite Htasks. by erewrite map_insert_existing.
Qed.

Lemma switch_remove_fair c fs ps run wait sl al but :
  ctx_ok c run wait sl al -> frames_ok fs c run wait sl -> fs !! current_task c = None ->
  fair (tasks c) run -> far (tasks c) run -> but = current_task c ->
  head run = Some (current_task c) -> polls_live c but ps -> room fuel c ->
  wp (switch fuel HEV_TASK_SCHED_REMOVE ps fs c) (turned (tasks c) run).
Proof.
  intros H HF Hfr Hf Hfar -> Hh Hps Hr. pose proof (ok_sched _ _ _ _ _ H) as HS.
  pose proof (room_live _ _ _ _ HS Hr) as He.
  destruct (task_stop_ok fuel c run wait sl al H (head_in _ _ Hh) (enough_app_l _ _ _ He))
    as (c' & Ec & l0 & rs & t & al' & Hrun & Ht & Htasks & H' & Hc' & Hn').
  { intros a n Ha Hn E. destruct (fo_node _ _ _ _ _ HF a n Ha Hn) as [lm El]. congruence. }
  destruct (head_split _ _ _ _ _ _ _ _ H Hh Hrun) as (-> & -> & Hni). clear Hrun.
  set (cur := current_task c) in *. destruct (head_task _ _ _ _ _ _ _ H Hf Ht) as (Hst & Hw & Hprio & Hk0).
  unfold switch, hev_task_system_schedule. rewrite Ec. cbn [mbind option_bind].
  assert (HP : passes (tasks c) (cur :: [] ++ rs) (tasks c') ([] ++ rs)).
  { eapply passes_intro; [exact H|exact H'|done|done|done|..].
    - rewrite Htasks. destruct Hw as (? & ? & ?).
      apply weighted_dropped; [apply weighted_insert; [apply Hf|]|]; (split; [done|split]; done).
    - intros y Hy _. rewrite Htasks. unfold dropped, skey.
      destruct (decide _); by rewrite ?lookup_delete_ne, ?lookup_insert_ne.
    - by left. }
  eapply wp_mono; [|intros s' Hs'; by exists (tasks c'), ([] ++ rs)].
  eapply type_lands; [exact H'|apply HP| |].
  - pose proof (run_wait_nodup _ _ _ HS) as Hnd. eapply Forall_impl; [exact Hps|]. intros p [Hev Hnow].
    split; [|done]. eapply Forall_impl; [exact Hev|]. intros e [Hl Hne].
    apply (live_in _ _ _ _ HS) in Hl. by apply elem_of_cons in Hl as [->|].
  - unfold room in *. rewrite Htasks. unfold dropped.
    assert (size (<[cur:=with_state HEV_TASK_STOPPED t]> (tasks c)) = size (tasks c)) as E
      by by erewrite map_insert_existing.
    destruct (decide _).
    + rewrite map_size_delete_Some by (rewrite lookup_insert_eq; by eexists). lia.
    + erewrite map_insert_existing by apply lookup_insert_eq. lia.
Qed.
End fair.

(** ** Every call *)

(** A call that ends the current task's turn. *)
Definition switches (o : op) (s : Sys) : bool :=
  let c := sctx s in
  match o with
  | OYield _ _ | OEnd _ | OExit _ => true
  | OSleep ms _ _ _ => negb (Z.eqb ms 0)
  | OJoin t _ => match tasks c !! t with
      | Some x => Z.eqb (joiner x) 0 && bool_decide (state x <> HEV_TASK_STOPPED)
      | None => false
      end
  | OResume _ _ => match frames s !! current_task c with
      | Some (FJoin t) => bool_decide (live c t)
      | _ => false
      end
  | _ => false
  end.

(** A caller that gives no task the lowest priority. *)
Definition op_weighs (o : op) : Prop := match o with OSetPriority _ p => 1 <= p | _ => True end.
#[export] Instance op_weighs_dec o : Decision (op_weighs o).
Proof. destruct o; simpl; apply _. Defined.

(** The keys, and the place of the current task. *)
Record tuned (s : Sys) (run wait : list Z) : Prop := {
  tu_fair : fair (tasks (sctx s)) run;
  tu_main : smode s = Main -> wait = [] /\ forall y, y ∈ run -> skey (tasks (sctx s)) y <= HEV_TASK_PRIORITY_MAX;
  tu_head : smode s = InTask -> head run = Some (current_task (sctx s));
}.

(** What a step costs the tasks that wait for their turn. *)
Definition steps (b : bool) (s : Sys) (run : list Z) (s' : Sys) : Prop :=
  exists run' wait', sched_ok (sctx s') run' wait' /\ tuned s' run' wait' /\
    (smode s <> Main -> forall N x, Z.of_nat (size (tasks (sctx s))) <= N -> x ∈ run ->
      (b = true -> x <> current_task (sctx s)) ->
      x ∈ run' /\ turns_left N (tasks (sctx s')) x run' + (if b then 1 else 0)
        <= turns_left N (tasks (sctx s)) x run).

Lemma sched_nodup c run wait : sched_ok c run wait -> NoDup run.
Proof. intros H. pose proof (run_wait_nodup _ _ _ H) as Hnd. by apply NoDup_app in Hnd as (? & _). Qed.

Lemma sched_size c run wait : sched_ok c run wait -> (length run <= size (tasks c))%nat.
Proof.
  intros H. apply NoDup_dom_length; [by eapply sched_nodup|].
  intros y Hy. eapply in_state_exists, (ok_run _ _ _ H), Hy.
Qed.

Lemma grow_steps s run s' run' wait' :
  grow (tasks (sctx s)) run (tasks (sctx s')) run' -> sched_ok (sctx s') run' wait' ->
  tuned s' run' wait' -> steps false s run s'.
Proof.
  intros G H' Ht. exists run', wait'. split; [done|]. split; [done|]. intros _ N x _ Hx _.
  split; [eapply sublist_in; [apply G|done]|].
  rewrite (turns_left_grow _ _ _ _ _ _ G); [lia|by eapply sched_nodup|done].
Qed.

Lemma lands_steps s run s' : smode s <> Main ->
  lands (tasks (sctx s)) run s' -> steps false s run s'.
Proof.
  intros Hm (r & w & H' & G & Hm' & Hh). eapply grow_steps; [done..|].
  constructor; [apply G|done|done].
Qed.

(** A turn, after wake-ups by the task whose turn it was. *)
Lemma turned_steps s run c1 run1 wait1 s' :
  grow (tasks (sctx s)) run (tasks c1) run1 -> sched_ok c1 run1 wait1 ->
  size (tasks c1) = size (tasks (sctx s)) -> head run = Some (current_task (sctx s)) ->
  turned (tasks c1) run1 s' -> steps true s run s'.
Proof.
  intros G H1 Hsz Hh (m2 & run2 & HP & r & w & H' & G2 & Hm' & Hh').
  exists r, w. split; [done|]. split; [constructor; [apply G2|done|done]|].
  intros _ N x HN Hx Hne. specialize (Hne eq_refl).
  assert (Hx1 : x ∈ run1) by (eapply sublist_in; [apply G|done]).
  assert (Hhd : head run1 <> Some x).
  { rewrite (gr_head _ _ _ _ G) by (by intros ->; apply elem_of_nil in Hx). rewrite Hh. congruence. }
  pose proof (sched_size _ _ _ H1) as Hlen.
  pose proof (turns_left_passes N _ _ _ _ x HP (ok_order _ _ _ H1) (sched_nodup _ _ _ H1) Hx1 Hhd
    ltac:(lia)) as Hlt.
  assert (Hx2 : x ∈ run2).
  { destruct HP as [_ _ _ (cur & ls & rs & -> & _ & Hr2)]. apply elem_of_cons in Hx1 as [->|Hx1]; [done|].
    destruct Hr2 as [->|[-> _]]; set_solver. }
  split; [eapply sublist_in; [apply G2|done]|].
  rewrite (turns_left_grow _ _ _ _ _ _ G2), <- (turns_left_grow N _ _ _ _ x G); [lia|..]; try done.
  - by eapply sched_nodup.
  - by eapply sched_nodup.
Qed.

(** A call that leaves the running tasks and their keys. *)
Lemma keep_steps s run wait s' :
  sched_ok (sctx s) run wait -> tuned s run wait -> sched_ok (sctx s') run wait -> smode s' = smode s ->
  current_task (sctx s') = current_task (sctx s) -> weighted (tasks (sctx s')) ->
  (forall y, y ∈ run -> skey (tasks (sctx s')) y = skey (tasks (sctx s)) y) -> steps false s run s'.
Proof.
  intros H [[Hwt Hl Hw] Hmain Hh] H' Hm Hc Hwt' Hk.
  assert (E : head_key (tasks (sctx s')) run = head_key (tasks (sctx s)) run)
    by by apply head_key_same.
  assert (Hf : fair (tasks (sctx s')) run).
  { constructor; [done| |by rewrite E]. intros y Hy. rewrite E, (Hk y Hy). by apply Hl. }
  eapply (grow_steps _ _ _ run wait); [|done|].
  - by constructor.
  - constructor; rewrite ?Hm, ?Hc; [done| |done]. intros Hm'. destruct (Hmain Hm') as [? Hle].
    split; [done|]. intros y Hy. rewrite (Hk y Hy). by apply Hle.
Qed.

Lemma upd_skey m a t t' y : m !! a = Some t -> sched_key t' = sched_key t ->
  skey (<[a := t']> m) y = skey m y.
Proof.
  intros Ht Hk. unfold skey. destruct (decide (y = a)) as [->|]; [|by rewrite lookup_insert_ne].
  rewrite lookup_insert_eq, Ht. exact Hk.
Qed.

(** An update of one task that keeps its key and its state. *)
Lemma upd_steps s run wait sl al a t t' :
  ctx_ok (sctx s) run wait sl al -> tuned s run wait -> tasks (sctx s) !! a = Some t ->
  state t' = state t -> sched_key t' = sched_key t -> task_ok (running_tasks (sctx s)) a t' ->
  weighs t' -> steps false s run (stay s (set_tasks (<[a := t']> (tasks (sctx s))) (sctx s))).
Proof.
  intros H Ht Ha Hst Hk Hok Hw. eapply keep_steps; [apply H|exact Ht| |done|done|..].
  - eapply ok_sched, ctx_ok_upd; [exact H|exact Ha|done..].
  - apply weighted_insert; [apply Ht|done].
  - intros y _. by eapply upd_skey.
Qed.

Lemma awoke_steps s run wait c' run' wait' :
  tuned s run wait -> smode s <> Main -> awoke (sctx s) c' run wait run' wait' -> steps false s run (stay s c').
Proof.
  intros Ht Hm A. pose proof (aw_grow _ _ _ _ _ _ A (tu_fair _ _ _ Ht)) as G.
  eapply grow_steps; [exact G|apply A|]. constructor; simpl; [apply G|done|].
  intros Hin. rewrite (fr_current _ _ (aw_frame _ _ _ _ _ _ A)), <- (tu_head _ _ _ Ht Hin).
  apply G. pose proof (tu_head _ _ _ Ht Hin). by intros ->.
Qed.

Section calls.
Variable fuel : nat.
Variable s : Sys.
Variables run wait sl al : list Z.
Hypothesis H : sys_ok s run wait sl al.
Hypothesis HT : tuned s run wait.
Hypothesis Hfar : far (tasks (sctx s)) run.
Hypothesis Hr : room fuel (sctx s).

Let HC : ctx_ok (sctx s) run wait sl al := so_ctx _ _ _ _ _ H.
Let HS : sched_ok (sctx s) run wait := ok_sched _ _ _ _ _ HC.
Let HF : frames_ok (frames s) (sctx s) run wait sl := so_frames _ _ _ _ _ H.
Let Hf : fair (tasks (sctx s)) run := tu_fair _ _ _ HT.

Lemma calling_mode : calling s -> smode s = InTask /\ smode s <> Main.
Proof. intros [E _]. by rewrite E. Qed.

Lemma task_weighs a t : tasks (sctx s) !! a = Some t -> weighs t.
Proof. apply (fa_weighted _ _ Hf). Qed.

Lemma new_steps a ok : op_ok (ONew a ok) s -> wp (exec fuel (ONew a ok) s) (steps false s run).
Proof.
  intros (Hm & Hfresh & Ha). simpl. apply wp_bind. destruct ok.
  - eapply wp_mono; [by apply (new_ctx_ok (sctx s) run wait sl al a)|].
    intros [c' r] (-> & H' & Ht & _ & Hc). apply wp_ret.
    eapply keep_steps; [exact HS|exact HT|apply H'|done|exact Hc|..]; simpl; rewrite Ht.
    + apply weighted_insert; [apply Hf|]. by split.
    + intros y Hy. apply skey_insert_ne. intros ->. apply (ok_run _ _ _ HS) in Hy as (t & E & _). congruence.
  - do 2 apply wp_ret. eapply keep_steps; [exact HS|exact HT|exact HS|done|done|apply Hf|done].
Qed.

Lemma ref_steps t : op_ok (ORef t) s -> wp (exec fuel (ORef t) s) (steps false s run).
Proof.
  intros [Hm [x Hx]]. simpl. apply wp_bind. eapply upd_task_ok; [exact Hx|]. apply wp_ret.
  eapply upd_steps; [exact HC|exact HT|exact Hx|done|done| |exact (task_weighs t x Hx)].
  pose proof (so_tok _ _ _ _ _ _ _ H Hx) as []. constructor; try done. simpl. lia.
Qed.

Lemma set_priority_steps t p : op_ok (OSetPriority t p) s -> 1 <= p ->
  wp (exec fuel (OSetPriority t p) s) (steps false s run).
Proof.
  intros [Hm [x Hx]] Hp. simpl. apply wp_bind. eapply upd_task_ok; [exact Hx|]. apply wp_ret.
  set (p' := if Z.ltb p _ then _ else _).
  assert (Hp' : 1 <= p' <= HEV_TASK_PRIORITY_MAX).
  { unfold p', HEV_TASK_PRIORITY_MIN, HEV_TASK_PRIORITY_MAX. case_Z. }
  destruct (task_weighs t x Hx) as (W1 & W2 & W3).
  eapply upd_steps; [exact HC|exact HT|exact Hx|done|done| |].
  - pose proof (so_tok _ _ _ _ _ _ _ H Hx) as []. constructor; try done. simpl.
    unfold prio_ok, HEV_TASK_PRIORITY_MIN. lia.
  - by split.
Qed.

Lemma unref_steps t : op_ok (OUnref t) s -> wp (exec fuel (OUnref t) s) (steps false s run).
Proof.
  intros (Hm & x & Hx & Hl & _). simpl. pose proof (task_weighs t x Hx) as W.
  destruct (decide (state x = HEV_TASK_STOPPED)) as [Hst|Hst].
  - apply wp_bind. eapply wp_mono; [by apply (unref_stopped_ok _ run wait sl al t x)|].
    intros c' (al' & H' & Ht & Hc & Hn). apply wp_ret.
    eapply keep_steps; [exact HS|exact HT|apply H'|done|exact Hc|..]; simpl; rewrite Ht.
    + by apply weighted_dropped; [apply Hf|].
    + intros y Hy. assert (y <> t).
      { intros ->. apply (ok_run _ _ _ HS) in Hy as (z & Hz & E). congruence. }
      unfold dropped, skey. destruct (decide _); by rewrite ?lookup_delete_ne, ?lookup_insert_ne.
  - specialize (Hl Hst). unfold hev_task_unref. do 2 apply wp_bind. eapply upd_task_ok; [exact Hx|].
    simpl. rewrite lookup_insert_eq. simpl. rewrite (proj2 (Z.eqb_neq _ 0)) by lia. simpl.
    do 2 apply wp_ret. eapply upd_steps; [exact HC|exact HT|exact Hx|done|done| |exact W].
    pose proof (so_tok _ _ _ _ _ _ _ H Hx) as []. constructor; try done. simpl. lia.
Qed.

(** A started task goes behind the first one, but for the start of the system. *)
Lemma run_steps t : op_ok (ORun t) s -> wp (exec fuel (ORun t) s) (steps false s run).
Proof.
  intros (Hm & x & Hx & _). simpl. apply wp_bind.
  destruct (decide (state x = HEV_TASK_STOPPED)) as [Hst|Hst].
  2: { unfold hev_task_run. rewrite Hx. simpl. rewrite decide_True by done. do 2 apply wp_ret.
       eapply keep_steps; [exact HS|exact HT|exact HS|done|done|apply Hf|done]. }
  eapply wp_mono; [apply (run_new_ok _ (sctx s) run wait sl al t x HC Hx Hst)|].
  { eapply enough_app_l. by eapply room_live. }
  intros c' (ls & rs & t' & Hrun & H' & Ht & _ & En & Ep & Es & Ek & _ & Hc & Hrs). apply wp_ret.
  assert (Hni : t ∉ run) by (intros (y & Hy & E)%(ok_run _ _ _ HS); congruence).
  assert (Hk : forall y, y ∈ run -> skey (tasks c') y = skey (tasks (sctx s)) y).
  { intros y Hy. rewrite Ht. apply skey_insert_ne. by intros ->. }
  destruct (task_weighs t x Hx) as (W1 & _).
  assert (Hwt : weighted (tasks c')).
  { rewrite Ht. apply weighted_insert; [apply Hf|]. unfold weighs. rewrite En, Ep, Es. done. }
  assert (Hkt : skey (tasks c') t = sched_key t') by (rewrite Ht; apply skey_some, lookup_insert_eq).
  assert (Hin : forall y, y ∈ ls ++ t :: rs <-> y = t \/ y ∈ run).
  { intros y. rewrite Hrun, !elem_of_app, elem_of_cons. tauto. }
  assert (Hnn : forall y, y ∈ run -> 0 <= skey (tasks (sctx s)) y).
  { intros y (ty & Hy & _)%(ok_run _ _ _ HS). rewrite (skey_some _ _ _ Hy).
    by apply (ok_tasks _ _ _ HS y ty Hy). }
  pose proof (so_mode _ _ _ _ _ H) as Hmode. destruct Hm as [Hm|[Hm _]]; rewrite Hm in Hmode.
  - exists (ls ++ t :: rs), wait. split; [apply H'|]. split; [|by rewrite Hm].
    destruct (tu_main _ _ _ HT Hm) as [Hw Hle]. rewrite Hmode in Ek. simpl in Ek.
    unfold HEV_TASK_PRIORITY_MAX in *. rewrite u64_id in Ek by lia.
    assert (Hall : forall y, y ∈ ls ++ t :: rs -> 0 <= skey (tasks c') y <= 15).
    { intros y [->|Hy]%Hin; [lia|]. rewrite (Hk y Hy). split; [by apply Hnn|by apply Hle]. }
    assert (Hhd : 0 <= head_key (tasks c') (ls ++ t :: rs) <= 15).
    { destruct (ls ++ t :: rs) as [|z r] eqn:E; [done|]. apply Hall. by left. }
    constructor; simpl; [|intros _; split; [done|]; intros y Hy; by apply Hall|by rewrite Hm].
    constructor; unfold HEV_TASK_PRIORITY_MAX; [done|intros y Hy; specialize (Hall y Hy); lia|lia].
  - pose proof (tu_head _ _ _ HT Hm) as Hh.
    destruct run as [|z r] eqn:Er; [done|]. rewrite <- Er in *.
    assert (Hz : z ∈ run) by (rewrite Er; by left).
    assert (Hcur : current_task (sctx s) <> 0).
    { rewrite Er in Hh. injection Hh as <-. by apply (cached_rep_nonzero _ _ z (ok_tree _ _ _ HS)). }
    rewrite (proj2 (Z.eqb_neq _ _) Hcur) in Ek. destruct Hf as [_ Hlev Hwrap].
    assert (Ehk : head_key (tasks (sctx s)) run = skey (tasks (sctx s)) z) by by rewrite Er.
    pose proof (Hnn z Hz). rewrite (u64_id (next_priority x)), u64_id in Ek
      by (unfold HEV_TASK_PRIORITY_MAX in *; lia).
    assert (Hhd : head (ls ++ t :: rs) = head run).
    { destruct ls as [|y ls']; [|by rewrite Hrun]. simpl in Hrun. exfalso.
      specialize (Hrs z). rewrite <- Hrun in Hrs. specialize (Hrs Hz). lia. }
    pose proof (head_key_same _ _ _ _ Hhd Hk) as E.
    assert (G : grow (tasks (sctx s)) run (tasks c') (ls ++ t :: rs)).
    { constructor; [|rewrite Hrun; apply sublist_app; [done|by apply sublist_cons]|done|done|].
      - constructor; rewrite ?E; [done| |done]. intros y [->|Hy]%Hin; [lia|]. rewrite (Hk y Hy). by apply Hlev.
      - intros _ y [->|Hy]%Hin Hny; [lia|done]. }
    eapply grow_steps; [exact G|apply H'|]. constructor; [apply G|simpl; by rewrite Hm|].
    intros _. simpl. by rewrite Hc, Hhd.
Qed.

Lemma wakeup_steps t : op_ok (OWakeup t) s -> wp (exec fuel (OWakeup t) s) (steps false s run).
Proof.
  intros (Hm & Hl). simpl. apply wp_bind. apply (live_in _ _ _ _ HS) in Hl.
  destruct (decide (smode s = Main)) as [Em|Em].
  - destruct (tu_main _ _ _ HT Em) as [Hw _]. rewrite Hw, app_nil_r in Hl.
    pose proof Hl as (x & Hx & Hst)%(ok_run _ _ _ HS).
    unfold hev_task_wakeup, hev_task_system_wakeup_task_with_context. rewrite Hx. simpl.
    rewrite decide_True by done. do 2 apply wp_ret.
    eapply keep_steps; [exact HS|exact HT|exact HS|done|done|apply Hf|done].
  - eapply wp_mono; [apply (wakeup_awoke fuel _ run wait t HS Hl); by eapply room_live|].
    intros c' (r & w & A & _). apply wp_ret. by eapply awoke_steps.
Qed.

Lemma start_steps ps : op_ok (OSystemRun ps) s -> wp (exec fuel (OSystemRun ps) s) (steps false s run).
Proof.
  intros [Hm Hps]. simpl. eapply wp_mono.
  { eapply type_lands; [exact HC|exact Hf|by eapply polls_ok|exact Hr]. }
  intros s' (r & w & H' & G & Hm' & Hh). exists r, w. split; [done|].
  split; [constructor; [apply G|done|done]|done].
Qed.

Lemma poll_steps ps : op_ok (OPoll ps) s -> wp (exec fuel (OPoll ps) s) (steps false s run).
Proof.
  intros [Hm Hps]. pose proof (so_mode _ _ _ _ _ H) as Hmode. rewrite Hm in Hmode. simpl.
  eapply wp_mono; [by eapply pick_lands; [exact HC|exact Hf|eapply polls_ok|..]|].
  intros s' Hs'. apply lands_steps; [by rewrite Hm|done].
Qed.

(** A turn that the task ends at once. *)
Lemma now_turned s' : smode s = InTask -> turned (tasks (sctx s)) run s' -> steps true s run s'.
Proof.
  intros Hm. eapply turned_steps; [by apply grow_refl|exact HS|done|by apply (tu_head _ _ _ HT)].
Qed.

Lemma yield_steps io ps : op_ok (OYield io ps) s -> wp (exec fuel (OYield io ps) s) (steps true s run).
Proof.
  intros [Hc Hps]. pose proof (calling_mode Hc) as [Hm _]. pose proof (tu_head _ _ _ HT Hm) as Hh.
  pose proof (polls_ok _ _ _ _ _ HS Hps) as Hps'. simpl.
  eapply (wp_mono _ (turned (tasks (sctx s)) run)); [|intros s'; by apply now_turned].
  destruct io; [by eapply switch_wait_fair|by eapply switch_yield_fair].
Qed.

Lemma sleep_steps ms node now ps : op_ok (OSleep ms node now ps) s ->
  wp (exec fuel (OSleep ms node now ps) s) (steps (negb (Z.eqb ms 0)) s run).
Proof.
  intros (Hc & Hps & Hms & Hnz & Hal & Hnow & Hfresh). pose proof (calling_mode Hc) as [Hm _].
  pose proof (tu_head _ _ _ HT Hm) as Hh. simpl. unfold hev_task_sleep_begin. apply wp_bind.
  destruct (Z.eqb ms 0) eqn:E.
  { do 2 apply wp_ret. eapply keep_steps; [exact HS|exact HT|exact HS|done|done|apply Hf|done]. }
  assert (Hni : node ∉ sl).
  { intros Hn. destruct (ok_nodes _ _ _ _ _ HC node Hn) as (n & En & _).
    destruct (fo_node _ _ _ _ _ HF node n Hn En) as [lm Ef]. by eapply Hfresh. }
  apply wp_bind. eapply wp_mono.
  { apply (timer_wait_begin_ok fuel now ms node (current_task (sctx s)) (sctx s) run wait sl al); try done.
    - apply elem_of_app. left. by apply head_in.
    - by eapply room_timer. }
  intros [c' lm] (ls & rs & _ & H' & _ & _ & Ec). apply wp_ret.
  assert (Et : tasks c' = tasks (sctx s)) by by rewrite Ec.
  assert (Ecur : current_task c' = current_task (sctx s)) by by rewrite Ec.
  eapply (wp_mono _ (turned (tasks c') run)); [|intros s'; rewrite Et; by apply now_turned].
  eapply switch_wait_fair; [exact H'|by rewrite Et..|by rewrite Ecur| |].
  - by eapply polls_ok.
  - unfold room. by rewrite Et.
Qed.

(** A wake-up by the current task, and then its wait. *)
Lemma wake_wait_steps c fs t ps :
  ctx_ok c run wait sl al -> fair (tasks c) run -> far (tasks c) run -> room fuel c ->
  current_task c = current_task (sctx s) -> smode s = InTask -> t ∈ run ++ wait ->
  (forall y, y ∈ run -> skey (tasks c) y = skey (tasks (sctx s)) y) ->
  size (tasks c) = size (tasks (sctx s)) -> Forall (poll_ok run wait) ps ->
  wp (c ← hev_task_wakeup fuel t c; switch fuel HEV_TASK_WAITIO ps fs c) (steps true s run).
Proof.
  intros H1 Hf1 Hfar1 Hr1 Ecur Hm Ht Hk Hsz Hps. pose proof (ok_sched _ _ _ _ _ H1) as HS1.
  pose proof (tu_head _ _ _ HT Hm) as Hh. apply wp_bind.
  eapply wp_mono; [apply (wakeup_awoke fuel _ run wait t HS1 Ht); by eapply room_live|].
  intros c' (r & w & A & _). pose proof (aw_frame _ _ _ _ _ _ A) as HFr.
  pose proof (aw_grow _ _ _ _ _ _ A Hf1) as G.
  assert (Hne : run <> []) by by intros E; rewrite E in Hh.
  eapply wp_mono.
  { eapply (switch_wait_fair fuel c' fs ps r w); [by eapply ctx_ok_awoke|apply G| | | |].
    - unfold far in *. by rewrite (grow_head_key _ _ _ _ G Hne).
    - rewrite (gr_head _ _ _ _ G Hne), Hh, (fr_current _ _ HFr). by rewrite Ecur.
    - eapply Forall_impl; [exact Hps|]. intros p. apply poll_ok_perm, A.
    - by eapply awoke_room. }
  intros s'. apply turned_steps with (wait1 := w); [|apply A| |done].
  - destruct G as [G1 G2 G3 G4 G5]. constructor; [done|done| |done|].
    + intros y Hy. rewrite G3 by done. by apply Hk.
    + intros _ y Hy Hny. rewrite <- (head_key_same (tasks (sctx s)) (tasks c) run run eq_refl Hk).
      by apply G5.
  - by rewrite <- Hsz, (awoke_size _ _ _ _ _ _ A).
Qed.

Lemma join_steps t ps : op_ok (OJoin t ps) s ->
  wp (exec fuel (OJoin t ps) s) (steps (switches (OJoin t ps) s) s run).
Proof.
  intros (Hc & Hps & x & Hx & _). pose proof (calling_mode Hc) as [Hm _].
  simpl. rewrite Hx. unfold hev_task_join. rewrite Hx. simpl.
  destruct (Z.eqb_spec (joiner x) 0) as [Hj|Hj]; simpl.
  2: { apply wp_ret. eapply keep_steps; [exact HS|exact HT|exact HS|done|done|apply Hf|done]. }
  unfold upd_task. rewrite Hx. simpl. unfold hev_task_self.
  set (cur := current_task (sctx s)) in *. set (x' := with_joiner cur x). set (c1 := set_tasks _ _).
  assert (Hx1 : tasks c1 !! t = Some x') by apply lookup_insert_eq.
  assert (Hok : task_ok (running_tasks (sctx s)) t x').
  { pose proof (so_tok _ _ _ _ _ _ _ H Hx) as []. by constructor. }
  assert (H1 : ctx_ok c1 run wait sl al) by (eapply ctx_ok_upd; [exact HC|exact Hx|done..]).
  assert (Hk : forall y, y ∈ run -> skey (tasks c1) y = skey (tasks (sctx s)) y).
  { intros y _. by apply (upd_skey _ _ x). }
  unfold join_turn, hev_task_get_state. rewrite Hx1. simpl.
  destruct (decide (state x = HEV_TASK_STOPPED)) as [Hst|Hst]; simpl.
  - rewrite bool_decide_eq_false_2 by tauto. apply wp_ret.
    eapply upd_steps; [exact HC|exact HT|exact Hx|done|done|done|exact (task_weighs t x Hx)].
  - rewrite bool_decide_eq_true_2 by done.
    assert (Ht : t ∈ run ++ wait) by (apply (live_in _ _ _ _ HS); by exists x).
    assert (Ehk : head_key (tasks c1) run = head_key (tasks (sctx s)) run) by by apply head_key_same.
    destruct (wake_wait_steps c1 (<[cur := FJoin t]> (frames s)) t ps H1) as (s' & E & Hs'); try done.
    + destruct Hf as [F1 F2 F3]. constructor; rewrite ?Ehk; [|by intros y Hy; rewrite Hk; auto|done].
      apply weighted_insert; [done|exact (task_weighs t x Hx)].
    + unfold far. by rewrite Ehk.
    + by eapply room_upd.
    + simpl. by erewrite map_insert_existing.
    + by eapply polls_ok.
    + apply bind_Some in E as (c2 & E2 & E3). exists s'. split; [|done]. rewrite E2. exact E3.
Qed.

Lemma resume_steps now ps : op_ok (OResume now ps) s ->
  wp (exec fuel (OResume now ps) s) (steps (switches (OResume now ps) s) s run).
Proof.
  intros (Hm & [f Hfr] & Hps & Hnow).
  simpl. unfold resume. rewrite Hfr. simpl. destruct f as [node lm|t].
  - destruct (fo_sleep _ _ _ _ _ HF _ _ _ Hfr) as (Hin & n & Hn & Htn).
    destruct (list_elem_of_split _ _ Hin) as (ls & rs & Hsl). apply wp_bind.
    eapply wp_mono.
    { apply (timer_wait_end_ok fuel now node lm (sctx s) run wait ls rs al n); try done.
      - by rewrite <- Hsl.
      - rewrite <- Hsl. by eapply room_timer.
      - by eapply room_live. }
    intros [c' rest] (r & w & c1 & c2 & [T1 E1] & A & [T2 E2] & H' & _). apply wp_ret.
    assert (Et : tasks c' = tasks c2) by by rewrite E2.
    assert (Ec : current_task c' = current_task (sctx s)).
    { rewrite E2. simpl. by rewrite (fr_current _ _ (aw_frame _ _ _ _ _ _ A)), E1. }
    assert (G : grow (tasks (sctx s)) run (tasks c2) r).
    { pose proof (aw_grow _ _ _ _ _ _ A) as G. rewrite E1 in G. by apply G. }
    eapply grow_steps; [simpl; rewrite Et; exact G|apply H'|]. constructor; simpl; rewrite ?Et, ?Ec.
    + apply G.
    + done.
    + intros _. pose proof (tu_head _ _ _ HT Hm) as Hh. rewrite <- Hh. apply G. by intros E; rewrite E in Hh.
  - destruct (fo_join _ _ _ _ _ HF _ _ Hfr) as (x & Hx & Hjx & Href).
    unfold join_turn, hev_task_get_state. rewrite Hx. simpl.
    destruct (decide (state x = HEV_TASK_STOPPED)) as [Hst|Hst]; simpl.
    + rewrite bool_decide_eq_false_2 by (intros (y & Hy & Hsy); congruence). apply wp_ret.
      eapply keep_steps; [exact HS|exact HT|exact HS|by rewrite Hm|done|apply Hf|done].
    + assert (Hl : live (sctx s) t) by by exists x. rewrite bool_decide_eq_true_2 by done.
      destruct (wake_wait_steps (sctx s) (frames s) t ps) as (s' & E & Hs'); try done.
      * by apply (live_in _ _ _ _ HS).
      * by eapply polls_ok.
      * apply bind_Some in E as (c2 & E2 & E3). exists s'. split; [|done]. rewrite E2. exact E3.
Qed.

Lemma end_steps ps : op_ok (OEnd ps) s -> wp (exec fuel (OEnd ps) s) (steps true s run).
Proof.
  intros (Hc & Hps). pose proof (calling_mode Hc) as [Hm _]. pose proof (tu_head _ _ _ HT Hm) as Hh.
  pose proof (calling_run _ _ _ _ _ H Hc) as Hcur. simpl. unfold executer_end.
  destruct (proj1 (ok_run _ _ _ HS _) Hcur) as (t & Ht & _). rewrite Ht. simpl.
  destruct (Z.eqb_spec (joiner t) 0) as [Hj|Hj]; simpl.
  - eapply wp_mono; [|intros s'; by apply now_turned].
    by eapply switch_remove_fair; [exact HC|exact HF|apply Hc|..|exact Hps|].
  - assert (Hin : current_task (sctx s) ∈ run ++ wait) by (apply elem_of_app; by left).
    pose proof (fo_joiner _ _ _ _ _ HF _ _ Ht Hj Hin) as Hfj.
    pose proof (fo_live _ _ _ _ _ HF _ _ Hfj) as Hjl. apply wp_bind.
    eapply wp_mono; [apply (wakeup_awoke fuel _ run wait _ HS Hjl); by eapply room_live|].
    intros c' (r & w & A & _). pose proof (fr_current _ _ (aw_frame _ _ _ _ _ _ A)) as Ecur.
    pose proof (aw_grow _ _ _ _ _ _ A Hf) as G.
    assert (Hne : run <> []) by by intros E; rewrite E in Hh.
    eapply wp_mono.
    { eapply (switch_remove_fair fuel c' (frames s) ps r w); [by eapply ctx_ok_awoke|by eapply frames_ok_awoke
        | |apply G| |by symmetry; exact Ecur| |by eapply polls_awoke|by eapply awoke_room].
      - rewrite Ecur. apply Hc.
      - unfold far in *. by rewrite (grow_head_key _ _ _ _ G Hne).
      - by rewrite (gr_head _ _ _ _ G Hne), Hh, Ecur. }
    intros s'. eapply turned_steps; [exact G|apply A|by eapply awoke_size|done].
Qed.

Lemma exec_steps o : op_ok o s -> op_weighs o -> wp (exec fuel o s) (steps (switches o s) s run).
Proof.
  intros Ho Hw. destruct o.
  - by apply new_steps.
  - by apply ref_steps.
  - by apply unref_steps.
  - by apply set_priority_steps.
  - by apply run_steps.
  - by apply wakeup_steps.
  - by apply start_steps.
  - by apply poll_steps.
  - by apply yield_steps.
  - by apply sleep_steps.
  - by apply join_steps.
  - by apply resume_steps.
  - by apply end_steps.
  - destruct Ho as [Hc Hps]. pose proof (calling_mode Hc) as [Hm _].
    eapply wp_mono; [|intros s'; by apply now_turned].
    eapply switch_remove_fair; [exact HC|exact HF|apply Hc|exact Hf|exact Hfar|done|by apply (tu_head _ _ _ HT)
      |exact Hps|exact Hr].
Qed.
End calls.

(** ** Every sequence of calls *)

Definition seen (s : Sys) (run wait sl al : list Z) : Prop := sys_ok s run wait sl al /\ tuned s run wait.

Lemma sched_unique c run wait run' wait' : sched_ok c run wait -> sched_ok c run' wait' ->
  run' = run /\ (wait' = [] -> wait = []).
Proof.
  intros H H'. split; [eapply rb_rep_inj; [apply H'|apply H]|]. intros ->.
  destruct wait as [|z w]; [done|]. pose proof (proj1 (ok_wait _ _ _ H z) ltac:(by left)) as Hz.
  apply (ok_wait _ _ _ H') in Hz. by apply elem_of_nil in Hz.
Qed.

Lemma exec_seen fuel o s run wait sl al :
  seen s run wait sl al -> far (tasks (sctx s)) run -> room fuel (sctx s) -> op_ok o s -> op_weighs o ->
  wp (exec fuel o s) (fun s' => exists run' wait' sl' al', seen s' run' wait' sl' al' /\
    (smode s <> Main -> forall N x, Z.of_nat (size (tasks (sctx s))) <= N -> x ∈ run ->
      (switches o s = true -> x <> current_task (sctx s)) ->
      x ∈ run' /\ turns_left N (tasks (sctx s')) x run' + (if switches o s then 1 else 0)
        <= turns_left N (tasks (sctx s)) x run)).
Proof.
  intros [H HT] Hfar Hr Ho Hw.
  destruct (exec_ok fuel o s) as (s' & E & r & w & sl' & al' & H'); [by exists run, wait, sl, al|done|done|].
  destruct (exec_steps fuel s run wait sl al H HT Hfar Hr o Ho Hw)
    as (s2 & E2 & r2 & w2 & H2 & [T1 T2 T3] & Hturns).
  rewrite E in E2. injection E2 as <-. exists s'. split; [done|].
  destruct (sched_unique _ _ _ _ _ (ok_sched _ _ _ _ _ (so_ctx _ _ _ _ _ H')) H2) as [-> Hwait].
  exists r, w, sl', al'. split; [|done]. split; [done|]. constructor; [done| |done].
  intros Hm. destruct (T2 Hm) as [Hw2 Hle]. split; [by apply Hwait|done].
Qed.

(** A property of every state on the way. *)
Fixpoint along (fuel : nat) (P : Sys -> Prop) (os : list op) (s : Sys) : Prop :=
  P s /\ match os with
  | [] => True
  | o :: os => forall s', exec fuel o s = Some s' -> along fuel P os s'
  end.

#[export] Instance along_dec fuel (P : Sys -> Prop) `{!forall s, Decision (P s)} os s : Decision (along fuel P os s).
Proof.
  revert s. induction os as [|o os IH]; intros s; simpl.
  - apply _.
  - apply and_dec; [apply _|]. destruct (exec fuel o s) as [s1|]; [|left; by intros s' E].
    destruct (IH s1) as [Ha|Ha]; [left; by intros s' [= <-]|right; intros H'; by apply Ha, H'].
Defined.

(** How often the current task has given up its turn. *)
Fixpoint turns (fuel : nat) (os : list op) (s : Sys) : nat :=
  match os with
  | [] => 0
  | o :: os => (if switches o s then 1 else 0) +
      match exec fuel o s with Some s => turns fuel os s | None => 0 end
  end.

(** At most [N] tasks, and no key about to wrap. *)
Definition small (N : Z) (s : Sys) : Prop :=
  Z.of_nat (size (tasks (sctx s))) <= N /\
  map_Forall (fun _ t => sched_key t + 32 < 2 ^ 64) (tasks (sctx s)).

#[export] Instance small_dec N s : Decision (small N s).
Proof. unfold small. apply _. Defined.

Lemma small_far N s run wait : small N s -> sched_ok (sctx s) run wait -> far (tasks (sctx s)) run.
Proof.
  intros [_ Hk] H. unfold far. destruct run as [|z r]; [done|]. simpl.
  destruct (proj1 (ok_run _ _ _ H z)) as (t & Ht & _); [by left|].
  rewrite (skey_some _ _ _ Ht). by apply (Hk z).
Qed.

Lemma along_now fuel P os s : along fuel P os s -> P s.
Proof. destruct os; by intros [? _]. Qed.

Lemma seen_after fuel N os1 os2 s0 s :
  ops_ok fuel (os1 ++ os2) s0 -> Forall op_weighs (os1 ++ os2) ->
  (2 * (size (tasks (sctx s0)) + length (os1 ++ os2)) + 10 < fuel)%nat ->
  along fuel (small N) (os1 ++ os2) s0 ->
  (exists run wait sl al, seen s0 run wait sl al) -> execs fuel os1 s0 = Some s ->
  ops_ok fuel os2 s /\ Forall op_weighs os2 /\ (2 * (size (tasks (sctx s)) + length os2) + 10 < fuel)%nat /\
  along fuel (small N) os2 s /\ exists run wait sl al, seen s run wait sl al.
Proof.
  revert s0. induction os1 as [|o os1 IH]; intros s0 Hops Hw Hf Hsm Hs E; simpl in *.
  { by injection E as <-. }
  destruct Hops as [Ho Hops]. apply Forall_cons in Hw as [Hwo Hw]. destruct Hsm as [Hs0 Hsm].
  apply bind_Some in E as (s1 & E1 & E). destruct Hs as (run & wait & sl & al & Hs).
  pose proof (exec_size fuel o s0 s1 E1). assert (news o <= 1)%nat by (destruct o; simpl; lia).
  destruct (exec_seen fuel o s0 run wait sl al Hs) as (s1' & E1' & r & w & sl1 & al1 & Hs1 & _); try done.
  - by eapply small_far, so_ctx, Hs.
  - unfold room. lia.
  - rewrite E1 in E1'. injection E1' as <-.
    apply (IH s1); [by apply Hops|done|lia|by apply Hsm|by exists r, w, sl1, al1|done].
Qed.

Lemma seen_sys0 : seen sys0 [] [] [] [].
Proof.
  destruct sys0_ok as (run & wait & sl & al & H). pose proof (so_ctx _ _ _ _ _ H) as HC.
  pose proof (ok_sched _ _ _ _ _ HC) as HS.
  assert (run = [] /\ wait = [] /\ sl = [] /\ al = []) as (-> & -> & -> & ->).
  { split_and!.
    - eapply rb_rep_inj; [apply HS|apply rb_rep_empty].
    - destruct wait as [|z w]; [done|].
      by destruct (proj1 (ok_wait _ _ _ HS z)) as (t & Ht & _); [by left|].
    - eapply rb_rep_inj; [apply HC|apply rb_rep_empty].
    - destruct al as [|z l]; [done|].
      by destruct (proj1 (ok_all_in _ _ _ _ _ HC z)) as [t Ht]; [by left|]. }
  split; [done|]. constructor; simpl; [|by split; [|intros y ?%elem_of_nil]|done].
  constructor; simpl; [done|by intros y ?%elem_of_nil|done].
Qed.

Lemma switch_mode fuel type ps fs c s : switch fuel type ps fs c = Some s -> smode s <> Main.
Proof. unfold switch. intros E. apply bind_Some in E as ([[c' ps'] []] & _ & [= <-]); done. Qed.

Lemma exec_mode fuel o s s' : exec fuel o s = Some s' -> smode s <> Main -> smode s' <> Main.
Proof.
  intros E Hm. destruct o; simpl in E; try (by eapply switch_mode); unfold resume in E; open_call;
    try done; first [by eapply switch_mode|by case_match].
Qed.

Lemma turns_bounded fuel N x os s run wait sl al :
  seen s run wait sl al -> ops_ok fuel os s -> Forall op_weighs os ->
  (2 * (size (tasks (sctx s)) + length os) + 10 < fuel)%nat -> along fuel (small N) os s ->
  smode s <> Main -> x ∈ run -> along fuel (fun s => smode s = InTask -> current_task (sctx s) <> x) os s ->
  Z.of_nat (turns fuel os s) <= turns_left N (tasks (sctx s)) x run.
Proof.
  revert s run wait sl al. induction os as [|o os IH]; intros s run wait sl al Hs Hops Hw Hf Hsm Hm Hx Hal;
    simpl in *.
  { apply turns_left_nonneg; [apply (ok_sched _ _ _ _ _ (so_ctx _ _ _ _ _ (proj1 Hs)))|done|].
    destruct Hsm as [[? _] _]. lia. }
  destruct Hops as [Ho Hops]. apply Forall_cons in Hw as [Hwo Hw].
  destruct Hsm as [Hs0 Hsm], Hal as [Hx0 Hal].
  destruct (exec_seen fuel o s run wait sl al Hs) as (s1 & E1 & r & w & sl1 & al1 & Hs1 & Ht); try done.
  { by eapply small_far, so_ctx, Hs. }
  { unfold room. lia. }
  rewrite E1. pose proof (exec_size fuel o s s1 E1). assert (news o <= 1)%nat by (destruct o; simpl; lia).
  destruct (Ht Hm N x) as [Hx1 Hle]; [apply Hs0|done| |].
  { intros Hb. assert (smode s = InTask) as Em; [|intros ->; by apply Hx0].
    destruct o; try discriminate Hb; by destruct Ho as [[? _] _] || by destruct Ho as [? _]. }
  pose proof (exec_mode fuel o s s1 E1 Hm) as Hm1.
  specialize (IH s1 r w sl1 al1 Hs1 (Hops _ E1) Hw ltac:(lia) (Hsm _ E1) Hm1 Hx1 (Hal _ E1)).
  destruct (switches o s); lia.
Qed.
