(* ===== verification/SchedProps.v ===== *)
(** * The task library's scheduler: properties *)
From stdpp Require Import sorting.
From S2P Require Import Prelude CInt RBTree RBTreeShape RBTreeSpec RBTreeCached List Sched SchedSpec SchedRun Tasks TasksSpec TasksOps TasksSafe TasksFair.

(** Two tasks: one sleeps; the other joins it, which wakes it early, and drops
    its last reference when it has ended. *)
Definition demo_poll (ns : Z) : Poll := mkPoll [] (mkTime 0 ns).
Definition demo_ops : list op :=
  [ONew 4096 true; ONew 8192 true; ORef 8192; OSetPriority 8192 3; ORun 4096; ORun 8192;
   OSystemRun [demo_poll 0]; OYield false []; OSleep 20 4352 (mkTime 0 0) [demo_poll 0];
   OSleep 7 8448 (mkTime 0 5) [demo_poll 5; demo_poll 7000010]; OResume (mkTime 0 7000011) [];
   OJoin 8192 [demo_poll 7000020]; OResume (mkTime 0 7000030) []; OEnd [demo_poll 7000040];
   OResume (mkTime 0 7000050) []; OUnref 8192; OEnd []].

(** C4: The tasks' calls fail in no sequence that the callers' obligations allow,
    and leave the scheduler consistent: the tree holds exactly the tasks that are
    running, by key, the two counts are right, every sleeper's node is in the
    timer and belongs to a live task. *)
Theorem tasks_stay_consistent fuel os : ops_ok fuel os sys0 -> (2 * length os + 10 < fuel)%nat ->
  wp (execs fuel os sys0) (fun s => exists run wait sl al, sys_ok s run wait sl al).
Proof.
  intros Hops Hf. apply (execs_ok fuel os sys0); [apply sys0_ok|done|].
  change (size (tasks (sctx sys0))) with 0%nat. lia.
Qed.

Lemma tasks_stay_consistent_witness :
  wp (execs 60 demo_ops sys0) (fun s => exists run wait sl al, sys_ok s run wait sl al) /\
  (smode <$> execs 60 demo_ops sys0) = Some Done.
Proof.
  split; [|vm_compute; reflexivity].
  apply (tasks_stay_consistent 60 demo_ops); [apply ops_okb_ok; vm_compute; reflexivity|simpl; lia].
Defined.

(** C5: A task that is ready gets its turn, as long as no task is given priority
    zero and no scheduling key comes near the width of its type ([op_weighs],
    [small]): with at most [N] tasks, fewer than [16 * N] turns of others end
    before, whatever calls that the obligations allow the tasks make meanwhile. *)
Theorem ready_task_is_chosen fuel N x os1 os2 s :
  ops_ok fuel (os1 ++ os2) sys0 -> Forall op_weighs (os1 ++ os2) ->
  (2 * length (os1 ++ os2) + 10 < fuel)%nat -> along fuel (small N) (os1 ++ os2) sys0 ->
  execs fuel os1 sys0 = Some s -> smode s <> Main -> in_state (tasks (sctx s)) HEV_TASK_RUNNING x ->
  along fuel (fun s => smode s = InTask -> current_task (sctx s) <> x) os2 s ->
  Z.of_nat (turns fuel os2 s) < 16 * N.
Proof.
  intros Hops Hw Hf Hsm E Hm Hx Hal.
  destruct (seen_after fuel N os1 os2 sys0 s) as (Hops2 & Hw2 & Hf2 & Hsm2 & run & wait & sl & al & Hs); try done.
  { by exists [], [], [], []; apply seen_sys0. }
  pose proof (ok_sched _ _ _ _ _ (so_ctx _ _ _ _ _ (proj1 Hs))) as HS.
  apply (ok_run _ _ _ HS) in Hx.
  pose proof (turns_bounded fuel N x os2 s run wait sl al Hs Hops2 Hw2 Hf2 Hsm2 Hm Hx Hal) as Hle.
  pose proof (turns_left_bound N _ _ x (tu_fair _ _ _ (proj2 Hs)) Hx) as Hlt.
  pose proof (sched_size _ _ _ HS). destruct (along_now _ _ _ _ Hsm2) as [HN _]. lia.
Qed.

Lemma ready_task_is_chosen_witness :
  exists s, execs 60 (take 7 demo_ops) sys0 = Some s /\ turns 60 [OYield false []] s = 1%nat /\
    Z.of_nat (turns 60 [OYield false []] s) < 16 * 2.
Proof.
  eexists. split; [vm_compute; reflexivity|]. split; [vm_compute; reflexivity|].
  eapply (ready_task_is_chosen 60 2 4096 (take 7 demo_ops) [OYield false []]).
  - apply ops_okb_ok. vm_compute. reflexivity.
  - refine (bool_decide_eq_true_1 _ _). vm_compute. reflexivity.
  - simpl. lia.
  - refine (bool_decide_eq_true_1 _ _). vm_compute. reflexivity.
  - vm_compute. reflexivity.
  - discriminate.
  - eexists. split; [vm_compute; reflexivity|reflexivity].
  - refine (bool_decide_eq_true_1 _ _). vm_compute. reflexivity.
Defined.

(** With priority zero a task keeps the turn for ever. *)
Definition starving_ops : list op :=
  [ONew 4096 true; ONew 8192 true; OSetPriority 8192 0; ORun 4096; ORun 8192; OSystemRun [demo_poll 0]].

Lemma priority_zero_starves n : exists s, execs 60 starving_ops sys0 = Some s /\
  current_task (sctx s) = 8192 /\ in_state (tasks (sctx s)) HEV_TASK_RUNNING 4096 /\
  execs 60 (repeat (OYield false []) n) s = Some s.
Proof.
  eexists. split; [vm_compute; reflexivity|]. split; [reflexivity|].
  split; [eexists; split; [vm_compute; reflexivity|reflexivity]|].
  induction n as [|n IH]; [reflexivity|]. cbn [repeat execs].
  match goal with |- context [exec ?f ?o ?s] => assert (exec f o s = Some s) as -> by (vm_compute; reflexivity) end.
  exact IH.
Qed.

(** A task that leaves by [hev_task_exit] leaves its joiner waiting. *)
Definition exit_ops : list op :=
  [ONew 4096 true; ONew 8192 true; ORef 8192; ORun 4096; ORun 8192; OSystemRun [demo_poll 0];
   OJoin 8192 [demo_poll 1]; OExit [demo_poll 2; demo_poll 3]].

Lemma exit_forgets_joiner : exists s, ops_ok 60 exit_ops sys0 /\ execs 60 exit_ops sys0 = Some s /\
  smode s = InPoll /\ frames s !! 4096 = Some (FJoin 8192) /\
  in_state (tasks (sctx s)) HEV_TASK_STOPPED 8192 /\ in_state (tasks (sctx s)) HEV_TASK_WAITING 4096 /\
  forall n, execs 60 [OPoll (repeat (demo_poll 4) n)] s = Some s.
Proof.
  eexists. split; [apply ops_okb_ok; vm_compute; reflexivity|]. split; [vm_compute; reflexivity|].
  split; [reflexivity|]. split; [vm_compute; reflexivity|].
  do 2 (split; [eexists; split; [vm_compute; reflexivity|reflexivity]|]). intros n.
  cbn [execs exec sctx frames]. match goal with |- context [hev_task_system_pick_current_task _ _ ?c] =>
    assert (hev_task_system_pick_current_task 60 (repeat (demo_poll 4) n) c = Some (c, [], false)) as -> end;
    [|reflexivity].
  unfold hev_task_system_pick_current_task. cbn [running_task_count total_task_count Z.ltb Z.compare negb Z.eqb].
  induction n as [|n IH]; [reflexivity|]. exact IH.
Qed.

(** A sleep of [ms] milliseconds that ends at the time [later] returns the
    milliseconds that were left, rounded up: zero exactly when the time is over,
    and never more than was asked for. *)
Theorem sleep_time_left fuel now later ms node task lm lm' c c1 c2 c3 rest :
  clock_ok now -> clock_ok later -> 0 <= ms < 2 ^ 32 -> nanos now <= nanos later ->
  timer_wait_begin fuel now ms node task c = Some (c1, lm) ->
  timer_nodes c2 !! node = timer_nodes c1 !! node ->
  timer_wait_end fuel later node lm' c2 = Some (c3, rest) ->
  0 <= rest <= ms /\ (rest = 0 <-> nanos now + ms * 1000000 <= nanos later) /\
  (0 < rest -> (rest - 1) * 1000000 < nanos now + ms * 1000000 - nanos later <= rest * 1000000).
Proof.
  intros H1 H2 Hms Hle E1 En E2. unfold timer_wait_begin in E1.
  apply bind_Some in E1 as ([T l] & _ & [= <- <-]). simpl in En. rewrite lookup_insert_eq in En.
  unfold timer_wait_end in E2. rewrite En in E2. apply bind_Some in E2 as (T' & _ & E2).
  simpl in E2. apply bind_Some in E2 as (c4 & _ & [= <- <-]). by apply get_time_sleep.
Qed.

Definition demo_slept : Ctx :=
  default ctx0 (fst <$> timer_wait_begin 20 (mkTime 7 999999999) 1500 4352 4096 ctx0).
Definition demo_woken : Ctx :=
  default ctx0 (fst <$> timer_wait_end 20 (mkTime 9 400000000) 4352 true demo_slept).

Lemma sleep_time_left_witness :
  0 <= 100 <= 1500 /\
  (100 = 0 <-> nanos (mkTime 7 999999999) + 1500 * 1000000 <= nanos (mkTime 9 400000000)) /\
  (0 < 100 -> (100 - 1) * 1000000
     < nanos (mkTime 7 999999999) + 1500 * 1000000 - nanos (mkTime 9 400000000) <= 100 * 1000000).
Proof.
  apply (sleep_time_left 20 (mkTime 7 999999999) (mkTime 9 400000000) 1500 4352 4096 true true
    ctx0 demo_slept demo_slept demo_woken 100).
  1,2: unfold clock_ok; simpl; lia.
  1: lia.
  1: unfold nanos; simpl; lia.
  all: vm_compute; reflexivity.
Defined.

(** The timeout of the poll is an [int]: a sleep of more than 24 days makes it
    negative, which waits for events only. *)
Lemma timeout_wraps ms now c node n : 2 ^ 31 <= ms < 2 ^ 32 -> clock_ok now ->
  hev_rbtree_cached_first (sort_tree c) = node -> node <> 0 -> timer_nodes c !! node = Some n ->
  expire n = hev_task_timer_get_expire now ms ->
  hev_task_timer_get_timeout now c = Some (ms - 2 ^ 32).
Proof.
  intros Hms Hnow Hf Hnz Hn He. unfold hev_task_timer_get_timeout. rewrite Hf, (proj2 (Z.eqb_neq _ _) Hnz), Hn.
  simpl. destruct (get_expire_ok now ms Hnow ltac:(lia)) as [Hok Hns].
  rewrite He, (get_time_exact _ _ Hnow Hok), Hns.
  rewrite (proj2 (Z.ltb_lt _ _)) by lia. unfold millis_until. rewrite Hns.
  replace ((nanos now + ms * 1000000 - nanos now + 999999) / 1000000) with ms by dlia.
  f_equal. unfold i32, u32. rewrite (Z.mod_small ms) by lia. dlia.
Qed.
