(* ===== verification/TasksKeep.v ===== *)
(** * Tasks at work: what a call leaves of the state of other tasks

    A task that is ready stays ready until it runs; a task that is alive stays
    alive until it ends itself. *)
From S2P Require Import Prelude CInt RBTree RBTreeCached List Sched Tasks TasksSafe.

Section keep.
Variable P : HevTaskState -> Prop.
Hypothesis HP : P HEV_TASK_RUNNING.
Hypothesis HN : ~ P HEV_TASK_STOPPED.
Variable x : Z.
Variable fuel : nat.

Definition held (c : Ctx) : Prop := exists t, tasks c !! x = Some t /\ P (state t).
Definition keeps (c c' : Ctx) : Prop := held c -> held c'.

#[local] Instance keeps_preorder : PreOrder keeps.
Proof. split; unfold keeps; [by intros c|]. intros c1 c2 c3. tauto. Qed.

Lemma same_keeps c c' : tasks c' = tasks c -> keeps c c'.
Proof. unfold keeps, held. by intros ->. Qed.

Lemma upd_keeps a f c c' : upd_task a f c = Some c' ->
  (a = x -> forall t, P (state t) -> P (state (f t))) -> keeps c c'.
Proof.
  unfold upd_task. intros E Hf (t & Ht & Hs). apply bind_Some in E as (u & Hu & [= <-]).
  unfold held. simpl. destruct (decide (a = x)) as [->|Hne].
  - rewrite lookup_insert_eq. exists (f u). split; [done|]. apply Hf; [done|congruence].
  - rewrite lookup_insert_ne by done. by exists t.
Qed.

Ltac upd := etrans; [eapply upd_keeps; [eassumption|by intros _ ?]|].

Lemma insert_raw_keeps t c c' : _hev_task_system_insert_task fuel t c = Some c' -> keeps c c'.
Proof. unfold _hev_task_system_insert_task. intros E. open_call. by apply same_keeps. Qed.

Lemma insert_keeps t c c' : hev_task_system_insert_task fuel t c = Some c' -> keeps c c'.
Proof.
  unfold hev_task_system_insert_task. intros E. open_call. upd. upd.
  etrans; [by eapply insert_raw_keeps|]. by apply same_keeps.
Qed.

Lemma wakeup_keeps t c c' :
  hev_task_system_wakeup_task_with_context fuel t c = Some c' -> keeps c c'.
Proof.
  unfold hev_task_system_wakeup_task_with_context. intros E. open_call; [done|]. upd.
  by eapply insert_keeps.
Qed.

Lemma timer_wakeup_keeps now c c' : hev_task_timer_wakeup fuel now c = Some c' -> keeps c c'.
Proof. unfold hev_task_timer_wakeup. intros E. open_call; try done. by eapply wakeup_keeps. Qed.

Lemma events_keep es c c' : wakeup_events fuel es c = Some c' -> keeps c c'.
Proof.
  revert c. induction es as [|e es IH]; intros c E; simpl in E; open_call; [done|].
  etrans; [by eapply wakeup_keeps|]. by apply IH.
Qed.

Lemma io_poll_keeps p c c' : hev_task_system_io_poll fuel p c = Some c' -> keeps c c'.
Proof.
  unfold hev_task_system_io_poll, hev_task_timer_wake. intros E. open_call;
    (etrans; [by eapply events_keep|]); [done|by eapply timer_wakeup_keeps].
Qed.

Lemma poll_loop_keeps ps c c' ps' b : poll_loop fuel ps c = Some (c', ps', b) -> keeps c c'.
Proof.
  revert c. induction ps as [|p ps IH]; intros c E; simpl in E; open_call; [done|..].
  - etrans; [by eapply io_poll_keeps|]. by apply IH.
  - by eapply io_poll_keeps.
Qed.

Lemma pick_keeps ps c c' ps' b :
  hev_task_system_pick_current_task fuel ps c = Some (c', ps', b) -> keeps c c'.
Proof.
  unfold hev_task_system_pick_current_task. intros E. open_call; try done.
  all: try (by eapply poll_loop_keeps); try (etrans; [by eapply io_poll_keeps|]);
    try (etrans; [by eapply poll_loop_keeps|]); by apply same_keeps.
Qed.

(** Dropping a reference that is not the last one of a live task. *)
Lemma unref_keeps t c c' : hev_task_unref t c = Some c' ->
  (forall y, t = x -> tasks c !! t = Some y -> P (state y) -> ref_count y <> 1) -> keeps c c'.
Proof.
  intros E Href Hx. unfold hev_task_unref, upd_task in E. simpl in E.
  apply bind_Some in E as (c1 & E1 & E). apply bind_Some in E1 as (y & Hy & [= <-]).
  simpl in E. rewrite lookup_insert_eq in E. simpl in E. destruct Hx as (z & Hz & Hs).
  destruct (decide (t = x)) as [->|Hne].
  - rewrite Hy in Hz. injection Hz as <-. specialize (Href y eq_refl Hy Hs).
    rewrite (proj2 (Z.eqb_neq _ 0)) in E by lia. injection E as <-. unfold held. simpl.
    rewrite lookup_insert_eq. by eexists.
  - assert (Hx : held (set_tasks (<[t:=with_ref (ref_count y - 1) y]> (tasks c)) c)).
    { exists z. simpl. by rewrite lookup_insert_ne. }
    destruct (negb _) in E; [by injection E as <-|]. apply bind_Some in E as (l & _ & [= <-]).
    destruct Hx as (u & Hu & Hs'). exists u. split; [|done]. simpl in *. by rewrite lookup_delete_ne.
Qed.

Definition may_switch (type : HevTaskYieldType) (c : Ctx) : Prop :=
  match type with
  | HEV_TASK_YIELD | HEV_TASK_RUN_SCHEDULER => True
  | HEV_TASK_WAITIO => x <> current_task c \/ P HEV_TASK_WAITING
  | HEV_TASK_SCHED_REMOVE => x <> current_task c
  end.

Lemma upd_task_current a f c c' : upd_task a f c = Some c' -> current_task c' = current_task c.
Proof. unfold upd_task. intros E. by apply bind_Some in E as (t & _ & [= <-]). Qed.

Lemma schedule_keeps type ps c c' ps' r :
  hev_task_system_schedule fuel type ps c = Some (c', ps', r) -> may_switch type c -> keeps c c'.
Proof.
  unfold hev_task_system_schedule. intros E Hm. apply bind_Some in E as (c1 & E1 & E).
  transitivity c1.
  { clear E. destruct type; simpl in Hm; [..|by injection E1 as <-].
    - unfold hev_task_system_update_sched_key, hev_task_system_reinsert_current_task in E1.
      open_call. upd. upd. by apply insert_raw_keeps in E1.
    - unfold hev_task_system_update_sched_key, hev_task_system_remove_current_task in E1.
      apply bind_Some in E1 as (c2 & E2 & E1). rewrite <- (upd_task_current _ _ _ _ E2) in Hm.
      open_call; [done|]. upd. etrans.
      { eapply upd_keeps; [eassumption|]. intros Ec t Ht. destruct Hm as [Hm|Hm]; [by destruct Hm|done]. }
      eapply upd_keeps in E1; [exact E1|by intros _ ?].
    - unfold hev_task_system_remove_current_task in E1. open_call; [|done].
      etrans; [eapply upd_keeps; [eassumption|]; intros Ec; by destruct Hm|].
      eapply unref_keeps in E1; [exact E1|]. intros y Ec. by destruct Hm. }
  destruct (Z.eqb _ 0); [injection E as <- _ _; by apply same_keeps|].
  apply bind_Some in E as ([[c2 ps2] b] & E & [= <- _ _]). by eapply pick_keeps.
Qed.

Lemma switch_keeps type ps fs c s : switch fuel type ps fs c = Some s -> may_switch type c ->
  keeps c (sctx s).
Proof.
  unfold switch. intros E. apply bind_Some in E as ([[c' ps'] r] & E & [= <-]).
  by eapply schedule_keeps.
Qed.

Lemma run_keeps t c c' : hev_task_run fuel t c = Some c' -> keeps c c'.
Proof.
  unfold hev_task_run, hev_task_system_run_new_task. intros E. open_call; [done|..].
  all: upd; upd; try upd; etrans; [by eapply insert_keeps|]; by apply same_keeps.
Qed.

Lemma wakeup_current t c c' :
  hev_task_system_wakeup_task_with_context fuel t c = Some c' -> current_task c' = current_task c.
Proof.
  unfold hev_task_system_wakeup_task_with_context, hev_task_system_insert_task,
    _hev_task_system_insert_task, upd_task. intros E. by open_call.
Qed.

Lemma join_turn_keeps t c c' b : join_turn fuel t c = Some (c', b) ->
  keeps c c' /\ current_task c' = current_task c.
Proof.
  unfold join_turn, hev_task_get_state. intros E.
  open_call; [done|split; [by eapply wakeup_keeps|by eapply wakeup_current]].
Qed.

Lemma timer_wait_end_keeps now node lm c c' r :
  timer_wait_end fuel now node lm c = Some (c', r) -> keeps c c'.
Proof.
  unfold timer_wait_end. intros E. apply bind_Some in E as (T & _ & E).
  apply bind_Some in E as (n & _ & E). apply bind_Some in E as (c1 & H1 & [= <- _]).
  transitivity c1; [|by apply same_keeps]. destruct (_ || _)%bool.
  - etrans; [|by eapply timer_wakeup_keeps]. by apply same_keeps.
  - injection H1 as <-. by apply same_keeps.
Qed.

(** The task is another one, or its state allows what the call does to it. *)
Definition may_exec (o : op) (s : Sys) : Prop :=
  let other := x <> current_task (sctx s) in
  match o with
  | OYield io _ => io = false \/ other \/ P HEV_TASK_WAITING
  | OSleep _ _ _ _ | OJoin _ _ | OResume _ _ => other \/ P HEV_TASK_WAITING
  | OEnd _ | OExit _ => other
  | _ => True
  end.

Lemma exec_keeps o s s' : op_ok o s -> exec fuel o s = Some s' -> may_exec o s ->
  keeps (sctx s) (sctx s').
Proof.
  intros Ho E Hm. destruct o; simpl in E.
  - destruct Ho as (_ & Hf & _). unfold hev_task_new in E. destruct stack_ok; simpl in E.
    + open_call. intros (t & Ht & Hs). exists t. simpl. split; [|done].
      rewrite lookup_insert_ne; [done|]. intros ->. congruence.
    + by injection E as <-.
  - open_call. by eapply upd_keeps; [eassumption|intros _ ?].
  - open_call. destruct Ho as (_ & y & Hy & Hl & _). eapply unref_keeps; [eassumption|].
    intros z -> Hz Hs. rewrite Hy in Hz. injection Hz as <-.
    assert (1 < ref_count y); [|lia]. apply Hl. by intros Es; rewrite Es in Hs.
  - open_call. by eapply upd_keeps; [eassumption|intros _ ?].
  - open_call. by eapply run_keeps.
  - open_call. by eapply wakeup_keeps.
  - by eapply switch_keeps.
  - open_call; by eapply pick_keeps.
  - eapply switch_keeps; [done|]. destruct waitio; [|done]. by destruct Hm as [|Hm].
  - apply bind_Some in E as ([c1 lm] & H1 & E). unfold hev_task_sleep_begin in H1.
    destruct (Z.eqb ms 0); [injection H1 as <- <-; by injection E as <-|].
    apply bind_Some in H1 as ([c2 b] & H1 & [= <- <-]). unfold timer_wait_begin in H1.
    apply bind_Some in H1 as ([T l] & _ & [= <- <-]).
    eapply switch_keeps in E; [exact E|]. exact Hm.
  - apply bind_Some in E as ([c1 e] & H1 & E). unfold hev_task_join in H1.
    apply bind_Some in H1 as (y & _ & H1). destruct (negb _); [injection H1 as <- <-; by injection E as <-|].
    apply bind_Some in H1 as (c2 & H2 & H1). apply bind_Some in H1 as ([c3 b] & H1 & [= <- <-]).
    pose proof (upd_task_current _ _ _ _ H2) as Ec2. apply join_turn_keeps in H1 as [H1 Ec3].
    transitivity c2; [by eapply upd_keeps; [exact H2|intros _ ?]|].
    transitivity c3; [done|]. destruct b; [by injection E as <-|].
    eapply switch_keeps in E; [exact E|]. simpl. by rewrite Ec3, Ec2.
  - unfold resume in E. apply bind_Some in E as (f & _ & E). destruct f as [node lm|t].
    + open_call. by eapply timer_wait_end_keeps.
    + apply bind_Some in E as ([c1 e] & H1 & E). apply join_turn_keeps in H1 as [H1 Ec1].
      transitivity c1; [done|]. destruct e; [by injection E as <-|].
      eapply switch_keeps in E; [exact E|]. simpl. by rewrite Ec1.
  - apply bind_Some in E as (c1 & H1 & E).
    assert (keeps (sctx s) c1 /\ current_task c1 = current_task (sctx s)) as [K Ec].
    { unfold executer_end, hev_task_wakeup in H1. open_call; [|done].
      split; [by eapply wakeup_keeps|by eapply wakeup_current]. }
    transitivity c1; [done|]. eapply switch_keeps in E; [exact E|]. simpl. by rewrite Ec.
  - by eapply switch_keeps.
Qed.
End keep.

(** The locals of a call are those of the current task. *)
Lemma switch_frames fuel type ps fs c s : switch fuel type ps fs c = Some s -> frames s = fs.
Proof. unfold switch. intros E. by apply bind_Some in E as ([[c' ps'] r] & _ & [= <-]). Qed.

(** The task is not the one that calls. *)
Definition away (t : Z) (s : Sys) : Prop := t <> current_task (sctx s) \/ smode s <> InTask.

Lemma op_in_task o s : op_ok o s -> match o with
  | OYield _ _ | OSleep _ _ _ _ | OJoin _ _ | OResume _ _ | OEnd _ | OExit _ => smode s = InTask
  | _ => True end.
Proof. destruct o; simpl; try done; unfold calling; tauto. Qed.

Lemma away_may_exec P x o s : op_ok o s -> away x s -> may_exec P x o s.
Proof. intros Ho%op_in_task Ha. unfold away in Ha. destruct o; simpl in *; tauto. Qed.

Lemma exec_frames fuel o s s' t : op_ok o s -> exec fuel o s = Some s' -> away t s ->
  frames s' !! t = frames s !! t.
Proof.
  intros Ho%op_in_task E Ha.
  destruct o; simpl in E; try (by apply switch_frames in E as ->); try (by open_call);
    try (assert (Ht : t <> current_task (sctx s)) by (unfold away in Ha; tauto)).
  - apply bind_Some in E as ([c1 lm] & _ & E). destruct lm; [|by injection E as <-].
    apply switch_frames in E as ->. by rewrite lookup_insert_ne.
  - apply bind_Some in E as ([c1 e] & _ & E). destruct e as [[]|]; try (by injection E as <-).
    apply switch_frames in E as ->. by rewrite lookup_insert_ne.
  - unfold resume in E. apply bind_Some in E as (f & _ & E).
    destruct f as [node lm|u]; apply bind_Some in E as ([c1 e] & _ & E).
    + injection E as <-. simpl. by rewrite lookup_delete_ne.
    + destruct e; [injection E as <-; simpl; by rewrite lookup_delete_ne|].
      by apply switch_frames in E as ->.
  - apply bind_Some in E as (c1 & _ & E). by apply switch_frames in E as ->.
Qed.
