(* ===== verification/Mutex.v ===== *)
(** * The mutex of the task library (kern/sync/hev-task-mutex.c)

    The mutex in its memory, and then among tasks: a task is in its own code, in
    a call of the scheduler (Tasks) or in the loop of [hev_task_mutex_lock],
    which yields by way of the scheduler. *)
From S2P Require Import Prelude CInt RBTree RBTreeCached List Sched Tasks.

(** ** The mutex and the nodes of its waiters *)

Record HevTaskMutex := mkMutex { locker : Z; waiters : Z }.
Record HevTaskMutexNode := mkMutexNode { mn_next : Z; mn_task : Z }.

Definition hev_task_mutex_init : HevTaskMutex := mkMutex 0 0.

Definition set_locker (v : Z) (self : HevTaskMutex) : HevTaskMutex := mkMutex v (waiters self).

(** [hev_task_mutex_lock] on a mutex that is taken, up to its loop; [node] is the
    address of its local. *)
Definition mutex_lock_enter (self : HevTaskMutex) (node task : Z) (h : gmap Z HevTaskMutexNode)
  : HevTaskMutex * gmap Z HevTaskMutexNode :=
  (mkMutex (locker self) node, <[node := mkMutexNode (waiters self) task]> h).

(** The loop's condition, after a yield. *)
Definition mutex_lock_again (self : HevTaskMutex) (node : Z) : bool :=
  negb (Z.eqb (locker self) 0) || negb (Z.eqb (waiters self) node).

(** From the loop to the end, where the node's memory is gone. *)
Definition mutex_lock_leave (self : HevTaskMutex) (node : Z) (h : gmap Z HevTaskMutexNode)
  : option (HevTaskMutex * gmap Z HevTaskMutexNode) :=
  n ← h !! node; Some (mkMutex 1 (mn_next n), delete node h).

(** Whom [hev_task_mutex_unlock] wakes. *)
Definition mutex_first_waiter (self : HevTaskMutex) (h : gmap Z HevTaskMutexNode) : option (option Z) :=
  if Z.eqb (waiters self) 0 then Some None else n ← h !! waiters self; Some (Some (mn_task n)).

(** ** Tasks that use it *)

(** [m_lockers]: the nodes of the tasks that are in [hev_task_mutex_lock];
    [m_owners]: the tasks between their lock and their unlock. *)
Record MSys := mkMSys {
  m_sys : Sys;
  m_mutex : HevTaskMutex;
  m_nodes : gmap Z HevTaskMutexNode;
  m_lockers : gmap Z Z;
  m_owners : gset Z;
}.

Definition msys0 : MSys := mkMSys sys0 hev_task_mutex_init ∅ ∅ ∅.

Inductive mop :=
| MOther (o : op)
| MLock (node : Z) (ps : list Poll)
| MResume (ps : list Poll)
| MTrylock
| MUnlock.

Section mexec.
Variable fuel : nat.

Definition with_sys (m : MSys) (s : Sys) : MSys :=
  mkMSys s (m_mutex m) (m_nodes m) (m_lockers m) (m_owners m).

(** [self->locker = 1; return 0] *)
Definition mutex_take (m : MSys) : MSys :=
  mkMSys (m_sys m) (set_locker 1 (m_mutex m)) (m_nodes m) (m_lockers m)
    ({[current_task (sctx (m_sys m))]} ∪ m_owners m).

Definition hev_task_mutex_lock (node : Z) (ps : list Poll) (m : MSys) : option MSys :=
  let cur := current_task (sctx (m_sys m)) in
  if negb (Z.eqb (locker (m_mutex m)) 0) then
    let '(mu, h) := mutex_lock_enter (m_mutex m) node cur (m_nodes m) in
    s ← exec fuel (OYield true ps) (m_sys m);
    Some (mkMSys s mu h (<[cur := node]> (m_lockers m)) (m_owners m))
  else Some (mutex_take m).

(** What a task in the lock's loop does when it is running again. *)
Definition mutex_lock_resume (ps : list Poll) (m : MSys) : option MSys :=
  let cur := current_task (sctx (m_sys m)) in
  node ← m_lockers m !! cur;
  if mutex_lock_again (m_mutex m) node then
    s ← exec fuel (OYield true ps) (m_sys m); Some (with_sys m s)
  else
    '(mu, h) ← mutex_lock_leave (m_mutex m) node (m_nodes m);
    Some (mutex_take (mkMSys (m_sys m) mu h (delete cur (m_lockers m)) (m_owners m))).

Definition hev_task_mutex_trylock (m : MSys) : MSys * Z :=
  if negb (Z.eqb (locker (m_mutex m)) 0) then (m, -1) else (mutex_take m, 0).

Definition hev_task_mutex_unlock (m : MSys) : option MSys :=
  let mu := set_locker 0 (m_mutex m) in
  let m := mkMSys (m_sys m) mu (m_nodes m) (m_lockers m)
             (m_owners m ∖ {[current_task (sctx (m_sys m))]}) in
  w ← mutex_first_waiter mu (m_nodes m);
  match w with
  | Some t => s ← exec fuel (OWakeup t) (m_sys m); Some (with_sys m s)
  | None => Some m
  end.

Definition mexec (o : mop) (m : MSys) : option MSys :=
  match o with
  | MOther o => s ← exec fuel o (m_sys m); Some (with_sys m s)
  | MLock node ps => hev_task_mutex_lock node ps m
  | MResume ps => mutex_lock_resume ps m
  | MTrylock => Some (hev_task_mutex_trylock m).1
  | MUnlock => hev_task_mutex_unlock m
  end.

Fixpoint mexecs (os : list mop) (m : MSys) : option MSys :=
  match os with [] => Some m | o :: os => m ← mexec o m; mexecs os m end.
End mexec.

(** ** What the callers owe: only an owner unlocks, nobody locks twice or ends
    as an owner, and a task in the lock's loop does nothing else. *)

Definition free_hands (m : MSys) : Prop :=
  calling (m_sys m) /\ m_lockers m !! current_task (sctx (m_sys m)) = None.

Definition mop_ok (o : mop) (m : MSys) : Prop :=
  let s := m_sys m in
  let cur := current_task (sctx s) in
  match o with
  | MOther o => op_ok o s /\ (smode s = InTask -> m_lockers m !! cur = None) /\
      (match o with OEnd _ | OExit _ => cur ∉ m_owners m | _ => True end)
  | MLock node ps => free_hands m /\ polls_live (sctx s) 0 ps /\ node <> 0 /\ m_nodes m !! node = None /\
      cur ∉ m_owners m
  | MResume ps => smode s = InTask /\ is_Some (m_lockers m !! cur) /\ polls_live (sctx s) 0 ps
  | MTrylock => free_hands m /\ cur ∉ m_owners m
  | MUnlock => free_hands m /\ cur ∈ m_owners m
  end.

Fixpoint mops_ok (fuel : nat) (os : list mop) (m : MSys) : Prop :=
  match os with
  | [] => True
  | o :: os => mop_ok o m /\ forall m', mexec fuel o m = Some m' -> mops_ok fuel os m'
  end.

#[export] Instance mop_ok_dec o m : Decision (mop_ok o m).
Proof.
  destruct o; simpl; unfold free_hands; try apply _.
  apply and_dec; [apply _|]. apply and_dec; [apply _|]. destruct o; apply _.
Defined.

Fixpoint mops_okb (fuel : nat) (os : list mop) (m : MSys) : bool :=
  match os with
  | [] => true
  | o :: os => bool_decide (mop_ok o m) &&
      match mexec fuel o m with Some m => mops_okb fuel os m | None => true end
  end.

Lemma mops_okb_ok fuel os m : mops_okb fuel os m = true -> mops_ok fuel os m.
Proof.
  revert m. induction os as [|o os IH]; intros m; simpl; [done|].
  intros [H1 H2]%andb_true_iff. split; [by apply bool_decide_eq_true in H1|].
  intros s' E. rewrite E in H2. by apply IH.
Qed.
