(* ===== verification/MutexProps.v ===== *)
(** * The mutex: its invariant and its properties *)
From stdpp Require Import sorting.
From S2P Require Import Prelude RBTree RBTreeShape RBTreeSpec List CInt RBTreeCached Sched SchedSpec SchedRun Tasks TasksSpec TasksOps TasksSafe TasksKeep Mutex.

(** ** The invariant *)

(** The nodes from [p] on are [ws]; each is the node of the task it names. *)
Fixpoint chain (h : gmap Z HevTaskMutexNode) (ls : gmap Z Z) (p : Z) (ws : list Z) : Prop :=
  match ws with
  | [] => p = 0
  | w :: ws => p = w /\ w <> 0 /\ exists n, h !! w = Some n /\ ls !! mn_task n = Some w /\
      chain h ls (mn_next n) ws
  end.

(** The task that the next unlock has woken, or would wake. *)
Definition first_waiter (m : MSys) (ws : list Z) : option Z :=
  w ← head ws; mn_task <$> m_nodes m !! w.

Abbreviation ready := (held (fun st => st = HEV_TASK_RUNNING)).
Abbreviation alive := (held (fun st => st <> HEV_TASK_STOPPED)).

(** [ws]: the nodes of the tasks in the lock's loop, the youngest first. *)
Record mutex_ok (m : MSys) (ws : list Z) : Prop := {
  mo_sys : ok (m_sys m);
  mo_chain : chain (m_nodes m) (m_lockers m) (waiters (m_mutex m)) ws;
  mo_nodup : NoDup ws;
  mo_lockers : forall t w, m_lockers m !! t = Some w -> w ∈ ws /\
    (exists n, m_nodes m !! w = Some n /\ mn_task n = t) /\
    alive t (sctx (m_sys m)) /\ frames (m_sys m) !! t = None;
  mo_exclusive : forall a b, a ∈ m_owners m -> b ∈ m_owners m -> a = b;
  mo_taken : locker (m_mutex m) = 0 <-> m_owners m = ∅;
  mo_woken : locker (m_mutex m) = 0 -> forall t, first_waiter m ws = Some t -> ready t (sctx (m_sys m));
}.

Lemma chain_ext h h' ls ls' p ws : chain h ls p ws ->
  (forall w n, w ∈ ws -> h !! w = Some n -> ls !! mn_task n = Some w ->
     h' !! w = Some n /\ ls' !! mn_task n = Some w) -> chain h' ls' p ws.
Proof.
  revert p. induction ws as [|w ws IH]; intros p; simpl; [done|].
  intros (-> & Hw & n & Hn & Hl & Hc) He. split; [done|]. split; [done|].
  destruct (He w n) as [Hn' Hl']; [by left|done|done|]. exists n. split_and!; [done|done|].
  apply IH; [done|]. intros v k Hv. apply He. by right.
Qed.

Lemma chain_unique h ls p ws ws' : chain h ls p ws -> chain h ls p ws' -> ws = ws'.
Proof.
  revert p ws'. induction ws as [|w ws IH]; intros p [|w' ws']; simpl; [done|..].
  - by intros -> (<- & ? & _).
  - by intros (-> & ? & _) ?.
  - intros (-> & _ & n & Hn & _ & Hc) (<- & _ & n' & Hn' & _ & Hc'). rewrite Hn in Hn'.
    injection Hn' as <-. by rewrite (IH _ ws' Hc Hc').
Qed.

(** ** Steps of the scheduler under the mutex *)

Lemma running_P : (fun st => st = HEV_TASK_RUNNING) HEV_TASK_RUNNING.
Proof. done. Qed.

(** A step of the scheduler that concerns no task in the lock's loop, but
    perhaps the wait of one of them. *)
Definition concerns (m : MSys) (ws : list Z) (o : op) (t : Z) : Prop :=
  away t (m_sys m) \/ (exists ps, o = OYield true ps) /\
    (locker (m_mutex m) = 0 -> first_waiter m ws <> Some t).

Lemma sys_step_ok fuel m ws o :
  mutex_ok m ws -> op_ok o (m_sys m) -> room fuel (sctx (m_sys m)) ->
  (forall t w, m_lockers m !! t = Some w -> concerns m ws o t) ->
  wp (exec fuel o (m_sys m)) (fun s' => mutex_ok (with_sys m s') ws).
Proof.
  intros H Ho Hr Hl. destruct (exec_ok fuel o (m_sys m) (mo_sys _ _ H) Ho Hr) as (s' & E & Hok).
  exists s'. split; [done|]. destruct H as [Hs Hc Hnd Hlk He Ht Hw]. constructor; try done; simpl.
  - intros t w Htw. destruct (Hlk t w Htw) as (Hin & Hn & Ha & Hf). split; [done|]. split; [done|].
    specialize (Hl t w Htw). split.
    + apply (exec_keeps (fun st => st <> HEV_TASK_STOPPED) ltac:(done) ltac:(tauto) t fuel o _ _ Ho E); [|done].
      destruct Hl as [Hl|[[ps ->] _]]; [by apply away_may_exec|]. by right; right.
    + destruct Hl as [Hl|[[ps ->] _]]; [by rewrite (exec_frames _ _ _ _ _ Ho E Hl)|].
      simpl in E. by apply switch_frames in E as ->.
  - intros H0 t Hft. apply (exec_keeps (fun st => st = HEV_TASK_RUNNING) ltac:(done) ltac:(done) t fuel o _ _ Ho E).
    + assert (exists w, m_lockers m !! t = Some w) as [w Htw].
      { unfold first_waiter in Hft. simpl in Hft. apply bind_Some in Hft as (w & Hw' & Hft).
        destruct ws as [|w' ws]; [done|]. injection Hw' as ->. destruct Hc as (_ & _ & n & Hn & Hln & _).
        rewrite Hn in Hft. injection Hft as <-. by exists w. }
      destruct (Hl t w Htw) as [Ha|[_ Hne]]; [by apply away_may_exec|]. by destruct (Hne H0).
    + by apply Hw.
Qed.

Section calls.
Variable fuel : nat.

Lemma other_ok m ws o : mutex_ok m ws -> mop_ok (MOther o) m -> room fuel (sctx (m_sys m)) ->
  wp (mexec fuel (MOther o) m) (fun m' => mutex_ok m' ws).
Proof.
  intros H (Ho & Hfree & Hend) Hr. simpl. apply wp_bind.
  eapply wp_mono; [apply (sys_step_ok fuel m ws o H Ho Hr)|intros s' Hs'; by apply wp_ret].
  intros t w Htw. left. unfold away. destruct (decide (smode (m_sys m) = InTask)) as [Em|]; [left|by right].
  intros ->. by rewrite (Hfree Em) in Htw.
Qed.

(** The lock is taken by the current task. *)
Lemma take_ok m ws : mutex_ok m ws -> locker (m_mutex m) = 0 -> mutex_ok (mutex_take m) ws.
Proof.
  intros [Hs Hc Hnd Hlk He Ht Hw] H0. apply Ht in H0. constructor; simpl; try done; rewrite H0.
  - set_solver.
  - split; [done|]. set_solver.
Qed.

Lemma free_hands_not_locker m ws t w : mutex_ok m ws -> free_hands m -> m_lockers m !! t = Some w ->
  away t (m_sys m).
Proof. intros H [_ Hf] Ht. left. intros ->. congruence. Qed.

Lemma lock_ok m ws node ps : mutex_ok m ws -> mop_ok (MLock node ps) m -> room fuel (sctx (m_sys m)) ->
  wp (mexec fuel (MLock node ps) m) (fun m' => exists ws', mutex_ok m' ws').
Proof.
  intros H (Hf & Hps & Hnz & Hfresh & Hown) Hr. simpl. unfold hev_task_mutex_lock.
  destruct (Z.eqb_spec (locker (m_mutex m)) 0) as [H0|H0]; simpl.
  { apply wp_ret. exists ws. by apply take_ok. }
  set (cur := current_task (sctx (m_sys m))) in *.
  assert (Hcalling : op_ok (OYield true ps) (m_sys m)) by (split; [apply Hf|done]).
  assert (Hni : node ∉ ws).
  { intros Hin. destruct H as [_ Hc _ _ _ _ _]. revert Hc. generalize (waiters (m_mutex m)).
    induction ws as [|w ws IH]; [by apply elem_of_nil in Hin|].
    intros p (-> & _ & n & Hn & _ & Hc). apply elem_of_cons in Hin as [->|Hin]; [congruence|by eapply IH]. }
  assert (Hcur : alive cur (sctx (m_sys m))).
  { destruct (mo_sys _ _ H) as (run & wait & sl & al & Hok). pose proof (calling_run _ _ _ _ _ Hok (proj1 Hf)) as Hr'.
    apply (ok_run _ _ _ (ok_sched _ _ _ _ _ (so_ctx _ _ _ _ _ Hok))) in Hr' as (t & Ht & Hst).
    exists t. by rewrite Hst. }
  set (m1 := mkMSys (m_sys m) (mkMutex (locker (m_mutex m)) node)
    (<[node := mkMutexNode (waiters (m_mutex m)) cur]> (m_nodes m)) (<[cur := node]> (m_lockers m)) (m_owners m)).
  assert (H1 : mutex_ok m1 (node :: ws)).
  { destruct H as [Hs Hc Hnd Hlk He Ht Hw]. constructor; simpl; try done.
    - split; [done|]. split; [done|]. eexists. rewrite lookup_insert_eq. split; [done|]. simpl.
      rewrite lookup_insert_eq. split; [done|]. eapply chain_ext; [exact Hc|].
      intros w n Hw' Hn Hl. rewrite lookup_insert_ne by (by intros ->). split; [done|].
      rewrite lookup_insert_ne; [done|]. intros E. destruct Hf as [_ Hf]. unfold cur in E. congruence.
    - by constructor.
    - intros t w. destruct (decide (t = cur)) as [->|Hne].
      + rewrite lookup_insert_eq. intros [= <-]. split; [by left|]. split; [|split; [done|apply Hf]].
        eexists. by rewrite lookup_insert_eq.
      + rewrite lookup_insert_ne by done. intros Htw. destruct (Hlk t w Htw) as (Hin & (n & Hn & Hnt) & Ha).
        split; [by right|]. split; [|done]. exists n. rewrite lookup_insert_ne; [done|]. by intros ->. }
  apply wp_bind. eapply wp_mono; [apply (sys_step_ok fuel m1 (node :: ws) _ H1 Hcalling Hr)|].
  - intros t w Htw. simpl in Htw. destruct (decide (t = cur)) as [->|Hne]; [right|by left; left].
    split; [by eexists|]. by intros ?.
  - intros s' Hs'. apply wp_ret. by exists (node :: ws).
Qed.

Lemma resume_lock_ok m ws ps : mutex_ok m ws -> mop_ok (MResume ps) m -> room fuel (sctx (m_sys m)) ->
  wp (mexec fuel (MResume ps) m) (fun m' => exists ws', mutex_ok m' ws').
Proof.
  intros H (Hm & [node Hnode] & Hps) Hr. simpl. unfold mutex_lock_resume.
  set (cur := current_task (sctx (m_sys m))) in *. rewrite Hnode. simpl.
  destruct (mo_lockers _ _ H cur node Hnode) as (Hin & (n & Hn & Hnt) & Ha & Hfr).
  destruct (mutex_lock_again (m_mutex m) node) eqn:Eg.
  - apply wp_bind. eapply wp_mono; [apply (sys_step_ok fuel m ws (OYield true ps) H)|].
    + done.
    + done.
    + intros t w Htw. destruct (decide (t = cur)) as [->|Hne]; [right|by left; left].
      split; [by eexists|]. intros H0 Hft. rewrite Hnode in Htw. injection Htw as <-.
      unfold first_waiter in Hft. apply bind_Some in Hft as (w & Hw & Hft).
      pose proof (mo_chain _ _ H) as Hc. destruct ws as [|w' ws]; [done|]. injection Hw as ->.
      destruct Hc as (Ew & _ & n' & Hn' & Hl' & _). rewrite Hn' in Hft. injection Hft as Et.
      rewrite Et, Hnode in Hl'. injection Hl' as ->. unfold mutex_lock_again in Eg.
      by rewrite H0, Ew, !Z.eqb_refl in Eg.
    + intros s' Hs'. apply wp_ret. by exists ws.
  - unfold mutex_lock_again in Eg. apply orb_false_iff in Eg as [E0%negb_false_iff Ew%negb_false_iff].
    apply Z.eqb_eq in E0, Ew. unfold mutex_lock_leave. rewrite Hn. simpl. apply wp_ret.
    destruct H as [Hs Hc Hnd Hlk He Ht Hw].
    destruct ws as [|w ws]; [by apply elem_of_nil in Hin|]. destruct Hc as (Ew' & Hnz & n' & Hn' & Hl' & Hc).
    rewrite Ew in Ew'. subst w. rewrite Hn in Hn'. injection Hn' as <-. apply NoDup_cons in Hnd as [Hni Hnd].
    exists ws. set (m1 := mkMSys (m_sys m) (mkMutex 1 (mn_next n)) (delete node (m_nodes m))
      (delete cur (m_lockers m)) (m_owners m)).
    constructor; simpl; try done.
    + eapply chain_ext; [exact Hc|]. intros w k Hw' Hk Hl. split.
      * rewrite lookup_delete_ne; [done|]. by intros <-.
      * rewrite lookup_delete_ne; [done|]. intros E. rewrite <- E, Hnode in Hl. injection Hl as ->. done.
    + intros t w [Hne Htw]%lookup_delete_Some. destruct (Hlk t w Htw) as (Hin' & (k & Hk & Hkt) & Ha' & Hfr').
      assert (w <> node) by (intros ->; congruence).
      split; [by apply elem_of_cons in Hin' as [->|]|]. split; [|done]. exists k.
      by rewrite lookup_delete_ne.
    + apply Ht in E0. rewrite E0. set_solver.
    + split; [done|]. set_solver.
Qed.

Lemma trylock_ok m ws : mutex_ok m ws -> mutex_ok (hev_task_mutex_trylock m).1 ws.
Proof.
  intros H. unfold hev_task_mutex_trylock. destruct (Z.eqb_spec (locker (m_mutex m)) 0); simpl; [|done].
  by apply take_ok.
Qed.

(** A wake-up leaves its task ready. *)
Lemma wakeup_ready s t : ok s -> op_ok (OWakeup t) s -> room fuel (sctx s) ->
  wp (exec fuel (OWakeup t) s) (fun s' => ready t (sctx s')).
Proof.
  intros (run & wait & sl & al & H) (Hm & Hl) Hr. pose proof (so_ctx _ _ _ _ _ H) as HC.
  pose proof (ok_sched _ _ _ _ _ HC) as HS. simpl. apply wp_bind.
  eapply wp_mono; [apply (wakeup_awoke fuel _ run wait t HS)|].
  { by apply (live_in _ _ _ _ HS). }
  { by eapply room_live. }
  intros c' (r & w & A & Hin). apply wp_ret. simpl.
  by apply (ok_run _ _ _ (aw_ok _ _ _ _ _ _ A)) in Hin.
Qed.

Lemma unlock_ok m ws : mutex_ok m ws -> mop_ok MUnlock m -> room fuel (sctx (m_sys m)) ->
  wp (mexec fuel MUnlock m) (fun m' => mutex_ok m' ws /\ locker (m_mutex m') = 0).
Proof.
  intros H ([Hc Hl] & Hin) Hr. simpl. unfold hev_task_mutex_unlock.
  set (cur := current_task (sctx (m_sys m))) in *.
  set (m1 := mkMSys (m_sys m) (set_locker 0 (m_mutex m)) (m_nodes m) (m_lockers m) (m_owners m ∖ {[cur]})).
  assert (Hnone : m_owners m ∖ {[cur]} = ∅).
  { apply set_eq. intros x. rewrite elem_of_difference, elem_of_singleton. split; [|set_solver].
    intros [Hx Hne]. by destruct Hne, (mo_exclusive _ _ H x cur). }
  assert (Hpre : forall s', (forall t, alive t (sctx (m_sys m)) -> frames (m_sys m) !! t = None ->
      alive t (sctx s') /\ frames s' !! t = None) -> ok s' ->
      (forall t, first_waiter m ws = Some t -> ready t (sctx s')) -> mutex_ok (with_sys m1 s') ws).
  { intros s' Hk Hok Hfst. destruct H as [Hs Hch Hnd Hlk He Ht Hw]. constructor; simpl; try done.
    - intros t w Htw. destruct (Hlk t w Htw) as (? & ? & Ha & Hf). split_and!; try done; by apply Hk.
    - rewrite Hnone. set_solver. }
  apply wp_bind. unfold mutex_first_waiter. simpl. pose proof (mo_chain _ _ H) as Hch.
  destruct ws as [|w ws]; simpl in Hch.
  - rewrite Hch. simpl. do 2 apply wp_ret. split; [|done].
    apply (Hpre (m_sys m)); [done|apply H|done].
  - destruct Hch as (Ew & Hnz & n & Hn & Hln & _). rewrite Ew, (proj2 (Z.eqb_neq w 0) Hnz), Hn. simpl.
    apply wp_ret. destruct (mo_lockers _ _ H _ _ Hln) as (_ & _ & Ha & Hfr).
    assert (Ho : op_ok (OWakeup (mn_task n)) (m_sys m)) by (split; [by right|exact Ha]).
    destruct (exec_ok fuel _ (m_sys m) (mo_sys _ _ H) Ho Hr) as (s' & E & Hok).
    destruct (wakeup_ready _ _ (mo_sys _ _ H) Ho Hr) as (s2 & E2 & Hrdy). rewrite E in E2. injection E2 as <-.
    apply wp_bind. exists s'. split; [done|]. apply wp_ret. split; [|done]. apply Hpre; [|done|].
    + intros t Hta Htf. split.
      * by apply (exec_keeps (fun st => st <> HEV_TASK_STOPPED) ltac:(done) ltac:(tauto) t fuel _ _ _ Ho E).
      * simpl in E. apply bind_Some in E as (c' & _ & [= <-]). done.
    + intros t. unfold first_waiter. simpl. rewrite Hn. by intros [= <-].
Qed.

(** ** Every call *)

Lemma mexec_ok o m ws : mutex_ok m ws -> mop_ok o m -> room fuel (sctx (m_sys m)) ->
  wp (mexec fuel o m) (fun m' => exists ws', mutex_ok m' ws').
Proof.
  intros H Ho Hr. destruct o.
  - eapply wp_mono; [by apply (other_ok m ws)|]. intros m' ?. by exists ws.
  - by apply (lock_ok m ws).
  - by apply (resume_lock_ok m ws).
  - apply wp_ret. exists ws. by apply trylock_ok.
  - eapply wp_mono; [by apply (unlock_ok m ws)|]. intros m' [? _]. by exists ws.
Qed.

Lemma mexec_size o m m' : mexec fuel o m = Some m' ->
  (size (tasks (sctx (m_sys m'))) <= size (tasks (sctx (m_sys m))) + 1)%nat.
Proof.
  assert (Hx : forall o s s', exec fuel o s = Some s' ->
    (size (tasks (sctx s')) <= size (tasks (sctx s)) + 1)%nat).
  { intros o' s s' E%exec_size. assert (news o' <= 1)%nat by (destruct o'; simpl; lia). lia. }
  intros E. destruct o; simpl in E.
  - apply bind_Some in E as (s' & E & [= <-]). by eapply Hx.
  - unfold hev_task_mutex_lock in E. destruct (negb _); [|injection E as <-; simpl; lia].
    apply bind_Some in E as (s' & E & [= <-]). by eapply Hx.
  - unfold mutex_lock_resume in E. apply bind_Some in E as (node & _ & E). destruct (mutex_lock_again _ _).
    + apply bind_Some in E as (s' & E & [= <-]). by eapply Hx.
    + apply bind_Some in E as ([mu h] & _ & [= <-]). simpl. lia.
  - injection E as <-. unfold hev_task_mutex_trylock. destruct (negb _); simpl; lia.
  - unfold hev_task_mutex_unlock in E. apply bind_Some in E as (w & _ & E). destruct w as [t|].
    + apply bind_Some in E as (s' & E & [= <-]). by eapply Hx.
    + injection E as <-. simpl. lia.
Qed.

Lemma mexecs_ok os m ws : mutex_ok m ws -> mops_ok fuel os m ->
  (2 * (size (tasks (sctx (m_sys m))) + length os) + 10 < fuel)%nat ->
  wp (mexecs fuel os m) (fun m' => exists ws', mutex_ok m' ws').
Proof.
  revert m ws. induction os as [|o os IH]; intros m ws H Hops Hf; simpl in *.
  { apply wp_ret. by exists ws. }
  destruct Hops as [Ho Hops]. apply wp_bind.
  destruct (mexec_ok o m ws H Ho) as (m' & E & ws' & H'); [unfold room; lia|].
  exists m'. split; [done|]. apply (IH m' ws'); [done|by apply Hops|].
  pose proof (mexec_size o m m' E). lia.
Qed.
End calls.

Lemma msys0_ok : mutex_ok msys0 [].
Proof. constructor; simpl; try done; [apply sys0_ok|apply NoDup_nil_2]. Qed.

(** * The mutex: properties *)

(** Three tasks: the first has the lock while the two others come to wait. *)
Definition mutex_poll : Poll := mkPoll [] (mkTime 0 0).
Definition mutex_ops : list mop :=
  (MOther <$> [ONew 4096 true; ONew 8192 true; ONew 12288 true; ORun 4096; ORun 8192; ORun 12288;
               OSystemRun []]) ++
  [MLock 4352 []; MOther (OYield false []); MLock 8448 [mutex_poll]; MTrylock; MLock 12544 [mutex_poll];
   MUnlock; MOther (OYield false [mutex_poll]); MResume []].

(** C6: Whatever the tasks do, at most one of them is between its lock and its
    unlock; the lock is free exactly when none is; and no wake-up is lost: when
    the lock is free, the task that is first in line is ready to run. *)
Theorem mutex_excludes fuel os : mops_ok fuel os msys0 -> (2 * length os + 10 < fuel)%nat ->
  wp (mexecs fuel os msys0) (fun m => exists ws, mutex_ok m ws /\
    (forall a b, a ∈ m_owners m -> b ∈ m_owners m -> a = b) /\
    (locker (m_mutex m) = 0 -> m_owners m = ∅ /\
       forall t, first_waiter m ws = Some t -> ready t (sctx (m_sys m)))).
Proof.
  intros Hops Hf. eapply wp_mono; [apply (mexecs_ok fuel os msys0 []); [apply msys0_ok|done|]|].
  { change (size (tasks (sctx (m_sys msys0)))) with 0%nat. lia. }
  intros m (ws & H). exists ws. split; [done|]. split.
  - apply H.
  - intros H0. split; [by apply (mo_taken _ _ H)|by apply (mo_woken _ _ H)].
Qed.

Definition mutex_demo (n : nat) : MSys := default msys0 (mexecs 60 (take n mutex_ops) msys0).

Lemma mutex_excludes_witness :
  wp (mexecs 60 mutex_ops msys0) (fun m => exists ws, mutex_ok m ws /\
    (forall a b, a ∈ m_owners m -> b ∈ m_owners m -> a = b) /\
    (locker (m_mutex m) = 0 -> m_owners m = ∅ /\
       forall t, first_waiter m ws = Some t -> ready t (sctx (m_sys m)))) /\
  elements (m_owners (mutex_demo 15)) = [12288].
Proof.
  split; [|vm_compute; reflexivity].
  apply (mutex_excludes 60 mutex_ops); [apply mops_okb_ok; vm_compute; reflexivity|simpl; lia].
Defined.

(** The task that is first in line gets the free lock when it runs: its call
    of [hev_task_mutex_lock] returns, the line moves up by one. *)
Theorem first_waiter_gets_lock fuel m ws ps :
  mutex_ok m ws -> mop_ok (MResume ps) m -> locker (m_mutex m) = 0 ->
  first_waiter m ws = Some (current_task (sctx (m_sys m))) ->
  wp (mexec fuel (MResume ps) m) (fun m' => m_owners m' = {[current_task (sctx (m_sys m))]} /\
    locker (m_mutex m') = 1 /\ m_lockers m' = delete (current_task (sctx (m_sys m))) (m_lockers m) /\
    m_sys m' = m_sys m /\ chain (m_nodes m') (m_lockers m') (waiters (m_mutex m')) (tail ws)).
Proof.
  intros H (Hm & [node Hnode] & Hps) H0 Hft. simpl. unfold mutex_lock_resume. rewrite Hnode. simpl.
  unfold first_waiter in Hft. apply bind_Some in Hft as (w & Hw & Hft).
  pose proof (mo_chain _ _ H) as Hc. pose proof (mo_nodup _ _ H) as Hnd.
  destruct ws as [|w' ws]; [done|]. injection Hw as ->. apply NoDup_cons in Hnd as [Hni Hnd].
  destruct Hc as (Ew & _ & n & Hn & Hl & Hc). rewrite Hn in Hft. injection Hft as Et.
  rewrite Et, Hnode in Hl. injection Hl as ->.
  unfold mutex_lock_again, mutex_lock_leave. rewrite H0, Ew, !Z.eqb_refl, Hn. simpl. apply wp_ret. simpl.
  split_and!; try done.
  - rewrite (proj1 (mo_taken _ _ H) H0). set_solver.
  - eapply chain_ext; [exact Hc|]. intros v k Hv Hk Hl. rewrite !lookup_delete_ne; [done|..].
    + intros E. rewrite <- E, Hnode in Hl. injection Hl as ->. done.
    + by intros ->.
Qed.

Lemma first_waiter_gets_lock_witness :
  wp (mexec 60 (MResume []) (mutex_demo 14)) (fun m' => m_owners m' = {[12288]} /\
    locker (m_mutex m') = 1 /\ m_lockers m' = delete 12288 (m_lockers (mutex_demo 14)) /\
    m_sys m' = m_sys (mutex_demo 14) /\ chain (m_nodes m') (m_lockers m') (waiters (m_mutex m')) [8448]).
Proof.
  destruct (mexecs_ok 60 (take 14 mutex_ops) msys0 [] msys0_ok) as (m & Em & ws & H).
  { apply mops_okb_ok. vm_compute. reflexivity. }
  { change (size (tasks (sctx (m_sys msys0)))) with 0%nat. simpl. lia. }
  assert (Ed : mutex_demo 14 = m) by (unfold mutex_demo; by rewrite Em). rewrite <- Ed in H. clear Em Ed.
  assert (ws = [12544; 8448]) as ->.
  { eapply chain_unique; [apply (mo_chain _ _ H)|].
    do 2 (split; [vm_compute; reflexivity|]; split; [discriminate|];
      eexists; split; [vm_compute; reflexivity|]; split; [vm_compute; reflexivity|]).
    reflexivity. }
  change 12288 with (current_task (sctx (m_sys (mutex_demo 14)))).
  apply (first_waiter_gets_lock 60 (mutex_demo 14) [12544; 8448] []); [exact H|..].
  - refine (bool_decide_eq_true_1 _ _). vm_compute. reflexivity.
  - vm_compute. reflexivity.
  - vm_compute. reflexivity.
Defined.
