(* ===== verification/Slice.v ===== *)
(** * The caching allocator (task library: mem/slice/hev-memory-allocator-slice.c,
      mem/api/hev-memory-allocator-api.c)

    Blocks that are given back are kept in lists by size class, the classes in
    the order of their use; a full cache gives a block of the last class back to
    the C library.  A block is its header and room for the user's bytes; the C
    library's [malloc] and [realloc] are an argument: the address they return,
    [None] when there is no memory.  A pointer to [lru_nodes[i]] is [i + 1]. *)
From S2P Require Import Prelude CInt List.

Definition CACHED_SLICE_ALIGN : Z := 16.
Definition MAX_CACHED_SLICE_SIZE : Z := 4096.
Definition MAX_CACHED_SLICE_COUNT : Z := 1000.
Definition MAX_CACHED_SLICE_INDEX : Z := MAX_CACHED_SLICE_SIZE / CACHED_SLICE_ALIGN.

(** ** Data *)

Record HevMemorySlice := mkSlice { s_next : Z; s_index : Z }.

(** A block of the C library: the header and the number of bytes behind it. *)
Record Block := mkBlock { b_slice : HevMemorySlice; b_room : Z }.
Definition sizeof_slice : Z := 16.

(** [lru]: [lru_head], [lru_tail] and [lru_nodes]. *)
Record HevMemoryAllocatorSlice := mkAlloc {
  lru : HevList;
  cached_count : Z;
  cached_mslices : list Z;
  blocks : gmap Z Block;
}.
Abbreviation Alloc := HevMemoryAllocatorSlice.

(** [lru_nodes] is left as it is. *)
Definition hev_memory_allocator_slice_new (nodes : gmap Z HevListNode) (bs : gmap Z Block) : Alloc :=
  mkAlloc (mkList 0 0 nodes) 0 (repeat 0 (Z.to_nat MAX_CACHED_SLICE_INDEX)) bs.

Definition set_lru l (A : Alloc) := mkAlloc l (cached_count A) (cached_mslices A) (blocks A).
Definition set_count n (A : Alloc) := mkAlloc (lru A) n (cached_mslices A) (blocks A).
Definition set_blocks b (A : Alloc) := mkAlloc (lru A) (cached_count A) (cached_mslices A) b.

Definition get_cached (i : Z) (A : Alloc) : option Z :=
  if Z.ltb i 0 then None else cached_mslices A !! Z.to_nat i.
Definition put_cached (i v : Z) (A : Alloc) : Alloc :=
  mkAlloc (lru A) (cached_count A) (<[Z.to_nat i := v]> (cached_mslices A)) (blocks A).

Definition put_slice (a : Z) (s : HevMemorySlice) (A : Alloc) : option Alloc :=
  b ← blocks A !! a; Some (set_blocks (<[a := mkBlock s (b_room b)]> (blocks A)) A).
Definition get_slice (a : Z) (A : Alloc) : option HevMemorySlice :=
  b ← blocks A !! a; Some (b_slice b).

(** The C library's [free]. *)
Definition libc_free (a : Z) (A : Alloc) : option Alloc :=
  b ← blocks A !! a; Some (set_blocks (delete a (blocks A)) A).

(** ** The order of the classes *)

Definition _hev_memory_allocator_lru_insert (node : Z) (L : HevList) : option HevList :=
  let next := if negb (Z.eqb (l_head L) 0) then l_head L else 0 in
  let L1 := mkList (l_head L) (l_tail L) (<[node := mkListNode next 0]> (lcells L)) in
  L1 ← (if negb (Z.eqb (l_head L) 0) then set_prev L1 (l_head L) node else Some L1);
  let L1 := set_head L1 node in
  Some (if Z.eqb (l_tail L1) 0 then set_tail L1 node else L1).

Definition _hev_memory_allocator_lru_remove (node : Z) (L : HevList) : option HevList :=
  n ← lcells L !! node;
  L ← (if negb (Z.eqb (l_prev n) 0) then set_next L (l_prev n) (l_next n) else Some L);
  L ← (if negb (Z.eqb (l_next n) 0) then set_prev L (l_next n) (l_prev n) else Some L);
  let L := if Z.eqb (l_head L) node then set_head L (l_next n) else L in
  Some (if Z.eqb (l_tail L) node then set_tail L (l_prev n) else L).

(** ** Operations *)

(** On [size_t]. *)
Definition ALIGN_UP (size : Z) : Z :=
  Z.land (u64 (size + CACHED_SLICE_ALIGN - 1)) (u64 (Z.lnot (CACHED_SLICE_ALIGN - 1))).

(** [malloc (sizeof (HevMemorySlice) + size)] and the header's index; a block
    that is too small for a header is a bad access. *)
Definition new_slice (m : option Z) (size index : Z) (A : Alloc) : option (Alloc * Z) :=
  match m with
  | None => Some (A, 0)
  | Some a =>
      let total := u64 (sizeof_slice + size) in
      if Z.ltb total sizeof_slice then None else
      Some (set_blocks (<[a := mkBlock (mkSlice 0 index) (total - sizeof_slice)]> (blocks A)) A, a)
  end.

(** The results are slices; the user's pointers are behind them. *)
Definition _hev_memory_allocator_alloc (m : option Z) (size : Z) (A : Alloc) : option (Alloc * Z) :=
  let size := ALIGN_UP size in
  let index := i32 (size / CACHED_SLICE_ALIGN) in
  if Z.eqb index 0 then Some (A, 0) else
  if (Z.leb 1 index && Z.leb index MAX_CACHED_SLICE_INDEX)%bool then
    owner ← get_cached (index - 1) A;
    if negb (Z.eqb owner 0) then
      s ← get_slice owner A;
      let A := put_cached (index - 1) (s_next s) A in
      let A := set_count (cached_count A - 1) A in
      L ← _hev_memory_allocator_lru_remove index (lru A);
      L ← (if negb (Z.eqb (s_next s) 0) then _hev_memory_allocator_lru_insert index L else Some L);
      Some (set_lru L A, owner)
    else new_slice m size (index - 1) A
  else new_slice m size (-1) A.

(** [if (self->cached_count >= MAX_CACHED_SLICE_COUNT) { ... }] *)
Definition free_evict (A : Alloc) : option Alloc :=
  let node := l_tail (lru A) in
  free_slice ← get_cached (node - 1) A;
  s ← get_slice free_slice A;
  let A := put_cached (node - 1) (s_next s) A in
  let A := set_count (cached_count A - 1) A in
  L ← (if Z.eqb (s_next s) 0 then _hev_memory_allocator_lru_remove node (lru A) else Some (lru A));
  libc_free free_slice (set_lru L A).

Definition _hev_memory_allocator_free (slice : Z) (A : Alloc) : option Alloc :=
  s ← get_slice slice A;
  if Z.ltb (s_index s) 0 then libc_free slice A else
  A ← (if Z.leb MAX_CACHED_SLICE_COUNT (cached_count A) then free_evict A else Some A);
  next ← get_cached (s_index s) A;
  A ← put_slice slice (mkSlice next (s_index s)) A;
  let A := put_cached (s_index s) slice A in
  let A := set_count (cached_count A + 1) A in
  L ← (if Z.eqb next 0 then _hev_memory_allocator_lru_insert (s_index s + 1) (lru A) else Some (lru A));
  Some (set_lru L A).

(** [m]: the address that the C library's [realloc] returns. *)
Definition _hev_memory_allocator_realloc (m : option Z) (slice size : Z) (A : Alloc)
  : option (Alloc * Z) :=
  if Z.eqb size 0 then A ← _hev_memory_allocator_free slice A; Some (A, 0) else
  let size := ALIGN_UP size in
  let index := i32 (size / CACHED_SLICE_ALIGN) in
  b ← blocks A !! slice;
  match m with
  | None => Some (A, 0)
  | Some a =>
      let total := u64 (sizeof_slice + size) in
      if Z.ltb total sizeof_slice then None else
      let index := if (Z.leb 1 index && Z.leb index MAX_CACHED_SLICE_INDEX)%bool
                   then index - 1 else -1 in
      Some (set_blocks (<[a := mkBlock (mkSlice (s_next (b_slice b)) index) (total - sizeof_slice)]>
              (delete slice (blocks A))) A, a)
  end.

(** [while (iter) { ... }] and the loop around it. *)
Fixpoint free_slices (fuel : nat) (iter : Z) (A : Alloc) : option Alloc :=
  match fuel with
  | O => None
  | S fuel =>
      if Z.eqb iter 0 then Some A else
      s ← get_slice iter A;
      A ← libc_free iter A; free_slices fuel (s_next s) A
  end.

Fixpoint free_classes (fuel : nat) (node : Z) (A : Alloc) : option Alloc :=
  match fuel with
  | O => None
  | S fuel' =>
      if Z.eqb node 0 then Some A else
      iter ← get_cached (node - 1) A;
      A ← free_slices fuel iter A;
      n ← lcells (lru A) !! node;
      free_classes fuel' (l_next n) A
  end.

Definition _hev_memory_allocator_destroy (fuel : nat) (A : Alloc) : option Alloc :=
  free_classes fuel (l_head (lru A)) A.

(** ** hev-memory-allocator-api.c *)

(** [memset]: the bytes must be the block's. *)
Definition memset_block (a size : Z) (A : Alloc) : option unit :=
  b ← blocks A !! a; if Z.leb size (b_room b) then Some () else None.

Definition hev_malloc := _hev_memory_allocator_alloc.

Definition hev_malloc0 (m : option Z) (size : Z) (A : Alloc) : option (Alloc * Z) :=
  '(A, data) ← hev_malloc m size A;
  if Z.eqb data 0 then Some (A, data) else u ← memset_block data size A; Some (A, data).

Definition hev_calloc (m : option Z) (nmemb size : Z) (A : Alloc) : option (Alloc * Z) :=
  if (Z.eqb nmemb 0 || Z.eqb size 0)%bool then Some (A, 0) else hev_malloc0 m (u64 (size * nmemb)) A.

Definition hev_realloc := _hev_memory_allocator_realloc.
Definition hev_free := _hev_memory_allocator_free.
