(* ===== verification/SliceSpec.v ===== *)
(** * The caching allocator: its invariant, kept by every operation *)
From S2P Require Import Prelude List CInt Slice.

(** ** The list of classes *)

Lemma lru_insert_ok L xs x : dll L xs -> x <> 0 -> x ∉ xs ->
  wp (_hev_memory_allocator_lru_insert x L) (fun L' => dll L' (x :: xs)).
Proof.
  intros (Hh & Ht & Hs & Hu) Hx Hni. pose proof (uniq_cons _ _ Hni Hu) as Hu'.
  unfold _hev_memory_allocator_lru_insert. rewrite Hh. destruct xs as [|y xs].
  - simpl. apply wp_ret. rewrite Ht. simpl. split_and!; [done..| |done].
    simpl. by rewrite lookup_insert_eq.
  - change (hd_or 0 (y :: xs)) with y in *. pose proof Hs as (Hy & Cy & _).
    rewrite (proj2 (Z.eqb_neq y 0) Hy). simpl. unfold set_prev. simpl.
    assert (x <> y) by (intros ->; apply Hni; by left).
    rewrite lookup_insert_ne, Cy by done. simpl. apply wp_ret.
    assert (l_tail L <> 0) as Hnz.
    { rewrite Ht, last_or_cons. destruct (last_or_snoc_cases (y :: xs)) as [?|(zs & z & E & Ez)]; [done|].
      rewrite last_or_cons in Ez. rewrite Ez. eapply seg_nonzero; [exact Hs|]. rewrite E. set_solver. }
    rewrite (proj2 (Z.eqb_neq _ 0) Hnz). split; [done|]. split; [simpl; by rewrite Ht, !last_or_cons|].
    split; [|done]. simpl lcells. rewrite insert_insert_ne by done. set (M := <[x := _]> _).
    change (seg M 0 (x :: y :: xs) 0) with (x <> 0 /\ M !! x = Some (mkListNode y 0) /\ seg M x (y :: xs) 0).
    split; [done|]. split; [by unfold M; rewrite lookup_insert_eq|].
    eapply (seg_frame (<[y := mkListNode (hd_or 0 xs) x]> (lcells L))).
    + intros a Ha. unfold M. rewrite lookup_insert_ne; [done|]. by intros ->.
    + exact (seg_set_first _ _ x y xs 0 _ Hs Hu Cy).
Qed.

(** In a well-formed list it does what hev-list.c's removal does. *)
Lemma lru_remove_del L xs x ys : dll L (xs ++ x :: ys) ->
  _hev_memory_allocator_lru_remove x L = hev_list_del L x.
Proof.
  intros (Hh & Ht & Hs & Hu). pose proof Hs as Hs0. apply seg_app in Hs as [Hsx (Hx & Cx & Hsy)].
  assert (Hprev : last_or 0 xs = 0 <-> l_head L = x).
  { rewrite Hh. destruct (last_or_snoc_cases xs) as [->|(zs & z & -> & Hz)]; [done|].
    rewrite Hz. assert (z <> 0) by (eapply seg_nonzero; [exact Hsx|set_solver]).
    split; [done|]. intros E. exfalso. assert (x ∉ zs ++ [z]) as Hni by disj. apply Hni.
    destruct zs; simpl in E; subst; set_solver. }
  assert (Hnext : hd_or 0 ys = 0 <-> l_tail L = x).
  { rewrite Ht, last_or_app, last_or_cons. destruct ys as [|y ys]; [done|]. simpl.
    assert (y <> 0) by (destruct Hsy as [? _]; done). split; [done|]. intros E. exfalso.
    assert (x ∉ y :: ys) as Hni by disj. apply Hni. rewrite <- E, last_or_cons.
    destruct (last_or_snoc_cases (y :: ys)) as [?|(zs & z & E' & Hz)]; [done|].
    rewrite last_or_cons in Hz. rewrite E'. 
    assert (last_or y ys = z) as -> by exact Hz. set_solver. }
  unfold _hev_memory_allocator_lru_remove, hev_list_del, hev_list_node_prev, hev_list_node_next.
  rewrite Cx. simpl. unfold set_next, set_prev.
  assert (Hne : last_or 0 xs <> 0 -> last_or 0 xs <> x).
  { intros Hp E. destruct (last_or_snoc_cases xs) as [->|(zs & z & -> & Hz)]; [done|].
    rewrite Hz in E. subst z. assert (x ∉ zs ++ [x]) as Hni by disj. apply Hni. set_solver. }
  assert (Hhead : Z.eqb (l_head L) x = Z.eqb (last_or 0 xs) 0).
  { apply eq_true_iff_eq. by rewrite !Z.eqb_eq, Hprev. }
  assert (Htail : Z.eqb (l_tail L) x = Z.eqb (hd_or 0 ys) 0).
  { apply eq_true_iff_eq. by rewrite !Z.eqb_eq, Hnext. }
  assert (Hend : forall c (L1 : HevList), l_head L1 = l_head L -> l_tail L1 = l_tail L -> lcells L1 = c ->
    (let L := if Z.eqb (l_head L1) x then set_head L1 (hd_or 0 ys) else L1 in
     if Z.eqb (l_tail L) x then set_tail L (last_or 0 xs) else L)
    = mkList (if Z.eqb (last_or 0 xs) 0 then hd_or 0 ys else l_head L)
             (if Z.eqb (hd_or 0 ys) 0 then last_or 0 xs else l_tail L) c).
  { intros c L1 E1 E2 <-. rewrite E1, Hhead. destruct (Z.eqb (last_or 0 xs) 0); simpl;
      rewrite E2, Htail; destruct (Z.eqb (hd_or 0 ys) 0), L1; simpl in *; by subst. }
  destruct (Z.eqb_spec (last_or 0 xs) 0) as [Ep|Ep]; cbn [negb mbind option_bind].
  - cbn. rewrite Cx. cbn. destruct (Z.eqb_spec (hd_or 0 ys) 0) as [En|En]; cbn.
    + f_equal. by apply (Hend (lcells L)).
    + destruct (lcells L !! hd_or 0 ys) as [n|]; cbn; [|done]. f_equal. by apply (Hend _ (mkList _ _ _)).
  - destruct (lcells L !! last_or 0 xs) as [p|]; cbn; [|done].
    rewrite (lookup_insert_ne (lcells L) (last_or 0 xs) x), Cx by (by apply Hne). cbn.
    destruct (Z.eqb_spec (hd_or 0 ys) 0) as [En|En]; cbn.
    + f_equal. by apply (Hend _ (mkList _ _ _)).
    + destruct (_ !! hd_or 0 ys) as [n|]; cbn; [|done]. f_equal. by apply (Hend _ (mkList _ _ _)).
Qed.

Lemma lru_remove_ok L xs x ys : dll L (xs ++ x :: ys) ->
  wp (_hev_memory_allocator_lru_remove x L) (fun L' => dll L' (xs ++ ys)).
Proof.
  intros H. rewrite (lru_remove_del L xs x ys H). eapply wp_mono; [by apply del_ok|]. by intros L' (? & _).
Qed.

(** ** Sizes *)

Lemma testbit_high a k n : 0 <= a < 2 ^ k -> 0 <= k <= n -> Z.testbit a n = false.
Proof.
  intros Ha Hn. destruct (decide (a = 0)) as [->|]; [apply Z.bits_0|].
  apply Z.bits_above_log2; [lia|]. apply Z.log2_lt_pow2; [lia|].
  eapply Z.lt_le_trans; [apply Ha|]. apply Z.pow_le_mono_r; lia.
Qed.

Lemma align_up_ok size : 0 <= size < 2 ^ 64 - 15 ->
  ALIGN_UP size = 16 * ((size + 15) / 16).
Proof.
  intros H. unfold ALIGN_UP, CACHED_SLICE_ALIGN. replace (size + 16 - 1) with (size + 15) by lia.
  assert (E : Z.land (u64 (size + 15)) (u64 (Z.lnot (16 - 1))) = Z.ldiff (size + 15) (Z.ones 4)).
  { unfold u64. rewrite Z.mod_small by lia. apply Z.bits_inj'. intros n Hn.
    rewrite Z.land_spec, Z.ldiff_spec. change (16 - 1) with (Z.ones 4).
    destruct (Z.lt_ge_cases n 64).
    - by rewrite Z.mod_pow2_bits_low, Z.lnot_spec by lia.
    - rewrite (testbit_high _ 64 n) by lia. done. }
  rewrite E, Z.ldiff_ones_r, Z.shiftr_div_pow2, Z.shiftl_mul_pow2 by lia. change (2 ^ 4) with 16. lia.
Qed.

(** ** The invariant *)

(** The free slices of a class, linked from [p] on. *)
Fixpoint slices (bs : gmap Z Block) (i p : Z) (l : list Z) : Prop :=
  match l with
  | [] => p = 0
  | a :: l => p = a /\ a <> 0 /\ exists b, bs !! a = Some b /\ s_index (b_slice b) = i /\
      16 * (i + 1) <= b_room b /\ slices bs i (s_next (b_slice b)) l
  end.

(** A block in use goes back to the C library or to a class that it is large
    enough for. *)
Definition block_ok (b : Block) : Prop :=
  let i := s_index (b_slice b) in
  i < 0 \/ i < MAX_CACHED_SLICE_INDEX /\ 16 * (i + 1) <= b_room b.

(** [cls]: the free slices by class; [used]: the blocks that users hold. *)
Record cache_ok (A : Alloc) (cls : list (list Z)) (used : gset Z) : Prop := {
  co_len : length cls = Z.to_nat MAX_CACHED_SLICE_INDEX;
  co_cached : cached_mslices A = hd_or 0 <$> cls;
  co_slices : forall i l, cls !! i = Some l -> slices (blocks A) (Z.of_nat i) (hd_or 0 l) l;
  co_nodup : NoDup (concat cls);
  co_used : forall a, a ∈ used -> a ∉ concat cls /\ a <> 0 /\
    exists b, blocks A !! a = Some b /\ block_ok b;
  co_blocks : forall a, is_Some (blocks A !! a) <-> a ∈ used \/ a ∈ concat cls;
  co_count : cached_count A = Z.of_nat (length (concat cls));
}.

(** [order]: the classes with free slices, the last used first. *)
Record lru_ok (L : HevList) (order : list Z) (cls : list (list Z)) : Prop := {
  lo_dll : dll L order;
  lo_in : forall x, x ∈ order <-> exists i l, x = Z.of_nat i + 1 /\ cls !! i = Some l /\ l <> [];
}.

Lemma slices_frame bs bs' i p l : (forall a, a ∈ l -> bs' !! a = bs !! a) -> slices bs i p l -> slices bs' i p l.
Proof.
  revert p. induction l as [|a l IH]; intros p Hf; simpl; [done|].
  intros (-> & Ha & b & Hb & Hi & Hr & Hs). split; [done|]. split; [done|]. exists b.
  rewrite Hf by by left. split_and!; try done. apply IH; [|done]. intros x Hx. apply Hf. by right.
Qed.

(** One class of many. *)
Lemma concat_class (cls : list (list Z)) i l : cls !! i = Some l -> exists rest,
  concat cls ≡ₚ l ++ rest /\ forall l', concat (<[i := l']> cls) ≡ₚ l' ++ rest.
Proof.
  revert i. induction cls as [|c cls IH]; intros [|i] H; simpl in *; [done|done|..].
  - injection H as ->. by exists (concat cls).
  - destruct (IH i H) as (rest & E & E'). exists (c ++ rest). split.
    + rewrite E. by rewrite !app_assoc, (Permutation_app_comm c l).
    + intros l'. rewrite E'. by rewrite !app_assoc, (Permutation_app_comm c l').
Qed.

Lemma class_sub (cls : list (list Z)) i l a : cls !! i = Some l -> a ∈ l -> a ∈ concat cls.
Proof.
  intros H Ha. destruct (concat_class cls i l H) as (rest & E & _). rewrite E. set_solver.
Qed.

Lemma class_disjoint (cls : list (list Z)) i j l k a :
  NoDup (concat cls) -> cls !! i = Some l -> cls !! j = Some k -> a ∈ l -> a ∈ k -> i = j.
Proof.
  revert i j. induction cls as [|c cls IH]; intros [|i] [|j] Hnd Hi Hj Ha Hk; simpl in *; try done;
    apply NoDup_app in Hnd as (Hc & Hd & Hnd).
  - injection Hi as ->. exfalso. apply (Hd a Ha). by eapply class_sub.
  - injection Hj as ->. exfalso. apply (Hd a Hk). by eapply class_sub.
  - f_equal. by eapply IH.
Qed.

Lemma slices_head bs i p l : slices bs i p l -> p = hd_or 0 l.
Proof. destruct l; simpl; [done|]. by intros [-> _]. Qed.

Lemma get_cached_ok A cls used i l : cache_ok A cls used -> cls !! i = Some l ->
  get_cached (Z.of_nat i) A = Some (hd_or 0 l).
Proof.
  intros H Hi. unfold get_cached. rewrite (proj2 (Z.ltb_ge _ _)) by lia.
  rewrite Nat2Z.id, (co_cached _ _ _ H), list_lookup_fmap, Hi. done.
Qed.

Lemma class_exists A cls used i : cache_ok A cls used -> 0 <= i < MAX_CACHED_SLICE_INDEX ->
  exists l, cls !! Z.to_nat i = Some l.
Proof.
  intros H Hi. apply lookup_lt_is_Some. rewrite (co_len _ _ _ H). apply Z2Nat.inj_lt; lia.
Qed.

(** ** Taking a slice out of its class, and putting one in *)

Lemma cache_pop A cls used i a l : cache_ok A cls used -> cls !! i = Some (a :: l) ->
  exists s, get_slice a A = Some s /\ s_next s = hd_or 0 l /\ a ∉ used /\ a <> 0 /\
    (exists b, blocks A !! a = Some b /\ 16 * (Z.of_nat i + 1) <= b_room b /\ s_index (b_slice b) = Z.of_nat i) /\
    cache_ok (set_count (cached_count A - 1) (put_cached (Z.of_nat i) (s_next s) A)) (<[i := l]> cls) ({[a]} ∪ used).
Proof.
  intros H Hi. pose proof (co_slices _ _ _ H i _ Hi) as (_ & Ha & b & Hb & Hidx & Hroom & Hs).
  pose proof (slices_head _ _ _ _ Hs) as Hn.
  destruct (concat_class cls i _ Hi) as (rest & E & E').
  pose proof (co_nodup _ _ _ H) as Hnd. rewrite E in Hnd. simpl in Hnd. apply NoDup_cons in Hnd as [Hna Hnd].
  assert (Hni : (i < Z.to_nat MAX_CACHED_SLICE_INDEX)%nat).
  { rewrite <- (co_len _ _ _ H). apply lookup_lt_is_Some. by eexists. }
  exists (b_slice b). unfold get_slice. rewrite Hb. split; [done|]. split; [done|].
  split. { intros Hu. apply (co_used _ _ _ H) in Hu as [Hu _]. apply Hu. rewrite E. by left. }
  split; [done|]. split; [by exists b|]. destruct H. constructor; simpl.
  - by rewrite length_insert.
  - rewrite Nat2Z.id, co_cached0, list_fmap_insert, Hn. done.
  - intros j k. destruct (decide (j = i)) as [->|Hne].
    + rewrite list_lookup_insert_eq by (by rewrite co_len0). intros [= <-]. by rewrite <- Hn.
    + rewrite list_lookup_insert_ne by done. apply co_slices0.
  - by rewrite E'.
  - intros x [->%elem_of_singleton|Hx]%elem_of_union.
    + rewrite E'. split_and!; [done|done|]. exists b. split; [done|]. right. rewrite Hidx. lia.
    + destruct (co_used0 x Hx) as (Hxc & Hx'). split; [|done]. rewrite E'. rewrite E in Hxc. set_solver.
  - intros x. rewrite co_blocks0, E, E'. set_solver.
  - rewrite co_count0, E, E'. simpl. lia.
Qed.

Lemma cache_push A cls used i a l b : cache_ok A cls used -> cls !! i = Some l -> a ∈ used ->
  blocks A !! a = Some b -> s_index (b_slice b) = Z.of_nat i -> block_ok b ->
  cache_ok (set_count (cached_count A + 1) (put_cached (Z.of_nat i) a
    (set_blocks (<[a := mkBlock (mkSlice (hd_or 0 l) (Z.of_nat i)) (b_room b)]> (blocks A)) A)))
    (<[i := a :: l]> cls) (used ∖ {[a]}).
Proof.
  intros H Hi Ha Hb Hidx Hok. destruct (co_used _ _ _ H a Ha) as (Hac & Hnz & _).
  destruct (concat_class cls i _ Hi) as (rest & E & E').
  assert (Hroom : 16 * (Z.of_nat i + 1) <= b_room b) by (destruct Hok as [Hok|Hok]; rewrite Hidx in Hok; lia).
  assert (Hnl : forall j k, cls !! j = Some k -> a ∉ k) by (intros j k Hj Hk; apply Hac; by eapply class_sub).
  destruct H. constructor; simpl.
  - by rewrite length_insert.
  - rewrite Nat2Z.id, co_cached0, list_fmap_insert. done.
  - intros j k. destruct (decide (j = i)) as [->|Hne].
    + rewrite list_lookup_insert_eq by (eapply lookup_lt_Some, Hi). intros [= <-].
      split; [done|]. split; [done|]. eexists. rewrite lookup_insert_eq. split_and!; try done.
      eapply slices_frame; [|by apply co_slices0]. intros x Hx. apply lookup_insert_ne.
      intros ->. by apply (Hnl i l).
    + rewrite list_lookup_insert_ne by done. intros Hj. eapply slices_frame; [|by apply co_slices0].
      intros x Hx. apply lookup_insert_ne. intros ->. by apply (Hnl j k).
  - rewrite E'. simpl. apply NoDup_cons. rewrite <- E. done.
  - intros x [Hx Hne]%elem_of_difference. rewrite elem_of_singleton in Hne.
    destruct (co_used0 x Hx) as (Hxc & Hx0 & Hxb). rewrite E', lookup_insert_ne by done.
    split; [|done]. rewrite E in Hxc. set_solver.
  - intros x. rewrite E', lookup_insert_is_Some, co_blocks0, E. destruct (decide (a = x)) as [->|]; set_solver.
  - rewrite co_count0, E, E'. simpl. lia.
Qed.

(** A block that users give back to the C library, and one from there. *)
Lemma cache_drop A cls used a : cache_ok A cls used -> a ∈ used ->
  cache_ok (set_blocks (delete a (blocks A)) A) cls (used ∖ {[a]}).
Proof.
  intros H Ha. destruct (co_used _ _ _ H a Ha) as (Hac & _). destruct H. constructor; simpl; try done.
  - intros i l Hi. eapply slices_frame; [|by apply co_slices0]. intros x Hx. apply lookup_delete_ne.
    intros ->. apply Hac. by eapply class_sub.
  - intros x [Hx Hne]%elem_of_difference. rewrite elem_of_singleton in Hne.
    rewrite lookup_delete_ne by done. by apply co_used0.
  - intros x. rewrite lookup_delete_is_Some, co_blocks0. set_solver.
Qed.

Lemma cache_new A cls used a b : cache_ok A cls used -> blocks A !! a = None -> a <> 0 -> block_ok b ->
  cache_ok (set_blocks (<[a := b]> (blocks A)) A) cls ({[a]} ∪ used).
Proof.
  intros H Ha Hnz Hok.
  assert (Hno : a ∉ used /\ a ∉ concat cls).
  { split; intros Hin; destruct (proj2 (co_blocks _ _ _ H a)) as [x Hx]; [by left|congruence|by right|congruence]. }
  destruct H. constructor; simpl; try done.
  - intros i l Hi. eapply slices_frame; [|by apply co_slices0]. intros x Hx. apply lookup_insert_ne.
    intros ->. apply Hno. by eapply class_sub.
  - intros x [->%elem_of_singleton|Hx]%elem_of_union.
    + split; [apply Hno|]. split; [done|]. exists b. by rewrite lookup_insert_eq.
    + rewrite lookup_insert_ne by (intros ->; by destruct Hno). by apply co_used0.
  - intros x. rewrite lookup_insert_is_Some, co_blocks0, elem_of_union, elem_of_singleton. destruct (decide (a = x)); naive_solver.
Qed.

(** * The caching allocator: every operation keeps the invariant *)

(** ** The order of the classes *)

Lemma order_class L order cls i l order' L' l' :
  lru_ok L order cls -> cls !! i = Some l -> dll L' order' ->
  (forall x, x ∈ order' <-> (x = Z.of_nat i + 1 /\ l' <> []) \/ (x <> Z.of_nat i + 1 /\ x ∈ order)) ->
  lru_ok L' order' (<[i := l']> cls).
Proof.
  intros [_ Hin] Hi Hd Hx. constructor; [done|]. intros x. rewrite Hx, Hin.
  pose proof (lookup_lt_Some _ _ _ Hi) as Hlt. split.
  - intros [[-> Hl']|[Hne (j & k & -> & Hj & Hk)]].
    + exists i, l'. by rewrite list_lookup_insert_eq.
    + exists j, k. split; [done|]. rewrite list_lookup_insert_ne by (intros ->; lia). done.
  - intros (j & k & -> & Hj & Hk). destruct (decide (j = i)) as [->|Hne].
    + rewrite list_lookup_insert_eq in Hj by done. injection Hj as <-. by left.
    + right. split; [lia|]. rewrite list_lookup_insert_ne in Hj by done. by exists j, k.
Qed.

Lemma order_has L order cls i l : lru_ok L order cls -> cls !! i = Some l -> l <> [] ->
  exists xs ys, order = xs ++ (Z.of_nat i + 1) :: ys /\ Z.of_nat i + 1 ∉ xs ++ ys.
Proof.
  intros [Hd Hin] Hi Hl. assert (Z.of_nat i + 1 ∈ order) as Hx by (apply Hin; by exists i, l).
  destruct (list_elem_of_split _ _ Hx) as (xs & ys & ->). exists xs, ys. split; [done|].
  destruct Hd as (_ & _ & _ & Hu). disj.
Qed.

Lemma order_hasnt L order cls i : lru_ok L order cls -> cls !! i = Some [] -> Z.of_nat i + 1 ∉ order.
Proof.
  intros [_ Hin] Hi Hx. apply Hin in Hx as (j & k & E & Hj & Hk).
  assert (j = i) as -> by lia. congruence.
Qed.

Lemma slices_nil bs i l : slices bs i (hd_or 0 l) l -> hd_or 0 l = 0 -> l = [].
Proof. destruct l; [done|]. simpl. intros (_ & ? & _). done. Qed.

(** A class whose first slice is taken becomes the first, or leaves. *)
Lemma lru_take L order cls i a l : lru_ok L order cls -> cls !! i = Some (a :: l) ->
  (hd_or 0 l = 0 -> l = []) ->
  wp (L ← _hev_memory_allocator_lru_remove (Z.of_nat i + 1) L;
      if negb (Z.eqb (hd_or 0 l) 0) then _hev_memory_allocator_lru_insert (Z.of_nat i + 1) L else Some L)
    (fun L' => exists order', lru_ok L' order' (<[i := l]> cls)).
Proof.
  intros H Hi Hz. destruct (order_has _ _ _ _ _ H Hi) as (xs & ys & -> & Hni); [done|].
  apply wp_bind. eapply wp_mono; [apply lru_remove_ok, (lo_dll _ _ _ H)|]. intros L1 Hd.
  destruct (Z.eqb_spec (hd_or 0 l) 0) as [E|E]; simpl.
  - apply wp_ret. exists (xs ++ ys). rewrite (Hz E). eapply order_class; [exact H|exact Hi|done|].
    intros x. set_solver.
  - eapply wp_mono; [apply lru_insert_ok; [exact Hd|lia|done]|]. intros L2 Hd2.
    exists (Z.of_nat i + 1 :: xs ++ ys). eapply order_class; [exact H|exact Hi|done|].
    intros x. assert (l <> []) by by intros ->. set_solver.
Qed.

Lemma lru_evict L order cls i a l : lru_ok L order cls -> cls !! i = Some (a :: l) ->
  (hd_or 0 l = 0 -> l = []) ->
  wp (if Z.eqb (hd_or 0 l) 0 then _hev_memory_allocator_lru_remove (Z.of_nat i + 1) L else Some L)
    (fun L' => exists order', lru_ok L' order' (<[i := l]> cls)).
Proof.
  intros H Hi Hz. destruct (order_has _ _ _ _ _ H Hi) as (xs & ys & -> & Hni); [done|].
  destruct (Z.eqb_spec (hd_or 0 l) 0) as [E|E].
  - eapply wp_mono; [apply lru_remove_ok, (lo_dll _ _ _ H)|]. intros L1 Hd. exists (xs ++ ys).
    rewrite (Hz E). eapply order_class; [exact H|exact Hi|done|]. intros x. set_solver.
  - apply wp_ret. exists (xs ++ Z.of_nat i + 1 :: ys). assert (l <> []) by by intros ->.
    eapply order_class; [exact H|exact Hi|apply H|]. set_solver.
Qed.

Lemma lru_give L order cls i l a : lru_ok L order cls -> cls !! i = Some l ->
  (hd_or 0 l = 0 -> l = []) ->
  wp (if Z.eqb (hd_or 0 l) 0 then _hev_memory_allocator_lru_insert (Z.of_nat i + 1) L else Some L)
    (fun L' => exists order', lru_ok L' order' (<[i := a :: l]> cls)).
Proof.
  intros H Hi Hz. destruct (Z.eqb_spec (hd_or 0 l) 0) as [E|E].
  - specialize (Hz E). subst l. pose proof (order_hasnt _ _ _ _ H Hi) as Hni.
    eapply wp_mono; [apply lru_insert_ok; [apply H|lia|done]|]. intros L1 Hd.
    exists (Z.of_nat i + 1 :: order). eapply order_class; [exact H|exact Hi|done|]. set_solver.
  - apply wp_ret. exists order. eapply order_class; [exact H|exact Hi|apply H|].
    destruct (order_has _ _ _ _ _ H Hi) as (xs & ys & -> & Hni); [by intros ->|]. set_solver.
Qed.

(** ** The operations *)

Record slice_ok (A : Alloc) (used : gset Z) : Prop := {
  sl_ok : exists cls order, cache_ok A cls used /\ lru_ok (lru A) order cls;
  sl_bound : 0 <= cached_count A <= MAX_CACHED_SLICE_COUNT;
}.

(** Sizes whose class is a class of its own as an [int]; a class of 2^31 or more
    becomes negative, which is none as well. *)
Definition size_ok (size : Z) : Prop := 0 <= size <= 2 ^ 36 - 16.

(** What the C library returns: no memory, or memory of its own. *)
Definition fresh (m : option Z) (A : Alloc) : Prop :=
  forall a, m = Some a -> a <> 0 /\ blocks A !! a = None.

Lemma cache_ext A A' cls used : cached_count A' = cached_count A -> cached_mslices A' = cached_mslices A ->
  blocks A' = blocks A -> cache_ok A cls used -> cache_ok A' cls used.
Proof. intros E1 E2 E3 []. constructor; rewrite ?E1, ?E2, ?E3; done. Qed.

Lemma index_ok size : size_ok size ->
  let k := (size + 15) / 16 in
  ALIGN_UP size = 16 * k /\ 0 <= k < 2 ^ 32 /\
  (i32 (16 * k / CACHED_SLICE_ALIGN) = k \/ i32 (16 * k / CACHED_SLICE_ALIGN) < 0 /\ 2 ^ 31 <= k).
Proof.
  intros H k. unfold size_ok in H. assert (0 <= k < 2 ^ 32) by (unfold k; dlia).
  split; [apply align_up_ok; lia|]. split; [done|]. unfold CACHED_SLICE_ALIGN.
  rewrite Z.mul_comm, Z.div_mul by lia. destruct (Z.lt_ge_cases k (2 ^ 31)); [left; apply i32_id; lia|].
  right. split; [|done]. unfold i32. dlia.
Qed.

Lemma new_slice_ok m size index A used :
  slice_ok A used -> fresh m A -> 0 <= size < 2 ^ 40 ->
  index < 0 \/ index < MAX_CACHED_SLICE_INDEX /\ 16 * (index + 1) <= size ->
  wp (new_slice m size index A) (fun '(A', r) =>
    if Z.eqb r 0 then m = None /\ A' = A else r ∉ used /\ m = Some r /\ slice_ok A' ({[r]} ∪ used) /\
      (forall x, x ∈ used -> blocks A' !! x = blocks A !! x) /\
      exists b, blocks A' !! r = Some b /\ size <= b_room b).
Proof.
  intros [(cls & order & H & HL) Hb] Hm Hs Hi. unfold new_slice. destruct m as [a|].
  2: { by apply wp_ret. }
  destruct (Hm a eq_refl) as [Hnz Ha]. unfold u64, sizeof_slice. rewrite Z.mod_small by lia.
  rewrite (proj2 (Z.ltb_ge _ _)) by lia. apply wp_ret. rewrite (proj2 (Z.eqb_neq a 0) Hnz).
  assert (Hnu : a ∉ used) by (intros Hu; destruct (co_used _ _ _ H a Hu) as (_ & _ & b & E & _); congruence).
  replace (16 + size - 16) with size by lia. split_and!; try done.
  - constructor; [|done]. exists cls, order. split; [|exact HL].
    apply (cache_new A cls used a); [done|done|done|]. unfold block_ok. simpl. lia.
  - intros x Hx. simpl. apply lookup_insert_ne. by intros ->.
  - simpl. rewrite lookup_insert_eq. eexists. split; [done|]. simpl. lia.
Qed.

Lemma alloc_ok m size A used :
  slice_ok A used -> fresh m A -> size_ok size ->
  wp (_hev_memory_allocator_alloc m size A) (fun '(A', r) =>
    if Z.eqb r 0 then (size = 0 \/ m = None) /\ A' = A else r ∉ used /\ slice_ok A' ({[r]} ∪ used) /\
      (forall x, x ∈ used -> blocks A' !! x = blocks A !! x) /\
      exists b, blocks A' !! r = Some b /\ size <= b_room b).
Proof.
  intros H Hm Hs. destruct (index_ok size Hs) as (Ea & Hi & Ei). unfold _hev_memory_allocator_alloc.
  rewrite Ea. set (k := (size + 15) / 16) in *. assert (Hk : size <= 16 * k) by (unfold k; dlia).
  set (idx := i32 (16 * k / CACHED_SLICE_ALIGN)) in *.
  assert (Hnew : forall index, index < 0 \/ index < MAX_CACHED_SLICE_INDEX /\ 16 * (index + 1) <= 16 * k ->
    wp (new_slice m (16 * k) index A) (fun '(A', r) =>
      if Z.eqb r 0 then (size = 0 \/ m = None) /\ A' = A else r ∉ used /\ slice_ok A' ({[r]} ∪ used) /\
        (forall x, x ∈ used -> blocks A' !! x = blocks A !! x) /\
        exists b, blocks A' !! r = Some b /\ size <= b_room b)).
  { intros index Hidx. eapply wp_mono; [apply (new_slice_ok m (16 * k) index A used H Hm); [lia|done]|].
    intros [A' r]. destruct (Z.eqb r 0); [intros [? ?]; split; [by right|done]|].
    intros (? & _ & ? & ? & b & ? & ?). split_and!; try done. exists b. split; [done|lia]. }
  destruct Ei as [Ei|[Ei Hbig]].
  2: { rewrite (proj2 (Z.eqb_neq idx 0)), (proj2 (Z.leb_gt 1 idx)) by lia. simpl. apply Hnew. by left. }
  rewrite Ei. clear idx Ei. destruct (Z.eqb_spec k 0) as [E0|E0].
  { apply wp_ret. simpl. split; [|done]. left. unfold size_ok in Hs. unfold k in E0. dlia. }
  destruct (Z.leb_spec 1 k), (Z.leb_spec k MAX_CACHED_SLICE_INDEX); simpl; try lia;
    [|apply Hnew; by left].
  pose proof H as [(cls & order & HC & HL) Hb].
  destruct (class_exists A cls used (k - 1) HC) as [l Hl]; [lia|].
  set (i := Z.to_nat (k - 1)) in *. assert (Hki : k = Z.of_nat i + 1) by (unfold i; lia).
  rewrite Hki. replace (Z.of_nat i + 1 - 1) with (Z.of_nat i) by lia.
  rewrite (get_cached_ok _ _ _ _ _ HC Hl). simpl. destruct l as [|a l]; simpl.
  { rewrite <- Hki. apply Hnew. right. unfold MAX_CACHED_SLICE_INDEX in *. lia. }
  change (hd_or 0 (a :: l)) with a.
  destruct (cache_pop A cls used i a l HC Hl) as (s & -> & En & Hau & Hnz & (b & Eb & Hroom & _) & HC').
  rewrite (proj2 (Z.eqb_neq a 0) Hnz). simpl. rewrite En.
  assert (Hz : hd_or 0 l = 0 -> l = []).
  { pose proof (co_slices _ _ _ HC i _ Hl) as (_ & _ & b' & _ & _ & _ & Hs').
    pose proof (slices_head _ _ _ _ Hs') as Eh. rewrite Eh in Hs'. by eapply slices_nil. }
  destruct (lru_take (lru A) order cls i a l HL Hl Hz) as (L' & EL & order' & HL').
  apply bind_Some in EL as (L1 & E1 & E2). rewrite E1. simpl. rewrite E2. simpl. apply wp_ret.
  rewrite (proj2 (Z.eqb_neq a 0) Hnz). split; [done|]. rewrite En in HC'. split; [|split].
  - constructor; simpl.
    + exists (<[i := l]> cls), order'. split; [|done]. by eapply cache_ext; [..|exact HC'].
    + pose proof (co_count _ _ _ HC') as Hc. simpl in Hc. lia.
  - done.
  - exists b. split; [done|]. lia.
Qed.

(** The cache is full: a slice of the class that was used least recently goes. *)
Lemma free_evict_ok A cls order used : cache_ok A cls used -> lru_ok (lru A) order cls ->
  0 < cached_count A ->
  wp (free_evict A) (fun A' => exists cls' order', cache_ok A' cls' used /\ lru_ok (lru A') order' cls' /\
    cached_count A' = cached_count A - 1 /\ forall x, x ∈ used -> blocks A' !! x = blocks A !! x).
Proof.
  intros HC HL Hc. unfold free_evict.
  assert (exists i a l, l_tail (lru A) = Z.of_nat i + 1 /\ cls !! i = Some (a :: l)) as (i & a & l & Et & Hl).
  { destruct (lo_dll _ _ _ HL) as (_ & Et & _ & _).
    destruct (last_or_snoc_cases order) as [->|(xs & x & -> & Ex)].
    - exfalso. rewrite (co_count _ _ _ HC) in Hc. destruct (concat cls) as [|y r] eqn:E; [simpl in Hc; lia|].
      assert (y ∈ concat cls) as Hy by (rewrite E; by left).
      apply list_elem_of_In, in_concat in Hy as (k & Hk%list_elem_of_In & Hyk%list_elem_of_In).
      apply list_elem_of_lookup in Hk as [j Hj].
      assert (Z.of_nat j + 1 ∈ ([] : list Z)) as Hin; [|by apply elem_of_nil in Hin].
      apply (lo_in _ _ _ HL). exists j, k. split_and!; [done|done|]. by intros ->; apply elem_of_nil in Hyk.
    - assert (x ∈ xs ++ [x]) as Hx by set_solver. apply (lo_in _ _ _ HL) in Hx as (i & l & -> & Hl & Hne).
      destruct l as [|a l]; [done|]. exists i, a, l. by rewrite Et, Ex. }
  rewrite Et. replace (Z.of_nat i + 1 - 1) with (Z.of_nat i) by lia.
  rewrite (get_cached_ok _ _ _ _ _ HC Hl). cbn [mbind option_bind]. change (hd_or 0 (a :: l)) with a.
  destruct (cache_pop A cls used i a l HC Hl) as (s & -> & En & Hau & Hnz & (b & Eb & _) & HC').
  cbn [mbind option_bind]. rewrite En in *.
  assert (Hz : hd_or 0 l = 0 -> l = []).
  { pose proof (co_slices _ _ _ HC i _ Hl) as (_ & _ & b' & _ & _ & _ & Hs').
    pose proof (slices_head _ _ _ _ Hs') as Eh. rewrite Eh in Hs'. by eapply slices_nil. }
  destruct (lru_evict (lru A) order cls i a l HL Hl Hz) as (L' & EL & order' & HL').
  apply wp_bind. exists L'. split; [exact EL|]. unfold libc_free. simpl. rewrite Eb. apply wp_ret. simpl.
  exists (<[i := l]> cls), order'. split_and!; [|done|done|].
  - pose proof (cache_drop _ _ _ a HC' ltac:(set_solver)) as HC2.
    replace (({[a]} ∪ used) ∖ {[a]}) with used in HC2 by set_solver.
    by eapply cache_ext; [..|exact HC2].
  - intros x Hx. apply lookup_delete_ne. by intros ->.
Qed.

Lemma free_ok A a used : slice_ok A used -> a ∈ used ->
  wp (_hev_memory_allocator_free a A) (fun A' => slice_ok A' (used ∖ {[a]}) /\
    forall x, x ∈ used -> x <> a -> blocks A' !! x = blocks A !! x).
Proof.
  intros [(cls & order & HC & HL) Hb] Ha. unfold _hev_memory_allocator_free, get_slice.
  destruct (co_used _ _ _ HC a Ha) as (_ & Hnz & b & Eb & Hok). rewrite Eb. cbn [mbind option_bind].
  destruct (Z.ltb_spec (s_index (b_slice b)) 0) as [Hi|Hi].
  { unfold libc_free. rewrite Eb. apply wp_ret. split.
    - constructor; [|done]. exists cls, order. split; [by apply cache_drop|exact HL].
    - intros x _ Hne. simpl. by apply lookup_delete_ne. }
  apply wp_bind. eapply (wp_mono _ (fun A' => exists cls' order', cache_ok A' cls' used /\
    lru_ok (lru A') order' cls' /\ 0 <= cached_count A' < MAX_CACHED_SLICE_COUNT /\
    forall x, x ∈ used -> blocks A' !! x = blocks A !! x)).
  { destruct (Z.leb_spec MAX_CACHED_SLICE_COUNT (cached_count A)).
    - eapply wp_mono; [apply (free_evict_ok A cls order used HC HL)|].
      + unfold MAX_CACHED_SLICE_COUNT in *. lia.
      + intros A' (cls' & order' & H1 & H2 & H3 & H4). exists cls', order'.
        split_and!; try done; unfold MAX_CACHED_SLICE_COUNT in *; lia.
    - apply wp_ret. exists cls, order. split_and!; try done; lia. }
  intros A1 (cls1 & order1 & HC1 & HL1 & Hb1 & Hsame). rewrite <- (Hsame a Ha) in Eb.
  set (i := Z.to_nat (s_index (b_slice b))).
  assert (Ei : s_index (b_slice b) = Z.of_nat i) by (unfold i; lia). rewrite Ei.
  destruct (class_exists A1 cls1 used (Z.of_nat i) HC1) as [l Hl].
  { unfold block_ok in Hok. rewrite Ei in Hok. lia. }
  rewrite Nat2Z.id in Hl. rewrite (get_cached_ok _ _ _ _ _ HC1 Hl). cbn [mbind option_bind].
  unfold put_slice. rewrite Eb. cbn [mbind option_bind].
  assert (Hz : hd_or 0 l = 0 -> l = []) by (eapply slices_nil, (co_slices _ _ _ HC1 i l Hl)).
  destruct (lru_give (lru A1) order1 cls1 i l a HL1 Hl Hz) as (L' & EL & order' & HL').
  apply wp_bind. exists L'. split; [exact EL|]. apply wp_ret.
  pose proof (cache_push A1 cls1 used i a l b HC1 Hl Ha Eb Ei Hok) as HC'. split.
  - constructor; simpl; [|lia]. exists (<[i := a :: l]> cls1), order'.
    split; [|done]. by eapply cache_ext; [..|exact HC'].
  - intros x Hx Hne. simpl. rewrite lookup_insert_ne by done. by apply Hsame.
Qed.

Lemma realloc_ok m A a size used : slice_ok A used -> a ∈ used -> size_ok size -> 0 < size ->
  (forall p, m = Some p -> p <> 0 /\ (p = a \/ blocks A !! p = None)) ->
  wp (_hev_memory_allocator_realloc m a size A) (fun '(A', r) =>
    if Z.eqb r 0 then m = None /\ A' = A else
      slice_ok A' ({[r]} ∪ used ∖ {[a]}) /\ r ∉ used ∖ {[a]} /\
      (forall x, x ∈ used -> x <> a -> blocks A' !! x = blocks A !! x) /\
      exists b, blocks A' !! r = Some b /\ size <= b_room b).
Proof.
  intros [(cls & order & HC & HL) Hb] Ha Hs Hpos Hm. unfold _hev_memory_allocator_realloc.
  rewrite (proj2 (Z.eqb_neq size 0)) by lia. destruct (index_ok size Hs) as (Ea & Hi & Ei). rewrite Ea.
  destruct (co_used _ _ _ HC a Ha) as (_ & Hnz & b & Eb & Hok). rewrite Eb. cbn [mbind option_bind].
  destruct m as [p|]; [|by apply wp_ret]. destruct (Hm p eq_refl) as [Hp Hpa].
  unfold u64, sizeof_slice. rewrite Z.mod_small by lia. rewrite (proj2 (Z.ltb_ge _ _)) by lia.
  apply wp_ret. rewrite (proj2 (Z.eqb_neq p 0) Hp). set (k := (size + 15) / 16) in *.
  set (idx := i32 (16 * k / CACHED_SLICE_ALIGN)) in *.
  assert (Hk : size <= 16 * k) by (unfold k; dlia). match goal with |- context [mkSlice _ ?i] => set (index := i) end.
  pose proof (cache_drop A cls used a HC Ha) as HC1.
  assert (Hpn : delete a (blocks A) !! p = None).
  { destruct Hpa as [->|Hpa]; [apply lookup_delete_eq|]. destruct (decide (p = a)) as [->|]; [apply lookup_delete_eq|].
    by rewrite lookup_delete_ne. }
  assert (Hpu : p ∉ used ∖ {[a]}).
  { intros Hu. destruct (co_used _ _ _ HC1 p Hu) as (_ & _ & b' & E & _). simpl in E. congruence. }
  set (b1 := mkBlock _ _).
  assert (Hb1 : block_ok b1).
  { unfold block_ok, b1, index. simpl.
    destruct (Z.leb_spec 1 idx), (Z.leb_spec idx MAX_CACHED_SLICE_INDEX); simpl; lia. }
  pose proof (cache_new _ _ _ p b1 HC1 Hpn Hp Hb1) as HC2. split; [|split; [done|split]].
  - constructor; [|done]. exists cls, order. split; [|exact HL]. by eapply cache_ext; [..|exact HC2].
  - intros x Hx Hne. simpl. rewrite lookup_insert_ne by (intros ->; apply Hpu; set_solver).
    by rewrite lookup_delete_ne.
  - simpl. exists b1. rewrite lookup_insert_eq. split; [done|]. unfold b1. simpl. lia.
Qed.

Lemma slice_new_ok nodes : slice_ok (hev_memory_allocator_slice_new nodes ∅) ∅.
Proof.
  constructor; [|simpl; unfold MAX_CACHED_SLICE_COUNT; lia].
  exists (repeat [] (Z.to_nat MAX_CACHED_SLICE_INDEX)), [].
  assert (Hl : forall i l, repeat ([] : list Z) (Z.to_nat MAX_CACHED_SLICE_INDEX) !! i = Some l -> l = []).
  { intros i l Hi. apply list_elem_of_lookup_2, list_elem_of_In, repeat_spec in Hi. done. }
  split; constructor; simpl.
  - reflexivity.
  - reflexivity.
  - intros i l ->%Hl. done.
  - constructor.
  - set_solver.
  - intros a. rewrite lookup_empty. split; [by intros []|set_solver].
  - done.
  - apply dll_empty.
  - intros x. split; [set_solver|]. intros (i & l & _ & Hi%Hl & Hne). done.
Qed.

(** ** The end: every free slice goes back to the C library *)

Lemma free_slices_ok fuel i p l A : slices (blocks A) i p l -> NoDup l -> (length l < fuel)%nat ->
  wp (free_slices fuel p A) (fun A' => lru A' = lru A /\ cached_mslices A' = cached_mslices A /\
    forall x, blocks A' !! x = if decide (x ∈ l) then None else blocks A !! x).
Proof.
  revert fuel p A. induction l as [|a l IH]; intros [|fuel] p A Hs Hnd Hf; simpl in *; try lia.
  - subst p. simpl. apply wp_ret. by split_and!.
  - destruct Hs as (-> & Hnz & b & Eb & _ & _ & Hs). apply NoDup_cons in Hnd as [Hna Hnd].
    rewrite (proj2 (Z.eqb_neq a 0) Hnz). unfold get_slice, libc_free. rewrite Eb. simpl.
    eapply wp_mono; [apply (IH fuel (s_next (b_slice b))); [|done|lia]|].
    + simpl. eapply slices_frame; [|exact Hs]. intros x Hx. apply lookup_delete_ne. by intros ->.
    + intros A' (E1 & E2 & E3). split_and!; try done. intros x. rewrite E3. simpl.
      destruct (decide (x = a)) as [->|Hne].
      * rewrite (decide_False (P := a ∈ l)), decide_True, lookup_delete_eq by (done || by left). done.
      * rewrite lookup_delete_ne by done. destruct (decide (x ∈ l)), (decide (x ∈ a :: l)); set_solver.
Qed.

(** The free slices of the class that a node of the list stands for. *)
Definition class_of (cls : list (list Z)) (n : Z) : list Z := default [] (cls !! Z.to_nat (n - 1)).

Lemma free_classes_ok fuel order prev A cls :
  cached_mslices A = hd_or 0 <$> cls -> seg (lcells (lru A)) prev order 0 ->
  NoDup (concat (class_of cls <$> order)) ->
  (forall n, n ∈ order -> 1 <= n /\ is_Some (cls !! Z.to_nat (n - 1)) /\
     slices (blocks A) (n - 1) (hd_or 0 (class_of cls n)) (class_of cls n)) ->
  (length order + length (concat (class_of cls <$> order)) < fuel)%nat ->
  wp (free_classes fuel (hd_or 0 order) A) (fun A' => forall x, blocks A' !! x =
    if decide (x ∈ concat (class_of cls <$> order)) then None else blocks A !! x).
Proof.
  revert fuel prev A. induction order as [|n order IH]; intros [|fuel] prev A Hc Hs Hnd Hcls Hf;
    cbn [free_classes]; try (simpl in Hf; lia).
  { apply wp_ret. done. }
  rewrite fmap_cons in *. cbn [concat length] in *. rewrite length_app in Hf.
  destruct Hs as (Hnz & Hn & Hs). destruct (Hcls n) as (H1 & [l Hl] & Hsl); [by left|].
  apply NoDup_app in Hnd as (Hnd1 & Hdis & Hnd2).
  change (hd_or 0 (n :: order)) with n. rewrite (proj2 (Z.eqb_neq n 0) Hnz). unfold get_cached. rewrite (proj2 (Z.ltb_ge _ _)) by lia.
  rewrite Hc, list_lookup_fmap, Hl. cbn [mbind option_bind fmap option_fmap option_map].
  assert (El : class_of cls n = l) by (unfold class_of; by rewrite Hl). rewrite El in *.
  apply wp_bind. eapply wp_mono; [apply (free_slices_ok _ _ _ _ _ Hsl Hnd1); lia|].
  intros A1 (E1 & E2 & E3). rewrite E1, Hn. cbn [mbind option_bind l_next].
  eapply wp_mono; [apply (IH fuel n A1)|].
  - by rewrite E2.
  - by rewrite E1.
  - done.
  - intros k Hk. destruct (Hcls k) as (Hk1 & Hk2 & Hk3); [by right|]. split_and!; [done|done|].
    eapply slices_frame; [|exact Hk3]. intros x Hx. rewrite E3, decide_False; [done|].
    intros Hxl. apply (Hdis x Hxl). apply list_elem_of_In, in_concat. exists (class_of cls k).
    split; apply list_elem_of_In; [|done]. apply list_elem_of_fmap. by exists k.
  - lia.
  - intros A' HA x. rewrite HA, E3.
    destruct (decide (x ∈ l)), (decide (x ∈ concat _)), (decide (x ∈ l ++ _)); set_solver.
Qed.

Lemma class_in (cls : list (list Z)) order x : x ∈ concat (class_of cls <$> order) <->
  exists n, n ∈ order /\ x ∈ class_of cls n.
Proof.
  rewrite list_elem_of_In, in_concat. split.
  - intros (l & Hl & Hx). apply list_elem_of_In, list_elem_of_fmap in Hl as (n & -> & Hn).
    exists n. split; [done|]. by apply list_elem_of_In.
  - intros (n & Hn & Hx). exists (class_of cls n). rewrite <- !list_elem_of_In. split; [|done].
    apply list_elem_of_fmap. by exists n.
Qed.

Lemma classes_nodup (cls : list (list Z)) order : NoDup (concat cls) -> NoDup order ->
  (forall n, n ∈ order -> 1 <= n /\ is_Some (cls !! Z.to_nat (n - 1))) ->
  NoDup (concat (class_of cls <$> order)).
Proof.
  intros Hc Hnd. induction Hnd as [|n order Hn Hnd IH]; intros Hcls; [constructor|].
  rewrite fmap_cons. cbn [concat]. destruct (Hcls n) as [H1 [l Hl]]; [by left|].
  assert (El : class_of cls n = l) by (unfold class_of; by rewrite Hl).
  apply NoDup_app. split_and!.
  - rewrite El. destruct (concat_class cls _ l Hl) as (rest & E & _). rewrite E in Hc.
    by apply NoDup_app in Hc as (? & _).
  - intros x Hx (k & Hk & Hxk)%class_in. destruct (Hcls k) as [H2 [l' Hl']]; [by right|].
    assert (El' : class_of cls k = l') by (unfold class_of; by rewrite Hl'). rewrite El in Hx. rewrite El' in Hxk.
    pose proof (class_disjoint cls _ _ _ _ x Hc Hl Hl' Hx Hxk) as E. apply Hn.
    by replace n with k by lia.
  - apply IH. intros k Hk. apply Hcls. by right.
Qed.

(** Twice as many turns as free slices are enough. *)
Lemma destroy_ok fuel A used : slice_ok A used -> (Z.to_nat (2 * cached_count A) < fuel)%nat ->
  wp (_hev_memory_allocator_destroy fuel A) (fun A' =>
    (forall x, x ∈ used -> blocks A' !! x = blocks A !! x) /\ forall x, x ∉ used -> blocks A' !! x = None).
Proof.
  intros [(cls & order & HC & [Hd Hin]) Hb] Hf. unfold _hev_memory_allocator_destroy.
  destruct Hd as (-> & _ & Hseg & Hu). apply uniq_NoDup in Hu.
  assert (Hcl : forall n, n ∈ order -> exists i l, n = Z.of_nat i + 1 /\ cls !! i = Some l /\ l <> [] /\
    Z.to_nat (n - 1) = i /\ class_of cls n = l).
  { intros n (i & l & -> & Hl & Hne)%Hin. exists i, l. unfold class_of.
    replace (Z.to_nat (Z.of_nat i + 1 - 1)) with i by lia. by rewrite Hl. }
  assert (Hfr : forall x, x ∈ concat (class_of cls <$> order) <-> x ∈ concat cls).
  { intros x. rewrite class_in. split.
    - intros (n & Hn & Hx). destruct (Hcl n Hn) as (i & l & _ & Hl & _ & _ & E). rewrite E in Hx.
      by eapply class_sub.
    - intros Hx. apply list_elem_of_In, in_concat in Hx as (l & Hl & Hx).
      apply list_elem_of_In, list_elem_of_lookup in Hl as [i Hi]. apply list_elem_of_In in Hx.
      exists (Z.of_nat i + 1). assert (Hn : Z.of_nat i + 1 ∈ order).
      { apply Hin. exists i, l. split_and!; [done|done|]. by intros ->; apply elem_of_nil in Hx. }
      split; [done|]. unfold class_of. replace (Z.to_nat (Z.of_nat i + 1 - 1)) with i by lia. by rewrite Hi. }
  assert (Hnd : NoDup (concat (class_of cls <$> order))).
  { apply classes_nodup; [apply HC|done|]. intros n Hn. destruct (Hcl n Hn) as (i & l & -> & Hl & _ & -> & _).
    split; [lia|by eexists]. }
  assert (Hlen : (length (concat (class_of cls <$> order)) <= length (concat cls))%nat).
  { apply submseteq_length, NoDup_submseteq; [done|]. intros x. by rewrite Hfr. }
  assert (Hlo : (length order <= length (concat (class_of cls <$> order)))%nat).
  { clear - Hcl. induction order as [|n order IH]; [done|]. rewrite fmap_cons. cbn [concat length].
    rewrite length_app. destruct (Hcl n) as (i & l & _ & _ & Hne & _ & ->); [by left|].
    specialize (IH ltac:(intros k Hk; apply Hcl; by right)). destruct l; [done|]. simpl. lia. }
  eapply wp_mono; [apply (free_classes_ok fuel order 0 A cls); [apply HC|done|done| |]|].
  - intros n Hn. destruct (Hcl n Hn) as (i & l & E & Hl & _ & Ei & Ec). rewrite Ei, Ec.
    split; [lia|]. split; [by eexists|]. replace (n - 1) with (Z.of_nat i) by lia. by apply HC.
  - rewrite (co_count _ _ _ HC) in Hf. lia.
  - intros A' HA. split; intros x Hx; rewrite HA.
    + rewrite decide_False; [done|]. rewrite Hfr. by apply (co_used _ _ _ HC).
    + destruct (decide (x ∈ _)) as [|Hni]; [done|]. destruct (blocks A !! x) eqn:E; [|done].
      destruct (proj1 (co_blocks _ _ _ HC x)) as [?|Hx']; [by eexists|done|]. by rewrite <- Hfr in Hx'.
Qed.
