(* ===== verification/SliceProps.v ===== *)
(** * The caching allocator: properties *)
From S2P Require Import Prelude CInt List Slice SliceSpec.

(** ** What callers of an allocator rely on

    [live]: the blocks that are in use, with the sizes that were asked for. *)
Inductive aop :=
| AAlloc (m : option Z) (size : Z)
| ARealloc (m : option Z) (a size : Z)
| AFree (a : Z).

Inductive malloc_step (live : gmap Z Z) : aop -> Z -> gmap Z Z -> Prop :=
| MS_alloc m size r : r <> 0 -> live !! r = None ->
    malloc_step live (AAlloc m size) r (<[r := size]> live)
| MS_no_alloc m size : size = 0 \/ m = None -> malloc_step live (AAlloc m size) 0 live
| MS_realloc m a size r : r <> 0 -> is_Some (live !! a) -> delete a live !! r = None ->
    malloc_step live (ARealloc m a size) r (<[r := size]> (delete a live))
| MS_no_realloc a size : malloc_step live (ARealloc None a size) 0 live
| MS_free a : is_Some (live !! a) -> malloc_step live (AFree a) 0 (delete a live).

Definition aexec (o : aop) (A : Alloc) : option (Alloc * Z) :=
  match o with
  | AAlloc m size => hev_malloc m size A
  | ARealloc m a size => hev_realloc m a size A
  | AFree a => A ← hev_free a A; Some (A, 0)
  end.

(** The callers' blocks after a call, from its result. *)
Definition live_after (o : aop) (r : Z) (live : gmap Z Z) : gmap Z Z :=
  match o with
  | AAlloc _ size => if Z.eqb r 0 then live else <[r := size]> live
  | ARealloc _ a size => if Z.eqb r 0 then live else <[r := size]> (delete a live)
  | AFree a => delete a live
  end.

Fixpoint aexecs (os : list aop) (A : Alloc) (live : gmap Z Z) : option (Alloc * gmap Z Z) :=
  match os with
  | [] => Some (A, live)
  | o :: os => '(A, r) ← aexec o A; aexecs os A (live_after o r live)
  end.

(** The C library gives memory of its own; blocks are freed once. *)
Definition aop_ok (o : aop) (A : Alloc) (live : gmap Z Z) : Prop :=
  match o with
  | AAlloc m size => fresh m A /\ size_ok size
  | ARealloc m a size => is_Some (live !! a) /\ size_ok size /\ 0 < size /\
      (forall p, m = Some p -> p <> 0 /\ (p = a \/ blocks A !! p = None))
  | AFree a => is_Some (live !! a)
  end.

Fixpoint aops_ok (os : list aop) (A : Alloc) (live : gmap Z Z) : Prop :=
  match os with
  | [] => True
  | o :: os => aop_ok o A live /\
      forall A' r, aexec o A = Some (A', r) -> aops_ok os A' (live_after o r live)
  end.

(** Every block in use is as large as was asked for. *)
Record holds (A : Alloc) (live : gmap Z Z) : Prop := {
  ho_ok : slice_ok A (dom live);
  ho_room : forall a size, live !! a = Some size -> exists b, blocks A !! a = Some b /\ size <= b_room b;
}.

Lemma aexec_ok o A live : holds A live -> aop_ok o A live ->
  wp (aexec o A) (fun '(A', r) => malloc_step live o r (live_after o r live) /\ holds A' (live_after o r live)).
Proof.
  intros [H Hr] Ho. destruct o as [m size|m a size|a]; simpl in *.
  - destruct Ho as [Hm Hs]. eapply wp_mono; [by apply (alloc_ok m size A (dom live))|].
    intros [A' r]. destruct (Z.eqb_spec r 0) as [->|Hnz].
    + intros [Hn ->]. split; [by constructor|done].
    + intros (Hni & Hok & Hsame & b & Hb & Hle). apply not_elem_of_dom in Hni. split; [by constructor|].
      constructor; [by rewrite dom_insert_L|]. intros a sz. destruct (decide (a = r)) as [->|Hne].
      * rewrite lookup_insert_eq. intros [= <-]. by exists b.
      * rewrite lookup_insert_ne by done. intros Ha. rewrite Hsame by (by apply elem_of_dom_2 in Ha). by apply Hr.
  - destruct Ho as (Ha & Hs & Hp & Hm). apply elem_of_dom in Ha as Had.
    eapply wp_mono; [by apply (realloc_ok m A a size (dom live))|].
    intros [A' r]. destruct (Z.eqb_spec r 0) as [->|Hnz].
    + intros [-> ->]. split; [constructor|done].
    + intros (Hok & Hni & Hsame & b & Hb & Hle). split.
      * constructor; [done|done|]. rewrite <- dom_delete_L in Hni. by apply not_elem_of_dom in Hni.
      * constructor; [by rewrite dom_insert_L, dom_delete_L|]. intros x sz.
        destruct (decide (x = r)) as [->|Hne]; [rewrite lookup_insert_eq; intros [= <-]; by exists b|].
        rewrite lookup_insert_ne by done. intros [Hxa Hx]%lookup_delete_Some.
        rewrite Hsame by (done || by apply elem_of_dom_2 in Hx). by apply Hr.
  - apply elem_of_dom in Ho as Had. apply wp_bind. eapply wp_mono; [by apply (free_ok A a (dom live))|].
    intros A' [Hok Hsame]. apply wp_ret. split; [by constructor|].
    constructor; [by rewrite dom_delete_L|]. intros x sz [Hxa Hx]%lookup_delete_Some.
    rewrite Hsame by (done || by apply elem_of_dom_2 in Hx). by apply Hr.
Qed.

Inductive malloc_steps : gmap Z Z -> list aop -> gmap Z Z -> Prop :=
| malloc_done live : malloc_steps live [] live
| malloc_more live o os r live1 live2 : malloc_step live o r live1 -> malloc_steps live1 os live2 ->
    malloc_steps live (o :: os) live2.

(** C7: The allocator is a [malloc] for sizes of up to 2^36-16 bytes (a larger one
    is cut, [alloc_truncates]): whatever is asked for, in any order, with only
    blocks in use freed and resized, and those to a positive size, it touches no memory that is not its own,
    hands out no block that is in use, every block in use has the room that was
    asked for, and at most 1000 free slices are kept; its end gives back all of
    them and no other block. *)
Theorem slice_allocator_refines os nodes :
  aops_ok os (hev_memory_allocator_slice_new nodes ∅) ∅ ->
  wp (aexecs os (hev_memory_allocator_slice_new nodes ∅) ∅) (fun '(A, live) =>
    malloc_steps ∅ os live /\ holds A live /\
    forall fuel, (2000 < fuel)%nat -> wp (_hev_memory_allocator_destroy fuel A) (fun A' =>
      forall x, is_Some (blocks A' !! x) <-> is_Some (live !! x))).
Proof.
  set (A0 := hev_memory_allocator_slice_new nodes ∅).
  assert (H0 : holds A0 ∅) by (constructor; [rewrite dom_empty_L; apply slice_new_ok|done]).
  clearbody A0. revert A0 H0. generalize (∅ : gmap Z Z).
  induction os as [|o os IH]; intros live A H Hops; simpl in *.
  - apply wp_ret. split; [constructor|]. split; [done|]. intros fuel Hf.
    pose proof (sl_bound _ _ (ho_ok _ _ H)) as Hb. unfold MAX_CACHED_SLICE_COUNT in Hb.
    eapply wp_mono; [apply (destroy_ok fuel A (dom live) (ho_ok _ _ H)); lia|].
    intros A' [Hin Hout] x. rewrite <- (elem_of_dom live x). destruct (decide (x ∈ dom live)) as [Hx|Hx].
    + rewrite (Hin x Hx). split; [done|]. intros _. apply elem_of_dom in Hx as [sz Hx].
      destruct (ho_room _ _ H x sz Hx) as (b & Hb' & _). by exists b.
    + rewrite (Hout x Hx). split; [by intros []|done].
  - destruct Hops as [Ho Hops]. apply wp_bind.
    destruct (aexec_ok o A live H Ho) as ([A' r] & E & Hstep & H'). exists (A', r). split; [done|].
    eapply wp_mono; [apply (IH _ A' H'); by apply Hops|].
    intros [A2 live2] (Hs & H2). split; [by econstructor|done].
Qed.

(** Three blocks of two classes, a reuse of a free slice, a larger [realloc]. *)
Definition demo_allocs : list aop :=
  [AAlloc (Some 4096) 10; AAlloc (Some 8192) 16; AAlloc (Some 12288) 100; AFree 4096; AFree 12288;
   AAlloc None 7; ARealloc (Some 16384) 8192 5000; AAlloc None 0; AAlloc None 200].

Definition alloc_ex (os : list aop) : Alloc * gmap Z Z :=
  default (hev_memory_allocator_slice_new ∅ ∅, ∅) (aexecs os (hev_memory_allocator_slice_new ∅ ∅) ∅).

#[export] Instance fresh_dec m A : Decision (fresh m A).
Proof.
  unfold fresh. destruct m as [a|]; [|by left].
  destruct (decide (a <> 0 /\ blocks A !! a = None)) as [H|H]; [left; by intros ? [= <-]|right].
  intros H'. by apply H, H'.
Defined.

#[export] Instance aop_ok_dec o A live : Decision (aop_ok o A live).
Proof.
  destruct o as [m size|m a size|a]; simpl; unfold size_ok; try apply _.
  do 3 (apply and_dec; [apply _|]). destruct m as [p|]; [|by left].
  destruct (decide (p <> 0 /\ (p = a \/ blocks A !! p = None))) as [H|H]; [left; by intros ? [= <-]|right].
  intros H'. by apply H, H'.
Defined.

Fixpoint aops_okb (os : list aop) (A : Alloc) (live : gmap Z Z) : bool :=
  match os with
  | [] => true
  | o :: os => bool_decide (aop_ok o A live) &&
      match aexec o A with Some (A', r) => aops_okb os A' (live_after o r live) | None => true end
  end.

Lemma aops_okb_ok os A live : aops_okb os A live = true -> aops_ok os A live.
Proof.
  revert A live. induction os as [|o os IH]; intros A live; simpl; [done|].
  intros [H1 H2]%andb_true_iff. split; [by apply bool_decide_eq_true in H1|].
  intros A' r E. rewrite E in H2. by apply IH.
Qed.

Lemma slice_allocator_refines_witness :
  wp (aexecs demo_allocs (hev_memory_allocator_slice_new ∅ ∅) ∅) (fun '(A, live) =>
    malloc_steps ∅ demo_allocs live /\ holds A live /\
    forall fuel, (2000 < fuel)%nat -> wp (_hev_memory_allocator_destroy fuel A) (fun A' =>
      forall x, is_Some (blocks A' !! x) <-> is_Some (live !! x))) /\
  map_to_list (alloc_ex demo_allocs).2 = [(16384, 5000); (4096, 7)].
Proof.
  split; [|vm_compute; reflexivity].
  apply (slice_allocator_refines demo_allocs ∅). apply aops_okb_ok. vm_compute. reflexivity.
Defined.

(** From 2^36 + 1 on the class is truncated to a small [int]: a free block of 16
    bytes is handed out for a request of 64 GiB. *)
Lemma alloc_truncates : exists A, aexecs [AAlloc (Some 4096) 16; AFree 4096]
    (hev_memory_allocator_slice_new ∅ ∅) ∅ = Some (A, ∅) /\
  wp (hev_malloc None (2 ^ 36 + 16) A) (fun '(A', r) => r = 4096 /\ exists b, blocks A' !! 4096 = Some b /\ b_room b = 16) /\
  hev_malloc0 None (2 ^ 36 + 16) A = None.
Proof.
  eexists. split; [vm_compute; reflexivity|]. split; [|vm_compute; reflexivity].
  eexists. split; [vm_compute; reflexivity|]. split; [reflexivity|].
  eexists. split; [vm_compute; reflexivity|reflexivity].
Qed.

(** [hev_calloc]'s product wraps: a block of 16 bytes for 2^60 + 1 times 16. *)
Lemma calloc_wraps : exists A r b, hev_calloc (Some 4096) (2 ^ 60 + 1) 16 (hev_memory_allocator_slice_new ∅ ∅)
    = Some (A, r) /\ r = 4096 /\ blocks A !! r = Some b /\ b_room b = 16.
Proof. do 3 eexists. split; [vm_compute; reflexivity|]. split; [reflexivity|]. by split; [vm_compute; reflexivity|]. Qed.

(** [realloc] of no block, which C's grows into [malloc], is a bad access. *)
Lemma realloc_null m size nodes : 0 < size ->
  hev_realloc m 0 size (hev_memory_allocator_slice_new nodes ∅) = None.
Proof. intros H. unfold hev_realloc, _hev_memory_allocator_realloc. by rewrite (proj2 (Z.eqb_neq size 0)) by lia. Qed.
