(* ===== verification/MappedDNSSpec.v ===== *)
(** * The mapped DNS cache refines a least-recently-used cache *)
From S2P Require Import Prelude RBTree RBTreeShape RBTreeUnlink RBTreeSpec List SearchTree CInt MappedDNS.

(** ** The abstract cache: names and numbers, least recently used first *)

Definition lru := list (list Z * Z).

Fixpoint lru_remove (P : list Z * Z -> bool) (l : lru) : option (list Z * Z * lru) :=
  match l with
  | [] => None
  | e :: l =>
      if P e then Some (e, l)
      else '(e', l') ← lru_remove P l; Some (e', e :: l')
  end.

Definition has_name (nm : list Z) (e : list Z * Z) : bool := bool_decide (e.1 = nm).
Definition has_idx (i : Z) (e : list Z * Z) : bool := bool_decide (e.2 = i).

(** A known name becomes the most recent; a new one takes the next free
    number, or that of the least recently used name. *)
Definition lru_find (cap : Z) (l : lru) (nm : list Z) : lru * Z :=
  match lru_remove (has_name nm) l with
  | Some (e, l') => (l' ++ [e], e.2)
  | None =>
      let n := Z.of_nat (length l) in
      if Z.ltb n cap then (l ++ [(nm, n)], n)
      else match l with
           | [] => (l, -1)
           | e :: l' => (l' ++ [(nm, e.2)], e.2)
           end
  end.

Definition lru_lookup (l : lru) (i : Z) : lru * option (list Z) :=
  match lru_remove (has_idx i) l with
  | Some (e, l') => (l' ++ [e], Some e.1)
  | None => (l, None)
  end.

Lemma lru_remove_Some P l e l' : lru_remove P l = Some (e, l') ->
  exists l1 l2, l = l1 ++ e :: l2 /\ l' = l1 ++ l2 /\ P e = true.
Proof.
  revert e l'. induction l as [|x l IH]; intros e l'; simpl; [done|].
  destruct (P x) eqn:HP; [intros [= <- <-]; by exists [], l|].
  destruct (lru_remove P l) as [[e0 l0]|]; [|done]. simpl. intros [= <- <-].
  destruct (IH e0 l0) as (l1 & l2 & -> & -> & He); [done|]. by exists (x :: l1), l2.
Qed.

Lemma lru_remove_at P l1 e l2 : Forall (fun x => P x = false) l1 -> P e = true ->
  lru_remove P (l1 ++ e :: l2) = Some (e, l1 ++ l2).
Proof. induction 1 as [|x l1 Hx _ IH]; intros He; simpl; [by rewrite He|by rewrite Hx, IH]. Qed.

Lemma lru_remove_None P l : Forall (fun x => P x = false) l -> lru_remove P l = None.
Proof. induction 1 as [|x l Hx _ IH]; simpl; [done|by rewrite Hx, IH]. Qed.

(** ** The representation *)

(** The nodes of the cache, in order of use, and the structures over them. *)
Record dns_core (self : HevMappedDNS) (addrs : list Z) : Prop := {
  core_list : dll (dlist self) (map node_list addrs);
  core_tree : exists xs, rb_rep (dtree self) xs /\ xs ≡ₚ addrs /\ sorted (node_key self) xs;
  core_nodes : forall a, a ∈ addrs <-> is_Some (nodes self !! a);
  core_pos : Forall (fun a => 0 < a) addrs;
}.

Record dns_idx (self : HevMappedDNS) (n : Z) : Prop := {
  idx_records : Z.of_nat (length (records self)) = max self;
  idx_le : 0 <= n <= max self;
  idx_used : forall a d, nodes self !! a = Some d ->
    0 <= idx d < n /\ records self !! Z.to_nat (idx d) = Some a;
  idx_free : forall i, n <= i < max self -> records self !! Z.to_nat i = Some 0;
}.

Definition entry (self : HevMappedDNS) (a : Z) (e : list Z * Z) : Prop :=
  nodes self !! a = Some (mkDNSNode (Some e.1) e.2).

Definition dns_rep (self : HevMappedDNS) (l : lru) : Prop :=
  exists addrs, dns_core self addrs /\ dns_idx self (use self) /\
    use self = Z.of_nat (length addrs) /\ Forall2 (entry self) addrs l.

Lemma core_uniq self addrs : dns_core self addrs -> NoDup addrs.
Proof.
  intros [_ (xs & Hrep & Hp & _) _ _]. rewrite <- Hp. apply uniq_NoDup. by eapply rb_rep_uniq.
Qed.

Lemma node_list_ne a b : a <> b -> node_list a <> node_list b.
Proof. unfold node_list. lia. Qed.

Lemma node_list_in a addrs : node_list a ∈ map node_list addrs <-> a ∈ addrs.
Proof.
  rewrite list_elem_of_fmap. split; [|by eauto].
  intros (b & Hb & Hin). unfold node_list in Hb. by assert (a = b) as -> by lia.
Qed.

Lemma container_of_node_list a : container_of_list (node_list a) = a.
Proof. unfold container_of_list, node_list. lia. Qed.

(** *** A node is used again *)

Lemma move_to_tail_ok self as1 a as2 :
  dns_core self (as1 ++ a :: as2) ->
  wp (move_to_tail self a) (fun self' =>
    dns_core self' (as1 ++ as2 ++ [a]) /\ exists l, self' = set_list l self).
Proof.
  intros Hc. pose proof Hc as [Hl (xs & Hr & Hp & Hs) Hn Hpos].
  rewrite map_app in Hl. simpl in Hl. unfold move_to_tail.
  pose proof (del_add_tail_ok _ _ _ _ Hl) as Hw. apply wp_bind_inv in Hw.
  apply wp_bind. eapply wp_mono; [exact Hw|]. intros l1 Hw1.
  apply wp_bind. eapply wp_mono; [exact Hw1|]. intros l2 [Hl2 _]. apply wp_ret.
  assert (as1 ++ as2 ++ [a] ≡ₚ as1 ++ a :: as2) as Hperm by solve_Permutation.
  split; [|by eexists]. constructor; simpl.
  - by rewrite !map_app.
  - exists xs. split; [done|]. split; [by rewrite Hperm|done].
  - intros b. by rewrite Hperm.
  - by rewrite Hperm.
Qed.

(** Members of the representation. *)
Lemma rep_member self addrs l a :
  Forall2 (entry self) addrs l -> a ∈ addrs ->
  exists as1 as2 l1 e l2, addrs = as1 ++ a :: as2 /\ l = l1 ++ e :: l2 /\
    Forall2 (entry self) as1 l1 /\ entry self a e /\ Forall2 (entry self) as2 l2.
Proof.
  intros HF (as1 & as2 & ->)%list_elem_of_split.
  apply Forall2_app_inv_l in HF as (l1 & l2' & H1 & H2 & ->).
  apply Forall2_cons_inv_l in H2 as (e & l2 & He & H2 & ->). eauto 12.
Qed.

Lemma Forall2_entry_out self as1 l1 (P : list Z * Z -> bool) :
  Forall2 (entry self) as1 l1 ->
  (forall b e, b ∈ as1 -> entry self b e -> P e = false) -> Forall (fun x => P x = false) l1.
Proof.
  induction 1 as [|b e as1 l1 He HF IH]; intros HP; constructor.
  - apply (HP b); [set_solver|done].
  - apply IH. intros b' e' Hb' He'. apply (HP b'); [set_solver|done].
Qed.

Lemma entry_set_list self l a e : entry self a e <-> entry (set_list l self) a e.
Proof. done. Qed.

(** Using the node [a]: the abstract cache moves its entry to the end. *)
Lemma rep_touch self addrs l a (P : list Z * Z -> bool) :
  dns_core self addrs -> dns_idx self (use self) -> use self = Z.of_nat (length addrs) ->
  Forall2 (entry self) addrs l -> a ∈ addrs ->
  (forall e, entry self a e -> P e = true) ->
  (forall b e, b ∈ addrs -> b <> a -> entry self b e -> P e = false) ->
  exists e l', lru_remove P l = Some (e, l') /\ entry self a e /\
    wp (move_to_tail self a) (fun self' =>
      dns_rep self' (l' ++ [e]) /\ exists lst, self' = set_list lst self).
Proof.
  intros Hc Hi Hu HF Ha HP HN. pose proof (core_uniq _ _ Hc) as Hnd.
  destruct (rep_member _ _ _ _ HF Ha) as (as1 & as2 & l1 & e & l2 & -> & -> & H1 & He & H2).
  exists e, (l1 ++ l2). split; [|split; [done|]].
  - apply lru_remove_at; [|by apply HP]. eapply Forall2_entry_out; [done|].
    intros b e' Hb He'. apply (HN b); [set_solver| |done]. intros ->.
    apply NoDup_app in Hnd as (_ & Hnd & _). apply (Hnd a); [done|set_solver].
  - eapply wp_mono; [by apply move_to_tail_ok|]. intros self' [Hc' [lst ->]].
    split; [|by eexists]. exists (as1 ++ as2 ++ [a]).
    split; [done|]. split; [by destruct Hi; constructor|]. split.
    + simpl. rewrite Hu, !length_app. simpl. lia.
    + rewrite <- app_assoc. apply Forall2_app; [done|]. apply Forall2_app; [done|].
      by constructor.
Qed.

(** *** A node is added *)

Section rep.
Context `{Allocator}.

(** A node whose name was copied. *)
Definition made (self : HevMappedDNS) (nm : list Z) (self1 : HevMappedDNS) (a : Z) : Prop :=
  hev_malloc0 (dom (nodes self)) = Some a /\ self1 = new_node self a (Some nm).

Lemma alloc_facts self nm a self1 :
  made self nm self1 a ->
  addr_ok a /\ 0 < a /\ nodes self !! a = None /\
  nodes self1 = <[a := mkDNSNode (Some nm) 0]> (nodes self) /\
  dtree self1 = mkRBTree (root (dtree self)) (<[a := mkRBNode 0 0 0]> (cells (dtree self))) /\
  dlist self1 = mkList (l_head (dlist self)) (l_tail (dlist self))
                  (<[node_list a := mkListNode 0 0]> (lcells (dlist self))) /\
  use self1 = use self /\ max self1 = max self /\ net self1 = net self /\
  mask self1 = mask self /\ records self1 = records self.
Proof.
  intros [E ->]. destruct (hev_malloc0_ok _ _ E) as (Hpos & Hal & Hd).
  apply not_elem_of_dom in Hd. split; [split; [lia|done]|]. by split_and!.
Qed.

Lemma attach_ok fuel self addrs nm a self1 ls rs parent slot :
  dns_core self addrs ->
  gap (dtree self) ls rs parent slot -> ls ++ rs ≡ₚ addrs ->
  sorted (node_key self) (ls ++ rs) ->
  above (node_key self) nm ls -> below (node_key self) nm rs ->
  made self nm self1 a ->
  (S (length addrs) < fuel)%nat ->
  wp (attach fuel self1 a parent slot) (fun self' =>
    dns_core self' (addrs ++ [a]) /\ exists l t, self' = set_list l (set_tree t self1)).
Proof.
  intros [Hl _ Hn Hpos] Hg Hp Hs Hab Hbe Ha Hf.
  destruct (alloc_facts _ _ _ _ Ha)
    as (Hok & Hgt & Hfresh & En & Et & El & _).
  assert (a ∉ addrs) as Hni by (rewrite Hn, Hfresh; by intros [? ?]).
  assert (a ∉ ls ++ rs) as Hni' by (by rewrite Hp).
  assert (forall x, x ∈ ls ++ rs -> node_key self1 x = node_key self x) as Hkey.
  { intros x Hx. unfold node_key. rewrite En, lookup_insert_ne; [done|]. by intros ->. }
  unfold attach.
  assert (wp (rb_insert fuel (dtree self1) a parent slot) (fun T' =>
    rb_rep T' (ls ++ a :: rs))) as Hins.
  { eapply wp_mono; [apply (insert_gap_ok fuel (dtree self1) ls rs parent slot a); try done|].
    - apply (cursor_frame (dtree self)); [by rewrite Et| |done]. simpl. intros x Hx.
      rewrite Et. simpl. rewrite lookup_insert_ne; [done|]. by intros ->.
    - rewrite Et. simpl. rewrite lookup_insert_eq. eauto.
    - pose proof (depth_bound_le (length (ls ++ rs))). rewrite (Permutation_length Hp) in *. lia.
    - by intros T' [? _]. }
  apply wp_bind_inv in Hins. apply wp_bind. eapply wp_mono; [exact Hins|]. intros T1 Hins1.
  apply wp_bind. eapply wp_mono; [exact Hins1|]. intros T2 Hrep2. apply wp_bind.
  eapply wp_mono.
  { apply (add_tail_ok _ (map node_list addrs)).
    - rewrite El. destruct Hl as (H1 & H2 & H3 & H4). split_and!; try done.
      simpl. eapply seg_frame; [|exact H3]. intros x Hx. rewrite lookup_insert_ne; [done|].
      intros <-. by rewrite node_list_in in Hx.
    - unfold node_list, offsetof_list. lia.
    - by rewrite node_list_in.
    - rewrite El. simpl. rewrite lookup_insert_eq. eauto. }
  intros l2 [Hl2 _]. apply wp_ret. split; [|by eexists _, _].
  constructor; simpl.
  - by rewrite map_app.
  - exists (ls ++ a :: rs). split; [done|]. split; [rewrite <- Hp; solve_Permutation|].
    apply (sorted_insert _ ls a rs nm).
    + by apply (sorted_ext (node_key self)).
    + unfold node_key. simpl. by rewrite En, lookup_insert_eq.
    + apply (above_ext (node_key self)); [|done]. intros x Hx. apply Hkey. set_solver.
    + apply (below_ext (node_key self)); [|done]. intros x Hx. apply Hkey. set_solver.
  - intros b. rewrite elem_of_app, list_elem_of_singleton, Hn, En.
    destruct (decide (a = b)) as [->|Hab'].
    + rewrite lookup_insert_eq. split; [by eauto|auto].
    + rewrite lookup_insert_ne by done. naive_solver.
  - apply Forall_app. split; [done|]. by constructor.
Qed.

(** *** The least recently used node is dropped *)

Lemma evict_ok fuel self a addrs :
  dns_core self (a :: addrs) -> (S (length addrs) < fuel)%nat ->
  exists d, nodes self !! a = Some d /\
  wp (evict fuel self) (fun '(self', i) =>
    dns_core self' addrs /\ i = idx d /\ nodes self' = delete a (nodes self) /\
    use self' = use self /\ max self' = max self /\ net self' = net self /\
    mask self' = mask self /\ records self' = records self).
Proof.
  intros Hc Hf. pose proof (core_uniq _ _ Hc) as Hnd. apply NoDup_cons in Hnd as [Hni Hnd].
  destruct Hc as [Hl (xs & Hr & Hp & Hs) Hn Hpos].
  assert (is_Some (nodes self !! a)) as [d Hd] by (apply Hn; set_solver).
  exists d. split; [done|]. unfold evict, hev_list_first.
  pose proof Hl as (Hh & _). simpl in Hh. rewrite Hh. unfold hd_or. simpl.
  rewrite container_of_node_list. unfold node_idx. rewrite Hd. simpl.
  destruct (list_elem_of_split xs a) as (ls & rs & ->); [rewrite Hp; set_solver|].
  assert (ls ++ rs ≡ₚ addrs) as Hp'.
  { apply (Permutation_cons_inv (a := a)). rewrite <- Hp. solve_Permutation. }
  apply wp_bind. eapply wp_mono.
  { apply (erase_ok fuel _ ls a rs Hr). rewrite (Permutation_length Hp'). lia. }
  intros T' [HrT Hframe]. apply wp_bind. eapply wp_mono.
  { apply (del_ok _ [] (node_list a) (map node_list addrs)). exact Hl. }
  intros l' (Hl' & _ & _). apply wp_ret. simpl in Hl'.
  pose proof (rb_rep_uniq _ _ Hr) as Hu.
  assert (a ∉ ls ++ rs) as Hnx by (by rewrite Hp').
  split; [|by split_and!]. constructor; simpl.
  - destruct Hl' as (H1 & H2 & H3 & H4). split_and!; try done. simpl.
    eapply seg_frame; [|exact H3]. intros x Hx. rewrite lookup_delete_ne; [done|].
    intros <-. by rewrite node_list_in in Hx.
  - exists (ls ++ rs). split; [|split; [done|]].
    + apply (rb_rep_frame T'); [done| |done]. intros x Hx. simpl.
      rewrite lookup_delete_ne; [done|]. by intros <-.
    + apply sorted_delete in Hs. apply (sorted_ext (node_key self)); [|done].
      intros x Hx. unfold node_key. simpl. rewrite lookup_delete_ne; [done|]. by intros <-.
  - intros b. destruct (decide (a = b)) as [<-|Hab].
    + rewrite lookup_delete_eq. split; [done|by intros [? ?]].
    + rewrite lookup_delete_ne by done. rewrite <- Hn, elem_of_cons. naive_solver.
  - by inversion Hpos.
Qed.
(** *** Recording the number of the new node *)

Definition same_config (self self' : HevMappedDNS) : Prop :=
  max self' = max self /\ net self' = net self /\ mask self' = mask self.

Lemma finish_ok self addrs l a nm i :
  dns_core self (addrs ++ [a]) -> a ∉ addrs ->
  nodes self !! a = Some (mkDNSNode (Some nm) 0) ->
  Z.of_nat (length (records self)) = max self ->
  use self = Z.of_nat (length (addrs ++ [a])) -> 0 <= i < use self -> use self <= max self ->
  (forall b d, b <> a -> nodes self !! b = Some d ->
     0 <= idx d < use self /\ idx d <> i /\ records self !! Z.to_nat (idx d) = Some b) ->
  (forall j, use self <= j < max self -> records self !! Z.to_nat j = Some 0) ->
  Forall2 (entry self) addrs l ->
  wp (self ← wr_record self i a; self ← set_idx self a i;
      i ← node_idx self a; Some (self, i)) (fun '(self', i') =>
    i' = i /\ dns_rep self' (l ++ [(nm, i)]) /\ same_config self self' /\ nodes self' !! a = Some (mkDNSNode (Some nm) i)).
Proof.
  intros Hc Hni Ha Hlen Huse Hi Hmax Hused Hfree HF.
  unfold wr_record. destruct (Z.ltb_spec i 0); [lia|].
  destruct (Z.ltb_spec i (Z.of_nat (length (records self)))); [|lia]. simpl.
  unfold set_idx, node_idx. simpl. rewrite Ha. simpl. rewrite lookup_insert_eq. simpl.
  eexists. split; [done|]. split; [done|]. split; [|split; [done|]; simpl; by rewrite lookup_insert_eq].
  exists (addrs ++ [a]). destruct Hc as [Hl (xs & Hr & Hp & Hs) Hn Hpos].
  split; [|split; [|split]].
  - constructor; simpl; [done| | |done].
    + exists xs. split; [done|]. split; [done|]. apply (sorted_ext (node_key self)); [|done].
      intros x _. unfold node_key. simpl. destruct (decide (a = x)) as [<-|].
      * by rewrite lookup_insert_eq, Ha.
      * by rewrite lookup_insert_ne.
    + intros b. rewrite Hn. destruct (decide (a = b)) as [<-|].
      * rewrite lookup_insert_eq, Ha. split; eauto.
      * by rewrite lookup_insert_ne.
  - constructor; simpl.
    + by rewrite length_insert.
    + lia.
    + intros b d. destruct (decide (a = b)) as [<-|Hab].
      * rewrite lookup_insert_eq. intros [= <-]. simpl. split; [done|].
        apply list_lookup_insert_eq. lia.
      * rewrite lookup_insert_ne by done. intros Hd.
        destruct (Hused b d) as (Hq1 & Hq2 & Hq3); [done..|]. split; [done|].
        rewrite list_lookup_insert_ne by lia. done.
    + intros j Hj. rewrite list_lookup_insert_ne by lia. by apply Hfree.
  - done.
  - apply Forall2_app.
    + apply Forall2_same_length_lookup. split; [by eapply Forall2_length|].
      intros k b e Hb He. unfold entry. simpl. rewrite lookup_insert_ne.
      * by eapply Forall2_lookup_lr in HF.
      * intros <-. apply Hni. by eapply list_elem_of_lookup_2.
    + constructor; [|constructor]. unfold entry. simpl. by rewrite lookup_insert_eq.
Qed.

Lemma find_absent self addrs l nm ls rs :
  dns_core self addrs -> Forall2 (entry self) addrs l -> ls ++ rs ≡ₚ addrs ->
  above (node_key self) nm ls -> below (node_key self) nm rs ->
  lru_remove (has_name nm) l = None.
Proof.
  intros Hc HF Hp Ha Hb. apply lru_remove_None. eapply Forall2_entry_out; [done|].
  intros b e Hin He. unfold has_name. apply bool_decide_eq_false. intros Heq.
  assert (node_key self b = Some nm) as Hk by (unfold node_key; by rewrite He, <- Heq).
  unfold above, below in *. rewrite Forall_forall in Ha, Hb.
  rewrite <- Hp, elem_of_app in Hin.
  destruct Hin as [Hin|Hin]; [destruct (Ha b Hin) as (k & Hk' & Hlt)|destruct (Hb b Hin) as (k & Hk' & Hlt)];
    rewrite Hk in Hk'; injection Hk' as <-; rewrite key_cmp_refl in Hlt; lia.
Qed.

(** What a call does while there is memory for the names. *)
Definition find_post (self : HevMappedDNS) (l : lru) (nm : list Z)
    (out : HevMappedDNS * Z) : Prop :=
  let '(self', i) := out in
  same_config self self' /\
  ((dns_rep self' (lru_find (max self) l nm).1 /\ i = (lru_find (max self) l nm).2) \/
   (self' = self /\ i = -1 /\ lru_remove (has_name nm) l = None /\
    hev_malloc0 (dom (nodes self)) = None)).

(** The node [a] without its name. *)
Definition blank (a : Z) (self : HevMappedDNS) : HevMappedDNS :=
  set_nodes (alter (fun n => mkDNSNode None (idx n)) a (nodes self)) self.

(** A new name has entered, with its node at [a]. *)
Definition entered (self : HevMappedDNS) (l : lru) (nm : list Z) (a : Z) (out : HevMappedDNS * Z) : Prop :=
  let '(self', i) := out in
  same_config self self' /\ dns_rep self' (lru_find (max self) l nm).1 /\ i = (lru_find (max self) l nm).2 /\
  nodes self' !! a = Some (mkDNSNode (Some nm) i).

(** Without memory for its name, a new one enters all the same, but its node's is [NULL]. *)
Definition unnamed_post (self : HevMappedDNS) (l : lru) (nm : list Z)
    (out : HevMappedDNS * Z) : Prop :=
  let '(self', i) := out in
  lru_remove (has_name nm) l = None /\ strdup (dom (nodes self)) nm = None /\
  exists a self2, self' = blank a self2 /\ same_config self self2 /\
    nodes self2 !! a = Some (mkDNSNode (Some nm) i) /\
    dns_rep self2 (lru_find (max self) l nm).1 /\ i = (lru_find (max self) l nm).2.

(** The node of an absent name [nm] has been made and attached. *)
Record attached (self self2 : HevMappedDNS) (addrs : list Z) (l : lru) (nm : list Z) (a : Z) : Prop := {
  at_core : dns_core self2 (addrs ++ [a]);
  at_entries : Forall2 (entry self2) addrs l;
  at_fresh : a ∉ addrs;
  at_nodes : nodes self2 = <[a := mkDNSNode (Some nm) 0]> (nodes self);
  at_use : use self2 = use self;
  at_conf : same_config self self2;
  at_records : records self2 = records self;
}.

Lemma alloc_attached fuel self addrs l nm ls rs parent slot self1 a :
  dns_core self addrs -> Forall2 (entry self) addrs l ->
  (S (length addrs) < fuel)%nat ->
  gap (dtree self) ls rs parent slot -> ls ++ rs ≡ₚ addrs -> sorted (node_key self) (ls ++ rs) ->
  above (node_key self) nm ls -> below (node_key self) nm rs ->
  made self nm self1 a ->
  wp (attach fuel self1 a parent slot) (fun self2 => attached self self2 addrs l nm a).
Proof.
  intros Hc HF Hf Hg Hp Hs Ha Hb Halloc.
  destruct (alloc_facts _ _ _ _ Halloc)
    as (Hok & Hgt & Hfresh & En & Et & El & Eu & Em & Enet & Emask & Erec).
  assert (a ∉ addrs) as Hni.
  { destruct Hc as [_ _ Hn _]. rewrite Hn, Hfresh. by intros [? ?]. }
  eapply wp_mono; [by apply (attach_ok fuel self addrs nm a self1 ls rs)|].
  intros self2 [Hc2 (l2 & t2 & ->)]. split; simpl; try done.
  apply Forall2_same_length_lookup. split; [by eapply Forall2_length|]. intros k b e Hkb Hke.
  unfold entry. simpl. rewrite En, lookup_insert_ne; [by eapply Forall2_lookup_lr in HF|].
  intros <-. apply Hni. by eapply list_elem_of_lookup_2.
Qed.

(** Its number is the next one ... *)
Lemma find_grow_ok self self2 addrs l nm a :
  attached self self2 addrs l nm a -> dns_idx self (use self) -> use self = Z.of_nat (length addrs) ->
  use self < max self -> lru_remove (has_name nm) l = None ->
  wp (self4 ← wr_record (set_use (use self + 1) self2) (use self) a;
      self5 ← set_idx self4 a (use self); i ← node_idx self5 a; Some (self5, i))
    (entered self l nm a).
Proof.
  intros [Hc2 HF1 Hni En Eu Hconf0 Erec] [Hlen Hle Hused Hfree] Hu Hlt Habs.
  pose proof (Forall2_length _ _ _ HF1) as Hll. destruct Hconf0 as (Em & Enet & Emask).
  eapply wp_mono.
  { apply (finish_ok _ addrs l a nm (use self)); simpl.
    - by destruct Hc2; constructor.
    - done.
    - by rewrite En, lookup_insert_eq.
    - by rewrite Erec, Em.
    - rewrite length_app. simpl. lia.
    - lia.
    - lia.
    - intros b d Hb' Hd. rewrite En, lookup_insert_ne in Hd by done. rewrite Erec.
      destruct (Hused b d Hd). split; [lia|]. split; [lia|done].
    - intros j Hj. rewrite Erec. apply Hfree. lia.
    - exact HF1. }
  intros [self' i'] (-> & Hrep & Hconf & Ha'). unfold entered, lru_find. rewrite Habs, <- Hll, <- Hu.
  rewrite (proj2 (Z.ltb_lt _ _) Hlt). split; [|by split].
  unfold same_config in *. simpl in Hconf. naive_solver congruence.
Qed.

(** ... or that of the least recently used name, which is dropped. *)
Lemma find_evict_ok fuel self self2 addrs l nm a :
  attached self self2 addrs l nm a -> dns_core self addrs -> dns_idx self (use self) ->
  use self = Z.of_nat (length addrs) -> 1 <= max self -> (S (Z.to_nat (max self)) < fuel)%nat ->
  max self <= use self -> lru_remove (has_name nm) l = None ->
  wp ('(self3, i) ← evict fuel self2; self4 ← wr_record self3 i a;
      self5 ← set_idx self4 a i; i ← node_idx self5 a; Some (self5, i)) (entered self l nm a).
Proof.
  intros [Hc2 HF1 Hni En Eu Hconf0 Erec] Hc [Hlen Hle Hused Hfree] Hu Hmax Hf Hge Habs.
  pose proof (Forall2_length _ _ _ HF1) as Hll. destruct Hconf0 as (Em & Enet & Emask).
  unfold entered, lru_find. rewrite Habs, <- Hll, <- Hu, (proj2 (Z.ltb_ge _ _) Hge).
  destruct addrs as [|a0 addrs]; [simpl in *; lia|].
  inversion HF1 as [|? e0 ? l' He0 HF1']; subst. simpl in Hu, Hll.
  apply wp_bind. simpl in Hc2.
  destruct (evict_ok fuel _ a0 (addrs ++ [a]) Hc2) as (d & Hd & Hev);
    [rewrite length_app; simpl; lia|].
  eapply wp_mono; [exact Hev|]. clear Hev.
  intros [self3 i] (Hc3 & -> & En3 & Eu3 & Em3 & Enet3 & Emask3 & Erec3).
  assert (a <> a0) as Hane by (intros ->; set_solver).
  assert (d = mkDNSNode (Some e0.1) e0.2) as -> by (unfold entry in He0; congruence).
  rewrite En, lookup_insert_ne in Hd by done. destruct (Hused a0 _ Hd) as [Hd1 Hd2].
  pose proof (core_uniq _ _ Hc) as Hnd. apply NoDup_cons in Hnd as [Hni0 _].
  eapply wp_mono.
  { apply (finish_ok _ addrs l' a nm e0.2).
    - done.
    - set_solver.
    - rewrite En3, lookup_delete_ne by done. by rewrite En, lookup_insert_eq.
    - by rewrite Erec3, Em3, Erec, Em.
    - rewrite Eu3, Eu, length_app. simpl. lia.
    - rewrite Eu3, Eu. done.
    - rewrite Eu3, Eu, Em3, Em. lia.
    - intros b d Hb' Hd'. rewrite En3 in Hd'. apply lookup_delete_Some in Hd' as [Hb0 Hd'].
      rewrite En, lookup_insert_ne in Hd' by done.
      destruct (Hused b d Hd') as [Hq1 Hq2]. rewrite Eu3, Eu, Erec3, Erec.
      split; [done|]. split; [|done]. simpl in Hd2. intros E. rewrite E in Hq2. congruence.
    - intros j. rewrite Eu3, Em3, Eu, Em, Erec3, Erec. apply Hfree.
    - apply Forall2_same_length_lookup. split; [by eapply Forall2_length|].
      intros k b e Hkb Hke. unfold entry. rewrite En3, lookup_delete_ne.
      + by eapply Forall2_lookup_lr in HF1'.
      + intros <-. apply Hni0. by eapply list_elem_of_lookup_2. }
  intros [self' i'] (-> & Hrep & Hconf & Ha'). split; [|by split].
  unfold same_config in *. naive_solver congruence.
Qed.

(** *** A copy of the name that fails *)

Lemma node_idx_blank a self b : node_idx (blank a self) b = node_idx self b.
Proof.
  unfold node_idx, blank. cbn. destruct (decide (a = b)) as [<-|]; [|by rewrite lookup_alter_ne].
  rewrite lookup_alter_eq. by destruct (nodes self !! a).
Qed.

Lemma node_free_blank a self b : hev_mapped_dns_node_free (blank a self) b = blank a (hev_mapped_dns_node_free self b).
Proof.
  unfold hev_mapped_dns_node_free, blank, set_nodes, set_tree, set_list. cbn. f_equal. apply map_eq. intros c.
  destruct (decide (b = c)) as [->|Hb]; (destruct (decide (a = c)) as [->|Ha]);
    repeat first [rewrite lookup_delete_eq|rewrite lookup_alter_eq|rewrite lookup_delete_ne by done|rewrite lookup_alter_ne by done]; done.
Qed.

Lemma set_idx_blank a self b v : set_idx (blank a self) b v = blank a <$> set_idx self b v.
Proof.
  unfold set_idx, blank. cbn. destruct (decide (a = b)) as [<-|Hb].
  - rewrite lookup_alter_eq. destruct (nodes self !! a) as [n|]; [|done]. cbn. unfold set_nodes. cbn. do 2 f_equal.
    by rewrite insert_alter_eq, alter_insert_eq.
  - rewrite lookup_alter_ne by done. destruct (nodes self !! b) as [n|]; [|done]. cbn. unfold set_nodes. cbn. do 2 f_equal.
    by rewrite alter_insert_ne by done.
Qed.

Lemma evict_blank fuel a self : evict fuel (blank a self) = (fun '(s, i) => (blank a s, i)) <$> evict fuel self.
Proof.
  unfold evict. rewrite node_idx_blank. cbn [blank dlist dtree set_nodes]. destruct (node_idx self _) as [i|]; [|done]. cbn.
  destruct (hev_rbtree_erase _ _ _) as [t|]; [|done]. cbn. destruct (hev_list_del _ _) as [l|]; [|done]. cbn.
  by rewrite <- node_free_blank.
Qed.

(** No step of the entry reads a name. *)
Lemma enter_blank fuel a self i node parent new :
  enter fuel (blank a self) i node parent new = (fun '(s, i) => (blank a s, i)) <$> enter fuel self i node parent new.
Proof.
  unfold enter. assert (attach fuel (blank a self) node parent new = blank a <$> attach fuel self node parent new) as ->.
  { unfold attach. cbn [blank dlist dtree set_nodes]. destruct (hev_rbtree_node_link _ _ _ _) as [t|]; [|done]. cbn.
    destruct (hev_rbtree_insert_color _ _ _) as [t'|]; [|done]. cbn. by destruct (hev_list_add_tail _ _). }
  destruct (attach fuel self node parent new) as [self2|]; [|done]. cbn.
  assert ((if Z.ltb (use self2) (max self2) then Some (set_use (use self2 + 1) (blank a self2), i) else evict fuel (blank a self2)) =
    (fun '(s, i) => (blank a s, i)) <$> (if Z.ltb (use self2) (max self2) then Some (set_use (use self2 + 1) self2, i) else evict fuel self2)) as ->.
  { destruct (Z.ltb _ _); [done|apply evict_blank]. }
  destruct (if Z.ltb _ _ then _ else _) as [[self3 j]|]; [|done]. cbn. unfold wr_record. cbn.
  destruct (Z.ltb j 0); [done|]. destruct (Z.ltb j _); [|done]. cbn.
  change (set_records ?r (blank a self3)) with (blank a (set_records r self3)). rewrite set_idx_blank.
  destruct (set_idx _ node j) as [self5|]; [|done]. cbn. rewrite node_idx_blank. by destruct (node_idx self5 node).
Qed.

Lemma new_node_blank self a nm : new_node self a None = blank a (new_node self a (Some nm)).
Proof.
  unfold new_node, blank, set_nodes, set_tree, set_list. cbn. f_equal. by rewrite alter_insert_eq.
Qed.

(** The entry of an absent name. *)
Lemma enter_ok fuel self addrs l nm ls rs parent slot self1 a :
  dns_core self addrs -> dns_idx self (use self) -> use self = Z.of_nat (length addrs) ->
  Forall2 (entry self) addrs l -> 1 <= max self -> (S (Z.to_nat (max self)) < fuel)%nat ->
  gap (dtree self) ls rs parent slot -> ls ++ rs ≡ₚ addrs -> sorted (node_key self) (ls ++ rs) ->
  above (node_key self) nm ls -> below (node_key self) nm rs -> made self nm self1 a ->
  wp (enter fuel self1 (use self) a parent slot) (entered self l nm a).
Proof.
  intros Hc Hi Hu HF Hmax Hf Hg Hp Hs Ha Hb Hmade.
  pose proof (find_absent _ _ _ _ _ _ Hc HF Hp Ha Hb) as Habs. pose proof Hi as [_ Hle _ _].
  apply wp_bind. eapply wp_mono; [apply (alloc_attached fuel self addrs l nm ls rs); try done; lia|].
  intros self2 Hat. rewrite (at_use _ _ _ _ _ _ Hat), (proj1 (at_conf _ _ _ _ _ _ Hat)).
  destruct (Z.ltb_spec (use self) (max self)) as [Hlt|Hge].
  - apply wp_bind, wp_ret. apply (find_grow_ok self self2 addrs l nm a Hat Hi Hu Hlt Habs).
  - apply (find_evict_ok fuel self self2 addrs l nm a Hat Hc Hi Hu Hmax Hf Hge Habs).
Qed.

(** The insertion of an absent name, with memory, without any, or with none for
    the copy of the name. *)
Lemma find_new_ok fuel self addrs l nm ls rs parent slot :
  dns_core self addrs -> dns_idx self (use self) -> use self = Z.of_nat (length addrs) ->
  Forall2 (entry self) addrs l -> 1 <= max self -> (S (Z.to_nat (max self)) < fuel)%nat ->
  gap (dtree self) ls rs parent slot -> ls ++ rs ≡ₚ addrs -> sorted (node_key self) (ls ++ rs) ->
  above (node_key self) nm ls -> below (node_key self) nm rs ->
  wp (let '(self1, node) := hev_mapped_dns_node_alloc self nm in
      if Z.eqb node 0 then Some (self1, -1) else enter fuel self1 (use self) node parent slot)
    (fun out => find_post self l nm out \/ unnamed_post self l nm out).
Proof.
  intros Hc Hi Hu HF Hmax Hf Hg Hp Hs Ha Hb. pose proof (find_absent _ _ _ _ _ _ Hc HF Hp Ha Hb) as Habs.
  unfold hev_mapped_dns_node_alloc. destruct (hev_malloc0 _) as [a|] eqn:E.
  2: { apply wp_ret. left. split; [done|]. by right. }
  destruct (hev_malloc0_ok _ _ E) as [Hpos _]. destruct (Z.eqb_spec a 0); [lia|].
  assert (Hen : wp (enter fuel (new_node self a (Some nm)) (use self) a parent slot) (entered self l nm a)).
  { apply (enter_ok fuel self addrs l nm ls rs); done. }
  destruct (strdup _ nm) as [nm'|] eqn:Ed.
  - rewrite (strdup_ok _ _ _ Ed). eapply wp_mono; [exact Hen|]. intros [self' i] (Hcf & Hr & -> & _).
    left. split; [done|]. by left.
  - rewrite (new_node_blank self a nm), enter_blank. destruct Hen as ([self2 i] & -> & Hcf & Hr & -> & Hn).
    apply wp_ret. right. split; [done|]. split; [done|]. exists a, self2. by split_and!.
Qed.

(** Every number below [use] belongs to a node: there are as many of either. *)
Lemma idx_onto self addrs l i a :
  dns_core self addrs -> dns_idx self (use self) -> use self = Z.of_nat (length addrs) ->
  Forall2 (entry self) addrs l -> 0 <= i < use self ->
  records self !! Z.to_nat i = Some a ->
  exists d, nodes self !! a = Some d /\ idx d = i.
Proof.
  intros Hc [Hlen Hle Hused Hfree] Hu HF Hi Ha.
  set (ids := map (fun e : list Z * Z => Z.to_nat e.2) l).
  assert (NoDup ids) as Hnd.
  { apply NoDup_alt. unfold ids. intros j k n Hj Hk.
    apply list_lookup_fmap_Some in Hj as (ej & -> & Hj).
    apply list_lookup_fmap_Some in Hk as (ek & Hek & Hk).
    pose proof (Forall2_length _ _ _ HF) as Hll.
    destruct (lookup_lt_is_Some_2 addrs j) as [bj Hbj]; [rewrite Hll; by eapply lookup_lt_Some|].
    destruct (lookup_lt_is_Some_2 addrs k) as [bk Hbk]; [rewrite Hll; by eapply lookup_lt_Some|].
    pose proof (Forall2_lookup_lr _ _ _ _ _ _ HF Hbj Hj) as Hej'.
    pose proof (Forall2_lookup_lr _ _ _ _ _ _ HF Hbk Hk) as Hek'.
    destruct (Hused _ _ Hej') as [_ Hrj]. destruct (Hused _ _ Hek') as [_ Hrk].
    simpl in Hrj, Hrk. rewrite Hek in Hrj. rewrite Hrj in Hrk. injection Hrk as <-.
    eapply NoDup_lookup; [by eapply core_uniq|done..]. }
  assert (Z.to_nat i ∈ ids) as Hin.
  { apply (NoDup_incl_onto ids (length addrs)); [done| | |lia].
    - unfold ids. rewrite length_map. by symmetry; eapply Forall2_length.
    - intros n Hn. unfold ids in Hn. apply list_elem_of_fmap in Hn as (e & -> & Hn).
      apply list_elem_of_lookup in Hn as [k Hk].
      destruct (lookup_lt_is_Some_2 addrs k) as [b Hb].
      { rewrite (Forall2_length _ _ _ HF). by eapply lookup_lt_Some. }
      pose proof (Forall2_lookup_lr _ _ _ _ _ _ HF Hb Hk) as He.
      destruct (Hused _ _ He) as [He1 _]. simpl in He1. lia. }
  unfold ids in Hin. apply list_elem_of_fmap in Hin as (e & Hie & Hin).
  apply list_elem_of_lookup in Hin as [k Hk].
  destruct (lookup_lt_is_Some_2 addrs k) as [b Hb].
  { rewrite (Forall2_length _ _ _ HF). by eapply lookup_lt_Some. }
  pose proof (Forall2_lookup_lr _ _ _ _ _ _ HF Hb Hk) as He.
  destruct (Hused _ _ He) as [He1 He2]. simpl in He1, He2. rewrite <- Hie, Ha in He2.
  injection He2 as ->. exists (mkDNSNode (Some e.1) e.2). split; [done|]. simpl. lia.
Qed.

(** ** The operations refine the abstract ones *)

Lemma find_cases fuel self l nm :
  dns_rep self l -> 1 <= max self -> (S (Z.to_nat (max self)) < fuel)%nat ->
  wp (hev_mapped_dns_find fuel self nm) (fun out => find_post self l nm out \/ unnamed_post self l nm out).
Proof.
  intros (addrs & Hc & Hi & Hu & HF) Hmax Hf.
  pose proof Hc as [_ (xs & Hr & Hp & Hs) Hn _].
  unfold hev_mapped_dns_find. apply wp_bind. eapply wp_mono.
  { apply (descend_ok (node_key self) fuel (dtree self) nm xs Hr Hs).
    rewrite (Permutation_length Hp). destruct Hi as [_ Hle _ _]. lia. }
  intros [[node parent] slot] Hpost. unfold descend_post in Hpost.
  destruct (Z.eqb_spec node 0) as [->|Hne]; cbn [negb].
  - destruct Hpost as (ls & rs & -> & Hg & Ha & Hb). by eapply find_new_ok.
  - destruct Hpost as [Hin Hk].
    destruct (rep_touch self addrs l node (has_name nm)) as (e & l' & Hrem & He & Hw); try done.
    + by rewrite <- Hp.
    + intros e He. apply bool_decide_eq_true. unfold node_key in Hk. rewrite He in Hk.
      by injection Hk.
    + intros b e Hb Hbn He. apply bool_decide_eq_false. intros Heq. apply Hbn.
      eapply (sorted_inj (node_key self) xs); [done|by rewrite Hp|done| |done].
      unfold node_key. by rewrite He, <- Heq.
    + apply wp_bind. eapply wp_mono; [exact Hw|]. intros self' [Hrep (lst & ->)].
      unfold node_idx. simpl. rewrite He. simpl. apply wp_ret. left. split; [done|]. left.
      unfold lru_find. rewrite Hrem. done.
Qed.

Lemma find_ok `{!StrdupWorks} fuel self l nm :
  dns_rep self l -> 1 <= max self -> (S (Z.to_nat (max self)) < fuel)%nat ->
  wp (hev_mapped_dns_find fuel self nm) (find_post self l nm).
Proof.
  intros Hr Hm Hf. eapply wp_mono; [by apply (find_cases fuel self l nm)|]. intros [self' i] [?|(_ & Ed & _)]; [done|].
  by rewrite strdup_works in Ed.
Qed.

Definition lookup_post (self : HevMappedDNS) (l : lru) (ip : Z)
    (out : HevMappedDNS * option (list Z)) : Prop :=
  let i := Z.land ip (Z.lnot (mask self)) in
  same_config self out.1 /\ dns_rep out.1 (lru_lookup l i).1 /\ out.2 = (lru_lookup l i).2.

Lemma lookup_ok self l ip :
  dns_rep self l -> max self <= Z.lnot (mask self) ->
  wp (hev_mapped_dns_lookup self ip) (lookup_post self l ip).
Proof.
  intros (addrs & Hc & Hi & Hu & HF) Hmask. pose proof Hc as [_ _ Hn Hpos].
  pose proof Hi as [Hlen Hle Hused Hfree].
  unfold hev_mapped_dns_lookup, lookup_post. set (i := Z.land ip (Z.lnot (mask self))).
  assert (0 <= i) as Hi0 by (apply Z.land_nonneg; lia).
  assert (forall j, ~ (0 <= j < use self) -> lru_remove (has_idx j) l = None) as Hout.
  { intros j Hj. apply lru_remove_None. eapply Forall2_entry_out; [done|].
    intros b e _ He. apply bool_decide_eq_false. intros <-. destruct (Hused _ _ He). done. }
  assert (dns_rep self l) as Hrep by (by exists addrs).
  destruct (Z.leb_spec (max self) i).
  { apply wp_ret. unfold lru_lookup. rewrite Hout by lia. done. }
  unfold rd_record. destruct (Z.ltb_spec i 0); [lia|].
  destruct (Z.ltb_spec i (use self)) as [Hlt|Hge].
  - destruct (lookup_lt_is_Some_2 (records self) (Z.to_nat i)) as [a Ha]; [lia|].
    assert (exists d, nodes self !! a = Some d /\ idx d = i) as (d & Hd & Hdi).
    { apply (idx_onto self addrs l i a); try done. }
    apply wp_bind. eapply wp_prim; [exact Ha|].
    assert (a ∈ addrs) as Hin by (apply Hn; eauto).
    rewrite Forall_forall in Hpos. specialize (Hpos a Hin).
    destruct (Z.eqb_spec a 0); [lia|].
    destruct (rep_touch self addrs l a (has_idx i)) as (e & l' & Hrem & He & Hw); try done.
    + intros e He. apply bool_decide_eq_true. unfold entry in He. rewrite Hd in He.
      by injection He as ->.
    + intros b e Hb Hbn He. apply bool_decide_eq_false. intros Heq. apply Hbn.
      destruct (Hused _ _ He) as [_ Hr]. simpl in Hr. rewrite Heq in Hr. congruence.
    + apply wp_bind. eapply wp_mono; [exact Hw|]. intros self' [Hrep' (lst & ->)].
      simpl. rewrite He. simpl. apply wp_ret.
      unfold lru_lookup. rewrite Hrem. done.
  - apply wp_bind. eapply wp_prim; [apply Hfree; lia|]. simpl. apply wp_ret.
    unfold lru_lookup. rewrite Hout by lia. done.
Qed.

(** A fresh cache is empty. *)
Lemma new_ok net_ mask_ max_ self :
  0 <= max_ -> hev_mapped_dns_new net_ mask_ max_ = Some self ->
  dns_rep self [] /\ max self = max_ /\ net self = net_ /\ mask self = mask_ /\
  max self <= Z.lnot (mask self).
Proof.
  intros Hmax. unfold hev_mapped_dns_new, hev_mapped_dns_construct.
  destruct (Z.ltb_spec (Z.lnot mask_) max_); [done|]. simpl. intros [= <-]. simpl.
  split_and!; try done. exists []. split; [|split; [|by split]].
  - constructor; simpl.
    + apply dll_empty.
    + exists []. split; [apply rb_rep_empty|]. done.
    + intros a. rewrite lookup_empty. split; [set_solver|by intros [? ?]].
    + constructor.
  - constructor; simpl.
    + rewrite length_replicate. lia.
    + lia.
    + intros a d. by rewrite lookup_empty.
    + intros i Hi. apply lookup_replicate. split; [done|lia].
Qed.

(** ** Destruction *)

Lemma destruct_loop_ok fuel self addrs p :
  seg (lcells (dlist self)) p (map node_list addrs) 0 -> NoDup addrs ->
  (forall a, a ∈ addrs <-> is_Some (nodes self !! a)) ->
  (length addrs < fuel)%nat ->
  wp (destruct_loop fuel self (hd_or 0 (map node_list addrs)))
    (fun self' => nodes self' = ∅ /\ same_config self self').
Proof.
  revert self addrs p. induction fuel as [|fuel IH]; intros self addrs p Hs Hnd Hn Hf; [lia|].
  destruct addrs as [|a addrs]; simpl.
  - apply wp_ret. split; [|done]. apply map_empty. intros a.
    apply eq_None_not_Some. rewrite <- Hn. set_solver.
  - destruct Hs as (Hne & Hc & Hs). apply NoDup_cons in Hnd as [Hni Hnd].
    change (hd_or 0 (node_list a :: map node_list addrs)) with (node_list a).
    rewrite (proj2 (Z.eqb_neq _ _) Hne). unfold hev_list_node_next. rewrite Hc. simpl.
    rewrite container_of_node_list.
    destruct (proj1 (Hn a)) as [d Hd]; [set_solver|]. rewrite Hd. simpl.
    eapply wp_mono; [apply (IH _ addrs (node_list a))|].
    + simpl. eapply seg_frame; [|exact Hs]. intros x Hx. rewrite lookup_delete_ne; [done|].
      intros <-. by rewrite node_list_in in Hx.
    + done.
    + intros b. simpl. destruct (decide (a = b)) as [<-|Hab].
      * rewrite lookup_delete_eq. split; [done|by intros [? ?]].
      * rewrite lookup_delete_ne by done. rewrite <- Hn, elem_of_cons. naive_solver.
    + simpl in Hf. lia.
    + intros self' [He Hconf]. by split.
Qed.

Lemma destruct_ok fuel self l :
  dns_rep self l -> (length l < fuel)%nat ->
  wp (hev_mapped_dns_destruct fuel self)
    (fun self' => nodes self' = ∅ /\ same_config self self').
Proof.
  intros (addrs & Hc & Hi & Hu & HF) Hf. pose proof (core_uniq _ _ Hc) as Hnd.
  destruct Hc as [(Hh & _ & Hs & _) _ Hn _].
  unfold hev_mapped_dns_destruct, hev_list_first. rewrite Hh.
  eapply destruct_loop_ok; [exact Hs|done|done|]. by rewrite (Forall2_length _ _ _ HF).
Qed.
End rep.

(** ** Retention: a number stays with its name while fewer other names than the
    capacity are used. *)

Definition distinct_names (l : lru) : Prop := NoDup (map fst l).

Lemma lru_find_in cap l nm i l1 l2 :
  l = l1 ++ (nm, i) :: l2 -> distinct_names l -> lru_find cap l nm = (l1 ++ l2 ++ [(nm, i)], i).
Proof.
  intros -> Hd. unfold lru_find. rewrite (lru_remove_at _ l1 (nm, i) l2).
  - by rewrite <- app_assoc.
  - apply Forall_forall. intros e He. apply bool_decide_eq_false. intros <-.
    unfold distinct_names in Hd. rewrite map_app in Hd. simpl in Hd.
    apply NoDup_app in Hd as (_ & Hd & _). apply (Hd e.1); [|set_solver].
    apply list_elem_of_fmap. by exists e.
  - by apply bool_decide_eq_true.
Qed.

(** Adding a name that is not there, to a list with room or in the place of its
    first entry. *)
Lemma lru_add_keeps cap nm i l1 l2 x S :
  distinct_names (l1 ++ (nm, i) :: l2) -> x <> nm ->
  (forall y, y ∈ map fst l2 -> y ∈ S) -> x ∈ S -> NoDup S -> Z.of_nat (length S) < cap ->
  lru_remove (has_name x) (l1 ++ (nm, i) :: l2) = None ->
  exists l1' l2', (lru_find cap (l1 ++ (nm, i) :: l2) x).1 = l1' ++ (nm, i) :: l2' /\
    distinct_names (lru_find cap (l1 ++ (nm, i) :: l2) x).1 /\ (forall y, y ∈ map fst l2' -> y ∈ S).
Proof.
  intros Hd Hx HS HxS HndS Hcap Hrem. unfold lru_find. rewrite Hrem.
  assert (x ∉ map fst (l1 ++ (nm, i) :: l2)) as Hnx.
  { intros Hin. apply list_elem_of_fmap in Hin as (e & Hxe & Hin).
    apply list_elem_of_split in Hin as (k1 & k2 & Hk).
    assert (is_Some (lru_remove (has_name x) (l1 ++ (nm, i) :: l2))) as [? Hs]; [|congruence].
    rewrite Hk. clear -Hxe. induction k1 as [|y k1 IH]; simpl.
    - unfold has_name at 1. rewrite bool_decide_eq_true_2 by done. eauto.
    - destruct (has_name x y); [eauto|]. destruct IH as [[e' l'] ->]. simpl. eauto. }
  assert (distinct_names ((l1 ++ (nm, i) :: l2) ++ [(x, 0)])) as Hd'.
  { unfold distinct_names in *. rewrite map_app. apply NoDup_app. split; [done|].
    split; [set_solver|]. simpl. apply NoDup_singleton. }
  destruct (Z.ltb_spec (Z.of_nat (length (l1 ++ (nm, i) :: l2))) cap) as [Hlt|Hge]; simpl.
  + exists l1, (l2 ++ [(x, Z.of_nat (length (l1 ++ (nm, i) :: l2)))]).
    split; [by rewrite <- app_assoc|]. split.
    * revert Hd'. unfold distinct_names. by rewrite !(map_app fst (l1 ++ _)).
    * intros y. rewrite map_app, elem_of_app. simpl. rewrite list_elem_of_singleton.
      intros [Hy|Hy]; [auto|by subst].
  + destruct l1 as [|e l1]; simpl.
    * exfalso. simpl in Hge.
      assert (x :: map fst l2 ⊆+ S) as Hsub.
      { apply NoDup_submseteq.
        - apply NoDup_cons. split; [set_solver|]. unfold distinct_names in Hd. simpl in Hd.
          by apply NoDup_cons in Hd as [_ Hd].
        - intros y. rewrite elem_of_cons. intros [->|Hy]; auto. }
      apply submseteq_length in Hsub. simpl in Hsub. rewrite length_map in Hsub. lia.
    * exists l1, (l2 ++ [(x, e.2)]). split; [by rewrite <- app_assoc|]. split.
      -- revert Hd'. unfold distinct_names. simpl. rewrite !(map_app fst (l1 ++ _)). simpl.
         by intros [_ ?]%NoDup_cons.
      -- intros y. rewrite map_app, elem_of_app. simpl. rewrite list_elem_of_singleton.
         intros [Hy|Hy]; [auto|by subst].
Qed.

(** What a use of [x] does to the entries after that of [nm]. *)
Lemma lru_find_keeps cap l nm i l1 l2 x S :
  l = l1 ++ (nm, i) :: l2 -> distinct_names l -> x <> nm ->
  (forall y, y ∈ map fst l2 -> y ∈ S) -> x ∈ S ->
  NoDup S -> Z.of_nat (length S) < cap ->
  exists l1' l2', (lru_find cap l x).1 = l1' ++ (nm, i) :: l2' /\
    distinct_names (lru_find cap l x).1 /\ (forall y, y ∈ map fst l2' -> y ∈ S).
Proof.
  intros -> Hd Hx HS HxS HndS Hcap. unfold lru_find.
  destruct (lru_remove (has_name x) (l1 ++ (nm, i) :: l2)) as [[e l']|] eqn:Hrem.
  - apply lru_remove_Some in Hrem as (k1 & k2 & Heq & -> & He).
    apply bool_decide_eq_true in He. simpl.
    assert (distinct_names ((k1 ++ k2) ++ [e])) as Hd'.
    { unfold distinct_names in *. rewrite Heq in Hd. rewrite !map_app in *. simpl in *.
      assert ((map fst k1 ++ map fst k2) ++ [e.1] ≡ₚ map fst k1 ++ e.1 :: map fst k2) as ->
        by solve_Permutation. done. }
    apply app_eq_inv in Heq as [(m & -> & Hm)|(m & -> & Hm)].
    + destruct m as [|e' m]; simpl in Hm; [injection Hm as -> ->; simpl in He; congruence|].
      injection Hm as <- ->. exists (k1 ++ m), (l2 ++ [e]). split; [by rewrite <- !app_assoc|].
      split; [done|]. intros y. rewrite map_app. simpl.
      rewrite elem_of_app, list_elem_of_singleton. intros [Hy|Hy]; [auto|by subst].
    + destruct m as [|e' m]; simpl in Hm; [injection Hm as <- <-; simpl in He; congruence|].
      injection Hm as <- ->. exists l1, (m ++ k2 ++ [e]). rewrite <- !app_assoc in *.
      split; [done|]. split; [done|]. intros y. rewrite !map_app. simpl.
      rewrite map_app in HS. simpl in HS. rewrite !elem_of_app, list_elem_of_singleton.
      intros [Hy|[Hy|Hy]]; [apply HS; set_solver|apply HS; set_solver|by subst].
  - destruct (lru_add_keeps cap nm i l1 l2 x S Hd Hx HS HxS HndS Hcap Hrem) as (l1' & l2' & H1).
    exists l1', l2'. unfold lru_find in H1. by rewrite Hrem in H1.
Qed.

Lemma rep_distinct self l : dns_rep self l -> distinct_names l.
Proof.
  intros (addrs & Hc & Hi & Hu & HF). pose proof (core_uniq _ _ Hc) as Hnd.
  destruct Hc as [_ (xs & _ & Hp & Hs) _ _]. unfold distinct_names.
  apply NoDup_alt. intros j k nm Hj Hk.
  apply list_lookup_fmap_Some in Hj as (ej & -> & Hj).
  apply list_lookup_fmap_Some in Hk as (ek & Hek & Hk).
  pose proof (Forall2_length _ _ _ HF) as Hll.
  destruct (lookup_lt_is_Some_2 addrs j) as [a Ha]; [rewrite Hll; by eapply lookup_lt_Some|].
  destruct (lookup_lt_is_Some_2 addrs k) as [b Hb]; [rewrite Hll; by eapply lookup_lt_Some|].
  pose proof (Forall2_lookup_lr _ _ _ _ _ _ HF Ha Hj) as Hea.
  pose proof (Forall2_lookup_lr _ _ _ _ _ _ HF Hb Hk) as Heb.
  assert (a = b) as <-; [|by eapply NoDup_lookup].
  apply (sorted_inj (node_key self) xs a b ej.1); [done| | | |].
  - rewrite Hp. by eapply list_elem_of_lookup_2.
  - rewrite Hp. by eapply list_elem_of_lookup_2.
  - unfold node_key. by rewrite Hea.
  - unfold node_key. rewrite Heb. simpl. by rewrite <- Hek.
Qed.

Lemma lru_lookup_in l nm i l1 l2 :
  l = l1 ++ (nm, i) :: l2 -> NoDup (map snd l) -> (lru_lookup l i).2 = Some nm.
Proof.
  intros -> Hd. unfold lru_lookup. rewrite (lru_remove_at _ l1 (nm, i) l2); [done| |].
  - apply Forall_forall. intros e He. apply bool_decide_eq_false. intros <-.
    rewrite map_app in Hd. simpl in Hd. apply NoDup_app in Hd as (_ & Hd & _).
    apply (Hd e.2); [|set_solver]. apply list_elem_of_fmap. by exists e.
  - by apply bool_decide_eq_true.
Qed.

Lemma rep_distinct_idx self l : dns_rep self l -> NoDup (map snd l).
Proof.
  intros (addrs & Hc & [Hlen Hle Hused Hfree] & Hu & HF). pose proof (core_uniq _ _ Hc) as Hnd.
  apply NoDup_alt. intros j k n Hj Hk.
  apply list_lookup_fmap_Some in Hj as (ej & -> & Hj).
  apply list_lookup_fmap_Some in Hk as (ek & Hek & Hk).
  pose proof (Forall2_length _ _ _ HF) as Hll.
  destruct (lookup_lt_is_Some_2 addrs j) as [a Ha]; [rewrite Hll; by eapply lookup_lt_Some|].
  destruct (lookup_lt_is_Some_2 addrs k) as [b Hb]; [rewrite Hll; by eapply lookup_lt_Some|].
  pose proof (Forall2_lookup_lr _ _ _ _ _ _ HF Ha Hj) as Hea.
  pose proof (Forall2_lookup_lr _ _ _ _ _ _ HF Hb Hk) as Heb.
  destruct (Hused _ _ Hea) as [_ H1]. destruct (Hused _ _ Heb) as [_ H2]. simpl in H1, H2.
  rewrite <- Hek, H1 in H2. injection H2 as <-. by eapply NoDup_lookup.
Qed.

Section retention.
Context `{Allocator} `{!StrdupWorks}.

(** A client asking for several names in turn. *)
Fixpoint finds (fuel : nat) (self : HevMappedDNS) (xs : list (list Z)) : option HevMappedDNS :=
  match xs with
  | [] => Some self
  | x :: xs => '(self, _) ← hev_mapped_dns_find fuel self x; finds fuel self xs
  end.

Definition kept (self : HevMappedDNS) (nm : list Z) (i : Z) (S : list (list Z)) : Prop :=
  exists l1 l2, dns_rep self (l1 ++ (nm, i) :: l2) /\ (forall y, y ∈ map fst l2 -> y ∈ S).

Lemma find_first fuel self l nm :
  dns_rep self l -> 1 <= max self -> (S (Z.to_nat (max self)) < fuel)%nat ->
  wp (hev_mapped_dns_find fuel self nm) (fun '(self', i) =>
    same_config self self' /\ (i = -1 /\ self' = self \/ kept self' nm i [])).
Proof.
  intros Hrep Hmax Hf. eapply wp_mono; [by apply (find_ok fuel self l nm)|].
  intros [self' i] [Hconf [[Hrep' ->]|(-> & -> & _)]]; (split; [done|]); [right|by left].
  revert Hrep'. unfold lru_find.
  destruct (lru_remove (has_name nm) l) as [[e l']|] eqn:Hrem; simpl.
  - apply lru_remove_Some in Hrem as (l1 & l2 & -> & -> & He).
    apply bool_decide_eq_true in He. intros Hrep'. exists (l1 ++ l2), [].
    split; [|set_solver]. destruct e as [n0 i0]. simpl in *. by subst.
  - destruct (Z.ltb_spec (Z.of_nat (length l)) (max self)); simpl.
    + intros Hrep'. exists l, []. split; [done|set_solver].
    + destruct l as [|e l]; simpl; [simpl in *; lia|]. intros Hrep'. exists l, [].
      split; [done|set_solver].
Qed.

Lemma find_keeps fuel self nm i S x :
  kept self nm i S -> 1 <= max self -> (Datatypes.S (Z.to_nat (max self)) < fuel)%nat ->
  (x = nm \/ x ∈ S) -> NoDup S -> Z.of_nat (length S) < max self ->
  wp (hev_mapped_dns_find fuel self x) (fun '(self', _) =>
    same_config self self' /\ kept self' nm i S).
Proof.
  intros (l1 & l2 & Hrep & HS) Hmax Hf Hx Hnd Hcap.
  pose proof (rep_distinct _ _ Hrep) as Hd.
  eapply wp_mono; [by apply (find_ok fuel self (l1 ++ (nm, i) :: l2) x)|].
  intros [self' j] [Hconf [[Hrep' ->]|(-> & _)]]; (split; [done|]); [|by exists l1, l2].
  destruct (decide (x = nm)) as [->|Hne].
  - rewrite (lru_find_in (max self) (l1 ++ (nm, i) :: l2) nm i l1 l2) in Hrep' by done. simpl in Hrep'.
    exists (l1 ++ l2), []. rewrite <- app_assoc. split; [done|set_solver].
  - destruct Hx as [?|Hx]; [done|].
    destruct (lru_find_keeps (max self) (l1 ++ (nm, i) :: l2) nm i l1 l2 x S eq_refl Hd Hne HS Hx Hnd Hcap)
      as (l1' & l2' & Heq & _ & HS'). rewrite Heq in Hrep'. by exists l1', l2'.
Qed.

Lemma finds_keep fuel self nm i S xs :
  kept self nm i S -> 1 <= max self -> (Datatypes.S (Z.to_nat (max self)) < fuel)%nat ->
  Forall (fun x => x = nm \/ x ∈ S) xs -> NoDup S -> Z.of_nat (length S) < max self ->
  wp (finds fuel self xs) (fun self' => same_config self self' /\ kept self' nm i S).
Proof.
  revert self. induction xs as [|x xs IH]; intros self Hk Hmax Hf Hxs Hnd Hcap; simpl.
  - by apply wp_ret.
  - inversion Hxs as [|? ? Hx Hxs']; subst. apply wp_bind.
    eapply wp_mono; [by apply (find_keeps fuel self nm i S x)|].
    intros [self' j] [(Em & En & Ek) Hk'].
    eapply wp_mono; [apply (IH self'); rewrite ?Em; done|].
    intros self2 [(Em2 & En2 & Ek2) Hk2]. split; [|done]. split_and!; congruence.
Qed.
Lemma finds_total fuel self l xs :
  dns_rep self l -> 1 <= max self -> (S (Z.to_nat (max self)) < fuel)%nat ->
  wp (finds fuel self xs) (fun self' => same_config self self' /\ exists l', dns_rep self' l').
Proof.
  revert self l. induction xs as [|x xs IH]; intros self l Hrep Hmax Hf; simpl.
  - apply wp_ret. split; [done|by exists l].
  - apply wp_bind. eapply wp_mono; [by apply (find_ok fuel self l x)|].
    intros [self' j] [(Em & En & Ek) Hcase].
    assert (exists l', dns_rep self' l') as [l' Hrep']
      by (destruct Hcase as [[? _]|(-> & _)]; eauto).
    eapply wp_mono; [apply (IH self' l'); rewrite ?Em; done|].
    intros self2 [(Em2 & En2 & Ek2) Hr2]. split; [|done]. split_and!; congruence.
Qed.

Lemma rep_idx_range self l1 nm i l2 :
  dns_rep self (l1 ++ (nm, i) :: l2) -> 0 <= i < max self.
Proof.
  intros (addrs & Hc & [Hlen Hle Hused Hfree] & Hu & HF).
  apply Forall2_app_inv_r in HF as (a1 & a2 & _ & HF & _).
  apply Forall2_cons_inv_r in HF as (a & a3 & He & _ & _).
  destruct (Hused _ _ He) as [Hi _]. simpl in Hi. lia.
Qed.
End retention.

(** An address splits into its prefix and its number when the mask is one. *)
Lemma address_number n m i k :
  0 <= k -> Z.lnot m = Z.ones k -> Z.land n (Z.lnot m) = 0 -> 0 <= i <= Z.ones k ->
  Z.land (Z.lor n i) (Z.lnot m) = i.
Proof.
  intros Hk -> Hn Hi. rewrite Z.land_lor_distr_l, Hn, Z.lor_0_l.
  rewrite Z.land_ones by done. apply Z.mod_small. rewrite Z.ones_equiv in Hi. lia.
Qed.

(** A name that is found, then kept by fewer than the capacity of other names,
    is what its address leads back to. *)
Lemma find_finds_lookup `{Allocator} `{!StrdupWorks} fuel self l nm xs others k :
  dns_rep self l -> 1 <= max self -> (S (Z.to_nat (max self)) < fuel)%nat ->
  0 <= k -> Z.lnot (mask self) = Z.ones k -> max self <= Z.ones k ->
  Z.land (net self) (Z.lnot (mask self)) = 0 ->
  Forall (fun x => x = nm \/ x ∈ others) xs -> NoDup others ->
  Z.of_nat (length others) < max self ->
  wp ('(self, i) ← hev_mapped_dns_find fuel self nm;
      self ← finds fuel self xs; Some (self, i))
    (fun '(self2, i) => same_config self self2 /\
       wp (hev_mapped_dns_lookup self2 (Z.lor (net self2) i))
         (fun '(_, r) => i = -1 \/ (0 <= i < max self /\ r = Some nm))).
Proof.
  intros Hrep Hmax Hf Hk Hmask Hle Hnet Hxs Hnd Hcap.
  apply wp_bind. eapply wp_mono; [by apply (find_first fuel self l nm)|].
  intros [self1 i] [(Em & En & Ek) [[-> ->]|Hkept]].
  { (* the allocator failed: what follows runs all the same *)
    apply wp_bind. eapply wp_mono; [by apply (finds_total fuel self l xs)|].
    intros self2 [(Em2 & En2 & Ek2) [l2 Hrep2]]. apply wp_ret. split; [done|].
    eapply wp_mono; [apply (lookup_ok self2 l2); [done|rewrite Em2, Ek2; lia]|].
    intros [self3 r] _. by left. }
  assert (kept self1 nm i others) as Hkept'.
  { destruct Hkept as (l1 & l2 & Hr1 & Hl2). exists l1, l2. split; [done|].
    intros y Hy. apply Hl2 in Hy. set_solver. }
  apply wp_bind. eapply wp_mono.
  { apply (finds_keep fuel self1 nm i others xs); rewrite ?Em; done. }
  intros self2 [(Em2 & En2 & Ek2) (l1 & l2 & Hrep2 & _)]. apply wp_ret.
  split; [split_and!; congruence|].
  eapply wp_mono; [apply (lookup_ok self2 _ _ Hrep2); rewrite Em2, Ek2, Em, Ek; lia|].
  intros [self3 r] (_ & _ & Hr). right. simpl in Hr.
  destruct (rep_idx_range _ _ _ _ _ Hrep2) as [Hi0 Hi1].
  rewrite Em2, Em in Hi1. split; [lia|]. subst r.
  rewrite (address_number (net self2) (mask self2) i k); try done.
  - eapply lru_lookup_in; [done|by eapply rep_distinct_idx].
  - by rewrite Ek2, Ek.
  - by rewrite En2, Ek2, En, Ek.
  - lia.
Qed.
