(* ===== verification/MappedDNSQuery.v ===== *)
(** * Answering DNS queries: memory safety and the answers given *)
From S2P Require Import Prelude RBTree RBTreeShape RBTreeSpec List SearchTree CInt MappedDNS MappedDNSSpec.

(** ** Strings and buffers *)

Lemma c_string_from_total b j : b !! j = Some 0 -> is_Some (c_string_from b).
Proof.
  revert j. induction b as [|x b IH]; intros [|j]; simpl; [done..| |].
  - intros [= ->]. simpl. eauto.
  - intros Hj. destruct (Z.eqb x 0); [eauto|]. destruct (IH j Hj) as [s ->]. simpl. eauto.
Qed.

Lemma c_string_total b i j : 0 <= i <= j -> rd8 b j = Some 0 -> is_Some (c_string b i).
Proof.
  intros Hij. unfold rd8, c_string. destruct (Z.ltb_spec j 0); [lia|].
  destruct (Z.ltb_spec i 0); [lia|]. intros Hj.
  apply (c_string_from_total _ (Z.to_nat j - Z.to_nat i)). rewrite lookup_drop.
  rewrite <- Hj. f_equal. lia.
Qed.

Lemma rd8_insert_ne b i j v : i <> j -> 0 <= i -> rd8 (<[Z.to_nat i := v]> b) j = rd8 b j.
Proof.
  intros Hne Hi. unfold rd8. destruct (Z.ltb_spec j 0); [done|].
  apply list_lookup_insert_ne. lia.
Qed.

Lemma bytes_ok_insert b i v : bytes_ok b -> bytes_ok (<[i := u8 v]> b).
Proof. intros Hb. apply Forall_insert; [done|apply u8_ok]. Qed.

Lemma wp_rd8 b off (Q : Z -> Prop) :
  bytes_ok b -> 0 <= off < Z.of_nat (length b) ->
  (forall c, byte_ok c -> rd8 b off = Some c -> Q c) -> wp (rd8 b off) Q.
Proof.
  intros Hb Hoff HQ. destruct (rd8_in b off Hoff) as [c Hc].
  eapply wp_prim; [exact Hc|]. apply HQ; [by eapply rd8_ok|done].
Qed.

(** A buffer of the same size that still holds bytes. *)
Definition buf_like (b b' : list Z) : Prop := length b' = length b /\ bytes_ok b'.

Lemma wp_wr8 b off v (Q : list Z -> Prop) :
  bytes_ok b -> 0 <= off < Z.of_nat (length b) ->
  (forall b', buf_like b b' -> b' = <[Z.to_nat off := u8 v]> b -> Q b') -> wp (wr8 b off v) Q.
Proof.
  intros Hb Hoff HQ. eapply wp_prim; [by apply wr8_in|]. apply HQ; [|done].
  split; [apply length_insert|by apply bytes_ok_insert].
Qed.

Ltac buf := unfold buf_like in *; repeat match goal with
  | H : _ /\ _ |- _ => destruct H
  end; try done; try lia; congruence.

Lemma wp_store16 b off v (Q : list Z -> Prop) :
  bytes_ok b -> 0 <= off -> off + 1 < Z.of_nat (length b) ->
  (forall b', buf_like b b' -> Q b') -> wp (store16 b off v) Q.
Proof.
  intros Hb H0 H1 HQ. unfold store16. apply wp_bind. apply wp_wr8; [done|lia|].
  intros b1 [Hl Hb1] _. apply wp_wr8; [done|lia|]. intros b2 [Hl2 Hb2] _. apply HQ.
  split; [congruence|done].
Qed.

Lemma wp_load16 b off (Q : Z -> Prop) :
  bytes_ok b -> 0 <= off -> off + 1 < Z.of_nat (length b) ->
  (forall v, 0 <= v < 65536 -> Q v) -> wp (load16 b off) Q.
Proof.
  intros Hb H0 H1 HQ. unfold load16. apply wp_bind. apply wp_rd8; [done|lia|].
  intros c0 Hc0 _. apply wp_bind. apply wp_rd8; [done|lia|]. intros c1 Hc1 _.
  apply wp_ret. apply HQ. unfold of_le16, byte_ok in *. lia.
Qed.

Lemma wp_read_u16 b off (Q : Z -> Prop) :
  bytes_ok b -> 0 <= off -> off + 1 < Z.of_nat (length b) ->
  (forall p0 p1, rd8 b off = Some p0 -> rd8 b (off + 1) = Some p1 -> byte_ok p0 -> byte_ok p1 ->
     Q (of_be16 p0 p1)) -> wp (read_u16 b off) Q.
Proof.
  intros Hb H0 H1 HQ. unfold read_u16. apply wp_bind. apply wp_rd8; [done|lia|].
  intros c0 Hc0 E0. apply wp_bind. apply wp_rd8; [done|lia|]. intros c1 Hc1 E1.
  apply wp_ret. rewrite lor_shift8 by done. by apply HQ.
Qed.

Lemma wp_write_u16 b off v (Q : list Z -> Prop) :
  bytes_ok b -> 0 <= off -> off + 1 < Z.of_nat (length b) ->
  (forall b', buf_like b b' -> Q b') -> wp (write_u16 b off v) Q.
Proof.
  intros Hb H0 H1 HQ. unfold write_u16. apply wp_bind. apply wp_wr8; [done|lia|].
  intros b1 [Hl Hb1] _. apply wp_wr8; [done|lia|]. intros b2 [Hl2 Hb2] _. apply HQ.
  split; [congruence|done].
Qed.

Lemma wp_write_u32 b off v (Q : list Z -> Prop) :
  bytes_ok b -> 0 <= off -> off + 3 < Z.of_nat (length b) ->
  (forall b', buf_like b b' -> Q b') -> wp (write_u32 b off v) Q.
Proof.
  intros Hb H0 H1 HQ. unfold write_u32.
  apply wp_bind. apply wp_wr8; [done|lia|]. intros b1 [Hl1 Hb1] _.
  apply wp_bind. apply wp_wr8; [done|lia|]. intros b2 [Hl2 Hb2] _.
  apply wp_bind. apply wp_wr8; [done|lia|]. intros b3 [Hl3 Hb3] _.
  apply wp_wr8; [done|lia|]. intros b4 [Hl4 Hb4] _. apply HQ. split; [congruence|done].
Qed.

Lemma memcpy_ok dst src n : bytes_ok dst -> bytes_ok src ->
  0 <= n <= Z.of_nat (length src) -> n <= Z.of_nat (length dst) ->
  memcpy dst 0 src n = Some (take (Z.to_nat n) src ++ drop (Z.to_nat n) dst) /\
  buf_like dst (take (Z.to_nat n) src ++ drop (Z.to_nat n) dst).
Proof.
  intros Hd Hs Hn Hl. split.
  - unfold memcpy. destruct (Z.ltb_spec 0 0); [lia|]. destruct (Z.ltb_spec n 0); [lia|].
    destruct (Z.ltb_spec (Z.of_nat (length src)) n); [lia|].
    destruct (Z.ltb_spec (Z.of_nat (length dst)) (0 + n)); [lia|]. done.
  - split.
    + rewrite length_app, length_take, length_drop. lia.
    + apply Forall_app. split; [by apply Forall_take|by apply Forall_drop].
Qed.

(** ** Names *)

Lemma handle_name_ok fuel rb qlen off :
  bytes_ok rb -> qlen <= Z.of_nat (length rb) -> 0 <= off < Z.of_nat (length rb) ->
  (Z.to_nat (Z.of_nat (length rb) - off) <= fuel)%nat ->
  wp (handle_name fuel rb qlen off) (fun '(rb', o) =>
    buf_like rb rb' /\
    match o with
    | None => True
    | Some off' => off <= off' < Z.of_nat (length rb) /\ rd8 rb' off' = Some 0 /\
        (off' = off -> rb' = rb)
    end).
Proof.
  revert rb off. induction fuel as [|fuel IH]; intros rb off Hb Hq Hoff Hf; [lia|].
  simpl. apply wp_bind. apply wp_rd8; [done|done|]. intros c Hc Ec.
  destruct (Z.eqb_spec c 0) as [->|Hne].
  { apply wp_ret. split; [by split|]. by split_and!; try lia. }
  unfold byte_ok in Hc. destruct (Z.leb_spec qlen (off + (1 + c))).
  { apply wp_ret. split; [by split|done]. }
  apply wp_bind. apply wp_wr8; [done|done|]. intros b1 [Hl1 Hb1] _.
  eapply wp_mono; [apply IH; [done|lia|lia|lia]|].
  intros [rb' o] [[Hl' Hb'] Ho]. split; [by split; [congruence|]|].
  destruct o as [off'|]; [|done]. destruct Ho as (H1 & H2 & H3).
  split; [lia|]. split; [done|lia].
Qed.

Section handle.
Context `{Allocator} `{!StrdupWorks}.

(** ** Questions *)

Definition question_post (self : HevMappedDNS) (rb : list Z) (qlen off : Z)
    (ips ipo : list Z)
    (out : HevMappedDNS * list Z * option (Z * list Z * list Z)) : Prop :=
  let '(self', rb', r) := out in
  buf_like rb rb' /\ same_config self self' /\ (exists l', dns_rep self' l') /\
  match r with
  | None => True
  | Some (off', ips', ipo') =>
      off <= off' <= Z.max off qlen /\ length ips' = length ipo' /\
      (length ips <= length ips')%nat
  end.

Lemma question_none self self' l' rb rb' qlen off ips ipo :
  buf_like rb rb' -> same_config self self' -> dns_rep self' l' ->
  question_post self rb qlen off ips ipo (self', rb', None).
Proof. intros. split; [done|]. split; [done|]. split; [by eexists|done]. Qed.

Lemma question_some self self' l' rb rb' qlen off ips ipo off' ips' ipo' :
  buf_like rb rb' -> same_config self self' -> dns_rep self' l' ->
  off <= off' <= Z.max off qlen -> length ips' = length ipo' ->
  (length ips <= length ips')%nat ->
  question_post self rb qlen off ips ipo (self', rb', Some (off', ips', ipo')).
Proof. intros. split; [done|]. split; [done|]. split; [by eexists|done]. Qed.

Lemma handle_question_ok fuel self l rb qlen off ips ipo :
  dns_rep self l -> 1 <= max self -> (S (Z.to_nat (max self)) < fuel)%nat ->
  (length rb <= fuel)%nat ->
  bytes_ok rb -> 0 <= off < Z.of_nat (length rb) -> qlen < Z.of_nat (length rb) ->
  length ips = length ipo ->
  wp (handle_question fuel self rb qlen off ips ipo) (question_post self rb qlen off ips ipo).
Proof.
  intros Hrep Hmax Hf Hfr Hb Hoff Hq Hlen. unfold handle_question.
  apply wp_bind. eapply wp_mono; [apply handle_name_ok; [done|lia|done|lia]|].
  intros [rb1 [off1|]] [[Hl1 Hb1] Ho].
  2: { apply wp_ret. by apply (question_none _ _ l). }
  destruct Ho as (Hoff1 & Hz & Hsame).
  assert (question_post self rb qlen off ips ipo (self, rb1, None)) as Hstop
    by (by apply (question_none _ _ l)).
  destruct (Z.leb_spec qlen (off1 + 1 + 3)); [by apply wp_ret|].
  apply wp_bind. apply wp_read_u16; [done|lia|lia|]. intros t0 t1 E0 E1 Ht0 Ht1.
  set (type := of_be16 t0 t1).
  assert (forall b, wp (if (Z.eqb type 1 && b)%bool then
      nm ← c_string rb1 (off + 1);
      '(self, i) ← hev_mapped_dns_find fuel self nm;
      if Z.leb 0 i then
        Some (self, rb1, Some (off1 + 1 + 4, ips ++ [Z.lor (net self) i], ipo ++ [off]))
      else Some (self, rb1, Some (off1 + 1 + 4, ips, ipo))
    else Some (self, rb1, Some (off1 + 1 + 4, ips, ipo)))
    (question_post self rb qlen off ips ipo)) as Hrest.
  { intros b. destruct (Z.eqb_spec type 1) as [Ht|]; [destruct b|]; cbn [andb].
    2-3: apply wp_ret, (question_some _ _ l); done || lia.
    assert (is_Some (c_string rb1 (off + 1))) as [nm Hnm].
    { destruct (decide (off1 = off)) as [->|].
      - apply (c_string_total _ _ (off + 1)); [lia|].
        replace (off + 1 + 0) with (off + 1) in E0 by lia. rewrite E0. f_equal.
        unfold type, of_be16, byte_ok in *. lia.
      - apply (c_string_total _ _ off1); [lia|done]. }
    apply wp_bind. eapply wp_prim; [exact Hnm|]. apply wp_bind.
    eapply wp_mono; [by apply (find_ok fuel self l nm)|]. intros [self' i] [Hconf Hcase].
    assert (exists l', dns_rep self' l') as [l' Hrep']
      by (destruct Hcase as [[? _]|(-> & _)]; eauto).
    destruct (Z.leb_spec 0 i); apply wp_ret, (question_some _ _ l');
      rewrite ?length_app; simpl; done || lia. }
  destruct (Z.eqb_spec type 1) as [Ht|Ht].
  - apply wp_bind. apply wp_read_u16; [done|lia|lia|]. intros c0 c1 _ _ _ _.
    specialize (Hrest (Z.eqb (of_be16 c0 c1) 1)).
    exact Hrest.
  - apply wp_bind, wp_ret. specialize (Hrest (Z.eqb 0 1)).
    exact Hrest.
Qed.

Lemma handle_questions_ok n fuel self l rb qlen off ips ipo :
  dns_rep self l -> 1 <= max self -> (S (Z.to_nat (max self)) < fuel)%nat ->
  (length rb <= fuel)%nat ->
  bytes_ok rb -> 0 <= off < Z.of_nat (length rb) -> qlen < Z.of_nat (length rb) ->
  length ips = length ipo ->
  wp (handle_questions n fuel self rb qlen off ips ipo)
    (question_post self rb qlen off ips ipo).
Proof.
  revert self l rb off ips ipo. induction n as [|n IH];
    intros self l rb off ips ipo Hrep Hmax Hf Hfr Hb Hoff Hq Hlen; simpl.
  - apply wp_ret, (question_some _ _ l); done || lia.
  - apply wp_bind. eapply wp_mono; [by eapply handle_question_ok|].
    intros [[self' rb'] [[[off' ips'] ipo']|]] ([Hl Hb'] & Hconf & [l' Hrep'] & Ho).
    2: { apply wp_ret. by apply (question_none _ _ l'). }
    destruct Ho as (Hoff' & Hlen' & Hge). destruct Hconf as (Em & En & Ek).
    eapply wp_mono; [eapply (IH self' l' rb' off' ips' ipo'); try done; rewrite ?Em; try lia; congruence|].
    intros [[self2 rb2] r] ([Hl2 Hb2] & (Em2 & En2 & Ek2) & Hrep2 & Ho2).
    split; [split; [congruence|done]|]. split; [split_and!; congruence|]. split; [done|].
    destruct r as [[[off2 ips2] ipo2]|]; [|done]. destruct Ho2 as (? & ? & ?).
    split_and!; try done; lia.
Qed.

(** ** Answers *)

Lemma handle_answers_ok ips ipo sb slen off :
  length ips = length ipo -> bytes_ok sb -> slen <= Z.of_nat (length sb) -> 0 <= off ->
  wp (handle_answers ips ipo sb slen off) (fun '(sb', o) =>
    buf_like sb sb' /\
    match o with
    | None => True
    | Some off' => off' = off + 16 * Z.of_nat (length ips) /\ (ips <> [] -> off' <= slen)
    end).
Proof.
  revert ipo sb off. induction ips as [|ip ips IH]; intros [|po ipo] sb off Hlen Hb Hs Hoff;
    try done; simpl.
  - apply wp_ret. split; [by split|]. split; [lia|done].
  - destruct (Z.leb_spec slen (off + 15)); [apply wp_ret; split; [by split|done]|].
    apply wp_bind, wp_wr8; [done|lia|]. intros b1 [Hl1 Hb1] _.
    apply wp_bind, wp_wr8; [done|lia|]. intros b2 [Hl2 Hb2] _.
    apply wp_bind, wp_write_u16; [done|lia..|]. intros b3 [Hl3 Hb3].
    apply wp_bind, wp_write_u16; [done|lia..|]. intros b4 [Hl4 Hb4].
    apply wp_bind, wp_write_u32; [done|lia..|]. intros b5 [Hl5 Hb5].
    apply wp_bind, wp_write_u16; [done|lia..|]. intros b6 [Hl6 Hb6].
    apply wp_bind, wp_write_u32; [done|lia..|]. intros b7 [Hl7 Hb7].
    eapply wp_mono; [apply (IH ipo b7 (off + 16)); [by injection Hlen|done|lia|lia]|].
    intros [sb' o] [[Hl' Hb'] Ho]. split; [split; [congruence|done]|].
    destruct o as [off'|]; [|done]. destruct Ho as [-> Ho]. split; [lia|]. intros _.
    destruct ips; [simpl; lia|by apply Ho].
Qed.

(** ** The whole handler *)

Definition handle_post (self : HevMappedDNS) (req res : list Z) (qlen slen : Z)
    (out : HevMappedDNS * list Z * list Z * Z) : Prop :=
  let '(self', req', res', r) := out in
  buf_like req req' /\ buf_like res res' /\ same_config self self' /\
  (exists l', dns_rep self' l') /\ (r = -1 \/ 12 <= r <= slen).

Lemma handle_ok fuel self l req qlen res slen :
  dns_rep self l -> 1 <= max self -> (S (Z.to_nat (max self)) < fuel)%nat ->
  (length req <= fuel)%nat -> bytes_ok req -> bytes_ok res ->
  12 <= qlen < Z.of_nat (length req) -> slen <= Z.of_nat (length res) ->
  wp (hev_mapped_dns_handle fuel self req qlen res slen)
    (handle_post self req res qlen slen).
Proof.
  intros Hrep Hmax Hf Hfr Hbq Hbs Hq Hs. unfold hev_mapped_dns_handle.
  assert (forall req' res' self' l', buf_like req req' -> buf_like res res' ->
    same_config self self' -> dns_rep self' l' ->
    handle_post self req res qlen slen (self', req', res', -1)) as Hfail.
  { intros. split_and!; eauto. }
  destruct (Z.ltb_spec slen qlen).
  { apply wp_ret. by apply (Hfail _ _ _ l). }
  destruct (memcpy_ok res req qlen) as [Emc [Hlm Hbm]]; [done|done|lia|lia|].
  rewrite Emc. apply wp_bind, wp_ret.
  apply wp_bind, wp_load16; [done|unfold off_qd; lia..|]. intros qd _.
  apply wp_bind, wp_store16; [done|unfold off_qd; lia..|]. intros req1 [Hlq1 Hbq1].
  apply wp_bind, wp_load16; [done|unfold off_fl; lia..|]. intros fl _.
  apply wp_bind, wp_store16; [done|unfold off_fl; lia..|]. intros res1 [Hls1 Hbs1].
  apply wp_bind, wp_store16; [done|unfold off_ns; lia..|]. intros res2 [Hls2 Hbs2].
  apply wp_bind, wp_store16; [done|unfold off_an; lia..|]. intros res3 [Hls3 Hbs3].
  apply wp_bind, wp_store16; [done|unfold off_ar; lia..|]. intros res4 [Hls4 Hbs4].
  assert (buf_like req req1) as Hreq1 by done.
  assert (buf_like res res4) as Hres4 by (split; [congruence|done]).
  destruct (Z.ltb_spec 32 (ntohs qd)).
  { apply wp_ret. by apply (Hfail _ _ _ l). }
  apply wp_bind. eapply wp_mono.
  { eapply (handle_questions_ok _ fuel self l req1 qlen sizeof_DNSHdr [] []); try done; try lia;
      unfold sizeof_DNSHdr; lia. }
  intros [[self' req2] r] ([Hlq2 Hbq2] & Hconf & [l' Hrep'] & Ho).
  assert (buf_like req req2) as Hreq2 by (split; [congruence|done]).
  destruct r as [[[off ips] ipo]|]; [|by apply wp_ret, (Hfail _ _ _ l')].
  destruct Ho as (Hoff & Hlen & _). unfold sizeof_DNSHdr in Hoff.
  apply wp_bind. eapply wp_mono; [apply handle_answers_ok; [done|done|lia|lia]|].
  intros [res5 o] [[Hls5 Hbs5] Ho].
  assert (buf_like res res5) as Hres5 by (split; [congruence|done]).
  destruct o as [off'|]; [|by apply wp_ret, (Hfail _ _ _ l')].
  apply wp_bind, wp_load16; [done|unfold off_fl; lia..|]. intros fl2 _.
  apply wp_bind, wp_store16; [done|unfold off_fl; lia..|]. intros res6 [Hls6 Hbs6].
  apply wp_bind, wp_store16; [done|unfold off_an; lia..|]. intros res7 [Hls7 Hbs7].
  apply wp_ret. split; [done|]. split; [split; [congruence|done]|]. split; [done|].
  split; [eauto|]. right. destruct Ho as [-> Ho]. destruct ips as [|ip ips]; [simpl; lia|].
  split; [lia|]. by apply Ho.
Qed.
End handle.

(** * The answer to a well-formed query of one question *)

(** ** The wire format (RFC 1035), independently of the handler *)

(** A label with its length, a name as a sequence of labels. *)
Definition enc_label (l : list Z) : list Z := Z.of_nat (length l) :: l.
Definition enc_labels (ls : list (list Z)) : list Z := concat (map enc_label ls).

(** The text of a name: its labels separated by dots. *)
Definition dotted (ls : list (list Z)) : list Z := concat (map (fun l => 46 :: l) ls).
Definition name_text (ls : list (list Z)) : list Z := tail (dotted ls).

Definition label_ok (l : list Z) : Prop :=
  1 <= Z.of_nat (length l) <= 63 /\ bytes_ok l /\ nonzero l.

(** Type A, class IN. *)
Definition a_in : list Z := [0; 1; 0; 1].

Definition be32 (v : Z) : list Z :=
  [u8 (Z.shiftr v 24); u8 (Z.shiftr v 16); u8 (Z.shiftr v 8); u8 v].

Definition query (id0 id1 fl0 fl1 : Z) (ls : list (list Z)) : list Z :=
  [id0; id1; fl0; fl1; 0; 1; 0; 0; 0; 0; 0; 0] ++ enc_labels ls ++ 0 :: a_in.

(** The response bit is set and "recursion desired" copied to "recursion
    available"; the one answer points back to the question at offset 12, lives
    for one second and holds the address. *)
Definition response (id0 id1 fl0 fl1 : Z) (ls : list (list Z)) (ip : Z) : list Z :=
  let fl := of_be16 fl0 fl1 in
  [id0; id1] ++ be16 (Z.lor (Z.lor fl 0x8000) (Z.shiftr (Z.land fl 0x100) 1)) ++
  [0; 1; 0; 1; 0; 0; 0; 0] ++ enc_labels ls ++ 0 :: a_in ++
  [192; 12; 0; 1; 0; 1; 0; 0; 0; 1; 0; 4] ++ be32 ip.

(** ** The name *)

Lemma length_enc_labels ls : length (enc_labels ls) = length (dotted ls).
Proof.
  unfold enc_labels, dotted. induction ls as [|l ls IH]; simpl; [done|].
  by rewrite !length_app, IH.
Qed.

Lemma handle_name_enc fuel pre ls rest qlen :
  Forall label_ok ls ->
  Z.of_nat (length pre + length (enc_labels ls)) < qlen ->
  (length ls < fuel)%nat ->
  handle_name fuel (pre ++ enc_labels ls ++ 0 :: rest) qlen (Z.of_nat (length pre)) =
  Some (pre ++ dotted ls ++ 0 :: rest,
        Some (Z.of_nat (length pre + length (enc_labels ls)))).
Proof.
  revert fuel pre. induction ls as [|l ls IH]; intros [|fuel] pre Hok Hq Hf; [lia| |lia|].
  - simpl. rewrite rd8_app_r, Z.sub_diag by lia. cbn. by rewrite Nat.add_0_r.
  - inversion Hok as [|? ? [Hl _] Hok']; subst.
    assert (rd8 (pre ++ enc_labels (l :: ls) ++ 0 :: rest) (Z.of_nat (length pre)) =
      Some (Z.of_nat (length l))) as Hrd by (rewrite rd8_app_r, Z.sub_diag by lia; done).
    cbn [handle_name]. rewrite Hrd. cbn [mbind option_bind].
    destruct (Z.eqb_spec (Z.of_nat (length l)) 0); [lia|].
    unfold enc_labels in Hq |- *. simpl in Hq |- *. rewrite !length_app in Hq. simpl in Hq.
    destruct (Z.leb_spec qlen (Z.of_nat (length pre) + (1 + Z.of_nat (length l)))); [lia|].
    rewrite wr8_app by done. cbn [mbind option_bind].
    change (u8 46) with 46.
    replace (pre ++ 46 :: (l ++ concat (map enc_label ls)) ++ 0 :: rest)
      with ((pre ++ 46 :: l) ++ enc_labels ls ++ 0 :: rest)
      by (by rewrite <- !app_assoc).
    replace (Z.of_nat (length pre) + (1 + Z.of_nat (length l)))
      with (Z.of_nat (length (pre ++ 46 :: l))) by (rewrite length_app; simpl; lia).
    rewrite IH; [|done| |simpl in Hf; lia].
    + unfold enc_labels, dotted. simpl. rewrite <- !app_assoc. simpl. f_equal. f_equal.
      f_equal. rewrite ?length_app. simpl. rewrite ?length_app. lia.
    + rewrite length_app. simpl. unfold enc_labels. lia.
Qed.

Lemma nonzero_dotted ls : Forall label_ok ls -> nonzero (dotted ls).
Proof.
  unfold dotted. induction 1 as [|l ls (_ & _ & Hl) Hls IH]; simpl; [constructor|].
  constructor; [done|]. by apply Forall_app.
Qed.

Lemma dotted_cons ls : ls <> [] -> dotted ls = 46 :: name_text ls.
Proof. by destruct ls. Qed.

Lemma c_string_name pre ls rest :
  ls <> [] -> Forall label_ok ls ->
  c_string (pre ++ dotted ls ++ 0 :: rest) (Z.of_nat (length pre) + 1) = Some (name_text ls).
Proof.
  intros Hne Hok. pose proof (nonzero_dotted ls Hok) as Hnz. rewrite dotted_cons in * by done.
  unfold c_string. destruct (Z.ltb_spec (Z.of_nat (length pre) + 1) 0); [lia|].
  replace (Z.to_nat (Z.of_nat (length pre) + 1)) with (length (pre ++ [46]))
    by (rewrite length_app; simpl; lia).
  replace (pre ++ (46 :: name_text ls) ++ 0 :: rest)
    with ((pre ++ [46]) ++ name_text ls ++ 0 :: rest) by (by rewrite <- !app_assoc).
  rewrite drop_app_length. apply c_string_from_app. by inversion Hnz.
Qed.

(** ** The answer *)

Lemma wr8_off l r off k v :
  off = Z.of_nat (length l) + k -> 0 <= k < Z.of_nat (length r) ->
  wr8 (l ++ r) off v = Some (l ++ <[Z.to_nat k := u8 v]> r).
Proof.
  intros -> Hk. rewrite wr8_in by (rewrite length_app; lia). f_equal.
  replace (Z.to_nat (Z.of_nat (length l) + k)) with (length l + Z.to_nat k)%nat by lia.
  by rewrite insert_app_r.
Qed.

(** One byte store inside the block that follows [pre]. *)
Ltac wr_step k :=
  rewrite (wr8_off _ _ _ k) by (rewrite ?length_insert; simpl length; lia);
  cbn [mbind option_bind].

Lemma write_answer pre ip pad slen :
  length pad = 16%nat -> Z.of_nat (length pre) + 16 <= slen ->
  forall rest, handle_answers [ip] [12] (pre ++ pad ++ rest) slen (Z.of_nat (length pre)) =
  Some (pre ++ ([192; 12; 0; 1; 0; 1; 0; 0; 0; 1; 0; 4] ++ be32 ip) ++ rest,
        Some (Z.of_nat (length pre) + 16)).
Proof.
  intros Hp Hs rest. do 16 (destruct pad as [|? pad]; [done|]). destruct pad; [|done].
  cbn [handle_answers]. destruct (Z.leb_spec slen (Z.of_nat (length pre) + 15)); [lia|].
  unfold write_u16, write_u32.
  wr_step 0. wr_step 1. wr_step 2. wr_step 3. wr_step 4. wr_step 5. wr_step 6. wr_step 7.
  wr_step 8. wr_step 9. wr_step 10. wr_step 11. wr_step 12. wr_step 13. wr_step 14. wr_step 15.
  reflexivity.
Qed.

(** ** The handler *)

(** The first twelve bytes, with a field changed. *)
Definition header (id0 id1 f0 f1 q0 q1 a0 a1 : Z) : list Z :=
  [id0; id1; f0; f1; q0; q1; a0; a1; 0; 0; 0; 0].

Ltac store_header :=
  unfold store16, header, off_qd, off_fl, off_an, off_ns, off_ar; cbn [app];
  rewrite wr8_in by (simpl length; lia); cbn [mbind option_bind];
  rewrite wr8_in by (rewrite ?length_insert; simpl length; lia); reflexivity.

Lemma store_qd id0 id1 f0 f1 q0 q1 a0 a1 v t :
  store16 (header id0 id1 f0 f1 q0 q1 a0 a1 ++ t) off_qd v =
  Some (header id0 id1 f0 f1 (u8 v) (u8 (Z.shiftr v 8)) a0 a1 ++ t).
Proof. store_header. Qed.

Lemma store_fl id0 id1 f0 f1 q0 q1 a0 a1 v t :
  store16 (header id0 id1 f0 f1 q0 q1 a0 a1 ++ t) off_fl v =
  Some (header id0 id1 (u8 v) (u8 (Z.shiftr v 8)) q0 q1 a0 a1 ++ t).
Proof. store_header. Qed.

Lemma store_an id0 id1 f0 f1 q0 q1 a0 a1 v t :
  store16 (header id0 id1 f0 f1 q0 q1 a0 a1 ++ t) off_an v =
  Some (header id0 id1 f0 f1 q0 q1 (u8 v) (u8 (Z.shiftr v 8)) ++ t).
Proof. store_header. Qed.

Lemma store_ns id0 id1 f0 f1 q0 q1 a0 a1 t :
  store16 (header id0 id1 f0 f1 q0 q1 a0 a1 ++ t) off_ns 0 =
  Some (header id0 id1 f0 f1 q0 q1 a0 a1 ++ t).
Proof. store_header. Qed.

Lemma store_ar id0 id1 f0 f1 q0 q1 a0 a1 t :
  store16 (header id0 id1 f0 f1 q0 q1 a0 a1 ++ t) off_ar 0 =
  Some (header id0 id1 f0 f1 q0 q1 a0 a1 ++ t).
Proof. store_header. Qed.

Lemma load_qd id0 id1 f0 f1 q0 q1 a0 a1 t :
  load16 (header id0 id1 f0 f1 q0 q1 a0 a1 ++ t) off_qd = Some (of_le16 q0 q1).
Proof. reflexivity. Qed.

Lemma load_fl id0 id1 f0 f1 q0 q1 a0 a1 t :
  load16 (header id0 id1 f0 f1 q0 q1 a0 a1 ++ t) off_fl = Some (of_le16 f0 f1).
Proof. reflexivity. Qed.

Lemma of_le16_u8 v : 0 <= v < 65536 -> of_le16 (u8 v) (u8 (Z.shiftr v 8)) = v.
Proof.
  intros Hv. unfold of_le16, u8. rewrite Z.shiftr_div_pow2 by lia.
  change (2 ^ 8) with 256. dlia.
Qed.

Lemma length_header id0 id1 f0 f1 q0 q1 a0 a1 :
  length (header id0 id1 f0 f1 q0 q1 a0 a1) = 12%nat.
Proof. done. Qed.

Lemma query_header id0 id1 fl0 fl1 ls t :
  query id0 id1 fl0 fl1 ls ++ t =
  header id0 id1 fl0 fl1 0 1 0 0 ++ enc_labels ls ++ 0 :: a_in ++ t.
Proof. unfold query, header. by rewrite <- !app_assoc. Qed.

Lemma length_query id0 id1 fl0 fl1 ls :
  length (query id0 id1 fl0 fl1 ls) = (17 + length (enc_labels ls))%nat.
Proof. unfold query, a_in. rewrite !length_app. simpl. lia. Qed.

Lemma flags_range fl : 0 <= fl < 65536 ->
  0 <= Z.lor (Z.lor fl 0x8000) (Z.shiftr (Z.land fl 0x100) 1) < 65536.
Proof.
  intros Hf. split.
  - apply Z.lor_nonneg. split; [apply Z.lor_nonneg; lia|].
    apply Z.shiftr_nonneg, Z.land_nonneg. lia.
  - rewrite <- (Z.mod_small fl 65536) by done.
    change 65536 with (2 ^ 16). rewrite <- !Z.land_ones by lia.
    rewrite Z.shiftr_land.
    set (x := Z.land fl (Z.ones 16)).
    replace (Z.lor (Z.lor x 0x8000) (Z.land (Z.shiftr x 1) (Z.shiftr 0x100 1)))
      with (Z.land (Z.lor (Z.lor fl 0x8000) (Z.land (Z.shiftr x 1) 0x80)) (Z.ones 16)).
    + rewrite Z.land_ones by lia. apply Z.mod_pos_bound. lia.
    + rewrite !Z.land_lor_distr_l, <- Z.land_assoc. done.
Qed.

Section query.
Context `{Allocator}.

(** The single question, up to its name being looked up. *)
Lemma question_query fuel self self' i id0 id1 fl0 fl1 q0 q1 ls pad :
  ls <> [] -> Forall label_ok ls -> (length ls < fuel)%nat ->
  hev_mapped_dns_find fuel self (name_text ls) = Some (self', i) -> 0 <= i ->
  let q := query id0 id1 fl0 fl1 ls in
  exists req',
  handle_questions 1 fuel self
    (header id0 id1 fl0 fl1 q0 q1 0 0 ++ enc_labels ls ++ 0 :: a_in ++ pad)
    (Z.of_nat (length q)) sizeof_DNSHdr [] [] =
  Some (self', req', Some (Z.of_nat (length q), [Z.lor (net self') i], [12])).
Proof.
  intros Hne Hok Hf Hfind Hi q. set (h := header _ _ _ _ _ _ _ _).
  assert (length h = 12%nat) as Hh by done.
  assert (Z.of_nat (length q) = 17 + Z.of_nat (length (enc_labels ls))) as Hq
    by (unfold q; rewrite length_query; lia).
  cbn [handle_questions]. unfold handle_question, sizeof_DNSHdr.
  change 12 with (Z.of_nat (length h)).
  rewrite handle_name_enc by (done || lia). cbn [mbind option_bind].
  destruct (Z.leb_spec (Z.of_nat (length q))
    (Z.of_nat (length h + length (enc_labels ls)) + 1 + 3)); [lia|].
  set (rb := h ++ dotted ls ++ 0 :: a_in ++ pad).
  set (o := Z.of_nat (length h + length (enc_labels ls)) + 1).
  assert (forall k, 0 <= k -> rd8 rb (o + k) = rd8 (a_in ++ pad) k) as Hrd.
  { intros k Hk. unfold rb, o. rewrite app_assoc. rewrite length_enc_labels.
    rewrite rd8_app_r by (rewrite length_app; lia).
    replace (_ - Z.of_nat (length (h ++ dotted ls))) with (k + 1)
      by (rewrite length_app; lia).
    rewrite rd8_cons by lia. f_equal. lia. }
  assert (read_u16 rb (o + 0) = Some 1 /\ read_u16 rb (o + 2) = Some 1) as [-> ->].
  { unfold read_u16. by rewrite <- !Z.add_assoc, !Hrd by lia. }
  cbn [mbind option_bind]. rewrite Z.eqb_refl. cbn [mbind option_bind andb].
  assert (c_string rb (Z.of_nat (length h) + 1) = Some (name_text ls)) as ->
    by (by apply c_string_name). cbn [mbind option_bind].
  rewrite Hfind. cbn [mbind option_bind].
  destruct (Z.leb_spec 0 i); [|lia].
  exists rb. replace (o + 4) with (Z.of_nat (length q)) by (unfold o; lia). done.
Qed.

Lemma handle_query fuel self self' i id0 id1 fl0 fl1 ls pad pad' res :
  byte_ok fl0 -> byte_ok fl1 ->
  ls <> [] -> Forall label_ok ls -> (length ls < fuel)%nat ->
  let q := query id0 id1 fl0 fl1 ls in
  length pad' = 16%nat ->
  hev_mapped_dns_find fuel self (name_text ls) = Some (self', i) -> 0 <= i ->
  forall rest, length res = length (q ++ pad' ++ rest) ->
  drop (length q) res = pad' ++ rest ->
  exists req',
  hev_mapped_dns_handle fuel self (q ++ pad) (Z.of_nat (length q)) res
      (Z.of_nat (length res)) =
    Some (self', req', response id0 id1 fl0 fl1 ls (Z.lor (net self') i) ++ rest,
          Z.of_nat (length q) + 16).
Proof.
  intros Hb0 Hb1 Hne Hok Hf q Hp Hfind Hi rest Hlen Hdrop.
  unfold hev_mapped_dns_handle. rewrite !length_app in Hlen.
  destruct (Z.ltb_spec (Z.of_nat (length res)) (Z.of_nat (length q))); [lia|].
  assert (memcpy res 0 (q ++ pad) (Z.of_nat (length q)) = Some (q ++ pad' ++ rest)) as ->.
  { unfold memcpy. destruct (Z.ltb_spec 0 0); [lia|].
    destruct (Z.ltb_spec (Z.of_nat (length q)) 0); [lia|]. rewrite length_app.
    destruct (Z.ltb_spec (Z.of_nat (length q + length pad)) (Z.of_nat (length q))); [lia|].
    destruct (Z.ltb_spec (Z.of_nat (length res)) (0 + Z.of_nat (length q))); [lia|].
    cbn [orb]. change (take (Z.to_nat 0) res) with ([] : list Z).
    rewrite Z.add_0_l, Nat2Z.id, take_app_length, Hdrop. done. }
  unfold q at 1 2 3 4. rewrite !query_header. cbn [mbind option_bind].
  rewrite load_qd. cbn [mbind option_bind].
  change (ntohs (of_le16 0 1)) with 1. rewrite store_qd, load_fl. cbn [mbind option_bind].
  rewrite ntohs_le16 by done. set (fl := of_be16 fl0 fl1).
  assert (0 <= fl < 65536) as Hfl by (unfold fl, of_be16, byte_ok in *; lia).
  rewrite store_fl. cbn [mbind option_bind]. rewrite store_ns. cbn [mbind option_bind].
  rewrite store_an. cbn [mbind option_bind]. rewrite store_ar. cbn [mbind option_bind].
  change (32 <? 1) with false. cbn iota. change (Z.to_nat 1) with 1%nat.
  destruct (question_query fuel self self' i id0 id1 fl0 fl1 (u8 1) (u8 (Z.shiftr 1 8)) ls pad)
    as [req' ->]; try done.
  cbn [mbind option_bind].
  set (pre := header id0 id1 (u8 fl) (u8 (Z.shiftr fl 8)) 0 1 (u8 0) (u8 (Z.shiftr 0 8)) ++
    enc_labels ls ++ 0 :: a_in).
  assert (length q = length pre) as Hpre.
  { unfold q, pre. rewrite length_query, !length_app. simpl. lia. }
  fold q. rewrite Hpre.
  replace (header id0 id1 (u8 fl) (u8 (Z.shiftr fl 8)) 0 1 (u8 0) (u8 (Z.shiftr 0 8)) ++
    enc_labels ls ++ 0 :: a_in ++ pad' ++ rest) with (pre ++ pad' ++ rest)
    by (unfold pre; by rewrite <- !app_assoc).
  rewrite write_answer by (try done; rewrite Hlen, Hpre, Hp; lia).
  cbn [mbind option_bind]. unfold pre. rewrite <- !app_assoc. rewrite load_fl.
  cbn [mbind option_bind]. rewrite of_le16_u8 by done. rewrite store_fl.
  cbn [mbind option_bind]. rewrite store_an. cbn [mbind option_bind length].
  exists req'. do 3 f_equal. unfold response. fold fl.
  set (v := Z.lor (Z.lor fl 0x8000) (Z.shiftr (Z.land fl 0x100) 1)).
  pose proof (le16_htons v (flags_range fl Hfl)) as Hv. unfold le16, be16 in Hv.
  injection Hv as Hv0 Hv1. rewrite Hv0, Hv1. unfold be16. rewrite <- !app_assoc. reflexivity.
Qed.
End query.
