(* ===== verification/MappedDNSProps.v ===== *)
(** * Properties of the mapped DNS cache *)
From S2P Require Import Prelude RBTree RBTreeShape RBTreeSpec List SearchTree CInt MappedDNS MappedDNSSpec MappedDNSQuery.

(** ** A concrete allocator and cache *)

Definition bump (live : gset Z) : option Z := Some (4 * (1 + set_fold Z.max 0 live)).

#[export] Instance bump_allocator : Allocator.
Proof.
  refine {| hev_malloc0 := bump; strdup := fun _ s => Some s |}; [|by intros ? ? ? [= ->]].
  unfold bump. intros live a [= <-]. pose proof (set_fold_nonneg live) as H0. split; [lia|]. split.
  - unfold aligned. change 3 with (Z.ones 2). rewrite Z.land_ones by lia.
    change (2 ^ 2) with 4. rewrite Z.mul_comm. apply Z.mod_mul. lia.
  - intros Hin. apply set_fold_max in Hin. lia.
Defined.

#[export] Instance bump_strdup : StrdupWorks := fun _ _ => eq_refl.

(** The same blocks, but no memory for a name. *)
Definition nameless_allocator : Allocator.
Proof.
  refine {| hev_malloc0 := bump; strdup := fun _ _ => None |}; [apply (@hev_malloc0_ok bump_allocator)|done].
Defined.

(** 100.64.0.0/255.192.0.0 with room for two names. *)
Definition demo_net : Z := 1681915904.
Definition demo_mask : Z := i32 4290772992.
Definition demo_cache : HevMappedDNS :=
  mkDNS 0 2 demo_net demo_mask (mkList 0 0 ∅) (mkRBTree 0 ∅) [0; 0] ∅.

Lemma demo_cache_rep : dns_rep demo_cache [].
Proof. apply (new_ok demo_net demo_mask 2); [lia|reflexivity]. Qed.

(** The names "a.b", "c" and "d". *)
Definition name_ab : list Z := [97; 46; 98].
Definition name_c : list Z := [99].
Definition name_d : list Z := [100].

Section props.
Context `{Allocator}.

(** C9: [hev_mapped_dns_find] implements an LRU cache of [max] names: a known
    name keeps its number and becomes the most recent one, a new one takes the
    next free number, or, when the cache is full, that of the least recently
    used name, which is dropped.  The tree, the list and the record array agree
    afterwards.  Two failures of the allocator on a new name show: without a
    block for the node -1 is returned and nothing has changed; without a block
    for the copy of the name, whose absence is not checked, the number and the
    cache are those of the LRU cache but for the name of the node [a], which is
    [NULL]. *)
Theorem find_refines_lru fuel self l nm :
  dns_rep self l -> 1 <= max self -> (S (Z.to_nat (max self)) < fuel)%nat ->
  wp (hev_mapped_dns_find fuel self nm) (fun '(self', i) =>
    (max self' = max self /\ net self' = net self /\ mask self' = mask self) /\
    ((dns_rep self' (lru_find (max self) l nm).1 /\ i = (lru_find (max self) l nm).2) \/
     (self' = self /\ i = -1 /\ lru_remove (has_name nm) l = None /\
      hev_malloc0 (dom (nodes self)) = None) \/
     (i = (lru_find (max self) l nm).2 /\ lru_remove (has_name nm) l = None /\
      strdup (dom (nodes self)) nm = None /\
      exists a self2, dns_rep self2 (lru_find (max self) l nm).1 /\
        nodes self2 !! a = Some (mkDNSNode (Some nm) i) /\
        self' = set_nodes (<[a := mkDNSNode None i]> (nodes self2)) self2))).
Proof.
  intros Hr Hm Hf. eapply wp_mono; [by apply (find_cases fuel self l nm)|].
  intros [self' i] [[Hc [?|?]]|(Ha & Hd & a & self2 & -> & Hc & Hn & Hrep & ->)]; [by auto..|].
  split; [done|]. right. right. split_and!; [done..|]. exists a, self2. split_and!; [done..|].
  unfold blank. f_equal. apply map_eq. intros b. destruct (decide (a = b)) as [<-|].
  - by rewrite lookup_alter_eq, Hn, lookup_insert_eq.
  - by rewrite lookup_alter_ne, lookup_insert_ne.
Qed.

(** [hev_mapped_dns_lookup] implements the abstract lookup of the host part
    of an address: a number in use gives its name, which becomes the most recent
    one; any other address gives [NULL] and changes nothing; no address, however
    wrong, makes it read outside the record array. *)
Theorem lookup_refines_lru self l ip :
  dns_rep self l -> max self <= Z.lnot (mask self) ->
  wp (hev_mapped_dns_lookup self ip) (fun '(self', r) =>
    let i := Z.land ip (Z.lnot (mask self)) in
    (max self' = max self /\ net self' = net self /\ mask self' = mask self) /\
    dns_rep self' (lru_lookup l i).1 /\ r = (lru_lookup l i).2).
Proof.
  intros Hrep Hm. eapply wp_mono; [by apply lookup_ok|]. by intros [self' r].
Qed.

(** C10: the address given for a name leads back to it.  Whatever names [xs] are
    asked for in between, as long as the other ones are fewer than the capacity,
    looking up [net | i] returns the name that was given [i], where [i] is -1
    only without a block for the node; the mask has to be a prefix mask, the
    network address to lie under it, and there has to be memory for the copies
    of the names. *)
Theorem find_then_lookup `{!StrdupWorks} fuel self l nm xs others k :
  dns_rep self l -> 1 <= max self -> (S (Z.to_nat (max self)) < fuel)%nat ->
  0 <= k -> Z.lnot (mask self) = Z.ones k -> max self <= Z.ones k ->
  Z.land (net self) (Z.lnot (mask self)) = 0 ->
  Forall (fun x => x = nm \/ x ∈ others) xs -> NoDup others ->
  Z.of_nat (length others) < max self ->
  wp ('(self, i) ← hev_mapped_dns_find fuel self nm;
      self ← finds fuel self xs;
      '(self, r) ← hev_mapped_dns_lookup self (Z.lor (net self) i);
      Some (i, r)) (fun '(i, r) => i = -1 \/ (0 <= i < max self /\ r = Some nm)).
Proof.
  intros Hrep Hmax Hf Hk Hmask Hle Hnet Hxs Hnd Hcap.
  pose proof (find_finds_lookup fuel self l nm xs others k Hrep Hmax Hf Hk Hmask Hle Hnet Hxs
    Hnd Hcap) as Hw.
  apply wp_bind_inv in Hw. apply wp_bind. eapply wp_mono; [exact Hw|]. clear Hw. intros [self1 i] Hw.
  apply wp_bind_inv in Hw. apply wp_bind. eapply wp_mono; [exact Hw|]. clear Hw.
  intros self2 Hw. destruct Hw as ([? ?] & E & _ & Hw). injection E as <- <-.
  apply wp_bind.
  eapply wp_mono; [exact Hw|]. intros [self3 r] Hr. by apply wp_ret.
Qed.


(** C12: a well-formed query for the IPv4 address of one name is answered with
    the DNS response that repeats the question and gives one record, pointing to
    the name of the question, with the network prefix joined to the number that
    [hev_mapped_dns_find] gave the name (its labels joined by dots). *)
Theorem handle_answers_query fuel self self' i id0 id1 fl0 fl1 ls pad res room rest :
  byte_ok fl0 -> byte_ok fl1 ->
  ls <> [] -> Forall label_ok ls -> (length ls < fuel)%nat ->
  hev_mapped_dns_find fuel self (name_text ls) = Some (self', i) -> 0 <= i ->
  length room = 16%nat ->
  length res = length (query id0 id1 fl0 fl1 ls ++ room ++ rest) ->
  drop (length (query id0 id1 fl0 fl1 ls)) res = room ++ rest ->
  exists req',
  hev_mapped_dns_handle fuel self (query id0 id1 fl0 fl1 ls ++ pad)
      (Z.of_nat (length (query id0 id1 fl0 fl1 ls))) res (Z.of_nat (length res)) =
    Some (self', req', response id0 id1 fl0 fl1 ls (Z.lor (net self') i) ++ rest,
          Z.of_nat (length (query id0 id1 fl0 fl1 ls)) + 16).
Proof.
  intros Hb0 Hb1 Hne Hok Hf Hfind Hi Hroom Hlen Hdrop.
  by apply (handle_query fuel self self' i id0 id1 fl0 fl1 ls pad room res).
Qed.

(** Destroying a cache frees every node and follows no freed link. *)
Theorem destruct_frees_all fuel self l :
  dns_rep self l -> (length l < fuel)%nat ->
  wp (hev_mapped_dns_destruct fuel self) (fun self' => nodes self' = ∅).
Proof.
  intros Hrep Hf. eapply wp_mono; [by eapply destruct_ok|]. by intros self' [? _].
Qed.
End props.

(** A cache is only created when its numbers fit under the mask; a fresh
    one is empty, and its every lookup stays within the record array. *)
Theorem new_is_empty net_ mask_ max_ :
  0 <= max_ ->
  match hev_mapped_dns_new net_ mask_ max_ with
  | None => Z.lnot mask_ < max_
  | Some self =>
      dns_rep self [] /\ max self = max_ /\ net self = net_ /\ mask self = mask_ /\
      max_ <= Z.lnot mask_
  end.
Proof.
  intros Hmax. destruct (hev_mapped_dns_new net_ mask_ max_) as [self|] eqn:E.
  - destruct (new_ok net_ mask_ max_ self Hmax E) as (Hrep & Em & En & Ek & Hle).
    rewrite Em, Ek in Hle. by split_and!.
  - revert E. unfold hev_mapped_dns_new, hev_mapped_dns_construct.
    destruct (Z.ltb_spec (Z.lnot mask_) max_); [done|discriminate].
Qed.

(** ** The theorems at concrete inputs *)

Lemma find_refines_lru_witness :
  wp (hev_mapped_dns_find 10 demo_cache name_ab) (fun '(self', i) =>
    (max self' = 2 /\ net self' = demo_net /\ mask self' = demo_mask) /\
    ((dns_rep self' [(name_ab, 0)] /\ i = 0) \/
     (self' = demo_cache /\ i = -1 /\ lru_remove (has_name name_ab) [] = None /\
      hev_malloc0 (dom (nodes demo_cache)) = None) \/
     (i = 0 /\ lru_remove (has_name name_ab) [] = None /\
      strdup (dom (nodes demo_cache)) name_ab = None /\
      exists a self2, dns_rep self2 [(name_ab, 0)] /\
        nodes self2 !! a = Some (mkDNSNode (Some name_ab) i) /\
        self' = set_nodes (<[a := mkDNSNode None i]> (nodes self2)) self2))).
Proof. apply (find_refines_lru 10 demo_cache []); [exact demo_cache_rep|done|simpl; lia]. Defined.

Lemma lookup_refines_lru_witness :
  wp (hev_mapped_dns_lookup demo_cache (demo_net + 1)) (fun '(self', r) =>
    let i := Z.land (demo_net + 1) (Z.lnot demo_mask) in
    (max self' = 2 /\ net self' = demo_net /\ mask self' = demo_mask) /\
    dns_rep self' (lru_lookup [] i).1 /\ r = (lru_lookup [] i).2).
Proof.
  apply (lookup_refines_lru demo_cache []); [exact demo_cache_rep|vm_compute; discriminate].
Defined.

(** With room for two names, one other name does not displace the first. *)
Lemma find_then_lookup_witness :
  wp ('(self, i) ← hev_mapped_dns_find 10 demo_cache name_ab;
      self ← finds 10 self [name_c; name_ab; name_c];
      '(self, r) ← hev_mapped_dns_lookup self (Z.lor (net self) i);
      Some (i, r)) (fun '(i, r) => i = -1 \/ (0 <= i < 2 /\ r = Some name_ab)).
Proof.
  apply (find_then_lookup 10 demo_cache [] name_ab [name_c; name_ab; name_c] [name_c] 22).
  - exact demo_cache_rep.
  - done.
  - simpl. lia.
  - done.
  - reflexivity.
  - vm_compute. discriminate.
  - reflexivity.
  - repeat constructor; set_solver.
  - apply NoDup_singleton.
  - simpl. lia.
Defined.

Definition demo_query : list Z := query 18 52 1 0 [[97]; [98]].
Definition demo_room : list Z := replicate 16 0.

Lemma bytes_ok_dec l : forallb (fun b => (0 <=? b) && (b <? 256)) l = true -> bytes_ok l.
Proof.
  intros H. apply Forall_forall. intros b Hb. rewrite forallb_forall in H.
  specialize (H b (proj1 (list_elem_of_In l b) Hb)). apply andb_prop in H as [H1 H2].
  apply Z.leb_le in H1. apply Z.ltb_lt in H2. by split.
Qed.


(** The cache after "a.b" has been given the number 0. *)
Definition demo_cache1 : HevMappedDNS :=
  mkDNS 1 2 demo_net demo_mask (mkList 28 28 {[28 := mkListNode 0 0]})
    (mkRBTree 4 {[4 := mkRBNode 1 0 0]}) [4; 0] {[4 := mkDNSNode (Some name_ab) 0]}.

Lemma handle_answers_query_witness :
  exists req',
  hev_mapped_dns_handle 10 demo_cache (demo_query ++ [0]) 21 (replicate 40 0) 40 =
    Some (demo_cache1, req', response 18 52 1 0 [[97]; [98]] demo_net ++ [0; 0; 0], 37).
Proof.
  apply (handle_answers_query 10 demo_cache demo_cache1 0 18 52 1 0 [[97]; [98]] [0]
           (replicate 40 0) demo_room [0; 0; 0]).
  - by split.
  - by split.
  - done.
  - repeat constructor; simpl; lia.
  - simpl. lia.
  - reflexivity.
  - done.
  - reflexivity.
  - reflexivity.
  - reflexivity.
Defined.

Lemma destruct_frees_all_witness :
  wp (hev_mapped_dns_destruct 1 demo_cache) (fun self' => nodes self' = ∅).
Proof. apply (destruct_frees_all 1 demo_cache []); [exact demo_cache_rep|simpl; lia]. Defined.

Lemma new_is_empty_witness :
  match hev_mapped_dns_new demo_net demo_mask 2 with
  | None => Z.lnot demo_mask < 2
  | Some self =>
      dns_rep self [] /\ max self = 2 /\ net self = demo_net /\ mask self = demo_mask /\
      2 <= Z.lnot demo_mask
  end.
Proof. apply new_is_empty. lia. Defined.

(** ** A name without a copy *)

(** When there is a block for the node but none for the name, the number is given
    all the same, its address leads to no name, and the next name faults in
    [strcmp]. *)
Theorem unnamed_node_faults : exists self,
  hev_mapped_dns_find (H := nameless_allocator) 10 demo_cache name_ab = Some (self, 0) /\
  (snd <$> hev_mapped_dns_lookup self (Z.lor demo_net 0)) = Some None /\
  hev_mapped_dns_find 10 self name_c = None.
Proof. eexists. split; [vm_compute; reflexivity|]. by split. Qed.

(** ** What the handler reads after the query *)

(** A query that is only a header announcing one question, in a buffer of its
    own size: the handler reads the byte after it. *)
Theorem handle_overread :
  hev_mapped_dns_handle 10 demo_cache [18; 52; 1; 0; 0; 1; 0; 0; 0; 0; 0; 0] 12
    (replicate 40 0) 40 = None.
Proof. reflexivity. Qed.

(** Two names, the second one at an offset of 261: the pointer of its answer is
    the offset modulo 256, so that it points into the header. *)
Definition long_labels : list (list Z) := repeat (repeat 97 60) 4.
Definition two_questions : list Z :=
  [18; 52; 1; 0; 0; 2; 0; 0; 0; 0; 0; 0] ++ enc_labels long_labels ++ 0 :: a_in ++
  enc_labels [[98]] ++ 0 :: a_in.

Theorem handle_pointer_truncated :
  exists self req' out,
  hev_mapped_dns_handle 400 demo_cache (two_questions ++ [0]) 268 (replicate 400 0) 400 =
    Some (self, req', out, 300) /\
  take 2 (drop 284 out) = [192; 5] /\
  take 2 (drop 261 out) = [1; 98].
Proof. vm_compute. eauto 10. Qed.
