(* ===== verification/RingBuffer.v ===== *)
(** * The ring buffer between a socket and the TCP stack (misc/hev-ring-buffer.c)

    Bytes enter at [wp]; they are handed out at [rp] without being copied, so
    that their room is only free again once [read_release] is called for them.
    All sizes are [size_t]s of 64 bits. *)
From S2P Require Import Prelude CInt.

(** ** The code *)

Record HevRingBuffer := mkRing {
  rp : Z;
  wp_ : Z;
  rda_size : Z;
  use_size : Z;
  max_size : Z;
  data : list Z;
}.

(** [iov_base] is an offset into [data]. *)
Record iovec := mkIov { iov_base : Z; iov_len : Z }.

Definition hev_ring_buffer_alloca (s : Z) (fresh : list Z) : HevRingBuffer :=
  mkRing 0 0 0 0 s fresh.

Definition hev_ring_buffer_get_max_size (self : HevRingBuffer) : Z := max_size self.
Definition hev_ring_buffer_get_use_size (self : HevRingBuffer) : Z := use_size self.

Definition hev_ring_buffer_reading (self : HevRingBuffer) : list iovec :=
  if Z.eqb 0 (rda_size self) then [] else
  let upper_size := u64 (max_size self - rp self) in
  if Z.leb (rda_size self) upper_size then [mkIov (rp self) (rda_size self)]
  else [mkIov (rp self) upper_size; mkIov 0 (u64 (rda_size self - upper_size))].

Definition hev_ring_buffer_read_finish (self : HevRingBuffer) (size : Z) : HevRingBuffer :=
  mkRing (u64 (rp self + size) mod max_size self) (wp_ self)
    (u64 (rda_size self - size)) (use_size self) (max_size self) (data self).

Definition hev_ring_buffer_read_release (self : HevRingBuffer) (size : Z) : HevRingBuffer :=
  let use_size := u64 (use_size self - size) in
  if Z.eqb use_size 0 then
    mkRing 0 0 (rda_size self) use_size (max_size self) (data self)
  else mkRing (rp self) (wp_ self) (rda_size self) use_size (max_size self) (data self).

Definition hev_ring_buffer_writing (self : HevRingBuffer) : list iovec :=
  if Z.eqb (use_size self) (max_size self) then [] else
  let upper_size := u64 (max_size self - wp_ self) in
  let spc_size := u64 (max_size self - use_size self) in
  if Z.leb spc_size upper_size then [mkIov (wp_ self) spc_size]
  else [mkIov (wp_ self) upper_size; mkIov 0 (u64 (spc_size - upper_size))].

Definition hev_ring_buffer_write_finish (self : HevRingBuffer) (size : Z) : HevRingBuffer :=
  mkRing (rp self) (u64 (wp_ self + size) mod max_size self)
    (u64 (rda_size self + size)) (u64 (use_size self + size)) (max_size self) (data self).

(** ** What the iovecs designate *)

Definition with_data (d : list Z) (self : HevRingBuffer) : HevRingBuffer :=
  mkRing (rp self) (wp_ self) (rda_size self) (use_size self) (max_size self) d.

(** [readv] fills the areas in order; [writev] takes their bytes in order. *)
Fixpoint scatter (d : list Z) (iov : list iovec) (bs : list Z) : list Z :=
  match iov with
  | [] => d
  | v :: iov =>
      scatter (list_inserts (Z.to_nat (iov_base v)) (take (Z.to_nat (iov_len v)) bs) d)
        iov (drop (Z.to_nat (iov_len v)) bs)
  end.

Definition area (d : list Z) (v : iovec) : list Z :=
  take (Z.to_nat (iov_len v)) (drop (Z.to_nat (iov_base v)) d).

Definition gather (d : list Z) (iov : list iovec) : list Z := concat (map (area d) iov).

Definition iov_size (iov : list iovec) : Z := foldr (fun v n => iov_len v + n) 0 iov.

Definition iov_in (d : list Z) (v : iovec) : Prop :=
  0 <= iov_base v /\ 0 <= iov_len v /\ iov_base v + iov_len v <= Z.of_nat (length d).

(** ** The queue it implements: bytes in flight, then bytes not yet handed out *)

Definition ring (d : list Z) (m s : Z) (n : nat) : list Z :=
  map (fun i => d !!! Z.to_nat ((s + Z.of_nat i) mod m)) (seq 0 n).

Record ring_rep (self : HevRingBuffer) (infl pend : list Z) : Prop := {
  rr_max : 0 < max_size self < 2 ^ 32;
  rr_data : Z.of_nat (length (data self)) = max_size self;
  rr_rp : 0 <= rp self < max_size self;
  rr_wp : wp_ self = (rp self + Z.of_nat (length pend)) mod max_size self;
  rr_rda : rda_size self = Z.of_nat (length pend);
  rr_use : use_size self = Z.of_nat (length infl + length pend);
  rr_cap : use_size self <= max_size self;
  rr_bytes : infl ++ pend =
    ring (data self) (max_size self) (rp self - Z.of_nat (length infl))
      (length infl + length pend);
}.

Lemma length_ring d m s n : length (ring d m s n) = n.
Proof. unfold ring. by rewrite length_map, length_seq. Qed.

Lemma ring_lookup d m s n i : (i < n)%nat ->
  ring d m s n !! i = Some (d !!! Z.to_nat ((s + Z.of_nat i) mod m)).
Proof.
  intros Hi. unfold ring. rewrite list_lookup_fmap, lookup_seq_lt by done. done.
Qed.

Lemma ring_ext d d' m s s' n :
  (forall i, (i < n)%nat ->
     d !!! Z.to_nat ((s + Z.of_nat i) mod m) = d' !!! Z.to_nat ((s' + Z.of_nat i) mod m)) ->
  ring d m s n = ring d' m s' n.
Proof.
  intros H. apply list_eq_same_length with n; [apply length_ring..|].
  intros i x y Hi. rewrite !ring_lookup by done. rewrite H by done. congruence.
Qed.

Lemma ring_mod d m s s' n : s mod m = s' mod m -> ring d m s n = ring d m s' n.
Proof.
  intros H. apply ring_ext. intros i _. f_equal. f_equal.
  destruct (decide (m = 0)) as [->|]; [by rewrite !Z.mod_0_r in *; lia|].
  rewrite <- (Z.add_mod_idemp_l s), <- (Z.add_mod_idemp_l s') by done. by rewrite H.
Qed.

Lemma ring_app d m s n k : ring d m s (n + k) = ring d m s n ++ ring d m (s + Z.of_nat n) k.
Proof.
  apply list_eq. intros i. destruct (decide (i < n)%nat).
  - rewrite lookup_app_l by (by rewrite length_ring). rewrite !ring_lookup by lia. done.
  - rewrite lookup_app_r by (rewrite length_ring; lia). rewrite length_ring.
    destruct (decide (i < n + k)%nat).
    + rewrite !ring_lookup by lia. do 2 f_equal. f_equal. f_equal. lia.
    + rewrite !lookup_ge_None_2; [done|rewrite length_ring; lia..].
Qed.

(** *** Areas of a buffer seen as arcs of the ring *)

Lemma ring_area d m s n : 0 <= s -> s + Z.of_nat n <= m -> Z.of_nat (length d) = m ->
  ring d m s n = take n (drop (Z.to_nat s) d).
Proof.
  intros Hs Hn Hd. apply list_eq. intros i. destruct (decide (i < n)%nat).
  - rewrite ring_lookup by done. rewrite lookup_take_lt, lookup_drop by done.
    rewrite Z.mod_small by lia. symmetry.
    replace (Z.to_nat s + i)%nat with (Z.to_nat (s + Z.of_nat i)) by lia.
    apply list_lookup_lookup_total_lt. lia.
  - rewrite !lookup_ge_None_2; [done| |rewrite length_ring; lia].
    rewrite length_take. lia.
Qed.

(** The one or two areas that an arc of [n] bytes starting at [s] needs. *)
Definition arc (m s n : Z) : list iovec :=
  if Z.eqb n 0 then [] else
  if Z.leb n (m - s) then [mkIov s n] else [mkIov s (m - s); mkIov 0 (n - (m - s))].

Lemma arc_in d m s n : 0 <= s < m -> 0 <= n <= m -> Z.of_nat (length d) = m ->
  Forall (iov_in d) (arc m s n) /\ iov_size (arc m s n) = n.
Proof.
  intros Hs Hn Hd. unfold arc, iov_in. destruct (Z.eqb_spec n 0); [by split; [constructor|]|].
  destruct (Z.leb_spec n (m - s)); simpl.
  - split; [|lia]. repeat constructor; simpl; lia.
  - split; [|lia]. repeat constructor; simpl; lia.
Qed.

Lemma gather_arc d m s n : 0 <= s < m -> 0 <= n <= m -> Z.of_nat (length d) = m ->
  gather d (arc m s n) = ring d m s (Z.to_nat n).
Proof.
  intros Hs Hn Hd. unfold arc, gather, area. destruct (Z.eqb_spec n 0) as [->|]; [done|].
  destruct (Z.leb_spec n (m - s)); simpl; rewrite app_nil_r.
  - rewrite ring_area; [done|lia..].
  - replace (Z.to_nat n) with (Z.to_nat (m - s) + Z.to_nat (n - (m - s)))%nat by lia.
    rewrite ring_app. f_equal; [symmetry; apply ring_area; lia|].
    rewrite (ring_mod d m _ 0).
    + symmetry. rewrite ring_area by lia. done.
    + rewrite Z2Nat.id by lia. replace (s + (m - s)) with (0 + 1 * m) by lia.
      by rewrite Z.mod_add by lia.
Qed.

Lemma scatter_arc d m s n bs j :
  0 <= s < m -> 0 <= n <= m -> Z.of_nat (length d) = m ->
  Z.of_nat (length bs) <= n -> 0 <= j < m ->
  scatter d (arc m s n) bs !!! Z.to_nat ((s + j) mod m) =
  if Z.ltb j (Z.of_nat (length bs)) then bs !!! Z.to_nat j
  else d !!! Z.to_nat ((s + j) mod m).
Proof.
  intros Hs Hn Hd Hb Hj.
  assert ((s + j) mod m = if Z.ltb (s + j) m then s + j else s + j - m) as Hmod.
  { destruct (Z.ltb_spec (s + j) m); [by rewrite Z.mod_small by lia|].
    replace (s + j) with (s + j - m + 1 * m) at 1 by lia.
    rewrite Z.mod_add by lia. apply Z.mod_small. lia. }
  rewrite Hmod. unfold arc. destruct (Z.eqb_spec n 0) as [->|Hn0].
  { destruct (Z.ltb_spec j (Z.of_nat (length bs))); [lia|done]. }
  destruct (Z.leb_spec n (m - s)) as [Hle|Hgt]; simpl.
  - rewrite take_ge by lia.
    destruct (Z.ltb_spec j (Z.of_nat (length bs))); destruct (Z.ltb_spec (s + j) m); try lia.
    + rewrite list_lookup_total_inserts by lia. f_equal. lia.
    + apply list_lookup_total_inserts_ge. lia.
    + apply list_lookup_total_inserts_lt. lia.
  - destruct (Z.ltb_spec (s + j) m).
    + rewrite list_lookup_total_inserts_ge.
      2: { rewrite length_take, length_drop. lia. }
      destruct (Z.ltb_spec j (Z.of_nat (length bs))).
      * rewrite list_lookup_total_inserts by (rewrite ?length_take; lia).
        replace (Z.to_nat (s + j) - Z.to_nat s)%nat with (Z.to_nat j) by lia. apply lookup_total_take_lt. lia.
      * apply list_lookup_total_inserts_ge. rewrite length_take. lia.
    + destruct (Z.ltb_spec j (Z.of_nat (length bs))).
      * rewrite list_lookup_total_inserts.
        -- rewrite take_ge by (rewrite length_drop; lia). rewrite lookup_total_drop.
           f_equal. lia.
        -- rewrite length_take, length_drop. lia.
        -- rewrite length_inserts. lia.
      * rewrite list_lookup_total_inserts_ge by (rewrite length_take, length_drop; lia).
        apply list_lookup_total_inserts_lt. lia.
Qed.

Lemma length_scatter d iov bs : length (scatter d iov bs) = length d.
Proof.
  revert d bs. induction iov as [|v iov IH]; intros d bs; simpl; [done|].
  by rewrite IH, length_inserts.
Qed.

(** ** The operations on the represented queue *)

Lemma mod_range x m : 0 < m -> 0 <= x mod m < m.
Proof. intros. apply Z.mod_pos_bound. done. Qed.

Lemma writing_arc self infl pend : ring_rep self infl pend ->
  hev_ring_buffer_writing self = arc (max_size self) (wp_ self) (max_size self - use_size self).
Proof.
  intros [Hm Hd Hrp Hwp Hrda Huse Hcap Hb].
  pose proof (mod_range (rp self + Z.of_nat (length pend)) (max_size self)) as Hw.
  rewrite <- Hwp in Hw. unfold hev_ring_buffer_writing, arc.
  destruct (Z.eqb_spec (use_size self) (max_size self)).
  - destruct (Z.eqb_spec (max_size self - use_size self) 0); [done|lia].
  - destruct (Z.eqb_spec (max_size self - use_size self) 0); [lia|].
    rewrite !(u64_id (max_size self - _)) by lia.
    destruct (Z.leb_spec (max_size self - use_size self) (max_size self - wp_ self)); [done|].
    by rewrite u64_id by lia.
Qed.

Lemma reading_arc self infl pend : ring_rep self infl pend ->
  hev_ring_buffer_reading self = arc (max_size self) (rp self) (rda_size self).
Proof.
  intros [Hm Hd Hrp Hwp Hrda Huse Hcap Hb]. unfold hev_ring_buffer_reading, arc.
  rewrite Z.eqb_sym. destruct (Z.eqb_spec (rda_size self) 0); [done|].
  rewrite !(u64_id (max_size self - _)) by lia.
  destruct (Z.leb_spec (rda_size self) (max_size self - rp self)); [done|].
  by rewrite u64_id by lia.
Qed.

(** The start of the occupied arc. *)
Definition ring_start (self : HevRingBuffer) (infl : list Z) : Z :=
  rp self - Z.of_nat (length infl).

Lemma wp_start self infl pend : ring_rep self infl pend ->
  wp_ self mod max_size self =
  (ring_start self infl + use_size self) mod max_size self.
Proof.
  intros [Hm Hd Hrp Hwp Hrda Huse Hcap Hb]. rewrite Hwp, Z.mod_mod by lia. f_equal.
  unfold ring_start. lia.
Qed.

Lemma ring_alloca s fresh : 0 < s < 2 ^ 32 -> Z.of_nat (length fresh) = s ->
  ring_rep (hev_ring_buffer_alloca s fresh) [] [].
Proof.
  intros Hs Hl. constructor; simpl; try done; try lia.
Qed.

(** Filling part of the free space. *)
Lemma ring_write self infl pend bs :
  ring_rep self infl pend ->
  Z.of_nat (length bs) <= iov_size (hev_ring_buffer_writing self) ->
  ring_rep
    (hev_ring_buffer_write_finish
       (with_data (scatter (data self) (hev_ring_buffer_writing self) bs) self)
       (Z.of_nat (length bs)))
    infl (pend ++ bs).
Proof.
  intros Hrep. rewrite (writing_arc _ _ _ Hrep). pose proof (wp_start _ _ _ Hrep) as Hws.
  pose proof Hrep as [Hm Hd Hrp Hwp Hrda Huse Hcap Hb].
  pose proof (mod_range (rp self + Z.of_nat (length pend)) (max_size self)) as Hw.
  rewrite <- Hwp in Hw. specialize (Hw (proj1 Hm)).
  destruct (arc_in (data self) (max_size self) (wp_ self) (max_size self - use_size self))
    as [_ ->]; [lia..|]. intros Hn.
  constructor; simpl; rewrite ?length_app.
  - done.
  - by rewrite length_scatter.
  - done.
  - rewrite u64_id by lia. rewrite Hwp, Z.add_mod_idemp_l by lia. f_equal. lia.
  - rewrite u64_id by lia. lia.
  - rewrite u64_id by lia. lia.
  - rewrite u64_id by lia. lia.
  - rewrite app_assoc, Hb, Nat.add_assoc, (ring_app _ _ _ (length infl + length pend) (length bs)). fold (ring_start self infl). f_equal.
    + apply ring_ext. intros i Hi. symmetry.
      set (j := Z.of_nat i + (max_size self - use_size self)).
      assert ((ring_start self infl + Z.of_nat i) mod max_size self =
        (wp_ self + j) mod max_size self) as ->.
      { rewrite <- (Z.add_mod_idemp_l (wp_ self)), Hws, Z.add_mod_idemp_l by lia.
        unfold j. replace (ring_start self infl + use_size self +
          (Z.of_nat i + (max_size self - use_size self)))
          with (ring_start self infl + Z.of_nat i + 1 * max_size self) by lia.
        by rewrite Z.mod_add by lia. }
      rewrite scatter_arc; [|lia..]. destruct (Z.ltb_spec j (Z.of_nat (length bs))); [lia|done].
    + symmetry. apply list_eq_same_length with (length bs); [done|by rewrite length_ring|].
      intros i x y Hi. rewrite ring_lookup by done. intros [= <-] Hy.
      assert ((ring_start self infl + Z.of_nat (length infl + length pend) + Z.of_nat i)
        mod max_size self = (wp_ self + Z.of_nat i) mod max_size self) as ->.
      { rewrite <- (Z.add_mod_idemp_l (wp_ self)), Hws, Z.add_mod_idemp_l by lia.
        f_equal. lia. }
      rewrite scatter_arc; [|lia..].
      destruct (Z.ltb_spec (Z.of_nat i) (Z.of_nat (length bs))); [|lia].
      rewrite Nat2Z.id. by apply list_lookup_total_correct.
Qed.

(** The areas to read hold exactly the bytes not yet handed out. *)
Lemma ring_reading self infl pend : ring_rep self infl pend ->
  gather (data self) (hev_ring_buffer_reading self) = pend /\
  iov_size (hev_ring_buffer_reading self) = Z.of_nat (length pend).
Proof.
  intros Hrep. rewrite (reading_arc _ _ _ Hrep).
  pose proof Hrep as [Hm Hd Hrp Hwp Hrda Huse Hcap Hb].
  destruct (arc_in (data self) (max_size self) (rp self) (rda_size self)) as [_ ->]; [lia..|].
  split; [|done]. rewrite gather_arc by lia. rewrite ring_app in Hb.
  apply (f_equal (drop (length infl))) in Hb.
  rewrite drop_app_length in Hb.
  rewrite drop_app_length' in Hb by (by rewrite length_ring).
  rewrite Hb, Hrda, Nat2Z.id. f_equal. lia.
Qed.

(** Handing bytes out leaves them in place, in flight. *)
Lemma ring_read_finish self infl pend size :
  ring_rep self infl pend -> 0 <= size <= Z.of_nat (length pend) ->
  ring_rep (hev_ring_buffer_read_finish self size)
    (infl ++ take (Z.to_nat size) pend) (drop (Z.to_nat size) pend).
Proof.
  intros [Hm Hd Hrp Hwp Hrda Huse Hcap Hb] Hs.
  assert (length (take (Z.to_nat size) pend) = Z.to_nat size) as Hlt
    by (rewrite length_take; lia).
  assert (length (drop (Z.to_nat size) pend) = (length pend - Z.to_nat size)%nat) as Hld
    by (rewrite length_drop; lia).
  constructor; simpl; rewrite ?length_app, ?Hlt, ?Hld; try done.
  - apply mod_range. lia.
  - rewrite u64_id by lia. rewrite Hwp, Z.add_mod_idemp_l by lia. f_equal. lia.
  - rewrite u64_id by lia. lia.
  - lia.
  - rewrite <- app_assoc, take_drop, Hb. rewrite u64_id by lia.
    replace (length infl + Z.to_nat size + (length pend - Z.to_nat size))%nat
      with (length infl + length pend)%nat by lia.
    apply ring_mod. rewrite Zminus_mod_idemp_l. f_equal. lia.
Qed.

(** Acknowledged bytes leave. *)
Lemma ring_release self infl pend size :
  ring_rep self infl pend -> 0 <= size <= Z.of_nat (length infl) ->
  ring_rep (hev_ring_buffer_read_release self size) (drop (Z.to_nat size) infl) pend.
Proof.
  intros [Hm Hd Hrp Hwp Hrda Huse Hcap Hb] Hs.
  assert (length (drop (Z.to_nat size) infl) = (length infl - Z.to_nat size)%nat) as Hld
    by (rewrite length_drop; lia).
  unfold hev_ring_buffer_read_release. rewrite u64_id by lia.
  destruct (Z.eqb_spec (use_size self - size) 0).
  - assert (pend = []) as -> by (apply length_zero_iff_nil; lia).
    assert (drop (Z.to_nat size) infl = []) as -> by (apply length_zero_iff_nil; lia).
    constructor; simpl in *; try done; try lia; by rewrite Z.mod_0_l by lia.
  - constructor; simpl; rewrite ?Hld; try done; try lia.
    replace (length infl + length pend)%nat
      with (Z.to_nat size + (length infl - Z.to_nat size + length pend))%nat in Hb by lia.
    rewrite ring_app in Hb. apply (f_equal (drop (Z.to_nat size))) in Hb.
    rewrite drop_app_le in Hb by lia.
    rewrite drop_app_length' in Hb by (by rewrite length_ring).
    rewrite Hb. f_equal. lia.
Qed.

(** A queue that is in use is well formed. *)
Lemma ring_sizes self infl pend : ring_rep self infl pend ->
  hev_ring_buffer_get_use_size self = Z.of_nat (length infl + length pend) /\
  Forall (iov_in (data self)) (hev_ring_buffer_writing self) /\
  Forall (iov_in (data self)) (hev_ring_buffer_reading self) /\
  iov_size (hev_ring_buffer_writing self) =
    hev_ring_buffer_get_max_size self - Z.of_nat (length infl + length pend).
Proof.
  intros Hrep. rewrite (writing_arc _ _ _ Hrep), (reading_arc _ _ _ Hrep).
  pose proof Hrep as [Hm Hd Hrp Hwp Hrda Huse Hcap Hb].
  pose proof (mod_range (rp self + Z.of_nat (length pend)) (max_size self)) as Hw.
  rewrite <- Hwp in Hw. specialize (Hw (proj1 Hm)).
  destruct (arc_in (data self) (max_size self) (wp_ self) (max_size self - use_size self))
    as [H1 H2]; [lia..|].
  destruct (arc_in (data self) (max_size self) (rp self) (rda_size self)) as [H3 _]; [lia..|].
  split_and!; try done. rewrite H2. unfold hev_ring_buffer_get_max_size. lia.
Qed.
