(* ===== verification/RingBufferProps.v ===== *)
(** * The ring buffer implements a two-part queue *)
From S2P Require Import Prelude CInt RingBuffer.

(** ** Abstract specification

    A queue of at most [cap] bytes in two parts: the bytes handed out but not
    yet acknowledged, and the bytes not yet handed out. *)
Record Queue := mkQueue { in_flight : list Z; pending : list Z }.

Definition q_room (cap : Z) (q : Queue) : Z :=
  cap - Z.of_nat (length (in_flight q) + length (pending q)).
Definition q_put (bs : list Z) (q : Queue) : Queue := mkQueue (in_flight q) (pending q ++ bs).
Definition q_take (n : nat) (q : Queue) : Queue :=
  mkQueue (in_flight q ++ take n (pending q)) (drop n (pending q)).
Definition q_ack (n : nat) (q : Queue) : Queue := mkQueue (drop n (in_flight q)) (pending q).

Definition implements (self : HevRingBuffer) (q : Queue) : Prop :=
  ring_rep self (in_flight q) (pending q).

(** Reading from a socket into the free areas. *)
Definition ring_readv (self : HevRingBuffer) (bs : list Z) : HevRingBuffer :=
  hev_ring_buffer_write_finish
    (with_data (scatter (data self) (hev_ring_buffer_writing self) bs) self)
    (Z.of_nat (length bs)).

(** C13: the ring buffer implements a two-part queue of [max_size] bytes.  The
    areas offered for writing lie inside the buffer and have exactly the room
    that is left; storing bytes there and finishing the write appends them to
    the pending part and leaves every byte in flight as it is, wrapped or not.
    The areas offered for reading lie inside the buffer and hold exactly the
    pending bytes in order.  Finishing a read moves bytes to the part in
    flight, and only releasing them gives their room back. *)
Theorem ring_refines_queue self q bs n k :
  implements self q ->
  Z.of_nat (length bs) <= q_room (max_size self) q ->
  (n <= length (pending q))%nat -> (k <= length (in_flight q))%nat ->
  (Forall (iov_in (data self)) (hev_ring_buffer_writing self) /\
   iov_size (hev_ring_buffer_writing self) = q_room (max_size self) q /\
   implements (ring_readv self bs) (q_put bs q)) /\
  (Forall (iov_in (data self)) (hev_ring_buffer_reading self) /\
   gather (data self) (hev_ring_buffer_reading self) = pending q) /\
  implements (hev_ring_buffer_read_finish self (Z.of_nat n)) (q_take n q) /\
  implements (hev_ring_buffer_read_release self (Z.of_nat k)) (q_ack k q).
Proof.
  intros Hq Hbs Hn Hk. destruct (ring_sizes _ _ _ Hq) as (_ & Hw & Hr & Hs).
  split_and!; try done.
  - apply ring_write; [done|]. rewrite Hs. done.
  - by apply (ring_reading _ _ _ Hq).
  - unfold implements, q_take. rewrite <- (Nat2Z.id n). simpl.
    rewrite Nat2Z.id at 1. apply ring_read_finish; [done|lia].
  - unfold implements, q_ack. rewrite <- (Nat2Z.id k). simpl.
    rewrite Nat2Z.id at 1. apply ring_release; [done|lia].
Qed.

(** A full buffer of eight bytes that has wrapped around: two bytes in flight,
    four pending, and room for two. *)
Definition demo_ring : HevRingBuffer :=
  ring_readv
    (hev_ring_buffer_read_finish
      (hev_ring_buffer_read_release
        (hev_ring_buffer_read_finish
          (ring_readv (hev_ring_buffer_alloca 8 (repeat 255 8)) [1; 2; 3; 4; 5; 6]) 6) 4) 0)
    [7; 8; 9; 10].

Definition demo_queue : Queue := mkQueue [5; 6] [7; 8; 9; 10].

Lemma ring_refines_queue_witness :
  implements (ring_readv demo_ring [11; 12]) (mkQueue [5; 6] [7; 8; 9; 10; 11; 12]) /\
  hev_ring_buffer_writing demo_ring = [mkIov 2 2].
Proof.
  split; [|reflexivity].
  assert (implements demo_ring demo_queue) as Hq.
  { constructor; vm_compute; (split; congruence) || congruence. }
  apply (ring_refines_queue demo_ring demo_queue [11; 12] 4 1 Hq); vm_compute; congruence || lia.
Defined.
