(* ===== verification/Splice.v ===== *)
(** * Relaying between two pairs of descriptors (task library,
      lib/io/basic/hev-task-io.c; core/src/hev-socks5-tcp.c)

    A direction reads from one descriptor into a spool and writes the spool to
    another one.  The spool is a kernel pipe (ENABLE_IO_SPLICE_SYSCALL, on Linux)
    or a circular buffer: the two branches of the #ifdef are instances of a
    class.  What the kernel answers is an argument of each turn. *)
From S2P Require Import Prelude CInt RingBuffer.

(** * The circular buffer (lib/io/buffer/hev-circular-buffer.c)

    It is the ring buffer of RingBuffer without bytes in flight and with its
    write position computed; [iovec] and the arcs are shared with it. *)

Record HevCircularBuffer := mkCirc {
  c_rp : Z;
  c_use_size : Z;
  c_max_size : Z;
  c_ref_count : Z;
  c_data : list Z;
}.

(** [alloc]: the bytes of the allocated memory, if there is any. *)
Definition hev_circular_buffer_new (max_size : Z) (alloc : option (list Z)) : option HevCircularBuffer :=
  d ← alloc; Some (mkCirc 0 0 max_size 1 d).

Definition hev_circular_buffer_ref (self : HevCircularBuffer) : HevCircularBuffer :=
  mkCirc (c_rp self) (c_use_size self) (c_max_size self) (u32 (c_ref_count self + 1)) (c_data self).

(** [None]: the memory is given back. *)
Definition hev_circular_buffer_unref (self : HevCircularBuffer) : option HevCircularBuffer :=
  let n := u32 (c_ref_count self - 1) in
  if negb (Z.eqb n 0)
  then Some (mkCirc (c_rp self) (c_use_size self) (c_max_size self) n (c_data self)) else None.

Definition hev_circular_buffer_get_max_size (self : HevCircularBuffer) : Z := c_max_size self.
Definition hev_circular_buffer_get_use_size (self : HevCircularBuffer) : Z := c_use_size self.

Definition hev_circular_buffer_reading (self : HevCircularBuffer) : list iovec :=
  let upper_size := u64 (c_max_size self - c_rp self) in
  if Z.eqb 0 (c_use_size self) then [] else
  if Z.leb (c_use_size self) upper_size then [mkIov (c_rp self) (c_use_size self)]
  else [mkIov (c_rp self) upper_size; mkIov 0 (u64 (c_use_size self - upper_size))].

Definition hev_circular_buffer_read_finish (self : HevCircularBuffer) (size : Z) : HevCircularBuffer :=
  mkCirc (u64 (c_rp self + size) mod c_max_size self) (u64 (c_use_size self - size))
    (c_max_size self) (c_ref_count self) (c_data self).

Definition hev_circular_buffer_writing (self : HevCircularBuffer) : list iovec :=
  let wp := u64 (c_rp self + c_use_size self) mod c_max_size self in
  let upper_size := u64 (c_max_size self - wp) in
  let spc_size := u64 (c_max_size self - c_use_size self) in
  if Z.eqb (c_use_size self) (c_max_size self) then [] else
  if Z.leb spc_size upper_size then [mkIov wp spc_size]
  else [mkIov wp upper_size; mkIov 0 (u64 (spc_size - upper_size))].

Definition hev_circular_buffer_write_finish (self : HevCircularBuffer) (size : Z) : HevCircularBuffer :=
  mkCirc (c_rp self) (u64 (c_use_size self + size)) (c_max_size self) (c_ref_count self) (c_data self).

(** ** The queue that it implements *)

(** The ring buffer with the same bytes. *)
Definition as_ring (self : HevCircularBuffer) : HevRingBuffer :=
  mkRing (c_rp self) ((c_rp self + c_use_size self) mod c_max_size self) (c_use_size self)
    (c_use_size self) (c_max_size self) (c_data self).

Definition circ_rep (self : HevCircularBuffer) (q : list Z) : Prop := ring_rep (as_ring self) [] q.

(** [readv] into the areas, and the bytes counted. *)
Definition circ_readv (self : HevCircularBuffer) (bs : list Z) : HevCircularBuffer :=
  hev_circular_buffer_write_finish
    (mkCirc (c_rp self) (c_use_size self) (c_max_size self) (c_ref_count self)
       (scatter (c_data self) (hev_circular_buffer_writing self) bs))
    (Z.of_nat (length bs)).

Lemma circ_reading self : hev_circular_buffer_reading self = hev_ring_buffer_reading (as_ring self).
Proof. done. Qed.

Lemma circ_writing self q : circ_rep self q ->
  hev_circular_buffer_writing self = hev_ring_buffer_writing (as_ring self).
Proof.
  intros [Hm Hd Hrp Hwp Hrda Huse Hcap _]. simpl in *. unfold hev_circular_buffer_writing, hev_ring_buffer_writing.
  simpl. rewrite (u64_id (c_rp self + _)) by lia. done.
Qed.

Lemma circ_new s d : 0 < s < 2 ^ 32 -> Z.of_nat (length d) = s ->
  exists self, hev_circular_buffer_new s (Some d) = Some self /\ circ_rep self [].
Proof.
  intros Hs Hd. eexists. split; [done|]. constructor; simpl; try done; try lia.
Qed.

(** The areas for writing lie inside the buffer and have its free room. *)
Lemma circ_room self q : circ_rep self q ->
  Forall (iov_in (c_data self)) (hev_circular_buffer_writing self) /\
  iov_size (hev_circular_buffer_writing self) = c_max_size self - Z.of_nat (length q).
Proof.
  intros H. rewrite (circ_writing _ _ H), (writing_arc _ _ _ H).
  destruct H as [Hm Hd Hrp Hwp Hrda Huse Hcap _]. simpl in *.
  destruct (arc_in (c_data self) (c_max_size self) ((c_rp self + c_use_size self) mod c_max_size self)
    (c_max_size self - c_use_size self)) as [H1 H2]; [apply mod_range; lia|lia|done|].
  split; [done|]. rewrite H2. lia.
Qed.

Lemma circ_write self q bs : circ_rep self q ->
  Z.of_nat (length bs) <= iov_size (hev_circular_buffer_writing self) ->
  circ_rep (circ_readv self bs) (q ++ bs).
Proof.
  intros H Hb. rewrite (circ_writing _ _ H) in Hb. pose proof (ring_write _ _ _ bs H Hb) as H'.
  pose proof (circ_room _ _ H) as [_ Hroom]. rewrite (circ_writing _ _ H) in Hroom.
  assert (as_ring (circ_readv self bs) = hev_ring_buffer_write_finish
    (with_data (scatter (data (as_ring self)) (hev_ring_buffer_writing (as_ring self)) bs) (as_ring self))
    (Z.of_nat (length bs))) as E; [|unfold circ_rep; by rewrite E].
  pose proof H as [Hm Hd Hrp Hwp Hrda Huse Hcap _]. simpl in *.
  unfold as_ring, circ_readv, hev_circular_buffer_write_finish, hev_ring_buffer_write_finish. simpl.
  rewrite (circ_writing _ _ H).
  assert (0 <= (c_rp self + c_use_size self) mod c_max_size self < c_max_size self) by (apply mod_range; lia).
  rewrite !u64_id by lia. f_equal. rewrite Z.add_mod_idemp_l by lia. f_equal. lia.
Qed.

(** The areas for reading hold the queue. *)
Lemma circ_bytes self q : circ_rep self q ->
  gather (c_data self) (hev_circular_buffer_reading self) = q /\
  (hev_circular_buffer_reading self = [] <-> q = []).
Proof.
  intros H. destruct (ring_reading _ _ _ H) as [E _]. split; [exact E|].
  rewrite circ_reading, (reading_arc _ _ _ H). destruct H as [Hm Hd Hrp Hwp Hrda Huse Hcap _]. simpl in *.
  unfold arc. destruct (Z.eqb_spec (c_use_size self) 0) as [E0|E0].
  - split; [|done]. intros _. apply length_zero_iff_nil. lia.
  - split; [destruct (Z.leb _ _); done|]. intros ->. simpl in *. lia.
Qed.

Lemma circ_read self q n : circ_rep self q -> (n <= length q)%nat ->
  circ_rep (hev_circular_buffer_read_finish self (Z.of_nat n)) (drop n q).
Proof.
  intros [Hm Hd Hrp Hwp Hrda Huse Hcap Hb] Hn. simpl in *. rewrite Z.sub_0_r in Hb.
  constructor; simpl; rewrite ?length_drop; try done.
  - apply mod_range. lia.
  - rewrite !u64_id by lia. f_equal. lia.
  - rewrite u64_id by lia. lia.
  - rewrite u64_id by lia. lia.
  - rewrite u64_id by lia. lia.
  - rewrite u64_id, Z.sub_0_r by lia. replace (length q) with (n + (length q - n))%nat in Hb by lia.
    rewrite ring_app in Hb. rewrite Hb at 1. rewrite drop_app_length' by (by rewrite length_ring).
    apply ring_mod. by rewrite Z.mod_mod by lia.
Qed.

(** * The relay *)

(** ** The kernel's answers *)

(** A read of up to as many bytes as there is room for; the rest stays there. *)
Inductive IEvent := IData (bs : list Z) | IEof | IAgain | IErr.
(** A write that takes at most [S n] bytes. *)
Inductive OEvent := OTake (n : nat) | OAgain | OErr.

(** A direction; [got], [sent] and [shut] record what happened to the
    descriptors: bytes read and written, [shutdown (SHUT_WR)]. *)
Record Dir (B : Type) := mkDir { spool : B; got : list Z; sent : list Z; shut : bool }.
Arguments mkDir {B}. Arguments spool {B}. Arguments got {B}. Arguments sent {B}. Arguments shut {B}.

Definition d_read {B} (b : B) (bs : list Z) (d : Dir B) : Dir B := mkDir b (got d ++ bs) (sent d) (shut d).
Definition d_write {B} (b : B) (bs : list Z) (d : Dir B) : Dir B := mkDir b (got d) (sent d ++ bs) (shut d).
Definition d_shutdown {B} (d : Dir B) : Dir B := mkDir (spool d) (got d) (sent d) true.

(** ** With a circular buffer *)

Definition task_io_splice_buffer (i : IEvent) (o : OEvent) (d : Dir HevCircularBuffer)
  : Dir HevCircularBuffer * Z :=
  let iov := hev_circular_buffer_writing (spool d) in
  let '(d, res) :=
    if decide (iov = []) then (d, 1) else
    match i with
    | IData bs =>
        let bs := take (Z.to_nat (iov_size iov)) bs in
        if decide (bs = []) then (d, -1) else (d_read (circ_readv (spool d) bs) bs d, 1)
    | IAgain => (d, 0)
    | IEof | IErr => (d, -1)
    end in
  let iov := hev_circular_buffer_reading (spool d) in
  if decide (iov <> []) then
    match o with
    | OTake n =>
        let bs := take (S n) (gather (c_data (spool d)) iov) in
        (d_write (hev_circular_buffer_read_finish (spool d) (Z.of_nat (length bs))) bs d, 1)
    | OAgain => (d, 0)
    | OErr => (d, -1)
    end
  else if Z.ltb res 0 then (d_shutdown d, res) else (d, res).

(** ** With a pipe *)

(** [HevTaskIOSplicer]; [p_bytes] and [p_cap]: the kernel's pipe. *)
Record Pipe := mkPipe { p_fd0 : Z; p_fd1 : Z; wlen : Z; blen : Z; p_bytes : list Z; p_cap : Z }.

Definition pipe_put (bs : list Z) (p : Pipe) : Pipe :=
  mkPipe (p_fd0 p) (p_fd1 p) (u64 (wlen p + Z.of_nat (length bs))) (blen p) (p_bytes p ++ bs) (p_cap p).
Definition pipe_get (n : nat) (p : Pipe) : Pipe :=
  mkPipe (p_fd0 p) (p_fd1 p) (u64 (wlen p - Z.of_nat n)) (blen p) (drop n (p_bytes p)) (p_cap p).
Definition pipe_room (p : Pipe) : Z := p_cap p - Z.of_nat (length (p_bytes p)).

Definition task_io_splice_pipe (i : IEvent) (o : OEvent) (d : Dir Pipe) : Dir Pipe * Z :=
  let '(d, res) :=
    match i with
    | IData bs =>
        if Z.leb (pipe_room (spool d)) 0 then (d, 0) else
        let bs := take (Z.to_nat (Z.min (blen (spool d)) (pipe_room (spool d)))) bs in
        if decide (bs = []) then (d, -1) else (d_read (pipe_put bs (spool d)) bs d, 1)
    | IAgain => (d, 0)
    | IEof | IErr => (d, -1)
    end in
  if negb (Z.eqb (wlen (spool d)) 0) then
    match o with
    | OTake n =>
        let bs := take (S n) (take (Z.to_nat (blen (spool d))) (p_bytes (spool d))) in
        if decide (bs = []) then (d, -1) else
        (d_write (pipe_get (length bs) (spool d)) bs d, 1)
    | OAgain => (d, 0)
    | OErr => (d, -1)
    end
  else if Z.ltb res 0 then (d_shutdown d, res) else (d, res).

(** ** What the relay needs of either *)

(** [sp_init] may fail; it tells what it has taken and given back already. *)
Class Splicer (B : Type) := {
  sp_events : Type;
  sp_init : sp_events -> option B * list Z * list Z;
  sp_fini : B -> list Z;
  sp_splice : IEvent -> OEvent -> Dir B -> Dir B * Z;
}.

(** [task_io_splicer_init] and [_fini] with a buffer: [hev_malloc]'s block, if any. *)
Record BufAlloc := mkBufAlloc { ba_addr : Z; ba_size : Z; ba_bytes : list Z }.
#[export] Instance splicer_buffer : Splicer (Z * HevCircularBuffer) := {
  sp_events := option BufAlloc;
  sp_init := fun e =>
    match e with
    | Some a => match hev_circular_buffer_new (ba_size a) (Some (ba_bytes a)) with
        | Some b => (Some (ba_addr a, b), [ba_addr a], [])
        | None => (None, [], [])
        end
    | None => (None, [], [])
    end;
  sp_fini := fun b =>
    match hev_circular_buffer_unref b.2 with None => [b.1] | Some _ => [] end;
  sp_splice := fun i o d =>
    let '(d', res) := task_io_splice_buffer i o (mkDir (spool d).2 (got d) (sent d) (shut d)) in
    (mkDir ((spool d).1, spool d') (got d') (sent d') (shut d'), res);
}.

(** [pipe2], the two [hev_task_add_fd] and [F_GETPIPE_SZ]. *)
Record PipeEvents := mkPipeEvents {
  pe_fds : option (Z * Z); pe_add0 : bool; pe_add1 : bool; pe_size : Z; pe_cap : Z }.

Definition task_io_splicer_init_pipe (e : PipeEvents) : option Pipe * list Z * list Z :=
  match pe_fds e with
  | None => (None, [], [])
  | Some (r, w) =>
      if negb (pe_add0 e) then (None, [r; w], [r; w]) else
      if negb (pe_add1 e) then (None, [r; w], [r; w]) else
      (Some (mkPipe r w 0 (pe_size e) [] (pe_cap e)), [r; w], [])
  end.

#[export] Instance splicer_pipe : Splicer Pipe := {
  sp_events := PipeEvents;
  sp_init := task_io_splicer_init_pipe;
  sp_fini := fun p => [p_fd0 p; p_fd1 p];
  sp_splice := task_io_splice_pipe;
}.

(** ** The relay *)

Record Turn := mkTurn { t_if : IEvent; t_of : OEvent; t_ib : IEvent; t_ob : OEvent; t_stop : bool }.

Inductive YieldType := SP_YIELD | SP_WAITIO | SP_BREAK.
Inductive SpliceEnd := Relaying | Broken | Stopped.

Section relay.
Context {B : Type} `{Splicer B}.

Record Relay := mkRelay { dir_f : Dir B; dir_b : Dir B; res_f : Z; res_b : Z }.

Definition splice_dir (i : IEvent) (o : OEvent) (d : Dir B) (res : Z) : Dir B * Z :=
  if Z.leb 0 res then sp_splice i o d else (d, res).

(** The loop's body up to its yield. *)
Definition splice_turn (t : Turn) (s : Relay) : Relay * YieldType :=
  let '(f, rf) := splice_dir (t_if t) (t_of t) (dir_f s) (res_f s) in
  let '(b, rb) := splice_dir (t_ib t) (t_ob t) (dir_b s) (res_b s) in
  (mkRelay f b rf rb,
   if (Z.ltb 0 rf || Z.ltb 0 rb)%bool then SP_YIELD
   else if Z.eqb (Z.land rf rb) 0 then SP_WAITIO else SP_BREAK).

Fixpoint splice_loop (ts : list Turn) (s : Relay) : Relay * SpliceEnd :=
  match ts with
  | [] => (s, Relaying)
  | t :: ts =>
      let '(s, type) := splice_turn t s in
      match type with
      | SP_BREAK => (s, Broken)
      | _ => if t_stop t then (s, Stopped) else splice_loop ts s
      end
  end.

Definition new_dir (b : B) : Dir B := mkDir b [] [] false.

(** The end of the relay, if it began, and what was taken and given back. *)
Definition hev_task_io_splice (ef eb : sp_events) (ts : list Turn)
  : option (Relay * SpliceEnd) * list Z * list Z :=
  let '(f, taken, given) := sp_init ef in
  match f with
  | None => (None, taken, given)
  | Some f =>
      let '(b, taken_b, given_b) := sp_init eb in
      match b with
      | None => (None, taken ++ taken_b, given ++ given_b ++ sp_fini f)
      | Some b =>
          let '(s, e) := splice_loop ts (mkRelay (new_dir f) (new_dir b) 1 1) in
          (Some (s, e), taken ++ taken_b,
           given ++ given_b ++ sp_fini (spool (dir_b s)) ++ sp_fini (spool (dir_f s)))
      end
  end.

(** core/src/hev-socks5-tcp.c: [cfd] is the client's descriptor; [add_ok]: the
    other one was not watched yet, else its watch is changed. *)
Definition hev_socks5_tcp_splicer (cfd fd : Z) (add_ok : bool) (ef eb : sp_events) (ts : list Turn)
  : option (Relay * SpliceEnd) * list Z * list Z * Z :=
  if Z.ltb cfd 0 then (None, [], [], -1) else
  let '(r, taken, given) := hev_task_io_splice ef eb ts in (r, taken, given, 0).

End relay.
Arguments Relay : clear implicits.
