(* ===== verification/SpliceProps.v ===== *)
(** * What the relay delivers

    Both spools obey the same laws, [SplicerOk]; everything about the relay is
    proved from the laws alone. *)
From S2P Require Import Prelude CInt RingBuffer Splice.

(** ** The laws *)

(** The peer has closed, or reading from it failed: a read gives no byte. *)
Definition ended (i : IEvent) : Prop :=
  match i with IData bs => bs = [] | IAgain => False | IEof | IErr => True end.

(** One call of [task_io_splice]; [h] and [h'] are the bytes in the spool. *)
Record splice_law {B} (i : IEvent) (o : OEvent) (h : list Z) (d : Dir B) (h' : list Z) (d' : Dir B) (res : Z)
  : Prop := {
  sl_moved : exists ins outs, got d' = got d ++ ins /\ sent d' = sent d ++ outs /\
    h ++ ins = outs ++ h' /\ (0 < res -> outs <> []);
  sl_shut : shut d' = true -> shut d = true \/ h' = [] /\ res = -1 /\ ended i;
  sl_wait : res = 0 -> o = OAgain /\ h' <> [] \/ i = IAgain /\ h' = [];
  sl_end : res < 0 -> res = -1 /\ (o = OErr \/ ended i /\ h' = [] /\ shut d' = true);
}.

Class SplicerOk (B : Type) `{Splicer B} := {
  sp_ok : B -> Prop;
  sp_held : B -> list Z;
  sp_possible : sp_events -> Prop;
  sp_init_ok e : sp_possible e ->
    match sp_init e with
    | (Some b, taken, given) => sp_ok b /\ sp_held b = [] /\ given ++ sp_fini b ≡ₚ taken
    | (None, taken, given) => given ≡ₚ taken
    end;
  sp_splice_ok i o d d' res : sp_splice i o d = (d', res) -> sp_ok (spool d) ->
    sp_ok (spool d') /\ sp_fini (spool d') = sp_fini (spool d) /\
    splice_law i o (sp_held (spool d)) d (sp_held (spool d')) d' res;
}.

(** ** One call is a read, then a write *)

Record read_law {B} (i : IEvent) (h : list Z) (d : Dir B) (h1 : list Z) (d1 : Dir B) (r : Z) : Prop := {
  rl_got : exists ins, got d1 = got d ++ ins /\ h1 = h ++ ins;
  rl_sent : sent d1 = sent d;
  rl_shut : shut d1 = shut d;
  rl_res : r = 1 /\ h1 <> [] \/ r = 0 /\ (i = IAgain \/ h1 <> []) \/ r = -1 /\ ended i;
}.

Inductive write_law {B} (o : OEvent) (h1 : list Z) (d1 : Dir B) (r : Z) : list Z -> Dir B -> Z -> Prop :=
  | WL_idle : h1 = [] -> 0 <= r -> write_law o h1 d1 r [] d1 r
  | WL_close : h1 = [] -> r < 0 -> write_law o h1 d1 r [] (d_shutdown d1) r
  | WL_again : h1 <> [] -> o = OAgain -> write_law o h1 d1 r h1 d1 0
  | WL_err : h1 <> [] -> o = OErr -> write_law o h1 d1 r h1 d1 (-1)
  | WL_out outs h' b : outs <> [] -> h1 = outs ++ h' -> write_law o h1 d1 r h' (d_write b outs d1) 1.

Lemma read_then_write {B} i o (h h1 h' : list Z) (d d1 d' : Dir B) r res :
  read_law i h d h1 d1 r -> write_law o h1 d1 r h' d' res -> splice_law i o h d h' d' res.
Proof.
  intros [(ins & Hg & Hh) Hs Hsh Hr] W.
  destruct W as [E Hr0|E Hr0|E Ho|E Ho|outs h' b E E']; constructor; simpl; rewrite ?Hs, ?Hsh.
  all: try (intros ?; lia).
  - exists ins, []. rewrite app_nil_r, <- Hh, E. split_and!; [done..|]. intros. destruct Hr as [[_ ?]|[[? _]|[? _]]]; [done|lia..].
  - by left.
  - intros ->. right. destruct Hr as [[? _]|[[_ [?|?]]|[? _]]]; [lia|done|done|lia].
  - exists ins, []. rewrite app_nil_r, <- Hh, E. split_and!; [done..|]. lia.
  - intros _. right. destruct Hr as [[? _]|[[? _]|[? ?]]]; [lia..|done].
  - intros _. destruct Hr as [[? _]|[[? _]|[-> ?]]]; [lia..|]. split; [done|]. by right.
  - exists ins, []. rewrite app_nil_r, <- Hh. split_and!; [done..|]. lia.
  - by left.
  - by left.
  - exists ins, []. rewrite app_nil_r, <- Hh. split_and!; [done..|]. lia.
  - by left.
  - split; [done|]. by left.
  - exists ins, outs. rewrite <- Hh. done.
  - by left.
Qed.

(** ** The circular buffer obeys the laws *)

Lemma take_length_drop {A} n (l : list A) : l = take n l ++ drop (length (take n l)) l.
Proof.
  rewrite length_take. destruct (Nat.min_spec n (length l)) as [[_ ->]|[Hl ->]]; [by rewrite take_drop|].
  rewrite take_ge, drop_all by lia. by rewrite app_nil_r.
Qed.

(** There is no area to write to exactly when the buffer is full. *)
Lemma writing_room self q : circ_rep self q ->
  let l := hev_circular_buffer_writing self in
  0 <= iov_size l /\ (l = [] -> q <> []) /\ (l <> [] -> 0 < iov_size l).
Proof.
  intros H. pose proof (circ_room _ _ H) as [_ Hr]. simpl. rewrite Hr.
  destruct H as [Hm _ _ _ _ Hu Hcap _]. simpl in *. split_and!; [lia| |].
  - intros E. rewrite E in Hr. simpl in Hr. intros ->. simpl in Hr. lia.
  - unfold hev_circular_buffer_writing. destruct (Z.eqb_spec (c_use_size self) (c_max_size self)); [done|]. lia.
Qed.

(** The call's first half. *)
Definition buffer_read (i : IEvent) (d : Dir HevCircularBuffer) : Dir HevCircularBuffer * Z :=
  let iov := hev_circular_buffer_writing (spool d) in
  if decide (iov = []) then (d, 1) else
  match i with
  | IData bs =>
      let bs := take (Z.to_nat (iov_size iov)) bs in
      if decide (bs = []) then (d, -1) else (d_read (circ_readv (spool d) bs) bs d, 1)
  | IAgain => (d, 0)
  | IEof | IErr => (d, -1)
  end.

Lemma read_nothing {B} i h (d : Dir B) r :
  r = 1 /\ h <> [] \/ r = 0 /\ (i = IAgain \/ h <> []) \/ r = -1 /\ ended i -> read_law i h d h d r.
Proof. intros Hr. constructor; [exists []; by rewrite !app_nil_r|done..]. Qed.

Lemma buffer_read_ok q i (d d1 : Dir HevCircularBuffer) r :
  buffer_read i d = (d1, r) -> circ_rep (spool d) q ->
  exists q1, circ_rep (spool d1) q1 /\ c_ref_count (spool d1) = c_ref_count (spool d) /\ read_law i q d q1 d1 r.
Proof.
  intros E H. unfold buffer_read in E. destruct (writing_room _ _ H) as (H0 & Hnil & Hpos).
  destruct (decide _) as [En|En]; [|specialize (Hpos En); destruct i as [bs| | |]; [destruct (decide _) as [Eb|Eb]|..]];
    injection E as <- <-.
  3: { set (bs' := take _ bs) in *. exists (q ++ bs'). split_and!; [|done|].
    - apply circ_write; [done|]. subst bs'. rewrite length_take. lia.
    - constructor; simpl; [by exists bs'|done..|]. left. split; [done|]. by destruct q, bs'. }
  all: exists q; split_and!; [done..|]; apply read_nothing; simpl; auto.
  right; right. split; [done|]. destruct bs; [done|].
  destruct (Z.to_nat _) eqn:En'; [lia|done].
Qed.

Lemma buffer_splice_ok q i o (d d' : Dir HevCircularBuffer) res :
  task_io_splice_buffer i o d = (d', res) -> circ_rep (spool d) q ->
  exists q', circ_rep (spool d') q' /\ c_ref_count (spool d') = c_ref_count (spool d) /\
    splice_law i o q d q' d' res.
Proof.
  intros E H. unfold task_io_splice_buffer in E. fold (buffer_read i d) in E.
  destruct (buffer_read i d) as [d1 r] eqn:E1.
  destruct (buffer_read_ok _ _ _ _ _ E1 H) as (q1 & H1 & <- & L1).
  pose proof (circ_bytes _ _ H1) as [Hg Hn]. rewrite Hg in E.
  destruct (decide _) as [Ei|Ei].
  - assert (q1 <> []) by (intros ->; by apply Ei, Hn). destruct o as [n| |].
    + injection E as <- <-. set (bs := take (S n) q1).
      assert (length bs <= length q1)%nat by (subst bs; rewrite length_take; lia).
      exists (drop (length bs) q1). split_and!; [by apply circ_read|done|].
      eapply read_then_write; [done|]. apply WL_out; [subst bs; by destruct q1|].
      apply take_length_drop.
    + injection E as <- <-. exists q1. split_and!; [done..|]. eapply read_then_write; [done|]. by apply WL_again.
    + injection E as <- <-. exists q1. split_and!; [done..|]. eapply read_then_write; [done|]. by apply WL_err.
  - assert (q1 = []) as -> by (apply Hn; destruct (decide (hev_circular_buffer_reading (spool d1) = [])); tauto).
    destruct (Z.ltb_spec r 0) as [Hr|Hr]; injection E as <- <-; exists [];
      (split_and!; [done..|]); (eapply read_then_write; [done|]); by constructor.
Qed.

(** [hev_malloc]'s block has the size asked for; the only reference is the relay's. *)
#[export] Instance splicer_buffer_ok : SplicerOk (Z * HevCircularBuffer).
Proof.
  refine {|
    sp_ok := fun b => circ_rep b.2 (gather (c_data b.2) (hev_circular_buffer_reading b.2)) /\ c_ref_count b.2 = 1;
    sp_held := fun b => gather (c_data b.2) (hev_circular_buffer_reading b.2);
    sp_possible := fun e => match e with
      | Some a => 0 < ba_size a < 2 ^ 32 /\ Z.of_nat (length (ba_bytes a)) = ba_size a
      | None => True
      end |}.
  - intros [a|] Ha; [|simpl; done]. destruct Ha as [Hs Hl]. simpl.
    destruct (circ_new _ _ Hs Hl) as (self & [= <-] & Hrep). by split_and!.
  - intros i o d d' res E [H Hr]. simpl in E. destruct (task_io_splice_buffer _ _ _) as [d1 r] eqn:E1.
    injection E as <- <-. destruct (buffer_splice_ok _ _ _ _ _ _ E1 H) as (q' & H' & R & L). simpl in *.
    rewrite (proj1 (circ_bytes _ _ H')). split_and!; [done|congruence| |].
    + unfold hev_circular_buffer_unref. rewrite R. by destruct (negb _).
    + destruct L. constructor; done.
Defined.

(** ** The pipe obeys them *)

Record pipe_ok (p : Pipe) : Prop := {
  po_wlen : wlen p = Z.of_nat (length (p_bytes p));
  po_blen : 0 < blen p;
  po_cap : Z.of_nat (length (p_bytes p)) <= p_cap p < 2 ^ 31;
}.

(** The call's first half. *)
Definition pipe_read (i : IEvent) (d : Dir Pipe) : Dir Pipe * Z :=
  match i with
  | IData bs =>
      if Z.leb (pipe_room (spool d)) 0 then (d, 0) else
      let bs := take (Z.to_nat (Z.min (blen (spool d)) (pipe_room (spool d)))) bs in
      if decide (bs = []) then (d, -1) else (d_read (pipe_put bs (spool d)) bs d, 1)
  | IAgain => (d, 0)
  | IEof | IErr => (d, -1)
  end.

Lemma pipe_read_ok i (d d1 : Dir Pipe) r : pipe_read i d = (d1, r) ->
  pipe_ok (spool d) -> 0 < p_cap (spool d) ->
  pipe_ok (spool d1) /\ p_cap (spool d1) = p_cap (spool d) /\ sp_fini (spool d1) = sp_fini (spool d) /\
  read_law i (p_bytes (spool d)) d (p_bytes (spool d1)) d1 r.
Proof.
  intros E [Hw Hb Hc] Hcap. unfold pipe_read, pipe_room in E.
  destruct i as [bs| | |]; [destruct (Z.leb_spec (p_cap (spool d) - Z.of_nat (length (p_bytes (spool d)))) 0);
    [|destruct (decide _) as [Eb|Eb]]|..]; injection E as <- <-.
  3: { set (bs' := take _ bs) in *. split_and!; [|done..|].
    - assert (Z.of_nat (length bs') <= p_cap (spool d) - Z.of_nat (length (p_bytes (spool d))))
        by (subst bs'; rewrite length_take; lia).
      constructor; simpl; rewrite ?length_app; [rewrite u64_id; lia|done|lia].
    - constructor; simpl; [by exists bs'|done..|]. left. split; [done|]. by destruct (p_bytes (spool d)), bs'. }
  all: split_and!; [by constructor|done..|]; apply read_nothing; simpl; auto.
  - right; left. split; [done|]. right. intros E. rewrite E in *. simpl in *. lia.
  - right; right. split; [done|]. destruct bs; [done|]. destruct (Z.to_nat _) eqn:?; [lia|done].
Qed.

Lemma pipe_splice_ok i o (d d' : Dir Pipe) res : task_io_splice_pipe i o d = (d', res) ->
  pipe_ok (spool d) -> 0 < p_cap (spool d) ->
  pipe_ok (spool d') /\ p_cap (spool d') = p_cap (spool d) /\ sp_fini (spool d') = sp_fini (spool d) /\
  splice_law i o (p_bytes (spool d)) d (p_bytes (spool d')) d' res.
Proof.
  intros E H Hcap. unfold task_io_splice_pipe in E. fold (pipe_read i d) in E.
  destruct (pipe_read i d) as [d1 r] eqn:E1.
  destruct (pipe_read_ok _ _ _ _ E1 H Hcap) as ([Hw Hb Hc] & <- & <- & L). clear E1 H.
  destruct (Z.eqb_spec (wlen (spool d1)) 0) as [E0|E0]; simpl in E.
  - assert (p_bytes (spool d1) = []) as En by (apply length_zero_iff_nil; lia).
    destruct (Z.ltb_spec r 0); injection E as <- <-; simpl; (split_and!; [done..|]);
      (eapply read_then_write; [done|]); rewrite En; by constructor.
  - assert (p_bytes (spool d1) <> []) as En by (intros En; rewrite En in Hw; done).
    destruct o as [n| |].
    + rewrite take_take in E. set (bs := take _ (p_bytes (spool d1))) in E.
      assert (length bs <= length (p_bytes (spool d1)))%nat by (subst bs; rewrite length_take; lia).
      assert (bs <> []).
      { subst bs. destruct (p_bytes (spool d1)); [done|]. destruct (Nat.min _ _) eqn:?; [lia|done]. }
      destruct (decide _); [done|]. injection E as <- <-. simpl. split_and!; [|done..|].
      * constructor; simpl; rewrite ?length_drop; [rewrite u64_id; lia|done|lia].
      * eapply read_then_write; [done|]. apply WL_out; [done|]. subst bs. apply take_length_drop.
    + injection E as <- <-. split_and!; [done..|]. eapply read_then_write; [done|]. by apply WL_again.
    + injection E as <- <-. split_and!; [done..|]. eapply read_then_write; [done|]. by apply WL_err.
Qed.

#[export] Instance splicer_pipe_ok : SplicerOk Pipe.
Proof.
  refine {|
    sp_ok := fun p => pipe_ok p /\ 0 < p_cap p;
    sp_held := p_bytes;
    sp_possible := fun e => 0 < pe_size e /\ 0 < pe_cap e < 2 ^ 31 |}.
  - intros e [Hs Hc]. simpl. unfold task_io_splicer_init_pipe. destruct (pe_fds e) as [[x y]|]; [|simpl; done].
    destruct (pe_add0 e); [|simpl; done]. destruct (pe_add1 e); [|simpl; done]. simpl. split_and!; try done; [|lia].
    constructor; simpl; lia.
  - intros i o d d' res E [H Hc]. destruct (pipe_splice_ok _ _ _ _ _ E H Hc) as (? & E' & ? & ?).
    rewrite E'. done.
Defined.

(** ** A direction over its whole life *)

Section relay.
Context {B : Type} `{SplicerOk B}.

(** What has happened to a direction by the kernel's answers so far. *)
Record relays (ies : list IEvent) (d : Dir B) : Prop := {
  rs_bytes : got d = sent d ++ sp_held (spool d);
  rs_shut : shut d = true -> got d = sent d /\ Exists ended ies;
}.

Definition finished (oes : list OEvent) (d : Dir B) : Prop := shut d = true \/ OErr ∈ oes.

(** A direction that can go on waits for exactly what it lacks. *)
Definition blocked (i : IEvent) (o : OEvent) (d : Dir B) : Prop :=
  o = OAgain /\ sp_held (spool d) <> [] \/ i = IAgain /\ sp_held (spool d) = [].

Record dir_inv (ies : list IEvent) (oes : list OEvent) (fini : list Z) (d : Dir B) (res : Z) : Prop := {
  di_ok : sp_ok (spool d);
  di_fini : sp_fini (spool d) = fini;
  di_relays : relays ies d;
  di_shut : shut d = true -> res = -1;
  di_end : res < 0 -> res = -1 /\ finished oes d;
}.

Lemma relays_end ies d : relays ies d -> shut d = true -> sp_held (spool d) = [].
Proof.
  intros [Hb Hs] E. destruct (Hs E) as [Hg _]. rewrite Hg in Hb.
  rewrite <- (app_nil_r (sent d)) in Hb at 1. by apply app_inv_head in Hb.
Qed.

Lemma splice_dir_inv ies oes fini i o d res d' res' :
  splice_dir i o d res = (d', res') -> dir_inv ies oes fini d res ->
  dir_inv (ies ++ [i]) (oes ++ [o]) fini d' res' /\
  (exists outs, sent d' = sent d ++ outs /\ (0 < res' -> outs <> [])) /\
  (res' = 0 -> blocked i o d').
Proof.
  intros E [Hok Hf Hr Hs He]. unfold splice_dir in E. destruct (Z.leb_spec 0 res) as [Hp|Hp].
  - destruct (sp_splice_ok _ _ _ _ _ E Hok) as (Hok' & Hf' & [(ins & outs & Hg & Hso & Hh & Hpos) Hsh Hw Hend]).
    assert (shut d = true -> False) as Hns by (intros Ed; specialize (Hs Ed); lia).
    assert (got d' = sent d' ++ sp_held (spool d')) as Hb.
    { rewrite Hg, Hso, (rs_bytes _ _ Hr), <- !app_assoc. by rewrite Hh. }
    split_and!; [constructor; [done|congruence|..]|by exists outs|exact Hw].
    + constructor; [done|]. intros Ed. destruct (Hsh Ed) as [?|(En & _ & Hi)]; [tauto|].
      rewrite En, app_nil_r in Hb. split; [done|]. apply Exists_app. right. constructor.
      done.
    + intros Ed. by destruct (Hsh Ed) as [?|(_ & ? & _)].
    + intros Hn. destruct (Hend Hn) as [-> Ho]. split; [done|]. unfold finished. rewrite elem_of_app, list_elem_of_singleton.
      destruct Ho as [->|(_ & _ & ?)]; auto.
  - injection E as <- <-. split_and!; [|exists []; by rewrite app_nil_r; split; [|lia]|lia].
    destruct (He Hp) as [-> Hfin]. constructor; [done..| |done|].
    + destruct Hr as [Hb Hss]. constructor; [done|]. intros Ed. destruct (Hss Ed). split; [done|].
      apply Exists_app. by left.
    + intros _. split; [done|]. destruct Hfin; [by left|]. right. apply elem_of_app. by left.
Qed.

(** ** The relay over a script of turns *)

Record relay_inv (ts : list Turn) (ff fb : list Z) (s : Relay B) : Prop := {
  ri_f : dir_inv (map t_if ts) (map t_of ts) ff (dir_f s) (res_f s);
  ri_b : dir_inv (map t_ib ts) (map t_ob ts) fb (dir_b s) (res_b s);
}.

(** What a turn means: bytes moved, or nothing can move, or both ways are over. *)
Definition turn_ok (ts : list Turn) (t : Turn) (s s' : Relay B) (type : YieldType) : Prop :=
  match type with
  | SP_YIELD =>
      (length (sent (dir_f s)) + length (sent (dir_b s)) <
       length (sent (dir_f s')) + length (sent (dir_b s')))%nat
  | SP_WAITIO =>
      (blocked (t_if t) (t_of t) (dir_f s') \/ finished (map t_of (ts ++ [t])) (dir_f s')) /\
      (blocked (t_ib t) (t_ob t) (dir_b s') \/ finished (map t_ob (ts ++ [t])) (dir_b s')) /\
      (blocked (t_if t) (t_of t) (dir_f s') \/ blocked (t_ib t) (t_ob t) (dir_b s'))
  | SP_BREAK =>
      finished (map t_of (ts ++ [t])) (dir_f s') /\ finished (map t_ob (ts ++ [t])) (dir_b s')
  end.

Lemma splice_turn_inv ts ff fb t s s' type :
  splice_turn t s = (s', type) -> relay_inv ts ff fb s ->
  relay_inv (ts ++ [t]) ff fb s' /\ turn_ok ts t s s' type.
Proof.
  intros E [Hf Hb]. unfold splice_turn in E.
  destruct (splice_dir (t_if t) _ _ _) as [f rf] eqn:Ef. destruct (splice_dir (t_ib t) _ _ _) as [b rb] eqn:Eb.
  destruct (splice_dir_inv _ _ _ _ _ _ _ _ _ Ef Hf) as (Hf' & (xf & Sf & Pf) & Wf).
  destruct (splice_dir_inv _ _ _ _ _ _ _ _ _ Eb Hb) as (Hb' & (xb & Sb & Pb) & Wb).
  injection E as <- <-. split; [constructor; by rewrite !map_app|]. simpl.
  pose proof (di_end _ _ _ _ _ Hf') as Ff. pose proof (di_end _ _ _ _ _ Hb') as Fb.
  destruct (Z.ltb_spec 0 rf) as [Hrf|Hrf]; [|destruct (Z.ltb_spec 0 rb) as [Hrb|Hrb]]; simpl.
  - rewrite Sf, Sb, !length_app. specialize (Pf Hrf). destruct xf; [done|]. simpl. lia.
  - rewrite Sf, Sb, !length_app. specialize (Pb Hrb). destruct xb; [done|]. simpl. lia.
  - unfold turn_ok. rewrite !map_app. simpl.
    assert (rf = 0 /\ blocked (t_if t) (t_of t) f \/ rf = -1 /\ finished (map t_of ts ++ [t_of t]) f) as Cf
      by (destruct (decide (rf < 0)) as [Hn|Hn]; [right; auto|left; auto with lia]).
    assert (rb = 0 /\ blocked (t_ib t) (t_ob t) b \/ rb = -1 /\ finished (map t_ob ts ++ [t_ob t]) b) as Cb
      by (destruct (decide (rb < 0)) as [Hn|Hn]; [right; auto|left; auto with lia]).
    destruct Cf as [[-> ?]|[-> ?]], Cb as [[-> ?]|[-> ?]]; simpl; auto.
Qed.

Lemma relay_loop_inv ff fb ts : forall pre s s' e,
  splice_loop ts s = (s', e) -> relay_inv pre ff fb s ->
  exists used, used `prefix_of` ts /\ relay_inv (pre ++ used) ff fb s' /\
    (e = Relaying -> used = ts) /\
    (e = Broken -> finished (map t_of (pre ++ used)) (dir_f s') /\ finished (map t_ob (pre ++ used)) (dir_b s')).
Proof.
  induction ts as [|t ts IH]; intros pre s s' e E Hs; cbn [splice_loop] in E.
  { injection E as <- <-. exists []. rewrite app_nil_r. by split_and!. }
  destruct (splice_turn t s) as [s1 type] eqn:Et. destruct (splice_turn_inv _ _ _ _ _ _ _ Et Hs) as [H1 T].
  assert ([t] `prefix_of` t :: ts) by by exists ts.
  assert (type = SP_BREAK /\ (s1, Broken) = (s', e) \/
    type <> SP_BREAK /\ (if t_stop t then (s1, Stopped) else splice_loop ts s1) = (s', e)) as [[-> E1]|[_ E1]]
    by (destruct type; auto).
  - injection E1 as <- <-. exists [t]. by split_and!.
  - destruct (t_stop t); [injection E1 as <- <-; exists [t]; by split_and!|].
    destruct (IH _ _ _ _ E1 H1) as (used & Hu & Hi & Hr & Hbr). exists (t :: used).
    rewrite <- app_assoc in Hi, Hbr. split_and!; [by apply prefix_cons|done| |done]. intros Er. f_equal. auto.
Qed.

Lemma new_dir_inv b : sp_ok b -> sp_held b = [] -> dir_inv [] [] (sp_fini b) (new_dir b) 1.
Proof. intros Ho Hh. by repeat constructor. Qed.

End relay.


(** The client sends six bytes through a spool of four; the target answers two. *)
Definition demo_turns : list Turn := [
  mkTurn (IData [1; 2; 3; 4; 5; 6]) (OTake 1) IAgain OAgain false;
  mkTurn (IData [5; 6]) OAgain (IData [7; 8]) (OTake 9) false;
  mkTurn IEof (OTake 9) IEof OAgain false;
  mkTurn IEof OAgain IEof OAgain false ].
Definition demo_alloc (addr : Z) : option BufAlloc := Some (mkBufAlloc addr 4 [0; 0; 0; 0]).
Definition demo_pipe (r : Z) : PipeEvents := mkPipeEvents (Some (r, r + 1)) true true 4 4.

(** Both spools end this relay with every byte delivered. *)
Lemma demo_buffer :
  let '(r, taken, given, res) := hev_socks5_tcp_splicer (B := Z * HevCircularBuffer) 5 6 true
    (demo_alloc 100) (demo_alloc 200) demo_turns in
  option_map (fun x => (sent (dir_f x.1), sent (dir_b x.1), x.2)) r =
    Some ([1; 2; 3; 4; 5; 6], [7; 8], Broken) /\ (taken, given, res) = ([100; 200], [200; 100], 0).
Proof. vm_compute. done. Qed.

Lemma demo_piped :
  let '(r, taken, given, res) := hev_socks5_tcp_splicer (B := Pipe) 5 6 true
    (demo_pipe 100) (demo_pipe 200) demo_turns in
  option_map (fun x => (sent (dir_f x.1), sent (dir_b x.1), x.2)) r =
    Some ([1; 2; 3; 4; 5; 6], [7; 8], Broken) /\
  (taken, given, res) = ([100; 101; 200; 201], [200; 201; 100; 101], 0).
Proof. vm_compute. done. Qed.


(** The relay neither spins nor sleeps through work: a turn after which it
    only yields has sent at least one byte; it waits for the kernel only when
    every direction that is not over lacks input for an empty spool, or could not
    send from a full one, and at least one is in this state; it stops by itself
    only when both are over. *)
Theorem relay_waits_when_blocked {B} `{SplicerOk B} (ef eb : sp_events) (f b : B)
    (tf gf tb gb : list Z) (ts : list Turn) (t : Turn) (s s' : Relay B) (type : YieldType)
    (Hf : sp_possible ef) (Hb : sp_possible eb)
    (Ef : sp_init ef = (Some f, tf, gf)) (Eb : sp_init eb = (Some b, tb, gb))
    (Hs : splice_loop ts (mkRelay (new_dir f) (new_dir b) 1 1) = (s, Relaying))
    (Ht : splice_turn t s = (s', type)) :
  turn_ok ts t s s' type.
Proof.
  pose proof (sp_init_ok _ Hf) as If. pose proof (sp_init_ok _ Hb) as Ib. rewrite Ef in If. rewrite Eb in Ib.
  destruct If as (Of & Hhf & _), Ib as (Ob & Hhb & _).
  destruct (relay_loop_inv (sp_fini f) (sp_fini b) _ [] _ _ _ Hs) as (used & _ & Hi & Hu & _);
    [by constructor; apply new_dir_inv|].
  rewrite (Hu eq_refl) in Hi. eapply splice_turn_inv; done.
Qed.

Definition demo_relay (n : nat) : Relay Pipe * SpliceEnd :=
  splice_loop (take n demo_turns) (mkRelay (new_dir (mkPipe 100 101 0 4 [] 4)) (new_dir (mkPipe 200 201 0 4 [] 4)) 1 1).
Definition demo_wait : Turn := mkTurn IAgain OAgain IAgain OAgain false.

(** After one turn two bytes are still in the spool and the target takes none. *)
Lemma relay_waits_when_blocked_witness :
  turn_ok (take 1 demo_turns) demo_wait (demo_relay 1).1 (splice_turn demo_wait (demo_relay 1).1).1 SP_WAITIO.
Proof.
  apply (@relay_waits_when_blocked Pipe splicer_pipe splicer_pipe_ok (demo_pipe 100) (demo_pipe 200) (mkPipe 100 101 0 4 [] 4) (mkPipe 200 201 0 4 [] 4)
    [100; 101] [] [200; 201] []); [simpl; lia..|done|done| |]; vm_compute; reflexivity.
Defined.
