(* ===== verification/Pbuf.v ===== *)
(** * lwIP's packet buffers (third-part/lwip/src/core/pbuf.c)

    Every packet that the tunnel's device gives or takes, every datagram and
    every piece of a TCP stream is a chain of reference-counted buffers.  The
    heap holds the structs and, apart from them, blocks of bytes; a payload is a
    pointer into a block.  A failing LWIP_ASSERT aborts the program: [None]. *)
From S2P Require Import Prelude CInt.

(** ** Types *)

Definition pointer : Type := Z * Z.

Record pbuf := mkPbuf {
  next : Z;
  payload : pointer;
  tot_len : Z;
  len : Z;
  type_internal : Z;
  flags : Z;
  ref : Z;
}.

Inductive pbuf_layer := PBUF_TRANSPORT | PBUF_IP | PBUF_LINK | PBUF_RAW_TX | PBUF_RAW.
Definition PBUF_LINK_HLEN : Z := 16.
Definition PBUF_IP_HLEN : Z := 40.
Definition PBUF_TRANSPORT_HLEN : Z := 20.
Definition layer_size (l : pbuf_layer) : Z :=
  match l with
  | PBUF_TRANSPORT => PBUF_LINK_HLEN + PBUF_IP_HLEN + PBUF_TRANSPORT_HLEN
  | PBUF_IP => PBUF_LINK_HLEN + PBUF_IP_HLEN
  | PBUF_LINK => PBUF_LINK_HLEN
  | PBUF_RAW_TX | PBUF_RAW => 0
  end.

Inductive pbuf_type := PBUF_RAM | PBUF_ROM | PBUF_REF | PBUF_POOL.
Definition PBUF_TYPE_FLAG_STRUCT_DATA_CONTIGUOUS : Z := 128.
Definition PBUF_TYPE_ALLOC_SRC_MASK : Z := 15.
Definition type_value (t : pbuf_type) : Z :=
  match t with
  | PBUF_RAM => Z.lor 512 128
  | PBUF_ROM => 1
  | PBUF_REF => Z.lor 64 1
  | PBUF_POOL => Z.lor (Z.lor 256 128) 2
  end.

Definition PBUF_FLAG_IS_CUSTOM : Z := 2.

(** [LWIP_MEM_ALIGN_SIZE] with [MEM_ALIGNMENT] 4; the size of the struct. *)
Definition LWIP_MEM_ALIGN_SIZE (s : Z) : Z := Z.land (s + 3) (Z.lnot 3).
Definition SIZEOF_STRUCT_PBUF : Z := 24.
Definition PBUF_POOL_BUFSIZE_ALIGNED : Z := LWIP_MEM_ALIGN_SIZE (8191 + 40 + PBUF_LINK_HLEN).

(** ** The heap *)

Record Heap := mkHeap {
  pbufs : gmap Z pbuf;
  blocks : gmap Z (list Z);
  ooseq_pending : bool;
}.

Definition upd (p : Z) (f : pbuf -> pbuf) (h : Heap) : option Heap :=
  b ← pbufs h !! p; Some (mkHeap (<[p := f b]> (pbufs h)) (blocks h) (ooseq_pending h)).
Definition set_next n (b : pbuf) := mkPbuf n (payload b) (tot_len b) (len b) (type_internal b) (flags b) (ref b).
Definition set_payload x (b : pbuf) := mkPbuf (next b) x (tot_len b) (len b) (type_internal b) (flags b) (ref b).
Definition set_tot_len n (b : pbuf) := mkPbuf (next b) (payload b) n (len b) (type_internal b) (flags b) (ref b).
Definition set_len n (b : pbuf) := mkPbuf (next b) (payload b) (tot_len b) n (type_internal b) (flags b) (ref b).
Definition set_ref n (b : pbuf) := mkPbuf (next b) (payload b) (tot_len b) (len b) (type_internal b) (flags b) n.

(** [MEMCPY] from and to a block. *)
Definition rd_bytes (x : pointer) (n : Z) (h : Heap) : option (list Z) :=
  if Z.eqb n 0 then Some [] else
  l ← blocks h !! x.1;
  if (Z.leb 0 x.2 && Z.leb (x.2 + n) (Z.of_nat (length l)))%bool
  then Some (take (Z.to_nat n) (drop (Z.to_nat x.2) l)) else None.

Definition wr_bytes (x : pointer) (bs : list Z) (h : Heap) : option Heap :=
  if decide (bs = []) then Some h else
  l ← blocks h !! x.1;
  if (Z.leb 0 x.2 && Z.leb (x.2 + Z.of_nat (length bs)) (Z.of_nat (length l)))%bool
  then Some (mkHeap (pbufs h) (<[x.1 := list_inserts (Z.to_nat x.2) bs l]> (blocks h)) (ooseq_pending h))
  else None.

Definition ptr_add (x : pointer) (n : Z) : pointer := (x.1, x.2 + n).

(** The answer of an allocator: an address and the old contents of its memory. *)
Definition Fresh : Type := option (Z * list Z).

(** Memory of [size] bytes for a struct and the bytes behind it, which are the
    block of the same address. *)
Definition new_block (a : Z) (junk : list Z) (size : Z) (h : Heap) : Heap :=
  mkHeap (pbufs h) (<[a := resize (Z.to_nat (size - SIZEOF_STRUCT_PBUF)) 0 junk]> (blocks h)) (ooseq_pending h).

(** [mem_free], [memp_free]. *)
Definition release (p : Z) (h : Heap) : Heap :=
  mkHeap (delete p (pbufs h)) (delete p (blocks h)) (ooseq_pending h).

(** The [custom_free_function] of the custom buffers: it gives back the struct,
    and at most the memory that the payload points to. *)
Class CustomFree := {
  custom_free_function : Z -> Heap -> Heap;
  custom_free_pbufs p h : pbufs (custom_free_function p h) = delete p (pbufs h);
  custom_free_blocks p h b x : pbufs h !! p = Some b -> x <> (payload b).1 ->
    blocks (custom_free_function p h) !! x = blocks h !! x;
}.

Section pbuf.
Context `{CustomFree}.
Variable fuel : nat.

(** ** Reference counts *)

Definition pbuf_get_allocsrc (b : pbuf) : Z := Z.land (type_internal b) PBUF_TYPE_ALLOC_SRC_MASK.

Definition pbuf_dealloc (p : Z) (b : pbuf) (h : Heap) : option Heap :=
  if negb (Z.eqb (Z.land (flags b) PBUF_FLAG_IS_CUSTOM) 0) then Some (custom_free_function p h)
  else if Z.leb (pbuf_get_allocsrc b) 2 then Some (release p h) else None.

Fixpoint free_loop (fuel : nat) (p count : Z) (h : Heap) : option (Heap * Z) :=
  match fuel with
  | O => None
  | S fuel =>
      if Z.eqb p 0 then Some (h, count) else
      b ← pbufs h !! p;
      if Z.leb (ref b) 0 then None else
      h ← upd p (set_ref (u8 (ref b - 1))) h;
      if Z.eqb (u8 (ref b - 1)) 0 then
        h ← pbuf_dealloc p b h; free_loop fuel (next b) (u8 (count + 1)) h
      else Some (h, count)
  end.

Definition pbuf_free (p : Z) (h : Heap) : option (Heap * Z) :=
  if Z.eqb p 0 then None else free_loop fuel p 0 h.

Definition pbuf_ref (p : Z) (h : Heap) : option Heap :=
  if Z.eqb p 0 then Some h else
  b ← pbufs h !! p;
  if Z.eqb (u8 (ref b + 1)) 0 then None else upd p (set_ref (u8 (ref b + 1))) h.

(** ** Allocation *)

Definition pbuf_init_alloced_pbuf (p : Z) (x : pointer) (tot len type fl : Z) (h : Heap) : Heap :=
  mkHeap (<[p := mkPbuf 0 x tot len (u8 type) fl 1]> (pbufs h)) (blocks h) (ooseq_pending h).

(** [PBUF_POOL_IS_EMPTY ()]. *)
Definition pool_is_empty (h : Heap) : Heap := mkHeap (pbufs h) (blocks h) true.

Definition pbuf_alloc_reference (f : option Z) (x : pointer) (length : Z) (type : pbuf_type) (h : Heap)
  : Heap * Z :=
  match f with
  | None => (h, 0)
  | Some a => (pbuf_init_alloced_pbuf a x length length (type_value type) 0 h, a)
  end.

(** [do { ... } while (rem_len > 0)]; [fs]: what the pool has left. *)
Fixpoint pool_loop (fs : list (Z * list Z)) (rem_len offset p last : Z) (h : Heap) : option (Heap * Z) :=
  match fs with
  | [] =>
      let h := pool_is_empty h in
      '(h, _) ← (if negb (Z.eqb p 0) then pbuf_free p h else Some (h, 0)); Some (h, 0)
  | (a, junk) :: fs =>
      let qlen := Z.min rem_len (u16 (PBUF_POOL_BUFSIZE_ALIGNED - LWIP_MEM_ALIGN_SIZE offset)) in
      let h := new_block a junk (SIZEOF_STRUCT_PBUF + PBUF_POOL_BUFSIZE_ALIGNED) h in
      let h := pbuf_init_alloced_pbuf a (a, LWIP_MEM_ALIGN_SIZE offset) rem_len qlen (type_value PBUF_POOL) 0 h in
      h ← (if Z.eqb p 0 then Some h else upd last (set_next a) h);
      let p := if Z.eqb p 0 then a else p in
      let rem_len := u16 (rem_len - qlen) in
      if Z.ltb 0 rem_len then pool_loop fs rem_len 0 p a h else Some (h, p)
  end.

(** For [PBUF_RAM] and the references [fs] starts with the allocator's answer. *)
Definition pbuf_alloc (fs : list (Z * list Z)) (layer : pbuf_layer) (length : Z) (type : pbuf_type) (h : Heap)
  : option (Heap * Z) :=
  let offset := layer_size layer in
  match type with
  | PBUF_REF | PBUF_ROM => Some (pbuf_alloc_reference (fst <$> head fs) (0, 0) length type h)
  | PBUF_POOL => pool_loop fs length offset 0 0 h
  | PBUF_RAM =>
      let payload_len := u64 (LWIP_MEM_ALIGN_SIZE offset + LWIP_MEM_ALIGN_SIZE length) in
      let alloc_len := u64 (LWIP_MEM_ALIGN_SIZE SIZEOF_STRUCT_PBUF + payload_len) in
      if (Z.ltb payload_len (LWIP_MEM_ALIGN_SIZE length) || Z.ltb alloc_len (LWIP_MEM_ALIGN_SIZE length))%bool
      then Some (h, 0) else
      match head fs with
      | None => Some (h, 0)
      | Some (a, junk) =>
          let h := new_block a junk alloc_len h in
          Some (pbuf_init_alloced_pbuf a (a, LWIP_MEM_ALIGN_SIZE offset) length length (type_value PBUF_RAM) 0 h, a)
      end
  end.

(** [mem]: the block of [payload_mem], if it is not NULL. *)
Definition pbuf_alloced_custom (l : pbuf_layer) (length : Z) (type : pbuf_type) (p : Z)
    (mem : option Z) (payload_mem_len : Z) (h : Heap) : Heap * Z :=
  let offset := layer_size l in
  if Z.ltb payload_mem_len (LWIP_MEM_ALIGN_SIZE offset + length) then (h, 0) else
  let x := match mem with Some m => (m, LWIP_MEM_ALIGN_SIZE offset) | None => (0, 0) end in
  (pbuf_init_alloced_pbuf p x length length (type_value type) PBUF_FLAG_IS_CUSTOM h, p).

(** ** Headers *)

(** [true]: failure. *)
Definition pbuf_add_header_impl (p inc : Z) (force : bool) (h : Heap) : option (Heap * bool) :=
  if Z.eqb p 0 then None else
  if Z.ltb 65535 inc then Some (h, true) else
  if Z.eqb inc 0 then Some (h, false) else
  b ← pbufs h !! p;
  if Z.ltb (u16 (inc + tot_len b)) inc then Some (h, true) else
  let x := ptr_add (payload b) (- inc) in
  let ok := if negb (Z.eqb (Z.land (type_internal b) PBUF_TYPE_FLAG_STRUCT_DATA_CONTIGUOUS) 0)
            then Z.leb 0 x.2 else force in
  if negb ok then Some (h, true) else
  h ← upd p (fun b => set_tot_len (u16 (tot_len b + inc)) (set_len (u16 (len b + inc)) (set_payload x b))) h;
  Some (h, false).

Definition pbuf_add_header (p inc : Z) (h : Heap) := pbuf_add_header_impl p inc false h.
Definition pbuf_add_header_force (p inc : Z) (h : Heap) := pbuf_add_header_impl p inc true h.

Definition pbuf_remove_header (p dec : Z) (h : Heap) : option (Heap * bool) :=
  if Z.eqb p 0 then None else
  if Z.ltb 65535 dec then Some (h, true) else
  if Z.eqb dec 0 then Some (h, false) else
  b ← pbufs h !! p;
  if Z.ltb (len b) dec then Some (h, true) else
  h ← upd p (fun b => set_tot_len (u16 (tot_len b - dec)) (set_len (u16 (len b - dec))
                        (set_payload (ptr_add (payload b) dec) b))) h;
  Some (h, false).

Definition pbuf_header_impl (p inc : Z) (force : bool) (h : Heap) : option (Heap * bool) :=
  if Z.ltb inc 0 then pbuf_remove_header p (- inc) h else pbuf_add_header_impl p inc force h.

Definition pbuf_header (p inc : Z) (h : Heap) := pbuf_header_impl p inc false h.
Definition pbuf_header_force (p inc : Z) (h : Heap) := pbuf_header_impl p inc true h.

Fixpoint free_header_loop (n : nat) (p free_left : Z) (h : Heap) : option (Heap * Z) :=
  match n with
  | O => None
  | S n =>
      if (Z.eqb free_left 0 || Z.eqb p 0)%bool then Some (h, p) else
      b ← pbufs h !! p;
      if Z.leb (len b) free_left then
        h ← upd p (set_next 0) h;
        '(h, _) ← pbuf_free p h;
        free_header_loop n (next b) (u16 (free_left - len b)) h
      else
        '(h, _) ← pbuf_remove_header p free_left h; Some (h, p)
  end.

Definition pbuf_free_header (q size : Z) (h : Heap) : option (Heap * Z) :=
  free_header_loop fuel q size h.

(** ** Chains *)

Fixpoint cat_loop (n : nat) (p t : Z) (h : Heap) : option Heap :=
  match n with
  | O => None
  | S n =>
      b ← pbufs h !! p;
      tb ← pbufs h !! t;
      if negb (Z.eqb (next b) 0) then
        h ← upd p (set_tot_len (u16 (tot_len b + tot_len tb))) h; cat_loop n (next b) t h
      else if negb (Z.eqb (tot_len b) (len b)) then None else
        h ← upd p (set_tot_len (u16 (tot_len b + tot_len tb))) h; upd p (set_next t) h
  end.

Definition pbuf_cat (p t : Z) (h : Heap) : option Heap :=
  if (Z.eqb p 0 || Z.eqb t 0)%bool then Some h else
  if Z.eqb p t then None else cat_loop fuel p t h.

Definition pbuf_chain (p t : Z) (h : Heap) : option Heap :=
  h ← pbuf_cat p t h; pbuf_ref t h.

Definition pbuf_dechain (p : Z) (h : Heap) : option (Heap * Z) :=
  b ← pbufs h !! p;
  let q := next b in
  '(h, tail_gone) ←
    (if negb (Z.eqb q 0) then
       qb ← pbufs h !! q;
       if negb (Z.eqb (tot_len qb) (tot_len b - len b)) then None else
       h ← upd q (set_tot_len (u16 (tot_len b - len b))) h;
       h ← upd p (fun b => set_tot_len (len b) (set_next 0 b)) h;
       pbuf_free q h
     else Some (h, 1));
  b ← pbufs h !! p;
  if negb (Z.eqb (tot_len b) (len b)) then None else
  Some (h, if Z.ltb 0 tail_gone then 0 else q).

Fixpoint clen_loop (n : nat) (p count : Z) (h : Heap) : option Z :=
  match n with
  | O => None
  | S n => if Z.eqb p 0 then Some count else b ← pbufs h !! p; clen_loop n (next b) (u16 (count + 1)) h
  end.
Definition pbuf_clen (p : Z) (h : Heap) : option Z := clen_loop fuel p 0 h.

(** The loop that finds the new last buffer; [mem_trim] does nothing with a
    custom allocator. *)
Fixpoint realloc_loop (n : nat) (q rem_len shrink : Z) (h : Heap) : option (Heap * Z * Z) :=
  match n with
  | O => None
  | S n =>
      b ← pbufs h !! q;
      if Z.ltb (len b) rem_len then
        h ← upd q (set_tot_len (u16 (tot_len b - shrink))) h;
        if Z.eqb (next b) 0 then None else
        realloc_loop n (next b) (u16 (rem_len - len b)) shrink h
      else Some (h, q, rem_len)
  end.

Definition pbuf_realloc (p new_len : Z) (h : Heap) : option Heap :=
  if Z.eqb p 0 then None else
  b ← pbufs h !! p;
  if Z.leb (tot_len b) new_len then Some h else
  '(h, q, rem_len) ← realloc_loop fuel p new_len (u16 (tot_len b - new_len)) h;
  h ← upd q (fun b => set_tot_len rem_len (set_len rem_len b)) h;
  b ← pbufs h !! q;
  h ← (if negb (Z.eqb (next b) 0) then '(h, _) ← pbuf_free (next b) h; Some h else Some h);
  upd q (set_next 0) h.

(** ** Reading *)

Fixpoint skip_loop (n : nat) (q offset_left : Z) (h : Heap) : option (Z * Z) :=
  match n with
  | O => None
  | S n =>
      if Z.eqb q 0 then Some (q, offset_left) else
      b ← pbufs h !! q;
      if Z.leb (len b) offset_left then skip_loop n (next b) (u16 (offset_left - len b)) h
      else Some (q, offset_left)
  end.

Definition pbuf_skip_const (p in_offset : Z) (h : Heap) : option (Z * Z) := skip_loop fuel p in_offset h.
Definition pbuf_skip := pbuf_skip_const.

(** What is written to [dataptr], and [copied_total]. *)
Fixpoint copy_loop (n : nat) (p len_ offset copied_total : Z) (out : list Z) (h : Heap)
  : option (list Z * Z) :=
  match n with
  | O => None
  | S n =>
      if (Z.eqb len_ 0 || Z.eqb p 0)%bool then Some (out, copied_total) else
      b ← pbufs h !! p;
      if (negb (Z.eqb offset 0) && Z.leb (len b) offset)%bool then
        copy_loop n (next b) len_ (u16 (offset - len b)) copied_total out h
      else
        let n1 := u16 (len b - offset) in
        let buf_copy_len := if Z.ltb len_ n1 then len_ else n1 in
        bs ← rd_bytes (ptr_add (payload b) offset) buf_copy_len h;
        copy_loop n (next b) (u16 (len_ - buf_copy_len)) 0 (u16 (copied_total + buf_copy_len)) (out ++ bs) h
  end.

Definition pbuf_copy_partial (buf len offset : Z) (h : Heap) : option (list Z * Z) :=
  if Z.eqb buf 0 then Some ([], 0) else copy_loop fuel buf len offset 0 [] h.

(** NULL, a pointer into the payload, or [buffer] with its new contents. *)
Inductive contiguous := CNull | CPayload (x : pointer) | CBuffer (bs : list Z).

Definition pbuf_get_contiguous (p : Z) (buffer : bool) (bufsize len_ offset : Z) (h : Heap)
  : option contiguous :=
  if Z.eqb p 0 then Some CNull else
  if (buffer && Z.ltb bufsize len_)%bool then Some CNull else
  '(q, out_offset) ← pbuf_skip_const p offset h;
  if negb (Z.eqb q 0) then
    b ← pbufs h !! q;
    if Z.leb (out_offset + len_) (len b) then Some (CPayload (ptr_add (payload b) out_offset)) else
    if negb buffer then Some CNull else
    '(bs, n) ← pbuf_copy_partial q len_ out_offset h;
    if negb (Z.eqb n len_) then Some CNull else Some (CBuffer bs)
  else Some CNull.

Definition pbuf_try_get_at (p offset : Z) (h : Heap) : option Z :=
  '(q, q_idx) ← pbuf_skip_const p offset h;
  if negb (Z.eqb q 0) then
    b ← pbufs h !! q;
    if Z.ltb q_idx (len b) then
      bs ← rd_bytes (ptr_add (payload b) q_idx) 1 h; head bs
    else Some (-1)
  else Some (-1).

Definition pbuf_get_at (p offset : Z) (h : Heap) : option Z :=
  ret ← pbuf_try_get_at p offset h; if Z.leb 0 ret then Some (u8 ret) else Some 0.

(** [for (i = 0; i < n; i++)]: [s2] is what is left of it. *)
Fixpoint memcmp_loop (q start i : Z) (s2 : list Z) (h : Heap) : option Z :=
  match s2 with
  | [] => Some 0
  | b :: s2 =>
      a ← pbuf_get_at q (u16 (start + i)) h;
      if negb (Z.eqb a b) then Some (u16 (Z.min (i + 1) 65535)) else memcmp_loop q start (i + 1) s2 h
  end.

Definition pbuf_memcmp (p offset : Z) (s2 : list Z) (h : Heap) : option Z :=
  b ← pbufs h !! p;
  if Z.ltb (tot_len b) (offset + Z.of_nat (length s2)) then Some 65535 else
  '(q, start) ← skip_loop fuel p offset h; memcmp_loop q start 0 s2 h.

(** [for (i = start_offset; i <= max_cmp_start; i++)] of [count] rounds. *)
Fixpoint memfind_loop (count : nat) (p i : Z) (mem : list Z) (h : Heap) : option Z :=
  match count with
  | O => Some 65535
  | S count =>
      plus ← pbuf_memcmp p i mem h;
      if Z.eqb plus 0 then Some i else memfind_loop count p (u16 (i + 1)) mem h
  end.

Definition pbuf_memfind (p : Z) (mem : list Z) (start_offset : Z) (h : Heap) : option Z :=
  b ← pbufs h !! p;
  let mem_len := Z.of_nat (length mem) in
  let max_cmp_start := u16 (tot_len b - mem_len) in
  if Z.leb (mem_len + start_offset) (tot_len b)
  then memfind_loop (Z.to_nat (max_cmp_start + 1 - start_offset)) p start_offset mem h
  else Some 65535.

(** ** Writing *)

Definition ERR_OK : Z := 0.
Definition ERR_MEM : Z := -1.
Definition ERR_VAL : Z := -6.
Definition ERR_ARG : Z := -16.

Fixpoint take_loop (n : nat) (p : Z) (data : list Z) (h : Heap) : option Heap :=
  match n with
  | O => None
  | S n =>
      if decide (data = []) then Some h else
      if Z.eqb p 0 then None else
      b ← pbufs h !! p;
      let buf_copy_len := if Z.ltb (len b) (Z.of_nat (length data)) then len b else Z.of_nat (length data) in
      h ← wr_bytes (payload b) (take (Z.to_nat buf_copy_len) data) h;
      take_loop n (next b) (drop (Z.to_nat buf_copy_len) data) h
  end.

Definition pbuf_take (buf : Z) (data : list Z) (h : Heap) : option (Heap * Z) :=
  if Z.eqb buf 0 then Some (h, ERR_ARG) else
  b ← pbufs h !! buf;
  if Z.ltb (tot_len b) (Z.of_nat (length data)) then Some (h, ERR_MEM) else
  h ← take_loop fuel buf data h; Some (h, ERR_OK).

Definition pbuf_take_at (buf : Z) (data : list Z) (offset : Z) (h : Heap) : option (Heap * Z) :=
  let len_ := Z.of_nat (length data) in
  '(q, target_offset) ← pbuf_skip buf offset h;
  if Z.eqb q 0 then Some (h, ERR_MEM) else
  b ← pbufs h !! q;
  if Z.ltb (tot_len b) (target_offset + len_) then Some (h, ERR_MEM) else
  if Z.leb (len b) target_offset then None else
  let first_copy_len := u16 (Z.min (len b - target_offset) len_) in
  h ← wr_bytes (ptr_add (payload b) target_offset) (take (Z.to_nat first_copy_len) data) h;
  if Z.ltb 0 (u16 (len_ - first_copy_len))
  then pbuf_take (next b) (drop (Z.to_nat first_copy_len) data) h else Some (h, ERR_OK).

Definition pbuf_put_at (p offset data : Z) (h : Heap) : option Heap :=
  '(q, q_idx) ← pbuf_skip p offset h;
  if negb (Z.eqb q 0) then
    b ← pbufs h !! q;
    if Z.ltb q_idx (len b) then wr_bytes (ptr_add (payload b) q_idx) [data] h else Some h
  else Some h.

(** ** Copying *)

(** A buffer at which a packet ends has no next one. *)
Definition queue_after (p : Z) (h : Heap) : option bool :=
  if Z.eqb p 0 then Some false else
  b ← pbufs h !! p; Some (Z.eqb (len b) (tot_len b) && negb (Z.eqb (next b) 0))%bool.

(** [do { ... } while (copy_len)]. *)
Fixpoint copy_pbuf_loop (n : nat) (p_to p_from copy_len offset_to offset_from : Z) (h : Heap)
  : option (Heap * Z) :=
  match n with
  | O => None
  | S n =>
      tb ← pbufs h !! p_to;
      fb ← pbufs h !! p_from;
      let len_ := if Z.leb (u64 (len fb - offset_from)) (u64 (len tb - offset_to))
                  then u64 (len fb - offset_from) else u64 (len tb - offset_to) in
      let len_ := Z.min copy_len len_ in
      bs ← rd_bytes (ptr_add (payload fb) offset_from) len_ h;
      h ← wr_bytes (ptr_add (payload tb) offset_to) bs h;
      let offset_to := u64 (offset_to + len_) in
      let offset_from := u64 (offset_from + len_) in
      let copy_len := u16 (copy_len - len_) in
      if (Z.ltb (len tb) offset_to || Z.ltb (len fb) offset_from)%bool then None else
      let '(p_from, offset_from) := if Z.leb (len fb) offset_from then (next fb, 0) else (p_from, offset_from) in
      if (Z.eqb p_from 0 && negb (Z.eqb copy_len 0))%bool then Some (h, ERR_ARG) else
      let '(p_to, offset_to) := if Z.eqb offset_to (len tb) then (next tb, 0) else (p_to, offset_to) in
      if (Z.eqb p_to 0 && negb (Z.eqb copy_len 0))%bool then Some (h, ERR_ARG) else
      qf ← queue_after p_from h;
      qt ← queue_after p_to h;
      if (qf || qt : bool)%bool then Some (h, ERR_VAL) else
      if Z.eqb copy_len 0 then Some (h, ERR_OK)
      else copy_pbuf_loop n p_to p_from copy_len offset_to offset_from h
  end.

Definition pbuf_copy_partial_pbuf (p_to p_from copy_len offset : Z) (h : Heap) : option (Heap * Z) :=
  if Z.eqb p_from 0 then Some (h, ERR_ARG) else
  fb ← pbufs h !! p_from;
  if Z.ltb (tot_len fb) copy_len then Some (h, ERR_ARG) else
  if Z.eqb p_to 0 then Some (h, ERR_ARG) else
  tb ← pbufs h !! p_to;
  if Z.ltb (tot_len tb) (offset + copy_len) then Some (h, ERR_ARG) else
  copy_pbuf_loop fuel p_to p_from copy_len offset 0 h.

Definition pbuf_copy (p_to p_from : Z) (h : Heap) : option (Heap * Z) :=
  if Z.eqb p_from 0 then Some (h, ERR_ARG) else
  fb ← pbufs h !! p_from; pbuf_copy_partial_pbuf p_to p_from (tot_len fb) 0 h.

Definition pbuf_clone (fs : list (Z * list Z)) (layer : pbuf_layer) (type : pbuf_type) (p : Z) (h : Heap)
  : option (Heap * Z) :=
  b ← pbufs h !! p;
  '(h, q) ← pbuf_alloc fs layer (tot_len b) type h;
  if Z.eqb q 0 then Some (h, 0) else
  '(h, err) ← pbuf_copy q p h;
  if negb (Z.eqb err ERR_OK) then None else Some (h, q).

Definition pbuf_coalesce (fs : list (Z * list Z)) (p : Z) (layer : pbuf_layer) (h : Heap)
  : option (Heap * Z) :=
  b ← pbufs h !! p;
  if Z.eqb (next b) 0 then Some (h, p) else
  '(h, q) ← pbuf_clone fs layer PBUF_RAM p h;
  if Z.eqb q 0 then Some (h, p) else
  '(h, _) ← pbuf_free p h; Some (h, q).
End pbuf.
