(* ===== verification/PbufRefs.v ===== *)
(** * Packet buffers: chains and reference counts *)
From S2P Require Import Prelude CInt Pbuf.

(** ** The chain that begins at a pointer *)

Fixpoint chain_from (m : gmap Z pbuf) (p : Z) (ps : list Z) : Prop :=
  match ps with
  | [] => p = 0
  | a :: ps => p = a /\ a <> 0 /\ exists b, m !! a = Some b /\ chain_from m (next b) ps
  end.

Lemma chain_from_unique m p ps qs : chain_from m p ps -> chain_from m p qs -> ps = qs.
Proof.
  revert p qs. induction ps as [|a ps IH]; intros p [|c qs]; simpl; [done| | |].
  - intros -> (<- & ? & _). done.
  - intros (-> & ? & _) ->. done.
  - intros (-> & _ & b & Hb & H) (<- & _ & b' & Hb' & H'). rewrite Hb in Hb'. injection Hb' as <-.
    f_equal. by eapply IH.
Qed.

Lemma chain_from_app m p xs a ys : chain_from m p (xs ++ a :: ys) -> chain_from m a (a :: ys).
Proof.
  revert p. induction xs as [|x xs IH]; intros p; cbn [app chain_from].
  - intros (-> & H). done.
  - intros (_ & _ & b & _ & H). by eapply IH.
Qed.

(** A chain that came back to itself would not end. *)
Lemma chain_from_NoDup m p ps : chain_from m p ps -> NoDup ps.
Proof.
  revert p. induction ps as [|a ps IH]; intros p H; [constructor|].
  pose proof H as (-> & _ & b & Hb & Hn). constructor; [|by eapply IH].
  intros (xs & ys & ->)%list_elem_of_split. apply chain_from_app in Hn.
  pose proof (chain_from_unique _ _ _ _ H Hn) as E. apply (f_equal length) in E.
  simpl in E. rewrite length_app in E. simpl in E. lia.
Qed.

Lemma chain_from_lookup m p ps a : chain_from m p ps -> a ∈ ps -> a <> 0 /\ is_Some (m !! a).
Proof.
  intros H (xs & ys & ->)%list_elem_of_split. apply chain_from_app in H as (_ & ? & b & Hb & _).
  by split; [|exists b].
Qed.

Lemma chain_from_ext m m' p ps : (forall a, a ∈ ps -> next <$> m' !! a = next <$> m !! a) ->
  chain_from m p ps -> chain_from m' p ps.
Proof.
  revert p. induction ps as [|a ps IH]; intros p E; [done|]. intros (-> & ? & b & Hb & H).
  pose proof (E a ltac:(left)) as Ea. rewrite Hb in Ea. simpl in Ea.
  destruct (m' !! a) as [b'|] eqn:Hb'; [|done]. injection Ea as Ea.
  split; [done|]. split; [done|]. exists b'. split; [done|]. rewrite Ea.
  apply IH; [|done]. intros c Hc. apply E. by right.
Qed.

Lemma upd_eq p f b h : pbufs h !! p = Some b ->
  upd p f h = Some (mkHeap (<[p := f b]> (pbufs h)) (blocks h) (ooseq_pending h)).
Proof. intros Hb. unfold upd. by rewrite Hb. Qed.

(** ** Counting the pointers of the heap *)

Definition pointers (m : gmap Z pbuf) : list Z := map (fun x => next x.2) (map_to_list m).

Lemma cnt_perm x l l' : l ≡ₚ l' -> cnt x l = cnt x l'.
Proof. induction 1; simpl; lia. Qed.

Lemma pointers_insert m a b : m !! a = None -> pointers (<[a := b]> m) ≡ₚ next b :: pointers m.
Proof. intros Ha. unfold pointers. by rewrite (map_to_list_insert _ _ _ Ha). Qed.

Lemma cnt_delete x m a b : m !! a = Some b ->
  cnt x (pointers m) = ((if Z.eqb x (next b) then 1 else 0) + cnt x (pointers (delete a m)))%nat.
Proof.
  intros Ha. rewrite <- (insert_delete_id m a b Ha) at 1.
  by rewrite (cnt_perm _ _ _ (pointers_insert _ _ _ (lookup_delete_eq m a))).
Qed.

Lemma cnt_new x m a b : m !! a = None ->
  cnt x (pointers (<[a := b]> m)) = ((if Z.eqb x (next b) then 1 else 0) + cnt x (pointers m))%nat.
Proof. intros Ha. by rewrite (cnt_perm _ _ _ (pointers_insert _ _ _ Ha)). Qed.

Lemma cnt_change x m a b b' : m !! a = Some b ->
  ((if Z.eqb x (next b) then 1 else 0) + cnt x (pointers (<[a := b']> m)) =
   (if Z.eqb x (next b') then 1 else 0) + cnt x (pointers m))%nat.
Proof.
  intros Ha. rewrite (cnt_delete _ _ _ _ Ha). rewrite <- (insert_delete_eq m a b').
  rewrite cnt_new by apply lookup_delete_eq. lia.
Qed.

Lemma elem_pointers m p : p ∈ pointers m <-> exists a b, m !! a = Some b /\ next b = p.
Proof.
  unfold pointers. rewrite list_elem_of_fmap. split.
  - intros ([a b] & -> & H%elem_of_map_to_list). eauto.
  - intros (a & b & H & <-). exists (a, b). split; [done|]. by apply elem_of_map_to_list.
Qed.

(** ** The invariant *)

(** [roots]: the pointers that are not in the heap, one entry each. *)
Record refs_ok (m : gmap Z pbuf) (roots : list Z) : Prop := {
  ro_null : m !! 0 = None;
  ro_zero : 0 ∉ roots;
  ro_chain : forall p, p ∈ roots ++ pointers m -> exists ps, chain_from m p ps;
  ro_count : forall p b, m !! p = Some b ->
    ref b = Z.of_nat (cnt p roots + cnt p (pointers m)) /\ 1 <= ref b <= 255;
  ro_src : forall p b, m !! p = Some b -> Z.land (flags b) PBUF_FLAG_IS_CUSTOM = 0 -> pbuf_get_allocsrc b <= 2;
}.

Lemma roots_live m roots p : refs_ok m roots -> p ∈ roots -> p <> 0 /\ exists b, m !! p = Some b.
Proof.
  intros H Hp. destruct (ro_chain _ _ H p) as ([|a ps] & Hc); [apply elem_of_app; by left|..].
  - simpl in Hc. subst. by destruct (ro_zero _ _ H).
  - destruct Hc as (-> & ? & b & Hb & _). eauto.
Qed.

Lemma live_chain m roots p b : refs_ok m roots -> m !! p = Some b -> exists ps, chain_from m p (p :: ps).
Proof.
  intros H Hb. assert (p ∈ roots ++ pointers m) as Hp.
  { destruct (ro_count _ _ H _ _ Hb) as [E ?]. apply cnt_pos. rewrite cnt_app. lia. }
  destruct (ro_chain _ _ H p Hp) as ([|a ps] & Hc); [|exists ps; by destruct Hc as (<- & Hc)].
  simpl in Hc. subst. by rewrite (ro_null _ _ H) in Hb.
Qed.

(** A buffer in a chain is its first one or another one's next. *)
Lemma chain_from_pred m p ps a : chain_from m p ps -> a ∈ ps -> a = p \/ a ∈ pointers m.
Proof.
  revert p. induction ps as [|c ps IH]; intros p; [by intros _ ?%not_elem_of_nil|].
  intros (-> & _ & b & Hb & H) [->|Ha]%elem_of_cons; [by left|]. right.
  destruct (IH _ H Ha) as [->|]; [|done]. apply elem_pointers. eauto.
Qed.

(** The heap depends on the counts of the roots only. *)
Lemma refs_ok_cnt m roots roots' : (forall x, cnt x roots = cnt x roots') ->
  refs_ok m roots -> refs_ok m roots'.
Proof.
  intros E H.
  assert (forall x, x ∈ roots <-> x ∈ roots') as Ein by (intros x; by rewrite <- !cnt_pos, E).
  constructor; [apply H|rewrite <- Ein; apply H| | |apply H].
  - intros p Hp. apply (ro_chain _ _ H). rewrite elem_of_app, Ein, <- elem_of_app. done.
  - intros p b Hb. rewrite <- E. by apply (ro_count _ _ H).
Qed.

(** ** Changing a struct *)

Section upd.
Context (m : gmap Z pbuf) (roots : list Z) (p : Z) (b b' : pbuf).
Hypotheses (H : refs_ok m roots) (Hb : m !! p = Some b).

Lemma null_upd : <[p := b']> m !! 0 = None.
Proof using H Hb. rewrite lookup_insert_ne; [apply H|]. intros ->. by rewrite (ro_null _ _ H) in Hb. Qed.

Lemma src_upd q c : flags b' = flags b -> type_internal b' = type_internal b ->
  <[p := b']> m !! q = Some c -> Z.land (flags c) PBUF_FLAG_IS_CUSTOM = 0 -> pbuf_get_allocsrc c <= 2.
Proof using H Hb.
  intros Ef Et Hc. destruct (decide (q = p)) as [->|].
  - rewrite lookup_insert_eq in Hc. injection Hc as <-. unfold pbuf_get_allocsrc. rewrite Ef, Et.
    exact (ro_src _ _ H _ _ Hb).
  - rewrite lookup_insert_ne in Hc by done. exact (ro_src _ _ H _ _ Hc).
Qed.
End upd.

(** Other fields than [next], [ref], [flags] and the type do not matter. *)
Definition sig (b : pbuf) : Z * Z * Z * Z := (next b, ref b, flags b, type_internal b).

Lemma pointers_fmap m : pointers m ≡ₚ (map_to_list (next <$> m)).*2.
Proof.
  unfold pointers. rewrite map_to_list_fmap, <- list_fmap_compose. done.
Qed.

Lemma refs_ok_same m m' roots : (forall a, sig <$> m' !! a = sig <$> m !! a) ->
  refs_ok m roots -> refs_ok m' roots.
Proof.
  intros E H.
  assert (Ed : forall a b', m' !! a = Some b' -> exists b, m !! a = Some b /\ sig b' = sig b).
  { intros a b' Hb. specialize (E a). rewrite Hb in E. destruct (m !! a) as [b|]; [|done]. apply (inj Some) in E. eauto. }
  assert (En : forall a, next <$> m' !! a = next <$> m !! a).
  { intros a. specialize (E a). destruct (m !! a), (m' !! a); unfold sig in E; simpl in *; congruence. }
  assert (Ep : pointers m' ≡ₚ pointers m).
  { rewrite !pointers_fmap. replace (next <$> m') with (next <$> m); [done|].
    apply map_eq. intros a. by rewrite !lookup_fmap, En. }
  constructor.
  - destruct (m' !! 0) eqn:E0; [|done]. destruct (Ed _ _ E0) as (b & Hb & _). by rewrite (ro_null _ _ H) in Hb.
  - apply H.
  - intros p. rewrite Ep. intros Hp. destruct (ro_chain _ _ H p Hp) as (ps & Hc). exists ps.
    eapply chain_from_ext; [|exact Hc]. intros a _. apply En.
  - intros p b' Hb'. destruct (Ed _ _ Hb') as (b & Hb & Es). injection Es as _ -> _ _.
    rewrite (cnt_perm _ _ _ Ep). by apply (ro_count _ _ H).
  - intros p b' Hb'. destruct (Ed _ _ Hb') as (b & Hb & Es). unfold pbuf_get_allocsrc.
    injection Es as _ _ -> ->. exact (ro_src _ _ H _ _ Hb).
Qed.

(** A reference more, or one less that is not the last. *)
Lemma refs_ok_ref m roots p b : refs_ok m roots -> m !! p = Some b -> ref b < 255 ->
  refs_ok (<[p := set_ref (ref b + 1) b]> m) (p :: roots).
Proof.
  intros H Hb Hlt. set (b' := set_ref (ref b + 1) b).
  assert (forall x, cnt x (pointers (<[p := b']> m)) = cnt x (pointers m)) as Ec
    by (intros x; pose proof (cnt_change x m p b b' Hb); simpl in *; lia).
  assert (forall x, x ∈ pointers (<[p := b']> m) <-> x ∈ pointers m) as Ein
    by (intros x; by rewrite <- !cnt_pos, Ec).
  constructor.
  - by apply (null_upd _ _ _ _ _ H Hb).
  - rewrite not_elem_of_cons. split; [|apply H]. intros <-. by rewrite (ro_null _ _ H) in Hb.
  - intros q Hq. rewrite elem_of_app, elem_of_cons, Ein in Hq.
    assert (exists ps, chain_from m q ps) as (ps & Hc).
    { destruct Hq as [[->|Hq]|Hq]; [destruct (live_chain _ _ _ _ H Hb) as (ps & Hc); eauto|..];
        apply (ro_chain _ _ H); apply elem_of_app; auto. }
    exists ps. eapply chain_from_ext; [|exact Hc]. intros a _.
    destruct (decide (a = p)) as [->|]; [by rewrite lookup_insert_eq, Hb|by rewrite lookup_insert_ne].
  - intros q c Hc. rewrite Ec, cnt_cons. destruct (decide (q = p)) as [->|].
    + rewrite lookup_insert_eq in Hc. injection Hc as <-. rewrite Z.eqb_refl. simpl.
      pose proof (ro_count _ _ H _ _ Hb). lia.
    + rewrite lookup_insert_ne in Hc by done. pose proof (ro_count _ _ H _ _ Hc).
      destruct (Z.eqb_spec q p); [done|]. lia.
  - intros q c. by apply (src_upd _ _ _ _ _ H Hb).
Qed.

Lemma refs_ok_unref m roots p b : refs_ok m (p :: roots) -> m !! p = Some b -> 1 < ref b ->
  refs_ok (<[p := set_ref (ref b - 1) b]> m) roots.
Proof.
  intros H Hb Hlt. set (b' := set_ref (ref b - 1) b).
  assert (forall x, cnt x (pointers (<[p := b']> m)) = cnt x (pointers m)) as Ec
    by (intros x; pose proof (cnt_change x m p b b' Hb); simpl in *; lia).
  assert (forall x, x ∈ pointers (<[p := b']> m) <-> x ∈ pointers m) as Ein
    by (intros x; by rewrite <- !cnt_pos, Ec).
  constructor.
  - by apply (null_upd _ _ _ _ _ H Hb).
  - intros Hz. apply (ro_zero _ _ H). by right.
  - intros q Hq. rewrite elem_of_app, Ein in Hq.
    destruct (ro_chain _ _ H q) as (ps & Hc); [rewrite elem_of_app, elem_of_cons; tauto|].
    exists ps. eapply chain_from_ext; [|exact Hc]. intros a _.
    destruct (decide (a = p)) as [->|]; [by rewrite lookup_insert_eq, Hb|by rewrite lookup_insert_ne].
  - intros q c Hc. rewrite Ec. destruct (decide (q = p)) as [->|].
    + rewrite lookup_insert_eq in Hc. injection Hc as <-. simpl.
      pose proof (ro_count _ _ H _ _ Hb) as Hn. rewrite cnt_cons_eq in Hn. lia.
    + rewrite lookup_insert_ne in Hc by done. pose proof (ro_count _ _ H _ _ Hc) as Hn.
      rewrite cnt_cons in Hn. destruct (Z.eqb_spec q p); [done|]. lia.
  - intros q c. by apply (src_upd _ _ _ _ _ H Hb).
Qed.

(** The pointers in a struct that leaves become roots. *)
Definition as_roots (p : Z) (roots : list Z) : list Z := if Z.eqb p 0 then roots else p :: roots.

Lemma cnt_as_roots x p roots : x <> 0 ->
  cnt x (as_roots p roots) = ((if Z.eqb x p then 1 else 0) + cnt x roots)%nat.
Proof. intros Hx. unfold as_roots. destruct (Z.eqb_spec p 0) as [->|]; [|done]. by destruct (Z.eqb_spec x 0). Qed.

Lemma elem_as_roots x p roots : x ∈ as_roots p roots -> x = p \/ x ∈ roots.
Proof. unfold as_roots. destruct (Z.eqb p 0); [by right|]. by rewrite elem_of_cons. Qed.

Lemma zero_as_roots p roots : 0 ∉ roots -> 0 ∉ as_roots p roots.
Proof. unfold as_roots. destruct (Z.eqb_spec p 0); [done|]. rewrite not_elem_of_cons. by split. Qed.

(** The last reference of a buffer goes. *)
Lemma refs_ok_delete m roots p b : refs_ok m (p :: roots) -> m !! p = Some b -> ref b = 1 ->
  refs_ok (delete p m) (as_roots (next b) roots).
Proof.
  intros H Hb H1. pose proof (ro_count _ _ H _ _ Hb) as Hn. rewrite cnt_cons_eq in Hn.
  assert (p <> 0) as Hp0 by (apply (roots_live _ _ _ H); left).
  assert (p ∉ roots) as Hpr by (apply cnt_zero; lia).
  assert (p ∉ pointers m) as Hpp by (apply cnt_zero; lia).
  constructor.
  - rewrite lookup_delete_ne by done. apply H.
  - apply zero_as_roots. intros Hz. apply (ro_zero _ _ H). by right.
  - intros q Hq. assert (q ∈ roots \/ q ∈ pointers m) as Hq'.
    { apply elem_of_app in Hq as [[->|]%elem_as_roots|Hq]; [|by left|].
      - right. apply elem_pointers. eauto.
      - right. apply elem_pointers in Hq as (a & c & Hc & <-). apply lookup_delete_Some in Hc as [_ Hc].
        apply elem_pointers. eauto. }
    destruct (ro_chain _ _ H q) as (ps & Hc); [rewrite elem_of_app, elem_of_cons; tauto|].
    exists ps. eapply chain_from_ext; [|exact Hc]. intros a Ha. rewrite lookup_delete_ne; [done|].
    intros <-. destruct (chain_from_pred _ _ _ _ Hc Ha) as [->|]; [tauto|done].
  - intros q c Hc. apply lookup_delete_Some in Hc as [Hne Hc]. pose proof (ro_count _ _ H _ _ Hc) as Hq.
    rewrite cnt_cons, (cnt_delete q _ _ _ Hb) in Hq.
    rewrite cnt_as_roots by (intros ->; by rewrite (ro_null _ _ H) in Hc).
    destruct (Z.eqb_spec q p); [done|]. lia.
  - intros q c Hc. apply lookup_delete_Some in Hc as [_ Hc]. by apply (ro_src _ _ H _ _ Hc).
Qed.

(** A struct's [next] is cleared. *)
Lemma refs_ok_unlink m roots p b : refs_ok m roots -> m !! p = Some b ->
  refs_ok (<[p := set_next 0 b]> m) (as_roots (next b) roots).
Proof.
  intros H Hb. set (b' := set_next 0 b). constructor.
  - by apply (null_upd _ _ _ _ _ H Hb).
  - apply zero_as_roots, H.
  - intros q Hq. assert (q = 0 \/ q ∈ roots ++ pointers m) as [->|Hq']; [|by exists []|].
    { apply elem_of_app in Hq as [[->|]%elem_as_roots|Hq].
      - right. apply elem_of_app. right. apply elem_pointers. eauto.
      - right. apply elem_of_app. by left.
      - apply elem_pointers in Hq as (a & c & Hc & <-). destruct (decide (a = p)) as [->|].
        + rewrite lookup_insert_eq in Hc. injection Hc as <-. by left.
        + rewrite lookup_insert_ne in Hc by done. right. apply elem_of_app. right. apply elem_pointers. eauto. }
    destruct (ro_chain _ _ H q Hq') as (ps & Hc). clear Hq Hq'. revert q Hc.
    induction ps as [|a ps IH]; intros q; [by exists []|]. intros (-> & Ha & c & Hc & Hps).
    destruct (decide (a = p)) as [->|].
    + exists [p]. split; [done|]. split; [done|]. exists b'. by rewrite lookup_insert_eq.
    + destruct (IH _ Hps) as (qs & Hqs). exists (a :: qs). split; [done|]. split; [done|].
      exists c. by rewrite lookup_insert_ne.
  - intros q c Hc. assert (q <> 0) as Hq0
      by (intros ->; by rewrite (null_upd _ _ _ _ b' H Hb) in Hc).
    rewrite cnt_as_roots by done. pose proof (cnt_change q m p b b' Hb) as E. simpl in E.
    destruct (Z.eqb_spec q 0); [done|]. destruct (decide (q = p)) as [->|].
    + rewrite lookup_insert_eq in Hc. injection Hc as <-. pose proof (ro_count _ _ H _ _ Hb). simpl. lia.
    + rewrite lookup_insert_ne in Hc by done. pose proof (ro_count _ _ H _ _ Hc). lia.
  - intros q c. by apply (src_upd _ _ _ _ _ H Hb).
Qed.

(** A struct without next gets one, whose chain it is not in. *)
Lemma refs_ok_link m roots p b t ts : refs_ok m (t :: roots) -> m !! p = Some b -> next b = 0 ->
  chain_from m t ts -> p ∉ ts -> refs_ok (<[p := set_next t b]> m) roots.
Proof.
  intros H Hb Hn Ht Hpt. set (b' := set_next t b).
  assert (Ht' : chain_from (<[p := b']> m) t ts).
  { eapply chain_from_ext; [|exact Ht]. intros a Ha. by rewrite lookup_insert_ne by (by intros ->). }
  constructor.
  - by apply (null_upd _ _ _ _ _ H Hb).
  - intros Hz. apply (ro_zero _ _ H). by right.
  - intros q Hq. assert (q ∈ (t :: roots) ++ pointers m) as Hq'.
    { apply elem_of_app in Hq as [Hq|Hq]; [apply elem_of_app; left; by right|].
      apply elem_pointers in Hq as (a & c & Hc & <-). destruct (decide (a = p)) as [->|].
      - rewrite lookup_insert_eq in Hc. injection Hc as <-. left.
      - rewrite lookup_insert_ne in Hc by done. apply elem_of_app. right. apply elem_pointers. eauto. }
    destruct (ro_chain _ _ H q Hq') as (ps & Hc). clear Hq Hq'. revert q Hc.
    induction ps as [|a ps IH]; intros q; [by exists []|]. intros (-> & Ha & c & Hc & Hps).
    destruct (decide (a = p)) as [->|].
    + exists (p :: ts). split; [done|]. split; [done|]. exists b'. by rewrite lookup_insert_eq.
    + destruct (IH _ Hps) as (qs & Hqs). exists (a :: qs). split; [done|]. split; [done|].
      exists c. by rewrite lookup_insert_ne.
  - intros q c Hc. assert (q <> 0) as Hq0
      by (intros ->; by rewrite (null_upd _ _ _ _ b' H Hb) in Hc).
    pose proof (cnt_change q m p b b' Hb) as E. simpl in E. rewrite Hn in E.
    destruct (Z.eqb_spec q 0); [done|]. destruct (decide (q = p)) as [->|].
    + rewrite lookup_insert_eq in Hc. injection Hc as <-. pose proof (ro_count _ _ H _ _ Hb) as Hq.
      rewrite cnt_cons in Hq. simpl. lia.
    + rewrite lookup_insert_ne in Hc by done. pose proof (ro_count _ _ H _ _ Hc) as Hq.
      rewrite cnt_cons in Hq. lia.
  - intros q c. by apply (src_upd _ _ _ _ _ H Hb).
Qed.

(** A new struct, with one reference. *)
Lemma refs_ok_new m roots p b : refs_ok m roots -> p <> 0 -> m !! p = None ->
  next b = 0 -> ref b = 1 -> (Z.land (flags b) PBUF_FLAG_IS_CUSTOM = 0 -> pbuf_get_allocsrc b <= 2) ->
  refs_ok (<[p := b]> m) (p :: roots).
Proof.
  intros H Hp Hm Hn Hr Hsrc.
  assert (p ∉ roots ++ pointers m) as Hout.
  { intros Hin. destruct (ro_chain _ _ H p Hin) as ([|a ps] & Hc); [done|].
    destruct Hc as (<- & _ & c & Hc & _). by rewrite Hc in Hm. }
  assert (cnt p roots = 0%nat /\ cnt p (pointers m) = 0%nat) as [E1 E2]
    by (rewrite not_elem_of_app in Hout; split; apply cnt_zero; tauto).
  constructor.
  - rewrite lookup_insert_ne by done. apply H.
  - rewrite not_elem_of_cons. split; [done|apply H].
  - intros q Hq. assert (q = p \/ q = 0 \/ q ∈ roots ++ pointers m) as [->|[->|Hq']]; [|..|by exists []|].
    { apply elem_of_app in Hq as [[->|]%elem_of_cons|Hq]; [by left|rewrite elem_of_app; tauto|].
      apply elem_pointers in Hq as (a & c & Hc & <-). destruct (decide (a = p)) as [->|].
      - rewrite lookup_insert_eq in Hc. injection Hc as <-. auto.
      - rewrite lookup_insert_ne in Hc by done. right; right. apply elem_of_app. right. apply elem_pointers. eauto. }
    + exists [p]. split; [done|]. split; [done|]. exists b. by rewrite lookup_insert_eq.
    + destruct (ro_chain _ _ H q Hq') as (ps & Hc). exists ps. eapply chain_from_ext; [|exact Hc].
      intros a Ha. rewrite lookup_insert_ne; [done|]. intros <-.
      destruct (chain_from_lookup _ _ _ _ Hc Ha) as [_ [? E]]. by rewrite E in Hm.
  - intros q c Hc. rewrite (cnt_new _ _ _ _ Hm), Hn, cnt_cons. destruct (decide (q = p)) as [->|].
    + rewrite lookup_insert_eq in Hc. injection Hc as <-. rewrite Z.eqb_refl, E1, E2, Hr.
      destruct (Z.eqb_spec p 0); [done|]. simpl. lia.
    + rewrite lookup_insert_ne in Hc by done. pose proof (ro_count _ _ H _ _ Hc).
      destruct (Z.eqb_spec q p); [done|]. destruct (Z.eqb_spec q 0) as [->|]; [by rewrite (ro_null _ _ H) in Hc|].
      simpl. lia.
  - intros q c Hc. destruct (decide (q = p)) as [->|].
    + rewrite lookup_insert_eq in Hc. by injection Hc as <-.
    + rewrite lookup_insert_ne in Hc by done. exact (ro_src _ _ H _ _ Hc).
Qed.

(** ** No leak: every buffer is in the chain of a root *)

Lemma chain_from_succ m r ps a b : chain_from m r ps -> a ∈ ps -> m !! a = Some b -> next b <> 0 ->
  next b ∈ ps.
Proof.
  intros H (xs & ys & ->)%list_elem_of_split Hb Hn. apply chain_from_app in H as (_ & _ & c & Hc & H).
  rewrite Hb in Hc. injection Hc as <-. destruct ys as [|y ys]; [done|]. destruct H as (-> & _).
  apply elem_of_app. right. right. left.
Qed.

Lemma chain_from_size m p ps : chain_from m p ps -> (length ps <= size m)%nat.
Proof.
  intros H. rewrite <- size_dom, <- (size_list_to_set (C := gset Z) ps) by by eapply chain_from_NoDup.
  apply subseteq_size. intros a Ha%elem_of_list_to_set. apply elem_of_dom. by eapply chain_from_lookup.
Qed.

Lemma reached m roots p b : refs_ok m roots -> m !! p = Some b ->
  exists r ps, r ∈ roots /\ chain_from m r ps /\ p ∈ ps.
Proof.
  intros H Hb. destruct (live_chain _ _ _ _ H Hb) as (ps & Hc).
  remember (size m - length ps)%nat as n eqn:En. revert p b ps Hb Hc En.
  induction n as [n IH] using lt_wf_ind. intros p b ps Hb Hc ->.
  destruct (decide (p ∈ roots)) as [Hr|Hr]; [exists p, (p :: ps); split_and!; [done..|left]|].
  assert (p ∈ pointers m) as Hp.
  { apply cnt_pos. apply cnt_zero in Hr. pose proof (ro_count _ _ H _ _ Hb). lia. }
  apply elem_pointers in Hp as (a & c & Ha & En).
  assert (Hca : chain_from m a (a :: p :: ps)).
  { split; [done|]. split; [|exists c; by rewrite En].
    intros ->. by rewrite (ro_null _ _ H) in Ha. }
  pose proof (chain_from_size _ _ _ Hca) as Hsz. simpl in Hsz.
  destruct (IH (size m - length (p :: ps))%nat ltac:(simpl; lia) a c (p :: ps) Ha Hca eq_refl)
    as (r & qs & Hin & Hq & Haq).
  exists r, qs. split_and!; [done..|]. rewrite <- En. eapply chain_from_succ; [done..|].
  rewrite En. intros ->. by rewrite (ro_null _ _ H) in Hb.
Qed.

Lemma no_roots_no_heap m : refs_ok m [] -> m = ∅.
Proof.
  intros H. apply map_empty. intros p. destruct (m !! p) as [b|] eqn:Hb; [|done].
  destruct (reached _ _ _ _ H Hb) as (r & ps & Hr & _). by apply not_elem_of_nil in Hr.
Qed.

(** ** Lengths *)

Definition tot_of (m : gmap Z pbuf) (p : Z) : Z := if Z.eqb p 0 then 0 else default 0 (tot_len <$> m !! p).

Definition len_ok (m : gmap Z pbuf) (b : pbuf) : Prop :=
  0 <= len b <= tot_len b /\ tot_len b <= 65535 /\ tot_len b = len b + tot_of m (next b).
Definition lens_ok (m : gmap Z pbuf) : Prop := forall p b, m !! p = Some b -> len_ok m b.

Record heap_ok (m : gmap Z pbuf) (roots : list Z) : Prop := {
  ho_refs : refs_ok m roots;
  ho_lens : lens_ok m;
}.

Lemma tot_of_ext m m' p : tot_len <$> m' !! p = tot_len <$> m !! p -> tot_of m' p = tot_of m p.
Proof. intros E. unfold tot_of. destruct (Z.eqb p 0); [done|]. by rewrite E. Qed.

Lemma lens_ok_upd m p b b' : lens_ok m -> m !! p = Some b -> next b' = next b -> len b' = len b ->
  tot_len b' = tot_len b -> lens_ok (<[p := b']> m).
Proof.
  intros H Hb En El Et q c Hc.
  assert (forall x, tot_of (<[p := b']> m) x = tot_of m x) as E.
  { intros x. apply tot_of_ext. destruct (decide (x = p)) as [->|]; [|by rewrite lookup_insert_ne].
    rewrite lookup_insert_eq, Hb. simpl. congruence. }
  unfold len_ok. rewrite E. destruct (decide (q = p)) as [->|].
  - rewrite lookup_insert_eq in Hc. injection Hc as <-. rewrite En, El, Et. exact (H _ _ Hb).
  - rewrite lookup_insert_ne in Hc by done. exact (H _ _ Hc).
Qed.

Lemma lens_ok_delete m p : lens_ok m -> p ∉ pointers m -> lens_ok (delete p m).
Proof.
  intros H Hp q c Hc. apply lookup_delete_Some in Hc as [_ Hc]. unfold len_ok. rewrite (tot_of_ext m); [exact (H _ _ Hc)|].
  rewrite lookup_delete_ne; [done|]. intros ->. apply Hp, elem_pointers. eauto.
Qed.

Lemma lens_ok_new m p b : lens_ok m -> m !! p = None -> p ∉ pointers m -> next b = 0 ->
  0 <= len b <= 65535 -> tot_len b = len b -> lens_ok (<[p := b]> m).
Proof.
  intros H Hm Hp Hn Hl Ht q c Hc. destruct (decide (q = p)) as [->|].
  - rewrite lookup_insert_eq in Hc. injection Hc as <-. unfold len_ok. rewrite Hn. unfold tot_of. simpl. lia.
  - rewrite lookup_insert_ne in Hc by done. unfold len_ok. rewrite (tot_of_ext m); [exact (H _ _ Hc)|].
    rewrite lookup_insert_ne; [done|]. intros ->. apply Hp, elem_pointers. eauto.
Qed.

(** ** Dereferencing *)

(** What survives has changed its reference count only; only bytes that belong
    to what did not survive are gone. *)
Record shrunk (h h' : Heap) : Prop := {
  sh_sub : forall a b', pbufs h' !! a = Some b' -> exists b, pbufs h !! a = Some b /\ b' = set_ref (ref b') b;
  sh_blocks : forall x, blocks h' !! x = blocks h !! x \/
    exists a b, pbufs h !! a = Some b /\ pbufs h' !! a = None /\ (x = a \/ x = (payload b).1);
}.

#[export] Instance shrunk_preorder : PreOrder shrunk.
Proof.
  split.
  - intros h. constructor; [|auto]. intros a b Hb. exists b. split; [done|]. by destruct b.
  - intros h1 h2 h3 [S12 B12] [S23 B23]. constructor.
    + intros a b3 H3. destruct (S23 _ _ H3) as (b2 & H2 & E2). destruct (S12 _ _ H2) as (b1 & H1 & E1).
      exists b1. split; [done|]. rewrite E2, E1. done.
    + intros x. destruct (B23 x) as [->|(a & b & Ha & Hn & Hx)].
      * destruct (B12 x) as [->|(a & b & Ha & Hn & Hx)]; [by left|]. right. exists a, b. split; [done|].
        split; [|done]. destruct (pbufs h3 !! a) as [b3|] eqn:E; [|done].
        destruct (S23 _ _ E) as (b2 & H2 & _). by rewrite Hn in H2.
      * destruct (S12 _ _ Ha) as (b1 & H1 & E1). right. exists a, b1. split_and!; [done..|].
        rewrite E1 in Hx. done.
Qed.

Lemma shrunk_size h h' : shrunk h h' -> (size (pbufs h') <= size (pbufs h))%nat.
Proof.
  intros S. rewrite <- !size_dom. apply subseteq_size. intros a [b' Hb']%elem_of_dom.
  destruct (sh_sub _ _ S _ _ Hb') as (b & Hb & _). apply elem_of_dom. eauto.
Qed.

Section heap.
Context `{CustomFree}.
Variable fuel : nat.

Lemma dealloc_ok p b b1 h : (Z.land (flags b) PBUF_FLAG_IS_CUSTOM = 0 -> pbuf_get_allocsrc b <= 2) ->
  pbufs h !! p = Some b1 -> wp (pbuf_dealloc p b h) (fun h' => pbufs h' = delete p (pbufs h) /\ shrunk h h').
Proof.
  intros Hs Hb. unfold pbuf_dealloc.
  assert (forall h', pbufs h' = delete p (pbufs h) ->
    (forall x, x <> p -> x <> (payload b1).1 -> blocks h' !! x = blocks h !! x) -> shrunk h h') as S.
  { intros h' E HB. constructor.
    - intros a b'. rewrite E. intros [_ Ha]%lookup_delete_Some. exists b'. split; [done|]. by destruct b'.
    - intros x. destruct (decide (x = p \/ x = (payload b1).1)) as [Hx|Hx]; [|left; apply HB; tauto].
      right. exists p, b1. split; [done|]. rewrite E. split; [apply lookup_delete_eq|done]. }
  destruct (Z.eqb_spec (Z.land (flags b) PBUF_FLAG_IS_CUSTOM) 0) as [Ef|Ef]; simpl.
  - specialize (Hs Ef). destruct (Z.leb_spec (pbuf_get_allocsrc b) 2); [|lia].
    apply wp_ret. split; [done|]. apply S; [done|]. intros x Hx _. simpl. by rewrite lookup_delete_ne.
  - apply wp_ret. rewrite custom_free_pbufs. split; [done|]. apply S; [apply custom_free_pbufs|].
    intros x _ Hx. by eapply custom_free_blocks.
Qed.

(** A count's change is all that [upd] does. *)
Lemma shrunk_upd p n h b h' : pbufs h !! p = Some b -> upd p (set_ref n) h = Some h' -> shrunk h h'.
Proof.
  intros Hb E. unfold upd in E. rewrite Hb in E. injection E as <-. constructor; simpl; [|auto].
  intros a b' Ha. destruct (decide (a = p)) as [->|].
  - rewrite lookup_insert_eq in Ha. injection Ha as <-. by exists b.
  - rewrite lookup_insert_ne in Ha by done. exists b'. split; [done|]. by destruct b'.
Qed.

(** A struct whose [next] does not count any more, though it is still there. *)
Definition masked (q : Z) (m : gmap Z pbuf) : gmap Z pbuf := alter (set_next 0) q m.

Lemma masked_insert q p b m : p <> q -> masked q (<[p := b]> m) = <[p := b]> (masked q m).
Proof. intros. unfold masked. by rewrite alter_insert_ne. Qed.

Lemma masked_delete q p m : p <> q -> masked q (delete p m) = delete p (masked q m).
Proof. intros. unfold masked. by rewrite delete_alter_ne by done. Qed.

Lemma masked_lookup q p m : p <> q -> masked q m !! p = m !! p.
Proof. intros. unfold masked. by rewrite lookup_alter_ne. Qed.

Lemma masked_null m : m !! 0 = None -> masked 0 m = m.
Proof. intros E. by apply alter_id; intros b; rewrite E. Qed.

Lemma size_masked q m : size (masked q m) = size m.
Proof. rewrite <- !size_dom. unfold masked. by rewrite dom_alter_L. Qed.

Lemma free_loop_ok q n : forall p count h roots, refs_ok (masked q (pbufs h)) (as_roots p roots) ->
  (forall ps, chain_from (masked q (pbufs h)) p ps -> q ∉ ps) ->
  (size (pbufs h) < n)%nat -> 0 <= count <= 255 ->
  wp (free_loop n p count h) (fun '(h', count') =>
    refs_ok (masked q (pbufs h')) roots /\ shrunk h h' /\ 0 <= count' <= 255).
Proof.
  induction n as [|n IH]; intros p count h roots R Hq Hn Hc; [lia|]. cbn [free_loop].
  unfold as_roots in R. destruct (Z.eqb_spec p 0) as [->|Hp]; [by apply wp_ret|].
  destruct (roots_live _ _ p R) as [_ (b & Hb)]; [left|].
  destruct (live_chain _ _ _ _ R Hb) as (ps & Hps). pose proof (Hq _ Hps) as Hpq.
  rewrite not_elem_of_cons in Hpq. destruct Hpq as [Hne Hpq]. apply not_eq_sym in Hne.
  pose proof Hb as Hb0. rewrite masked_lookup in Hb0 by done. rewrite Hb0. cbn [mbind option_bind].
  pose proof (ro_count _ _ R _ _ Hb) as [_ Hr]. destruct (Z.leb_spec (ref b) 0); [lia|].
  unfold upd. rewrite Hb0. cbn [mbind option_bind]. rewrite u8_id by (unfold byte_ok; lia).
  set (h1 := mkHeap _ _ _). assert (S1 : shrunk h h1).
  { apply (shrunk_upd p (ref b - 1) h b); [done|]. unfold upd. by rewrite Hb0. }
  destruct (Z.eqb_spec (ref b - 1) 0) as [E|E].
  - assert (R' : refs_ok (delete p (masked q (pbufs h))) (as_roots (next b) roots))
      by (apply refs_ok_delete; [done..|lia]).
    apply wp_bind. eapply wp_mono.
    { apply (dealloc_ok p b (set_ref (ref b - 1) b) h1); [exact (ro_src _ _ R _ _ Hb)|apply lookup_insert_eq]. }
    intros h2 [E2 S2]. simpl in E2. rewrite delete_insert_eq in E2.
    eapply wp_mono; [apply (IH (next b) _ h2 roots)|]; rewrite ?E2.
    + by rewrite masked_delete by done.
    + rewrite masked_delete by done. intros qs Hqs. destruct Hps as (_ & _ & b' & Hb' & Hps).
      rewrite Hb in Hb'. injection Hb' as <-.
      replace qs with ps; [done|]. eapply chain_from_unique; [exact Hps|].
      eapply chain_from_ext; [|exact Hqs]. intros a Ha. rewrite lookup_delete_ne; [done|]. intros <-.
      destruct (chain_from_lookup _ _ _ _ Hqs Ha) as [_ [? Hd]]. by rewrite lookup_delete_eq in Hd.
    + rewrite <- (insert_delete_id (pbufs h) p b Hb0), map_size_insert_None in Hn by apply lookup_delete_eq. lia.
    + pose proof (u8_ok (count + 1)) as Hu. unfold byte_ok in Hu. lia.
    + intros [h3 c3] (H3 & S3 & Hc3). split_and!; [done| |lia..]. by rewrite S1, S2.
  - apply wp_ret. split; [|split; [exact S1|done]]. simpl. rewrite masked_insert by done.
    apply refs_ok_unref; [done..|lia].
Qed.

Lemma free_refs_ok p h roots : refs_ok (pbufs h) (p :: roots) -> (size (pbufs h) < fuel)%nat ->
  wp (pbuf_free fuel p h) (fun '(h', n) => refs_ok (pbufs h') roots /\ shrunk h h' /\ 0 <= n <= 255).
Proof.
  intros R Hf. unfold pbuf_free.
  destruct (roots_live _ _ p R) as [Hp _]; [left|]. destruct (Z.eqb_spec p 0); [done|].
  pose proof (masked_null _ (ro_null _ _ R)) as Em.
  eapply wp_mono; [apply (free_loop_ok 0 fuel p 0 h roots)|]; rewrite ?Em.
  - unfold as_roots. by destruct (Z.eqb_spec p 0).
  - intros ps Hc Hz. by destruct (chain_from_lookup _ _ _ _ Hc Hz).
  - done.
  - lia.
  - intros [h' k] (H' & S & ?). split; [|done]. rewrite masked_null in H'; [done|].
    destruct (pbufs h' !! 0) as [b'|] eqn:E; [|done]. destruct (sh_sub _ _ S _ _ E) as (b & Hb & _).
    by rewrite (ro_null _ _ R) in Hb.
Qed.

(** The lengths of what survives stay right. *)
Definition sub (m m' : gmap Z pbuf) : Prop :=
  forall a b', m' !! a = Some b' -> exists b, m !! a = Some b /\ b' = set_ref (ref b') b.

Lemma masked_sub q m m' : sub m m' -> sub (masked q m) (masked q m').
Proof.
  intros S a b' Hb'. destruct (decide (a = q)) as [->|Hne].
  - unfold masked in *. rewrite lookup_alter_eq in *. destruct (m' !! q) as [c'|] eqn:Hc'; [|done].
    destruct (S _ _ Hc') as (c & Hc & E). rewrite Hc. injection Hb' as <-. exists (set_next 0 c).
    split; [done|]. rewrite E. done.
  - rewrite masked_lookup in * by done. by apply S.
Qed.

Lemma sub_chain m m' p ps : sub m m' -> chain_from m' p ps -> chain_from m p ps.
Proof.
  intros S Hc. eapply chain_from_ext; [|exact Hc]. intros a Ha.
  destruct (chain_from_lookup _ _ _ _ Hc Ha) as [_ [b' Hb']]. destruct (S _ _ Hb') as (b & Hb & E).
  rewrite Hb, Hb', E. done.
Qed.

Lemma lens_sub m m' roots : refs_ok m' roots -> sub m m' ->
  (forall a b, m !! a = Some b -> is_Some (m' !! a) -> len_ok m b) -> lens_ok m'.
Proof.
  intros R S L a b' Hb'. destruct (S _ _ Hb') as (b & Hb & E).
  specialize (L a b Hb ltac:(by eexists)). unfold len_ok in *. rewrite E. simpl.
  replace (tot_of m' (next b)) with (tot_of m (next b)); [done|].
  unfold tot_of. destruct (Z.eqb_spec (next b) 0) as [|Hn]; [done|].
  destruct (live_chain _ _ _ _ R Hb') as (ps & _ & _ & b2 & Hb2 & Hps). rewrite Hb' in Hb2. injection Hb2 as <-.
  rewrite E in Hps. simpl in Hps. destruct ps as [|q ps]; [done|].
  destruct Hps as (<- & _ & c & Hc & _). destruct (S _ _ Hc) as (d & Hd & Ec).
  rewrite Hc, Hd, Ec. done.
Qed.

Lemma pbuf_free_ok p h roots : heap_ok (pbufs h) (p :: roots) -> (size (pbufs h) < fuel)%nat ->
  wp (pbuf_free fuel p h) (fun '(h', n) => heap_ok (pbufs h') roots /\ shrunk h h' /\ 0 <= n <= 255).
Proof.
  intros [R L] Hf. eapply wp_mono; [by apply free_refs_ok|]. intros [h' k] (R' & S & Hk).
  split; [|done]. constructor; [done|]. eapply lens_sub; [done|exact (sh_sub _ _ S)|]. intros a b Hb _. exact (L _ _ Hb).
Qed.

Lemma pbuf_ref_ok p b h roots : heap_ok (pbufs h) roots -> pbufs h !! p = Some b -> ref b < 255 ->
  wp (pbuf_ref p h) (fun h' => heap_ok (pbufs h') (p :: roots) /\ blocks h' = blocks h /\
    pbufs h' = <[p := set_ref (ref b + 1) b]> (pbufs h)).
Proof.
  intros [R L] Hb Hlt. unfold pbuf_ref.
  destruct (Z.eqb_spec p 0) as [->|]; [by rewrite (ro_null _ _ R) in Hb|]. rewrite Hb. simpl. pose proof (ro_count _ _ R _ _ Hb) as [_ ?].
  rewrite u8_id by (unfold byte_ok; lia). destruct (Z.eqb_spec (ref b + 1) 0); [lia|].
  unfold upd. rewrite Hb. simpl. apply wp_ret. split_and!; [|done..]. constructor.
  - by apply refs_ok_ref.
  - by eapply lens_ok_upd.
Qed.
End heap.
