(* ===== verification/PbufOps.v ===== *)
(** * Packet buffers: every operation keeps the reference counts and lengths *)
From S2P Require Import Prelude CInt Pbuf PbufRefs.

Section ops.
Context `{CustomFree}.
Variable fuel : nat.

(** ** Allocation *)

Definition fresh (a : Z) (h : Heap) : Prop := a <> 0 /\ pbufs h !! a = None.

Lemma fresh_unlinked a m roots : refs_ok m roots -> m !! a = None -> a <> 0 -> a ∉ roots /\ a ∉ pointers m.
Proof.
  intros R Ha H0. apply not_elem_of_app. intros Hin. destruct (ro_chain _ _ R a Hin) as ([|c ps] & Hc); [done|].
  destruct Hc as (<- & _ & b & Hb & _). by rewrite Hb in Ha.
Qed.

Lemma init_ok a x tot type fl h roots : heap_ok (pbufs h) roots -> fresh a h -> 0 <= tot <= 65535 ->
  (Z.land fl PBUF_FLAG_IS_CUSTOM = 0 -> Z.land (u8 type) PBUF_TYPE_ALLOC_SRC_MASK <= 2) ->
  heap_ok (pbufs (pbuf_init_alloced_pbuf a x tot tot type fl h)) (a :: roots).
Proof.
  intros [R L] [H0 Ha] Ht Hs. simpl. constructor.
  - apply refs_ok_new; try done.
  - apply lens_ok_new; simpl; try done; try lia. by eapply fresh_unlinked.
Qed.

(** What the loop has built so far, of which [rem] bytes are missing. *)
Record pool_inv (h0 h : Heap) (roots qs : list Z) (p last_ rem : Z) : Prop := {
  pi_refs : refs_ok (pbufs h) (as_roots p roots);
  pi_old : forall a, a ∉ qs -> pbufs h !! a = pbufs h0 !! a;
  pi_new : forall a, a ∈ qs -> pbufs h0 !! a = None;
  pi_chain : chain_from (pbufs h) p qs;
  pi_last : p <> 0 -> last_ ∈ qs /\ next <$> pbufs h !! last_ = Some 0;
  pi_lens : forall a b, a ∈ qs -> pbufs h !! a = Some b ->
    0 <= len b <= tot_len b /\ tot_len b <= 65535 /\
    tot_len b = len b + (if Z.eqb a last_ then rem else tot_of (pbufs h) (next b));
}.

(** The chain of an old root has no new buffer. *)
Lemma pool_old_chain h0 h roots qs p l rem r ps : refs_ok (pbufs h0) roots -> pool_inv h0 h roots qs p l rem ->
  r ∈ roots ++ pointers (pbufs h0) -> chain_from (pbufs h) r ps -> forall a, a ∈ ps -> a ∉ qs.
Proof.
  intros R0 I Hr Hc a Ha Hq. destruct (ro_chain _ _ R0 r Hr) as (ps0 & Hc0).
  replace ps with ps0 in *.
  - destruct (chain_from_lookup _ _ _ _ Hc0 Ha) as [_ [b Hb]]. by rewrite (pi_new _ _ _ _ _ _ _ I _ Hq) in Hb.
  - eapply chain_from_unique; [|exact Hc]. eapply chain_from_ext; [|exact Hc0]. intros c Hc'.
    rewrite (pi_old _ _ _ _ _ _ _ I); [done|]. intros Hq'.
    destruct (chain_from_lookup _ _ _ _ Hc0 Hc') as [_ [b Hb]]. by rewrite (pi_new _ _ _ _ _ _ _ I _ Hq') in Hb.
Qed.

Lemma pool_old_len h0 h roots qs p l rem a b : heap_ok (pbufs h0) roots -> pool_inv h0 h roots qs p l rem ->
  a ∉ qs -> pbufs h !! a = Some b -> len_ok (pbufs h) b.
Proof.
  intros [R0 L0] I Hq Hb. rewrite (pi_old _ _ _ _ _ _ _ I _ Hq) in Hb. pose proof (L0 _ _ Hb) as Hl.
  unfold len_ok in *. rewrite (tot_of_ext (pbufs h0)); [done|].
  destruct (decide (next b ∈ qs)) as [Hn|Hn]; [|by rewrite (pi_old _ _ _ _ _ _ _ I)].
  exfalso. destruct (live_chain _ _ _ _ R0 Hb) as ([|c ps] & _ & _ & b' & Hb' & Hc);
    rewrite Hb in Hb'; injection Hb' as <-.
  - simpl in Hc. rewrite Hc in Hn. destruct (chain_from_lookup _ _ _ _ (pi_chain _ _ _ _ _ _ _ I) Hn). done.
  - destruct Hc as (<- & _ & d & Hd & _). by rewrite (pi_new _ _ _ _ _ _ _ I _ Hn) in Hd.
Qed.

(** The pool is empty: what was taken is given back. *)
Lemma pool_fail h0 h roots qs p l rem : heap_ok (pbufs h0) roots -> pool_inv h0 h roots qs p l rem -> p <> 0 ->
  (size (pbufs h) < fuel)%nat ->
  wp (pbuf_free fuel p h) (fun '(h', _) => heap_ok (pbufs h') roots).
Proof.
  intros H0 I Hp Hf. pose proof (pi_refs _ _ _ _ _ _ _ I) as R. unfold as_roots in R.
  destruct (Z.eqb_spec p 0) as [|_]; [done|].
  eapply wp_mono; [by apply free_refs_ok|]. intros [h' k] (R' & S & _). constructor; [done|].
  eapply lens_sub; [done|exact (sh_sub _ _ S)|]. intros a b Hb [b' Hb']. eapply pool_old_len; [done..| |done].
  destruct (reached _ _ _ _ R' Hb') as (r & ps & Hr & Hc & Ha).
  eapply (pool_old_chain _ _ _ _ _ _ _ r); [apply H0|done|apply elem_of_app; by left| |done].
  eapply sub_chain; [exact (sh_sub _ _ S)|exact Hc].
Qed.

(** A chain that gets another one at its end. *)
Lemma chain_extend m m' p qs l b t ts : chain_from m p qs -> l ∈ qs -> m !! l = Some b -> next b = 0 ->
  (forall a, a ∈ qs -> a <> l -> next <$> m' !! a = next <$> m !! a) ->
  next <$> m' !! l = Some t -> chain_from m' t ts -> chain_from m' p (qs ++ ts).
Proof.
  intros Hc Hl Hb Hn E El Ht. revert p Hc Hl E. induction qs as [|c qs IH]; intros p; [by intros _ ?%not_elem_of_nil|].
  intros (-> & Hc0 & d & Hd & Hc) Hl E. cbn [app chain_from]. split; [done|]. split; [done|].
  destruct (decide (c = l)) as [->|Hcl].
  - rewrite Hb in Hd. injection Hd as <-. rewrite Hn in Hc. destruct qs as [|q qs]; [|by destruct Hc as (<- & ? & _)].
    destruct (m' !! l) as [b'|]; [|done]. injection El as El. exists b'. by rewrite El.
  - pose proof (E c ltac:(left) Hcl) as Ec. rewrite Hd in Ec. destruct (m' !! c) as [d'|]; [|done].
    injection Ec as Ec. exists d'. split; [done|]. rewrite Ec. apply IH; [done| |].
    + apply elem_of_cons in Hl as [->|]; done.
    + intros a Ha. apply E. by right.
Qed.

Lemma chain_from_zero m ps : chain_from m 0 ps -> ps = [].
Proof. destruct ps; [done|]. by intros (<- & ? & _). Qed.

(** One more buffer. *)
Lemma pool_step h0 h roots qs p l rem a x qlen junk sz h1 : heap_ok (pbufs h0) roots ->
  pool_inv h0 h roots qs p l rem -> fresh a h -> 0 <= qlen <= rem -> rem <= 65535 ->
  h1 = pbuf_init_alloced_pbuf a x rem qlen (type_value PBUF_POOL) 0 (new_block a junk sz h) ->
  wp (if Z.eqb p 0 then Some h1 else upd l (set_next a) h1) (fun h2 =>
    size (pbufs h2) = S (size (pbufs h)) /\ dom (pbufs h2) = dom (pbufs h) ∪ {[a]} /\
    pool_inv h0 h2 roots (qs ++ [a]) (if Z.eqb p 0 then a else p) a (rem - qlen)).
Proof.
  intros H0 I [Ha0 Ha] Hq Hrem ->. set (nb := mkPbuf 0 x rem qlen (u8 (type_value PBUF_POOL)) 0 1).
  set (h1 := pbuf_init_alloced_pbuf _ _ _ _ _ _ _). assert (E1 : pbufs h1 = <[a := nb]> (pbufs h)) by done.
  pose proof I as [R Old New Ch La Le].
  assert (Haq : a ∉ qs).
  { intros Hin. destruct (chain_from_lookup _ _ _ _ Ch Hin) as [_ [b Hb]]. by rewrite Hb in Ha. }
  assert (Ha0' : pbufs h0 !! a = None) by (rewrite <- Old; done).
  assert (R1 : refs_ok (<[a := nb]> (pbufs h)) (a :: as_roots p roots)) by (apply refs_ok_new; done).
  destruct (fresh_unlinked a _ _ R Ha Ha0) as [_ Hap].
  destruct (Z.eqb_spec p 0) as [->|Hp].
  - apply chain_from_zero in Ch as ->. apply wp_ret. rewrite E1. split; [by rewrite map_size_insert_None|].
    split; [rewrite dom_insert_L; set_solver|]. constructor; rewrite ?E1; simpl.
    + unfold as_roots. destruct (Z.eqb_spec a 0); done.
    + intros c Hc%not_elem_of_cons. rewrite lookup_insert_ne by naive_solver. apply Old, not_elem_of_nil.
    + by intros c ->%list_elem_of_singleton.
    + split; [done|]. split; [done|]. exists nb. by rewrite lookup_insert_eq.
    + intros _. rewrite lookup_insert_eq. split; [left|done].
    + intros c b ->%list_elem_of_singleton. rewrite lookup_insert_eq. intros [= <-]. simpl. rewrite Z.eqb_refl. lia.
  - destruct (La Hp) as [Hl Hln]. destruct (pbufs h !! l) as [bl|] eqn:Hbl; [|done]. injection Hln as Hln.
    assert (Hla : l <> a) by by intros ->. unfold upd. rewrite E1, lookup_insert_ne by done. rewrite Hbl.
    apply wp_ret. cbn [pbufs]. set (m2 := <[l := set_next a bl]> (<[a := nb]> (pbufs h))).
    assert (Ea : m2 !! a = Some nb) by (unfold m2; by rewrite lookup_insert_ne, lookup_insert_eq).
    assert (El : m2 !! l = Some (set_next a bl)) by apply lookup_insert_eq.
    assert (Eo : forall c, c <> a -> c <> l -> m2 !! c = pbufs h !! c)
      by (intros c ??; unfold m2; by rewrite !lookup_insert_ne).
    split; [unfold m2; rewrite map_size_insert, lookup_insert_ne, Hbl, map_size_insert_None by done; done|].
    split; [unfold m2; rewrite !dom_insert_L; apply elem_of_dom_2 in Hbl; set_solver|].
    constructor; cbn [pbufs].
    + unfold as_roots in *. destruct (Z.eqb_spec p 0); [done|].
      eapply (refs_ok_link _ _ l bl a [a]); [done|by rewrite lookup_insert_ne|done| |by intros ?%list_elem_of_singleton].
      split; [done|]. split; [done|]. exists nb. by rewrite lookup_insert_eq.
    + intros c [Hc1 Hc2%not_elem_of_cons]%not_elem_of_app. rewrite Eo; [by apply Old|tauto|by intros ->].
    + intros c [Hc| ->%list_elem_of_singleton]%elem_of_app; [by apply New|done].
    + eapply (chain_extend _ _ p qs l bl a [a]); [exact Ch|done..| | |].
      * intros c Hc Hcl. rewrite Eo; [done|by intros ->|done].
      * by rewrite El.
      * split; [done|]. split; [done|]. by exists nb.
    + intros _. rewrite Ea. split; [apply elem_of_app; right; left|done].
    + intros c b Hc Hb. destruct (decide (c = a)) as [->|Hca].
      { rewrite Ea in Hb. injection Hb as <-. simpl. rewrite Z.eqb_refl. lia. }
      assert (Hcq : c ∈ qs) by (apply elem_of_app in Hc as [|?%list_elem_of_singleton]; done).
      destruct (Z.eqb_spec c a); [done|]. destruct (decide (c = l)) as [->|Hcl].
      * rewrite El in Hb. injection Hb as <-. specialize (Le _ _ Hl Hbl). rewrite Z.eqb_refl in Le. simpl.
        unfold tot_of. destruct (Z.eqb_spec a 0); [done|]. rewrite Ea. simpl. lia.
      * rewrite Eo in Hb by done. specialize (Le _ _ Hcq Hb). destruct (Z.eqb_spec c l); [done|].
        rewrite (tot_of_ext (pbufs h)); [done|]. destruct (decide (next b = l)) as [->|Hnl].
        { rewrite El, Hbl. done. }
        rewrite Eo; [done| |done]. intros E. apply Hap, elem_pointers. eauto.
Qed.

Lemma pool_done h0 h roots qs p l : heap_ok (pbufs h0) roots -> pool_inv h0 h roots qs p l 0 -> p <> 0 ->
  heap_ok (pbufs h) (as_roots p roots).
Proof.
  intros H0 I Hp. constructor; [apply I|]. intros a b Hb.
  destruct (decide (a ∈ qs)) as [Hq|Hq]; [|by eapply pool_old_len].
  destruct (pi_lens _ _ _ _ _ _ _ I _ _ Hq Hb) as (? & ? & E). split_and!; [lia..|].
  rewrite E. destruct (Z.eqb_spec a l) as [->|]; [|done]. destruct (pi_last _ _ _ _ _ _ _ I Hp) as [_ El].
  rewrite Hb in El. injection El as ->. done.
Qed.

Lemma u16_ok z : 0 <= u16 z <= 65535.
Proof. unfold u16. pose proof (Z.mod_pos_bound z (2 ^ 16) ltac:(lia)). lia. Qed.

Lemma pool_loop_ok h0 roots fs : heap_ok (pbufs h0) roots -> NoDup fs.*1 ->
  forall rem offset p l h qs, pool_inv h0 h roots qs p l rem -> 0 <= rem <= 65535 ->
  (forall a, a ∈ fs.*1 -> fresh a h) -> (size (pbufs h) + length fs < fuel)%nat ->
  wp (pool_loop fuel fs rem offset p l h) (fun '(h', r) => heap_ok (pbufs h') (as_roots r roots)).
Proof.
  intros H0 Hnd. induction fs as [|[a junk] fs IH]; intros rem offset p l h qs I Hrem Hfr Hf; cbn [pool_loop].
  - assert (I' : pool_inv h0 (pool_is_empty h) roots qs p l rem) by (destruct I; by constructor).
    destruct (Z.eqb_spec p 0) as [->|Hp]; cbn [negb].
    + apply wp_ret. assert (qs = []) as -> by (eapply chain_from_zero, I').
      cbn. constructor; [exact (pi_refs _ _ _ _ _ _ _ I)|]. intros b c Hc. apply (pool_old_len _ _ _ _ _ _ _ b _ H0 I); [apply not_elem_of_nil|done].
    + apply wp_bind. eapply wp_mono; [eapply pool_fail; [done..|simpl in *; lia]|].
      intros [h' k] H'. by apply wp_ret.
  - cbn in Hnd. apply NoDup_cons in Hnd as [Hni Hnd].
    set (qlen := Z.min rem _). pose proof (u16_ok (PBUF_POOL_BUFSIZE_ALIGNED - LWIP_MEM_ALIGN_SIZE offset)) as Hu.
    assert (Hq : 0 <= qlen <= rem) by (unfold qlen; lia). clearbody qlen.
    apply wp_bind. eapply wp_mono.
    { eapply (pool_step h0 h roots qs p l rem a _ qlen junk); [done..| |done|lia|done]. apply Hfr. left. }
    intros h2 (Hsz & Hdom & I2).
    assert ((if Z.eqb p 0 then a else p) <> 0) as Hp2.
    { destruct (Z.eqb_spec p 0); [|done]. apply (Hfr a). left. }
    rewrite (u16_id (rem - qlen)) by lia. destruct (Z.ltb_spec 0 (rem - qlen)) as [Hlt|Hle].
    + eapply (IH Hnd); [exact I2|lia| |simpl in *; lia].
      intros c Hc. destruct (Hfr c) as [Hc0 Hcn]; [by right|]. split; [done|].
      apply not_elem_of_dom. rewrite Hdom. apply not_elem_of_dom in Hcn. intros [?|?%elem_of_singleton]%elem_of_union; [done|]. by subst.
    + apply wp_ret. assert (rem - qlen = 0) as E by lia. rewrite E in I2. eapply pool_done; done.
Qed.

(** Every kind of allocation, that succeeds or not. *)
Lemma pbuf_alloc_ok fs layer n type h roots : heap_ok (pbufs h) roots -> 0 <= n <= 65535 -> NoDup fs.*1 ->
  (forall a, a ∈ fs.*1 -> fresh a h) -> (size (pbufs h) + length fs < fuel)%nat ->
  wp (pbuf_alloc fuel fs layer n type h) (fun '(h', r) => heap_ok (pbufs h') (as_roots r roots)).
Proof.
  intros H0 Hn Hnd Hfr Hf.
  assert (Href : forall a junk, head fs = Some (a, junk) -> fresh a h).
  { intros a junk E. apply Hfr. destruct fs as [|[??] ?]; [done|]. injection E as -> ->. left. }
  unfold pbuf_alloc. destruct type; cbn zeta.
  - case_match; [by apply wp_ret|]. destruct (head fs) as [[a junk]|] eqn:E; [|by apply wp_ret].
    apply wp_ret. unfold as_roots. destruct (Href _ _ eq_refl) as [Ha0 Han]. destruct (Z.eqb_spec a 0); [done|].
    apply init_ok; [exact H0|split; done|done|done].
  - apply wp_ret. unfold pbuf_alloc_reference. destruct (head fs) as [[a junk]|] eqn:E; [|done]. cbn.
    destruct (Href _ _ eq_refl) as [Ha0 Han]. unfold as_roots. destruct (Z.eqb_spec a 0); [done|].
    apply (init_ok a (0, 0) n (type_value PBUF_ROM) 0 h); [exact H0|split; done|done|done].
  - apply wp_ret. unfold pbuf_alloc_reference. destruct (head fs) as [[a junk]|] eqn:E; [|done]. cbn.
    destruct (Href _ _ eq_refl) as [Ha0 Han]. unfold as_roots. destruct (Z.eqb_spec a 0); [done|].
    apply (init_ok a (0, 0) n (type_value PBUF_REF) 0 h); [exact H0|split; done|done|done].
  - eapply (pool_loop_ok h roots fs H0 Hnd n (layer_size layer) 0 0 h []); [|lia|done..].
    constructor; [apply H0|done|by intros a ?%not_elem_of_nil|done|done|by intros a b ?%not_elem_of_nil].
Qed.

(** ** Chains that nobody else refers into *)

Record owned (m : gmap Z pbuf) (p : Z) (ps : list Z) : Prop := {
  ow_chain : chain_from m p ps;
  ow_ref : forall a b, a ∈ ps -> m !! a = Some b -> ref b = 1;
}.

Lemma two_pointers m a c d e f : m !! c = Some d -> m !! e = Some f -> c <> e -> next d = a -> next f = a ->
  (2 <= cnt a (pointers m))%nat.
Proof.
  intros Hc He Hne <- Hf. rewrite (cnt_delete _ _ _ _ Hc), Z.eqb_refl.
  rewrite (cnt_delete _ (delete c m) e f) by by rewrite lookup_delete_ne. rewrite Hf, Z.eqb_refl. lia.
Qed.

Lemma chain_pred m p ps a : chain_from m p ps -> a ∈ ps -> a <> p ->
  exists e f, e ∈ ps /\ m !! e = Some f /\ next f = a.
Proof.
  revert p. induction ps as [|c ps IH]; intros p; [by intros _ ?%not_elem_of_nil|].
  intros (-> & _ & d & Hd & Hc) [->|Ha]%elem_of_cons Hne; [done|].
  destruct (decide (a = next d)) as [->|Hn]; [exists c, d; split_and!; [left|done..]|].
  destruct (IH _ Hc Ha Hn) as (e & f & He & Hf). exists e, f. split; [by right|done].
Qed.

Lemma owned_pred m roots p ps a c d : refs_ok m roots -> p ∈ roots -> owned m p ps -> a ∈ ps ->
  m !! c = Some d -> next d = a -> c ∈ ps.
Proof.
  intros R Hp [Hch Hown] Ha Hc Hn. destruct (chain_from_lookup _ _ _ _ Hch Ha) as [_ [b Hb]].
  pose proof (ro_count _ _ R _ _ Hb) as [Hcnt _]. rewrite (Hown _ _ Ha Hb) in Hcnt.
  assert (0 < cnt a (pointers m))%nat as Hpos by (apply cnt_pos, elem_pointers; eauto).
  destruct (decide (a = p)) as [->|Hap]; [apply cnt_pos in Hp; lia|].
  destruct (chain_pred _ _ _ _ Hch Ha Hap) as (e & f & He & Hf & Hfn).
  destruct (decide (c = e)) as [->|Hce]; [done|].
  pose proof (two_pointers _ _ _ _ _ _ Hc Hf Hce Hn Hfn). lia.
Qed.

(** Another root's chain does not lead into an owned one. *)
Lemma owned_disjoint m roots p ps t ts : refs_ok m roots -> p ∈ roots -> t ∈ roots -> p <> t -> owned m p ps ->
  chain_from m t ts -> forall a, a ∈ ts -> a ∉ ps.
Proof.
  intros R Hp Ht Hpt Hown Hts. assert (t ∉ ps) as Hni.
  { intros Hin. destruct (chain_pred _ _ _ _ (ow_chain _ _ _ Hown) Hin (not_eq_sym Hpt)) as (e & f & He & Hf & Hn).
    destruct (chain_from_lookup _ _ _ _ (ow_chain _ _ _ Hown) Hin) as [_ [b Hb]].
    pose proof (ro_count _ _ R _ _ Hb) as [Hcnt _]. rewrite (ow_ref _ _ _ Hown _ _ Hin Hb) in Hcnt.
    assert (0 < cnt t (pointers m))%nat by (apply cnt_pos, elem_pointers; eauto). apply cnt_pos in Ht. lia. }
  clear Ht Hpt. revert t Hts Hni. induction ts as [|c ts IH]; intros t; [by intros _ _ a ?%not_elem_of_nil|].
  intros (-> & _ & d & Hd & Hc) Hni a [->|Ha]%elem_of_cons; [done|]. eapply IH; [exact Hc| |done].
  intros Hin. apply Hni. by eapply owned_pred.
Qed.

Lemma chain_last m p ps : chain_from m p ps -> p <> 0 ->
  exists l b, l ∈ ps /\ m !! l = Some b /\ next b = 0 /\
    forall a c, a ∈ ps -> m !! a = Some c -> next c = 0 -> a = l.
Proof.
  revert p. induction ps as [|c ps IH]; intros p; [by intros ->|]. intros (-> & Hc0 & b & Hb & Hc) _.
  destruct (decide (next b = 0)) as [Hn|Hn].
  - rewrite Hn in Hc. apply chain_from_zero in Hc as ->. exists c, b. split_and!; [left|done..|].
    by intros a d ->%list_elem_of_singleton.
  - destruct (IH _ Hc Hn) as (l & bl & Hl & Hbl & Hnl & Hu). exists l, bl. split_and!; [by right|done..|].
    intros a d [->|Ha]%elem_of_cons Hd Hdn; [by rewrite Hb in Hd; injection Hd as <-|]. by eapply Hu.
Qed.

(** ** Concatenation *)

Definition cat_node (t T : Z) (b : pbuf) : pbuf :=
  set_tot_len (tot_len b + T) (if Z.eqb (next b) 0 then set_next t b else b).

Lemma cat_loop_ok t tb n : forall p ps h, chain_from (pbufs h) p ps -> p <> 0 -> (length ps <= n)%nat ->
  t ∉ ps -> pbufs h !! t = Some tb -> 0 <= tot_len tb ->
  (forall a b, a ∈ ps -> pbufs h !! a = Some b ->
     0 <= tot_len b /\ tot_len b + tot_len tb <= 65535 /\ (next b = 0 -> tot_len b = len b)) ->
  wp (cat_loop n p t h) (fun h' => blocks h' = blocks h /\
    (forall a, a ∉ ps -> pbufs h' !! a = pbufs h !! a) /\
    (forall a b, a ∈ ps -> pbufs h !! a = Some b -> pbufs h' !! a = Some (cat_node t (tot_len tb) b))).
Proof.
  induction n as [|n IH]; intros p ps h Hc Hp Hn Ht Htb HT Hps.
  { destruct ps; [simpl in Hc; done|simpl in Hn; lia]. }
  pose proof (chain_from_NoDup _ _ _ Hc) as Hnd.
  destruct ps as [|c ps]; [done|]. destruct Hc as (-> & Hc0 & b & Hb & Hc). cbn [cat_loop].
  rewrite Hb. cbn [mbind option_bind]. rewrite Htb. cbn [mbind option_bind].
  destruct (Hps c b ltac:(left) Hb) as (Hb0 & Hb1 & Hb2). apply not_elem_of_cons in Ht as [Htc Ht].
  apply NoDup_cons in Hnd as [Hcn Hnd]. unfold upd. rewrite Hb. cbn [mbind option_bind].
  rewrite u16_id by lia. set (m1 := <[c := _]> (pbufs h)).
  assert (E1 : forall a, a <> c -> m1 !! a = pbufs h !! a) by (intros a ?; unfold m1; by rewrite lookup_insert_ne).
  assert (E2 : m1 !! c = Some (set_tot_len (tot_len b + tot_len tb) b)) by apply lookup_insert_eq.
  destruct (Z.eqb_spec (next b) 0) as [Hn0|Hn0]; cbn [negb].
  - rewrite (Hb2 Hn0), Z.eqb_refl. cbn [negb pbufs]. rewrite E2. cbn [mbind option_bind].
    rewrite Hn0 in Hc. apply chain_from_zero in Hc as ->. apply wp_ret. cbn. split; [done|]. split.
    + intros a Ha%not_elem_of_cons. rewrite lookup_insert_ne by naive_solver. apply E1. naive_solver.
    + intros a b' ->%list_elem_of_singleton. rewrite Hb. intros [= <-]. rewrite lookup_insert_eq.
      unfold cat_node. by rewrite Hn0.
  - eapply wp_mono; [apply (IH (next b) ps)|]; cbn [pbufs].
    + eapply chain_from_ext; [|exact Hc]. intros a Ha. rewrite E1; [done|]. by intros ->.
    + done.
    + simpl in Hn. lia.
    + done.
    + by rewrite E1.
    + done.
    + intros a b' Ha Hb'. rewrite E1 in Hb' by (by intros ->). apply (Hps a); [by right|done].
    + intros h' (HB & Ho & Hi). cbn in *. split; [done|]. split.
      * intros a [Ha Ha']%not_elem_of_cons. by rewrite Ho, E1.
      * intros a b' [->|Ha]%elem_of_cons Hb'.
        -- rewrite Ho, E2 by done. rewrite Hb in Hb'. injection Hb' as <-. unfold cat_node.
           by destruct (Z.eqb_spec (next b) 0).
        -- apply Hi; [done|]. rewrite E1; [done|]. by intros ->.
Qed.

Lemma chain_tot m p ps a b : lens_ok m -> chain_from m p ps -> a ∈ ps -> m !! a = Some b ->
  tot_len b <= tot_of m p.
Proof.
  intros L. revert p. induction ps as [|c ps IH]; intros p; [by intros _ ?%not_elem_of_nil|].
  intros (-> & Hc0 & d & Hd & Hc) Ha Hb. unfold tot_of at 1. destruct (Z.eqb_spec c 0); [done|].
  rewrite Hd. simpl. apply elem_of_cons in Ha as [->|Ha]; [rewrite Hb in Hd; injection Hd as <-; lia|].
  specialize (IH _ Hc Ha Hb). destruct (L _ _ Hd) as (? & ? & ->). lia.
Qed.

Lemma pbuf_cat_ok p t ps tb h roots : heap_ok (pbufs h) (t :: roots) -> p ∈ roots -> p <> t ->
  owned (pbufs h) p ps -> pbufs h !! t = Some tb -> (size (pbufs h) <= fuel)%nat ->
  tot_of (pbufs h) p + tot_len tb <= 65535 ->
  wp (pbuf_cat fuel p t h) (fun h' => heap_ok (pbufs h') roots /\ blocks h' = blocks h /\
    (forall a, a ∉ ps -> pbufs h' !! a = pbufs h !! a) /\
    (forall a b, a ∈ ps -> pbufs h !! a = Some b -> pbufs h' !! a = Some (cat_node t (tot_len tb) b))).
Proof.
  intros [R L] Hp Hpt Hown Htb Hf HT. unfold pbuf_cat.
  assert (Hp' : p ∈ t :: roots) by by right.
  destruct (roots_live _ _ _ R Hp') as [Hp0 _]. destruct (roots_live _ _ t R) as [Ht0 _]; [left|].
  destruct (Z.eqb_spec p 0); [done|]. destruct (Z.eqb_spec t 0); [done|]. cbn [orb].
  destruct (Z.eqb_spec p t); [done|]. pose proof (ow_chain _ _ _ Hown) as Hc.
  destruct (live_chain _ _ _ _ R Htb) as (ts & Hts).
  assert (Hdis : forall a, a ∈ t :: ts -> a ∉ ps) by (eapply owned_disjoint; [exact R|exact Hp'|left|done|exact Hown|exact Hts]).
  pose proof (Hdis t ltac:(left)) as Htp. destruct (L _ _ Htb) as (HT0 & HT1 & _).
  eapply wp_mono; [eapply (cat_loop_ok t tb fuel p ps h); try done|].
  - pose proof (chain_from_size _ _ _ Hc). lia.
  - lia.
  - intros a b Ha Hb. destruct (L _ _ Hb) as (? & ? & E). pose proof (chain_tot _ _ _ _ _ L Hc Ha Hb).
    split_and!; [lia..|]. intros Hn. rewrite E, Hn. unfold tot_of. simpl. lia.
  - intros h' (HB & Ho & Hi). split; [|done].
    destruct (chain_last _ _ _ Hc Hp0) as (l & bl & Hl & Hbl & Hnl & Hu).
    assert (R1 : refs_ok (<[l := set_next t bl]> (pbufs h)) roots).
    { eapply refs_ok_link; [done..|]. intros Hin. exact (Hdis _ Hin Hl). }
    constructor.
    + eapply refs_ok_same; [|exact R1]. intros a. destruct (decide (a ∈ ps)) as [Ha|Ha].
      * destruct (chain_from_lookup _ _ _ _ Hc Ha) as [_ [b Hb]]. rewrite (Hi _ _ Ha Hb). unfold cat_node.
        destruct (Z.eqb_spec (next b) 0) as [Hn|Hn].
        -- pose proof (Hu _ _ Ha Hb Hn) as ->. rewrite lookup_insert_eq. rewrite Hbl in Hb. by injection Hb as <-.
        -- rewrite lookup_insert_ne, Hb; [done|]. intros <-. rewrite Hbl in Hb. by injection Hb as <-.
      * rewrite Ho by done. rewrite lookup_insert_ne; [done|]. by intros <-.
    + assert (Etp : forall x, (x = 0 \/ x ∉ ps) -> tot_of (pbufs h') x = tot_of (pbufs h) x).
      { intros x Hx. unfold tot_of. destruct (Z.eqb_spec x 0); [done|]. rewrite Ho; [done|]. naive_solver. }
      assert (Eti : forall x, x ∈ ps -> tot_of (pbufs h') x = tot_of (pbufs h) x + tot_len tb).
      { intros x Hx. destruct (chain_from_lookup _ _ _ _ Hc Hx) as [Hx0 [b Hb]]. unfold tot_of.
        destruct (Z.eqb_spec x 0); [done|]. by rewrite (Hi _ _ Hx Hb), Hb. }
      intros a b' Hb'. unfold len_ok. destruct (decide (a ∈ ps)) as [Ha|Ha].
      * destruct (chain_from_lookup _ _ _ _ Hc Ha) as [_ [b Hb]]. rewrite (Hi _ _ Ha Hb) in Hb'. injection Hb' as <-.
        destruct (L _ _ Hb) as (? & ? & E). pose proof (chain_tot _ _ _ _ _ L Hc Ha Hb).
        unfold cat_node. destruct (Z.eqb_spec (next b) 0) as [Hn|Hn]; simpl; (split_and!; [lia..|]).
        -- rewrite Etp by (right; exact Htp). rewrite E, Hn. unfold tot_of at 2.
           destruct (Z.eqb_spec t 0); [done|]. rewrite Htb. unfold tot_of. simpl. lia.
        -- rewrite Eti by by eapply chain_from_succ. lia.
      * rewrite Ho in Hb' by done. rewrite Etp; [exact (L _ _ Hb')|].
        right. intros Hn. apply Ha. exact (owned_pred _ _ _ _ _ _ _ R Hp' Hown Hn Hb' eq_refl).
Qed.

Lemma pbuf_chain_ok p t ps tb h roots : heap_ok (pbufs h) roots -> p ∈ roots -> t ∈ roots -> p <> t ->
  owned (pbufs h) p ps -> pbufs h !! t = Some tb -> ref tb < 255 -> (size (pbufs h) <= fuel)%nat ->
  tot_of (pbufs h) p + tot_len tb <= 65535 ->
  wp (pbuf_chain fuel p t h) (fun h' => heap_ok (pbufs h') roots).
Proof.
  intros H0 Hp Ht Hpt Hown Htb Href Hf HT. unfold pbuf_chain.
  apply list_elem_of_split in Ht as (r1 & r2 & ->).
  assert (Hp' : p ∈ r1 ++ r2) by (rewrite !elem_of_app, elem_of_cons in *; naive_solver).
  assert (H1 : heap_ok (pbufs h) (t :: r1 ++ r2)).
  { destruct H0 as [R L]. constructor; [|done]. eapply refs_ok_cnt; [|exact R]. intros x. cnt_decide. }
  assert (Htps : t ∉ ps).
  { destruct (live_chain _ _ _ _ (ho_refs _ _ H1) Htb) as (ts & Hts).
    eapply (owned_disjoint _ _ p ps t _ (ho_refs _ _ H1)); [by right|left|done|exact Hown|exact Hts|left]. }
  apply wp_bind. eapply wp_mono; [by eapply (pbuf_cat_ok p t ps tb h)|].
  intros h1 (H1' & _ & Ho & _). eapply wp_mono; [eapply pbuf_ref_ok; [exact H1'|by rewrite Ho|done]|].
  intros h2 ([R L] & _). constructor; [|done]. eapply refs_ok_cnt; [|exact R]. intros x. cnt_decide.
Qed.

(** ** A buffer that only its owner points to *)

Definition sole (m : gmap Z pbuf) (p : Z) : Prop := p ∉ pointers m.

Lemma sole_root m roots p b : refs_ok m roots -> p ∈ roots -> m !! p = Some b -> ref b = 1 -> sole m p.
Proof.
  intros R Hp Hb H1. pose proof (ro_count _ _ R _ _ Hb). apply cnt_pos in Hp. apply cnt_zero. lia.
Qed.

(** Its lengths may change together. *)
Lemma heap_ok_sole m roots p b b' : heap_ok m roots -> sole m p -> m !! p = Some b -> sig b' = sig b ->
  0 <= len b' -> tot_len b' <= 65535 -> tot_len b' - len b' = tot_len b - len b -> heap_ok (<[p := b']> m) roots.
Proof.
  intros [R L] Hs Hb Es Hl Ht E. constructor.
  - eapply refs_ok_same; [|exact R]. intros a. destruct (decide (a = p)) as [->|]; [|by rewrite lookup_insert_ne].
    rewrite lookup_insert_eq, Hb. simpl. by rewrite Es.
  - intros a c Hc. unfold len_ok.
    assert (forall x, x <> p -> tot_of (<[p := b']> m) x = tot_of m x) as Et.
    { intros x Hx. apply tot_of_ext. by rewrite lookup_insert_ne. }
    destruct (decide (a = p)) as [->|Hap].
    + rewrite lookup_insert_eq in Hc. injection Hc as <-. destruct (L _ _ Hb) as (? & ? & E').
      assert (next b' = next b) as -> by (unfold sig in Es; congruence).
      rewrite Et; [lia|]. intros En. apply Hs, elem_pointers. eauto.
    + rewrite lookup_insert_ne in Hc by done. rewrite Et; [exact (L _ _ Hc)|].
      intros <-. apply Hs, elem_pointers. eauto.
Qed.

Lemma pbuf_remove_header_ok p n b h roots : heap_ok (pbufs h) roots -> sole (pbufs h) p ->
  pbufs h !! p = Some b -> 0 <= n ->
  wp (pbuf_remove_header p n h) (fun '(h', failed) => heap_ok (pbufs h') roots /\ blocks h' = blocks h /\
    (failed = true <-> len b < n) /\
    pbufs h' = if failed then pbufs h else <[p := set_tot_len (tot_len b - n) (set_len (len b - n)
      (set_payload (ptr_add (payload b) n) b))]> (pbufs h)).
Proof.
  intros H0 Hs Hb Hn. unfold pbuf_remove_header. destruct (Z.eqb_spec p 0) as [->|].
  { by rewrite (ro_null _ _ (ho_refs _ _ H0)) in Hb. }
  destruct (ho_lens _ _ H0 _ _ Hb) as (? & ? & E).
  destruct (Z.ltb_spec 65535 n); [apply wp_ret; split_and!; [done|done|split; [lia|done]|done]|].
  destruct (Z.eqb_spec n 0) as [->|].
  { apply wp_ret. split_and!; [done|done|split; [done|lia]|]. symmetry. apply insert_id. rewrite Hb. f_equal.
    destruct b as [? [] ?????]. unfold ptr_add. cbn. by rewrite !Z.sub_0_r, Z.add_0_r. }
  rewrite Hb. cbn [mbind option_bind]. destruct (Z.ltb_spec (len b) n).
  { apply wp_ret. by split_and!. }
  unfold upd. rewrite Hb. cbn [mbind option_bind]. rewrite !u16_id by lia. apply wp_ret. cbn.
  split_and!; [|done|split; [done|lia]|done]. eapply heap_ok_sole; [exact H0|exact Hs|exact Hb|done|simpl; lia..].
Qed.

Lemma pbuf_add_header_ok p n force b h roots : heap_ok (pbufs h) roots -> sole (pbufs h) p ->
  pbufs h !! p = Some b -> 0 <= n ->
  wp (pbuf_add_header_impl p n force h) (fun '(h', failed) => heap_ok (pbufs h') roots /\ blocks h' = blocks h /\
    pbufs h' = if failed : bool then pbufs h else <[p := set_tot_len (tot_len b + n) (set_len (len b + n)
      (set_payload (ptr_add (payload b) (- n)) b))]> (pbufs h)).
Proof.
  intros H0 Hs Hb Hn. unfold pbuf_add_header_impl. destruct (Z.eqb_spec p 0) as [->|].
  { by rewrite (ro_null _ _ (ho_refs _ _ H0)) in Hb. }
  destruct (ho_lens _ _ H0 _ _ Hb) as (? & ? & E).
  destruct (Z.ltb_spec 65535 n); [by apply wp_ret|]. destruct (Z.eqb_spec n 0) as [->|].
  { apply wp_ret. split_and!; [done..|]. symmetry. apply insert_id. rewrite Hb. f_equal.
    destruct b as [? [] ?????]. unfold ptr_add. cbn. by rewrite !Z.add_0_r. }
  rewrite Hb. cbn [mbind option_bind]. destruct (Z.ltb_spec (u16 (n + tot_len b)) n) as [|Hw]; [by apply wp_ret|].
  assert (n + tot_len b <= 65535) as Hb'.
  { destruct (Z.le_gt_cases (n + tot_len b) 65535); [done|]. unfold u16 in Hw.
    replace (n + tot_len b) with ((n + tot_len b - 65536) + 1 * 2 ^ 16) in Hw by lia.
    rewrite Z.mod_add, Z.mod_small in Hw by lia. lia. }
  destruct (negb _); [by apply wp_ret|]. unfold upd. rewrite Hb. cbn [mbind option_bind].
  rewrite !u16_id by lia. apply wp_ret. cbn. split_and!; [|done..]. eapply heap_ok_sole; [exact H0|exact Hs|exact Hb|done|simpl; lia..].
Qed.

(** ** Taking a buffer off its chain *)

Lemma pbuf_dechain_ok p b h roots : heap_ok (pbufs h) roots -> p ∈ roots -> pbufs h !! p = Some b -> ref b = 1 ->
  (size (pbufs h) < fuel)%nat -> wp (pbuf_dechain fuel p h) (fun '(h', _) => heap_ok (pbufs h') roots).
Proof.
  intros [R L] Hp Hb H1 Hf. pose proof (sole_root _ _ _ _ R Hp Hb H1) as Hs.
  unfold pbuf_dechain. rewrite Hb. cbn [mbind option_bind]. cbv zeta. destruct (L _ _ Hb) as (? & ? & E).
  destruct (Z.eqb_spec (next b) 0) as [Hn|Hn]; cbn [negb].
  { cbn [mbind option_bind]. rewrite Hb. cbn [mbind option_bind].
    rewrite Hn in E. unfold tot_of in E. simpl in E. destruct (Z.eqb_spec (tot_len b) (len b)); [|lia].
    by apply wp_ret. }
  destruct (live_chain _ _ _ _ R Hb) as (ps & _ & _ & b' & Hb' & Hps). rewrite Hb in Hb'. injection Hb' as <-.
  destruct ps as [|q ps]; [done|]. destruct Hps as (Hq & _ & qb & Hqb & Hps). rewrite Hq in *.
  rewrite Hqb. cbn [mbind option_bind]. unfold tot_of in E. destruct (Z.eqb_spec q 0); [done|].
  rewrite Hqb in E. cbn in E. destruct (Z.eqb_spec (tot_len qb) (tot_len b - len b)); [|lia]. cbn [negb].
  destruct (L _ _ Hqb) as (? & ? & _).
  assert (Hpq : p <> q) by (intros ->; apply Hs, elem_pointers; eauto).
  rewrite (upd_eq _ _ _ _ Hqb). cbn [mbind option_bind]. rewrite u16_id by lia.
  replace (<[q := set_tot_len (tot_len b - len b) qb]> (pbufs h)) with (pbufs h).
  2: { symmetry. apply insert_id. rewrite Hqb. f_equal. destruct qb. simpl in *. by subst. }
  rewrite (upd_eq p _ b) by done. cbn [mbind option_bind pbufs].
  set (h1 := mkHeap _ _ _). assert (H1' : heap_ok (pbufs h1) (q :: roots)).
  { constructor; cbn [pbufs h1].
    - assert (R1 : refs_ok (<[p := set_next 0 b]> (pbufs h)) (as_roots q roots)) by (rewrite <- Hq; by apply refs_ok_unlink).
      unfold as_roots in R1. destruct (Z.eqb_spec q 0); [done|]. eapply refs_ok_same; [|exact R1].
      intros a. destruct (decide (a = p)) as [->|]; [by rewrite !lookup_insert_eq|by rewrite !lookup_insert_ne].
    - intros a c Hc. unfold len_ok. destruct (decide (a = p)) as [->|Hap].
      + rewrite lookup_insert_eq in Hc. injection Hc as <-. unfold tot_of. simpl. lia.
      + rewrite lookup_insert_ne in Hc by done. rewrite (tot_of_ext (pbufs h)); [exact (L _ _ Hc)|].
        rewrite lookup_insert_ne; [done|]. intros En. apply Hs, elem_pointers. eauto. }
  apply wp_bind. eapply wp_mono; [apply (pbuf_free_ok fuel q h1 roots H1')|].
  { cbn. rewrite map_size_insert_Some by by eexists. done. }
  intros [h2 k] (Ok2 & S & _). destruct (roots_live _ _ _ (ho_refs _ _ Ok2) Hp) as [_ (b2 & Hb2)].
  rewrite Hb2. cbn [mbind option_bind]. destruct (sh_sub _ _ S _ _ Hb2) as (b1 & Hb1 & E2).
  cbn in Hb1. rewrite lookup_insert_eq in Hb1. injection Hb1 as <-. rewrite E2. cbn.
  rewrite Z.eqb_refl. by apply wp_ret.
Qed.
End ops.
