(* ===== verification/SessionTCP.v ===== *)
(** * The TCP session: splicing a lwIP connection and a proxy socket
    (hev-socks5-session-tcp.c)

    The session's task alternates [tcp_splice_f] (application to proxy) and
    [tcp_splice_b] (proxy to application).  lwIP's callbacks run in another
    task, at every point where the session's task gives up the processor: when
    it yields, and when it waits for the mutex.  A run is therefore driven by a
    script of the results of the socket calls and of the callbacks that happen
    at each of those points. *)
From S2P Require Import Prelude CInt RingBuffer.

(** ** State *)

(** [pcb] says whether [self->pcb] is set; [queue] is the pbuf chain, a list
    of payloads, empty for NULL. *)
Record HevSocks5SessionTCP := mkTCP {
  pcb : bool;
  pcb_eof : bool;
  queue : list (list Z);
  buffer : HevRingBuffer;
}.

(** What the two networks have seen of the session.  [tcp_tx] are the places
    of the ring buffer that lwIP holds references to: [tcp_write] is called
    without the copy flag. *)
Record Net := mkNet {
  sock_tx : list Z;
  sock_shut : bool;
  sock_rx : list Z;
  tcp_rx : list Z;
  recved : Z;
  tcp_tx : list nat;
  tcp_acked : list Z;
  tcp_fin : bool;
}.

Definition St : Type := HevSocks5SessionTCP * Net.

Definition set_pcb b (s : HevSocks5SessionTCP) := mkTCP b (pcb_eof s) (queue s) (buffer s).
Definition set_eof b (s : HevSocks5SessionTCP) := mkTCP (pcb s) b (queue s) (buffer s).
Definition set_queue q (s : HevSocks5SessionTCP) := mkTCP (pcb s) (pcb_eof s) q (buffer s).
Definition set_buffer r (s : HevSocks5SessionTCP) := mkTCP (pcb s) (pcb_eof s) (queue s) r.

Definition net_send bs (n : Net) := mkNet (sock_tx n ++ bs) (sock_shut n) (sock_rx n)
  (tcp_rx n) (recved n) (tcp_tx n) (tcp_acked n) (tcp_fin n).
Definition net_shut (n : Net) := mkNet (sock_tx n) true (sock_rx n)
  (tcp_rx n) (recved n) (tcp_tx n) (tcp_acked n) (tcp_fin n).
Definition net_receive bs (n : Net) := mkNet (sock_tx n) (sock_shut n) (sock_rx n ++ bs)
  (tcp_rx n) (recved n) (tcp_tx n) (tcp_acked n) (tcp_fin n).
Definition net_arrive bs (n : Net) := mkNet (sock_tx n) (sock_shut n) (sock_rx n)
  (tcp_rx n ++ bs) (recved n) (tcp_tx n) (tcp_acked n) (tcp_fin n).
Definition net_recved len (n : Net) := mkNet (sock_tx n) (sock_shut n) (sock_rx n)
  (tcp_rx n) (recved n + len) (tcp_tx n) (tcp_acked n) (tcp_fin n).
Definition net_write l (n : Net) := mkNet (sock_tx n) (sock_shut n) (sock_rx n)
  (tcp_rx n) (recved n) (tcp_tx n ++ l) (tcp_acked n) (tcp_fin n).
Definition net_ack len (d : list Z) (n : Net) := mkNet (sock_tx n) (sock_shut n) (sock_rx n)
  (tcp_rx n) (recved n) (drop len (tcp_tx n))
  (tcp_acked n ++ map (fun a => d !!! a) (take len (tcp_tx n))) (tcp_fin n).
Definition net_fin (n : Net) := mkNet (sock_tx n) (sock_shut n) (sock_rx n)
  (tcp_rx n) (recved n) (tcp_tx n) (tcp_acked n) true.

(** ** lwIP's pbuf chains *)

(** [tot_len] is a [u16_t] that [pbuf_cat] maintains. *)
Definition tot_len (q : list (list Z)) : Z := u16 (Z.of_nat (length (concat q))).

Fixpoint pbuf_free_left (q : list (list Z)) (free_left : Z) : list (list Z) :=
  match q with
  | [] => []
  | p :: q' =>
      if Z.eqb free_left 0 then q
      else if Z.leb (Z.of_nat (length p)) free_left then
        pbuf_free_left q' (u16 (free_left - Z.of_nat (length p)))
      else drop (Z.to_nat free_left) p :: q'
  end.

Definition pbuf_free_header (q : list (list Z)) (size : Z) : list (list Z) :=
  pbuf_free_left q (u16 size).

Definition pbuf_cat (h t : list (list Z)) : list (list Z) := h ++ t.

(** lwipopts.h: TCP_WND = 8 * TCP_MSS with TCP_MSS = 8191. *)
Definition TCP_WND_MAX : Z := 8 * 8191.

Definition ERR_OK : Z := 0.
Definition ERR_WOULDBLOCK : Z := -7.

(** ** The callbacks *)

Definition tcp_recv_handler (p : option (list (list Z))) (st : St) : St * Z :=
  let '(self, net) := st in
  match p with
  | Some p =>
      if bool_decide (queue self = []) then
        ((set_queue p self, net_arrive (concat p) net), ERR_OK)
      else if Z.ltb TCP_WND_MAX (tot_len (queue self)) then (st, ERR_WOULDBLOCK)
      else ((set_queue (pbuf_cat (queue self) p) self, net_arrive (concat p) net), ERR_OK)
  | None => ((set_eof true self, net), ERR_OK)
  end.

Definition tcp_sent_handler (len : Z) (st : St) : St :=
  let '(self, net) := st in
  (set_buffer (hev_ring_buffer_read_release (buffer self) len) self,
   net_ack (Z.to_nat len) (data (buffer self)) net).

Definition tcp_err_handler (st : St) : St :=
  let '(self, net) := st in (set_pcb false self, net).

Inductive tcp_event :=
| TcpRecv (p : option (list (list Z)))
| TcpSent (len : Z)
| TcpErr.

Definition tcp_handle (st : St) (e : tcp_event) : St :=
  match e with
  | TcpRecv p => (tcp_recv_handler p st).1
  | TcpSent len => tcp_sent_handler len st
  | TcpErr => tcp_err_handler st
  end.

(** The callbacks that run while the session's task is away. *)
Definition tcp_handles (evs : St -> list tcp_event) (st : St) : St :=
  foldl tcp_handle st (evs st).

(** ** The two directions *)

(** The result of a [readv] or [writev], whether errno is EAGAIN after it, and
    the bytes a [readv] stored. *)
Record io_result := mkIO {
  io_ret : Z; io_again : bool; io_bytes : list Z;
}.

Definition tcp_splice_f (writev : St -> io_result) (evs : St -> list tcp_event) (st : St)
  : St * Z :=
  let '(self, net) := st in
  let iov := take 64 (queue self) in
  let res := if bool_decide (queue self = []) then if pcb_eof self then -1 else 0 else 1 in
  if bool_decide (iov = []) then
    if Z.ltb res 0 then ((self, net_shut net), res) else (st, res)
  else
    let io := writev st in
    let s := io_ret io in
    if Z.leb s 0 then (st, if (Z.ltb s 0 && io_again io)%bool then 0 else -1)
    else
      let '(self, net) :=
        tcp_handles evs (self, net_send (take (Z.to_nat s) (concat iov)) net) in
      let self := set_queue (pbuf_free_header (queue self) s) self in
      ((self, if pcb self then net_recved (u16 s) net else net), 1).

(** The places of the buffer that [tcp_write (pcb, ptr, len, 0)] refers to;
    its length is a [u16_t]. *)
Definition iov_addrs (v : iovec) : list nat :=
  seq (Z.to_nat (iov_base v)) (Z.to_nat (u16 (iov_len v))).

(** [errs]: what each call of [tcp_write] returns, then what [tcp_output]
    returns.  A failed [tcp_write] takes nothing. *)
Fixpoint tcp_writes (iov : list iovec) (errs : list Z) (net : Net) (err : Z) (s : Z)
  : Net * Z * Z :=
  match iov with
  | [] => (net, Z.lor err (hd ERR_OK errs), s)
  | v :: iov =>
      let e := hd ERR_OK errs in
      let net := if Z.eqb e ERR_OK then net_write (iov_addrs v) net else net in
      tcp_writes iov (tail errs) net (Z.lor err e) (s + iov_len v)
  end.

(** From the socket into the ring buffer. *)
Definition splice_b_read (readv : St -> io_result) (st : St) : St * Z :=
  let '(self, net) := st in
  let iov := hev_ring_buffer_writing (buffer self) in
  if bool_decide (iov = []) then (st, 0)
  else
    let io := readv st in
    let s := io_ret io in
    if Z.leb s 0 then (st, if (Z.ltb s 0 && io_again io)%bool then 0 else -1)
    else
      let filled := with_data (scatter (data (buffer self)) iov (io_bytes io)) (buffer self) in
      ((set_buffer (hev_ring_buffer_write_finish filled s) self,
        net_receive (io_bytes io) net), 1).

(** From the ring buffer to lwIP, with the mutex held. *)
Definition splice_b_write (errs : St -> list Z) (res : Z) (st : St) : St * Z :=
  let '(self, net) := st in
  let '(self, net, res, err) :=
    if pcb self then
      let iov := hev_ring_buffer_reading (buffer self) in
      if bool_decide (iov = []) then
        (self, if Z.ltb res 0 then net_fin net else net, res, ERR_OK)
      else
        let '(net, err, s) := tcp_writes iov (errs st) net ERR_OK 0 in
        (set_buffer (hev_ring_buffer_read_finish (buffer self) s) self, net, 1, err)
    else (self, net, res, ERR_OK) in
  ((self, net), if (negb (pcb self) || negb (Z.eqb err ERR_OK))%bool then -1 else res).

Definition tcp_splice_b (readv : St -> io_result) (evs : St -> list tcp_event)
    (errs : St -> list Z) (st : St) : St * Z :=
  let '(st, res) := splice_b_read readv st in
  splice_b_write errs res (tcp_handles evs st).

(** ** The splice loop *)

(** What one iteration meets: the two socket calls, the callbacks at the two
    mutexes, lwIP's answers, then the callbacks during the yield and whether
    [task_io_yielder] reports an abort. *)
Record turn := mkTurn {
  t_writev : St -> io_result; t_lock_f : St -> list tcp_event;
  t_readv : St -> io_result; t_lock_b : St -> list tcp_event; t_errs : St -> list Z;
  t_yield : St -> list tcp_event; t_abort : bool;
}.

Inductive outcome := Running | Finished | Aborted.

Fixpoint splice_loop (ts : list turn) (st : St) (res_f res_b : Z) : St * outcome :=
  match ts with
  | [] => (st, Running)
  | t :: ts =>
      let '(st, res_f) :=
        if Z.leb 0 res_f then tcp_splice_f (t_writev t) (t_lock_f t) st else (st, res_f) in
      let '(st, res_b) :=
        if Z.leb 0 res_b then tcp_splice_b (t_readv t) (t_lock_b t) (t_errs t) st
        else (st, res_b) in
      if (Z.ltb 0 res_f || Z.ltb 0 res_b || Z.eqb (Z.land res_f res_b) 0)%bool then
        let st := tcp_handles (t_yield t) st in
        if t_abort t then (st, Aborted) else splice_loop ts st res_f res_b
      else (st, Finished)
  end.

(** The wait for the last acknowledgements. *)
Fixpoint drain_loop (ws : list ((St -> list tcp_event) * bool)) (st : St) : St * outcome :=
  if (negb (pcb st.1) || Z.eqb (hev_ring_buffer_get_use_size (buffer st.1)) 0)%bool
  then (st, Finished)
  else
    match ws with
    | [] => (st, Running)
    | (evs, abort) :: ws =>
        let st := tcp_handles evs st in
        if abort then (st, Aborted) else drain_loop ws st
    end.

(** [buffer] is allocated on the splicer's stack, with whatever the stack
    holds, when the splicer starts. *)
Definition hev_socks5_session_tcp_splice (tcp_buffer_size : Z) (fresh : list Z)
    (ts : list turn) (ws : list ((St -> list tcp_event) * bool)) (st : St) : St * outcome * outcome :=
  if pcb st.1 then
    let st := (set_buffer (hev_ring_buffer_alloca tcp_buffer_size fresh) st.1, st.2) in
    let '(st, o1) := splice_loop ts st 1 1 in
    match o1 with
    | Running => (st, o1, Running)
    | _ => let '(st, o2) := drain_loop ws st in (st, o1, o2)
    end
  else (st, Finished, Finished).
