(* ===== verification/PbufSpec.v ===== *)
(** * Packet buffers: a chain is a byte string, which can be read and overwritten *)
From S2P Require Import Prelude CInt Pbuf PbufRefs PbufOps.

(** ** The bytes of a chain *)

(** [cs]: the buffers with their bytes. *)
Fixpoint packet (h : Heap) (p : Z) (cs : list (Z * list Z)) : Prop :=
  match cs with
  | [] => p = 0
  | (a, c) :: cs => p = a /\ a <> 0 /\ exists b, pbufs h !! a = Some b /\ 0 <= len b <= 65535 /\
      rd_bytes (payload b) (len b) h = Some c /\ packet h (next b) cs
  end.

Definition bytes_of (cs : list (Z * list Z)) : list Z := concat cs.*2.

(** The payloads lie in different blocks, and in no other buffer's. *)
Definition separate (m : gmap Z pbuf) (ps : list Z) : Prop := forall a a' b b',
  a ∈ ps -> a' ∈ ps -> a <> a' -> m !! a = Some b -> m !! a' = Some b' ->
  (payload b').1 <> a /\ (payload b').1 <> (payload b).1.

Lemma packet_chain h p cs : packet h p cs -> chain_from (pbufs h) p cs.*1.
Proof.
  revert p. induction cs as [|[a c] cs IH]; intros p; [done|].
  intros (-> & ? & b & Hb & _ & _ & H). split; [done|]. split; [done|]. exists b. split; [done|]. by apply IH.
Qed.

Lemma rd_bytes_frame x n h h' : blocks h' !! x.1 = blocks h !! x.1 -> rd_bytes x n h' = rd_bytes x n h.
Proof. intros E. unfold rd_bytes. by rewrite E. Qed.

Lemma rd_bytes_length x n h c : 0 <= n -> rd_bytes x n h = Some c -> Z.of_nat (length c) = n.
Proof.
  intros Hn. unfold rd_bytes. destruct (Z.eqb_spec n 0) as [->|]; [by intros [= <-]|].
  destruct (blocks h !! x.1) as [l|]; [|done]. cbn [mbind option_bind].
  destruct (Z.leb_spec 0 x.2); [|done]. destruct (Z.leb_spec (x.2 + n) (Z.of_nat (length l))); [|done].
  intros [= <-]. rewrite length_take, length_drop. lia.
Qed.

(** A part of what can be read. *)
Lemma rd_bytes_sub x n h c i k : 0 <= n -> rd_bytes x n h = Some c -> 0 <= i -> 0 <= k -> i + k <= n ->
  rd_bytes (ptr_add x i) k h = Some (take (Z.to_nat k) (drop (Z.to_nat i) c)).
Proof.
  intros Hn Hc Hi Hk Hik. unfold rd_bytes in *. destruct (Z.eqb_spec k 0) as [->|Hk0]; [done|].
  destruct (Z.eqb_spec n 0); [lia|]. cbn [fst snd ptr_add].
  destruct (blocks h !! x.1) as [l|]; [|done]. cbn [mbind option_bind] in *.
  destruct (Z.leb_spec 0 x.2); [|done]. destruct (Z.leb_spec (x.2 + n) (Z.of_nat (length l))); [|done].
  cbn [andb] in *. injection Hc as <-.
  destruct (Z.leb_spec 0 (x.2 + i)); [|lia]. destruct (Z.leb_spec (x.2 + i + k) (Z.of_nat (length l))); [|lia].
  cbn [andb]. f_equal. rewrite Z2Nat.inj_add by lia. rewrite <- drop_drop.
  rewrite skipn_firstn_comm, take_take. f_equal. lia.
Qed.

Lemma packet_frame h h' p cs : (forall a, a ∈ cs.*1 -> pbufs h' !! a = pbufs h !! a) ->
  (forall a b, a ∈ cs.*1 -> pbufs h !! a = Some b -> blocks h' !! (payload b).1 = blocks h !! (payload b).1) ->
  packet h p cs -> packet h' p cs.
Proof.
  revert p. induction cs as [|[a c] cs IH]; intros p Ep Eb; [done|].
  intros (-> & ? & b & Hb & Hl & Hc & H). split; [done|]. split; [done|]. exists b.
  repeat split; [rewrite Ep; [done|left]|lia|lia| |].
  - rewrite (rd_bytes_frame _ _ h); [done|]. apply (Eb a); [left|done].
  - apply IH; [|..|done]; intros; [apply Ep; by right|]. eapply Eb; [by right|done].
Qed.

(** The length of the packet is [tot_len]. *)
Lemma packet_tot h p cs : lens_ok (pbufs h) -> packet h p cs -> tot_of (pbufs h) p = Z.of_nat (length (bytes_of cs)).
Proof.
  intros L. revert p. induction cs as [|[a c] cs IH]; intros p; [by intros ->|].
  intros (-> & Ha & b & Hb & Hl & Hc & H). unfold tot_of. destruct (Z.eqb_spec a 0); [done|].
  rewrite Hb. cbn. destruct (L _ _ Hb) as (_ & _ & ->). rewrite (IH _ H).
  apply rd_bytes_length in Hc; [|lia]. unfold bytes_of. cbn. rewrite length_app. lia.
Qed.

Lemma packet_head h p cs : lens_ok (pbufs h) -> packet h p cs -> p <> 0 ->
  exists b, pbufs h !! p = Some b /\ tot_len b = Z.of_nat (length (bytes_of cs)).
Proof.
  intros L Hp H0. pose proof (packet_tot _ _ _ L Hp) as Et. destruct cs as [|[a c] cs]; [done|].
  destruct Hp as (-> & _ & b & Hb & _). exists b. split; [done|].
  unfold tot_of in Et. destruct (Z.eqb_spec a 0); [done|]. by rewrite Hb in Et.
Qed.

Lemma packet_small h p cs : lens_ok (pbufs h) -> packet h p cs -> Z.of_nat (length (bytes_of cs)) <= 65535.
Proof.
  intros L Hp. rewrite <- (packet_tot _ _ _ L Hp). destruct cs as [|[a c] cs]; [by simpl in Hp; subst|].
  destruct Hp as (-> & Ha & b & Hb & _). unfold tot_of. destruct (Z.eqb_spec a 0); [done|]. rewrite Hb.
  cbn. by destruct (L _ _ Hb) as (_ & ? & _).
Qed.

(** What is left of a chain after [n] bytes, and the offset in its first buffer. *)
Fixpoint skip_list (cs : list (Z * list Z)) (n : nat) : list (Z * list Z) * nat :=
  match cs with
  | [] => ([], n)
  | (a, c) :: cs' => if (length c <=? n)%nat then skip_list cs' (n - length c) else (cs, n)
  end.

Lemma bytes_of_cons a c cs : bytes_of ((a, c) :: cs) = c ++ bytes_of cs.
Proof. done. Qed.

(** What is skipped and what is left. *)
Lemma skip_list_drop cs n : (n <= length (bytes_of cs))%nat ->
  drop n (bytes_of cs) = drop (skip_list cs n).2 (bytes_of (skip_list cs n).1) /\
  match (skip_list cs n).1 with
  | [] => n = length (bytes_of cs) /\ (skip_list cs n).2 = 0%nat
  | (_, c) :: _ => ((skip_list cs n).2 < length c)%nat
  end.
Proof.
  revert n. induction cs as [|[a c] cs IH]; intros n Hn.
  - cbn in *. split; [done|lia].
  - cbn [skip_list]. rewrite bytes_of_cons, length_app in *.
    destruct (Nat.leb_spec (length c) n); [|by split].
    destruct (IH (n - length c)%nat) as [E1 E2]; [lia|]. rewrite drop_app_ge by lia. split; [exact E1|].
    destruct (skip_list cs (n - length c)).1 as [|[? ?] ?]; [|done]. lia.
Qed.

Lemma skip_list_past cs n : (length (bytes_of cs) <= n)%nat -> (skip_list cs n).1 = [].
Proof.
  revert n. induction cs as [|[a c] cs IH]; intros n Hn; [done|]. cbn [skip_list].
  rewrite bytes_of_cons, length_app in Hn. destruct (Nat.leb_spec (length c) n); [apply IH|]; lia.
Qed.

Lemma skip_list_length cs n : (length (skip_list cs n).1 <= length cs)%nat.
Proof.
  revert n. induction cs as [|[a c] cs IH]; intros n; [done|]. cbn [skip_list].
  destruct (length c <=? n)%nat; cbn; [specialize (IH (n - length c)%nat)|]; lia.
Qed.

Lemma skip_list_bytes cs n : bytes_ok (bytes_of cs) -> bytes_ok (bytes_of (skip_list cs n).1).
Proof.
  revert n. induction cs as [|[a c] cs IH]; intros n Hb; [done|]. cbn [skip_list].
  rewrite bytes_of_cons in Hb. destruct (Nat.leb_spec (length c) n); [|done]. apply IH.
  apply Forall_app in Hb as [_ Hb]. exact Hb.
Qed.

Lemma head_drop_lookup (l : list Z) n : head (drop n l) = l !! n.
Proof. revert n. induction l as [|x l IH]; intros [|n]; [done..|]. apply IH. Qed.

Lemma tail_drop (l : list Z) n : tail (drop n l) = drop (S n) l.
Proof. revert n. induction l as [|x l IH]; intros [|n]; [done..|]. apply IH. Qed.

(** Where the two lists differ first. *)
Fixpoint mismatch (l s : list Z) : option nat :=
  match s with
  | [] => None
  | x :: s => if Z.eqb (default 0 (head l)) x then S <$> mismatch (tail l) s else Some O
  end.

Lemma mismatch_none l s : (length s <= length l)%nat -> mismatch l s = None <-> take (length s) l = s.
Proof.
  revert l. induction s as [|x s IH]; intros [|y l] Hl; cbn in *; [done|done|lia|].
  specialize (IH l ltac:(lia)). destruct (Z.eqb_spec y x) as [->|].
  - rewrite fmap_None, IH. split; [by intros ->|by intros [= ->]].
  - split; [done|]. by intros [= ? _].
Qed.

Lemma mismatch_some l s j : (length s <= length l)%nat -> mismatch l s = Some j ->
  take j l = take j s /\ l !! j <> s !! j /\ (j < length s)%nat.
Proof.
  revert l j. induction s as [|x s IH]; intros [|y l] j Hl; cbn in *; [done|done|lia|].
  destruct (Z.eqb_spec y x) as [->|].
  - intros (j' & E & ->)%fmap_Some. destruct (IH l j' ltac:(lia) E) as (E1 & ? & ?). cbn. rewrite E1.
    split_and!; [done|done|lia].
  - intros [= <-]. split_and!; [done| |lia]. cbn. congruence.
Qed.

Lemma min_if x y : (if Z.ltb x y then x else y) = Z.min x y.
Proof. destruct (Z.ltb_spec x y); lia. Qed.

Definition slice (off n : Z) (l : list Z) : list Z := take (Z.to_nat n) (drop (Z.to_nat off) l).

(** A slice that starts in the first of two lists. *)
Lemma slice_app off n c l m : 0 <= off <= Z.of_nat (length c) -> 0 <= n -> m = Z.min n (Z.of_nat (length c) - off) ->
  slice off n (c ++ l) = slice off m c ++ slice 0 (n - m) l.
Proof.
  intros Ho Hn ->. unfold slice. rewrite (drop_app_le c) by lia. rewrite drop_0.
  destruct (Z.le_gt_cases n (Z.of_nat (length c) - off)).
  - rewrite Z.min_l, Z.sub_diag, take_app_le by (rewrite ?length_drop; lia). cbn. by rewrite app_nil_r.
  - rewrite Z.min_r, take_app_ge by (rewrite ?length_drop; lia). f_equal.
    + symmetry. apply take_ge. rewrite length_drop. lia.
    + f_equal. rewrite length_drop. lia.
Qed.

Lemma slice_mismatch l s off : 0 <= off -> off + Z.of_nat (length s) <= Z.of_nat (length l) ->
  mismatch (drop (Z.to_nat off) l) s = None <-> slice off (Z.of_nat (length s)) l = s.
Proof.
  intros Ho Hl. unfold slice. rewrite Nat2Z.id. apply mismatch_none. rewrite length_drop. lia.
Qed.

(** [r] is the first place, from [i], where [s] occurs in [l]; 65535 if there is none. *)
Definition first_occurrence (l s : list Z) (i r : Z) : Prop :=
  (forall j, i <= j < r -> j + Z.of_nat (length s) <= Z.of_nat (length l) -> slice j (Z.of_nat (length s)) l <> s) /\
  (r = 65535 \/ i <= r /\ r + Z.of_nat (length s) <= Z.of_nat (length l) /\ slice r (Z.of_nat (length s)) l = s).

Section spec.
Context `{CustomFree}.
Variable fuel : nat.

(** ** Reading *)

Lemma skip_loop_ok k : forall p cs h n, packet h p cs -> (length cs < k)%nat -> 0 <= n <= 65535 ->
  exists q, skip_loop k p n h = Some (q, Z.of_nat (skip_list cs (Z.to_nat n)).2) /\
    packet h q (skip_list cs (Z.to_nat n)).1.
Proof.
  induction k as [|k IH]; intros p cs h n Hp Hk Hn; [lia|]. cbn [skip_loop].
  destruct cs as [|[a c] cs].
  - simpl in Hp. subst. exists 0. cbn. rewrite Z2Nat.id by lia. done.
  - pose proof Hp as (-> & Ha & b & Hb & Hl & Hc & H'). destruct (Z.eqb_spec a 0); [done|].
    rewrite Hb. cbn [mbind option_bind]. pose proof (rd_bytes_length _ _ _ _ (proj1 Hl) Hc) as Elen.
    cbn [skip_list]. destruct (Z.leb_spec (len b) n).
    + destruct (Nat.leb_spec (length c) (Z.to_nat n)); [|lia]. rewrite u16_id by lia.
      destruct (IH _ _ h (n - len b) H') as (q & E & Hq); [simpl in Hk; lia|lia|].
      exists q. rewrite E. by replace (Z.to_nat (n - len b)) with (Z.to_nat n - length c)%nat in * by lia.
    + destruct (Nat.leb_spec (length c) (Z.to_nat n)); [lia|]. exists a. cbn [fst snd].
      rewrite Z2Nat.id by lia. done.
Qed.

Lemma copy_loop_ok k : forall p cs h n off total out, packet h p cs -> (length cs < k)%nat ->
  0 <= n -> 0 <= off <= 65535 -> 0 <= total -> total + n <= 65535 ->
  copy_loop k p n off total out h =
    Some (out ++ slice off n (bytes_of cs), total + Z.of_nat (length (slice off n (bytes_of cs)))).
Proof.
  induction k as [|k IH]; intros p cs h n off total out Hp Hk Hn Ho Ht Htn; [lia|]. cbn [copy_loop].
  destruct (Z.eqb_spec n 0) as [->|Hn0]; cbn [orb].
  { cbn. by rewrite app_nil_r, Z.add_0_r. }
  destruct cs as [|[a c] cs].
  { simpl in Hp. subst. cbn. unfold slice. by rewrite drop_nil, take_nil, app_nil_r, Z.add_0_r. }
  destruct Hp as (-> & Ha & b & Hb & Hl & Hc & H'). destruct (Z.eqb_spec a 0); [done|].
  rewrite Hb. cbn [mbind option_bind]. pose proof (rd_bytes_length _ _ _ _ (proj1 Hl) Hc) as Elen.
  simpl in Hk. unfold bytes_of. cbn. fold (bytes_of cs).
  destruct (Z.eqb_spec off 0) as [->|Ho0]; cbn [negb andb].
  2: destruct (Z.leb_spec (len b) off).
  2: { rewrite u16_id by lia. rewrite (IH _ cs) by (done || lia). unfold slice. rewrite (drop_app_ge c) by lia.
       by replace (Z.to_nat (off - len b)) with (Z.to_nat off - length c)%nat by lia. }
  all: cbv zeta; first [rewrite (u16_id (len b - 0)) by lia|rewrite (u16_id (len b - off)) by lia]; rewrite min_if; set (m := Z.min _ _).
  all: rewrite (rd_bytes_sub _ (len b) h c) by (first [done|lia]); cbn [mbind option_bind].
  all: rewrite !u16_id by lia; rewrite (IH _ cs) by (done || lia).
  all: rewrite (slice_app _ _ _ _ m) by lia; first [fold (slice off m c)|fold (slice 0 m c)]; rewrite <- app_assoc.
  all: do 2 f_equal; rewrite length_app; unfold slice at 2; rewrite length_take, length_drop; lia.
Qed.

(** [pbuf_copy_partial] copies a slice of the packet, and answers its length. *)
Lemma pbuf_copy_partial_ok p cs h n off : packet h p cs -> (length cs < fuel)%nat ->
  0 <= n <= 65535 -> 0 <= off <= 65535 ->
  pbuf_copy_partial fuel p n off h =
    Some (slice off n (bytes_of cs), Z.of_nat (length (slice off n (bytes_of cs)))).
Proof.
  intros Hp Hf Hn Ho. unfold pbuf_copy_partial. destruct (Z.eqb_spec p 0) as [->|].
  - destruct cs as [|[a c] cs]; [|by destruct Hp as (<- & ? & _)]. cbn. unfold slice. by rewrite drop_nil, take_nil.
  - rewrite (copy_loop_ok _ _ cs) by (done || lia). done.
Qed.

Lemma pbuf_try_get_at_ok p cs h off : packet h p cs -> (length cs < fuel)%nat -> 0 <= off <= 65535 ->
  pbuf_try_get_at fuel p off h = Some (default (-1) (bytes_of cs !! Z.to_nat off)).
Proof.
  intros Hp Hf Ho. unfold pbuf_try_get_at, pbuf_skip_const.
  destruct (skip_loop_ok fuel _ _ _ _ Hp Hf Ho) as (q & -> & Hq). cbn [mbind option_bind].
  destruct (Nat.le_gt_cases (length (bytes_of cs)) (Z.to_nat off)) as [Hle|Hlt].
  - rewrite skip_list_past in Hq by done. simpl in Hq. subst q. cbn. by rewrite lookup_ge_None_2.
  - destruct (skip_list_drop cs (Z.to_nat off)) as [E Hin]; [lia|].
    pose proof (lookup_drop (bytes_of cs) (Z.to_nat off) 0) as E0. rewrite E, Nat.add_0_r, lookup_drop, Nat.add_0_r in E0.
    destruct (skip_list cs (Z.to_nat off)) as [[|[a c] cs'] k]; cbn [fst snd] in *; [lia|].
    destruct Hq as (-> & Ha & b & Hb & Hl & Hc & _). pose proof (rd_bytes_length _ _ _ _ (proj1 Hl) Hc) as El.
    destruct (Z.eqb_spec a 0); [done|]. rewrite Hb. cbn [negb mbind option_bind].
    destruct (Z.ltb_spec (Z.of_nat k) (len b)); [|lia].
    rewrite (rd_bytes_sub _ _ _ _ (Z.of_nat k) 1 (proj1 Hl) Hc) by lia. cbn [mbind option_bind].
    rewrite <- E0, bytes_of_cons, lookup_app_l, Nat2Z.id by lia.
    destruct (lookup_lt_is_Some_2 c k) as [y Hy]; [lia|]. by rewrite (drop_S _ _ _ Hy), Hy.
Qed.

Lemma pbuf_get_at_ok p cs h off : packet h p cs -> (length cs < fuel)%nat -> 0 <= off <= 65535 ->
  bytes_ok (bytes_of cs) -> pbuf_get_at fuel p off h = Some (default 0 (bytes_of cs !! Z.to_nat off)).
Proof.
  intros Hp Hf Ho Hb. unfold pbuf_get_at. rewrite (pbuf_try_get_at_ok _ cs) by done. cbn [mbind option_bind].
  destruct (bytes_of cs !! Z.to_nat off) as [y|] eqn:E; cbn; [|done].
  assert (Hy : byte_ok y) by exact (Forall_lookup_1 _ _ _ _ Hb E).
  destruct (Z.leb_spec 0 y); [by rewrite u8_id|unfold byte_ok in Hy; lia].
Qed.

Lemma memcmp_loop_ok q cs h start s : forall i, packet h q cs -> (length cs < fuel)%nat -> bytes_ok (bytes_of cs) ->
  0 <= start -> 0 <= i -> start + i + Z.of_nat (length s) <= 65535 ->
  memcmp_loop fuel q start i s h =
    Some (match mismatch (drop (Z.to_nat (start + i)) (bytes_of cs)) s with
          | None => 0 | Some j => i + Z.of_nat j + 1 end).
Proof.
  induction s as [|x s IH]; intros i Hp Hf Hb Hs Hi Hl; [done|]. cbn [memcmp_loop mismatch]. cbn [length] in Hl.
  rewrite (u16_id (start + i)), (pbuf_get_at_ok _ cs) by (done || lia). cbn [mbind option_bind].
  rewrite head_drop_lookup. destruct (Z.eqb_spec (default 0 (bytes_of cs !! Z.to_nat (start + i))) x); cbn [negb].
  - rewrite IH by (done || lia). rewrite tail_drop.
    replace (Z.to_nat (start + (i + 1))) with (S (Z.to_nat (start + i))) by lia.
    destruct (mismatch _ s); cbn; f_equal; lia.
  - rewrite u16_id by lia. f_equal. lia.
Qed.

(** [pbuf_memcmp] answers 0 for an equal slice, one more than the index of the
    first difference, and 65535 past the packet's end. *)
Lemma pbuf_memcmp_ok p cs h off s : lens_ok (pbufs h) -> packet h p cs -> p <> 0 -> (length cs < fuel)%nat ->
  bytes_ok (bytes_of cs) -> 0 <= off ->
  pbuf_memcmp fuel p off s h = Some (
    if Z.ltb (Z.of_nat (length (bytes_of cs))) (off + Z.of_nat (length s)) then 65535
    else match mismatch (drop (Z.to_nat off) (bytes_of cs)) s with None => 0 | Some j => Z.of_nat j + 1 end).
Proof.
  intros L Hp Hp0 Hf Hb Ho. pose proof (packet_small _ _ _ L Hp) as Hl. unfold pbuf_memcmp.
  destruct (packet_head _ _ _ L Hp Hp0) as (b & -> & Eb). cbn [mbind option_bind]. rewrite Eb.
  destruct (Z.ltb_spec (Z.of_nat (length (bytes_of cs))) (off + Z.of_nat (length s))); [done|].
  destruct (skip_loop_ok fuel _ cs h off Hp Hf) as (q & -> & Hq); [lia|]. cbn [mbind option_bind].
  destruct (skip_list_drop cs (Z.to_nat off)) as [E Hin]; [lia|].
  pose proof (skip_list_length cs (Z.to_nat off)) as Hlen.
  pose proof (skip_list_bytes cs (Z.to_nat off) Hb) as Hb1.
  destruct (skip_list cs (Z.to_nat off)) as [cs1 k]. cbn [fst snd] in *.
  pose proof (f_equal length E) as E'. rewrite !length_drop in E'.
  assert (Hk : (k + length s <= length (bytes_of cs1))%nat).
  { destruct cs1 as [|[a1 c1] cs1]; [destruct Hin as [Hin ->]; cbn in *; lia|].
    rewrite bytes_of_cons, length_app in *. lia. }
  pose proof (packet_small _ _ _ L Hq). rewrite (memcmp_loop_ok _ cs1) by (done || lia). rewrite Z.add_0_r, Nat2Z.id, E. by destruct (mismatch _ s).
Qed.

Lemma memfind_loop_ok p cs h s count : forall i, lens_ok (pbufs h) -> packet h p cs -> p <> 0 ->
  (length cs < fuel)%nat -> bytes_ok (bytes_of cs) -> 0 <= i ->
  i + Z.of_nat count = Z.of_nat (length (bytes_of cs)) - Z.of_nat (length s) + 1 ->
  wp (memfind_loop fuel count p i s h) (first_occurrence (bytes_of cs) s i).
Proof.
  induction count as [|count IH]; intros i L Hp Hp0 Hf Hb Hi Hc; cbn [memfind_loop];
    pose proof (packet_small _ _ _ L Hp) as Hl.
  { apply wp_ret. split; [|by left]. intros j Hj. lia. }
  rewrite (pbuf_memcmp_ok _ cs) by done. cbn [mbind option_bind].
  destruct (Z.ltb_spec (Z.of_nat (length (bytes_of cs))) (i + Z.of_nat (length s))); [lia|].
  pose proof (slice_mismatch (bytes_of cs) s i ltac:(lia) ltac:(lia)) as Hm.
  destruct (mismatch _ s) as [j|]; cbn.
  - destruct (Z.eqb_spec (Z.of_nat j + 1) 0); [lia|].
    assert (i < 65535 \/ count = 0%nat) as [Hlt|Hc0] by lia.
    + rewrite u16_id by lia. eapply wp_mono; [apply IH; done || lia|]. intros r [Hne Hr]. split.
      * intros k Hk. destruct (decide (k = i)) as [->|]; [intros _ E; by apply Hm in E|]. apply Hne. lia.
      * destruct Hr as [?|(? & ?)]; [by left|]. right. split; [lia|done].
    + rewrite Hc0. cbn. apply wp_ret. split; [|by left]. intros k Hk Hkl.
      assert (k = i) as -> by lia. intros E. by apply Hm in E.
  - apply wp_ret. split; [intros k ?; lia|]. right. split_and!; [lia|lia|]. by apply Hm.
Qed.

Lemma pbuf_memfind_ok p cs h s i : lens_ok (pbufs h) -> packet h p cs -> p <> 0 ->
  (length cs < fuel)%nat -> bytes_ok (bytes_of cs) -> 0 <= i ->
  wp (pbuf_memfind fuel p s i h) (first_occurrence (bytes_of cs) s i).
Proof.
  intros L Hp Hp0 Hf Hb Hi. pose proof (packet_small _ _ _ L Hp) as Hl. unfold pbuf_memfind.
  destruct (packet_head _ _ _ L Hp Hp0) as (b & -> & Eb). cbn [mbind option_bind]. rewrite Eb. cbv zeta.
  destruct (Z.leb_spec (Z.of_nat (length s) + i) (Z.of_nat (length (bytes_of cs)))).
  - rewrite u16_id by lia. apply memfind_loop_ok; [done..|lia].
  - apply wp_ret. split; [|by left]. intros j Hj. lia.
Qed.
End spec.

(** ** Overwriting a part of a list *)

Lemma inserts_lookup (l : list Z) i k j : (i + length k <= length l)%nat ->
  list_inserts i k l !! j = if decide (i <= j < i + length k)%nat then k !! (j - i)%nat else l !! j.
Proof.
  intros Hl. case_decide as Hd.
  - rewrite list_lookup_inserts by lia. done.
  - destruct (Nat.lt_ge_cases j i); [by rewrite list_lookup_inserts_lt|]. rewrite list_lookup_inserts_ge by lia. done.
Qed.

Lemma inserts_window (l : list Z) o n i k : (i + length k <= n)%nat -> (o + n <= length l)%nat ->
  take n (drop o (list_inserts (o + i) k l)) = list_inserts i k (take n (drop o l)).
Proof.
  intros Hi Ho. apply list_eq. intros j. rewrite inserts_lookup by (rewrite length_take, length_drop; lia).
  destruct (Nat.lt_ge_cases j n).
  - rewrite !lookup_take_lt, !lookup_drop, inserts_lookup by lia. do 2 case_decide; try lia; [f_equal; lia|done].
  - rewrite !lookup_take_ge by done. case_decide; [lia|done].
Qed.

Lemma inserts_app_l (l1 l2 : list Z) i k : (i + length k <= length l1)%nat ->
  list_inserts i k (l1 ++ l2) = list_inserts i k l1 ++ l2.
Proof.
  intros Hi. apply list_eq. intros j. rewrite inserts_lookup by (rewrite length_app; lia).
  rewrite !lookup_app, inserts_lookup, length_inserts by lia.
  case_decide; [|done]. destruct (k !! (j - i)%nat) eqn:E; [done|]. apply lookup_ge_None_1 in E. lia.
Qed.

Lemma inserts_app_r (l1 l2 : list Z) i k : (length l1 <= i)%nat -> (i + length k <= length l1 + length l2)%nat ->
  list_inserts i k (l1 ++ l2) = l1 ++ list_inserts (i - length l1) k l2.
Proof.
  intros Hi Hk. apply list_eq. intros j. rewrite inserts_lookup by (rewrite length_app; lia).
  rewrite !lookup_app, inserts_lookup by lia.
  destruct (l1 !! j) as [y|] eqn:E.
  - apply lookup_lt_Some in E. case_decide; [lia|done].
  - apply lookup_ge_None_1 in E. do 2 case_decide; try lia; [f_equal; lia|done].
Qed.

(** Data that overlaps both parts. *)
Lemma inserts_split (l1 l2 : list Z) i k m : (i + length k <= length l1 + length l2)%nat -> (i <= length l1)%nat ->
  m = Nat.min (length l1 - i) (length k) ->
  list_inserts i k (l1 ++ l2) = list_inserts i (take m k) l1 ++ list_inserts 0 (drop m k) l2.
Proof.
  intros Hk Hi Hm. apply list_eq. intros j.
  rewrite lookup_app, !inserts_lookup, lookup_app by (rewrite ?length_app, ?length_take, ?length_drop; lia).
  rewrite length_inserts, !length_take, !length_drop, lookup_take, lookup_drop.
  destruct (l1 !! j) as [y|] eqn:E; [apply lookup_lt_Some in E|apply lookup_ge_None_1 in E]; repeat case_decide; try lia; try done.
  all: first [destruct (k !! (j - i)%nat) eqn:Ek; [done|apply lookup_ge_None_1 in Ek; lia]|f_equal; lia].
Qed.

(** ** A block and the packets in it *)

Lemma wr_bytes_ok x n h c i bs : 0 <= n -> rd_bytes x n h = Some c -> 0 <= i -> i + Z.of_nat (length bs) <= n ->
  exists h', wr_bytes (ptr_add x i) bs h = Some h' /\ pbufs h' = pbufs h /\
    (forall y, y <> x.1 -> blocks h' !! y = blocks h !! y) /\
    rd_bytes x n h' = Some (list_inserts (Z.to_nat i) bs c).
Proof.
  intros Hn Hc Hi Hl. unfold wr_bytes. destruct (decide (bs = [])) as [->|Hbs]; [by exists h|].
  assert (0 < length bs)%nat by (destruct bs; [done|simpl; lia]).
  unfold rd_bytes in *. destruct (Z.eqb_spec n 0); [lia|]. cbn [ptr_add fst snd].
  destruct (blocks h !! x.1) as [l|] eqn:El; [|done]. cbn [mbind option_bind] in *.
  destruct (Z.leb_spec 0 x.2); [|done]. destruct (Z.leb_spec (x.2 + n) (Z.of_nat (length l))); [|done].
  cbn [andb] in *. injection Hc as <-.
  destruct (Z.leb_spec 0 (x.2 + i)); [|lia]. destruct (Z.leb_spec (x.2 + i + Z.of_nat (length bs)) (Z.of_nat (length l))); [|lia].
  cbn [andb]. eexists. split; [done|]. cbn [pbufs blocks]. split; [done|]. split.
  - intros y Hy. by rewrite lookup_insert_ne.
  - rewrite lookup_insert_eq. cbn [mbind option_bind]. rewrite length_inserts.
    destruct (Z.leb_spec (x.2 + n) (Z.of_nat (length l))); [|lia]. f_equal.
    rewrite Z2Nat.inj_add by lia. apply inserts_window; lia.
Qed.

(** [h'] differs from [h] in the payloads of [ps] at most. *)
Record wrote (ps : list Z) (h h' : Heap) : Prop := {
  wr_pbufs : pbufs h' = pbufs h;
  wr_blocks : forall y, (forall a b, a ∈ ps -> pbufs h !! a = Some b -> (payload b).1 <> y) ->
    blocks h' !! y = blocks h !! y;
}.

Lemma wrote_refl ps h : wrote ps h h.
Proof. by split. Qed.

Lemma wrote_trans ps h h1 h2 : wrote ps h h1 -> wrote ps h1 h2 -> wrote ps h h2.
Proof.
  intros [P1 B1] [P2 B2]. split; [congruence|]. intros y Hy. rewrite B2 by (intros a b; rewrite P1; apply Hy).
  by apply B1.
Qed.

Lemma wrote_mono ps qs h h' : ps ⊆ qs -> wrote ps h h' -> wrote qs h h'.
Proof. intros Hs [P B]. split; [done|]. intros y Hy. apply B. intros a b Ha. apply Hy. by apply Hs. Qed.

Lemma separate_sub m ps qs : ps ⊆ qs -> separate m qs -> separate m ps.
Proof. intros Hs S a a' b b' Ha Ha'. apply S; by apply Hs. Qed.

(** Writing elsewhere keeps a packet. *)
Lemma packet_wrote h h' p cs ps : packet h p cs -> wrote ps h h' ->
  (forall a b a' b', a ∈ ps -> a' ∈ cs.*1 -> pbufs h !! a = Some b -> pbufs h !! a' = Some b' ->
     (payload b).1 <> (payload b').1) -> packet h' p cs.
Proof.
  intros Hp [E B] Hd. eapply packet_frame; [intros; by rewrite E| |exact Hp].
  intros a' b' Ha' Hb'. apply B. intros a b Ha Hb. by eapply Hd.
Qed.

Lemma packet_first h q q' cs : packet h q cs -> packet h q' cs -> q = q'.
Proof. destruct cs as [|[a c] cs]; [by intros -> ->|]. by intros (-> & _) (-> & _). Qed.

(** A packet's front part can stay while the rest changes. *)
Lemma packet_app h p pre cs : packet h p (pre ++ cs) -> exists q, packet h q cs /\
  forall h' cs' ps, packet h' q cs' -> wrote ps h h' -> separate (pbufs h) (pre.*1 ++ ps) -> NoDup (pre.*1 ++ ps) ->
    packet h' p (pre ++ cs').
Proof.
  revert p. induction pre as [|[a c] pre IH]; intros p; [intros Hp; by exists p|].
  cbn [app fmap list_fmap fst]. intros (-> & Ha & b & Hb & Hl & Hc & Hp). destruct (IH _ Hp) as (q & Hq & Hrest).
  exists q. split; [done|]. intros h' cs' ps Hcs' W S Nd. split; [done|]. split; [done|].
  exists b. rewrite (wr_pbufs _ _ _ W). apply NoDup_cons in Nd as [Hn Nd].
  split; [done|]. split; [done|]. split.
  - rewrite (rd_bytes_frame _ _ h); [done|]. apply (wr_blocks _ _ _ W). intros a' b' Ha' Hb'.
    destruct (S a a' b b') as [_ ?]; [left|right; set_solver|set_solver|done|done|congruence].
  - eapply Hrest; [exact Hcs'|exact W| |exact Nd]. eapply separate_sub; [|exact S]. set_solver.
Qed.

Lemma skip_list_app cs n : exists pre, cs = pre ++ (skip_list cs n).1 /\
  n = (length (bytes_of pre) + (skip_list cs n).2)%nat.
Proof.
  revert n. induction cs as [|[a c] cs IH]; intros n; [by exists []|]. cbn [skip_list].
  destruct (Nat.leb_spec (length c) n); [|by exists []]. destruct (IH (n - length c)%nat) as (pre & E & En).
  exists ((a, c) :: pre). rewrite bytes_of_cons, length_app. split; [by rewrite E at 1|lia].
Qed.

Lemma bytes_of_app cs cs' : bytes_of (cs ++ cs') = bytes_of cs ++ bytes_of cs'.
Proof. unfold bytes_of. by rewrite fmap_app, concat_app. Qed.

Section writing.
Context `{CustomFree}.
Variable fuel : nat.

(** The packet after the bytes from [off] on are overwritten by [data]. *)
Definition overwritten (h : Heap) (p : Z) (cs : list (Z * list Z)) (off : nat) (data : list Z) (h' : Heap) : Prop :=
  wrote cs.*1 h h' /\ exists cs', packet h' p cs' /\ cs'.*1 = cs.*1 /\
    bytes_of cs' = list_inserts off data (bytes_of cs).

Lemma packet_NoDup h p cs : packet h p cs -> NoDup cs.*1.
Proof. intros Hp. eapply chain_from_NoDup, packet_chain, Hp. Qed.

(** Writing into the first buffer only. *)
Lemma write_first h a c cs b i bs : packet h a ((a, c) :: cs) -> separate (pbufs h) (a :: cs.*1) ->
  pbufs h !! a = Some b -> 0 <= i -> i + Z.of_nat (length bs) <= Z.of_nat (length c) ->
  exists h', wr_bytes (ptr_add (payload b) i) bs h = Some h' /\ wrote [a] h h' /\
    packet h' a ((a, list_inserts (Z.to_nat i) bs c) :: cs).
Proof.
  intros Hp S Hb Hi Hl. pose proof (packet_NoDup _ _ _ Hp) as Nd. cbn in Nd. apply NoDup_cons in Nd as [Nd _].
  pose proof Hp as (_ & Ha & b' & Hb' & Hlen & Hc & Hcs). rewrite Hb in Hb'. injection Hb' as <-.
  pose proof (rd_bytes_length _ _ _ _ (proj1 Hlen) Hc) as El.
  destruct (wr_bytes_ok _ _ _ _ i bs (proj1 Hlen) Hc) as (h' & E & Ep & Eb & Hr); [lia|lia|].
  assert (W : wrote [a] h h').
  { split; [done|]. intros y Hy. apply Eb. intros ->. apply (Hy a b); [left|done|done]. }
  exists h'. split; [done|]. split; [done|]. split; [done|]. split; [done|]. exists b. rewrite Ep.
  split; [done|]. split; [done|]. split; [exact Hr|]. apply (packet_wrote h _ _ _ [a]); [done|done|].
  intros d e d' e' ->%list_elem_of_singleton Hd' He He'. rewrite Hb in He. injection He as <-.
  destruct (S a d' b e') as [_ ?]; [left|by right| |done|done|congruence]. by intros ->.
Qed.

(** The first buffer took [m] bytes of the data, and the chain [q] the others. *)
Lemma overwritten_cons h h1 h2 a b c cs i m data : packet h a ((a, c) :: cs) -> separate (pbufs h) (a :: cs.*1) ->
  pbufs h !! a = Some b -> wrote [a] h h1 -> packet h1 a ((a, list_inserts i (take m data) c) :: cs) ->
  (i <= length c)%nat -> m = Nat.min (length c - i) (length data) -> (i + length data <= length c + length (bytes_of cs))%nat ->
  overwritten h1 (next b) cs 0 (drop m data) h2 -> overwritten h a ((a, c) :: cs) i data h2.
Proof.
  intros Hp S Hb W Hp1 Hi Hm Hl (W2 & cs' & Hp2 & E1 & E2). pose proof (packet_NoDup _ _ _ Hp) as Nd.
  destruct (packet_app h1 a [(a, list_inserts i (take m data) c)] cs Hp1) as (q & Hq & Hrest).
  assert (q = next b) as ->.
  { destruct Hp1 as (_ & _ & b1 & Hb1 & _ & _ & Hq'). rewrite (wr_pbufs _ _ _ W), Hb in Hb1. injection Hb1 as <-.
    by eapply packet_first. }
  split.
  - eapply wrote_trans; [eapply wrote_mono; [|exact W]|eapply wrote_mono; [|exact W2]]; set_solver.
  - exists ((a, list_inserts i (take m data) c) :: cs'). split_and!.
    + eapply Hrest; [exact Hp2|exact W2| |exact Nd]. by rewrite (wr_pbufs _ _ _ W).
    + cbn. by rewrite E1.
    + rewrite !bytes_of_cons, E2. symmetry. by apply inserts_split.
Qed.

Lemma take_loop_ok k : forall p cs h data, packet h p cs -> separate (pbufs h) cs.*1 -> (length cs < k)%nat ->
  (length data <= length (bytes_of cs))%nat -> wp (take_loop k p data h) (overwritten h p cs 0 data).
Proof.
  induction k as [|k IH]; intros p cs h data Hp S Hk Hl; [lia|]. cbn [take_loop].
  destruct (decide (data = [])) as [->|Hd].
  { apply wp_ret. split; [apply wrote_refl|]. by exists cs. }
  destruct cs as [|[a c] cs]; [destruct data; [done|cbn in Hl; lia]|].
  pose proof Hp as (-> & Ha & b & Hb & Hlen & Hc & Hcs). destruct (Z.eqb_spec a 0); [done|].
  rewrite Hb. cbn [mbind option_bind]. cbv zeta. rewrite min_if.
  pose proof (rd_bytes_length _ _ _ _ (proj1 Hlen) Hc) as El. rewrite bytes_of_cons, length_app in *.
  set (m := Z.to_nat _). assert (Em : m = Nat.min (length c - 0) (length data)) by lia.
  destruct (write_first h a c cs b 0 (take m data)) as (h1 & E & W & Hp1); [done..|rewrite length_take; lia|].
  replace (ptr_add (payload b) 0) with (payload b) in E by (destruct (payload b); unfold ptr_add; cbn; f_equal; lia).
  rewrite E. cbn [mbind option_bind].
  pose proof Hp1 as (_ & _ & b1 & Hb1 & Hlen1 & Hc1 & Hp2).
  pose proof (wr_pbufs _ _ _ W) as Ep. rewrite Ep, Hb in Hb1. injection Hb1 as <-.
  eapply wp_mono; [apply (IH _ cs)|].
  - exact Hp2.
  - rewrite Ep. eapply separate_sub; [|exact S]. set_solver.
  - simpl in Hk. lia.
  - rewrite length_drop. lia.
  - intros h2 W2. apply (overwritten_cons h h1 h2 a b c cs 0 m data); done || lia.
Qed.


(** [pbuf_take] overwrites the packet's first bytes, or refuses what does not fit. *)
Lemma pbuf_take_ok p cs h data : lens_ok (pbufs h) -> packet h p cs -> p <> 0 -> separate (pbufs h) cs.*1 ->
  (length cs < fuel)%nat -> wp (pbuf_take fuel p data h) (fun '(h', err) =>
    if decide (length data <= length (bytes_of cs))%nat then err = ERR_OK /\ overwritten h p cs 0 data h'
    else err = ERR_MEM /\ h' = h).
Proof.
  intros L Hp Hp0 S Hf. unfold pbuf_take. destruct (Z.eqb_spec p 0); [done|].
  destruct (packet_head _ _ _ L Hp Hp0) as (b & -> & Eb). cbn [mbind option_bind]. rewrite Eb.
  destruct (Z.ltb_spec (Z.of_nat (length (bytes_of cs))) (Z.of_nat (length data))).
  - apply wp_ret. case_decide; [lia|done].
  - apply wp_bind. eapply wp_mono; [apply (take_loop_ok _ _ cs); done || lia|]. intros h' W. apply wp_ret.
    by case_decide; [|lia].
Qed.

Lemma overwritten_app h p q pre cs k data h' : packet h p (pre ++ cs) -> packet h q cs -> separate (pbufs h) (pre ++ cs).*1 ->
  (k + length data <= length (bytes_of cs))%nat -> overwritten h q cs k data h' ->
  overwritten h p (pre ++ cs) (length (bytes_of pre) + k) data h'.
Proof.
  intros Hp Hq S Hl (W & cs' & Hcs' & E1 & E2). rewrite fmap_app in S. pose proof (packet_NoDup _ _ _ Hp) as Nd.
  rewrite fmap_app in Nd. destruct (packet_app _ _ _ _ Hp) as (q' & Hq' & Hrest).
  assert (q' = q) as -> by by eapply packet_first. split; [eapply wrote_mono; [|exact W]; rewrite fmap_app; set_solver|].
  exists (pre ++ cs'). split_and!.
  - by eapply Hrest.
  - by rewrite !fmap_app, E1.
  - rewrite !bytes_of_app, E2, inserts_app_r by lia. f_equal. f_equal. lia.
Qed.

(** The buffer that holds the byte at an offset. *)
Lemma skip_split p cs h off : packet h p cs -> (length cs < fuel)%nat -> 0 <= off <= 65535 ->
  exists pre cs1 k q, cs = pre ++ cs1 /\ Z.to_nat off = (length (bytes_of pre) + k)%nat /\
    pbuf_skip fuel p off h = Some (q, Z.of_nat k) /\ packet h q cs1 /\
    if decide (Z.to_nat off < length (bytes_of cs))%nat
    then exists a c cs2, cs1 = (a, c) :: cs2 /\ (k < length c)%nat else cs1 = [] /\ q = 0.
Proof.
  intros Hp Hf Ho. destruct (skip_loop_ok fuel _ _ _ _ Hp Hf Ho) as (q & E & Hq).
  destruct (skip_list_app cs (Z.to_nat off)) as (pre & Ecs & En). eexists pre, _, _, q.
  split; [exact Ecs|]. split; [exact En|]. split; [exact E|]. split; [exact Hq|]. case_decide as Hd.
  - destruct (skip_list_drop cs (Z.to_nat off)) as [_ Hin]; [lia|].
    destruct (skip_list cs (Z.to_nat off)) as [[|[a c] cs2] k]; cbn [fst snd] in *; [lia|eauto].
  - pose proof (skip_list_past cs (Z.to_nat off) ltac:(lia)) as En'. rewrite En' in *. by split.
Qed.

Lemma pbuf_take_at_ok p cs h data off : lens_ok (pbufs h) -> packet h p cs -> separate (pbufs h) cs.*1 ->
  (length cs < fuel)%nat -> 0 <= off <= 65535 -> Z.of_nat (length data) <= 65535 ->
  wp (pbuf_take_at fuel p data off h) (fun '(h', err) =>
    if decide (Z.to_nat off + length data <= length (bytes_of cs) /\ Z.to_nat off < length (bytes_of cs))%nat
    then err = ERR_OK /\ overwritten h p cs (Z.to_nat off) data h' else err = ERR_MEM /\ h' = h).
Proof.
  intros L Hp S Hf Ho Hd. unfold pbuf_take_at. cbv zeta.
  destruct (skip_split _ _ _ _ Hp Hf Ho) as (pre & cs1 & k & q & -> & Eo & -> & Hq & Hin). cbn [mbind option_bind].
  rewrite bytes_of_app, length_app in *. rewrite Eo in *. destruct (decide (_ < _)%nat) as [Hlt|Hge].
  2: { destruct Hin as [-> ->]. apply wp_ret. case_decide; [cbn in *; lia|done]. }
  destruct Hin as (a & c & cs2 & -> & Hk). pose proof Hq as (-> & Ha & b & Hb & Hlen & Hc & Hcs2).
  destruct (Z.eqb_spec a 0); [done|]. pose proof (packet_head _ _ _ L Hq Ha) as (b' & Hb' & Eb).
  rewrite Hb in Hb'. injection Hb' as <-. rewrite Hb. cbn [mbind option_bind]. rewrite Eb.
  pose proof (rd_bytes_length _ _ _ _ (proj1 Hlen) Hc) as El.
  rewrite bytes_of_cons, length_app in *. destruct (Z.ltb_spec (Z.of_nat (length c + length (bytes_of cs2))) (Z.of_nat k + Z.of_nat (length data))).
  { apply wp_ret. case_decide; [lia|done]. }
  destruct (Z.leb_spec (len b) (Z.of_nat k)); [lia|]. cbv zeta.
  rewrite (u16_id (Z.min _ _)) by lia. set (m := Z.to_nat _). assert (Em : m = Nat.min (length c - k) (length data)) by lia.
  assert (S1 : separate (pbufs h) (a :: cs2.*1)).
  { eapply separate_sub; [|exact S]. rewrite fmap_app. cbn. set_solver. }
  destruct (write_first h a c cs2 b (Z.of_nat k) (take m data)) as (h1 & -> & W & Hp1); [done..|lia|rewrite length_take; lia|].
  rewrite Nat2Z.id in Hp1. cbn [mbind option_bind].
  enough (Hw : wp (if 0 <? u16 (Z.of_nat (length data) - Z.min (len b - Z.of_nat k) (Z.of_nat (length data)))
     then pbuf_take fuel (next b) (drop m data) h1 else Some (h1, ERR_OK))
     (fun '(h', err) => err = ERR_OK /\ overwritten h1 (next b) cs2 0 (drop m data) h')).
  { eapply wp_mono; [exact Hw|]. intros [h' err] [-> W2]. rewrite decide_True by lia. split; [done|].
    eapply overwritten_app; [exact Hp|exact Hq|done|rewrite bytes_of_cons, length_app; lia|].
    by apply (overwritten_cons h h1 h' a b c cs2 k m data); try lia. }
  pose proof Hp1 as (_ & _ & b1 & Hb1 & _ & _ & Hp2). pose proof (wr_pbufs _ _ _ W) as Ep.
  rewrite Ep, Hb in Hb1. injection Hb1 as <-. rewrite u16_id by lia. destruct (Z.ltb_spec 0 (Z.of_nat (length data) - Z.min (len b - Z.of_nat k) (Z.of_nat (length data)))).
  - eapply wp_mono; [apply (pbuf_take_ok _ cs2); [by rewrite Ep|done| | |]|].
    + intros E0. rewrite E0 in Hcs2. destruct cs2 as [|[? ?] ?]; [cbn in *; lia|]. by destruct Hcs2 as (<- & ? & _).
    + rewrite Ep. eapply separate_sub; [|exact S1]. set_solver.
    + rewrite ?length_app in Hf. cbn in Hf. lia.
    + intros [h' err]. rewrite decide_True by (rewrite length_drop; lia). done.
  - apply wp_ret. split; [done|]. rewrite drop_ge by lia. split; [apply wrote_refl|]. exists cs2. done.
Qed.

Lemma pbuf_put_at_ok p cs h off v : packet h p cs -> separate (pbufs h) cs.*1 ->
  (length cs < fuel)%nat -> 0 <= off <= 65535 ->
  wp (pbuf_put_at fuel p off v h) (fun h' =>
    if decide (Z.to_nat off < length (bytes_of cs))%nat
    then overwritten h p cs (Z.to_nat off) [v] h' else h' = h).
Proof.
  intros Hp S Hf Ho. unfold pbuf_put_at.
  destruct (skip_split _ _ _ _ Hp Hf Ho) as (pre & cs1 & k & q & -> & Eo & -> & Hq & Hin). cbn [mbind option_bind].
  rewrite Eo in *. case_decide; [|destruct Hin as [-> ->]; by apply wp_ret].
  destruct Hin as (a & c & cs2 & -> & Hk). pose proof Hq as (-> & Ha & b & Hb & Hlen & Hc & _).
  destruct (Z.eqb_spec a 0); [done|]. cbn [negb]. rewrite Hb. cbn [mbind option_bind].
  pose proof (rd_bytes_length _ _ _ _ (proj1 Hlen) Hc) as El. destruct (Z.ltb_spec (Z.of_nat k) (len b)); [|lia].
  destruct (write_first h a c cs2 b (Z.of_nat k) [v]) as (h1 & -> & W & Hp1); [done|..|cbn; lia|].
  { eapply separate_sub; [|exact S]. rewrite fmap_app. cbn. set_solver. }
  { done. }
  { lia. }
  rewrite Nat2Z.id in Hp1. apply wp_ret. eapply overwritten_app; [exact Hp|exact Hq|done|rewrite bytes_of_cons, length_app; cbn; lia|].
  split; [eapply wrote_mono; [|exact W]; set_solver|]. eexists. split; [exact Hp1|]. split; [done|].
  rewrite !bytes_of_cons, inserts_app_l by (cbn; lia). done.
Qed.
End writing.
