(* ===== verification/PbufProps.v ===== *)
(** * Packet buffers: the theorems *)
From S2P Require Import Prelude CInt RingBuffer Pbuf PbufRefs PbufOps SessionTCP PbufSpec.
Import Pbuf.

Section queue.
Context `{CustomFree}.
Variable fuel : nat.

(** ** A queue that only its holder refers to *)

Record queue_ok (h : Heap) (q : Z) (cs : list (Z * list Z)) (roots : list Z) : Prop := {
  qu_heap : heap_ok (pbufs h) (as_roots q roots);
  qu_packet : packet h q cs;
  qu_ref : forall a b, a ∈ cs.*1 -> pbufs h !! a = Some b -> ref b = 1;
  qu_separate : separate (pbufs h) cs.*1;
}.

(** What an operation on the buffers [ps] leaves alone. *)
Record only (ps : list Z) (h h' : Heap) : Prop := {
  on_pbufs : forall a, a ∉ ps -> pbufs h' !! a = pbufs h !! a;
  on_blocks : forall x, (forall a b, a ∈ ps -> pbufs h !! a = Some b -> x <> a /\ x <> (payload b).1) ->
    blocks h' !! x = blocks h !! x;
  on_kept : forall a b', pbufs h' !! a = Some b' ->
    exists b, pbufs h !! a = Some b /\ ref b' = ref b /\ (payload b').1 = (payload b).1;
}.

Lemma only_refl ps h : only ps h h.
Proof. constructor; [done..|]. intros a b Hb. by exists b. Qed.

Lemma only_mono ps qs h h' : ps ⊆ qs -> only ps h h' -> only qs h h'.
Proof.
  intros Hs [P B K]. constructor; [intros a Ha; apply P; set_solver| |exact K].
  intros x Hx. apply B. intros a b Ha. apply Hx. set_solver.
Qed.

Lemma only_trans ps h h1 h2 : only ps h h1 -> only ps h1 h2 -> only ps h h2.
Proof.
  intros [P1 B1 K1] [P2 B2 K2]. constructor.
  - intros a Ha. by rewrite P2, P1.
  - intros x Hx. rewrite B2; [by apply B1|]. intros a b Ha Hab. destruct (K1 _ _ Hab) as (b0 & Hb0 & _ & ->).
    exact (Hx a b0 Ha Hb0).
  - intros a b2 H2. destruct (K2 _ _ H2) as (b1 & H1 & -> & ->). exact (K1 _ _ H1).
Qed.

Lemma only_separate ps qs h h' : only ps h h' -> separate (pbufs h) qs -> separate (pbufs h') qs.
Proof.
  intros O S a a' b b' Ha Ha' Hne Hb Hb'. destruct (on_kept _ _ _ O _ _ Hb) as (c & Hc & _ & ->).
  destruct (on_kept _ _ _ O _ _ Hb') as (c' & Hc' & _ & ->). by eapply S.
Qed.

Lemma only_size ps h h' : only ps h h' -> (size (pbufs h') <= size (pbufs h))%nat.
Proof.
  intros O. rewrite <- !size_dom. apply subseteq_size. intros a [b' Hb']%elem_of_dom.
  destruct (on_kept _ _ _ O _ _ Hb') as (b & Hb & _). apply elem_of_dom. eauto.
Qed.

(** A buffer without a next that its caller alone refers to. *)
Lemma free_single a b h : pbufs h !! a = Some b -> a <> 0 -> next b = 0 -> ref b = 1 ->
  (Z.land (flags b) PBUF_FLAG_IS_CUSTOM = 0 -> pbuf_get_allocsrc b <= 2) -> (1 < fuel)%nat ->
  wp (pbuf_free fuel a h) (fun '(h', _) => pbufs h' = delete a (pbufs h) /\
    forall x, x <> a -> x <> (payload b).1 -> blocks h' !! x = blocks h !! x).
Proof.
  intros Hb Ha Hn Hr Hs Hf. unfold pbuf_free. destruct (Z.eqb_spec a 0); [done|].
  destruct fuel as [|[|n']]; [lia..|]. cbn [free_loop]. destruct (Z.eqb_spec a 0); [done|].
  rewrite Hb. cbn [mbind option_bind]. rewrite Hr. cbn [Z.leb Z.compare]. rewrite (upd_eq _ _ _ _ Hb). cbn [mbind option_bind].
  change (u8 (1 - 1)) with 0. cbn [Z.eqb]. apply wp_bind. rewrite Hn. unfold pbuf_dealloc.
  set (h1 := mkHeap _ _ _). assert (Hb1 : pbufs h1 !! a = Some (set_ref 0 b)) by apply lookup_insert_eq.
  destruct (Z.eqb_spec (Z.land (flags b) PBUF_FLAG_IS_CUSTOM) 0) as [E|E]; cbn [negb].
  - specialize (Hs E). destruct (Z.leb_spec (pbuf_get_allocsrc b) 2); [|lia]. apply wp_ret. cbn [Z.eqb].
    apply wp_ret. subst h1. cbn [release pbufs blocks]. rewrite delete_insert_eq. split; [done|]. intros x Hx _. by rewrite lookup_delete_ne.
  - apply wp_ret. cbn [Z.eqb]. apply wp_ret. rewrite custom_free_pbufs. cbn [pbufs h1]. rewrite delete_insert_eq.
    split; [done|]. intros x _ Hx. by rewrite (custom_free_blocks _ _ _ _ Hb1 Hx).
Qed.

Lemma packet_only h h' p cs ps : packet h p cs -> only ps h h' -> (forall a, a ∈ cs.*1 -> a ∉ ps) ->
  separate (pbufs h) (ps ++ cs.*1) -> packet h' p cs.
Proof.
  intros Hp [P B _] Hd S. eapply packet_frame; [intros a Ha; apply P; by apply Hd| |exact Hp].
  intros a b Ha Hb. apply B. intros a' b' Ha' Hb'. apply (S a' a b' b); [by apply elem_of_app; left|by apply elem_of_app; right| |done|done].
  intros ->. by apply (Hd a Ha).
Qed.

Lemma queue_head h a c cs roots : queue_ok h a ((a, c) :: cs) roots -> exists b, pbufs h !! a = Some b /\ ref b = 1 /\
  a <> 0 /\ sole (pbufs h) a /\ refs_ok (pbufs h) (a :: roots) /\ a ∉ cs.*1 /\ packet h (next b) cs /\
  rd_bytes (payload b) (len b) h = Some c /\ 0 <= len b <= 65535.
Proof.
  intros Q. pose proof (qu_packet _ _ _ _ Q) as Hp. pose proof (packet_NoDup _ _ _ Hp) as Nd.
  destruct Hp as (_ & Ha & b & Hb & Hl & Hc & Hp). pose proof (ho_refs _ _ (qu_heap _ _ _ _ Q)) as R.
  unfold as_roots in R. destruct (Z.eqb_spec a 0); [done|]. assert (H1 : ref b = 1) by (eapply (qu_ref _ _ _ _ Q); [left|done]).
  apply NoDup_cons in Nd as [? _]. exists b. split_and!; try done; [|lia..].
  eapply sole_root; [exact R|left|done|done].
Qed.

(** The first buffer of a queue goes. *)
Lemma queue_pop h a c cs b roots : queue_ok h a ((a, c) :: cs) roots -> pbufs h !! a = Some b -> (1 < fuel)%nat ->
  wp (h1 ← upd a (set_next 0) h; pbuf_free fuel a h1)
     (fun '(h', _) => queue_ok h' (next b) cs roots /\ only [a] h h').
Proof.
  intros Q Hb Hf. destruct (queue_head _ _ _ _ _ Q) as (b' & Hb' & H1 & Ha & Hsole & R & Hn & Hp & Hc & Hl).
  rewrite Hb in Hb'. injection Hb' as <-. rewrite (upd_eq _ _ _ _ Hb). cbn [mbind option_bind].
  eapply wp_mono; [apply (free_single a (set_next 0 b)); try done; [apply lookup_insert_eq|exact (ro_src _ _ R _ _ Hb)]|].
  intros [h' k] [E B]. cbn [pbufs blocks set_next payload] in *. rewrite delete_insert_eq in E.
  assert (O : only [a] h h').
  { constructor.
    - intros d Hd%not_elem_of_cons. rewrite E, lookup_delete_ne; [done|]. by intros ->; destruct Hd.
    - intros x Hx. destruct (Hx a b) as [? ?]; [left|done|]. by apply B.
    - intros d e. rewrite E. intros [_ He]%lookup_delete_Some. by exists e. }
  split; [|done]. constructor.
  - rewrite E. constructor; [by apply refs_ok_delete|]. apply lens_ok_delete; [|done]. apply (qu_heap _ _ _ _ Q).
  - eapply packet_only; [exact Hp|exact O| |exact (qu_separate _ _ _ _ Q)].
    intros d Hd ->%list_elem_of_singleton. done.
  - intros d e Hd. rewrite E. intros [_ He]%lookup_delete_Some. eapply (qu_ref _ _ _ _ Q); [by right|done].
  - apply (only_separate _ _ _ _ O). eapply separate_sub; [|exact (qu_separate _ _ _ _ Q)]. set_solver.
Qed.

(** Bytes go from the front of the first buffer. *)
Lemma queue_trim h a c cs b roots n : queue_ok h a ((a, c) :: cs) roots -> pbufs h !! a = Some b -> 0 <= n < len b ->
  wp (pbuf_remove_header a n h) (fun '(h', _) => queue_ok h' a ((a, drop (Z.to_nat n) c) :: cs) roots /\ only [a] h h').
Proof.
  intros Q Hb Hn. destruct (queue_head _ _ _ _ _ Q) as (b' & Hb' & H1 & Ha & Hsole & R & Hna & Hp & Hc & Hl).
  rewrite Hb in Hb'. injection Hb' as <-. pose proof (qu_heap _ _ _ _ Q) as H0.
  eapply wp_mono; [eapply pbuf_remove_header_ok; [exact H0|exact Hsole|exact Hb|lia]|].
  intros [h' failed] (H0' & EB & Hfail & E). destruct failed; [lia|].
  set (b1 := set_tot_len _ _) in E.
  assert (L : forall d e, pbufs h' !! d = Some e -> exists e0, pbufs h !! d = Some e0 /\ ref e = ref e0 /\ (payload e).1 = (payload e0).1).
  { intros d e. rewrite E. destruct (decide (d = a)) as [->|]; [rewrite lookup_insert_eq; intros [= <-]; by exists b|].
    rewrite lookup_insert_ne by done. intros ?. by exists e. }
  assert (O : only [a] h h').
  { constructor; [|by intros; rewrite EB|exact L]. intros d Hd%not_elem_of_cons. rewrite E, lookup_insert_ne; [done|]. by intros ->; destruct Hd. }
  split; [|done]. constructor.
  - exact H0'.
  - split; [done|]. split; [done|]. exists b1. split; [by rewrite E, lookup_insert_eq|]. split; [subst b1; cbn; lia|]. split.
    + rewrite (rd_bytes_frame _ _ h) by by rewrite EB. subst b1. cbn [payload len set_tot_len set_len set_payload].
      rewrite (rd_bytes_sub _ (len b) h c) by (done || lia). f_equal. apply take_ge.
      apply rd_bytes_length in Hc; [|lia]. rewrite length_drop. lia.
    + eapply packet_only; [exact Hp|exact O| |exact (qu_separate _ _ _ _ Q)]. intros d Hd ->%list_elem_of_singleton. done.
  - intros d e Hd He. destruct (L _ _ He) as (e0 & He0 & -> & _). by eapply (qu_ref _ _ _ _ Q).
  - apply (only_separate _ _ _ _ O). apply (qu_separate _ _ _ _ Q).
Qed.

Lemma free_header_loop_ok n : forall q cs h left roots, queue_ok h q cs roots -> (length cs < n)%nat ->
  0 <= left <= 65535 -> (1 < fuel)%nat -> wp (free_header_loop fuel n q left h) (fun '(h', r) => exists cs',
    queue_ok h' r cs' roots /\ cs'.*2 = pbuf_free_left cs.*2 left /\ cs'.*1 ⊆ cs.*1 /\ only cs.*1 h h').
Proof.
  induction n as [|n IH]; intros q cs h left roots Q Hn Hl Hf; [lia|]. cbn [free_header_loop].
  assert (Hdone : cs.*2 = pbuf_free_left cs.*2 left -> wp (Some (h, q)) (fun '(h', r) => exists cs',
    queue_ok h' r cs' roots /\ cs'.*2 = pbuf_free_left cs.*2 left /\ cs'.*1 ⊆ cs.*1 /\ only cs.*1 h h')).
  { intros E. apply wp_ret. exists cs. split_and!; [done|done|done|apply only_refl]. }
  destruct cs as [|[a c] cs].
  { pose proof (qu_packet _ _ _ _ Q) as E. cbn in E. rewrite E in *. rewrite orb_true_r. by apply Hdone. }
  assert (q = a) as -> by apply (qu_packet _ _ _ _ Q).
  destruct (queue_head _ _ _ _ _ Q) as (b & Hb & H1 & Ha & Hsole & R & Hna & Hp & Hc & Hlen).
  apply rd_bytes_length in Hc; [|lia]. cbn [fmap list_fmap fst snd pbuf_free_left] in *.
  destruct (Z.eqb_spec left 0) as [->|Hl0]; cbn [orb]; [by apply Hdone|]. clear Hdone.
  destruct (Z.eqb_spec a 0); [done|]. rewrite Hb. cbn [mbind option_bind]. rewrite Hc.
  destruct (Z.leb_spec (len b) left).
  - pose proof (wp_bind_inv _ _ _ (queue_pop _ _ _ _ _ _ Q Hb Hf)) as W. apply wp_bind. eapply wp_mono; [exact W|].
    intros h1 W1. apply wp_bind. eapply wp_mono; [exact W1|]. intros [h2 k] [Q2 O].
    rewrite u16_id by lia. eapply wp_mono; [apply (IH _ cs); [exact Q2|cbn in Hn; lia|lia|done]|].
    intros [h3 r] (cs' & Q3 & E3 & Hs & O3). exists cs'. split_and!; [done|done|set_solver|].
    eapply only_trans; (eapply only_mono; [|eassumption]); set_solver.
  - apply wp_bind. eapply wp_mono; [apply (queue_trim _ _ _ _ _ _ left Q Hb); lia|].
    intros [h1 failed] [Q1 O]. apply wp_ret. exists ((a, drop (Z.to_nat left) c) :: cs). split_and!; [done|done|done|].
    eapply only_mono; [|exact O]. set_solver.
Qed.


Lemma packet_cat_node h h' t T ds : packet h' t ds -> blocks h' = blocks h -> forall cs q, packet h q cs -> q <> 0 ->
  (forall a b, a ∈ cs.*1 -> pbufs h !! a = Some b -> pbufs h' !! a = Some (cat_node t T b)) -> packet h' q (cs ++ ds).
Proof.
  intros Ht EB. induction cs as [|[a c] cs IH]; intros q Hp Hq Hi; [done|].
  destruct Hp as (-> & Ha & b & Hb & Hl & Hc & Hp). split; [done|]. split; [done|].
  eexists. split; [apply Hi; [left|done]|]. unfold cat_node.
  assert (Er : rd_bytes (payload b) (len b) h' = Some c) by by rewrite (rd_bytes_frame _ _ h) by by rewrite EB.
  destruct (Z.eqb_spec (next b) 0) as [Hn|Hn]; cbn [next payload len set_tot_len set_next].
  - split; [done|]. split; [done|]. rewrite Hn in Hp. destruct cs as [|[d e] cs]; [done|]. by destruct Hp as (<- & ? & _).
  - split; [done|]. split; [done|]. apply IH; [done|done|]. intros d e Hd. apply Hi. by right.
Qed.

(** A packet is put at the end of a queue. *)
Lemma queue_cat h q cs t ds roots : queue_ok h q cs (t :: roots) -> q <> 0 -> q <> t -> packet h t ds -> t <> 0 ->
  (forall a b, a ∈ ds.*1 -> pbufs h !! a = Some b -> ref b = 1) -> separate (pbufs h) (cs ++ ds).*1 ->
  (size (pbufs h) <= fuel)%nat -> Z.of_nat (length (bytes_of (cs ++ ds))) <= 65535 ->
  wp (pbuf_cat fuel q t h) (fun h' => queue_ok h' q (cs ++ ds) roots /\ only cs.*1 h h').
Proof.
  intros Q Hq Hqt Ht Ht0 Hrt S Hf Hl. pose proof (qu_heap _ _ _ _ Q) as [R L]. unfold as_roots in R.
  destruct (Z.eqb_spec q 0); [done|]. destruct (packet_head _ _ _ L Ht Ht0) as (tb & Htb & ET).
  assert (Hown : owned (pbufs h) q cs.*1) by (constructor; [apply packet_chain, Q|apply (qu_ref _ _ _ _ Q)]).
  assert (R' : refs_ok (pbufs h) (t :: q :: roots)).
  { eapply refs_ok_cnt; [|exact R]. intros x. cnt_decide. }
  assert (Hdis : forall a, a ∈ ds.*1 -> a ∉ cs.*1).
  { eapply (owned_disjoint _ _ q _ t _ R'); [right; left|left|done|exact Hown|by apply packet_chain]. }
  rewrite bytes_of_app, length_app in Hl.
  eapply wp_mono; [apply (pbuf_cat_ok fuel q t cs.*1 tb h (q :: roots)); try done; [left|]|].
  { rewrite (packet_tot _ _ _ L (qu_packet _ _ _ _ Q)), ET. lia. }
  intros h' (H' & EB & Ho & Hi). assert (O : only cs.*1 h h').
  { constructor; [exact Ho|by intros; rewrite EB|]. intros a b' Hb'. destruct (decide (a ∈ cs.*1)) as [Hin|Hin].
    - destruct (chain_from_lookup _ _ _ _ (ow_chain _ _ _ Hown) Hin) as [_ [b Hb]]. exists b. split; [done|].
      rewrite (Hi _ _ Hin Hb) in Hb'. injection Hb' as <-. unfold cat_node. by destruct (Z.eqb (next b) 0).
    - rewrite Ho in Hb' by done. by exists b'. }
  split; [|done]. constructor.
  - unfold as_roots. by destruct (Z.eqb_spec q 0).
  - eapply packet_cat_node; [|exact EB|exact (qu_packet _ _ _ _ Q)|done|exact Hi].
    eapply packet_frame; [intros a Ha; apply Ho; by apply Hdis|by intros; rewrite EB|exact Ht].
  - intros a b' Ha Hb'. destruct (on_kept _ _ _ O _ _ Hb') as (b & Hb & -> & _). rewrite fmap_app, elem_of_app in Ha.
    destruct Ha as [Ha|Ha]; [by eapply (qu_ref _ _ _ _ Q)|by eapply Hrt].
  - by apply (only_separate _ _ _ _ O).
Qed.

(** ** The queue of a TCP session *)

(** [tcp_recv_handler] and [tcp_splice_f] on the buffers themselves; [t]: the
    packet that lwIP gives, [ds]: its buffers. *)
Inductive queue_op := Recv (t : Z) (ds : list (Z * list Z)) | FreeHeader (n : Z).

Definition recv_pbuf (q t : Z) (h : Heap) : option (Heap * Z) :=
  if Z.eqb q 0 then Some (h, t) else
  b ← pbufs h !! q;
  if Z.ltb TCP_WND_MAX (Pbuf.tot_len b) then Some (h, q) else
  h ← pbuf_cat fuel q t h; Some (h, q).

Definition run_op (o : queue_op) (q : Z) (h : Heap) : option (Heap * Z) :=
  match o with Recv t _ => recv_pbuf q t h | FreeHeader n => pbuf_free_header fuel q n h end.

Fixpoint run_queue (os : list queue_op) (q : Z) (h : Heap) : option (Heap * Z) :=
  match os with
  | [] => Some (h, q)
  | o :: os => '(h, q) ← run_op o q h; run_queue os q h
  end.

(** The same on the session's list of chunks. *)
Definition chunk_step (o : queue_op) (st : St) : St :=
  match o with
  | Recv t ds => (tcp_recv_handler (Some ds.*2) st).1
  | FreeHeader n => (set_queue (SessionTCP.pbuf_free_header (queue st.1) n) st.1, st.2)
  end.

(** The references that are left to others: those that there were, and to the
    packets that the session refused, which lwIP keeps. *)
Definition left_over (o : queue_op) (st : St) (roots : list Z) : list Z :=
  match o with
  | Recv t ds => if Z.eqb (tcp_recv_handler (Some ds.*2) st).2 SessionTCP.ERR_OK then roots else t :: roots
  | FreeHeader _ => roots
  end.

Fixpoint all_left_over (os : list queue_op) (st : St) (roots : list Z) : list Z :=
  match os with
  | [] => roots
  | o :: os => all_left_over os (chunk_step o st) (left_over o st roots)
  end.

Definition pending (os : list queue_op) : list (Z * list (Z * list Z)) :=
  omap (fun o => match o with Recv t ds => Some (t, ds) | FreeHeader _ => None end) os.
Definition addrs (pend : list (Z * list (Z * list Z))) : list Z := concat (map (fun x => x.2.*1) pend).

(** No chain gets longer than a 16-bit length can say. *)
Fixpoint fits (os : list queue_op) (st : St) : Prop :=
  match os with
  | [] => True
  | o :: os => match o with Recv _ _ => True | FreeHeader n => 0 <= n <= 65535 end /\
      Z.of_nat (length (concat (queue (chunk_step o st).1))) <= 65535 /\ fits os (chunk_step o st)
  end.

(** The queue and the packets that are still to come share nothing. *)
Record inbox (h : Heap) (q : Z) (cs : list (Z * list Z)) (pend : list (Z * list (Z * list Z))) (roots : list Z) : Prop := {
  in_queue : queue_ok h q cs (pend.*1 ++ roots);
  in_packets : forall t ds, (t, ds) ∈ pend -> t <> 0 /\ packet h t ds;
  in_refs : forall a b, a ∈ addrs pend -> pbufs h !! a = Some b -> ref b = 1;
  in_separate : separate (pbufs h) (cs.*1 ++ addrs pend);
  in_nodup : NoDup (cs.*1 ++ addrs pend);
}.

Lemma addrs_elem pend t ds a : (t, ds) ∈ pend -> a ∈ ds.*1 -> a ∈ addrs pend.
Proof. intros Hin Ha. unfold addrs. apply list_elem_of_In, in_concat. exists ds.*1. split; [|by apply list_elem_of_In].
  apply list_elem_of_In, list_elem_of_fmap. by exists (t, ds). Qed.

(** An operation on the queue leaves the packets to come alone. *)
Lemma inbox_only h h' q q' cs cs' pend pend' roots roots' : inbox h q cs pend roots -> only cs.*1 h h' ->
  queue_ok h' q' cs' (pend'.*1 ++ roots') -> pend' ⊆ pend ->
  cs'.*1 ++ addrs pend' ⊆ cs.*1 ++ addrs pend -> NoDup (cs'.*1 ++ addrs pend') -> inbox h' q' cs' pend' roots'.
Proof.
  intros [Q P R S N] O Q' Hp Hs N'. apply NoDup_app in N as (N1 & Nd & N2).
  assert (Ha : forall a, a ∈ addrs pend' -> a ∈ addrs pend).
  { intros a (l & Hl & Hin)%list_elem_of_In%in_concat. apply list_elem_of_In, list_elem_of_fmap in Hl as ([t ds] & -> & Hl).
    apply (addrs_elem _ t ds); [by apply Hp|by apply list_elem_of_In]. }
  constructor.
  - exact Q'.
  - intros t ds Hin%Hp. destruct (P _ _ Hin) as [Ht Hpk]. split; [done|]. eapply packet_only; [exact Hpk|exact O| |].
    + intros a Hda Hc. exact (Nd a Hc (addrs_elem _ _ _ _ Hin Hda)).
    + eapply separate_sub; [|exact S]. intros a [H1|H1]%elem_of_app; apply elem_of_app; [by left|right]. by eapply addrs_elem.
  - intros a b' Hin Hb'. destruct (on_kept _ _ _ O _ _ Hb') as (b & Hb & -> & _). eapply R; [by apply Ha|done].
  - apply (only_separate _ _ _ _ O). by eapply separate_sub.
  - exact N'.
Qed.

Lemma queue_null h q cs roots : queue_ok h q cs roots -> q = 0 <-> cs.*2 = [].
Proof.
  intros Q. pose proof (qu_packet _ _ _ _ Q) as Hp. destruct cs as [|[a c] cs]; [by cbn in *|].
  destruct Hp as (-> & ? & _). done.
Qed.

Lemma recv_pbuf_ok h q cs t ds pend roots self net : inbox h q cs ((t, ds) :: pend) roots -> queue self = cs.*2 ->
  (size (pbufs h) <= fuel)%nat -> Z.of_nat (length (concat (queue (chunk_step (Recv t ds) (self, net)).1))) <= 65535 ->
  wp (recv_pbuf q t h) (fun '(h', q') => exists cs', inbox h' q' cs' pend (left_over (Recv t ds) (self, net) roots) /\
    cs'.*2 = queue (chunk_step (Recv t ds) (self, net)).1 /\ (size (pbufs h') <= size (pbufs h))%nat).
Proof.
  intros I Eq Hf Hl. pose proof I as [Q P R S N]. destruct (P t ds ltac:(left)) as [Ht Hp].
  unfold recv_pbuf. cbn [chunk_step left_over] in *. unfold tcp_recv_handler in *. pose proof (queue_null _ _ _ _ Q) as Hnull.
  destruct (Z.eqb_spec q 0) as [->|Hq].
  { apply wp_ret. rewrite Eq in *. rewrite (bool_decide_true (cs.*2 = [])) in * by by apply Hnull. cbn [fst queue set_queue] in *.
    destruct cs as [|[? ?] ?]; [|by destruct Hnull as [Hnull _]; specialize (Hnull eq_refl)].
    exists ds. split; [|done]. cbn in S, N. unfold addrs in N, S. cbn in N, S. constructor.
    - constructor; [|done| |].
      + destruct (qu_heap _ _ _ _ Q) as [R0 L0]. unfold as_roots in *. cbn in R0. destruct (Z.eqb_spec t 0); [done|]. by constructor.
      + intros a b Ha. apply R. by eapply addrs_elem; [left|].
      + eapply separate_sub; [|exact S]. set_solver.
    - intros t' ds' Hin. apply P. by right.
    - intros a b Ha. apply R. unfold addrs. cbn. set_solver.
    - exact S.
    - exact N. }
  assert (Hne : queue self <> []) by (rewrite Eq; by intros ?%Hnull).
  rewrite (bool_decide_false (queue self = [])) in * by done.
  pose proof (qu_heap _ _ _ _ Q) as [R0 L]. destruct (packet_head _ _ _ L (qu_packet _ _ _ _ Q) Hq) as (b & Hb & Eb).
  rewrite Hb. cbn [mbind option_bind]. pose proof (packet_small _ _ _ L (qu_packet _ _ _ _ Q)) as Hs.
  assert (Et : SessionTCP.tot_len (queue self) = Pbuf.tot_len b).
  { unfold SessionTCP.tot_len. rewrite Eq. fold (bytes_of cs). rewrite Eb. by rewrite u16_id by lia. }
  rewrite Et in *. destruct (Z.ltb_spec TCP_WND_MAX (Pbuf.tot_len b)); cbn [fst queue set_queue] in *.
  { apply wp_ret. exists cs. split; [|by rewrite Eq].
    eapply inbox_only; [exact I|apply only_refl| |set_solver| |].
    - destruct Q as [[R1 L1] Q2 Q3 Q4]. constructor; try done. constructor; [|done]. eapply refs_ok_cnt; [|exact R1].
      intros x. unfold as_roots. destruct (Z.eqb_spec q 0); [done|]. cbn. rewrite !cnt_app. cbn. cnt_decide.
    - unfold addrs. cbn. set_solver.
    - unfold addrs in *. cbn in N. eapply sublist_NoDup; [exact N|]. apply sublist_app; [done|]. by apply sublist_inserts_l. }
  rewrite Eq in *. unfold SessionTCP.pbuf_cat in *. rewrite <- fmap_app in *.
  apply wp_bind. eapply wp_mono; [apply (queue_cat h q cs t ds (pend.*1 ++ roots)); try done|].
  - intros ->. unfold addrs in N. cbn in N. destruct cs as [|[a c] cs]; [done|]. destruct ds as [|[a' c'] ds]; [done|].
    destruct (qu_packet _ _ _ _ Q) as (-> & _). destruct Hp as (-> & _). cbn in N. apply NoDup_cons in N as [N _]. set_solver.
  - intros a e Ha. apply R. by eapply addrs_elem; [left|].
  - eapply separate_sub; [|exact S]. rewrite fmap_app. unfold addrs. cbn. set_solver.
  - intros h' [Q' O]. apply wp_ret. exists (cs ++ ds). split; [|split; [done|by eapply only_size]].
    eapply inbox_only; [exact I|exact O|exact Q'|set_solver| |]; unfold addrs in *; rewrite fmap_app; cbn in *.
    + set_solver.
    + by rewrite <- app_assoc.
Qed.

Lemma run_op_ok o h q cs pend roots self net : inbox h q cs (pending [o] ++ pend) roots -> queue self = cs.*2 ->
  (size (pbufs h) < fuel)%nat -> match o with Recv _ _ => True | FreeHeader n => 0 <= n <= 65535 end ->
  Z.of_nat (length (concat (queue (chunk_step o (self, net)).1))) <= 65535 ->
  wp (run_op o q h) (fun '(h', q') => exists cs', inbox h' q' cs' pend (left_over o (self, net) roots) /\
    cs'.*2 = queue (chunk_step o (self, net)).1 /\ (size (pbufs h') <= size (pbufs h))%nat).
Proof.
  intros I Eq Hf Hn Hl. destruct o as [t ds|n]; [exact (recv_pbuf_ok h q cs t ds pend roots self net I Eq ltac:(lia) Hl)|].
  cbn [run_op]. unfold pbuf_free_header. pose proof (in_queue _ _ _ _ _ I) as Q.
  destruct (decide (q = 0)) as [->|Hq].
  { pose proof (proj1 (queue_null _ _ _ _ Q) eq_refl) as E. assert (cs = []) as -> by by destruct cs.
    destruct fuel as [|k]; [lia|]. cbn. rewrite orb_true_r. apply wp_ret. exists []. split; [exact I|]. by rewrite Eq. }
  pose proof (chain_from_size _ _ _ (packet_chain _ _ _ (qu_packet _ _ _ _ Q))) as Hsz. rewrite length_fmap in Hsz.
  eapply wp_mono; [apply (free_header_loop_ok fuel q cs h n _ Q); try lia|].
  - destruct cs as [|[? ?] ?]; [by cbn in *; destruct (qu_packet _ _ _ _ Q)|]. cbn in Hsz. lia.
  - intros [h' r] (cs' & Q' & E & Hs & O). exists cs'. split.
    + pose proof (in_nodup _ _ _ _ _ I) as N. apply NoDup_app in N as (N1 & Nd & N2).
      eapply inbox_only; [exact I|exact O|exact Q'|done|set_solver|]. apply NoDup_app.
      split; [eapply packet_NoDup, qu_packet, Q'|]. split; [|done]. intros a Ha. apply Nd. by apply Hs.
    + cbn [chunk_step fst queue set_queue]. unfold SessionTCP.pbuf_free_header. rewrite u16_id by lia. rewrite Eq, E.
      split; [done|by eapply only_size].
Qed.

(** C16: The session's queue of packet buffers is the list of chunks that the
    session's model keeps: whatever lwIP delivers and the splicer consumes, the
    buffers stay one chain of reference count 1 whose pieces are the list's, no
    assertion fails, and what leaves the queue is freed. *)
Theorem session_queue_refines os h q cs roots self net :
  inbox h q cs (pending os) roots -> queue self = cs.*2 -> fits os (self, net) -> (size (pbufs h) < fuel)%nat ->
  wp (run_queue os q h) (fun '(h', q') => exists cs',
    queue_ok h' q' cs' (all_left_over os (self, net) roots) /\
    cs'.*2 = queue (foldl (flip chunk_step) (self, net) os).1 /\
    (q' = 0 -> all_left_over os (self, net) roots = [] -> pbufs h' = ∅)).
Proof.
  revert h q cs roots self net. induction os as [|o os IH]; intros h q cs roots self net I Eq Hfit Hf.
  { apply wp_ret. exists cs. pose proof (in_queue _ _ _ _ _ I) as Q. split_and!; [done..|].
    intros -> E. cbn in E. subst. apply no_roots_no_heap. exact (ho_refs _ _ (qu_heap _ _ _ _ Q)). }
  destruct Hfit as (Hn & Hl & Hfit). cbn [run_queue foldl all_left_over]. apply wp_bind.
  assert (I' : inbox h q cs (pending [o] ++ pending os) roots) by (destruct o; exact I).
  eapply wp_mono; [by apply (run_op_ok o h q cs (pending os) roots self net)|].
  intros [h1 q1] (cs1 & I1 & E1 & Hsz). unfold flip at 2. destruct (chunk_step o (self, net)) as [self1 net1].
  apply (IH h1 q1 cs1); [done|done|done|lia].
Qed.
End queue.

Section contents.
Context `{CustomFree}.
Variable fuel : nat.

Lemma slice_inserts l off data : (off + length data <= length l)%nat ->
  slice (Z.of_nat off) (Z.of_nat (length data)) (list_inserts off data l) = data.
Proof.
  intros Hl. unfold slice. rewrite !Nat2Z.id. pose proof (inserts_window l off (length data) 0 data) as E.
  rewrite Nat.add_0_r in E. rewrite E by lia. apply list_eq. intros j.
  rewrite inserts_lookup by (rewrite length_take, length_drop; lia). case_decide; [f_equal; lia|].
  rewrite lookup_take_ge by lia. symmetry. apply lookup_ge_None_2. lia.
Qed.

(** C15: What is written into a packet with [pbuf_take_at] is what
    [pbuf_copy_partial], [pbuf_memcmp] and [pbuf_get_at] find there, the
    packet's other bytes stay, and data that does not fit changes nothing. *)
Theorem written_bytes_are_read h p cs data off : lens_ok (pbufs h) -> packet h p cs -> p <> 0 ->
  separate (pbufs h) cs.*1 -> bytes_ok (bytes_of cs) -> bytes_ok data -> (length cs < fuel)%nat ->
  0 <= off <= 65535 -> 0 < Z.of_nat (length data) <= 65535 ->
  wp (pbuf_take_at fuel p data off h) (fun '(h', err) =>
    if Z.ltb (Z.of_nat (length (bytes_of cs))) (off + Z.of_nat (length data)) then err = ERR_MEM /\ h' = h
    else err = ERR_OK /\ pbufs h' = pbufs h /\
      pbuf_copy_partial fuel p (Z.of_nat (length data)) off h' = Some (data, Z.of_nat (length data)) /\
      pbuf_memcmp fuel p off data h' = Some 0 /\
      forall i, 0 <= i <= 65535 -> pbuf_get_at fuel p i h' =
        if decide (off <= i < off + Z.of_nat (length data)) then data !! Z.to_nat (i - off) else pbuf_get_at fuel p i h).
Proof.
  intros L Hp Hp0 S Hb Hd Hf Ho Hn.
  eapply wp_mono; [apply (pbuf_take_at_ok fuel p cs h data off); done || lia|]. intros [h' err].
  destruct (Z.ltb_spec (Z.of_nat (length (bytes_of cs))) (off + Z.of_nat (length data))).
  { by rewrite decide_False by lia. }
  rewrite decide_True by lia. intros (-> & W & cs' & Hp' & E1 & E2). pose proof (wr_pbufs _ _ _ W) as Ep.
  assert (Hf' : (length cs' < fuel)%nat) by (rewrite <- (length_fmap fst cs'), E1, length_fmap; done).
  assert (El : length (bytes_of cs') = length (bytes_of cs)) by (rewrite E2; apply length_inserts).
  pose proof (slice_inserts (bytes_of cs) (Z.to_nat off) data ltac:(lia)) as Es. rewrite Z2Nat.id, <- E2 in Es by lia.
  assert (Hb' : bytes_ok (bytes_of cs')).
  { apply Forall_lookup_2. intros i x. rewrite E2, inserts_lookup by lia. case_decide; intros Hx; by eapply Forall_lookup_1 in Hx. }
  split_and!; [done|done| | |].
  - rewrite (pbuf_copy_partial_ok _ _ cs') by (done || lia). by rewrite Es.
  - rewrite (pbuf_memcmp_ok _ _ cs') by (rewrite ?Ep; done || lia). rewrite El.
    destruct (Z.ltb_spec (Z.of_nat (length (bytes_of cs))) (off + Z.of_nat (length data))); [lia|].
    by rewrite (proj2 (slice_mismatch (bytes_of cs') data off ltac:(lia) ltac:(lia)) Es).
  - intros i Hi. rewrite (pbuf_get_at_ok _ _ cs'), (pbuf_get_at_ok _ _ cs), E2, inserts_lookup by (done || lia).
    destruct (decide (off <= i < off + Z.of_nat (length data))) as [Hin|Hin].
    + rewrite decide_True by lia. replace (Z.to_nat i - Z.to_nat off)%nat with (Z.to_nat (i - off)) by lia.
      by destruct (lookup_lt_is_Some_2 data (Z.to_nat (i - off)) ltac:(lia)) as [x ->].
    + by rewrite decide_False by lia.
Qed.

(** [pbuf_memfind] answers the first place, from [start] on, where the bytes
    occur in the packet, though they may lie across buffers, and 65535 only if
    there is none (or if that is the place). *)
Theorem memfind_first h p cs mem start : lens_ok (pbufs h) -> packet h p cs -> p <> 0 -> bytes_ok (bytes_of cs) ->
  (length cs < fuel)%nat -> 0 <= start -> wp (pbuf_memfind fuel p mem start h) (first_occurrence (bytes_of cs) mem start).
Proof. intros. by apply pbuf_memfind_ok. Qed.
End contents.

(** ** Scripts of operations *)

Section script.
Context `{CustomFree}.
Variable fuel : nat.

Inductive pbuf_op :=
| OpAlloc (fs : list (Z * list Z)) (layer : pbuf_layer) (n : Z) (type : pbuf_type)
| OpCustom (l : pbuf_layer) (n : Z) (type : pbuf_type) (p : Z) (mem : option Z) (mem_len : Z)
| OpFree (p : Z)
| OpRef (p : Z)
| OpCat (p t : Z)
| OpChain (p t : Z)
| OpDechain (p : Z)
| OpAddHeader (p n : Z) (force : bool)
| OpRemoveHeader (p n : Z).

(** The heap, and the references that its clients hold. *)
Definition pstate : Type := Heap * list Z.

Fixpoint drop_root (p : Z) (roots : list Z) : list Z :=
  match roots with
  | [] => []
  | r :: roots => if Z.eqb p r then roots else r :: drop_root p roots
  end.

Definition run_pop (o : pbuf_op) (st : pstate) : option pstate :=
  let '(h, roots) := st in
  match o with
  | OpAlloc fs layer n type => '(h, r) ← pbuf_alloc fuel fs layer n type h; Some (h, as_roots r roots)
  | OpCustom l n type p mem mem_len =>
      let '(h, r) := pbuf_alloced_custom l n type p mem mem_len h in Some (h, as_roots r roots)
  | OpFree p => '(h, _) ← pbuf_free fuel p h; Some (h, drop_root p roots)
  | OpRef p => h ← pbuf_ref p h; Some (h, p :: roots)
  | OpCat p t => h ← pbuf_cat fuel p t h; Some (h, drop_root t roots)
  | OpChain p t => h ← pbuf_chain fuel p t h; Some (h, roots)
  | OpDechain p => '(h, _) ← pbuf_dechain fuel p h; Some (h, roots)
  | OpAddHeader p n force => '(h, _) ← pbuf_add_header_impl p n force h; Some (h, roots)
  | OpRemoveHeader p n => '(h, _) ← pbuf_remove_header p n h; Some (h, roots)
  end.

(** What a client may do: it frees references that it holds, lets no count pass
    255 and no length 65535, and changes only chains that nobody else's chain
    leads into. *)
Definition joinable (p t : Z) (st : pstate) : Prop :=
  p ∈ st.2 /\ t ∈ st.2 /\ p <> t /\ (exists ps, owned (pbufs st.1) p ps) /\
  tot_of (pbufs st.1) p + tot_of (pbufs st.1) t <= 65535.

Definition legal (o : pbuf_op) (st : pstate) : Prop :=
  (size (pbufs st.1) < fuel)%nat /\
  match o with
  | OpAlloc fs _ n _ => 0 <= n <= 65535 /\ NoDup fs.*1 /\ (forall a, a ∈ fs.*1 -> fresh a st.1) /\
      (size (pbufs st.1) + length fs < fuel)%nat
  | OpCustom _ n _ p _ _ => 0 <= n <= 65535 /\ fresh p st.1
  | OpFree p => p ∈ st.2
  | OpRef p => exists b, pbufs st.1 !! p = Some b /\ ref b < 255
  | OpCat p t => joinable p t st
  | OpChain p t => joinable p t st /\ exists b, pbufs st.1 !! t = Some b /\ ref b < 255
  | OpDechain p => p ∈ st.2 /\ exists b, pbufs st.1 !! p = Some b /\ ref b = 1
  | OpAddHeader p n _ | OpRemoveHeader p n => 0 <= n /\ sole (pbufs st.1) p /\ is_Some (pbufs st.1 !! p)
  end.

Lemma drop_root_cnt p roots x : p ∈ roots -> cnt x roots = cnt x (p :: drop_root p roots).
Proof.
  induction roots as [|r roots IH]; [by intros ?%not_elem_of_nil|]. intros Hin. cbn [drop_root].
  destruct (Z.eqb_spec p r) as [->|Hne]; [done|]. apply elem_of_cons in Hin as [->|Hin]; [done|].
  rewrite !cnt_cons in *. rewrite IH by done. lia.
Qed.

Lemma drop_root_ok m p roots : p ∈ roots -> heap_ok m roots -> heap_ok m (p :: drop_root p roots).
Proof. intros Hp [R L]. constructor; [|done]. eapply refs_ok_cnt; [|exact R]. intros x. by apply drop_root_cnt. Qed.

Lemma drop_root_other p t roots : p ∈ roots -> p <> t -> p ∈ drop_root t roots.
Proof.
  intros Hp Hne. apply cnt_pos in Hp. apply cnt_pos.
  destruct (decide (t ∈ roots)) as [Ht|Ht].
  - rewrite (drop_root_cnt t roots p Ht), cnt_cons in Hp. destruct (Z.eqb_spec p t); [done|]. lia.
  - replace (drop_root t roots) with roots; [done|]. clear Hp. induction roots as [|r roots IH]; [done|].
    apply not_elem_of_cons in Ht as [Htr Ht]. cbn. destruct (Z.eqb_spec t r); [done|]. by rewrite <- IH.
Qed.

Lemma run_pop_ok o st : heap_ok (pbufs st.1) st.2 -> legal o st ->
  wp (run_pop o st) (fun st' => heap_ok (pbufs st'.1) st'.2).
Proof.
  destruct st as [h roots]. intros H0 [Hf Ho]. cbn [fst snd] in *. destruct o; cbn [run_pop].
  - destruct Ho as (Hn & Hnd & Hfr & Hsz). apply wp_bind. eapply wp_mono; [by apply pbuf_alloc_ok|].
    intros [h' r] ?. by apply wp_ret.
  - destruct Ho as [Hn Hfr]. unfold pbuf_alloced_custom. cbv zeta. destruct (Z.ltb _ _); [by apply wp_ret|]. apply wp_ret. cbn [fst snd].
    unfold as_roots. destruct (Z.eqb_spec p 0) as [->|]; [by destruct Hfr|]. by apply init_ok.
  - apply wp_bind. eapply wp_mono; [apply (pbuf_free_ok fuel p h (drop_root p roots)); [by apply drop_root_ok|lia]|].
    intros [h' k] (? & _). by apply wp_ret.
  - destruct Ho as (b & Hb & Hr). apply wp_bind. eapply wp_mono; [by eapply pbuf_ref_ok|].
    intros h' (? & _). by apply wp_ret.
  - destruct Ho as (Hp & Ht & Hne & (ps & Hown) & HT). cbn [fst snd] in *.
    destruct (roots_live _ _ _ (ho_refs _ _ H0) Ht) as [Ht0 (tb & Htb)].
    apply wp_bind. eapply wp_mono; [apply (pbuf_cat_ok fuel p t ps tb h (drop_root t roots)); try done|].
    + by apply drop_root_ok.
    + by apply drop_root_other.
    + lia.
    + unfold tot_of at 2 in HT. destruct (Z.eqb_spec t 0); [done|]. by rewrite Htb in HT.
    + intros h' (? & _). by apply wp_ret.
  - destruct Ho as ((Hp & Ht & Hne & (ps & Hown) & HT) & tb & Htb & Hr). cbn [fst snd] in *. apply wp_bind.
    eapply wp_mono; [apply (pbuf_chain_ok fuel p t ps tb h roots); try done; [lia|]|].
    + destruct (roots_live _ _ _ (ho_refs _ _ H0) Ht) as [Ht0 _].
      unfold tot_of at 2 in HT. destruct (Z.eqb_spec t 0); [done|]. by rewrite Htb in HT.
    + intros h' ?. by apply wp_ret.
  - destruct Ho as (Hp & b & Hb & Hr). apply wp_bind. eapply wp_mono; [by eapply pbuf_dechain_ok|].
    intros [h' q] ?. by apply wp_ret.
  - destruct Ho as (Hn & Hs & b & Hb). apply wp_bind. eapply wp_mono; [by eapply pbuf_add_header_ok|].
    intros [h' failed] (? & _). by apply wp_ret.
  - destruct Ho as (Hn & Hs & b & Hb). apply wp_bind. eapply wp_mono; [by eapply pbuf_remove_header_ok|].
    intros [h' failed] (? & _). by apply wp_ret.
Qed.

Fixpoint run_pops (os : list pbuf_op) (st : pstate) : option pstate :=
  match os with
  | [] => Some st
  | o :: os => st ← run_pop o st; run_pops os st
  end.

Fixpoint legal_run (os : list pbuf_op) (st : pstate) : Prop :=
  match os with
  | [] => True
  | o :: os => legal o st /\ forall st', run_pop o st = Some st' -> legal_run os st'
  end.

Lemma run_pops_ok os : forall st, heap_ok (pbufs st.1) st.2 -> legal_run os st ->
  wp (run_pops os st) (fun st' => heap_ok (pbufs st'.1) st'.2).
Proof.
  induction os as [|o os IH]; intros st H0 Hl; [by apply wp_ret|].
  destruct Hl as [Ho Hl]. cbn [run_pops]. apply wp_bind. destruct (run_pop_ok o st H0 Ho) as (st1 & E & H1).
  exists st1. split; [done|]. by apply IH; [|apply Hl].
Qed.

(** C14: As long as its clients keep the rules of [legal] (only references that
    they hold are freed; a chain is joined to one that nobody else's chain leads
    into, cut and given headers only where nothing else leads into it; no count
    of 255 is raised, and no chain grows over 65535 bytes), the heap of packet
    buffers stays sound, in any order of the calls: every call returns and no assertion fails, each buffer's count
    is the number of pointers to it, each is on the chain of somebody's
    reference, its total length is that of the chain from it, and when no
    reference is left no buffer is. *)
Theorem buffers_stay_counted os st : heap_ok (pbufs st.1) st.2 -> legal_run os st ->
  wp (run_pops os st) (fun st' =>
    (forall p b, pbufs st'.1 !! p = Some b ->
      ref b = Z.of_nat (cnt p st'.2 + cnt p (pointers (pbufs st'.1))) /\ 1 <= ref b <= 255 /\
      tot_len b = len b + tot_of (pbufs st'.1) (next b) /\
      exists r ps, r ∈ st'.2 /\ chain_from (pbufs st'.1) r ps /\ p ∈ ps) /\
    (st'.2 = [] -> pbufs st'.1 = ∅)).
Proof.
  intros H0 Hl. eapply wp_mono; [by apply run_pops_ok|]. intros st' [R L]. split.
  - intros p b Hb. destruct (ro_count _ _ R _ _ Hb) as [E ?]. destruct (L _ _ Hb) as (_ & _ & ET).
    split_and!; [done|lia|lia|done|]. exact (reached _ _ _ _ R Hb).
  - intros E. rewrite E in R. by apply no_roots_no_heap.
Qed.
End script.

(** ** Runs *)

(** Custom buffers whose function gives back the struct and keeps the memory. *)
#[export] Instance keep_memory : CustomFree := {
  custom_free_function p h := mkHeap (delete p (pbufs h)) (blocks h) (ooseq_pending h);
  custom_free_pbufs p h := eq_refl;
  custom_free_blocks p h b x _ _ := eq_refl;
}.

Definition empty_heap : Heap := mkHeap ∅ ∅ false.

Lemma empty_heap_ok : heap_ok (pbufs empty_heap) [].
Proof.
  constructor; [|intros p b Hb; cbn in Hb; by rewrite lookup_empty in Hb]. constructor.
  - apply lookup_empty.
  - apply not_elem_of_nil.
  - intros p Hp. by apply not_elem_of_nil in Hp.
  - intros p b Hb; cbn in Hb; by rewrite lookup_empty in Hb.
  - intros p b Hb; cbn in Hb; by rewrite lookup_empty in Hb.
Qed.

Lemma legal_run_cons fuel o os st st1 : legal fuel o st -> run_pop fuel o st = Some st1 -> legal_run fuel os st1 ->
  legal_run fuel (o :: os) st.
Proof. intros Ho E Hl. split; [done|]. rewrite E. by intros st' [= <-]. Qed.

(** Two packets of three bytes. *)
Definition two_allocs : list pbuf_op :=
  [OpAlloc [(2, [4; 5; 6])] PBUF_RAW 3 PBUF_RAM; OpAlloc [(1, [7; 8; 9])] PBUF_RAW 3 PBUF_RAM].
Definition after (os : list pbuf_op) : pstate := default (empty_heap, []) (run_pops 10 os (empty_heap, [])).
Definition two_packets : Heap := (after two_allocs).1.
Definition one_packet : Heap := (after (two_allocs ++ [OpCat 1 2])).1.

Lemma legal_two_allocs os : legal_run 10 os (after two_allocs) -> legal_run 10 (two_allocs ++ os) (empty_heap, []).
Proof.
  intros Hl. eapply legal_run_cons; [|by vm_compute|eapply legal_run_cons; [|by vm_compute|exact Hl]].
  - split; [vm_compute; lia|]. split_and!; [lia|lia|apply NoDup_singleton| |vm_compute; lia].
    by intros a ->%list_elem_of_singleton.
  - split; [vm_compute; lia|]. split_and!; [lia|lia|apply NoDup_singleton| |vm_compute; lia].
    by intros a ->%list_elem_of_singleton.
Qed.

Lemma joinable_two : legal 10 (OpCat 1 2) (after two_allocs).
Proof.
  split; [vm_compute; lia|]. split_and!; [left|right; left|done| |by vm_compute].
  exists [1]. constructor.
  - split; [done|]. split; [done|]. eexists. split; [by vm_compute|done].
  - intros a b ->%list_elem_of_singleton. vm_compute. by intros [= <-].
Qed.

Lemma run_heap_ok os st : run_pops 10 os (empty_heap, []) = Some st -> legal_run 10 os (empty_heap, []) ->
  heap_ok (pbufs st.1) st.2.
Proof.
  intros E Hl. destruct (run_pops_ok 10 os (empty_heap, []) empty_heap_ok Hl) as (st' & E' & Ok).
  rewrite E in E'. by injection E' as <-.
Qed.

Lemma two_packets_ok : heap_ok (pbufs two_packets) [1; 2].
Proof.
  apply (run_heap_ok two_allocs (after two_allocs)); [by vm_compute|]. rewrite <- (app_nil_r two_allocs).
  by apply legal_two_allocs.
Qed.

Lemma one_packet_ok : heap_ok (pbufs one_packet) [1].
Proof.
  apply (run_heap_ok (two_allocs ++ [OpCat 1 2]) (after (two_allocs ++ [OpCat 1 2]))); [by vm_compute|].
  apply legal_two_allocs. split; [exact joinable_two|done].
Qed.

Lemma one_packet_bytes : packet one_packet 1 [(1, [7; 8; 9]); (2, [4; 5; 6])].
Proof. repeat first [split; [done|]|eexists; split; [by vm_compute|]]; by vm_compute. Qed.

Lemma one_packet_separate : separate (pbufs one_packet) [1; 2].
Proof.
  intros a a' b b' [->| ->%list_elem_of_singleton]%elem_of_cons [->| ->%list_elem_of_singleton]%elem_of_cons Hne;
    try done; vm_compute; by intros [= <-] [= <-].
Qed.

Definition script : list pbuf_op := two_allocs ++ [OpCat 1 2; OpRef 1; OpFree 1; OpFree 1].

Lemma legal_script : legal_run 10 script (empty_heap, []).
Proof.
  apply legal_two_allocs. eapply legal_run_cons; [exact joinable_two|by vm_compute|].
  eapply legal_run_cons; [|by vm_compute|eapply legal_run_cons; [|by vm_compute|eapply legal_run_cons; [|by vm_compute|done]]].
  - split; [vm_compute; lia|]. eexists. split; [by vm_compute|done].
  - split; [vm_compute; lia|]. left.
  - split; [vm_compute; lia|]. left.
Qed.

(** Two buffers are joined, referred to once more and freed twice. *)
Lemma buffers_stay_counted_witness : legal_run 10 script (empty_heap, []) /\
  exists st', run_pops 10 script (empty_heap, []) = Some st' /\ pbufs st'.1 = ∅.
Proof.
  split; [exact legal_script|].
  destruct (buffers_stay_counted 10 script (empty_heap, []) empty_heap_ok legal_script) as (st' & E & _ & Hempty).
  exists st'. split; [exact E|]. apply Hempty. vm_compute in E. injection E as <-. reflexivity.
Defined.

(** Data across both buffers. *)
Lemma written_bytes_are_read_witness : exists h', pbuf_take_at 10 1 [20; 21] 2 one_packet = Some (h', ERR_OK) /\
  pbuf_copy_partial 10 1 2 2 h' = Some ([20; 21], 2) /\ pbuf_get_at 10 1 4 h' = Some 5.
Proof.
  destruct (written_bytes_are_read 10 one_packet 1 [(1, [7; 8; 9]); (2, [4; 5; 6])] [20; 21] 2
    (ho_lens _ _ one_packet_ok) one_packet_bytes ltac:(done) one_packet_separate
    ltac:(repeat constructor; lia) ltac:(repeat constructor; lia) ltac:(cbn; lia) ltac:(lia) ltac:(cbn; lia))
    as ([h' err] & E & -> & _ & Hc & _ & Hg).
  exists h'. split; [exact E|]. split; [exact Hc|]. rewrite Hg by lia. vm_compute. reflexivity.
Defined.

(** Bytes that lie across both buffers are found. *)
Lemma memfind_first_witness : exists r, pbuf_memfind 10 1 [9; 4] 0 one_packet = Some r /\
  first_occurrence [7; 8; 9; 4; 5; 6] [9; 4] 0 r.
Proof.
  exact (memfind_first 10 one_packet 1 [(1, [7; 8; 9]); (2, [4; 5; 6])] [9; 4] 0
    (ho_lens _ _ one_packet_ok) one_packet_bytes ltac:(done) ltac:(repeat constructor; lia) ltac:(cbn; lia) ltac:(lia)).
Defined.

Definition arrivals : list queue_op := [Recv 1 [(1, [7; 8; 9])]; Recv 2 [(2, [4; 5; 6])]; FreeHeader 4].
Definition no_session : St :=
  (mkTCP true false [] (mkRing 0 0 0 0 0 []), mkNet [] false [] [] 0 [] [] false).

Lemma two_packets_inbox : inbox two_packets 0 [] (pending arrivals) [].
Proof.
  constructor.
  - constructor; [exact two_packets_ok|done|by intros a b ?%not_elem_of_nil|by intros a a' b b' ?%not_elem_of_nil].
  - intros t ds [[= -> ->]| [= -> ->]%list_elem_of_singleton]%elem_of_cons; (split; [done|]);
      repeat first [split; [done|]|eexists; split; [by vm_compute|]]; by vm_compute.
  - intros a b [->| ->%list_elem_of_singleton]%elem_of_cons; vm_compute; by intros [= <-].
  - intros a a' b b' [->| ->%list_elem_of_singleton]%elem_of_cons [->| ->%list_elem_of_singleton]%elem_of_cons Hne;
      try done; vm_compute; by intros [= <-] [= <-].
  - apply (bool_decide_unpack _). by vm_compute.
Qed.

(** Two packets arrive and four of their six bytes are consumed. *)
Lemma session_queue_refines_witness : exists h' q' cs', run_queue 10 arrivals 0 two_packets = Some (h', q') /\
  queue_ok h' q' cs' [] /\ cs'.*2 = [[5; 6]].
Proof.
  destruct (session_queue_refines 10 arrivals two_packets 0 [] [] no_session.1 no_session.2 two_packets_inbox
    eq_refl ltac:(vm_compute; intuition discriminate) ltac:(vm_compute; lia)) as ([h' q'] & E & cs' & Q & Ec & _).
  exists h', q', cs'. split; [exact E|]. split; [exact Q|]. rewrite Ec. vm_compute. reflexivity.
Defined.

(** An offset that fits the packet but not its first buffer. *)
Lemma copy_beyond_first_buffer :
  let st := after (two_allocs ++ [OpCat 1 2; OpAlloc [(3, [0])] PBUF_RAW 1 PBUF_RAM]) in
  tot_of (pbufs st.1) 1 = 6 /\ pbuf_copy_partial_pbuf 10 1 3 1 5 st.1 = None.
Proof. by vm_compute. Qed.
