(* ===== verification/Chksum.v ===== *)
(** * lwIP's Internet checksums (third-part/lwip/src/core/inet_chksum.c)

    The machine is little-endian.  Where a piece of memory lies is not part of
    the heap's model: [odd] says which addresses are odd, and the theorems hold
    for every such function. *)
From S2P Require Import Prelude CInt Pbuf PbufRefs PbufSpec PbufProps.

(** ** Sums *)

Definition FOLD_U32T (u : Z) : Z := u32 (Z.shiftr u 16 + Z.land u 65535).
Definition SWAP_BYTES_IN_WORD (w : Z) : Z :=
  Z.lor (Z.shiftl (Z.land w 255) 8) (Z.shiftr (Z.land w 65280) 8).

(** [while (len > 1) sum += *ps++]: the sum, and what is left. *)
Fixpoint add_words (bs : list Z) (sum : Z) : Z * list Z :=
  match bs with
  | b0 :: b1 :: bs => add_words bs (u32 (sum + of_le16 b0 b1))
  | _ => (sum, bs)
  end.

(** [odd]: the address of [bs] is. *)
Definition lwip_standard_chksum (odd : bool) (bs : list Z) : Z :=
  let t1 := if odd then default 0 (head bs) else 0 in
  let bs := if odd then tail bs else bs in
  let '(sum, rest) := add_words bs 0 in
  let t0 := default 0 (head rest) in
  let sum := u32 (sum + of_le16 t0 t1) in
  let sum := FOLD_U32T (FOLD_U32T sum) in
  u16 (if odd then SWAP_BYTES_IN_WORD sum else sum).

Definition inet_chksum (odd : bool) (bs : list Z) : Z := u16 (Z.lnot (lwip_standard_chksum odd bs)).

(** ** Packets *)

(** [ip_addr_t]: the words of the union, in network order as the machine reads
    them, and whether its type is IPv6. *)
Record ip_addr := mkIp { ip_words : list Z; ip_is_v6 : bool }.

Section chksum.
Variable odd : pointer -> bool.
Variable fuel : nat.

Definition LWIP_CHKSUM (x : pointer) (n : Z) (h : Heap) : option Z :=
  bs ← rd_bytes x n h; Some (lwip_standard_chksum (odd x) bs).

(** The loop over the chain of [inet_cksum_pseudo_base] and [inet_chksum_pbuf]. *)
Fixpoint chain_loop (n : nat) (q acc : Z) (swapped : bool) (h : Heap) : option (Z * bool) :=
  match n with
  | O => None
  | S n =>
      if Z.eqb q 0 then Some (acc, swapped) else
      b ← pbufs h !! q;
      c ← LWIP_CHKSUM (payload b) (len b) h;
      let acc := FOLD_U32T (u32 (acc + c)) in
      if Z.eqb (len b mod 2) 0 then chain_loop n (next b) acc swapped h
      else chain_loop n (next b) (SWAP_BYTES_IN_WORD acc) (negb swapped) h
  end.

(** The end of [inet_cksum_pseudo_base] and of its partial variant. *)
Definition pseudo_end (proto proto_len acc : Z) (swapped : bool) : Z :=
  let acc := if swapped then SWAP_BYTES_IN_WORD acc else acc in
  let acc := u32 (acc + htons (u16 proto)) in
  let acc := u32 (acc + htons proto_len) in
  let acc := FOLD_U32T (FOLD_U32T acc) in
  u16 (Z.lnot (Z.land acc 65535)).

Definition inet_cksum_pseudo_base (p proto proto_len acc : Z) (h : Heap) : option Z :=
  '(acc, swapped) ← chain_loop fuel p acc false h; Some (pseudo_end proto proto_len acc swapped).

(** The halves of the words of two addresses. *)
Definition addr_halves (acc addr : Z) : Z :=
  u32 (u32 (acc + Z.land addr 65535) + Z.land (Z.shiftr addr 16) 65535).
Definition addrs_sum (words : list (Z * Z)) : Z :=
  foldl (fun acc '(s, d) => addr_halves (addr_halves acc s) d) 0 words.

Definition inet_chksum_pseudo (p proto proto_len src dest : Z) (h : Heap) : option Z :=
  inet_cksum_pseudo_base p proto proto_len (FOLD_U32T (FOLD_U32T (addrs_sum [(src, dest)]))) h.

Definition ip6_chksum_pseudo (p proto proto_len : Z) (src dest : list Z) (h : Heap) : option Z :=
  inet_cksum_pseudo_base p proto proto_len (FOLD_U32T (FOLD_U32T (addrs_sum (zip src dest)))) h.

Definition ip_chksum_pseudo (p proto proto_len : Z) (src dest : ip_addr) (h : Heap) : option Z :=
  if ip_is_v6 dest then ip6_chksum_pseudo p proto proto_len (ip_words src) (ip_words dest) h
  else inet_chksum_pseudo p proto proto_len (default 0 (head (ip_words src))) (default 0 (head (ip_words dest))) h.

(** The assertion "delete me" is one. *)
Fixpoint partial_loop (n : nat) (q chksum_len acc : Z) (swapped : bool) (h : Heap) : option (Z * bool) :=
  match n with
  | O => None
  | S n =>
      if (Z.eqb q 0 || Z.leb chksum_len 0)%bool then Some (acc, swapped) else
      b ← pbufs h !! q;
      let chklen := if Z.ltb chksum_len (len b) then chksum_len else len b in
      c ← LWIP_CHKSUM (payload b) chklen h;
      let chksum_len := u16 (chksum_len - chklen) in
      if Z.leb 32767 chksum_len then None else
      let acc := FOLD_U32T (u32 (acc + c)) in
      if Z.eqb (len b mod 2) 0 then partial_loop n (next b) chksum_len acc swapped h
      else partial_loop n (next b) chksum_len (SWAP_BYTES_IN_WORD acc) (negb swapped) h
  end.

Definition inet_cksum_pseudo_partial_base (p proto proto_len chksum_len acc : Z) (h : Heap) : option Z :=
  '(acc, swapped) ← partial_loop fuel p chksum_len acc false h; Some (pseudo_end proto proto_len acc swapped).

Definition inet_chksum_pseudo_partial (p proto proto_len chksum_len src dest : Z) (h : Heap) : option Z :=
  inet_cksum_pseudo_partial_base p proto proto_len chksum_len (FOLD_U32T (FOLD_U32T (addrs_sum [(src, dest)]))) h.

Definition ip6_chksum_pseudo_partial (p proto proto_len chksum_len : Z) (src dest : list Z) (h : Heap) : option Z :=
  inet_cksum_pseudo_partial_base p proto proto_len chksum_len (FOLD_U32T (FOLD_U32T (addrs_sum (zip src dest)))) h.

Definition ip_chksum_pseudo_partial (p proto proto_len chksum_len : Z) (src dest : ip_addr) (h : Heap) : option Z :=
  if ip_is_v6 dest then ip6_chksum_pseudo_partial p proto proto_len chksum_len (ip_words src) (ip_words dest) h
  else inet_chksum_pseudo_partial p proto proto_len chksum_len
         (default 0 (head (ip_words src))) (default 0 (head (ip_words dest))) h.

Definition inet_chksum_pbuf (p : Z) (h : Heap) : option Z :=
  '(acc, swapped) ← chain_loop fuel p 0 false h;
  let acc := if swapped : bool then SWAP_BYTES_IN_WORD acc else acc in
  Some (u16 (Z.lnot (Z.land acc 65535))).

(** ** Copying *)

Definition lwip_chksum_copy (dst : pointer) (src : list Z) (h : Heap) : option (Heap * Z) :=
  h ← wr_bytes dst src h; c ← LWIP_CHKSUM dst (Z.of_nat (length src)) h; Some (h, c).

(** [pbuf_fill_chksum] of pbuf.c: the error and the new checksum. *)
Definition pbuf_fill_chksum (p start_offset : Z) (data : list Z) (chksum : Z) (h : Heap) : option (Heap * Z * Z) :=
  if (Z.eqb p 0 || bool_decide (data = []))%bool then None else
  b ← pbufs h !! p;
  if (Z.leb (len b) start_offset || Z.ltb (len b) (start_offset + Z.of_nat (length data)))%bool
  then Some (h, chksum, ERR_ARG) else
  '(h, copy_chksum) ← lwip_chksum_copy (ptr_add (payload b) start_offset) data h;
  let copy_chksum := if negb (Z.eqb (Z.land start_offset 1) 0) then u16 (SWAP_BYTES_IN_WORD copy_chksum) else copy_chksum in
  Some (h, u16 (FOLD_U32T (u32 (chksum + copy_chksum))), ERR_OK).
End chksum.

(** ** Ones' complement sums *)

(** RFC 1071: the 16-bit words in network order, the last byte padded, are
    added with the carry brought around. *)
Definition oc_add (a b : Z) : Z := if Z.ltb 65535 (a + b) then a + b - 65535 else a + b.

Fixpoint be_words (bs : list Z) : list Z :=
  match bs with
  | b0 :: b1 :: bs => of_be16 b0 b1 :: be_words bs
  | [b0] => [of_be16 b0 0]
  | [] => []
  end.

Definition rfc1071 (bs : list Z) : Z := foldl oc_add 0 (be_words bs).

(** Equal sums: equal modulo 65535, and zero together. *)
Definition ceq (a b : Z) : Prop := (exists k, b = a + 65535 * k) /\ (a = 0 <-> b = 0).

#[export] Instance ceq_equivalence : Equivalence ceq.
Proof.
  split.
  - intros a. split; [by exists 0; lia|done].
  - intros a b [(k & E) Hz]. split; [exists (- k); lia|tauto].
  - intros a b c [(k & E) Hz] [(k' & E') Hz']. split; [exists (k + k'); lia|tauto].
Qed.

Lemma ceq_add a b c d : 0 <= a -> 0 <= b -> 0 <= c -> 0 <= d -> ceq a b -> ceq c d -> ceq (a + c) (b + d).
Proof. intros ???? [(k & E) Hz] [(k' & E') Hz']. split; [exists (k + k'); lia|lia]. Qed.

Lemma ceq_mul a b : ceq a b -> ceq (256 * a) (256 * b).
Proof. intros [(k & E) Hz]. split; [exists (256 * k); lia|lia]. Qed.

Lemma ceq_carry a b : 0 <= a -> 0 <= b -> ceq (a + 65536 * b) (a + b).
Proof. split; [exists (- b); lia|lia]. Qed.

(** A sum of 16 bits is the only one of its kind. *)
Lemma ceq_unique a b : 0 <= a <= 65535 -> 0 <= b <= 65535 -> ceq a b -> a = b.
Proof. intros Ha Hb [(k & E) Hz]. assert (k = 0 \/ k = 1 \/ k = -1) by lia. lia. Qed.

Lemma fold_arith u : 0 <= u < 2 ^ 32 -> FOLD_U32T u = u / 65536 + u mod 65536.
Proof.
  intros Hu. unfold FOLD_U32T. rewrite Z.shiftr_div_pow2 by lia. change 65535 with (Z.ones 16).
  rewrite Z.land_ones by lia. change (2 ^ 16) with 65536. apply u32_id. dlia.
Qed.

Lemma fold_ok u : 0 <= u < 2 ^ 32 -> 0 <= FOLD_U32T u <= 131070 /\ ceq (FOLD_U32T u) u.
Proof.
  intros Hu. rewrite fold_arith by done. split; [dlia|]. symmetry.
  replace u with (u mod 65536 + 65536 * (u / 65536)) at 1 by dlia. rewrite Z.add_comm with (n := u / 65536).
  apply ceq_carry; dlia.
Qed.

Lemma fold_small u : 0 <= u <= 131070 -> 0 <= FOLD_U32T u <= 65535 /\ ceq (FOLD_U32T u) u.
Proof. intros Hu. split; [|apply fold_ok; lia]. rewrite fold_arith by lia. dlia. Qed.

Lemma fold_fold u : 0 <= u < 2 ^ 32 -> 0 <= FOLD_U32T (FOLD_U32T u) <= 65535 /\ ceq (FOLD_U32T (FOLD_U32T u)) u.
Proof.
  intros Hu. destruct (fold_ok u Hu) as [H1 E1]. destruct (fold_small _ H1) as [H2 E2]. split; [done|]. by rewrite E2.
Qed.

Lemma swap_arith w : 0 <= w <= 65535 -> SWAP_BYTES_IN_WORD w = 256 * (w mod 256) + w / 256.
Proof.
  intros Hw. unfold SWAP_BYTES_IN_WORD. change 65280 with (Z.shiftl (Z.ones 8) 8).
  assert (Z.shiftr (Z.land w (Z.shiftl (Z.ones 8) 8)) 8 = w / 256) as ->.
  { rewrite Z.shiftr_land, Z.shiftr_shiftl_l, Z.sub_diag, Z.shiftl_0_r by lia.
    rewrite Z.shiftr_div_pow2, Z.land_ones by lia. change (2 ^ 8) with 256. apply Z.mod_small. dlia. }
  change 255 with (Z.ones 8). rewrite Z.land_ones by lia. change (2 ^ 8) with 256. apply lor_shift8. dlia.
Qed.

Lemma swap_ok w : 0 <= w <= 65535 -> 0 <= SWAP_BYTES_IN_WORD w <= 65535 /\ ceq (SWAP_BYTES_IN_WORD w) (256 * w).
Proof.
  intros Hw. rewrite swap_arith by done. split; [dlia|]. symmetry.
  replace (256 * w) with (256 * (w mod 256) + 65536 * (w / 256)) by dlia. apply ceq_carry; dlia.
Qed.

Lemma htons_ok w : 0 <= w <= 65535 -> 0 <= htons w <= 65535 /\ ceq (htons w) (256 * w).
Proof.
  intros Hw. unfold htons. rewrite ntohs_arith, <- swap_arith by lia. by apply swap_ok.
Qed.

Lemma not_arith v : 0 <= v <= 65535 -> u16 (Z.lnot v) = 65535 - v.
Proof. intros Hv. unfold u16, Z.lnot, Z.pred. replace (- v + -1) with (65535 - v + (-1) * 2 ^ 16) by lia.
  rewrite Z.mod_add by lia. apply Z.mod_small. lia. Qed.

(** The sum of the words as the machine reads them. *)
Fixpoint ws (bs : list Z) : Z :=
  match bs with
  | b0 :: b1 :: bs => of_le16 b0 b1 + ws bs
  | [b0] => b0
  | [] => 0
  end.

(** Induction that takes two bytes at a time. *)
Lemma pairs_ind (P : list Z -> Prop) : P [] -> (forall x, P [x]) -> (forall x y l, P l -> P (x :: y :: l)) -> forall l, P l.
Proof.
  intros H0 H1 H2 l. assert (P l /\ forall x, P (x :: l)) as [? _]; [|done].
  induction l as [|y l [IH IH']]; [by split|]. split; [apply IH'|]. intros x. by apply H2.
Qed.

Lemma ws_bounds bs : bytes_ok bs ->
  0 <= ws bs <= 65535 * (Z.of_nat (length bs) / 2) + 255 * (Z.of_nat (length bs) mod 2).
Proof.
  induction bs as [|x|x y bs IH] using pairs_ind; cbn [ws length]; intros Hb; rewrite ?Nat2Z.inj_succ.
  - by split.
  - change (Z.succ (Z.of_nat 0) / 2) with 0. change (Z.succ (Z.of_nat 0) mod 2) with 1. apply Forall_cons in Hb as [Hx _]. unfold byte_ok in Hx. lia.
  - apply Forall_cons in Hb as [Hx [Hy Hb]%Forall_cons]. specialize (IH Hb). unfold byte_ok, of_le16 in *.
    replace (Z.succ (Z.succ (Z.of_nat (length bs)))) with (Z.of_nat (length bs) + 1 * 2) by lia.
    rewrite Z.div_add, Z.mod_add by lia. lia.
Qed.

Lemma ws_nonneg bs : bytes_ok bs -> 0 <= ws bs.
Proof. intros Hb. pose proof (ws_bounds bs Hb). lia. Qed.

(** A list after another one: shifted by a byte if that one's length is odd. *)
Lemma ws_app l l' : bytes_ok l -> bytes_ok l' ->
  ceq (ws (l ++ l')) (ws l + (if Nat.even (length l) then ws l' else 256 * ws l')).
Proof.
  intros Hl Hl'. induction l as [|x|x y l IH] using pairs_ind.
  - done.
  - cbn [app length Nat.even ws]. revert x Hl. induction l' as [|y|y z l' IH] using pairs_ind; intros x Hl.
    + cbn. rewrite Z.add_0_r. reflexivity.
    + cbn. unfold of_le16. rewrite Z.add_0_r. reflexivity.
    + apply Forall_cons in Hl' as [Hy [Hz Hl']%Forall_cons]. pose proof (ws_nonneg _ Hl').
      assert (0 <= ws (z :: l')) by (apply ws_nonneg; by constructor).
      assert (E : ceq (ws (z :: l')) (z + 256 * ws l')) by (apply (IH Hl' z); by constructor).
      apply Forall_cons in Hl as [Hx _]. change (ws ([x] ++ y :: z :: l')) with (of_le16 x y + ws (z :: l')).
      change (ws (y :: z :: l')) with (of_le16 y z + ws l'). unfold byte_ok, of_le16 in *.
      transitivity (x + 256 * y + (z + 256 * ws l')); [apply ceq_add; [lia..|reflexivity|exact E]|].
      replace (x + 256 * y + (z + 256 * ws l')) with (x + 256 * y + 256 * ws l' + z) by lia.
      replace (x + 256 * (y + 256 * z + ws l')) with (x + 256 * y + 256 * ws l' + 65536 * z) by lia.
      symmetry. apply ceq_carry; lia.
  - apply Forall_cons in Hl as [Hx [Hy Hl]%Forall_cons]. specialize (IH Hl). cbn [app ws length Nat.even].
    pose proof (ws_nonneg _ Hl). pose proof (ws_nonneg _ Hl'). unfold byte_ok, of_le16 in *. rewrite <- (Z.add_assoc (x + 256 * y) (ws l)).
    apply ceq_add; [lia|lia|apply ws_nonneg; by apply Forall_app|destruct (Nat.even _); lia|reflexivity|done].
Qed.

(** ** The routine and the reference agree *)

Lemma oc_fold l : forall a, 0 <= a <= 65535 -> Forall (fun w => 0 <= w <= 65535) l ->
  0 <= foldl oc_add a l <= 65535 /\ ceq (foldl oc_add a l) (foldl Z.add a l).
Proof.
  induction l as [|w l IH]; intros a Ha Hl; [by split|]. apply Forall_cons in Hl as [Hw Hl]. cbn [foldl].
  assert (H1 : 0 <= oc_add a w <= 65535 /\ ceq (oc_add a w) (a + w)).
  { unfold oc_add. destruct (Z.ltb_spec 65535 (a + w)); (split; [lia|]); [split; [exists 1; lia|lia]|done]. }
  destruct H1 as [H1 E1]. destruct (IH _ H1 Hl) as [H2 E2]. split; [done|]. rewrite E2. clear -E1 Hl H1 Ha Hw.
  assert (forall x y, 0 <= x -> 0 <= y -> ceq x y -> ceq (foldl Z.add x l) (foldl Z.add y l)) as G.
  { induction l as [|v l IH]; intros x y Hx Hy E; [done|]. apply Forall_cons in Hl as [Hv Hl]. cbn. apply IH; [done|lia|lia|].
    apply ceq_add; [lia..|done|reflexivity]. }
  apply G; lia || done.
Qed.

Lemma be_words_sum bs : bytes_ok bs -> Forall (fun w => 0 <= w <= 65535) (be_words bs) /\
  forall a, 0 <= a -> ceq (foldl Z.add a (be_words bs)) (a + 256 * ws bs).
Proof.
  induction bs as [|x|x y bs IH] using pairs_ind; intros Hb; cbn [be_words ws foldl].
  - split; [done|]. intros a Ha. rewrite Z.mul_0_r, Z.add_0_r. reflexivity.
  - apply Forall_cons in Hb as [Hx _]. unfold byte_ok, of_be16 in *. split; [constructor; [lia|done]|].
    intros a Ha. rewrite Z.add_0_r. reflexivity.
  - apply Forall_cons in Hb as [Hx [Hy Hb]%Forall_cons]. destruct (IH Hb) as [F E]. pose proof (ws_nonneg _ Hb).
    unfold byte_ok, of_be16, of_le16 in *. split; [constructor; [lia|done]|]. intros a Ha. rewrite (E (a + (256 * x + y))) by lia.
    replace (a + 256 * (x + 256 * y + ws bs)) with (a + 256 * x + 256 * ws bs + 65536 * y) by lia.
    replace (a + (256 * x + y) + 256 * ws bs) with (a + 256 * x + 256 * ws bs + y) by lia.
    symmetry. apply ceq_carry; lia.
Qed.

Lemma rfc1071_ok bs : bytes_ok bs -> 0 <= rfc1071 bs <= 65535 /\ ceq (rfc1071 bs) (256 * ws bs).
Proof.
  intros Hb. destruct (be_words_sum bs Hb) as [F E]. destruct (oc_fold (be_words bs) 0 ltac:(lia) F) as [H1 E1].
  split; [exact H1|]. unfold rfc1071. rewrite E1, E by lia. reflexivity.
Qed.

Lemma add_words_ok bs : forall s, bytes_ok bs -> 0 <= s -> s + ws bs < 2 ^ 32 ->
  exists r, add_words bs s = (s + ws bs - default 0 (head r), r) /\ ws r = default 0 (head r) /\ (r = [] \/ exists x, r = [x] /\ byte_ok x).
Proof.
  induction bs as [|x|x y bs IH] using pairs_ind; intros s Hb Hs Hl; cbn [add_words ws] in *.
  - exists []. cbn. split; [f_equal; lia|by split; [|left]].
  - apply Forall_cons in Hb as [Hx _]. exists [x]. cbn. split; [f_equal; lia|]. split; [done|]. right. by exists x.
  - apply Forall_cons in Hb as [Hx [Hy Hb]%Forall_cons]. pose proof (ws_nonneg _ Hb). unfold byte_ok, of_le16 in *.
    rewrite u32_id by lia. destruct (IH (s + (x + 256 * y)) Hb) as (r & E & ?); [lia|lia|]. exists r. rewrite E.
    split; [f_equal; lia|done].
Qed.

(** The routine's sum, at any address. *)
Lemma standard_chksum_ok odd bs : bytes_ok bs -> Z.of_nat (length bs) <= 131074 ->
  0 <= lwip_standard_chksum odd bs <= 65535 /\ ceq (lwip_standard_chksum odd bs) (ws bs).
Proof.
  intros Hb Hl. unfold lwip_standard_chksum.
  set (t1 := if odd then _ else 0). set (l := if odd then tail bs else bs).
  assert (bytes_ok l /\ byte_ok t1 /\ 256 * t1 + ws l < 2 ^ 32 /\
    ceq (256 * t1 + ws l) (if odd then 256 * ws bs else ws bs)) as (Hbl & Ht & Hlt & E).
  { assert (forall k, 0 <= k -> 2 * (k / 2) <= k /\ 0 <= k / 2 /\ k = 2 * (k / 2) + k mod 2 /\ 0 <= k mod 2 < 2) as Hdm.
    { intros k Hk. pose proof (Z.div_mod k 2 ltac:(lia)). pose proof (Z.mod_pos_bound k 2 ltac:(lia)). lia. }
    subst t1 l. pose proof (ws_bounds bs Hb) as Hws. pose proof (Hdm (Z.of_nat (length bs)) ltac:(lia)). destruct odd; [|split_and!; [done|done|lia|reflexivity]].
    destruct bs as [|x bs]; [cbn; split_and!; [done|done|lia|reflexivity]|].
    apply Forall_cons in Hb as [Hx Hb]. pose proof (ws_bounds bs Hb) as Hws'. pose proof (Hdm (Z.of_nat (length bs)) ltac:(lia)). cbn [tail head from_option default id length] in *.
    unfold byte_ok in *. split_and!; [done|lia|lia|lia|].
    assert (E : ceq (ws ([x] ++ bs)) (x + 256 * ws bs)) by (apply (ws_app [x] bs); [by constructor|done]).
    apply ceq_mul in E. cbn [app] in E. rewrite E.
    replace (256 * (x + 256 * ws bs)) with (256 * x + 65536 * ws bs) by lia. symmetry. apply ceq_carry; lia. }
  destruct (add_words_ok l 0 Hbl) as (r & -> & Er & Hr); [lia|unfold byte_ok in Ht; lia|].
  set (t0 := default 0 (head r)). assert (Ht0 : byte_ok t0) by (subst t0; destruct Hr as [->|(x & -> & ?)]; done).
  pose proof (ws_nonneg _ Hbl). replace (0 + ws l - t0 + of_le16 t0 t1) with (256 * t1 + ws l) by (unfold of_le16; lia).
  unfold byte_ok in *. rewrite u32_id by lia.
  destruct (fold_fold (256 * t1 + ws l)) as [H2 E2]; [lia|]. pose proof (transitivity E2 E) as E4. clear E2. destruct odd.
  - destruct (swap_ok _ H2) as [H3 E3]. rewrite u16_id by lia. split; [done|]. rewrite E3. apply ceq_mul in E4. rewrite E4.
    pose proof (ws_nonneg _ Hb). replace (256 * (256 * ws bs)) with (0 + 65536 * ws bs) by lia. by apply ceq_carry.
  - rewrite u16_id by lia. by split.
Qed.

Lemma ceq_shift s : 0 <= s -> ceq (256 * (256 * s)) s.
Proof. intros Hs. replace (256 * (256 * s)) with (0 + 65536 * s) by lia. by apply ceq_carry. Qed.

(** The sum in the machine's order, from the reference. *)
Lemma htons_rfc bs x : bytes_ok bs -> 0 <= x <= 65535 -> ceq x (ws bs) -> x = htons (rfc1071 bs).
Proof.
  intros Hb Hx E. destruct (rfc1071_ok bs Hb) as [H1 E1]. destruct (htons_ok _ H1) as [H2 E2].
  apply ceq_unique; [done|done|]. rewrite E, E2. apply ceq_mul in E1. rewrite E1. symmetry. by apply ceq_shift, ws_nonneg.
Qed.

Lemma ws_app_even l l' : Nat.even (length l) = true -> ws (l ++ l') = ws l + ws l'.
Proof.
  induction l as [|x|x y l IH] using pairs_ind; intros He; [done|done|]. cbn [app ws]. rewrite IH by exact He. lia.
Qed.

Definition word_bytes (w : Z) : list Z := le16 (Z.land w 65535) ++ le16 (Z.land (Z.shiftr w 16) 65535).

Lemma le16_ok v : 0 <= v <= 65535 -> bytes_ok (le16 v) /\ ws (le16 v) = v.
Proof.
  intros Hv. split; [repeat constructor; apply u8_ok|]. cbn. unfold of_le16, u8. rewrite Z.shiftr_div_pow2 by lia.
  change (2 ^ 8) with 256. dlia.
Qed.

Lemma be16_ok v : 0 <= v <= 65535 -> bytes_ok (be16 v) /\ ws (be16 v) = htons v.
Proof. intros Hv. rewrite <- le16_htons by lia. apply le16_ok. by apply htons_ok. Qed.

Lemma half_ok w : 0 <= Z.land w 65535 <= 65535.
Proof. change (Z.land w 65535) with (Z.land w (Z.ones 16)). rewrite Z.land_ones by lia. pose proof (Z.mod_pos_bound w (2 ^ 16)). lia. Qed.

Lemma word_bytes_ok w : bytes_ok (word_bytes w) /\ ws (word_bytes w) = Z.land w 65535 + Z.land (Z.shiftr w 16) 65535.
Proof.
  destruct (le16_ok _ (half_ok w)) as [B1 E1], (le16_ok _ (half_ok (Z.shiftr w 16))) as [B2 E2].
  unfold word_bytes. split; [by apply Forall_app|]. by rewrite ws_app_even, E1, E2.
Qed.

Definition words_bytes (l : list Z) : list Z := concat (map word_bytes l).

Lemma words_bytes_ok l : bytes_ok (words_bytes l) /\ Nat.even (length (words_bytes l)) = true /\
  0 <= ws (words_bytes l) <= 131070 * Z.of_nat (length l).
Proof.
  unfold words_bytes. induction l as [|w l (IH1 & IH2 & IH3)]; [split_and!; [by constructor|done|cbn; lia..]|]. cbn [map concat length].
  destruct (word_bytes_ok w) as [B E]. pose proof (half_ok w). pose proof (half_ok (Z.shiftr w 16)).
  split; [by apply Forall_app|]. rewrite ws_app_even, E by done. split; [exact IH2|lia].
Qed.

(** The pseudo header of TCP and UDP, as its bytes are in a packet. *)
Definition pseudo_header (proto proto_len : Z) (src dest : ip_addr) : list Z :=
  if ip_is_v6 dest
  then words_bytes (ip_words src) ++ words_bytes (ip_words dest) ++ [0; 0] ++ be16 proto_len ++ [0; 0; 0; proto]
  else words_bytes (take 1 (ip_words src)) ++ words_bytes (take 1 (ip_words dest)) ++ [0; proto] ++ be16 proto_len.

Section chains.
Variable odd : pointer -> bool.
Variable fuel : nat.

Lemma chain_loop_ok n s0 h : forall cs pre q acc (sw : bool), 0 <= s0 -> packet h q cs -> (length cs < n)%nat ->
  bytes_ok pre -> bytes_ok (bytes_of cs) -> sw = negb (Nat.even (length pre)) -> 0 <= acc <= 65535 ->
  ceq acc (if sw then 256 * (s0 + ws pre) else s0 + ws pre) ->
  wp (chain_loop odd n q acc sw h) (fun '(acc', sw') => 0 <= acc' <= 65535 /\
    ceq acc' (if sw' : bool then 256 * (s0 + ws (pre ++ bytes_of cs)) else s0 + ws (pre ++ bytes_of cs))).
Proof.
  induction n as [|n IH]; intros cs pre q acc sw Hs0 Hp Hn Bp Bc Hsw Ha E; [lia|]. cbn [chain_loop].
  destruct cs as [|[a c] cs].
  { cbn in Hp. subst q. cbn [Z.eqb]. apply wp_ret. split; [done|]. unfold bytes_of. cbn. by rewrite app_nil_r. }
  destruct Hp as (-> & Ha0 & b & Hb & Hl & Hc & Hp). destruct (Z.eqb_spec a 0); [done|]. rewrite Hb. cbn [mbind option_bind].
  unfold LWIP_CHKSUM. rewrite Hc. cbn [mbind option_bind]. pose proof (rd_bytes_length _ _ _ _ (proj1 Hl) Hc) as El.
  rewrite bytes_of_cons in *. apply Forall_app in Bc as [Bc Bcs]. rewrite app_assoc.
  destruct (standard_chksum_ok (odd (payload b)) c Bc ltac:(lia)) as [Hk Ek]. set (k := lwip_standard_chksum _ _) in *.
  rewrite u32_id by lia. destruct (fold_small (acc + k)) as [H1 E1]; [lia|]. set (acc1 := FOLD_U32T _) in *.
  pose proof (ws_nonneg _ Bp). pose proof (ws_nonneg _ Bc). assert (Bpc : bytes_ok (pre ++ c)) by by apply Forall_app.
  pose proof (ws_nonneg _ Bpc) as Hpc.
  assert (E2 : ceq acc1 (if sw then 256 * (s0 + ws (pre ++ c)) else s0 + ws (pre ++ c))).
  { rewrite E1. transitivity ((if sw then 256 * (s0 + ws pre) else s0 + ws pre) + ws c).
    { apply ceq_add; [lia|destruct sw; lia|lia|lia|done|done]. }
    assert (Ea : ceq (s0 + ws (pre ++ c)) (s0 + (ws pre + (if sw then 256 * ws c else ws c)))).
    { apply ceq_add; [lia|lia|lia|destruct sw; lia|reflexivity|]. rewrite (ws_app pre c Bp Bc), Hsw. by destruct (Nat.even _). }
    symmetry. destruct sw; [|rewrite Ea, Z.add_assoc; reflexivity]. apply ceq_mul in Ea. rewrite Ea.
    replace (256 * (s0 + (ws pre + 256 * ws c))) with (256 * (s0 + ws pre) + 65536 * ws c) by lia. apply ceq_carry; lia. }
  assert (Hpar : Nat.even (length (pre ++ c)) = Bool.eqb (Nat.even (length pre)) (len b mod 2 =? 0)).
  { rewrite length_app, Nat.even_add, <- El. f_equal. clear. destruct (Z.eqb_spec (Z.of_nat (length c) mod 2) 0) as [Hz|Hz].
    - apply Nat.even_spec. exists (Z.to_nat (Z.of_nat (length c) / 2)). dlia.
    - rewrite <- Nat.negb_odd. apply negb_false_iff, Nat.odd_spec. exists (Z.to_nat (Z.of_nat (length c) / 2)). dlia. }
  destruct (len b mod 2 =? 0).
  - apply (IH cs (pre ++ c)); try done; [simpl in Hn; lia|]. rewrite Hpar, Hsw. by destruct (Nat.even _).
  - destruct (swap_ok acc1 H1) as [H3 E3]. apply (IH cs (pre ++ c)); try done; [simpl in Hn; lia| |].
    + rewrite Hpar, Hsw. by destruct (Nat.even _).
    + rewrite E3. apply ceq_mul in E2. rewrite E2. destruct sw; cbn [negb]; [|reflexivity]. apply ceq_shift. lia.
Qed.

Lemma unswap acc (sw : bool) s : 0 <= s -> 0 <= acc <= 65535 -> ceq acc (if sw then 256 * s else s) ->
  0 <= (if sw then SWAP_BYTES_IN_WORD acc else acc) <= 65535 /\ ceq (if sw then SWAP_BYTES_IN_WORD acc else acc) s.
Proof.
  intros Hs Ha E. destruct sw; [|done]. destruct (swap_ok acc Ha) as [H1 E1]. split; [done|]. rewrite E1.
  apply ceq_mul in E. rewrite E. by apply ceq_shift.
Qed.
End chains.

Lemma pseudo_end_ok proto len acc sw s : 0 <= s -> 0 <= acc <= 65535 -> ceq acc (if sw : bool then 256 * s else s) ->
  0 <= proto <= 255 -> 0 <= len <= 65535 -> exists X, 0 <= X <= 65535 /\ pseudo_end proto len acc sw = u16 (Z.lnot X) /\
    ceq X (s + htons proto + htons len).
Proof.
  intros Hs Ha E Hp Hl. unfold pseudo_end. destruct (unswap acc sw s Hs Ha E) as [H1 E1].
  set (acc1 := if sw then _ else acc) in *. rewrite (u16_id proto) by lia.
  destruct (htons_ok proto ltac:(lia)) as [H2 _], (htons_ok len Hl) as [H3 _].
  rewrite (u32_id (acc1 + htons proto)), (u32_id (acc1 + htons proto + htons len)) by lia.
  destruct (fold_fold (acc1 + htons proto + htons len)) as [H4 E4]; [lia|]. set (X := FOLD_U32T _) in *. exists X. split; [done|].
  split.
  - f_equal. f_equal. change 65535 with (Z.ones 16). rewrite Z.land_ones by lia. apply Z.mod_small. lia.
  - rewrite E4. apply ceq_add; [lia..| |reflexivity]. apply ceq_add; [lia..|done|reflexivity].
Qed.

Lemma addr_halves_ok acc w : 0 <= acc -> acc + 131070 < 2 ^ 32 -> addr_halves acc w = acc + ws (word_bytes w).
Proof.
  intros Ha Hl. unfold addr_halves. destruct (word_bytes_ok w) as [_ ->].
  pose proof (half_ok w). pose proof (half_ok (Z.shiftr w 16)). rewrite !u32_id by (rewrite ?u32_id; lia). lia.
Qed.

Lemma addrs_sum_ok src dest : length src = length dest -> (length src <= 4)%nat ->
  addrs_sum (zip src dest) = ws (words_bytes src) + ws (words_bytes dest).
Proof.
  intros El Hl. unfold addrs_sum.
  assert (G : forall acc, 0 <= acc -> acc + 262140 * Z.of_nat (length src) < 2 ^ 32 ->
    foldl (fun acc '(s, d) => addr_halves (addr_halves acc s) d) acc (zip src dest) =
    acc + ws (words_bytes src) + ws (words_bytes dest)); [|rewrite G by lia; lia].
  clear Hl. revert dest El. induction src as [|s src IH]; intros [|d dest] El acc Ha Hl; try done; [cbn; lia|].
  cbn [zip zip_with foldl length] in *. destruct (word_bytes_ok s) as [_ Es], (word_bytes_ok d) as [_ Ed].
  pose proof (half_ok s). pose proof (half_ok (Z.shiftr s 16)). pose proof (half_ok d). pose proof (half_ok (Z.shiftr d 16)).
  rewrite (addr_halves_ok acc s) by lia. rewrite addr_halves_ok by lia.
  fold (zip src dest). rewrite IH by (first [lia|congruence]). unfold words_bytes. cbn [map concat].
  rewrite !ws_app_even by done. lia.
Qed.

(** Addresses with the words of the union. *)
Definition ip_ok (a : ip_addr) : Prop := length (ip_words a) = 4%nat.

Lemma pseudo_header_ok proto len src dest : ip_ok src -> ip_ok dest -> 0 <= proto <= 255 -> 0 <= len <= 65535 ->
  bytes_ok (pseudo_header proto len src dest) /\ Nat.even (length (pseudo_header proto len src dest)) = true /\
  ws (pseudo_header proto len src dest) = (if ip_is_v6 dest then ws (words_bytes (ip_words src)) + ws (words_bytes (ip_words dest))
    else ws (words_bytes (take 1 (ip_words src))) + ws (words_bytes (take 1 (ip_words dest)))) + htons proto + htons len.
Proof.
  intros Hs Hd Hp Hl. destruct (be16_ok len Hl) as [B E]. assert (Ep : htons proto = 256 * proto).
  { unfold htons. rewrite ntohs_arith by lia. dlia. }
  unfold pseudo_header. destruct (ip_is_v6 dest).
  all: repeat match goal with |- context [words_bytes ?l] => lazymatch goal with H : bytes_ok (words_bytes l) /\ _ |- _ => fail | _ =>
    pose proof (words_bytes_ok l) end end.
  all: destruct_and!; split; [unfold bytes_ok; rewrite !Forall_app; split_and!; try assumption; repeat constructor; unfold byte_ok; lia|].
  all: rewrite !length_app, !Nat.even_add, !ws_app_even, E, Ep by (rewrite ?length_app, ?Nat.even_add; repeat match goal with H : Nat.even _ = true |- _ => rewrite H end; done).
  all: repeat match goal with H : Nat.even _ = true |- _ => rewrite H end; split; [done|]; cbn; unfold of_le16; lia.
Qed.

(** The checksum that a header field holds for these bytes. *)
Definition checksum_field (bs : list Z) : Z := u16 (Z.lnot (htons (rfc1071 bs))).

Section theorems.
Variable odd : pointer -> bool.
Variable fuel : nat.

(** C17: lwIP's checksum routine computes RFC 1071's sum of up to 131074 bytes, at
    even and at odd addresses.  That is the length that its 32-bit accumulator
    bears: one byte more, all of them 255, and the sum is wrong at either. *)
Theorem checksum_is_rfc1071 at_odd bs : bytes_ok bs ->
  (Z.of_nat (length bs) <= 131074 ->
   htons (lwip_standard_chksum at_odd bs) = rfc1071 bs /\ inet_chksum at_odd bs = checksum_field bs) /\
  htons (lwip_standard_chksum at_odd (repeat 255 (Z.to_nat 131075))) <>
    rfc1071 (repeat 255 (Z.to_nat 131075)).
Proof.
  intros Hb. split; [|destruct at_odd; vm_compute; discriminate]. revert Hb. intros Hb Hl. destruct (standard_chksum_ok at_odd bs Hb Hl) as [H1 E1]. pose proof (htons_rfc bs _ Hb H1 E1) as E.
  unfold inet_chksum, checksum_field. rewrite <- E. split; [|done]. rewrite E.
  destruct (rfc1071_ok bs Hb) as [H2 _]. apply (ntohs_htons (rfc1071 bs)). lia.
Qed.

Lemma ip_chksum_pseudo_ok h p cs proto len src dest : packet h p cs -> (length cs < fuel)%nat -> bytes_ok (bytes_of cs) ->
  ip_ok src -> ip_ok dest -> 0 <= proto <= 255 -> 0 <= len <= 65535 ->
  ip_chksum_pseudo odd fuel p proto len src dest h = Some (checksum_field (pseudo_header proto len src dest ++ bytes_of cs)).
Proof.
  intros Hp Hf Hb Hs Hd Hpr Hl. destruct (pseudo_header_ok proto len src dest Hs Hd Hpr Hl) as (Bh & Eh & Wh).
  set (s0 := if ip_is_v6 dest then _ else _) in Wh.
  assert (Hs0 : 0 <= s0 < 2 ^ 32).
  { pose proof (words_bytes_ok (ip_words src)). pose proof (words_bytes_ok (ip_words dest)).
    pose proof (words_bytes_ok (take 1 (ip_words src))). pose proof (words_bytes_ok (take 1 (ip_words dest))).
    unfold ip_ok in *. rewrite length_take in *. subst s0. destruct (ip_is_v6 dest); lia. }
  destruct (fold_fold s0 Hs0) as [H0 E0].
  assert (Hbase : inet_cksum_pseudo_base odd fuel p proto len (FOLD_U32T (FOLD_U32T s0)) h =
    Some (checksum_field (pseudo_header proto len src dest ++ bytes_of cs))).
  { unfold inet_cksum_pseudo_base. destruct (chain_loop_ok odd fuel s0 h cs [] p (FOLD_U32T (FOLD_U32T s0)) false)
      as ([acc sw] & -> & Ha & Ea); try done; [lia|by constructor|cbn; by rewrite Z.add_0_r|].
    cbn [mbind option_bind app] in *. pose proof (ws_nonneg _ Hb).
    destruct (pseudo_end_ok proto len acc sw (s0 + ws (bytes_of cs))) as (X & HX & -> & EX); [lia|done..|].
    unfold checksum_field. rewrite <- (htons_rfc (pseudo_header proto len src dest ++ bytes_of cs) X); [done|by apply Forall_app|done|].
    rewrite EX, ws_app_even, Wh by done.
    replace (s0 + htons proto + htons len + ws (bytes_of cs)) with (s0 + ws (bytes_of cs) + htons proto + htons len) by lia.
    reflexivity. }
  unfold ip_chksum_pseudo, ip6_chksum_pseudo, inet_chksum_pseudo. unfold ip_ok in *. subst s0. destruct (ip_is_v6 dest).
  - rewrite addrs_sum_ok by lia. exact Hbase.
  - destruct (ip_words src) as [|s ?], (ip_words dest) as [|d ?]; try done. cbn [firstn] in Hbase. rewrite !take_0 in Hbase.
    rewrite <- (addrs_sum_ok [s] [d]) in Hbase by (cbn; lia). exact Hbase.
Qed.

(** The checksum of a chain of buffers is that of its bytes, however they are
    split and wherever they lie. *)
Theorem packet_checksum h p cs proto len src dest : packet h p cs -> (length cs < fuel)%nat -> bytes_ok (bytes_of cs) ->
  ip_ok src -> ip_ok dest -> 0 <= proto <= 255 -> 0 <= len <= 65535 ->
  ip_chksum_pseudo odd fuel p proto len src dest h = Some (checksum_field (pseudo_header proto len src dest ++ bytes_of cs)) /\
  inet_chksum_pbuf odd fuel p h = Some (checksum_field (bytes_of cs)).
Proof.
  intros Hp Hf Hb Hs Hd Hpr Hl. split; [by apply ip_chksum_pseudo_ok|]. unfold inet_chksum_pbuf.
  destruct (chain_loop_ok odd fuel 0 h cs [] p 0 false) as ([acc sw] & -> & Ha & Ea); first [done|lia|by constructor|reflexivity|idtac].
  cbn [mbind option_bind app] in *. pose proof (ws_nonneg _ Hb). destruct (unswap acc sw (ws (bytes_of cs))) as [H1 E1]; [lia|done|exact Ea|].
  unfold checksum_field. rewrite <- (htons_rfc _ _ Hb H1 E1). do 2 f_equal. f_equal.
  change 65535 with (Z.ones 16). rewrite Z.land_ones by lia. apply Z.mod_small. lia.
Qed.

(** What is stored into the zeroed field makes the sum right. *)
Lemma field_verifies hd pre post : bytes_ok hd -> bytes_ok pre -> bytes_ok post -> Nat.even (length hd) = true ->
  Nat.even (length pre) = true ->
  checksum_field (hd ++ pre ++ le16 (checksum_field (hd ++ pre ++ [0; 0] ++ post)) ++ post) = 0.
Proof.
  intros Bh Bpre Bpost Eh Epre. assert (B0 : bytes_ok (hd ++ pre ++ [0; 0] ++ post)).
  { unfold bytes_ok. rewrite !Forall_app. split_and!; try done. repeat constructor; unfold byte_ok; lia. }
  destruct (rfc1071_ok _ B0) as [H1 E1], (htons_ok _ H1) as [H2 E2]. unfold checksum_field at 2. set (X := htons (rfc1071 _)) in *.
  rewrite not_arith by done. destruct (le16_ok (65535 - X) ltac:(lia)) as [Bc Ec].
  set (bs := hd ++ pre ++ le16 (65535 - X) ++ post). assert (B1 : bytes_ok bs).
  { unfold bytes_ok, bs. rewrite !Forall_app. by split_and!. }
  assert (EX : ceq X (ws hd + (ws pre + ws post))).
  { rewrite E2. apply ceq_mul in E1. rewrite E1, ceq_shift by by apply ws_nonneg. rewrite !ws_app_even by done. reflexivity. }
  assert (ceq 65535 (ws bs)) as E.
  { unfold bs. rewrite !ws_app_even, Ec by done. pose proof (ws_nonneg _ Bh). pose proof (ws_nonneg _ Bpre). pose proof (ws_nonneg _ Bpost).
    destruct EX as [(k & EX) Hz]. split; [exists k; lia|lia]. }
  unfold checksum_field. rewrite <- (htons_rfc bs 65535 B1 ltac:(lia) E). done.
Qed.

(** C18: A checksum that is computed over a packet whose field is zero and stored
    there in the machine's order makes the receiver's sum over the packet
    vanish. *)
Theorem checksum_verifies h p cs proto len src dest pre post : lens_ok (pbufs h) -> packet h p cs -> p <> 0 ->
  separate (pbufs h) cs.*1 -> (length cs < fuel)%nat -> bytes_ok (bytes_of cs) -> ip_ok src -> ip_ok dest ->
  0 <= proto <= 255 -> 0 <= len <= 65535 -> bytes_of cs = pre ++ [0; 0] ++ post -> Nat.even (length pre) = true ->
  wp (c ← ip_chksum_pseudo odd fuel p proto len src dest h;
      '(h, _) ← pbuf_take_at fuel p (le16 c) (Z.of_nat (length pre)) h;
      ip_chksum_pseudo odd fuel p proto len src dest h) (fun r => r = 0).
Proof.
  intros L Hp Hp0 S Hf Hb Hs Hd Hpr Hl E Epre. rewrite (ip_chksum_pseudo_ok h p cs) by done. cbn [mbind option_bind].
  set (c := checksum_field _). pose proof (packet_small _ _ _ L Hp) as Hsm. rewrite E, !length_app in Hsm. cbn in Hsm.
  apply wp_bind. eapply wp_mono; [apply (pbuf_take_at_ok fuel p cs); first [done|lia|cbn; lia]|]. intros [h' err].
  rewrite E, !length_app, Nat2Z.id. cbn [length le16]. rewrite decide_True by lia. intros (_ & W & cs' & Hp' & E1 & E2).
  rewrite E, inserts_app_r, Nat.sub_diag, inserts_app_l in E2 by (rewrite ?length_app; cbn; lia).
  replace (list_inserts 0 (le16 c) [0; 0]) with (le16 c) in E2 by done.
  assert (bytes_ok pre /\ bytes_ok post) as [Bpre Bpost].
  { rewrite E in Hb. unfold bytes_ok in *. rewrite !Forall_app in Hb. tauto. }
  assert (Hc : 0 <= c <= 65535) by (subst c; unfold checksum_field, u16; pose proof (Z.mod_pos_bound (Z.lnot (htons (rfc1071 (pseudo_header proto len src dest ++ bytes_of cs)))) (2 ^ 16)); lia).
  rewrite (ip_chksum_pseudo_ok h' p cs').
  - apply wp_ret. rewrite E2. subst c. rewrite E. destruct (pseudo_header_ok proto len src dest Hs Hd Hpr Hl) as (Bh & Eh & _).
    by apply field_verifies.
  - done.
  - rewrite <- (length_fmap fst cs'), E1, length_fmap. done.
  - rewrite E2. unfold bytes_ok. rewrite !Forall_app. split_and!; [done| |done]. by apply le16_ok.
  - done.
  - done.
  - done.
  - done.
Qed.
End theorems.

(** ** Runs *)

Lemma checksum_is_rfc1071_witness : lwip_standard_chksum true [1; 2; 3] = htons 1026 /\ rfc1071 [1; 2; 3] = 1026.
Proof.
  destruct (proj1 (checksum_is_rfc1071 true [1; 2; 3] ltac:(repeat constructor; lia)) ltac:(cbn; lia)) as [E _].
  split; [vm_compute; reflexivity|]. rewrite <- E. vm_compute. reflexivity.
Defined.

(** Memory whose addresses are the blocks' numbers. *)
Definition parity (x : pointer) : bool := Z.odd (x.1 + x.2).
Definition v4 (a : Z) : ip_addr := mkIp [a; 0; 0; 0] false.

(** Two buffers of three bytes each. *)
Lemma packet_checksum_witness : inet_chksum_pbuf parity 10 1 one_packet = Some (checksum_field [7; 8; 9; 4; 5; 6]).
Proof.
  exact (proj2 (packet_checksum parity 10 one_packet 1 [(1, [7; 8; 9]); (2, [4; 5; 6])] 17 6 (v4 1) (v4 2)
    one_packet_bytes ltac:(cbn; lia) ltac:(repeat constructor; lia) eq_refl eq_refl ltac:(lia) ltac:(lia))).
Defined.

(** The field lies across the two buffers. *)
Definition zeroed : Heap := default one_packet (fst <$> pbuf_take_at 10 1 [0; 0] 2 one_packet).

Lemma zeroed_bytes : packet zeroed 1 [(1, [7; 8; 0]); (2, [0; 5; 6])].
Proof. repeat first [split; [done|]|eexists; split; [by vm_compute|]]; by vm_compute. Qed.

Lemma checksum_verifies_witness : exists c h', ip_chksum_pseudo parity 10 1 17 6 (v4 1) (v4 2) zeroed = Some c /\
  pbuf_take_at 10 1 (le16 c) 2 zeroed = Some (h', ERR_OK) /\ ip_chksum_pseudo parity 10 1 17 6 (v4 1) (v4 2) h' = Some 0.
Proof.
  assert (E : pbufs zeroed = pbufs one_packet) by by vm_compute.
  destruct (checksum_verifies parity 10 zeroed 1 [(1, [7; 8; 0]); (2, [0; 5; 6])] 17 6 (v4 1) (v4 2) [7; 8] [5; 6]
    ltac:(rewrite E; exact (ho_lens _ _ one_packet_ok)) zeroed_bytes ltac:(done) ltac:(rewrite E; exact one_packet_separate)
    ltac:(cbn; lia) ltac:(repeat constructor; lia) eq_refl eq_refl ltac:(lia) ltac:(lia) eq_refl eq_refl) as (r & Er & ->).
  eexists _, _. split; [vm_compute; reflexivity|]. split; [vm_compute; reflexivity|]. vm_compute in Er |- *. exact Er.
Defined.
