(* ===== verification/SessionTCPSpec.v ===== *)
(** * The TCP session as two byte streams: lemmas *)
From S2P Require Import Prelude CInt RingBuffer SessionTCP.

(** ** Places of the ring buffer *)

Definition ring_places (m s : Z) (n : nat) : list nat :=
  map (fun i => Z.to_nat ((s + Z.of_nat i) mod m)) (seq 0 n).

Definition bytes_at (d : list Z) (l : list nat) : list Z := map (fun a => d !!! a) l.

Lemma bytes_at_places d m s n : bytes_at d (ring_places m s n) = ring d m s n.
Proof. unfold bytes_at, ring_places, ring. by rewrite map_map. Qed.

Lemma length_places m s n : length (ring_places m s n) = n.
Proof. unfold ring_places. by rewrite length_map, length_seq. Qed.

Lemma places_app m s n k :
  ring_places m s (n + k) = ring_places m s n ++ ring_places m (s + Z.of_nat n) k.
Proof.
  unfold ring_places. rewrite seq_app, map_app. f_equal. simpl.
  apply list_eq. intros i. rewrite !list_lookup_fmap.
  destruct (decide (i < k)%nat).
  - rewrite !lookup_seq_lt by done. simpl. do 3 f_equal. lia.
  - rewrite !lookup_seq_ge by lia. done.
Qed.

Lemma places_mod m s s' n : s mod m = s' mod m -> ring_places m s n = ring_places m s' n.
Proof.
  intros H. unfold ring_places. apply map_ext. intros i. f_equal.
  destruct (decide (m = 0)) as [->|]; [by rewrite !Z.mod_0_r in *; lia|].
  rewrite <- (Z.add_mod_idemp_l s), <- (Z.add_mod_idemp_l s') by done. by rewrite H.
Qed.

Lemma places_drop m s n k : (k <= n)%nat ->
  drop k (ring_places m s n) = ring_places m (s + Z.of_nat k) (n - k).
Proof.
  intros H. replace n with (k + (n - k))%nat at 1 by lia. rewrite places_app.
  by rewrite drop_app_length' by (by rewrite length_places).
Qed.

(** Without wrapping the places of an arc are consecutive. *)
Lemma places_seq m s n : 0 <= s -> s + Z.of_nat n <= m ->
  ring_places m s n = seq (Z.to_nat s) n.
Proof.
  intros Hs Hn. unfold ring_places. apply list_eq. intros i. rewrite list_lookup_fmap.
  destruct (decide (i < n)%nat).
  - rewrite !lookup_seq_lt by done. simpl. f_equal. rewrite Z.mod_small by lia. lia.
  - rewrite !lookup_seq_ge by lia. done.
Qed.

Lemma arc_places m s n : 0 <= s < m -> 0 <= n <= m -> m < 2 ^ 16 ->
  concat (map iov_addrs (arc m s n)) = ring_places m s (Z.to_nat n).
Proof.
  intros Hs Hn Hm. unfold arc, iov_addrs. destruct (Z.eqb_spec n 0) as [->|]; [done|].
  destruct (Z.leb_spec n (m - s)); simpl; rewrite app_nil_r, !u16_id by lia.
  - by rewrite places_seq by lia.
  - replace (Z.to_nat n) with (Z.to_nat (m - s) + Z.to_nat (n - (m - s)))%nat by lia.
    rewrite places_app. f_equal; [by rewrite places_seq by lia|].
    rewrite (places_mod m _ 0).
    + by rewrite places_seq by lia.
    + rewrite Z2Nat.id by lia. replace (s + (m - s)) with (0 + 1 * m) by lia.
      by rewrite Z.mod_add by lia.
Qed.

(** The bytes in flight are found at their places. *)
Definition flight_places (r : HevRingBuffer) (infl : list Z) : list nat :=
  ring_places (max_size r) (rp r - Z.of_nat (length infl)) (length infl).

Lemma flight_bytes r infl pend : ring_rep r infl pend ->
  bytes_at (data r) (flight_places r infl) = infl.
Proof.
  intros H. pose proof (rr_bytes _ _ _ H) as Hb. rewrite ring_app in Hb.
  apply (f_equal (take (length infl))) in Hb.
  rewrite take_app_length in Hb.
  rewrite take_app_length' in Hb by (by rewrite length_ring).
  unfold flight_places. by rewrite bytes_at_places.
Qed.

(** ** Environments that keep the contracts of lwIP and of the sockets *)

(** lwIP calls back only on a live connection, passes a chain of at least one
    pbuf, nothing after the end of the stream, never more than a window (less
    than 2^16 bytes) beyond what [tcp_recved] gave back, and acknowledges only
    bytes that [tcp_write] took. *)
Definition event_ok (st : St) (e : tcp_event) : Prop :=
  pcb st.1 = true /\
  match e with
  | TcpRecv (Some p) => p <> [] /\ pcb_eof st.1 = false /\
      Z.of_nat (length (tcp_rx st.2) + length (concat p)) <= recved st.2 + 65535
  | TcpRecv None => True
  | TcpSent len => 0 <= len <= Z.of_nat (length (tcp_tx st.2))
  | TcpErr => True
  end.

Fixpoint events_ok (st : St) (evs : list tcp_event) : Prop :=
  match evs with
  | [] => True
  | e :: evs => event_ok st e /\ events_ok (tcp_handle st e) evs
  end.

(** [writev] sends no more than it is offered; [readv] stores what it reports,
    within the areas. *)
Definition writev_ok (st : St) (io : io_result) : Prop :=
  io_ret io <= Z.of_nat (length (concat (take 64 (queue st.1)))).

Definition readv_ok (st : St) (io : io_result) : Prop :=
  0 < io_ret io -> io_ret io = Z.of_nat (length (io_bytes io)) /\
    io_ret io <= iov_size (hev_ring_buffer_writing (buffer st.1)).

(** A first [tcp_write] is refused and the second one, of less, is not. *)
Definition holed (errs : list Z) : Prop :=
  nth 0 errs ERR_OK <> ERR_OK /\ nth 1 errs ERR_OK = ERR_OK.

Record turn_ok (t : turn) : Prop := {
  to_writev : forall st, writev_ok st (t_writev t st);
  to_readv : forall st, readv_ok st (t_readv t st);
  to_lock_f : forall st, events_ok st (t_lock_f t st);
  to_lock_b : forall st, events_ok st (t_lock_b t st);
  to_yield : forall st, events_ok st (t_yield t st);
}.

(** ** The forward stream *)

(** [k]: bytes at the head of the queue that the proxy already has. *)
Record fwd_inv (k : nat) (st : St) : Prop := {
  fi_k : (k <= length (concat (queue st.1)))%nat;
  fi_stream : sock_tx st.2 ++ drop k (concat (queue st.1)) = tcp_rx st.2;
  fi_recved : recved st.2 + Z.of_nat k <= Z.of_nat (length (sock_tx st.2));
  fi_credit : pcb st.1 = true -> recved st.2 + Z.of_nat k = Z.of_nat (length (sock_tx st.2));
  fi_window : Z.of_nat (length (concat (queue st.1))) <= 65535;
  fi_shut : sock_shut st.2 = true -> queue st.1 = [] /\ pcb_eof st.1 = true;
}.

Lemma recv_fwd k st p : fwd_inv k st -> event_ok st (TcpRecv p) ->
  fwd_inv k (tcp_recv_handler p st).1.
Proof.
  destruct st as [self net]. intros [Hk Hs Hr Hcr Hw Hsh] [_ He]. simpl in *.
  assert (length (sock_tx net) + (length (concat (queue self)) - k) = length (tcp_rx net))%nat
    as Hlen by (rewrite <- Hs, length_app, length_drop; lia).
  destruct p as [p|]; simpl.
  - destruct He as (Hp & Heof & Hwin).
    assert (sock_shut net = true -> False) as Hns by (intros [_ E]%Hsh; congruence).
    case_bool_decide as Hq.
    + rewrite Hq in *. simpl in *. assert (k = 0)%nat as -> by lia.
      constructor; simpl; try lia; [|done|by intros ?%Hns].
      rewrite drop_0 in *. rewrite <- Hs, app_nil_r. done.
    + destruct (Z.ltb _ _); simpl; [by constructor|].
      constructor; simpl; unfold pbuf_cat; rewrite ?concat_app, ?length_app; try lia;
        [|done|by intros ?%Hns].
      rewrite drop_app_le by done. by rewrite app_assoc, Hs.
  - constructor; simpl; try done. intros H. by destruct (Hsh H).
Qed.

Lemma handle_fwd k st e : fwd_inv k st -> event_ok st e -> fwd_inv k (tcp_handle st e).
Proof.
  intros H He. destruct e as [p|len|]; simpl.
  - by apply recv_fwd.
  - destruct st as [self net], H. by constructor.
  - destruct st as [self net], H. by constructor.
Qed.

Lemma handles_fwd k evs st : fwd_inv k st -> events_ok st (evs st) ->
  fwd_inv k (tcp_handles evs st).
Proof.
  unfold tcp_handles. generalize (evs st). intros l. revert st.
  induction l as [|e l IH]; simpl; [done|]. intros st H [He Hl].
  apply IH; [|done]. by apply handle_fwd.
Qed.

(** Dropping from the head of a chain. *)
Lemma pbuf_free_left_drop q n : 0 <= n < 65536 ->
  concat (pbuf_free_left q n) = drop (Z.to_nat n) (concat q).
Proof.
  revert n. induction q as [|p q IH]; intros n Hn; simpl; [by rewrite drop_nil|].
  destruct (Z.eqb_spec n 0) as [->|]; [done|].
  destruct (Z.leb_spec (Z.of_nat (length p)) n).
  - rewrite u16_id by lia. rewrite IH by lia. rewrite drop_app_ge by lia. f_equal. lia.
  - simpl. rewrite drop_app_le by lia. done.
Qed.

Lemma concat_take_drop (q : list (list Z)) n k : (k <= length (concat (take n q)))%nat ->
  take k (concat (take n q)) = take k (concat q).
Proof.
  intros H. rewrite <- (take_drop n q) at 2. rewrite concat_app.
  by rewrite take_app_le.
Qed.

Lemma concat_take_length (q : list (list Z)) n :
  (length (concat (take n q)) <= length (concat q))%nat.
Proof. rewrite <- (take_drop n q) at 2. rewrite concat_app, length_app. lia. Qed.

Lemma splice_f_fwd w evs st :
  fwd_inv 0 st -> writev_ok st (w st) -> (forall st, events_ok st (evs st)) ->
  fwd_inv 0 (tcp_splice_f w evs st).1.
Proof.
  destruct st as [self net]. intros H Hw He. unfold tcp_splice_f.
  pose proof H as [Hk Hs Hr Hcr Hwin Hsh]. simpl in *.
  destruct (decide (queue self = [])) as [Hq|Hq].
  - rewrite Hq. simpl. destruct (pcb_eof self) eqn:Heof; simpl; [|done].
    rewrite Hq in *. by constructor; simpl; rewrite ?Hq.
  - rewrite !bool_decide_eq_false_2 by (by destruct (queue self)).
    destruct (Z.leb_spec (io_ret (w (self, net))) 0); simpl; [done|].
    set (s := io_ret (w (self, net))) in *. unfold writev_ok in Hw. fold s in Hw. simpl in Hw.
    set (net1 := net_send _ net).
    pose proof (concat_take_length (queue self) 64).
    assert (fwd_inv (Z.to_nat s) (self, net1)) as Hsent.
    { constructor; simpl; try done; rewrite ?length_app, ?length_take; try lia;
        [|intros ?%Hcr; lia].
      rewrite drop_0 in Hs. rewrite concat_take_drop by lia.
      by rewrite <- app_assoc, take_drop. }
    pose proof (handles_fwd _ evs _ Hsent (He _)) as [Hk2 Hs2 Hr2 Hcr2 Hw2 Hsh2].
    destruct (tcp_handles evs (self, net1)) as [self2 net2]. simpl in *.
    assert (concat (pbuf_free_header (queue self2) s) = drop (Z.to_nat s) (concat (queue self2)))
      as Hfree.
    { unfold pbuf_free_header. rewrite u16_id by lia. apply pbuf_free_left_drop. lia. }
    assert (pbuf_free_header [] s = []) as Hnil by done.
    destruct (pcb self2) eqn:Hp2; constructor; simpl; rewrite ?Hp2; rewrite ?Hfree, ?drop_0, ?length_drop; try done;
      try lia.
    + rewrite u16_id by lia. lia.
    + intros _. specialize (Hcr2 eq_refl). rewrite u16_id by lia. lia.
    + intros [-> ?]%Hsh2. by rewrite Hnil.
    + intros [-> ?]%Hsh2. by rewrite Hnil.
Qed.

(** ** The backward stream *)

(** [infl] and [pend]: the contents of the ring buffer.  [lossless]: every
    byte handed out was taken by lwIP. *)
Record back_rep (lossless : bool) (infl pend : list Z) (st : St) : Prop := {
  br_ring : ring_rep (buffer st.1) infl pend;
  br_max : max_size (buffer st.1) < 2 ^ 16;
  br_tx : tcp_tx st.2 = take (length (tcp_tx st.2)) (flight_places (buffer st.1) infl);
  br_len : (length (tcp_tx st.2) <= length infl)%nat;
  br_all : lossless = true -> length (tcp_tx st.2) = length infl;
  br_stream : sock_rx st.2 = tcp_acked st.2 ++ infl ++ pend;
  br_fin : tcp_fin st.2 = true -> pend = [] /\ lossless = true;
}.

(** A run of bytes, [gap], was refused while the one after it, [suf], was taken:
    the application is sent [suf] right after [pre]. *)
Record gap_rep (infl pre gap suf : list Z) (st : St) : Prop := {
  gr_ring : ring_rep (buffer st.1) infl [];
  gr_len : length infl = (length (tcp_tx st.2) + length gap)%nat;
  gr_gap : gap <> [];
  gr_rx : sock_rx st.2 = pre ++ gap ++ suf;
  gr_tx : tcp_acked st.2 ++ bytes_at (data (buffer st.1)) (tcp_tx st.2) = pre ++ suf;
  gr_fin : tcp_fin st.2 = false;
}.

(** What the backward stream does not look at. *)
Definition same_back (s1 s2 : St) : Prop :=
  buffer s1.1 = buffer s2.1 /\ sock_rx s1.2 = sock_rx s2.2 /\ tcp_tx s1.2 = tcp_tx s2.2 /\
  tcp_acked s1.2 = tcp_acked s2.2 /\ tcp_fin s1.2 = tcp_fin s2.2.

Lemma back_frame l infl pend s1 s2 :
  same_back s1 s2 -> back_rep l infl pend s1 -> back_rep l infl pend s2.
Proof.
  intros (Hb & Hr & Ht & Ha & Hf) [H1 H2 H3 H4 H5 H6 H7].
  constructor; rewrite <- ?Hb, <- ?Hr, <- ?Ht, <- ?Ha, <- ?Hf; done.
Qed.

Lemma gap_frame infl pre gap suf s1 s2 :
  same_back s1 s2 -> gap_rep infl pre gap suf s1 -> gap_rep infl pre gap suf s2.
Proof.
  intros (Hb & Hr & Ht & Ha & Hf) [H1 H2 H3 H4 H5 H6].
  constructor; rewrite <- ?Hb, <- ?Hr, <- ?Ht, <- ?Ha, <- ?Hf; done.
Qed.

(** The places of what stays in flight after [k] bytes are released. *)
Lemma flight_release r infl pend k : ring_rep r infl pend -> (k <= length infl)%nat ->
  flight_places (hev_ring_buffer_read_release r (Z.of_nat k)) (drop k infl) =
  drop k (flight_places r infl).
Proof.
  intros H Hk. unfold flight_places. rewrite places_drop by done. rewrite length_drop.
  unfold hev_ring_buffer_read_release.
  destruct (Z.eqb_spec (u64 (use_size r - Z.of_nat k)) 0) as [E|E]; simpl.
  - pose proof (rr_use _ _ _ H). pose proof (rr_cap _ _ _ H). pose proof (rr_max _ _ _ H).
    rewrite u64_id in E by lia. replace (length infl - k)%nat with 0%nat by lia. done.
  - f_equal. lia.
Qed.

Lemma sent_back l infl pend st len :
  back_rep l infl pend st -> event_ok st (TcpSent len) ->
  back_rep l (drop (Z.to_nat len) infl) pend (tcp_sent_handler len st) /\
  tcp_acked (tcp_sent_handler len st).2 = tcp_acked st.2 ++ take (Z.to_nat len) infl.
Proof.
  destruct st as [self net]. intros [H1 H2 H3 H4 H5 H6 H7] [_ He]. simpl in *.
  pose proof (flight_bytes _ _ _ H1) as Hb.
  assert (map (fun a => data (buffer self) !!! a) (take (Z.to_nat len) (tcp_tx net)) =
    take (Z.to_nat len) infl) as Hack.
  { rewrite H3, take_take, Nat.min_l by lia. fold (bytes_at (data (buffer self))).
    rewrite <- Hb at 2. unfold bytes_at. by rewrite firstn_map. }
  rewrite Hack. split; [|done]. constructor; simpl.
  - apply ring_release; [done|lia].
  - unfold hev_ring_buffer_read_release. by destruct (Z.eqb _ _).
  - replace len with (Z.of_nat (Z.to_nat len)) at 3 by lia.
    rewrite (flight_release _ _ _ _ H1) by lia. rewrite length_drop.
    rewrite take_drop_commute.
    replace (Z.to_nat len + (length (tcp_tx net) - Z.to_nat len))%nat
      with (length (tcp_tx net)) by lia. by rewrite <- H3.
  - rewrite !length_drop. lia.
  - intros ?%H5. rewrite !length_drop. lia.
  - rewrite Hack, H6, <- app_assoc. f_equal. rewrite app_assoc. by rewrite take_drop.
  - done.
Qed.

Lemma recv_same p st : same_back st (tcp_recv_handler p st).1.
Proof.
  destruct st as [self net], p as [p|]; simpl; [|done].
  case_bool_decide; [done|]. by destruct (Z.ltb _ _).
Qed.

Lemma handle_back l infl pend st e : back_rep l infl pend st -> event_ok st e ->
  exists infl', back_rep l infl' pend (tcp_handle st e).
Proof.
  intros H He. destruct e as [p|len|]; simpl.
  - exists infl. revert H. apply back_frame, recv_same.
  - eexists. by apply sent_back.
  - exists infl. revert H. apply back_frame. by destruct st.
Qed.

Lemma handles_back l infl pend evs st : back_rep l infl pend st -> events_ok st (evs st) ->
  exists infl', back_rep l infl' pend (tcp_handles evs st).
Proof.
  unfold tcp_handles. generalize (evs st). intros es. revert infl st.
  induction es as [|e es IH]; simpl; [by eauto|]. intros infl st H [He Hes].
  destruct (handle_back _ _ _ _ _ H He) as [infl' H']. by apply (IH infl').
Qed.

Lemma handles_gap infl pre gap suf evs st : gap_rep infl pre gap suf st -> events_ok st (evs st) ->
  exists infl', gap_rep infl' pre gap suf (tcp_handles evs st).
Proof.
  unfold tcp_handles. generalize (evs st). intros es. revert infl st.
  induction es as [|e es IH]; simpl; [by eauto|]. intros infl st H [He Hes].
  assert (exists infl', gap_rep infl' pre gap suf (tcp_handle st e)) as [infl' H'];
    [|by apply (IH infl')].
  destruct e as [p|len|]; simpl.
  - exists infl. revert H. apply gap_frame, recv_same.
  - destruct st as [self net]. destruct H as [H1 H2 H3 H4 H5 H6], He as [_ He]. simpl in *.
    exists (drop (Z.to_nat len) infl). constructor; simpl; try done.
    + apply ring_release; [done|lia].
    + rewrite !length_drop. lia.
    + rewrite <- H5, <- app_assoc. f_equal. unfold bytes_at.
      replace (data (hev_ring_buffer_read_release (buffer self) len)) with (data (buffer self))
        by (unfold hev_ring_buffer_read_release; by destruct (Z.eqb _ _)).
      by rewrite <- map_app, take_drop.
  - exists infl. revert H. apply gap_frame. by destruct st.
Qed.

(** Callbacks never touch the end of the stream towards the application. *)
Lemma handles_fin evs st : tcp_fin (tcp_handles evs st).2 = tcp_fin st.2.
Proof.
  unfold tcp_handles. generalize (evs st). intros es. revert st.
  induction es as [|e es IH]; intros [self net]; simpl; [done|]. rewrite IH.
  destruct e as [[p|]|len|]; simpl; try done.
  case_bool_decide; [done|]. by destruct (Z.ltb _ _).
Qed.

Lemma splice_f_gap infl pre gap suf w evs st :
  gap_rep infl pre gap suf st -> (forall st, events_ok st (evs st)) ->
  exists infl', gap_rep infl' pre gap suf (tcp_splice_f w evs st).1.
Proof.
  destruct st as [self net]. intros H He. unfold tcp_splice_f.
  case_bool_decide; [destruct (Z.ltb _ 0); simpl; exists infl; revert H; by apply gap_frame|].
  destruct (Z.leb _ 0); simpl; [eauto|]. set (net1 := net_send _ net).
  assert (gap_rep infl pre gap suf (self, net1)) as Hsent by (revert H; by apply gap_frame).
  pose proof (handles_gap _ _ _ _ evs _ Hsent (He _)) as [infl2 H2].
  destruct (tcp_handles evs (self, net1)) as [self2 net2]. simpl in *.
  destruct (pcb self2); exists infl2; revert H2; by apply gap_frame.
Qed.

Lemma splice_f_back l infl pend w evs st :
  back_rep l infl pend st -> (forall st, events_ok st (evs st)) ->
  (exists infl', back_rep l infl' pend (tcp_splice_f w evs st).1) /\
  tcp_fin (tcp_splice_f w evs st).1.2 = tcp_fin st.2.
Proof.
  destruct st as [self net]. intros H He. unfold tcp_splice_f.
  case_bool_decide.
  { destruct (Z.ltb _ 0); simpl; (split; [|done]); exists infl; revert H; by apply back_frame. }
  destruct (Z.leb _ 0); simpl; [eauto|].
  set (net1 := net_send _ net).
  assert (back_rep l infl pend (self, net1)) as Hsent by (revert H; by apply back_frame).
  pose proof (handles_back _ _ _ evs _ Hsent (He _)) as [infl2 H2].
  pose proof (handles_fin evs (self, net1)) as Hf.
  destruct (tcp_handles evs (self, net1)) as [self2 net2]. simpl in *.
  destruct (pcb self2); (split; [|done]); exists infl2; revert H2; by apply back_frame.
Qed.

(** *** Handing bytes to lwIP *)

Lemma tcp_writes_ok iov errs net err s :
  (length iov <= 2)%nat -> (length iov = 2%nat -> ~ holed errs) ->
  exists k, tcp_writes iov errs net err s =
    (net_write (concat (map iov_addrs (take k iov))) net, (tcp_writes iov errs net err s).1.2,
     s + iov_size iov) /\
    ((tcp_writes iov errs net err s).1.2 = ERR_OK -> (length iov <= k)%nat /\ err = ERR_OK).
Proof.
  intros Hl He. unfold holed, ERR_OK in He.
  assert (forall n : Net, n = net_write [] n) as Hnil.
  { intros []. unfold net_write. simpl. by rewrite app_nil_r. }
  destruct iov as [|v [|v' [|]]]; simpl in *; [| | |lia].
  - exists 0%nat. simpl. rewrite <- Hnil, Z.add_0_r. split; [done|].
    by intros [? _]%Z.lor_eq_0_iff.
  - destruct (Z.eqb_spec (hd ERR_OK errs) ERR_OK).
    + exists 1%nat. simpl. rewrite app_nil_r, Z.add_0_r. split; [done|].
      by intros [[? _]%Z.lor_eq_0_iff _]%Z.lor_eq_0_iff.
    + exists 0%nat. simpl. rewrite <- Hnil, Z.add_0_r. split; [done|].
      by intros [[_ ?]%Z.lor_eq_0_iff _]%Z.lor_eq_0_iff.
  - destruct (Z.eqb_spec (hd ERR_OK errs) ERR_OK) as [E1|E1];
    destruct (Z.eqb_spec (hd ERR_OK (tail errs)) ERR_OK) as [E2|E2].
    + exists 2%nat. simpl. rewrite app_nil_r. unfold net_write. simpl.
      rewrite <- app_assoc. split; [f_equal; lia|].
      by intros [[[? _]%Z.lor_eq_0_iff _]%Z.lor_eq_0_iff _]%Z.lor_eq_0_iff.
    + exists 1%nat. simpl. rewrite app_nil_r. split; [f_equal; lia|].
      by intros [[_ ?]%Z.lor_eq_0_iff _]%Z.lor_eq_0_iff.
    + exfalso. apply He; [done|]. unfold ERR_OK in *. by destruct errs as [|? [|]].
    + exists 0%nat. simpl. rewrite <- Hnil. split; [f_equal; lia|].
      by intros [[[_ ?]%Z.lor_eq_0_iff _]%Z.lor_eq_0_iff _]%Z.lor_eq_0_iff.
Qed.

#[export] Instance holed_dec errs : Decision (holed errs).
Proof. unfold holed. apply _. Defined.

Lemma tcp_writes_holed v v' errs net : holed errs -> exists err, err <> ERR_OK /\
  tcp_writes [v; v'] errs net ERR_OK 0 = (net_write (iov_addrs v') net, err, iov_len v + iov_len v').
Proof.
  intros [H0 H1]. eexists. split; cycle 1.
  - simpl. rewrite (proj2 (Z.eqb_neq (hd ERR_OK errs) ERR_OK)) by (by destruct errs).
    rewrite (proj2 (Z.eqb_eq (hd ERR_OK (tail errs)) ERR_OK)) by (by destruct errs as [|? [|]]).
    reflexivity.
  - unfold ERR_OK in *. intros [[[_ E]%Z.lor_eq_0_iff _]%Z.lor_eq_0_iff _]%Z.lor_eq_0_iff.
    by destruct errs.
Qed.

Lemma arc_prefix_places m s n k : 0 <= s < m -> 0 <= n <= m -> m < 2 ^ 16 ->
  concat (map iov_addrs (take k (arc m s n))) `prefix_of` ring_places m s (Z.to_nat n).
Proof.
  intros. rewrite <- arc_places by done. rewrite <- (take_drop k (arc m s n)) at 2.
  rewrite map_app, concat_app. by eexists.
Qed.

Lemma flight_finish r infl pend : ring_rep r infl pend ->
  flight_places (hev_ring_buffer_read_finish r (Z.of_nat (length pend))) (infl ++ pend) =
  flight_places r infl ++ ring_places (max_size r) (rp r) (length pend).
Proof.
  intros H. pose proof (rr_max _ _ _ H). pose proof (rr_rp _ _ _ H).
  pose proof (rr_use _ _ _ H). pose proof (rr_cap _ _ _ H).
  unfold flight_places. simpl. rewrite length_app, u64_id by lia.
  rewrite <- (places_mod _ (rp r - Z.of_nat (length infl))), places_app.
  - do 2 f_equal. lia.
  - rewrite Zminus_mod_idemp_l. f_equal. lia.
Qed.

Lemma write_back infl pend self net k :
  back_rep true infl pend (self, net) -> tcp_fin net = false ->
  let iov := hev_ring_buffer_reading (buffer self) in
  back_rep (bool_decide (length iov <= k)%nat) (infl ++ pend) []
    (set_buffer (hev_ring_buffer_read_finish (buffer self) (Z.of_nat (length pend))) self,
     net_write (concat (map iov_addrs (take k iov))) net).
Proof.
  intros [H1 H2 H3 H4 H5 H6 H7] Hnf iov. specialize (H5 eq_refl). simpl in *.
  pose proof (rr_max _ _ _ H1). pose proof (rr_rp _ _ _ H1). pose proof (rr_rda _ _ _ H1).
  pose proof (rr_use _ _ _ H1). pose proof (rr_cap _ _ _ H1).
  pose proof (arc_prefix_places (max_size (buffer self)) (rp (buffer self))
    (rda_size (buffer self)) k) as Hp.
  rewrite <- (reading_arc _ _ _ H1) in Hp. fold iov in Hp.
  destruct Hp as [rest Hrest]; [lia..|].
  replace (Z.to_nat (rda_size (buffer self))) with (length pend) in Hrest by lia.
  assert (take (length (tcp_tx net)) (flight_places (buffer self) infl) =
    flight_places (buffer self) infl) as Hfull.
  { apply take_ge. unfold flight_places. rewrite length_places. lia. }
  pose proof (f_equal length Hrest) as Hl. rewrite length_app, length_places in Hl.
  constructor; simpl.
  - pose proof (ring_read_finish _ _ _ (Z.of_nat (length pend)) H1) as Hf.
    rewrite Nat2Z.id, take_ge, drop_ge in Hf by lia. apply Hf. lia.
  - done.
  - rewrite flight_finish by done. rewrite Hrest, app_assoc, take_app_length'; [|].
    + by rewrite H3 at 1; rewrite Hfull.
    + rewrite !length_app. f_equal. unfold flight_places. by rewrite length_places.
  - rewrite !length_app. lia.
  - intros Hk%bool_decide_eq_true_1. rewrite !length_app. f_equal; [done|].
    rewrite take_ge by done. unfold iov. rewrite (reading_arc _ _ _ H1), arc_places by lia.
    rewrite length_places. lia.
  - by rewrite H6, app_nil_r.
  - congruence.
Qed.

(** The first run of a buffer that has wrapped around is left out. *)
Lemma write_gap infl pend self net v v' :
  back_rep true infl pend (self, net) -> tcp_fin net = false ->
  hev_ring_buffer_reading (buffer self) = [v; v'] ->
  exists gap suf, gap_rep (infl ++ pend) (tcp_acked net ++ infl) gap suf
    (set_buffer (hev_ring_buffer_read_finish (buffer self) (Z.of_nat (length pend))) self,
     net_write (iov_addrs v') net).
Proof.
  intros [H1 H2 H3 H4 H5 H6 H7] Hnf Hiov. specialize (H5 eq_refl). simpl in *.
  pose proof (rr_max _ _ _ H1). pose proof (rr_rp _ _ _ H1). pose proof (rr_rda _ _ _ H1).
  pose proof (rr_use _ _ _ H1). pose proof (rr_cap _ _ _ H1).
  pose proof (arc_places (max_size (buffer self)) (rp (buffer self)) (rda_size (buffer self))) as Hp.
  rewrite <- (reading_arc _ _ _ H1), Hiov in Hp. simpl in Hp. rewrite app_nil_r in Hp.
  specialize (Hp ltac:(lia) ltac:(lia) ltac:(lia)).
  replace (Z.to_nat (rda_size (buffer self))) with (length pend) in Hp by lia.
  set (bytes := bytes_at (data (buffer self))).
  assert (bytes (iov_addrs v) ++ bytes (iov_addrs v') = pend) as Hpend.
  { unfold bytes, bytes_at. rewrite <- map_app, Hp.
    pose proof (rr_bytes _ _ _ H1) as Hb. rewrite ring_app in Hb.
    apply (f_equal (drop (length infl))) in Hb.
    rewrite drop_app_length, drop_app_length' in Hb by (by rewrite length_ring).
    rewrite Hb at 2. rewrite <- bytes_at_places. unfold bytes_at. f_equal. f_equal. lia. }
  exists (bytes (iov_addrs v)), (bytes (iov_addrs v')). constructor; simpl.
  - pose proof (ring_read_finish _ _ _ (Z.of_nat (length pend)) H1) as Hf.
    rewrite Nat2Z.id, take_ge, drop_ge in Hf by lia. apply Hf. lia.
  - rewrite <- Hpend, !length_app. unfold bytes, bytes_at. rewrite !length_map. lia.
  - rewrite (reading_arc _ _ _ H1) in Hiov. unfold arc in Hiov.
    destruct (Z.eqb _ 0); [done|]. destruct (Z.leb _ _); [done|]. injection Hiov as <- _.
    unfold bytes, bytes_at, iov_addrs. simpl. rewrite u16_id by lia.
    destruct (Z.to_nat (max_size (buffer self) - rp (buffer self))) eqn:E; [lia|done].
  - by rewrite H6, Hpend, app_assoc.
  - unfold bytes_at. rewrite map_app, <- app_assoc. f_equal. f_equal.
    fold (bytes_at (data (buffer self)) (tcp_tx net)). rewrite H3, H5, take_ge.
    + by rewrite (flight_bytes _ _ _ H1).
    + unfold flight_places. by rewrite length_places.
  - done.
Qed.

Lemma read_back infl pend readv st :
  back_rep true infl pend st -> tcp_fin st.2 = false -> readv_ok st (readv st) ->
  exists pend', back_rep true infl pend' (splice_b_read readv st).1 /\
    tcp_fin (splice_b_read readv st).1.2 = false.
Proof.
  destruct st as [self net]. intros H Hf Hr. unfold splice_b_read.
  case_bool_decide as Hi; simpl; [by eauto|].
  destruct (Z.leb_spec (io_ret (readv (self, net))) 0) as [|Hs]; simpl; [by eauto|].
  destruct (Hr Hs) as [Hret Hle]. simpl in Hle.
  set (bs := io_bytes (readv (self, net))) in *. rewrite Hret in *.
  destruct H as [H1 H2 H3 H4 H5 H6 H7]. simpl in *.
  exists (pend ++ bs). split; [|done]. constructor; simpl; try done.
  - by apply ring_write.
  - by rewrite H6, <- !app_assoc.
  - congruence.
Qed.

(** What the backward direction leaves: nothing is lost, or there is the gap. *)
Definition back_step (Bad : Prop) (st : St) (res : Z) : Prop :=
  (exists l infl pend, back_rep l infl pend st /\ (0 <= res -> l = true /\ tcp_fin st.2 = false)) \/
  (Bad /\ res < 0 /\ exists infl pre gap suf, gap_rep infl pre gap suf st).

Lemma write_step_back (Bad : Prop) infl pend errs res st :
  back_rep true infl pend st -> tcp_fin st.2 = false -> (forall st, holed (errs st) -> Bad) ->
  back_step Bad (splice_b_write errs res st).1 (splice_b_write errs res st).2.
Proof.
  destruct st as [self net]. intros H Hf He. unfold splice_b_write. simpl in Hf.
  destruct (pcb self) eqn:Hpcb; simpl.
  2: { left. exists true, infl, pend. rewrite Hpcb. split; [done|]. simpl. lia. }
  pose proof H as [H1 _ _ _ _ _ _].
  destruct (ring_reading _ _ _ H1) as [_ Hsz]. simpl in *.
  case_bool_decide as Hi; simpl.
  { left. rewrite Hi in Hsz. simpl in Hsz. assert (pend = []) as -> by (apply length_zero_iff_nil; lia).
    rewrite Hpcb. simpl. exists true, infl, []. destruct (Z.ltb_spec res 0); [|done].
    split; [|lia]. destruct H. by constructor. }
  assert (length (hev_ring_buffer_reading (buffer self)) <= 2)%nat as Hl2.
  { unfold hev_ring_buffer_reading. by repeat case_match; simpl; lia. }
  destruct (decide (length (hev_ring_buffer_reading (buffer self)) = 2%nat /\ holed (errs (self, net)))) as [[Hl Hh]|Hn].
  - right. destruct (hev_ring_buffer_reading (buffer self)) as [|v [|v' [|]]] eqn:Hiov; try done.
    destruct (tcp_writes_holed v v' _ net Hh) as (err & Herr & ->).
    destruct (Z.eqb_spec err ERR_OK); [done|]. simpl. simpl in Hsz.
    replace (iov_len v + iov_len v') with (Z.of_nat (length pend)) by lia.
    split; [by eapply He|]. split; [rewrite ?orb_true_r; lia|].
    destruct (write_gap _ _ _ _ _ _ H Hf Hiov) as (gap & suf & Hg). by eexists _, _, gap, suf.
  - left. destruct (tcp_writes_ok _ (errs (self, net)) net ERR_OK 0 Hl2) as (k & Hw & Hok);
      [intros ? ?; by apply Hn|].
    rewrite Hw. clear Hw. destruct (tcp_writes _ _ _ _ _) as [[net' err] s]. simpl in *.
    rewrite Hpcb, Hsz. simpl.
    eexists _, (infl ++ pend), []. split; [by apply write_back|].
    destruct (Z.eqb_spec err ERR_OK) as [E|]; simpl; [|lia]. intros _.
    destruct (Hok E) as [Hk _]. split; [by apply bool_decide_eq_true_2|done].
Qed.

Lemma splice_b_back (Bad : Prop) infl pend readv evs errs st :
  back_rep true infl pend st -> tcp_fin st.2 = false -> readv_ok st (readv st) ->
  (forall st, events_ok st (evs st)) -> (forall st, holed (errs st) -> Bad) ->
  back_step Bad (tcp_splice_b readv evs errs st).1 (tcp_splice_b readv evs errs st).2.
Proof.
  intros H Hf Hr He Hw. unfold tcp_splice_b.
  destruct (read_back _ _ _ _ H Hf Hr) as (pend1 & H1 & Hf1).
  destruct (splice_b_read readv st) as [st1 res]. simpl in *.
  destruct (handles_back _ _ _ evs _ H1 (He _)) as [infl2 H2].
  apply (write_step_back Bad infl2 pend1); [done| |done]. by rewrite handles_fin.
Qed.

(** What the forward stream does not look at. *)
Definition same_fwd (s1 s2 : St) : Prop :=
  pcb s1.1 = pcb s2.1 /\ queue s1.1 = queue s2.1 /\ pcb_eof s1.1 = pcb_eof s2.1 /\ sock_tx s1.2 = sock_tx s2.2 /\
  sock_shut s1.2 = sock_shut s2.2 /\ tcp_rx s1.2 = tcp_rx s2.2 /\ recved s1.2 = recved s2.2.

Lemma fwd_frame k s1 s2 : same_fwd s1 s2 -> fwd_inv k s1 -> fwd_inv k s2.
Proof.
  intros (Hp & Hq & He & Ht & Hs & Hr & Hc) [H1 H2 H3 H4 H5 H6].
  constructor; rewrite <- ?Hp, <- ?Hq, <- ?He, <- ?Ht, <- ?Hs, <- ?Hr, <- ?Hc; done.
Qed.

Lemma tcp_writes_fwd iov errs self net err s :
  same_fwd (self, net) (self, (tcp_writes iov errs net err s).1.1).
Proof.
  revert errs net err s. induction iov as [|v iov IH]; intros; simpl; [by repeat split|].
  specialize (IH (tail errs) (if Z.eqb (hd ERR_OK errs) ERR_OK
    then net_write (iov_addrs v) net else net) (Z.lor err (hd ERR_OK errs)) (s + iov_len v)).
  destruct (Z.eqb _ _); done.
Qed.

Lemma splice_b_fwd readv evs errs st :
  fwd_inv 0 st -> (forall st, events_ok st (evs st)) ->
  fwd_inv 0 (tcp_splice_b readv evs errs st).1.
Proof.
  intros H He. unfold tcp_splice_b.
  assert (fwd_inv 0 (splice_b_read readv st).1) as H1.
  { revert H. apply fwd_frame. destruct st as [self net]. unfold splice_b_read.
    case_bool_decide; [done|]. by destruct (Z.leb _ _). }
  destruct (splice_b_read readv st) as [st1 res]. simpl in *.
  pose proof (handles_fwd 0 evs _ H1 (He _)) as H2. revert H2.
  generalize (tcp_handles evs st1). intros [self net]. apply fwd_frame.
  unfold splice_b_write. destruct (pcb self); [|done].
  case_bool_decide; simpl; [by destruct (Z.ltb _ _)|].
  pose proof (tcp_writes_fwd (hev_ring_buffer_reading (buffer self)) (errs (self, net)) self net
    ERR_OK 0) as Hw.
  by destruct (tcp_writes _ _ _ _ _) as [[net' err] s].
Qed.

(** ** The whole run *)

Definition tcp_inv (Bad : Prop) (st : St) : Prop :=
  fwd_inv 0 st /\ ((exists l infl pend, back_rep l infl pend st) \/
    (Bad /\ exists infl pre gap suf, gap_rep infl pre gap suf st)).

(** While the backward direction is still open nothing was lost. *)
Definition loop_inv (Bad : Prop) (st : St) (res_b : Z) : Prop :=
  fwd_inv 0 st /\ back_step Bad st res_b.

Lemma loop_inv_tcp Bad st res_b : loop_inv Bad st res_b -> tcp_inv Bad st.
Proof.
  intros [H [(l & i & p & Hb & _)|(B & _ & Hg)]]; (split; [done|]); [left; by exists l, i, p|by right].
Qed.

Definition turn_f (t : turn) (st : St) (res_f : Z) : St * Z :=
  if Z.leb 0 res_f then tcp_splice_f (t_writev t) (t_lock_f t) st else (st, res_f).
Definition turn_b (t : turn) (st : St) (res_b : Z) : St * Z :=
  if Z.leb 0 res_b then tcp_splice_b (t_readv t) (t_lock_b t) (t_errs t) st else (st, res_b).

(** What goes wrong in some turn is [Bad]. *)
Definition turn_in (Bad : Prop) (t : turn) : Prop :=
  turn_ok t /\ forall st, holed (t_errs t st) -> Bad.

Lemma turn_f_inv Bad t st res_f res_b : turn_ok t -> loop_inv Bad st res_b ->
  loop_inv Bad (turn_f t st res_f).1 res_b.
Proof.
  intros Ht [Hf Hb]. unfold turn_f. destruct (Z.leb 0 res_f); [|done].
  split; [by apply splice_f_fwd; [|apply Ht..]|].
  destruct Hb as [(l & i & p & Hb & Hl)|(B & Hr & i & pre & gap & suf & Hg)].
  - left. destruct (splice_f_back _ _ _ (t_writev t) (t_lock_f t) _ Hb (to_lock_f _ Ht)) as [[i' Hb'] E].
    exists l, i', p. split; [done|]. by rewrite E.
  - right. split; [done|]. split; [done|].
    destruct (splice_f_gap _ _ _ _ (t_writev t) (t_lock_f t) _ Hg (to_lock_f _ Ht)) as [i' Hg'].
    by exists i', pre, gap, suf.
Qed.

Lemma turn_b_inv Bad t st res_b : turn_in Bad t -> loop_inv Bad st res_b ->
  loop_inv Bad (turn_b t st res_b).1 (turn_b t st res_b).2.
Proof.
  intros [Ht Hh] [Hf Hb]. unfold turn_b. destruct (Z.leb_spec 0 res_b); [|done].
  destruct Hb as [(l & i & p & Hb & Hl)|(_ & ? & _)]; [|lia].
  destruct (Hl H) as [-> Hfin]. split; [by apply splice_b_fwd; [|apply Ht]|].
  apply (splice_b_back Bad i p); [done|done|apply Ht..|done].
Qed.

Lemma handles_loop Bad evs st res_b : (forall st, events_ok st (evs st)) ->
  loop_inv Bad st res_b -> loop_inv Bad (tcp_handles evs st) res_b.
Proof.
  intros He [Hf Hb]. split; [by apply handles_fwd|].
  destruct Hb as [(l & i & p & Hb & Hl)|(B & Hr & i & pre & gap & suf & Hg)].
  - destruct (handles_back _ _ _ evs _ Hb (He _)) as [i' Hb'].
    left. exists l, i', p. split; [done|]. by rewrite handles_fin.
  - destruct (handles_gap _ _ _ _ evs _ Hg (He _)) as [i' Hg'].
    right. split; [done|]. split; [done|]. by exists i', pre, gap, suf.
Qed.

Lemma splice_loop_inv Bad ts st res_f res_b : Forall (turn_in Bad) ts ->
  loop_inv Bad st res_b -> tcp_inv Bad (splice_loop ts st res_f res_b).1.
Proof.
  intros Hts. revert st res_f res_b. induction Hts as [|t ts Ht _ IH]; intros st res_f res_b H.
  { by apply loop_inv_tcp in H. }
  simpl. fold (turn_f t st res_f).
  pose proof (turn_f_inv Bad t st res_f res_b (proj1 Ht) H) as H1.
  destruct (turn_f t st res_f) as [st1 res_f1]. simpl in H1. fold (turn_b t st1 res_b).
  pose proof (turn_b_inv Bad t st1 res_b Ht H1) as H2.
  destruct (turn_b t st1 res_b) as [st2 res_b2]. simpl in H2.
  destruct (_ || _)%bool; [|by apply loop_inv_tcp in H2].
  pose proof (handles_loop Bad (t_yield t) _ _ (to_yield _ (proj1 Ht)) H2) as H3.
  destruct (t_abort t); [by apply loop_inv_tcp in H3|]. by apply IH.
Qed.

Lemma drain_loop_inv Bad ws st : Forall (fun w => forall st, events_ok st (w.1 st)) ws ->
  tcp_inv Bad st -> tcp_inv Bad (drain_loop ws st).1.
Proof.
  intros Hws. revert st. induction Hws as [|[evs abort] ws Hw _ IH]; intros st H; simpl.
  { by destruct (_ || _)%bool. }
  destruct (_ || _)%bool; [done|].
  assert (tcp_inv Bad (tcp_handles evs st)) as H1.
  { destruct H as [Hf Hb]. split; [by apply handles_fwd|].
    destruct Hb as [(l & i & p & Hb)|(B & i & pre & gap & suf & Hg)].
    - left. destruct (handles_back _ _ _ evs _ Hb (Hw _)) as [i' Hb']. by exists l, i', p.
    - right. split; [done|]. destruct (handles_gap _ _ _ _ evs _ Hg (Hw _)) as [i' Hg'].
      by exists i', pre, gap, suf. }
  destruct abort; [done|]. by apply IH.
Qed.

(** ** Runs without I/O errors *)

Definition io_clean (io : io_result) : Prop :=
  0 <= io_ret io \/ io_again io = true.

Record turn_clean (t : turn) : Prop := {
  tc_writev : forall st, io_clean (t_writev t st) /\ io_ret (t_writev t st) <> 0;
  tc_readv : forall st, io_clean (t_readv t st);
  tc_lock_f : forall st, TcpErr ∉ t_lock_f t st;
  tc_lock_b : forall st, TcpErr ∉ t_lock_b t st;
  tc_yield : forall st, TcpErr ∉ t_yield t st;
  tc_errs : forall st, Forall (eq ERR_OK) (t_errs t st);
}.

Lemma handles_clean evs st : TcpErr ∉ evs st ->
  pcb (tcp_handles evs st).1 = pcb st.1 /\
  sock_shut (tcp_handles evs st).2 = sock_shut st.2.
Proof.
  unfold tcp_handles. generalize (evs st). intros es. revert st.
  induction es as [|e es IH]; intros [self net]; simpl; [done|].
  intros [Hne Hes]%not_elem_of_cons. destruct (IH (tcp_handle (self, net) e) Hes) as [-> ->].
  destruct e as [[p|]|len|]; simpl; try done.
  case_bool_decide; [done|]. by destruct (Z.ltb _ _).
Qed.

(** The state of a clean run: a direction that ended did so in order. *)
Definition clean_inv (st : St) (res_f res_b : Z) : Prop :=
  pcb st.1 = true /\
  -1 <= res_f <= 1 /\ (res_f < 0 -> sock_shut st.2 = true) /\
  -1 <= res_b <= 1 /\ (res_b < 0 -> tcp_fin st.2 = true).

Lemma clean_holes t : turn_clean t -> forall st, holed (t_errs t st) -> False.
Proof.
  intros Hc st [H0 _]. pose proof (tc_errs _ Hc st) as He. by destruct He as [|? ? <-].
Qed.

Lemma turn_f_clean t st res_f res_b : turn_ok t -> turn_clean t ->
  loop_inv False st res_b -> clean_inv st res_f res_b ->
  clean_inv (turn_f t st res_f).1 (turn_f t st res_f).2 res_b.
Proof.
  intros Ht Hc [_ [(l & i & p & Hb & _)|[[] _]]] (Hp & Hrf & Hsh & Hrb & Hfin). unfold turn_f.
  destruct (Z.leb_spec 0 res_f); [|done].
  destruct (splice_f_back _ _ _ (t_writev t) (t_lock_f t) _ Hb (to_lock_f _ Ht)) as [_ E].
  unfold clean_inv. rewrite E. clear E. destruct st as [self net]. unfold tcp_splice_f.
  destruct (decide (queue self = [])) as [Hq|Hq]; simpl in *.
  { rewrite Hq. simpl. destruct (pcb_eof self); simpl; split_and!; try done; lia. }
  rewrite !bool_decide_eq_false_2 by (by destruct (queue self)).
  destruct (tc_writev _ Hc (self, net)) as [Hio Hnz].
  destruct (Z.leb_spec (io_ret (t_writev t (self, net))) 0) as [Hle|]; simpl.
  - destruct (Z.ltb_spec (io_ret (t_writev t (self, net))) 0); [|lia].
    destruct Hio as [|Hagain]; [lia|]. rewrite Hagain. simpl. split_and!; try done; lia.
  - set (net1 := net_send _ net).
    destruct (handles_clean (t_lock_f t) (self, net1) (tc_lock_f _ Hc _)) as [Hp' Hs'].
    destruct (tcp_handles _ _) as [self2 net2]. simpl in *. rewrite Hp', Hp.
    simpl. split_and!; try done; lia.
Qed.

Lemma tcp_writes_clean iov errs net err s : Forall (eq ERR_OK) errs ->
  (tcp_writes iov errs net err s).1.2 = err /\
  sock_shut (tcp_writes iov errs net err s).1.1 = sock_shut net /\
  tcp_fin (tcp_writes iov errs net err s).1.1 = tcp_fin net.
Proof.
  assert (forall l, Forall (eq ERR_OK) l -> hd ERR_OK l = ERR_OK) as Hhd.
  { by intros l [|? ? <-]. }
  intros He. revert errs net err s He. induction iov as [|v iov IH]; intros; simpl.
  - rewrite (Hhd errs) by done. unfold ERR_OK. by rewrite Z.lor_0_r.
  - rewrite (Hhd errs) by done. change (ERR_OK =? ERR_OK) with true. simpl.
    destruct (IH (tail errs) (net_write (iov_addrs v) net) (Z.lor err ERR_OK) (s + iov_len v))
      as (E1 & E2 & E3); [by destruct He|]. rewrite E1, E2, E3.
    unfold ERR_OK. by rewrite Z.lor_0_r.
Qed.

Lemma turn_b_clean t st res_f res_b : turn_ok t -> turn_clean t ->
  clean_inv st res_f res_b ->
  clean_inv (turn_b t st res_b).1 res_f (turn_b t st res_b).2.
Proof.
  intros Ht Hc (Hp & Hrf & Hsh & Hrb & Hfin). unfold turn_b.
  destruct (Z.leb_spec 0 res_b); [|done]. unfold tcp_splice_b.
  assert (pcb (splice_b_read (t_readv t) st).1.1 = true /\
    sock_shut (splice_b_read (t_readv t) st).1.2 = sock_shut st.2 /\
    -1 <= (splice_b_read (t_readv t) st).2 <= 1) as (Hp1 & Hs1 & Hr1).
  { destruct st as [self net]. unfold splice_b_read. case_bool_decide; [done|].
    destruct (Z.leb _ 0); [|done]. simpl. by destruct (_ && _)%bool. }
  destruct (splice_b_read (t_readv t) st) as [st1 res]. simpl in *.
  destruct (handles_clean (t_lock_b t) st1 (tc_lock_b _ Hc _)) as [Hp2 Hs2].
  destruct (tcp_handles (t_lock_b t) st1) as [self net]. simpl in *.
  rewrite Hp1 in Hp2. rewrite Hs1 in Hs2. rewrite <- Hs2 in Hsh. unfold splice_b_write. rewrite Hp2.
  case_bool_decide; simpl.
  - rewrite Hp2. simpl. destruct (Z.ltb_spec res 0); simpl; split_and!; try done; lia.
  - destruct (tcp_writes_clean (hev_ring_buffer_reading (buffer self)) (t_errs t (self, net)) net
      ERR_OK 0 (tc_errs _ Hc _)) as (E1 & E2 & E3).
    destruct (tcp_writes _ _ _ _ _) as [[net' err] s]. simpl in *. subst err.
    rewrite Hp2. simpl. rewrite <- E2 in Hsh. split_and!; try done; lia.
Qed.

Lemma handles_clean_inv evs st res_f res_b : TcpErr ∉ evs st ->
  clean_inv st res_f res_b -> clean_inv (tcp_handles evs st) res_f res_b.
Proof.
  intros He (Hp & Hrf & Hsh & Hrb & Hfin). destruct (handles_clean evs st He) as [Hp2 Hs2].
  unfold clean_inv. by rewrite Hp2, Hs2, handles_fin.
Qed.

Lemma splice_loop_clean ts st res_f res_b :
  Forall turn_ok ts -> Forall turn_clean ts -> loop_inv False st res_b -> clean_inv st res_f res_b ->
  pcb (splice_loop ts st res_f res_b).1.1 = true /\
  ((splice_loop ts st res_f res_b).2 = Finished ->
   sock_shut (splice_loop ts st res_f res_b).1.2 = true /\
   tcp_fin (splice_loop ts st res_f res_b).1.2 = true).
Proof.
  intros Hts. revert st res_f res_b.
  induction Hts as [|t ts Ht _ IH]; intros st res_f res_b Hcl H Hi.
  { by destruct Hi as [? _]. }
  apply Forall_cons in Hcl as [Hc Hcs]. simpl. fold (turn_f t st res_f).
  pose proof (turn_f_inv False t st res_f res_b Ht H) as H1.
  pose proof (turn_f_clean t st res_f res_b Ht Hc H Hi) as C1.
  destruct (turn_f t st res_f) as [st1 res_f1]. simpl in *. fold (turn_b t st1 res_b).
  pose proof (turn_b_inv False t st1 res_b (conj Ht (clean_holes t Hc)) H1) as H2.
  pose proof (turn_b_clean t st1 res_f1 res_b Ht Hc C1) as C2.
  destruct (turn_b t st1 res_b) as [st2 res_b2]. simpl in *.
  destruct (_ || _)%bool eqn:Hgo.
  - pose proof (handles_loop False (t_yield t) _ _ (to_yield _ Ht) H2) as H3.
    pose proof (handles_clean_inv (t_yield t) _ _ _ (tc_yield _ Hc _) C2) as C3.
    destruct (t_abort t); [by destruct C3|]. by apply IH.
  - destruct C2 as (Hp & Hrf & Hsh & Hrb & Hfin). split; [done|]. intros _.
    apply orb_false_iff in Hgo as [[Hgf Hgb]%orb_false_iff Hgz].
    apply Z.ltb_ge in Hgf, Hgb. apply Z.eqb_neq in Hgz.
    assert (res_f1 = -1 \/ res_f1 = 0) as [E|E] by lia;
    assert (res_b2 = -1 \/ res_b2 = 0) as [E'|E'] by lia; subst; simpl in Hgz; try done.
    split; [apply Hsh|apply Hfin]; lia.
Qed.

Lemma drain_loop_clean ws st :
  Forall (fun w => forall st, events_ok st (w.1 st) /\ TcpErr ∉ w.1 st) ws ->
  pcb st.1 = true ->
  sock_shut (drain_loop ws st).1.2 = sock_shut st.2 /\
  tcp_fin (drain_loop ws st).1.2 = tcp_fin st.2 /\
  ((drain_loop ws st).2 = Finished ->
   hev_ring_buffer_get_use_size (buffer (drain_loop ws st).1.1) = 0).
Proof.
  intros Hws. revert st. induction Hws as [|[evs abort] ws Hw _ IH]; intros st Hp; simpl;
  rewrite Hp; simpl; destruct (Z.eqb_spec (hev_ring_buffer_get_use_size (buffer st.1)) 0);
  try done.
  destruct (Hw st) as [_ Hne]. destruct (handles_clean evs st Hne) as [Hp2 Hs2].
  rewrite Hp in Hp2. rewrite <- Hs2, <- (handles_fin evs st).
  destruct abort; [done|]. by apply IH.
Qed.
