(* ===== verification/SessionTCPProps.v ===== *)
(** * The TCP session relays two byte streams: properties *)
From S2P Require Import Prelude CInt RingBuffer SessionTCP SessionTCPSpec.

(** A session that may have queued data while it shook hands with the proxy. *)
Definition tcp_start (st : St) : Prop :=
  pcb st.1 = true /\ sock_tx st.2 = [] /\ sock_shut st.2 = false /\ sock_rx st.2 = [] /\
  tcp_rx st.2 = concat (queue st.1) /\ Z.of_nat (length (concat (queue st.1))) <= 65535 /\
  recved st.2 = 0 /\ tcp_tx st.2 = [] /\ tcp_acked st.2 = [] /\ tcp_fin st.2 = false.

Lemma start_loop_inv Bad size fresh st : 0 < size < 2 ^ 16 -> Z.of_nat (length fresh) = size ->
  tcp_start st ->
  loop_inv Bad (set_buffer (hev_ring_buffer_alloca size fresh) st.1, st.2) 1.
Proof.
  intros Hs Hf. destruct st as [self net].
  intros (Hp & Ht & Hsh & Hr & Hx & Hl & Hc & Htx & Ha & Hfin). simpl in *. split.
  - constructor; simpl; rewrite ?Ht, ?Hsh, ?Hc, ?drop_0; simpl; try done; lia.
  - left. exists true, [], []. split; [|done].
    constructor; simpl; rewrite ?Htx, ?Hr, ?Ha, ?Hfin; try done; try lia.
    apply ring_alloca; [lia|done].
Qed.

Lemma session_inv Bad size fresh ts ws st :
  0 < size < 2 ^ 16 -> Z.of_nat (length fresh) = size -> tcp_start st ->
  Forall (turn_in Bad) ts -> Forall (fun w => forall st, events_ok st (w.1 st)) ws ->
  tcp_inv Bad (hev_socks5_session_tcp_splice size fresh ts ws st).1.1.
Proof.
  intros Hs Hf Hst Hts Hws. unfold hev_socks5_session_tcp_splice. pose proof Hst as [-> _].
  pose proof (splice_loop_inv Bad ts _ 1 1 Hts (start_loop_inv Bad _ _ _ Hs Hf Hst)) as H1.
  destruct (splice_loop _ _ _ _) as [st1 o1]. simpl in H1.
  pose proof (drain_loop_inv Bad ws st1 Hws H1) as H2.
  destruct (drain_loop ws st1) as [st2 o2]. by destruct o1.
Qed.

(** C19: Whatever the sockets, lwIP and the scheduler do within their
    contracts, the session loses, duplicates or reorders a byte in one way only.
    Forward, never: what the proxy has been sent, followed by the queue, is what
    the application sent; the proxy's side is shut down only once all of it was
    sent and the application had finished; and exactly the bytes sent have been
    given back to lwIP's receive window.  Backward, what the application
    acknowledged, followed by what the ring buffer holds, is what the proxy
    sent; every place of the buffer that lwIP refers to holds the byte it held
    when it was handed over; and the application's side is finished only once
    nothing is left to hand over.  The other case needs a call of [tcp_write]
    that is refused and a next one, for the second run of a buffer that has
    wrapped around, that is not: then the first run [gap], and nothing else, is
    missing between what the application was sent before, [pre], and after,
    [suf]; its side is never finished, and the buffer keeps the room of the gap,
    so that it never drains. *)
Theorem tcp_stream_integrity size fresh ts ws st :
  0 < size < 2 ^ 16 -> Z.of_nat (length fresh) = size -> tcp_start st ->
  Forall turn_ok ts -> Forall (fun w => forall st, events_ok st (w.1 st)) ws ->
  let '(self, net) := (hev_socks5_session_tcp_splice size fresh ts ws st).1.1 in
  (sock_tx net ++ concat (queue self) = tcp_rx net /\
   (sock_shut net = true -> sock_tx net = tcp_rx net /\ pcb_eof self = true) /\
   (pcb self = true -> recved net = Z.of_nat (length (sock_tx net)))) /\
  ((exists infl pend,
    sock_rx net = tcp_acked net ++ infl ++ pend /\
    bytes_at (data (buffer self)) (tcp_tx net) = take (length (tcp_tx net)) infl /\
    use_size (buffer self) = Z.of_nat (length infl + length pend) /\
    (tcp_fin net = true -> pend = [] /\ length (tcp_tx net) = length infl)) \/
   ((exists t st', t ∈ ts /\ nth 0 (t_errs t st') ERR_OK <> ERR_OK /\ nth 1 (t_errs t st') ERR_OK = ERR_OK) /\
    exists pre gap suf, gap <> [] /\
    sock_rx net = pre ++ gap ++ suf /\
    tcp_acked net ++ bytes_at (data (buffer self)) (tcp_tx net) = pre ++ suf /\
    use_size (buffer self) = Z.of_nat (length (tcp_tx net) + length gap) /\
    tcp_fin net = false)).
Proof.
  intros Hs Hf Hst Hts Hws.
  pose proof (session_inv (exists t st', t ∈ ts /\ holed (t_errs t st')) size fresh ts ws st Hs Hf Hst) as H.
  destruct (_.1.1) as [self net]. destruct H as [[Hk Hstr Hr Hcr Hw Hsh] Hb].
  { rewrite Forall_forall in *. intros t Ht. split; [auto|]. intros st' Hh. by exists t, st'. }
  { done. }
  simpl in *. rewrite drop_0 in Hstr. split; [split_and!|].
  - done.
  - intros [Hq He]%Hsh. split; [|done]. rewrite <- Hstr, Hq. simpl. by rewrite app_nil_r.
  - intros ?%Hcr. lia.
  - destruct Hb as [(l & infl & pend & [H1 H2 H3 H4 H5 H6 H7])|(HB & infl & pre & gap & suf & [H1 H2 H3 H4 H5 H6])];
      [left; exists infl, pend|right; split; [done|]; exists pre, gap, suf]; simpl in *; split_and!; try done.
    + rewrite H3 at 1. unfold bytes_at. rewrite <- firstn_map.
      fold (bytes_at (data (buffer self)) (flight_places (buffer self) infl)).
      by rewrite (flight_bytes _ _ _ H1).
    + by apply rr_use in H1.
    + intros [? ?]%H7. auto.
    + apply rr_use in H1. rewrite H1, <- H2. simpl. lia.
Qed.

(** C20: when neither side fails and the session is not aborted, a splice that
    ends has relayed everything: the proxy got all that the application sent
    and then the end of the stream, and the application acknowledged all that
    the proxy sent and was sent the end of the stream. *)
Theorem tcp_graceful_completion size fresh ts ws st :
  0 < size < 2 ^ 16 -> Z.of_nat (length fresh) = size -> tcp_start st ->
  Forall turn_ok ts -> Forall turn_clean ts ->
  Forall (fun w => forall st, events_ok st (w.1 st) /\ TcpErr ∉ w.1 st) ws ->
  forall self net,
  hev_socks5_session_tcp_splice size fresh ts ws st = ((self, net), Finished, Finished) ->
  sock_tx net = tcp_rx net /\ sock_shut net = true /\
  tcp_acked net = sock_rx net /\ tcp_fin net = true.
Proof.
  intros Hs Hf Hst Hts Hcl Hws self net. unfold hev_socks5_session_tcp_splice.
  pose proof Hst as [-> _]. pose proof (start_loop_inv False _ _ _ Hs Hf Hst) as Hi.
  assert (clean_inv (set_buffer (hev_ring_buffer_alloca size fresh) st.1, st.2) 1 1) as Hc.
  { destruct Hst as [? _]. repeat split; simpl; done || lia. }
  assert (Forall (turn_in False) ts) as Hin.
  { rewrite Forall_forall in *. intros t Ht. split; [auto|]. by apply clean_holes, Hcl. }
  pose proof (splice_loop_inv False ts _ 1 1 Hin Hi) as H1.
  pose proof (splice_loop_clean ts _ 1 1 Hts Hcl Hi Hc) as [Hp Hfin].
  destruct (splice_loop _ _ _ _) as [st1 o1]. simpl in *.
  destruct (drain_loop_clean ws st1 Hws Hp) as (Hsh & Hfi & Huse).
  assert (tcp_inv False (drain_loop ws st1).1) as H2.
  { apply drain_loop_inv; [|done]. eapply Forall_impl; [exact Hws|]. naive_solver. }
  destruct (drain_loop ws st1) as [st2 o2]. simpl in *.
  destruct o1; intros E; inversion E; subst; simpl in *.
  destruct (Hfin eq_refl) as [Hsh1 Hfin1]. specialize (Huse eq_refl).
  rewrite Hsh1 in Hsh. rewrite Hfin1 in Hfi.
  destruct H2 as [[Hk Hstr Hr Hcr Hw Hshq] [(l & infl & pend & [R1 R2 R3 R4 R5 R6 R7])|[[] _]]].
  simpl in *. destruct (Hshq Hsh) as [Hq _]. destruct (R7 Hfi) as [-> _].
  rewrite Hq in Hstr. simpl in Hstr. rewrite app_nil_r in Hstr.
  apply rr_use in R1. unfold hev_ring_buffer_get_use_size in Huse. rewrite Huse in R1.
  assert (infl = []) as -> by (apply length_zero_iff_nil; simpl in R1; lia).
  rewrite R6, !app_nil_r. done.
Qed.

(** ** A session *)

(** Three bytes are queued, the proxy answers with five into a buffer of four,
    and both sides then close. *)
Definition demo_tcp : St :=
  (mkTCP true false [[1; 2]; [3]] (hev_ring_buffer_alloca 4 []),
   mkNet [] false [] [1; 2; 3] 0 [] [] false).

Definition offered (st : St) : Z := Z.of_nat (length (concat (take 64 (queue st.1)))).

(** The application acknowledges what it got. *)
Definition ack_all (st : St) : list tcp_event :=
  if pcb st.1 then [TcpSent (Z.of_nat (length (tcp_tx st.2)))] else [].

Definition finish (st : St) : list tcp_event := if pcb st.1 then [TcpRecv None] else [].

Definition quiet (st : St) : list tcp_event := [].

Definition demo_write (st : St) : io_result := mkIO (if Z.eqb (offered st) 0 then -1
  else Z.min 2 (offered st)) true [].

(** Reads at most [n] bytes of [bs]. *)
Definition demo_read (bs : list Z) (st : St) : io_result :=
  let n := Z.max 0 (Z.min (iov_size (hev_ring_buffer_writing (buffer st.1))) (Z.of_nat (length bs))) in
  mkIO n false (take (Z.to_nat n) bs).

Definition demo_turn (bs : list Z) (f : St -> list tcp_event) : turn :=
  mkTurn demo_write quiet (demo_read bs) quiet (fun _ => []) f false.

Definition demo_turns : list turn :=
  [demo_turn [10; 11; 12] ack_all; demo_turn [13; 14] finish; demo_turn [] ack_all;
   demo_turn [] quiet; demo_turn [] quiet].

Lemma demo_events (evs : St -> list tcp_event) :
  evs = ack_all \/ evs = finish \/ evs = quiet ->
  forall st, events_ok st (evs st) /\ TcpErr ∉ evs st.
Proof.
  intros Hevs st. assert (TcpErr ∉ evs st) as Hn.
  { intros Hin. destruct Hevs as [->|[->| ->]]; unfold ack_all, finish, quiet in Hin;
      destruct (pcb st.1); simpl in Hin; set_solver. }
  split; [|done].
  destruct Hevs as [->|[->| ->]]; unfold ack_all, finish, quiet; destruct (pcb st.1) eqn:E;
    simpl; unfold event_ok; try done; split; try done; split; try done; simpl; lia.
Qed.

Lemma demo_turn_ok bs f : f = ack_all \/ f = finish \/ f = quiet ->
  turn_ok (demo_turn bs f) /\ turn_clean (demo_turn bs f).
Proof.
  intros Hf. pose proof (demo_events f Hf) as Hd. split.
  - constructor; intros st; simpl; try done; try apply Hd.
    + unfold writev_ok, demo_write. simpl. fold (offered st).
      destruct (Z.eqb_spec (offered st) 0); lia.
    + unfold readv_ok, demo_read. simpl. rewrite length_take. lia.
  - constructor; intros st; simpl; try apply not_elem_of_nil; try constructor; try apply Hd;
      unfold io_clean, demo_read, demo_write, offered; simpl; try (by right); try lia.
    destruct (Z.eqb_spec (Z.of_nat (length (concat (take 64 (queue st.1))))) 0); lia.
Qed.

Lemma demo_turns_ok : Forall turn_ok demo_turns /\ Forall turn_clean demo_turns.
Proof.
  unfold demo_turns. rewrite !Forall_cons.
  split; split_and!; try apply Forall_nil_2; apply demo_turn_ok; auto.
Qed.

Lemma demo_start : tcp_start demo_tcp.
Proof. vm_compute. intuition congruence. Qed.

#[local] Abbreviation demo_run := (hev_socks5_session_tcp_splice 4 [0; 0; 0; 0] demo_turns
  [(ack_all, false)] demo_tcp).

Lemma demo_acks_clean :
  Forall (fun w => forall st, events_ok st (w.1 st) /\ TcpErr ∉ w.1 st) [(ack_all, false)].
Proof. apply Forall_singleton. apply (demo_events ack_all). auto. Qed.

Lemma demo_acks : Forall (fun w => forall st, events_ok st (w.1 st)) [(ack_all, false)].
Proof. apply Forall_singleton. apply (demo_events ack_all). auto. Qed.

Lemma demo_run_eq : demo_run =
  ((mkTCP true true [] (mkRing 0 0 0 0 4 [13; 14; 12; 0]),
    mkNet [1; 2; 3] true [10; 11; 12; 13; 14] [1; 2; 3] 3 [] [10; 11; 12; 13; 14] true),
   Finished, Finished).
Proof. vm_compute. reflexivity. Qed.

Lemma tcp_stream_integrity_witness :
  tcp_start demo_tcp /\ Forall turn_ok demo_turns /\
  let '(self, net) := demo_run.1.1 in
  sock_tx net ++ concat (queue self) = tcp_rx net /\ sock_tx net = [1; 2; 3].
Proof.
  split; [apply demo_start|]. split; [apply demo_turns_ok|].
  pose proof (tcp_stream_integrity 4 [0; 0; 0; 0] demo_turns [(ack_all, false)] demo_tcp
    ltac:(lia) eq_refl demo_start (proj1 demo_turns_ok)
    demo_acks)
    as H.
  rewrite demo_run_eq in *. destruct H as [[H _] _]. split; [exact H|reflexivity].
Defined.

Lemma tcp_graceful_completion_witness :
  Forall turn_clean demo_turns /\
  exists self net, demo_run = ((self, net), Finished, Finished) /\
  tcp_acked net = sock_rx net /\ sock_rx net = [10; 11; 12; 13; 14].
Proof.
  split; [apply demo_turns_ok|].
  eexists _, _. split; [apply demo_run_eq|]. split; [|reflexivity].
  apply (tcp_graceful_completion 4 [0; 0; 0; 0] demo_turns [(ack_all, false)] demo_tcp
    ltac:(lia) eq_refl demo_start (proj1 demo_turns_ok) (proj2 demo_turns_ok)
    demo_acks_clean _ _ demo_run_eq).
Defined.

(** The other case happens: the buffer of four has wrapped around when its first
    run is refused and its second is not, and the application is sent 14 right
    after 12. *)
Definition refused_turn : turn :=
  mkTurn demo_write quiet (demo_read [13; 14]) quiet (fun _ => [-1]) ack_all false.

Lemma tcp_write_hole : exists self net,
  hev_socks5_session_tcp_splice 4 [0; 0; 0; 0]
    [demo_turn [10; 11; 12] (fun _ => [TcpSent 2]); refused_turn; demo_turn [] finish] [] demo_tcp =
    ((self, net), Running, Running) /\
  sock_rx net = [10; 11; 12; 13; 14] /\ tcp_acked net = [10; 11; 12; 14] /\ use_size (buffer self) = 1.
Proof. eexists _, _. split; [vm_compute; reflexivity|]. by split_and!. Qed.
