(* ===== verification/Effect.v ===== *)
(** * A state monad with faults

    Code that threads a state [S]: a computation that reads or writes outside a
    buffer, or dereferences NULL, is [None]. *)
From S2P Require Import Prelude.

Definition M (S A : Type) : Type := S -> option (S * A).

#[export] Instance M_ret {S} : MRet (M S) := fun A a s => Some (s, a).
#[export] Instance M_bind {S} : MBind (M S) :=
  fun A B f m s => match m s with Some (s', a) => f a s' | None => None end.

Definition mget {S} : M S S := fun s => Some (s, s).
Definition mput {S} (s : S) : M S () := fun _ => Some (s, ()).
Definition mlift {S A} (o : option A) : M S A :=
  fun s => match o with Some a => Some (s, a) | None => None end.

(** [mwp m s Q]: from [s] the computation returns without a fault, in a state
    and with a result that satisfy [Q]. *)
Definition mwp {S A} (m : M S A) (s : S) (Q : S -> A -> Prop) : Prop :=
  exists s' a, m s = Some (s', a) /\ Q s' a.

Lemma mwp_ret {S A} (a : A) (s : S) Q : Q s a -> mwp (mret a) s Q.
Proof. intros. by exists s, a. Qed.

Lemma mwp_bind {S A B} (m : M S A) (f : A -> M S B) s Q :
  mwp m s (fun s' a => mwp (f a) s' Q) -> mwp (m ≫= f) s Q.
Proof.
  intros (s' & a & Hm & s'' & b & Hf & HQ). exists s'', b. split; [|done].
  unfold mbind, M_bind. by rewrite Hm.
Qed.

Lemma mwp_mono {S A} (m : M S A) s (P Q : S -> A -> Prop) :
  mwp m s P -> (forall s a, P s a -> Q s a) -> mwp m s Q.
Proof. intros (s' & a & Hm & HP) H. exists s', a. auto. Qed.

Lemma mwp_get {S} (s : S) (Q : S -> S -> Prop) : Q s s -> mwp mget s Q.
Proof. intros. by exists s, s. Qed.

Lemma mwp_put {S} (s s' : S) (Q : S -> () -> Prop) : Q s' () -> mwp (mput s') s Q.
Proof. intros. by exists s', (). Qed.

Lemma mwp_lift {S A} (o : option A) (a : A) (s : S) Q : o = Some a -> Q s a -> mwp (mlift o) s Q.
Proof. intros ->. by exists s, a. Qed.

(** Symbolic execution of the structural steps. *)
Ltac mstep :=
  match goal with
  | |- mwp (_ ≫= _) _ _ => apply mwp_bind
  | |- mwp (mret _) _ _ => apply mwp_ret
  | |- mwp mget _ _ => apply mwp_get
  | |- mwp (mput _) _ _ => apply mwp_put
  end.
Ltac msteps := repeat (mstep; cbv beta).

(** ** Partial correctness

    [hoare P m Q]: from a state in [P], if the computation returns, its state
    and result are in [Q]. *)
Definition hoare {S A} (P : S -> Prop) (m : M S A) (Q : S -> A -> Prop) : Prop :=
  forall s s' a, P s -> m s = Some (s', a) -> Q s' a.

(** [keeps I m]: the computation preserves [I]. *)
Definition keeps {S A} (I : S -> Prop) (m : M S A) : Prop := hoare I m (fun s _ => I s).

Lemma hoare_ret {S A} (P : S -> Prop) (a : A) (Q : S -> A -> Prop) :
  (forall s, P s -> Q s a) -> hoare P (mret a) Q.
Proof. intros HQ s s' a' HP [= <- <-]. by apply HQ. Qed.

Lemma hoare_bind {S A B} P (m : M S A) (f : A -> M S B) R Q :
  hoare P m R -> (forall a, hoare (fun s => R s a) (f a) Q) -> hoare P (m ≫= f) Q.
Proof.
  intros Hm Hf s s' b HP E. unfold mbind, M_bind in E.
  destruct (m s) as [[s1 a]|] eqn:Em; [|done]. eapply (Hf a); [|exact E]. by eapply Hm.
Qed.

Lemma hoare_weaken {S A} (P P' : S -> Prop) (m : M S A) (Q Q' : S -> A -> Prop) :
  hoare P' m Q' -> (forall s, P s -> P' s) -> (forall s a, Q' s a -> Q s a) -> hoare P m Q.
Proof. intros Hm HP HQ s s' a Hs E. eapply HQ, Hm; eauto. Qed.

Lemma hoare_lift {S A} (P : S -> Prop) (o : option A) (Q : S -> A -> Prop) :
  (forall s a, P s -> o = Some a -> Q s a) -> hoare P (mlift o) Q.
Proof.
  intros HQ s s' a HP E. unfold mlift in E. destruct o as [a'|]; [|done].
  injection E as <- <-. by apply HQ.
Qed.

Lemma hoare_pre {S A} (P : S -> Prop) (R : Prop) (m : M S A) Q :
  (R -> hoare P m Q) -> hoare (fun s => R /\ P s) m Q.
Proof. intros Hm s s' a [HR HP] E. by eapply Hm. Qed.

Lemma keeps_ret {S A} (I : S -> Prop) (a : A) : keeps I (mret a).
Proof. apply hoare_ret. done. Qed.

Lemma keeps_bind {S A B} I (m : M S A) (f : A -> M S B) :
  keeps I m -> (forall a, keeps I (f a)) -> keeps I (m ≫= f).
Proof. intros. eapply hoare_bind; [done|]. done. Qed.

Lemma keeps_lift {S A} (I : S -> Prop) (o : option A) : keeps I (mlift o).
Proof. by apply hoare_lift. Qed.

Create HintDb keeps.
#[export] Hint Resolve keeps_ret keeps_lift : keeps.

(** Decomposes a computation into steps that the hints know to keep the
    invariant. *)
Ltac keeps_step :=
  match goal with
  | |- keeps _ (_ ≫= _) => apply keeps_bind; [|intros]
  | |- keeps _ (if ?b then _ else _) => destruct b
  | |- keeps _ (match ?x with _ => _ end) => destruct x
  | |- keeps _ _ => solve [auto with keeps]
  end.
Ltac keeps_tac := repeat keeps_step.
