(* ===== verification/SockIO.v ===== *)
(** * Socket input and output of a task (hev-task-io-socket.c) and system calls

    The peer's byte stream arrives in chunks of any size, with waits between
    them; the kernel accepts outgoing bytes in pieces of any size.  What a call
    on any other descriptor returns depends on the calls made so far. *)
From S2P Require Import Prelude CInt Effect.

(** ** The outside *)

(** What the next [recv] on the connection meets; [RxAgain]: EAGAIN, and then
    whether the yielder reports an abort.  After the last one the peer has
    closed. *)
Inductive rx_event :=
| RxData (bs : list Z)
| RxAgain (abort : bool)
| RxErr.

(** What the next [send] meets; after the last one everything is accepted. *)
Inductive tx_event :=
| TxAccept (n : Z)
| TxAgain (abort : bool)
| TxErr.

(** [struct sockaddr_in6]: family, the two bytes of the port, the address. *)
Record sockaddr_in6 := mkSA { sin6_family : Z; sin6_port : list Z; sin6_addr : list Z }.

(** System and library calls that do not use the connection's stream, with
    their arguments.  [CBinder] is the virtual method that binds a socket. *)
Inductive call :=
| CSocket (type : Z)
| CSetsockopt (fd : Z)
| CBinder (fd : Z)
| CBind (fd : Z) (addr : sockaddr_in6)
| CGetsockname (fd : Z)
| CConnect (fd : Z) (addr : sockaddr_in6)
| CClose (fd : Z)
| CMalloc (size : Z)
| CFree
| CRefUser (user : Z)
| CUnrefAuth
| CUnrefObj
| CTcpSplice (cfd fd : Z)
| CUdpSplice (fd : Z)
| CTaskAddFd (fd : Z)
| CTaskModFd (fd : Z)
| CTaskDelFd (fd : Z)
| CGetaddrinfo (name : list Z) (family : Z).

Record World := mkWorld {
  w_rx : list rx_event;
  w_tx : list tx_event;
  w_sent : list Z;
  w_trace : list (call * Z);
}.

(** The kernel and the resolver, as functions of what was called before. *)
Class Kernel := {
  k_ret : list (call * Z) -> call -> Z;
  k_addr : list (call * Z) -> call -> sockaddr_in6;
}.

(** ** hev_task_io_socket_recv and _send, with MSG_WAITALL *)

Definition size_or (size other : Z) : Z := if Z.eqb size 0 then other else size.

Fixpoint recv_loop (rx : list rx_event) (len size : Z) (buf : list Z)
  : list rx_event * Z * list Z :=
  if Z.eqb len size then (rx, size_or size 0, buf) else
  match rx with
  | [] => ([], size_or size 0, buf)
  | RxErr :: rx => (rx, size_or size (-1), buf)
  | RxAgain abort :: rx =>
      if abort then (rx, size_or size (-2), buf) else recv_loop rx len size buf
  | RxData bs :: rx =>
      let s := Z.min (len - size) (Z.of_nat (length bs)) in
      if Z.leb s 0 then (rx, size_or size s, buf) else
      let buf := buf ++ take (Z.to_nat s) bs in
      let size := size + s in
      if Z.ltb size len then recv_loop rx len size buf
      else (if Z.ltb s (Z.of_nat (length bs)) then RxData (drop (Z.to_nat s) bs) :: rx else rx,
            size, buf)
  end.

Fixpoint send_loop (tx : list tx_event) (buf : list Z) (size : Z)
  : list tx_event * Z * list Z :=
  match tx with
  | [] => ([], size + Z.of_nat (length buf), buf)
  | TxErr :: tx => (tx, size_or size (-1), [])
  | TxAgain abort :: tx =>
      if abort then (tx, size_or size (-2), []) else send_loop tx buf size
  | TxAccept n :: tx =>
      let s := Z.min n (Z.of_nat (length buf)) in
      if Z.leb s 0 then (tx, size_or size s, []) else
      let size := size + s in
      if Z.ltb s (Z.of_nat (length buf)) then
        let '(tx, r, out) := send_loop tx (drop (Z.to_nat s) buf) size in
        (tx, r, take (Z.to_nat s) buf ++ out)
      else (tx, size, buf)
  end.

Definition with_rx rx (w : World) := mkWorld rx (w_tx w) (w_sent w) (w_trace w).
Definition with_tx tx out (w : World) := mkWorld (w_rx w) tx (w_sent w ++ out) (w_trace w).

Section with_state.
Context {X : Type}.

(** Computations of an object whose fields are [X]. *)
Definition get_self : M (X * World) X := fun s => Some (s, s.1).
Definition set_self (x : X) : M (X * World) () := fun s => Some ((x, s.2), ()).

(** The result and the bytes that were stored. *)
Definition hev_task_io_socket_recv (len : Z) : M (X * World) (Z * list Z) :=
  fun '(x, w) =>
    let '(rx, r, buf) := recv_loop (w_rx w) len 0 [] in Some ((x, with_rx rx w), (r, buf)).

Definition hev_task_io_socket_send (buf : list Z) : M (X * World) Z :=
  fun '(x, w) =>
    let '(tx, r, out) := send_loop (w_tx w) buf 0 in Some ((x, with_tx tx out w), r).

(** The gathered pieces of the message. *)
Definition hev_task_io_socket_sendmsg (iov : list (list Z)) : M (X * World) Z :=
  hev_task_io_socket_send (concat iov).

Context `{Kernel}.

Definition sys (c : call) : M (X * World) Z :=
  fun '(x, w) =>
    let r := k_ret (w_trace w) c in
    Some ((x, mkWorld (w_rx w) (w_tx w) (w_sent w) ((c, r) :: w_trace w)), r).

(** A call that also fills in an address. *)
Definition sys_addr (c : call) : M (X * World) (Z * sockaddr_in6) :=
  fun '(x, w) =>
    let r := k_ret (w_trace w) c in
    let a := k_addr (w_trace w) c in
    Some ((x, mkWorld (w_rx w) (w_tx w) (w_sent w) ((c, r) :: w_trace w)), (r, a)).

(** A buffer access of the code. *)
Definition mem {A} (o : option A) : M (X * World) A := mlift o.

End with_state.

(** A call whose result is not looked at. *)
Definition sys_ {X} `{Kernel} (c : call) : M (X * World) () := _ ← sys c; mret ().

(** ** The byte stream *)

(** What the peer has sent before the connection ends, fails or times out. *)
Fixpoint stream (rx : list rx_event) : list Z :=
  match rx with
  | RxData bs :: rx => bs ++ stream rx
  | RxAgain false :: rx => stream rx
  | _ => []
  end.

Definition rx_event_ok (e : rx_event) : Prop :=
  match e with RxData bs => bs <> [] /\ bytes_ok bs | _ => True end.

(** Chunks are not empty and hold bytes. *)
Definition rx_ok (rx : list rx_event) : Prop := Forall rx_event_ok rx.

(** Nothing outgoing fails or times out. *)
Definition tx_good (tx : list tx_event) : Prop :=
  Forall (fun e => e = TxAgain false \/ exists n, e = TxAccept n /\ 0 < n) tx.

Lemma size_or_nz a b : 0 < a -> size_or a b = a.
Proof. intros. unfold size_or. destruct (Z.eqb_spec a 0); lia. Qed.

Lemma stream_bytes rx : rx_ok rx -> bytes_ok (stream rx).
Proof.
  induction 1 as [|[bs|[|]|] rx He Hrx IH]; simpl; try done; try constructor.
  apply Forall_app. split; [apply He|done].
Qed.

(** Reading with MSG_WAITALL depends on the stream only, not on its chunks. *)
Lemma recv_loop_ok rx len size buf :
  rx_ok rx -> 0 <= size <= len ->
  let '(rx', r, out) := recv_loop rx len size buf in
  rx_ok rx' /\
  if Z.leb (len - size) (Z.of_nat (length (stream rx))) then
    r = len /\ out = buf ++ take (Z.to_nat (len - size)) (stream rx) /\
    stream rx' = drop (Z.to_nat (len - size)) (stream rx)
  else r < len.
Proof.
  intros Hrx. revert size buf. induction Hrx as [|e rx He Hrx IH]; intros size buf Hs.
  - simpl. destruct (Z.eqb_spec len size) as [<-|].
    + rewrite Z.sub_diag. simpl. unfold size_or. rewrite app_nil_r.
      split; [constructor|]. destruct (Z.eqb_spec len 0); split_and!; done || lia.
    + destruct (Z.leb_spec (len - size) (Z.of_nat 0)); [lia|]. split; [constructor|].
      unfold size_or. destruct (Z.eqb_spec size 0); lia.
  - simpl recv_loop. destruct (Z.eqb_spec len size) as [<-|Hne].
    { rewrite Z.sub_diag. destruct (Z.leb_spec 0 (Z.of_nat (length (stream (e :: rx))))); [|lia].
      simpl. unfold size_or. rewrite take_0, drop_0, app_nil_r. split; [by constructor|].
      destruct (Z.eqb_spec len 0); split_and!; done || lia. }
    destruct e as [bs|[|]|].
    + destruct He as [Hnil Hbs]. assert (0 < Z.of_nat (length bs)) by (destruct bs; [done|simpl; lia]).
      destruct (Z.leb_spec (Z.min (len - size) (Z.of_nat (length bs))) 0); [lia|].
      simpl stream. rewrite length_app.
      destruct (Z.ltb_spec (size + Z.min (len - size) (Z.of_nat (length bs))) len).
      * rewrite Z.min_r by lia. rewrite Nat2Z.id, take_ge by lia.
        specialize (IH (size + Z.of_nat (length bs)) (buf ++ bs) ltac:(lia)).
        destruct (recv_loop _ _ _ _) as [[rx' r] out]. destruct IH as [Hok IH].
        split; [done|]. revert IH.
        destruct (Z.leb_spec (len - (size + Z.of_nat (length bs))) (Z.of_nat (length (stream rx))));
        destruct (Z.leb_spec (len - size) (Z.of_nat (length bs + length (stream rx)))); try lia;
        try done. intros (-> & -> & ->). split; [done|].
        rewrite take_app_ge, drop_app_ge by lia. rewrite <- app_assoc.
        replace (Z.to_nat (len - size) - length bs)%nat
          with (Z.to_nat (len - (size + Z.of_nat (length bs)))) by lia. done.
      * rewrite Z.min_l by lia.
        destruct (Z.leb_spec (len - size) (Z.of_nat (length bs + length (stream rx)))); [|lia].
        rewrite take_app_le, drop_app_le by lia.
        destruct (Z.ltb_spec (len - size) (Z.of_nat (length bs))).
        -- split; [constructor; [split|done]|].
           { intros E. apply (f_equal length) in E. rewrite length_drop in E. simpl in E. lia. }
           { by apply Forall_drop. }
           split_and!; [lia|done|done].
        -- split; [done|]. rewrite (drop_ge bs) by lia. split_and!; [lia|done|done].
    + split; [done|]. simpl. destruct (Z.leb_spec (len - size) (Z.of_nat 0)); [lia|].
      unfold size_or. destruct (Z.eqb_spec size 0); lia.
    + simpl stream. by apply IH.
    + split; [done|]. simpl. destruct (Z.leb_spec (len - size) (Z.of_nat 0)); [lia|].
      unfold size_or. destruct (Z.eqb_spec size 0); lia.
Qed.

Lemma send_loop_ok tx buf size :
  tx_good tx -> 0 <= size -> 0 < Z.of_nat (length buf) ->
  let '(tx', r, out) := send_loop tx buf size in
  tx_good tx' /\ out = buf /\ r = size + Z.of_nat (length buf).
Proof.
  intros Htx. revert buf size. induction Htx as [|e tx He Htx IH]; intros buf size Hs Hb; simpl.
  { split; [constructor|done]. }
  destruct He as [->|(n & -> & Hn)]; [by apply IH|].
  destruct (Z.leb_spec (Z.min n (Z.of_nat (length buf))) 0); [lia|].
  destruct (Z.ltb_spec (Z.min n (Z.of_nat (length buf))) (Z.of_nat (length buf))).
  - rewrite Z.min_l by lia.
    specialize (IH (drop (Z.to_nat n) buf) (size + n) ltac:(lia)).
    rewrite length_drop in IH. specialize (IH ltac:(lia)).
    destruct (send_loop _ _ _) as [[tx' r] out]. destruct IH as (? & -> & ->).
    rewrite take_drop. split_and!; [done|done|lia].
  - split_and!; [done|done|lia].
Qed.

(** *** The same for computations *)

Section with_state.
Context {X : Type}.
Implicit Types (x : X) (w : World).

Lemma mwp_recv len x w (Q : X * World -> Z * list Z -> Prop) :
  rx_ok (w_rx w) -> 0 <= len ->
  (forall rx', rx_ok rx' -> len <= Z.of_nat (length (stream (w_rx w))) ->
     stream rx' = drop (Z.to_nat len) (stream (w_rx w)) ->
     Q (x, with_rx rx' w) (len, take (Z.to_nat len) (stream (w_rx w)))) ->
  (forall rx' r buf, rx_ok rx' -> Z.of_nat (length (stream (w_rx w))) < len -> r < len ->
     Q (x, with_rx rx' w) (r, buf)) ->
  mwp (hev_task_io_socket_recv len) (x, w) Q.
Proof.
  intros Hrx Hlen Hfull Hshort. unfold mwp, hev_task_io_socket_recv.
  pose proof (recv_loop_ok (w_rx w) len 0 [] Hrx ltac:(lia)) as H.
  destruct (recv_loop _ _ _ _) as [[rx' r] out]. destruct H as [Hok H].
  eexists _, _. split; [done|]. rewrite Z.sub_0_r in H.
  destruct (Z.leb_spec len (Z.of_nat (length (stream (w_rx w))))).
  - destruct H as (-> & -> & H). by apply Hfull.
  - by apply Hshort.
Qed.

Lemma mwp_send buf x w (Q : X * World -> Z -> Prop) :
  tx_good (w_tx w) -> buf <> [] ->
  (forall tx', tx_good tx' -> Q (x, with_tx tx' buf w) (Z.of_nat (length buf))) ->
  mwp (hev_task_io_socket_send buf) (x, w) Q.
Proof.
  intros Htx Hb HQ. unfold mwp, hev_task_io_socket_send.
  pose proof (send_loop_ok (w_tx w) buf 0 Htx ltac:(lia)) as H.
  destruct (send_loop _ _ _) as [[tx' r] out].
  destruct H as (Hok & -> & ->); [destruct buf; [done|simpl; lia]|].
  eexists _, _. split; [done|]. by apply HQ.
Qed.

Lemma mwp_mem {A} (o : option A) a (s : X * World) Q :
  o = Some a -> Q s a -> mwp (mem o) s Q.
Proof. apply mwp_lift. Qed.

Lemma mwp_get_self (s : X * World) Q : Q s s.1 -> mwp get_self s Q.
Proof. intros. by exists s, s.1. Qed.

Lemma mwp_set_self x (s : X * World) (Q : X * World -> () -> Prop) :
  Q (x, s.2) () -> mwp (set_self x) s Q.
Proof. intros. by exists (x, s.2), (). Qed.

Definition with_trace t (w : World) := mkWorld (w_rx w) (w_tx w) (w_sent w) t.

Lemma mwp_sys `{Kernel} c x w (Q : X * World -> Z -> Prop) :
  Q (x, with_trace ((c, k_ret (w_trace w) c) :: w_trace w) w) (k_ret (w_trace w) c) ->
  mwp (sys c) (x, w) Q.
Proof. intros. by eexists _, _. Qed.

Lemma mwp_sys_ `{Kernel} c x w (Q : X * World -> () -> Prop) :
  Q (x, with_trace ((c, k_ret (w_trace w) c) :: w_trace w) w) () ->
  mwp (sys_ c) (x, w) Q.
Proof. intros. unfold sys_. mstep. apply mwp_sys. by mstep. Qed.

Lemma mwp_sys_addr `{Kernel} c x w (Q : X * World -> Z * sockaddr_in6 -> Prop) :
  Q (x, with_trace ((c, k_ret (w_trace w) c) :: w_trace w) w)
    (k_ret (w_trace w) c, k_addr (w_trace w) c) ->
  mwp (sys_addr c) (x, w) Q.
Proof. intros. by eexists _, _. Qed.

End with_state.

(** *** The connection of a world

    [io_at w S out]: the peer's stream is [S], and [out] has been sent. *)
Definition io_at (w : World) (S out : list Z) : Prop :=
  rx_ok (w_rx w) /\ tx_good (w_tx w) /\ stream (w_rx w) = S /\ w_sent w = out.

Section io.
Context {X : Type}.
Implicit Types (x : X) (w : World).

Lemma io_recv n x w S out (Q : X * World -> Z * list Z -> Prop) :
  io_at w S out -> 0 <= n ->
  (forall w', n <= Z.of_nat (length S) -> io_at w' (drop (Z.to_nat n) S) out ->
     w_trace w' = w_trace w -> Q (x, w') (n, take (Z.to_nat n) S)) ->
  (forall w' S' r buf, Z.of_nat (length S) < n -> io_at w' S' out -> w_trace w' = w_trace w ->
     r < n -> Q (x, w') (r, buf)) ->
  mwp (hev_task_io_socket_recv n) (x, w) Q.
Proof.
  intros (Hrx & Htx & <- & <-) Hn Hfull Hshort. apply mwp_recv; [done|done|..].
  - intros rx' Hok Hle Hs. by apply Hfull.
  - intros rx' r buf Hok Hlt Hr. by apply (Hshort _ (stream rx')).
Qed.

Lemma io_send buf x w S out (Q : X * World -> Z -> Prop) :
  io_at w S out -> buf <> [] ->
  (forall w', io_at w' S (out ++ buf) -> w_trace w' = w_trace w ->
     Q (x, w') (Z.of_nat (length buf))) ->
  mwp (hev_task_io_socket_send buf) (x, w) Q.
Proof.
  intros (Hrx & Htx & <- & <-) Hb HQ. apply mwp_send; [done|done|].
  intros tx' Hok. by apply HQ.
Qed.

Lemma io_sys `{Kernel} c x w S out (Q : X * World -> Z -> Prop) :
  io_at w S out ->
  (forall w', io_at w' S out -> w_trace w' = (c, k_ret (w_trace w) c) :: w_trace w ->
     Q (x, w') (k_ret (w_trace w) c)) ->
  mwp (sys c) (x, w) Q.
Proof. intros Hio HQ. apply mwp_sys. by apply HQ. Qed.

Lemma io_bytes_ok w S out : io_at w S out -> bytes_ok S.
Proof. intros (Hrx & _ & <- & _). by apply stream_bytes. Qed.

End io.

(** ** Descriptors *)

(** The descriptors a run has opened and not closed. *)
Fixpoint open_fds (t : list (call * Z)) : list Z :=
  match t with
  | [] => []
  | (CSocket _, r) :: t => if Z.ltb r 0 then open_fds t else r :: open_fds t
  | (CClose fd, _) :: t => filter (fun x => x <> fd) (open_fds t)
  | _ :: t => open_fds t
  end.

(** [socket] returns a descriptor that is not in use. *)
Definition fresh_fds `{Kernel} : Prop :=
  forall t type, k_ret t (CSocket type) ∉ open_fds t.
