(* ===== verification/Addr.v ===== *)
(** * SOCKS5 addresses (hev-socks5-proto.h, hev-socks5-misc.c, misc/hev-utils.c)

    A [HevSocks5Addr] is a packed structure that is sent as it lies in memory:
    it is modelled by its bytes, and its fields by their offsets. *)
From S2P Require Import Prelude CInt Effect SockIO.

(** ** Constants *)

Definition HEV_SOCKS5_VERSION_5 : Z := 5.
Definition HEV_SOCKS5_AUTH_METHOD_NONE : Z := 0.
Definition HEV_SOCKS5_AUTH_METHOD_USER : Z := 2.
Definition HEV_SOCKS5_AUTH_VERSION_1 : Z := 1.
Definition HEV_SOCKS5_REQ_CMD_CONNECT : Z := 1.
Definition HEV_SOCKS5_REQ_CMD_UDP_ASC : Z := 3.
Definition HEV_SOCKS5_REQ_CMD_FWD_UDP : Z := 5.
Definition HEV_SOCKS5_RES_REP_SUCC : Z := 0.
Definition HEV_SOCKS5_RES_REP_FAIL : Z := 1.
Definition HEV_SOCKS5_RES_REP_HOST : Z := 4.
Definition HEV_SOCKS5_RES_REP_IMPL : Z := 7.
Definition HEV_SOCKS5_RES_REP_ADDR : Z := 8.
Definition HEV_SOCKS5_ADDR_TYPE_IPV4 : Z := 1.
Definition HEV_SOCKS5_ADDR_TYPE_IPV6 : Z := 4.
Definition HEV_SOCKS5_ADDR_TYPE_NAME : Z := 3.

Definition AF_UNSPEC : Z := 0.
Definition AF_INET : Z := 2.
Definition AF_INET6 : Z := 10.
Definition HEV_SOCKS5_ADDR_FAMILY_IPV4 : Z := AF_INET.
Definition HEV_SOCKS5_ADDR_FAMILY_IPV6 : Z := AF_INET6.
Definition HEV_SOCKS5_ADDR_FAMILY_UNSPEC : Z := AF_UNSPEC.

(** ** The structure *)

Definition HevSocks5Addr : Type := list Z.
Definition sizeof_addr : Z := 260.
Definition off_atype : Z := 0.
Definition off_ipv4_addr : Z := 1.
Definition off_ipv4_port : Z := 5.
Definition off_ipv6_addr : Z := 1.
Definition off_ipv6_port : Z := 17.
Definition off_domain_len : Z := 1.
Definition off_domain_addr : Z := 2.

(** The [n] bytes at [off]. *)
Definition rdn (b : list Z) (off n : Z) : option (list Z) :=
  if (Z.ltb off 0 || Z.ltb n 0 || Z.ltb (Z.of_nat (length b)) (off + n))%bool then None
  else Some (take (Z.to_nat n) (drop (Z.to_nat off) b)).

Definition hev_socks5_addr_len (addr : HevSocks5Addr) : option Z :=
  t ← rd8 addr off_atype;
  if Z.eqb t HEV_SOCKS5_ADDR_TYPE_IPV4 then Some 7
  else if Z.eqb t HEV_SOCKS5_ADDR_TYPE_IPV6 then Some 19
  else if Z.eqb t HEV_SOCKS5_ADDR_TYPE_NAME then
    l ← rd8 addr off_domain_len; Some (4 + l)
  else Some (-1).

(** [strncpy (dst + off, name, n)] pads with zeros. *)
Definition strncpy (dst : list Z) (off : Z) (name : list Z) (n : Z) : option (list Z) :=
  let src := take (Z.to_nat n) name in
  memcpy dst off (src ++ replicate (Z.to_nat n - length src) 0) n.

Definition hev_socks5_addr_from_name (addr : HevSocks5Addr) (name : list Z) (port : Z)
  : option (HevSocks5Addr * Z) :=
  addr ← wr8 addr off_atype HEV_SOCKS5_ADDR_TYPE_NAME;
  addr ← strncpy addr off_domain_addr name 256;
  s ← c_string addr off_domain_addr;
  addr ← wr8 addr off_domain_len (Z.of_nat (length s));
  l ← rd8 addr off_domain_len;
  addr ← store16 addr (off_domain_addr + l) port;
  Some (addr, 4 + l).

Definition hev_socks5_addr_from_ipv4 (addr : HevSocks5Addr) (ipv4 : list Z) (port : Z)
  : option (HevSocks5Addr * Z) :=
  addr ← wr8 addr off_atype HEV_SOCKS5_ADDR_TYPE_IPV4;
  addr ← memcpy addr off_ipv4_addr ipv4 4;
  addr ← store16 addr off_ipv4_port port;
  Some (addr, 7).

Definition hev_socks5_addr_from_ipv6 (addr : HevSocks5Addr) (ipv6 : list Z) (port : Z)
  : option (HevSocks5Addr * Z) :=
  addr ← wr8 addr off_atype HEV_SOCKS5_ADDR_TYPE_IPV6;
  addr ← memcpy addr off_ipv6_addr ipv6 16;
  addr ← store16 addr off_ipv6_port port;
  Some (addr, 19).

(** ** Socket addresses *)

(** The prefix ::ffff:0:0/96. *)
Definition v4mapped : list Z := replicate 10 0 ++ [255; 255].
Definition IN6_IS_ADDR_V4MAPPED (a : list Z) : bool := bool_decide (take 12 a = v4mapped).

Definition hev_socks5_addr_from_sockaddr6 (addr : HevSocks5Addr) (saddr : sockaddr_in6)
  : option (HevSocks5Addr * Z) :=
  if IN6_IS_ADDR_V4MAPPED (sin6_addr saddr) then
    addr ← wr8 addr off_atype HEV_SOCKS5_ADDR_TYPE_IPV4;
    addr ← memcpy addr off_ipv4_port (sin6_port saddr) 2;
    addr ← memcpy addr off_ipv4_addr (drop 12 (sin6_addr saddr)) 4;
    Some (addr, 7)
  else
    addr ← wr8 addr off_atype HEV_SOCKS5_ADDR_TYPE_IPV6;
    addr ← memcpy addr off_ipv6_port (sin6_port saddr) 2;
    addr ← memcpy addr off_ipv6_addr (sin6_addr saddr) 16;
    Some (addr, 19).

Definition hev_socks5_ipv4_into_sockaddr6 (addr : HevSocks5Addr) : option sockaddr_in6 :=
  p ← rdn addr off_ipv4_port 2;
  a ← rdn addr off_ipv4_addr 4;
  Some (mkSA AF_INET6 p (v4mapped ++ a)).

Definition hev_socks5_ipv6_into_sockaddr6 (addr : HevSocks5Addr) : option sockaddr_in6 :=
  p ← rdn addr off_ipv6_port 2;
  a ← rdn addr off_ipv6_addr 16;
  Some (mkSA AF_INET6 p a).

(** libc's [inet_pton], for each family. *)
Class Pton := {
  inet_pton4 : list Z -> option (list Z);
  inet_pton6 : list Z -> option (list Z);
  inet_pton4_len : forall s a, inet_pton4 s = Some a -> length a = 4%nat;
  inet_pton6_len : forall s a, inet_pton6 s = Some a -> length a = 16%nat;
}.

(** [char name[256]]. *)
Definition name_buf : list Z := replicate 256 0.

Section resolve.
Context {X : Type} `{Kernel} `{Pton}.

Definition set_addr (a : list Z) (s : sockaddr_in6) : sockaddr_in6 :=
  mkSA (sin6_family s) (sin6_port s) a.

Definition hev_socks5_name_resolve_ipv4 (name : list Z) (saddr : sockaddr_in6)
  : sockaddr_in6 * Z :=
  match inet_pton4 name with
  | None => (set_addr (replicate 10 0 ++ drop 10 (sin6_addr saddr)) saddr, -1)
  | Some a => (set_addr (v4mapped ++ a) saddr, 0)
  end.

Definition hev_socks5_name_resolve_ipv6 (name : list Z) (saddr : sockaddr_in6)
  : sockaddr_in6 * Z :=
  match inet_pton6 name with
  | None => (saddr, -1)
  | Some a => (set_addr a saddr, 0)
  end.

(** The resolver returns the family of the first result, or a negative number
    when there is none; an IPv4 result's address has four bytes. *)
Definition hev_socks5_name_resolve_name (name : list Z) (saddr : sockaddr_in6) (family : Z)
  : M (X * World) (sockaddr_in6 * Z * Z) :=
  '(r, sa) ← sys_addr (CGetaddrinfo name family);
  if Z.ltb r 0 then mret (saddr, family, -1)
  else if Z.eqb r AF_INET then
    mret (set_addr (v4mapped ++ take 4 (sin6_addr sa)) saddr, HEV_SOCKS5_ADDR_FAMILY_IPV4, 0)
  else if Z.eqb r AF_INET6 then
    mret (set_addr (take 16 (sin6_addr sa)) saddr, HEV_SOCKS5_ADDR_FAMILY_IPV6, 0)
  else mret (saddr, family, -1).

Definition hev_socks5_name_into_sockaddr6 (name : list Z) (port : Z) (saddr : sockaddr_in6)
    (family : Z) : M (X * World) (sockaddr_in6 * Z * Z) :=
  let saddr := mkSA AF_INET6 (le16 (htons port)) (sin6_addr saddr) in
  let '(saddr, res) := hev_socks5_name_resolve_ipv4 name saddr in
  if Z.eqb res 0 then mret (saddr, HEV_SOCKS5_ADDR_FAMILY_IPV4, 0) else
  let '(saddr, res) := hev_socks5_name_resolve_ipv6 name saddr in
  if Z.eqb res 0 then mret (saddr, HEV_SOCKS5_ADDR_FAMILY_IPV6, 0) else
  hev_socks5_name_resolve_name name saddr family.

Definition hev_socks5_addr_into_sockaddr6 (addr : HevSocks5Addr) (saddr : sockaddr_in6)
    (family : Z) : M (X * World) (sockaddr_in6 * Z * Z) :=
  t ← mem (rd8 addr off_atype);
  if Z.eqb t HEV_SOCKS5_ADDR_TYPE_IPV4 then
    s ← mem (hev_socks5_ipv4_into_sockaddr6 addr); mret (s, HEV_SOCKS5_ADDR_FAMILY_IPV4, 0)
  else if Z.eqb t HEV_SOCKS5_ADDR_TYPE_IPV6 then
    s ← mem (hev_socks5_ipv6_into_sockaddr6 addr); mret (s, HEV_SOCKS5_ADDR_FAMILY_IPV6, 0)
  else if Z.eqb t HEV_SOCKS5_ADDR_TYPE_NAME then
    l ← mem (rd8 addr off_domain_len);
    n ← mem (rdn addr off_domain_addr l);
    name ← mem (memcpy name_buf 0 n l);
    name ← mem (wr8 name l 0);
    p ← mem (load16 addr (off_domain_addr + l));
    cname ← mem (c_string name 0);
    hev_socks5_name_into_sockaddr6 cname (ntohs p) saddr family
  else mret (saddr, family, -1).

End resolve.

(** ** Addresses of the TCP stack *)

Inductive ip_addr_t := IpV4 (a : list Z) | IpV6 (a : list Z) | IpAny.

(** The host's load of the four bytes of an IPv4 address. *)
Definition le32 (a : list Z) : Z := foldr (fun b n => b + 256 * n) 0 a.

(** [lookup]: the mapped DNS cache, when there is one. *)
Definition hev_socks5_addr_from_lwip {S} (lookup : Z -> M S (option (list Z)))
    (addr : HevSocks5Addr) (ip : ip_addr_t) (port : Z) : M S (HevSocks5Addr * Z) :=
  match ip with
  | IpV4 a =>
      name ← lookup (ntohl (le32 a));
      match name with
      | Some name => '(addr, _) ← mlift (hev_socks5_addr_from_name addr name (htons port));
                     mret (addr, 0)
      | None => '(addr, _) ← mlift (hev_socks5_addr_from_ipv4 addr a (htons port));
                mret (addr, 0)
      end
  | IpV6 a => '(addr, _) ← mlift (hev_socks5_addr_from_ipv6 addr a (htons port));
              mret (addr, 0)
  | IpAny => mret (addr, -1)
  end.

Definition hev_socks5_addr_into_lwip (addr : HevSocks5Addr) : option (option (ip_addr_t * Z)) :=
  t ← rd8 addr off_atype;
  if Z.eqb t HEV_SOCKS5_ADDR_TYPE_IPV4 then
    a ← rdn addr off_ipv4_addr 4; p ← load16 addr off_ipv4_port;
    Some (Some (IpV4 a, ntohs p))
  else if Z.eqb t HEV_SOCKS5_ADDR_TYPE_IPV6 then
    a ← rdn addr off_ipv6_addr 16; p ← load16 addr off_ipv6_port;
    Some (Some (IpV6 a, ntohs p))
  else Some None.

(** ** Destinations and their encoding *)

Inductive Dest :=
| DIp4 (a : list Z) (port : Z)
| DIp6 (a : list Z) (port : Z)
| DName (n : list Z) (port : Z).

Definition dest_ok (d : Dest) : Prop :=
  match d with
  | DIp4 a p => length a = 4%nat /\ bytes_ok a /\ 0 <= p < 65536
  | DIp6 a p => length a = 16%nat /\ bytes_ok a /\ 0 <= p < 65536
  | DName n p => Z.of_nat (length n) < 256 /\ bytes_ok n /\ nonzero n /\ 0 <= p < 65536
  end.

(** RFC 1928, section 5, with the port. *)
Definition wire (d : Dest) : list Z :=
  match d with
  | DIp4 a p => 1 :: a ++ be16 p
  | DIp6 a p => 4 :: a ++ be16 p
  | DName n p => 3 :: Z.of_nat (length n) :: n ++ be16 p
  end.

(** The structure at [b] holds destination [d]. *)
Definition addr_is (b : HevSocks5Addr) (d : Dest) : Prop := exists r, b = wire d ++ r.

Lemma length_be16 p : length (be16 p) = 2%nat.
Proof. done. Qed.

Lemma rdn_app l x r off n : off = Z.of_nat (length l) -> n = Z.of_nat (length x) ->
  rdn (l ++ x ++ r) off n = Some x.
Proof.
  intros -> ->. unfold rdn. rewrite !length_app.
  destruct (Z.ltb_spec (Z.of_nat (length l)) 0); [lia|].
  destruct (Z.ltb_spec (Z.of_nat (length x)) 0); [lia|]. simpl.
  destruct (Z.ltb_spec (Z.of_nat (length l + (length x + length r)))
    (Z.of_nat (length l) + Z.of_nat (length x))); [lia|].
  rewrite !Nat2Z.id, drop_app_length, take_app_length. done.
Qed.

Lemma memcpy_app l x r off src n : off = Z.of_nat (length l) -> n = Z.of_nat (length x) ->
  (length x <= length src)%nat ->
  memcpy (l ++ x ++ r) off src n = Some (l ++ take (length x) src ++ r).
Proof.
  intros -> -> Hs. unfold memcpy. rewrite !length_app.
  destruct (Z.ltb_spec (Z.of_nat (length l)) 0); [lia|].
  destruct (Z.ltb_spec (Z.of_nat (length x)) 0); [lia|].
  destruct (Z.ltb_spec (Z.of_nat (length src)) (Z.of_nat (length x))); [lia|]. simpl.
  destruct (Z.ltb_spec (Z.of_nat (length l + (length x + length r)))
    (Z.of_nat (length l) + Z.of_nat (length x))); [lia|].
  rewrite !Nat2Z.id, take_app_length. do 3 f_equal.
  replace (Z.to_nat (Z.of_nat (length l) + Z.of_nat (length x)))
    with (length l + length x)%nat by lia.
  rewrite app_assoc, drop_app_length'; [done|]. by rewrite length_app.
Qed.

Lemma store16_app l x y r off v : off = Z.of_nat (length l) ->
  store16 (l ++ x :: y :: r) off v = Some (l ++ le16 v ++ r).
Proof.
  intros ->. unfold store16. rewrite wr8_app by done. simpl.
  replace (l ++ u8 v :: y :: r) with ((l ++ [u8 v]) ++ y :: r) by (by rewrite <- app_assoc).
  rewrite wr8_app by (rewrite length_app; simpl; lia). by rewrite <- app_assoc.
Qed.

Lemma load16_app l x y r off : off = Z.of_nat (length l) ->
  load16 (l ++ x :: y :: r) off = Some (of_le16 x y).
Proof.
  intros ->. unfold load16. rewrite !rd8_app_r by lia.
  rewrite Z.sub_diag. replace (Z.of_nat (length l) + 1 - Z.of_nat (length l)) with 1 by lia.
  done.
Qed.

Lemma rd8_middle l x r off : off = Z.of_nat (length l) -> rd8 (l ++ x :: r) off = Some x.
Proof. intros ->. rewrite rd8_app_r by lia. by rewrite Z.sub_diag. Qed.

Lemma split_at (b : list Z) (n : nat) : (n <= length b)%nat ->
  exists x r, b = x ++ r /\ length x = n.
Proof.
  intros. exists (take n b), (drop n b). rewrite take_drop, length_take. split; [done|lia].
Qed.

Lemma list_len2 (l : list Z) : length l = 2%nat -> exists x y, l = [x; y].
Proof. destruct l as [|x [|y [|]]]; try done. by exists x, y. Qed.
