(* ===== verification/AddrSpec.v ===== *)
(** * SOCKS5 addresses hold what they were made from: lemmas *)
From S2P Require Import Prelude CInt Effect SockIO Addr.

Lemma le_port p : 0 <= p < 65536 -> ntohs (of_le16 (u8 (Z.shiftr p 8)) (u8 p)) = p.
Proof.
  intros Hp. rewrite ntohs_le16 by apply u8_ok. by apply of_be16_be16.
Qed.

Lemma wr8_0 x r v : wr8 (x :: r) 0 v = Some (u8 v :: r).
Proof. by apply (wr8_app []). Qed.

(** ** Making addresses *)

Lemma addr_from_ip b n at_ a p :
  (n + 3 <= length b)%nat -> length a = n -> 0 <= p < 65536 -> 0 <= at_ < 256 ->
  (addr ← wr8 b 0 at_; addr ← memcpy addr 1 a (Z.of_nat n);
   store16 addr (1 + Z.of_nat n) (htons p)) = Some (at_ :: a ++ be16 p ++ drop (n + 3) b).
Proof.
  intros Hb Ha Hp Hat. destruct b as [|x b]; [simpl in Hb; lia|]. simpl in Hb.
  destruct (split_at b n) as (a0 & b0 & -> & Ha0); [lia|]. rewrite length_app in Hb.
  destruct (split_at b0 2) as (p0 & r & -> & Hp0); [lia|].
  destruct (list_len2 _ Hp0) as (p1 & p2 & ->).
  rewrite wr8_0. simpl. rewrite u8_id by (unfold byte_ok; lia).
  change (at_ :: a0 ++ p1 :: p2 :: r) with ([at_] ++ a0 ++ p1 :: p2 :: r).
  rewrite memcpy_app by (simpl; lia). simpl mbind. rewrite take_ge by lia.
  change (at_ :: a ++ p1 :: p2 :: r) with ((at_ :: a) ++ p1 :: p2 :: r).
  rewrite store16_app by (simpl; lia). rewrite le16_htons by done. simpl.
  do 5 f_equal. rewrite <- Ha0.
  replace (length a0 + 3)%nat with (S (length a0 + 2)) by lia. simpl.
  by rewrite <- drop_drop, drop_app_length.
Qed.

Lemma addr_from_ipv4_ok b a p :
  (7 <= length b)%nat -> length a = 4%nat -> 0 <= p < 65536 ->
  hev_socks5_addr_from_ipv4 b a (htons p) = Some (wire (DIp4 a p) ++ drop 7 b, 7).
Proof.
  intros Hb Ha Hp. pose proof (addr_from_ip b 4 1 a p ltac:(lia) Ha Hp ltac:(lia)) as H.
  unfold hev_socks5_addr_from_ipv4. simpl in H. change (Z.of_nat 4) with 4 in H.
  destruct (wr8 b 0 1) as [b1|] eqn:E1; [|discriminate H].
  unfold off_atype, HEV_SOCKS5_ADDR_TYPE_IPV4. rewrite E1. simpl in *.
  destruct (memcpy b1 1 a 4) as [b2|] eqn:E2; [|discriminate H].
  unfold off_ipv4_addr. rewrite E2. simpl in *. unfold off_ipv4_port.
  change (1 + 4) with 5 in H. rewrite H. simpl. by rewrite <- app_assoc.
Qed.

Lemma addr_from_ipv6_ok b a p :
  (19 <= length b)%nat -> length a = 16%nat -> 0 <= p < 65536 ->
  hev_socks5_addr_from_ipv6 b a (htons p) = Some (wire (DIp6 a p) ++ drop 19 b, 19).
Proof.
  intros Hb Ha Hp. pose proof (addr_from_ip b 16 4 a p ltac:(lia) Ha Hp ltac:(lia)) as H.
  unfold hev_socks5_addr_from_ipv6. simpl in H. change (Z.of_nat 16) with 16 in H.
  destruct (wr8 b 0 4) as [b1|] eqn:E1; [|discriminate H].
  unfold off_atype, HEV_SOCKS5_ADDR_TYPE_IPV6. rewrite E1. simpl in *.
  destruct (memcpy b1 1 a 16) as [b2|] eqn:E2; [|discriminate H].
  unfold off_ipv6_addr. rewrite E2. simpl in *. unfold off_ipv6_port.
  change (1 + 16) with 17 in H. rewrite H. simpl. by rewrite <- app_assoc.
Qed.

Lemma c_string_app l s r off : off = Z.of_nat (length l) -> nonzero s ->
  c_string (l ++ s ++ 0 :: r) off = Some s.
Proof.
  intros -> Hs. unfold c_string. destruct (Z.ltb_spec (Z.of_nat (length l)) 0); [lia|].
  rewrite Nat2Z.id, drop_app_length. by apply c_string_from_app.
Qed.

Lemma addr_from_name_ok b n p :
  Z.of_nat (length b) = sizeof_addr -> Z.of_nat (length n) < 256 -> nonzero n ->
  0 <= p < 65536 ->
  exists r, hev_socks5_addr_from_name b n (htons p) =
    Some (wire (DName n p) ++ r, 4 + Z.of_nat (length n)).
Proof.
  unfold sizeof_addr. intros Hb Hn Hnz Hp.
  destruct b as [|x0 [|x1 b]]; [done..|]. simpl in Hb.
  destruct (split_at b 256) as (pad & tl & -> & Hpad); [lia|].
  unfold hev_socks5_addr_from_name, off_atype, HEV_SOCKS5_ADDR_TYPE_NAME.
  rewrite wr8_0. simpl. unfold strncpy.
  rewrite take_ge by lia.
  change (u8 3 :: x1 :: pad ++ tl) with ([u8 3; x1] ++ pad ++ tl).
  rewrite memcpy_app; [|done|lia|rewrite length_app, length_replicate; lia]. simpl mbind.
  rewrite take_ge by (rewrite length_app, length_replicate; lia).
  set (k := (Z.to_nat 256 - length n)%nat).
  assert (1 <= k)%nat as Hk by (unfold k; lia).
  destruct k as [|k']; [lia|]. simpl.
  change (u8 3 :: x1 :: (n ++ 0 :: replicate k' 0) ++ tl)
    with ([u8 3; x1] ++ (n ++ 0 :: replicate k' 0) ++ tl).
  rewrite <- (app_assoc n). simpl app.
  change (u8 3 :: x1 :: n ++ 0 :: replicate k' 0 ++ tl)
    with ([u8 3; x1] ++ n ++ 0 :: (replicate k' 0 ++ tl)).
  rewrite c_string_app by done. simpl.
  change (u8 3 :: x1 :: n ++ 0 :: replicate k' 0 ++ tl)
    with ([u8 3] ++ x1 :: n ++ 0 :: replicate k' 0 ++ tl).
  rewrite wr8_app by done. simpl.
  unfold off_domain_len, off_domain_addr.
  change (u8 3 :: u8 (Z.of_nat (length n)) :: n ++ 0 :: replicate k' 0 ++ tl)
    with ([u8 3] ++ u8 (Z.of_nat (length n)) :: n ++ 0 :: replicate k' 0 ++ tl).
  rewrite (u8_id (Z.of_nat (length n))) by (unfold byte_ok; lia).
  rewrite length_app in Hb.
  assert (exists y r, replicate k' 0 ++ tl = y :: r) as (y & r & ->).
  { destruct (replicate k' 0 ++ tl) as [|y r] eqn:E; [|by eauto].
    apply (f_equal length) in E. rewrite length_app, length_replicate in E. simpl in E. lia. }
  change ([u8 3] ++ Z.of_nat (length n) :: n ++ 0 :: y :: r)
    with ((u8 3 :: Z.of_nat (length n) :: n) ++ 0 :: y :: r).
  rewrite store16_app by (simpl; lia). rewrite le16_htons by done.
  exists r. simpl. by rewrite <- app_assoc.
Qed.

(** ** Reading addresses *)

Lemma addr_len_ok b d : dest_ok d -> addr_is b d ->
  hev_socks5_addr_len b = Some (Z.of_nat (length (wire d))).
Proof.
  intros Hd [r ->]. destruct d as [a p|a p|n p]; simpl in Hd |- *;
    rewrite ?length_app, ?length_be16; unfold hev_socks5_addr_len; simpl;
    [destruct Hd as [-> _]; done..|].
  do 2 f_equal. simpl. lia.
Qed.

(** The fields of the wire form. *)
Lemma wire_ip_fields at_ a p r (n := length a) :
  rdn ((at_ :: a ++ be16 p) ++ r) 1 (Z.of_nat n) = Some a /\
  rdn ((at_ :: a ++ be16 p) ++ r) (1 + Z.of_nat n) 2 = Some (be16 p) /\
  load16 ((at_ :: a ++ be16 p) ++ r) (1 + Z.of_nat n) =
    Some (of_le16 (u8 (Z.shiftr p 8)) (u8 p)).
Proof.
  simpl. rewrite <- !app_assoc. split_and!.
  - change (at_ :: a ++ be16 p ++ r) with ([at_] ++ a ++ be16 p ++ r). by apply rdn_app.
  - change (at_ :: a ++ be16 p ++ r) with ((at_ :: a) ++ be16 p ++ r).
    apply rdn_app; [simpl; lia|done].
  - change (at_ :: a ++ be16 p ++ r) with ((at_ :: a) ++ u8 (Z.shiftr p 8) :: u8 p :: r).
    apply load16_app. simpl. lia.
Qed.

#[local] Arguments be16 : simpl never.

(** Where a destination that needs no resolving leads. *)
Definition dest_sa (d : Dest) : option (sockaddr_in6 * Z) :=
  match d with
  | DIp4 a p => Some (mkSA AF_INET6 (be16 p) (v4mapped ++ a), AF_INET)
  | DIp6 a p => Some (mkSA AF_INET6 (be16 p) a, AF_INET6)
  | DName _ _ => None
  end.

Section resolve.
Context {X : Type} `{Kernel} `{Pton}.
Implicit Types (st : X * World).

Lemma addr_into_sockaddr6_ip b d sa fam sa0 f0 st Q :
  dest_ok d -> addr_is b d -> dest_sa d = Some (sa, fam) -> Q st (sa, fam, 0) ->
  mwp (hev_socks5_addr_into_sockaddr6 b sa0 f0) st Q.
Proof.
  intros Hd [r ->] Hsa HQ. destruct d as [a p|a p|n p]; [| |done]; simpl in Hsa; inv_some;
    destruct Hd as (Ha & _ & Hp); unfold hev_socks5_addr_into_sockaddr6.
  - pose proof (wire_ip_fields 1 a p r) as (E1 & E2 & _). rewrite Ha in E1, E2.
    change (1 + Z.of_nat 4) with 5 in E2. change (Z.of_nat 4) with 4 in E1.
    simpl wire. mstep. eapply mwp_mem; [done|]. simpl. mstep.
    eapply mwp_mem; [|by mstep]. unfold hev_socks5_ipv4_into_sockaddr6.
    unfold off_ipv4_port, off_ipv4_addr. simpl in *. rewrite E2. simpl mbind. by rewrite E1.
  - pose proof (wire_ip_fields 4 a p r) as (E1 & E2 & _). rewrite Ha in E1, E2.
    change (1 + Z.of_nat 16) with 17 in E2. change (Z.of_nat 16) with 16 in E1.
    simpl wire. mstep. eapply mwp_mem; [done|]. simpl. mstep.
    eapply mwp_mem; [|by mstep]. unfold hev_socks5_ipv6_into_sockaddr6.
    unfold off_ipv6_port, off_ipv6_addr. simpl in *. rewrite E2. simpl mbind. by rewrite E1.
Qed.

(** A name is resolved as a C string, with its port. *)
Lemma addr_into_sockaddr6_name b n p sa0 f0 st Q :
  dest_ok (DName n p) -> addr_is b (DName n p) ->
  mwp (hev_socks5_name_into_sockaddr6 n p sa0 f0) st Q ->
  mwp (hev_socks5_addr_into_sockaddr6 b sa0 f0) st Q.
Proof.
  intros (Hn & Hb & Hnz & Hp) [r ->] HQ. unfold hev_socks5_addr_into_sockaddr6. simpl.
  mstep. eapply mwp_mem; [done|]. simpl.
  mstep. eapply mwp_mem; [done|]. mstep. rewrite <- app_assoc.
  change (3 :: Z.of_nat (length n) :: n ++ be16 p ++ r)
    with ([3; Z.of_nat (length n)] ++ n ++ be16 p ++ r).
  eapply mwp_mem; [by apply rdn_app|].
  destruct (split_at (replicate 256 0) (length n)) as (z & zr & Ez & Hz).
  { rewrite length_replicate. lia. }
  assert (exists zr', zr = 0 :: zr') as [zr' ->].
  { destruct zr as [|y zr'].
    - apply (f_equal length) in Ez. rewrite length_replicate, length_app in Ez. simpl in Ez. lia.
    - exists zr'. f_equal. assert (y ∈ replicate 256 0) as Hy by (rewrite Ez; set_solver).
      by apply elem_of_replicate in Hy as [-> _]. }
  mstep. eapply mwp_mem.
  { unfold name_buf. rewrite Ez. apply (memcpy_app []); [done|lia|lia]. }
  rewrite take_ge by lia. simpl app.
  mstep. eapply mwp_mem; [by apply wr8_app|]. mstep.
  eapply mwp_mem.
  { change (3 :: Z.of_nat (length n) :: n ++ be16 p ++ r)
      with ((3 :: Z.of_nat (length n) :: n) ++ u8 (Z.shiftr p 8) :: u8 p :: r).
    apply (load16_app (3 :: Z.of_nat (length n) :: n)). simpl. unfold off_domain_addr. lia. }
  mstep. eapply mwp_mem; [apply (c_string_app [] n); done|].
  by rewrite le_port.
Qed.

End resolve.

(** ** From socket addresses *)

Definition sa_ok (sa : sockaddr_in6) : Prop :=
  length (sin6_port sa) = 2%nat /\ bytes_ok (sin6_port sa) /\ length (sin6_addr sa) = 16%nat.

Definition sa_port (sa : sockaddr_in6) : Z :=
  match sin6_port sa with [a; b] => of_be16 a b | _ => 0 end.

Definition sa_dest (sa : sockaddr_in6) : Dest :=
  if IN6_IS_ADDR_V4MAPPED (sin6_addr sa) then DIp4 (drop 12 (sin6_addr sa)) (sa_port sa)
  else DIp6 (sin6_addr sa) (sa_port sa).

Lemma be16_of_be16 a b : byte_ok a -> byte_ok b -> be16 (of_be16 a b) = [a; b].
Proof.
  unfold byte_ok, be16, of_be16, u8. intros. rewrite Z.shiftr_div_pow2 by lia.
  change (2 ^ 8) with 256. f_equal; [dlia|]. f_equal. dlia.
Qed.

Lemma be16_sa_port sa : sa_ok sa -> be16 (sa_port sa) = sin6_port sa.
Proof.
  intros (Hl & Hb & _). unfold sa_port. destruct (list_len2 _ Hl) as (a & b & E).
  rewrite E in *. apply Forall_cons in Hb as [? Hb]. apply Forall_cons in Hb as [? _].
  by apply be16_of_be16.
Qed.

Lemma addr_from_sockaddr6_ok b sa :
  (19 <= length b)%nat -> sa_ok sa ->
  exists r, hev_socks5_addr_from_sockaddr6 b sa =
    Some (wire (sa_dest sa) ++ r, Z.of_nat (length (wire (sa_dest sa)))).
Proof.
  intros Hb Hsa. pose proof (be16_sa_port _ Hsa) as Hp. destruct Hsa as (Hl & _ & Ha).
  unfold hev_socks5_addr_from_sockaddr6, sa_dest.
  destruct b as [|x b]; [simpl in Hb; lia|]. simpl in Hb.
  unfold off_atype. rewrite !wr8_0. simpl.
  destruct (IN6_IS_ADDR_V4MAPPED (sin6_addr sa)).
  - destruct (split_at b 4) as (a0 & b0 & -> & Ha0); [lia|]. rewrite length_app in Hb.
    destruct (split_at b0 2) as (p0 & r & -> & Hp0); [lia|].
    change (u8 HEV_SOCKS5_ADDR_TYPE_IPV4 :: a0 ++ p0 ++ r) with ((u8 1 :: a0) ++ p0 ++ r).
    unfold off_ipv4_port. rewrite memcpy_app; [|simpl; lia..]. simpl mbind.
    rewrite take_ge by lia. simpl app.
    change (u8 1 :: a0 ++ sin6_port sa ++ r) with ([u8 1] ++ a0 ++ sin6_port sa ++ r).
    unfold off_ipv4_addr. rewrite memcpy_app; [|simpl; rewrite ?length_drop; lia..].
    simpl mbind. rewrite take_ge by (rewrite length_drop; lia).
    exists r. simpl wire. rewrite Hp. simpl. rewrite <- !app_assoc. f_equal. f_equal.
    rewrite length_app, length_drop, Hl, Ha. done.
  - destruct (split_at b 16) as (a0 & b0 & -> & Ha0); [lia|]. rewrite length_app in Hb.
    destruct (split_at b0 2) as (p0 & r & -> & Hp0); [lia|].
    change (u8 HEV_SOCKS5_ADDR_TYPE_IPV6 :: a0 ++ p0 ++ r) with ((u8 4 :: a0) ++ p0 ++ r).
    unfold off_ipv6_port. rewrite memcpy_app; [|simpl; lia..]. simpl mbind.
    rewrite take_ge by lia. simpl app.
    change (u8 4 :: a0 ++ sin6_port sa ++ r) with ([u8 4] ++ a0 ++ sin6_port sa ++ r).
    unfold off_ipv6_addr. rewrite memcpy_app; [|simpl; lia..].
    simpl mbind. rewrite take_ge by lia.
    exists r. simpl wire. rewrite Hp. simpl. rewrite <- !app_assoc. f_equal. f_equal.
    rewrite length_app, Hl, Ha. done.
Qed.
