(* ===== verification/AddrProps.v ===== *)
(** * Properties of the address conversions *)
From S2P Require Import Prelude CInt Effect SockIO Addr AddrSpec MappedDNS MappedDNSSpec MappedDNSQuery MappedDNSProps.

(** ** Between the TCP stack and the proxy protocol *)

Definition ip_dest (ip : ip_addr_t) (port : Z) : Dest :=
  match ip with IpV4 a => DIp4 a port | IpV6 a => DIp6 a port | IpAny => DIp4 [] port end.

Definition ip_ok (ip : ip_addr_t) : Prop :=
  match ip with
  | IpV4 a => length a = 4%nat /\ bytes_ok a
  | IpV6 a => length a = 16%nat /\ bytes_ok a
  | IpAny => False
  end.

Definition no_names (ip : Z) : M () (option (list Z)) := mret None.

Lemma addr_into_lwip_ok b ip port :
  ip_ok ip -> 0 <= port < 65536 -> addr_is b (ip_dest ip port) ->
  hev_socks5_addr_into_lwip b = Some (Some (ip, port)).
Proof.
  intros Hip Hp [r ->]. destruct ip as [a|a|]; [| |done]; destruct Hip as [Ha Hb];
    unfold hev_socks5_addr_into_lwip.
  - pose proof (wire_ip_fields 1 a port r) as (E1 & _ & E2). rewrite Ha in E1, E2.
    change (1 + Z.of_nat 4) with 5 in E2. change (Z.of_nat 4) with 4 in E1.
    simpl in *. unfold off_ipv4_addr, off_ipv4_port. rewrite E1. simpl. rewrite E2. simpl.
    by rewrite le_port.
  - pose proof (wire_ip_fields 4 a port r) as (E1 & _ & E2). rewrite Ha in E1, E2.
    change (1 + Z.of_nat 16) with 17 in E2. change (Z.of_nat 16) with 16 in E1.
    simpl in *. unfold off_ipv6_addr, off_ipv6_port. rewrite E1. simpl. rewrite E2. simpl.
    by rewrite le_port.
Qed.

Lemma addr_from_lwip_ip {S} (lookup : Z -> M S (option (list Z))) b ip port s Q :
  (19 <= length b)%nat -> ip_ok ip -> 0 <= port < 65536 ->
  (forall a, ip = IpV4 a -> mwp (lookup (ntohl (le32 a))) s (fun s' r => r = None /\ s' = s)) ->
  (forall r, Q s (wire (ip_dest ip port) ++ r, 0)) ->
  mwp (hev_socks5_addr_from_lwip lookup b ip port) s Q.
Proof.
  intros Hb Hip Hp Hl HQ. destruct ip as [a|a|]; [| |done]; destruct Hip as [Ha _];
    unfold hev_socks5_addr_from_lwip.
  - mstep. eapply mwp_mono; [by apply Hl|]. intros s' r [-> ->]. cbv beta.
    mstep. eapply mwp_lift; [by apply addr_from_ipv4_ok; [lia|..]|]. cbv beta iota. mstep. apply HQ.
  - mstep. eapply mwp_lift; [by apply addr_from_ipv6_ok|]. cbv beta iota. mstep. apply HQ.
Qed.

(** C21: A well-formed IPv4 or IPv6 address of the TCP stack, and port, that the
    mapped DNS knows no name for (for the others see C22) is encoded for the proxy exactly as RFC 1928 says, [hev_socks5_addr_len]
    gives the length of the encoding, and decoding gives the address and port
    back. *)
Theorem lwip_addr_roundtrip b ip port :
  (19 <= length b)%nat -> ip_ok ip -> 0 <= port < 65536 ->
  mwp (hev_socks5_addr_from_lwip no_names b ip port) () (fun _ '(addr, res) =>
    res = 0 /\ (exists r, addr = wire (ip_dest ip port) ++ r) /\
    hev_socks5_addr_len addr = Some (Z.of_nat (length (wire (ip_dest ip port)))) /\
    hev_socks5_addr_into_lwip addr = Some (Some (ip, port))).
Proof.
  intros Hb Hip Hp. apply addr_from_lwip_ip; [done..| |].
  - intros a _. unfold no_names. by mstep.
  - intros r. split; [done|]. split; [by exists r|].
    assert (addr_is (wire (ip_dest ip port) ++ r) (ip_dest ip port)) as Hi by by exists r.
    split; [|by apply addr_into_lwip_ok].
    apply addr_len_ok; [|done]. destruct ip; [| |done]; simpl in *; naive_solver.
Qed.

Lemma lwip_addr_roundtrip_witness :
  mwp (hev_socks5_addr_from_lwip no_names (replicate 260 0) (IpV4 [93; 184; 216; 34]) 443) ()
    (fun _ '(addr, res) => res = 0 /\
       (exists r, addr = [1; 93; 184; 216; 34; 1; 187] ++ r) /\
       hev_socks5_addr_len addr = Some 7 /\
       hev_socks5_addr_into_lwip addr = Some (Some (IpV4 [93; 184; 216; 34], 443))).
Proof.
  apply (lwip_addr_roundtrip (replicate 260 0) (IpV4 [93; 184; 216; 34]) 443).
  - simpl. lia.
  - split; [reflexivity|]. repeat constructor; lia.
  - lia.
Defined.

(** ** Names *)

Lemma be32_arith v : 0 <= v < 2 ^ 32 ->
  be32 v = [v / 16777216; v / 65536 mod 256; v / 256 mod 256; v mod 256].
Proof.
  intros Hv. unfold be32, u8. rewrite !Z.shiftr_div_pow2 by lia.
  change (2 ^ 24) with 16777216. change (2 ^ 16) with 65536. change (2 ^ 8) with 256.
  f_equal. apply Z.mod_small. dlia.
Qed.

Lemma lor_shift k hi lo : 0 <= k -> 0 <= lo < 2 ^ k -> Z.lor (Z.shiftl hi k) lo = hi * 2 ^ k + lo.
Proof.
  intros Hk Hlo. rewrite Z.shiftl_mul_pow2 by done. rewrite <- Z.add_lor_land.
  replace (Z.land (hi * 2 ^ k) lo) with 0; [lia|].
  symmetry. apply Z.bits_inj'. intros i Hi. rewrite Z.land_spec, Z.bits_0.
  destruct (Z.ltb_spec i k).
  - by rewrite Z.mul_pow2_bits_low.
  - destruct (decide (lo = 0)) as [->|]; [by rewrite Z.bits_0, andb_false_r|].
    rewrite (Z.bits_above_log2 lo i); [apply andb_false_r|lia|].
    assert (Z.log2 lo < k); [|lia]. apply Z.log2_lt_pow2; lia.
Qed.

Lemma ntohl_arith b0 b1 b2 b3 : byte_ok b0 -> byte_ok b1 -> byte_ok b2 -> byte_ok b3 ->
  ntohl (le32 [b0; b1; b2; b3]) = 16777216 * b0 + 65536 * b1 + 256 * b2 + b3.
Proof.
  unfold byte_ok. intros H0 H1 H2 H3. unfold ntohl, le32. simpl foldr.
  generalize (eq_refl (b0 + 256 * (b1 + 256 * (b2 + 256 * (b3 + 256 * 0))))).
  generalize (b0 + 256 * (b1 + 256 * (b2 + 256 * (b3 + 256 * 0)))) at 2 3 4 5 6. intros v Hv.
  change 255 with (Z.ones 8). rewrite !Z.land_ones by lia.
  rewrite !Z.shiftr_div_pow2 by lia.
  change (2 ^ 24) with 16777216. change (2 ^ 16) with 65536. change (2 ^ 8) with 256.
  replace (v mod 256) with b0 by dlia.
  replace (v / 256 mod 256) with b1 by dlia.
  replace (v / 65536 mod 256) with b2 by dlia.
  replace (v / 16777216 mod 256) with b3 by dlia.
  rewrite (lor_shift 8 b2 b3) by lia.
  replace (Z.shiftl b0 24) with (Z.shiftl (Z.shiftl b0 8) 16)
    by (rewrite Z.shiftl_shiftl by lia; done).
  rewrite <- Z.shiftl_lor. rewrite (lor_shift 8 b0 b1) by lia.
  rewrite lor_shift by lia. lia.
Qed.

Lemma ntohl_be32 v : 0 <= v < 2 ^ 32 -> ntohl (le32 (be32 v)) = v.
Proof.
  intros Hv. rewrite be32_arith by done. rewrite ntohl_arith; unfold byte_ok; dlia.
Qed.

(** C22: the domain name an application resolved is the name the proxy is asked
    to connect to.  The cache gives [nm] a number [i], unless it has no block for
    a new node (-1); the DNS answer holds the
    address [net | i] (MappedDNSProps); when the application connects to that address, at
    any port, the destination sent to the proxy is the domain name [nm] with that
    port and not the made-up address.  This holds as long as the names looked up
    since, other than [nm], are fewer than the capacity, for a name of less than
    256 bytes, a network address under a prefix mask, and while there is memory
    for the copies of the names. *)
Theorem resolved_name_reaches_proxy `{Allocator} `{!StrdupWorks} fuel self l nm xs others k b port :
  dns_rep self l -> 1 <= max self -> (S (Z.to_nat (max self)) < fuel)%nat ->
  0 <= k -> Z.lnot (mask self) = Z.ones k -> max self <= Z.ones k ->
  Z.land (net self) (Z.lnot (mask self)) = 0 ->
  Forall (fun x => x = nm \/ x ∈ others) xs -> NoDup others ->
  Z.of_nat (length others) < max self ->
  Z.of_nat (length nm) < 256 -> nonzero nm -> Z.of_nat (length b) = sizeof_addr ->
  0 <= port < 65536 -> (forall i, 0 <= i < max self -> 0 <= Z.lor (net self) i < 2 ^ 32) ->
  wp ('(self, i) ← hev_mapped_dns_find fuel self nm; self ← finds fuel self xs;
      Some (self, i))
    (fun '(self, i) => i <> -1 ->
       mwp (hev_socks5_addr_from_lwip (fun ip s => hev_mapped_dns_lookup s ip) b
              (IpV4 (be32 (Z.lor (net self) i))) port) self
         (fun _ '(addr, res) => res = 0 /\ exists r, addr = wire (DName nm port) ++ r)).
Proof.
  intros Hrep Hmax Hf Hk Hmask Hle Hnet Hxs Hnd Hcap Hnm Hnz Hb Hp Hip.
  eapply wp_mono; [by apply (find_finds_lookup fuel self l nm xs others k)|].
  intros [self2 i] [(Em & En & Ek) Hl] Hi. unfold hev_socks5_addr_from_lwip. mstep.
  destruct Hl as ([self3 r] & Hl & [?|[Hi2 ->]]); [done|].
  exists self3, (Some nm). rewrite ntohl_be32 by (rewrite En; by apply Hip). split; [done|].
  destruct (addr_from_name_ok b nm port Hb Hnm Hnz Hp) as [r Hr].
  mstep. eapply mwp_lift; [done|]. cbv beta iota. mstep. split; [done|]. by exists r.
Qed.

Lemma resolved_name_reaches_proxy_witness :
  wp ('(self, i) ← hev_mapped_dns_find 10 demo_cache name_ab; self ← finds 10 self [name_c];
      Some (self, i))
    (fun '(self, i) => i <> -1 ->
       mwp (hev_socks5_addr_from_lwip (fun ip s => hev_mapped_dns_lookup s ip)
              (replicate 260 0) (IpV4 (be32 (Z.lor (net self) i))) 443) self
         (fun _ '(addr, res) => res = 0 /\ exists r, addr = wire (DName name_ab 443) ++ r)).
Proof.
  apply (resolved_name_reaches_proxy 10 demo_cache [] name_ab [name_c] [name_c] 22
    (replicate 260 0) 443).
  - exact demo_cache_rep.
  - done.
  - simpl. lia.
  - done.
  - reflexivity.
  - vm_compute. discriminate.
  - reflexivity.
  - repeat constructor; set_solver.
  - apply NoDup_singleton.
  - simpl. lia.
  - simpl. lia.
  - repeat constructor; lia.
  - reflexivity.
  - lia.
  - intros i Hi. assert (i = 0 \/ i = 1) as [->| ->] by (simpl in Hi; lia); vm_compute;
      split; congruence.
Defined.

(** ** Socket addresses *)

Definition no_pton : Pton.
Proof.
  by refine {| inet_pton4 := fun _ => None; inet_pton6 := fun _ => None |}.
Defined.

Definition quiet_kernel : Kernel := {|
  k_ret := fun _ _ => 0; k_addr := fun _ _ => mkSA AF_INET6 [0; 0] (replicate 16 0) |}.

(** A destination that is an address converts to the socket address of the
    same host and port, IPv4 as IPv4-mapped IPv6, without any system call, and
    that socket address converts back to exactly the same bytes. *)
Theorem sockaddr_roundtrip {X} `{Kernel} `{Pton} b b' d sa0 f0 (st : X * World) :
  dest_ok d -> addr_is b d -> (19 <= length b')%nat ->
  (forall n p, d <> DName n p) ->
  (forall a p, d = DIp6 a p -> IN6_IS_ADDR_V4MAPPED a = false) ->
  mwp (hev_socks5_addr_into_sockaddr6 b sa0 f0) st (fun st' '(sa, family, res) =>
    st' = st /\ res = 0 /\
    family = match d with DIp4 _ _ => AF_INET | _ => AF_INET6 end /\
    exists r, hev_socks5_addr_from_sockaddr6 b' sa =
      Some (wire d ++ r, Z.of_nat (length (wire d)))).
Proof.
  intros Hd Hi Hb' Hn H6.
  assert (exists sa fam, dest_sa d = Some (sa, fam) /\
    fam = match d with DIp4 _ _ => AF_INET | _ => AF_INET6 end /\ sa_ok sa /\ sa_dest sa = d)
    as (sa & fam & Hsa & Hfam & Hok & Hdest).
  { destruct d as [a p|a p|n p]; [| |by destruct (Hn n p)]; destruct Hd as (Ha & Hb & Hp);
      eexists _, _; (split; [done|]); (split; [done|]).
    - split; [repeat split; [repeat constructor; apply u8_ok|]|].
      + unfold v4mapped. simpl. lia.
      + unfold sa_dest. simpl. unfold sa_port, IN6_IS_ADDR_V4MAPPED. simpl sin6_port.
        unfold be16. by rewrite of_be16_be16.
    - split; [repeat split; [repeat constructor; apply u8_ok|done]|].
      unfold sa_dest. simpl. rewrite (H6 a p eq_refl). unfold sa_port. simpl.
      by rewrite of_be16_be16. }
  eapply addr_into_sockaddr6_ip; [done..|]. split_and!; [done|done|done|].
  rewrite <- Hdest. by apply addr_from_sockaddr6_ok.
Qed.

Lemma sockaddr_roundtrip_witness :
  mwp (@hev_socks5_addr_into_sockaddr6 () quiet_kernel no_pton
    (wire (DIp4 [93; 184; 216; 34] 443)) (mkSA 0 [0; 0] (replicate 16 0)) AF_UNSPEC)
    ((), mkWorld [] [] [] []) (fun st' '(sa, family, res) =>
    st' = ((), mkWorld [] [] [] []) /\ res = 0 /\ family = AF_INET /\
    exists r, hev_socks5_addr_from_sockaddr6 (replicate 260 0) sa =
      Some (wire (DIp4 [93; 184; 216; 34] 443) ++ r, 7)).
Proof.
  apply (@sockaddr_roundtrip () quiet_kernel no_pton (wire (DIp4 [93; 184; 216; 34] 443))
    (replicate 260 0) (DIp4 [93; 184; 216; 34] 443)).
  - split; [reflexivity|]. split; [repeat constructor; lia|lia].
  - exists []. by rewrite app_nil_r.
  - simpl. lia.
  - done.
  - done.
Defined.
