(* ===== verification/Socks5.v ===== *)
(** * The SOCKS5 base object and its sockets (hev-socks5.c, hev-socks5-misc.c) *)
From S2P Require Import Prelude CInt Effect SockIO Addr.

(** ** The object *)

Definition HEV_SOCKS5_TYPE_NONE : Z := 0.
Definition HEV_SOCKS5_TYPE_TCP : Z := 1.
Definition HEV_SOCKS5_TYPE_UDP_IN_TCP : Z := 2.
Definition HEV_SOCKS5_TYPE_UDP_IN_UDP : Z := 3.

Record HevSocks5 := mkSocks5 {
  fd : Z;
  timeout : Z;
  udp_associated : Z;
  stype : Z;
  addr_family : Z;
}.

Definition set_fd v s := mkSocks5 v (timeout s) (udp_associated s) (stype s) (addr_family s).
Definition hev_socks5_set_timeout v s :=
  mkSocks5 (fd s) v (udp_associated s) (stype s) (addr_family s).
Definition set_udp_associated v s :=
  mkSocks5 (fd s) (timeout s) v (stype s) (addr_family s).
Definition set_stype v s :=
  mkSocks5 (fd s) (timeout s) (udp_associated s) v (addr_family s).
Definition hev_socks5_set_addr_family v s :=
  mkSocks5 (fd s) (timeout s) (udp_associated s) (stype s) v.
Definition hev_socks5_get_timeout (s : HevSocks5) : Z := timeout s.
Definition hev_socks5_get_addr_family (s : HevSocks5) : Z := addr_family s.

Definition hev_socks5_construct (type : Z) : HevSocks5 :=
  mkSocks5 (-1) (-1) 0 type HEV_SOCKS5_ADDR_FAMILY_UNSPEC.

(** ** Settings *)

(** The process-wide variables of hev-socks5-misc.c. *)
Record Settings := mkSettings {
  connect_timeout : Z;
  tcp_timeout : Z;
  udp_timeout : Z;
  task_stack_size : Z;
  udp_recv_buffer_size : Z;
  udp_copy_buffer_nums : Z;
}.

Definition default_settings : Settings := mkSettings 10000 300000 60000 8192 524288 10.

(** ** Waiting *)

Definition HEV_TASK_YIELD : Z := 0.
Definition HEV_TASK_WAITIO : Z := 1.

(** [slept]: what is left of the timeout when [hev_task_sleep] returns. *)
Definition hev_socks5_task_io_yielder (self : HevSocks5) (type slept : Z) : Z :=
  if Z.eqb type HEV_TASK_YIELD then 0
  else if Z.ltb (timeout self) 0 then 0
  else if Z.leb slept 0 then -1
  else 0.

(** ** Sockets *)

Definition SOCK_STREAM : Z := 1.
Definition SOCK_DGRAM : Z := 2.

Section sockets.
Context {X : Type} `{Kernel}.

Definition hev_socks5_socket (type : Z) : M (X * World) Z :=
  fd ← sys (CSocket type);
  if Z.ltb fd 0 then mret (-1) else
  res ← sys (CSetsockopt fd);
  if Z.ltb res 0 then _ ← sys (CClose fd); mret (-1) else
  res ← sys (CTaskAddFd fd);
  _ ← (if Z.ltb res 0 then sys_ (CTaskModFd fd) else mret ());
  _ ← (if Z.eqb type SOCK_DGRAM then sys_ (CSetsockopt fd) else mret ());
  mret fd.

(** The end of every failed attempt with a descriptor. *)
Definition close_failed (fd : Z) : M (X * World) Z :=
  _ ← sys (CTaskDelFd fd);
  _ ← sys (CClose fd);
  mret (-1).

End sockets.
