(* ===== verification/Descriptors.v ===== *)
(** * Descriptors are not leaked: shared lemmas *)
From S2P Require Import Prelude CInt Effect SockIO Addr Socks5.

Lemma filter_notin (f : Z) (l : list Z) : f ∉ l -> filter (fun x => x <> f) l = l.
Proof.
  induction l as [|y l IH]; [done|]. intros [Hne Hl]%not_elem_of_cons.
  rewrite filter_cons_True by done. by rewrite IH.
Qed.

(** [own]: the descriptors the object's fields hold; [l]: the others; [φ]: what
    else is known of the object. *)
Definition fds_are {X} (φ : X -> Prop) (own : X -> list Z) (l : list Z) (s : X * World) : Prop :=
  φ s.1 /\ NoDup (open_fds (w_trace s.2)) /\ open_fds (w_trace s.2) ≡ₚ (own s.1 ++ l).

Section descriptors.
Context {X : Type} `{Kernel} (Hfresh : fresh_fds).
Implicit Types (φ : X -> Prop) (own : X -> list Z).

Definition no_fd_call (c : call) : Prop :=
  match c with CSocket _ | CClose _ => False | _ => True end.

Lemma keeps_sys φ own l c : no_fd_call c -> keeps (fds_are φ own l) (sys c).
Proof. intros Hc [x w] [x' w'] r Hs [= <- <- <-]. by destruct c. Qed.

Lemma keeps_sys_ φ own l c : no_fd_call c -> keeps (fds_are φ own l) (sys_ c).
Proof. intros Hc. unfold sys_. apply keeps_bind; [by apply keeps_sys|]. intros. apply keeps_ret. Qed.

Lemma keeps_sys_addr φ own l c : no_fd_call c -> keeps (fds_are φ own l) (sys_addr c).
Proof. intros Hc [x w] [x' w'] r Hs [= <- <- <-]. by destruct c. Qed.

Lemma keeps_recv φ own l n : keeps (fds_are φ own l) (hev_task_io_socket_recv n).
Proof.
  intros [x w] [x' w'] r Hs. unfold hev_task_io_socket_recv.
  destruct (recv_loop _ _ _ _) as [[rx r'] b]. by intros [= <- <- <-].
Qed.

Lemma keeps_send φ own l b : keeps (fds_are φ own l) (hev_task_io_socket_send b).
Proof.
  intros [x w] [x' w'] r Hs. unfold hev_task_io_socket_send.
  destruct (send_loop _ _ _) as [[tx r'] o]. by intros [= <- <- <-].
Qed.

Lemma keeps_sendmsg φ own l b : keeps (fds_are φ own l) (hev_task_io_socket_sendmsg b).
Proof. apply keeps_send. Qed.

Lemma keeps_get_self φ own l : keeps (fds_are φ own l) get_self.
Proof. by intros [x w] [x' w'] r Hs [= <- <- <-]. Qed.

Lemma keeps_mem {A} φ own l (o : option A) : keeps (fds_are φ own l) (mem o).
Proof. apply keeps_lift. Qed.

(** A descriptor that is open besides those of the object. *)
Definition with_fd φ own l (f : Z) (s : X * World) : Prop :=
  (f ∉ (own s.1 ++ l)) /\ fds_are φ own (f :: l) s.

Lemma hoare_close φ own l f : hoare (with_fd φ own l f) (sys (CClose f)) (fun s _ => fds_are φ own l s).
Proof.
  intros [x w] [x' w'] r [Hf (Hφ & Hnd & Hs)] [= <- <- <-]. unfold fds_are in *. simpl in *.
  split; [done|]. split; [by apply NoDup_filter|].
  rewrite Hs, <- Permutation_middle, filter_cons_False by (by intros []).
  by rewrite filter_notin.
Qed.

Lemma hoare_socket φ own l type :
  hoare (fds_are φ own l) (hev_socks5_socket type) (fun s f =>
    (f < 0 /\ fds_are φ own l s) \/ (0 <= f /\ with_fd φ own l f s)).
Proof.
  unfold hev_socks5_socket.
  eapply hoare_bind with (R := fun s f => (f < 0 /\ fds_are φ own l s) \/ (0 <= f /\ with_fd φ own l f s)).
  { intros [x w] [x' w'] r Hs [= <- <- <-]. unfold with_fd, fds_are in *. simpl.
    destruct Hs as (Hφ & Hnd & Hs). simpl in Hφ, Hnd.
    pose proof (Hfresh (w_trace w) type) as Hn0. pose proof Hn0 as Hn. simpl in Hs. rewrite Hs in Hn.
    destruct (Z.ltb_spec (k_ret (w_trace w) (CSocket type)) 0); [left|right]; (split; [done|]); [done|].
    split; [done|]. split; [done|]. split; [by apply NoDup_cons|]. rewrite Hs. by rewrite Permutation_middle. }
  intros f. destruct (Z.ltb_spec f 0).
  { apply hoare_ret. intros s [[? ?]|[? ?]]; [|lia]. left. split; [lia|done]. }
  assert (forall Y (m : M (X * World) Y),
    keeps (fun s => (f ∉ (own s.1 ++ l)) /\ fds_are φ own (f :: l) s) m ->
    hoare (fun s => (f < 0 /\ fds_are φ own l s) \/ (0 <= f /\ with_fd φ own l f s)) m
      (fun s _ => with_fd φ own l f s)) as Hkeep.
  { intros Y m Hm. eapply hoare_weaken; [exact Hm| |done].
    intros s [[? _]|[_ Hs]]; [lia|done]. }
  assert (forall c, no_fd_call c -> keeps (fun s => (f ∉ (own s.1 ++ l)) /\ fds_are φ own (f :: l) s) (sys c))
    as Hsys.
  { intros c Hc [x w] [x' w'] r Hs [= <- <- <-]. by destruct c. }
  eapply hoare_bind; [by apply Hkeep, Hsys|]. intros res.
  destruct (Z.ltb res 0).
  { eapply hoare_bind; [apply hoare_close|]. intros ?. apply hoare_ret.
    intros s Hs. left. split; [lia|done]. }
  eapply hoare_weaken with (P' := with_fd φ own l f) (Q' := fun s r => r = f /\ with_fd φ own l f s).
  2: done.
  2: { intros s a [-> Hs]. by right. }
  eapply hoare_bind; [by apply Hsys|]. intros res2.
  eapply hoare_bind with (R := fun s _ => with_fd φ own l f s).
  { destruct (Z.ltb res2 0); [|by apply keeps_ret].
    unfold sys_. apply keeps_bind; [by apply Hsys|]. intros. apply keeps_ret. }
  intros ?. eapply hoare_bind with (R := fun s _ => with_fd φ own l f s).
  { destruct (Z.eqb type SOCK_DGRAM); [|by apply keeps_ret].
    unfold sys_. apply keeps_bind; [by apply Hsys|]. intros. apply keeps_ret. }
  intros ?. by apply hoare_ret.
Qed.

Lemma keeps_with_fd_sys φ own l f c : no_fd_call c -> keeps (with_fd φ own l f) (sys c).
Proof. intros Hc [x w] [x' w'] r Hs [= <- <- <-]. by destruct c. Qed.

Lemma keeps_with_fd_sys_addr φ own l f c : no_fd_call c -> keeps (with_fd φ own l f) (sys_addr c).
Proof. intros Hc [x w] [x' w'] r Hs [= <- <- <-]. by destruct c. Qed.

Lemma hoare_close_failed φ own l f :
  hoare (with_fd φ own l f) (close_failed f) (fun s _ => fds_are φ own l s).
Proof.
  unfold close_failed.
  eapply hoare_bind; [by apply keeps_with_fd_sys|]. intros ?.
  eapply hoare_bind; [apply hoare_close|]. intros ?. by apply hoare_ret.
Qed.

(** The state of an object that is being destroyed. *)
Definition open_is (x : X) (L : list Z) (s : X * World) : Prop :=
  s.1 = x /\ NoDup (open_fds (w_trace s.2)) /\ open_fds (w_trace s.2) ≡ₚ L.

Lemma hoare_close_is x L f :
  hoare (open_is x (f :: L)) (sys (CClose f)) (fun s _ => open_is x L s).
Proof.
  intros [x0 w] [x' w'] r (Hx & Hnd & Hs) [= <- <- <-]. unfold open_is in *. simpl in *.
  split; [done|]. split; [by apply NoDup_filter|].
  rewrite Hs in Hnd |- *. apply NoDup_cons in Hnd as [Hf _].
  rewrite filter_cons_False by (by intros []). by rewrite filter_notin.
Qed.

Lemma keeps_open_is x L c : no_fd_call c -> keeps (open_is x L) (sys c).
Proof. intros Hc [x0 w] [x' w'] r Hs [= <- <- <-]. by destruct c. Qed.

(** Deregistering and closing a descriptor, if there is one. *)
Definition fdl (f : Z) : list Z := if Z.leb 0 f then [f] else [].

Lemma hoare_close_field x L f :
  hoare (open_is x (fdl f ++ L))
    (if Z.leb 0 f then _ ← sys (CTaskDelFd f); _ ← sys (CClose f); mret () else mret ())
    (fun s _ => open_is x L s).
Proof.
  unfold fdl. destruct (Z.leb 0 f); [|by apply hoare_ret].
  eapply hoare_bind; [by apply keeps_open_is|]. intros ?.
  eapply hoare_bind; [apply hoare_close_is|]. intros ?. by apply hoare_ret.
Qed.

End descriptors.

#[export] Hint Resolve keeps_recv keeps_send keeps_sendmsg keeps_get_self keeps_mem : keeps.
#[export] Hint Extern 1 (keeps _ (sys _)) => apply keeps_sys; exact I : keeps.
#[export] Hint Extern 1 (keeps _ (sys_ _)) => apply keeps_sys_; exact I : keeps.
#[export] Hint Extern 1 (keeps _ (sys_addr _)) => apply keeps_sys_addr; exact I : keeps.

Section resolver.
Context {X : Type} `{Kernel} `{Pton}.

Lemma keeps_name_into_sockaddr6 (φ : X -> Prop) (own : X -> list Z) l name port sa f :
  keeps (fds_are φ own l) (hev_socks5_name_into_sockaddr6 name port sa f).
Proof.
  unfold hev_socks5_name_into_sockaddr6.
  destruct (hev_socks5_name_resolve_ipv4 _ _) as [sa1 r1]. destruct (Z.eqb r1 0); [keeps_tac|].
  destruct (hev_socks5_name_resolve_ipv6 _ _) as [sa2 r2]. destruct (Z.eqb r2 0); [keeps_tac|].
  unfold hev_socks5_name_resolve_name. keeps_tac.
Qed.

Lemma keeps_addr_into_sockaddr6 (φ : X -> Prop) (own : X -> list Z) l a sa f :
  keeps (fds_are φ own l) (hev_socks5_addr_into_sockaddr6 a sa f).
Proof.
  unfold hev_socks5_addr_into_sockaddr6. keeps_tac. apply keeps_name_into_sockaddr6.
Qed.

End resolver.
#[export] Hint Resolve keeps_name_into_sockaddr6 keeps_addr_into_sockaddr6 : keeps.
