(* ===== verification/Client.v ===== *)
(** * The SOCKS5 client (hev-socks5-client.c, hev-socks5-client-tcp.c,
    hev-socks5-client-udp.c) *)
From S2P Require Import Prelude CInt Effect SockIO Addr Socks5.

(** ** State *)

(** [c_addr] is the TCP client's destination, [c_fd] the UDP client's socket. *)
Record HevSocks5Client := mkClient {
  c_base : HevSocks5;
  c_user : option (list Z);
  c_pass : option (list Z);
  c_addr : option HevSocks5Addr;
  c_fd : Z;
}.

Definition map_base f c := mkClient (f (c_base c)) (c_user c) (c_pass c) (c_addr c) (c_fd c).
Definition set_c_addr v c := mkClient (c_base c) (c_user c) (c_pass c) v (c_fd c).
Definition set_c_fd v c := mkClient (c_base c) (c_user c) (c_pass c) (c_addr c) v.

Definition hev_socks5_client_set_auth (user pass : option (list Z)) (c : HevSocks5Client) :=
  mkClient (c_base c) user pass (c_addr c) (c_fd c).

Abbreviation MC := (M (HevSocks5Client * World)).

(** The virtual methods. *)
Class ClientClass := {
  get_upstream_addr : MC (option HevSocks5Addr);
  set_upstream_addr : HevSocks5Addr -> MC Z;
}.

Definition get_base : MC HevSocks5 := c ← get_self; mret (c_base c).
Definition upd_base (f : HevSocks5 -> HevSocks5) : MC () :=
  c ← get_self; set_self (map_base f c).

(** ** Messages *)

Section client.
Context `{Kernel} `{Pton} (cfg : Settings).

Definition hev_socks5_client_write_auth_methods : MC Z :=
  self ← get_self;
  let method := match c_user self, c_pass self with
    | Some _, Some _ => HEV_SOCKS5_AUTH_METHOD_USER
    | _, _ => HEV_SOCKS5_AUTH_METHOD_NONE
    end in
  res ← hev_task_io_socket_send [HEV_SOCKS5_VERSION_5; 1; method];
  if Z.leb res 0 then mret (-1) else mret 0.

Definition hev_socks5_client_write_auth_creds : MC Z :=
  self ← get_self;
  match c_user self, c_pass self with
  | Some user, Some pass =>
      let ub1 := u8 (Z.of_nat (length user)) in
      let ub2 := u8 (Z.of_nat (length pass)) in
      res ← hev_task_io_socket_sendmsg
        [[HEV_SOCKS5_AUTH_VERSION_1; ub1]; take (Z.to_nat ub1) user; [ub2];
         take (Z.to_nat ub2) pass];
      if Z.leb res 0 then mret (-1) else mret 0
  | _, _ => mret 0
  end.

Definition req_cmd (type : Z) : option Z :=
  if Z.eqb type HEV_SOCKS5_TYPE_TCP then Some HEV_SOCKS5_REQ_CMD_CONNECT
  else if Z.eqb type HEV_SOCKS5_TYPE_UDP_IN_TCP then Some HEV_SOCKS5_REQ_CMD_FWD_UDP
  else if Z.eqb type HEV_SOCKS5_TYPE_UDP_IN_UDP then Some HEV_SOCKS5_REQ_CMD_UDP_ASC
  else None.

Definition req_addrlen (addr : HevSocks5Addr) : option (option Z) :=
  atype ← rd8 addr off_atype;
  if Z.eqb atype HEV_SOCKS5_ADDR_TYPE_IPV4 then Some (Some 7)
  else if Z.eqb atype HEV_SOCKS5_ADDR_TYPE_IPV6 then Some (Some 19)
  else if Z.eqb atype HEV_SOCKS5_ADDR_TYPE_NAME then
    l ← rd8 addr off_domain_len; Some (Some (4 + l))
  else Some None.

(** A null upstream address is dereferenced. *)
Definition hev_socks5_client_write_request `{ClientClass} : MC Z :=
  base ← get_base;
  match req_cmd (stype base) with
  | None => mret (-1)
  | Some cmd =>
      a ← get_upstream_addr;
      addr ← mem a;
      len ← mem (req_addrlen addr);
      match len with
      | None => mret (-1)
      | Some addrlen =>
          piece ← mem (rdn addr 0 addrlen);
          ret ← hev_task_io_socket_sendmsg [[HEV_SOCKS5_VERSION_5; cmd; 0]; piece];
          if Z.leb ret 0 then mret (-1)
          else _ ← sys CFree; mret 0
      end
  end.

Definition hev_socks5_client_read_auth_method : MC Z :=
  '(res, auth) ← hev_task_io_socket_recv 2;
  if negb (Z.eqb res 2) then mret (-1) else
  ver ← mem (rd8 auth 0);
  if negb (Z.eqb ver HEV_SOCKS5_VERSION_5) then mret (-1) else
  mem (rd8 auth 1).

Definition hev_socks5_client_read_auth_creds : MC Z :=
  '(ret, res) ← hev_task_io_socket_recv 2;
  if negb (Z.eqb ret 2) then mret (-1) else
  ver ← mem (rd8 res 0);
  if negb (Z.eqb ver HEV_SOCKS5_AUTH_VERSION_1) then mret (-1) else
  rep ← mem (rd8 res 1);
  if negb (Z.eqb rep HEV_SOCKS5_RES_REP_SUCC) then mret (-1) else
  mret 0.

Definition hev_socks5_client_read_response `{ClientClass} : MC Z :=
  '(ret, res) ← hev_task_io_socket_recv 4;
  if negb (Z.eqb ret 4) then mret (-1) else
  ver ← mem (rd8 res 0);
  if negb (Z.eqb ver HEV_SOCKS5_VERSION_5) then mret (-1) else
  rep ← mem (rd8 res 1);
  if negb (Z.eqb rep HEV_SOCKS5_RES_REP_SUCC) then mret (-1) else
  atype ← mem (rd8 res 3);
  let addrlen :=
    if Z.eqb atype HEV_SOCKS5_ADDR_TYPE_IPV4 then 6
    else if Z.eqb atype HEV_SOCKS5_ADDR_TYPE_IPV6 then 18 else -1 in
  if Z.ltb addrlen 0 then mret (-1) else
  '(ret, addr) ← hev_task_io_socket_recv addrlen;
  if negb (Z.eqb ret addrlen) then mret (-1) else
  ret ← set_upstream_addr (atype :: addr);
  if Z.ltb ret 0 then mret (-1) else mret 0.

(** ** Connecting *)

Definition zero_sa : sockaddr_in6 := mkSA 0 [0; 0] (replicate 16 0).

Definition hev_socks5_client_connect (addr : list Z) (port : Z) : MC Z :=
  _ ← upd_base (hev_socks5_set_timeout (connect_timeout cfg));
  base ← get_base;
  '(saddr, family, res) ←
    hev_socks5_name_into_sockaddr6 addr port zero_sa (hev_socks5_get_addr_family base);
  if Z.ltb res 0 then mret (-1) else
  fd ← hev_socks5_socket SOCK_STREAM;
  if Z.ltb fd 0 then mret (-1) else
  res ← sys (CBinder fd);
  if Z.ltb res 0 then close_failed fd else
  res ← sys (CConnect fd saddr);
  if Z.ltb res 0 then close_failed fd else
  _ ← upd_base (set_fd fd);
  _ ← upd_base (hev_socks5_set_addr_family family);
  mret 0.

(** ** The handshake *)

Definition hev_socks5_client_handshake_standard `{ClientClass} : MC Z :=
  res ← hev_socks5_client_write_auth_methods;
  if Z.ltb res 0 then mret (-1) else
  res ← hev_socks5_client_read_auth_method;
  if Z.ltb res 0 then mret (-1) else
  res ← (if Z.eqb res HEV_SOCKS5_AUTH_METHOD_USER then
           res ← hev_socks5_client_write_auth_creds;
           if Z.ltb res 0 then mret (-1) else
           hev_socks5_client_read_auth_creds
         else if Z.eqb res HEV_SOCKS5_AUTH_METHOD_NONE then mret 0 else mret (-1));
  if Z.ltb res 0 then mret (-1) else
  res ← hev_socks5_client_write_request;
  if Z.ltb res 0 then mret (-1) else
  res ← hev_socks5_client_read_response;
  if Z.ltb res 0 then mret (-1) else mret 0.

Definition hev_socks5_client_handshake_pipeline `{ClientClass} : MC Z :=
  res ← hev_socks5_client_write_auth_methods;
  if Z.ltb res 0 then mret (-1) else
  res ← hev_socks5_client_write_auth_creds;
  if Z.ltb res 0 then mret (-1) else
  res ← hev_socks5_client_write_request;
  if Z.ltb res 0 then mret (-1) else
  res ← hev_socks5_client_read_auth_method;
  if Z.ltb res 0 then mret (-1) else
  res ← (if Z.eqb res HEV_SOCKS5_AUTH_METHOD_USER then hev_socks5_client_read_auth_creds
         else if Z.eqb res HEV_SOCKS5_AUTH_METHOD_NONE then mret 0 else mret (-1));
  if Z.ltb res 0 then mret (-1) else
  res ← hev_socks5_client_read_response;
  if Z.ltb res 0 then mret (-1) else mret 0.

Definition hev_socks5_client_handshake `{ClientClass} (pipeline : bool) : MC Z :=
  _ ← upd_base (hev_socks5_set_timeout (tcp_timeout cfg));
  res ← (if pipeline then hev_socks5_client_handshake_pipeline
         else hev_socks5_client_handshake_standard);
  base ← get_base;
  _ ← (if (Z.eqb (stype base) HEV_SOCKS5_TYPE_UDP_IN_TCP
           || Z.eqb (stype base) HEV_SOCKS5_TYPE_UDP_IN_UDP)%bool
       then upd_base (hev_socks5_set_timeout (udp_timeout cfg)) else mret ());
  mret res.

(** ** The TCP client *)

Definition hev_socks5_client_construct (type : Z) : HevSocks5Client :=
  mkClient (hev_socks5_construct type) None None None 0.

(** [None] when memory is short; the address is copied at its exact length. *)
Definition hev_socks5_client_tcp_construct (addr : HevSocks5Addr) : MC Z :=
  _ ← set_self (hev_socks5_client_construct HEV_SOCKS5_TYPE_TCP);
  res ← mem (hev_socks5_addr_len addr);
  p ← sys (CMalloc res);
  if Z.eqb p 0 then mret (-1) else
  copy ← mem (rdn addr 0 res);
  self ← get_self;
  _ ← set_self (set_c_addr (Some copy) self);
  mret 0.

Definition hev_socks5_client_tcp_get_upstream_addr : MC (option HevSocks5Addr) :=
  self ← get_self;
  _ ← set_self (set_c_addr None self);
  mret (c_addr self).

Definition hev_socks5_client_tcp_set_upstream_addr (addr : HevSocks5Addr) : MC Z := mret 0.

Definition tcp_client : ClientClass := {|
  get_upstream_addr := hev_socks5_client_tcp_get_upstream_addr;
  set_upstream_addr := hev_socks5_client_tcp_set_upstream_addr |}.

(** ** The UDP client *)

Definition hev_socks5_client_udp_construct (type : Z) : MC Z :=
  _ ← set_self (set_c_fd (-1) (hev_socks5_client_construct type)); mret 0.

Definition malloc0_addr (size atype : Z) : MC (option HevSocks5Addr) :=
  p ← sys (CMalloc size);
  if Z.eqb p 0 then mret None
  else addr ← mem (wr8 (replicate (Z.to_nat size) 0) off_atype atype); mret (Some addr).

Definition hev_socks5_client_udp_get_upstream_addr : MC (option HevSocks5Addr) :=
  base ← get_base;
  let family := hev_socks5_get_addr_family base in
  if Z.eqb family HEV_SOCKS5_ADDR_FAMILY_IPV4 then malloc0_addr 7 HEV_SOCKS5_ADDR_TYPE_IPV4
  else if Z.eqb family HEV_SOCKS5_ADDR_FAMILY_IPV6 then
    malloc0_addr 19 HEV_SOCKS5_ADDR_TYPE_IPV6
  else mret None.

Definition hev_socks5_client_udp_set_upstream_addr (addr : HevSocks5Addr) : MC Z :=
  base ← get_base;
  if negb (Z.eqb (stype base) HEV_SOCKS5_TYPE_UDP_IN_UDP) then mret 0 else
  '(saddr, _, res) ←
    hev_socks5_addr_into_sockaddr6 addr zero_sa (hev_socks5_get_addr_family base);
  if Z.ltb res 0 then mret (-1) else
  fd ← hev_socks5_socket SOCK_DGRAM;
  if Z.ltb fd 0 then mret (-1) else
  res ← sys (CBinder fd);
  if Z.ltb res 0 then close_failed fd else
  res ← sys (CConnect fd saddr);
  if Z.ltb res 0 then close_failed fd else
  _ ← upd_base (set_udp_associated 1);
  self ← get_self;
  _ ← set_self (set_c_fd fd self);
  mret 0.

Definition udp_client : ClientClass := {|
  get_upstream_addr := hev_socks5_client_udp_get_upstream_addr;
  set_upstream_addr := hev_socks5_client_udp_set_upstream_addr |}.

Definition hev_socks5_client_udp_get_fd : MC Z :=
  self ← get_self;
  if Z.eqb (stype (c_base self)) HEV_SOCKS5_TYPE_UDP_IN_TCP then mret (fd (c_base self))
  else if Z.eqb (stype (c_base self)) HEV_SOCKS5_TYPE_UDP_IN_UDP then mret (c_fd self)
  else mret (-1).

(** ** Destruction *)

Definition hev_socks5_destruct : MC () :=
  base ← get_base;
  if Z.leb 0 (fd base) then
    _ ← sys (CTaskDelFd (fd base)); _ ← sys (CClose (fd base)); mret ()
  else mret ().

Definition hev_socks5_client_tcp_destruct : MC () :=
  self ← get_self;
  _ ← (match c_addr self with Some _ => sys_ CFree | None => mret () end);
  hev_socks5_destruct.

Definition hev_socks5_client_udp_destruct : MC () :=
  self ← get_self;
  _ ← (if Z.leb 0 (c_fd self) then
         _ ← sys (CTaskDelFd (c_fd self)); _ ← sys (CClose (c_fd self)); mret ()
       else mret ());
  hev_socks5_destruct.

End client.
