(* ===== verification/ClientSpec.v ===== *)
(** * The SOCKS5 client as a function of the peer's stream, and its descriptors: lemmas *)
From S2P Require Import Prelude CInt Effect SockIO Addr AddrSpec Socks5 Descriptors Client.

(** ** Abstract specification (RFC 1928, RFC 1929) *)

(** What the client may say. *)
Record Offer := mkOffer { o_creds : option (list Z * list Z); o_cmd : Z; o_dest : Dest }.

Definition greeting (o : Offer) : list Z :=
  [5; 1; match o_creds o with Some _ => 2 | None => 0 end].
Definition credentials (o : Offer) : list Z :=
  match o_creds o with
  | Some (u, p) => [1; Z.of_nat (length u)] ++ u ++ [Z.of_nat (length p)] ++ p
  | None => []
  end.
Definition request (o : Offer) : list Z := [5; o_cmd o; 0] ++ wire (o_dest o).

(** What the server's replies mean: the method and what follows, ... *)
Definition spec_method (s : list Z) : option (Z * list Z) :=
  match s with
  | v :: m :: s => if Z.eqb v 5 then Some (m, s) else None
  | _ => None
  end.

(** ... what follows a successful answer to the credentials, ... *)
Definition spec_creds (s : list Z) : option (list Z) :=
  match s with
  | v :: r :: s => if (Z.eqb v 1 && Z.eqb r 0)%bool then Some s else None
  | _ => None
  end.

(** ... what follows the authentication, ... *)
Definition spec_auth (s : list Z) : option (list Z) :=
  match spec_method s with
  | Some (m, s) =>
      if Z.eqb m 2 then spec_creds s else if Z.eqb m 0 then Some s else None
  | None => None
  end.

(** ... and the bound address of a successful response. *)
Definition spec_response (s : list Z) : option (HevSocks5Addr * list Z) :=
  match s with
  | v :: r :: _ :: t :: s =>
      if (Z.eqb v 5 && Z.eqb r 0)%bool then
        let n := if Z.eqb t 1 then 6%nat else if Z.eqb t 4 then 18%nat else 0%nat in
        if (Nat.ltb 0 n && Nat.leb n (length s))%bool then Some (t :: take n s, drop n s)
        else None
      else None
  | _ => None
  end.

Definition spec_accepts (s : list Z) : option (HevSocks5Addr * list Z) :=
  spec_auth s ≫= spec_response.

(** What is sent, given the replies. *)
Definition spec_sent (pipeline : bool) (o : Offer) (S : list Z) : list Z :=
  if pipeline then greeting o ++ credentials o ++ request o
  else
    greeting o ++
    match spec_method S with
    | Some (m, _) => if Z.eqb m 2 then credentials o else []
    | None => []
    end ++
    match spec_auth S with Some _ => request o | None => [] end.

(** ** The interface of the virtual methods *)

(** [Inv]: the object is ready to be asked for the address [d]; [Good]: the
    results [set_upstream_addr] may give. *)
Class ClientLaws `{Kernel} (CC : ClientClass) (Inv : HevSocks5Client -> Dest -> Prop)
    (Good : Z -> Prop) := {
  inv_timeout : forall x d t, Inv x d -> Inv (map_base (hev_socks5_set_timeout t) x) d;
  get_upstream_ok : forall x d w S out, Inv x d -> io_at w S out ->
    mwp get_upstream_addr (x, w) (fun '(x', w') r =>
      c_base x' = c_base x /\ io_at w' S out /\ exists a, r = Some a /\ addr_is a d);
  set_upstream_ok : forall x a d w S out, addr_is a d -> dest_ok d -> dest_sa d <> None ->
    io_at w S out ->
    mwp (set_upstream_addr a) (x, w) (fun '(x', w') r => io_at w' S out /\ Good r);
}.

(** The object says what the offer says. *)
Definition offers (x : HevSocks5Client) (o : Offer) : Prop :=
  (match o_creds o with
   | Some (u, p) => c_user x = Some u /\ c_pass x = Some p /\
       Z.of_nat (length u) < 256 /\ Z.of_nat (length p) < 256
   | None => c_user x = None \/ c_pass x = None
   end) /\
  req_cmd (stype (c_base x)) = Some (o_cmd o) /\ dest_ok (o_dest o).

(** ** Sending *)

Section lemmas.
Context `{Kernel} `{Pton}.
Implicit Types (x : HevSocks5Client) (w : World) (S out : list Z).

Lemma write_auth_methods_ok x o w S out Q :
  offers x o -> io_at w S out ->
  (forall w', io_at w' S (out ++ greeting o) -> Q (x, w') 0) ->
  mwp hev_socks5_client_write_auth_methods (x, w) Q.
Proof.
  intros [Ho _] Hio HQ. unfold hev_socks5_client_write_auth_methods.
  mstep. apply mwp_get_self. simpl. mstep.
  eapply io_send; [done|done|]. intros w' Hio' _. simpl. mstep. apply HQ.
  replace (greeting o) with [HEV_SOCKS5_VERSION_5; 1;
    match c_user x, c_pass x with Some _, Some _ => HEV_SOCKS5_AUTH_METHOD_USER
    | _, _ => HEV_SOCKS5_AUTH_METHOD_NONE end]; [done|].
  unfold greeting. destruct (o_creds o) as [[u p]|].
  - by destruct Ho as (-> & -> & _).
  - destruct Ho as [->| ->]; by destruct (c_user x).
Qed.

Lemma write_auth_creds_ok x o w S out Q :
  offers x o -> io_at w S out ->
  (forall w', io_at w' S (out ++ credentials o) -> Q (x, w') 0) ->
  mwp hev_socks5_client_write_auth_creds (x, w) Q.
Proof.
  intros [Ho _] Hio HQ. unfold hev_socks5_client_write_auth_creds.
  mstep. apply mwp_get_self. simpl. destruct (o_creds o) as [[u p]|] eqn:Eo.
  - destruct Ho as (-> & -> & Hu & Hp). mstep.
    eapply io_send; [done|done|]. intros w' Hio' _. cbv beta.
    rewrite (proj2 (Z.leb_gt _ 0)) by (simpl; lia). mstep. apply HQ.
    unfold credentials. rewrite Eo. rewrite !u8_id in Hio' by (unfold byte_ok; lia).
    rewrite !Nat2Z.id, !firstn_all in Hio'. simpl in Hio' |- *. by rewrite app_nil_r in Hio'.
  - assert (io_at w S (out ++ credentials o)) as Hio'
      by (unfold credentials; by rewrite Eo, app_nil_r).
    destruct (c_user x); [|mstep; by apply HQ].
    destruct (c_pass x); [|mstep; by apply HQ]. by destruct Ho.
Qed.

Lemma req_addrlen_ok a d : dest_ok d -> addr_is a d ->
  req_addrlen a = Some (Some (Z.of_nat (length (wire d)))) /\
  rdn a 0 (Z.of_nat (length (wire d))) = Some (wire d).
Proof.
  intros Hd [r ->]. split; [|by apply (rdn_app [])].
  destruct d as [b p|b p|n p]; simpl in Hd |- *; rewrite ?length_app, ?length_be16;
    unfold req_addrlen; simpl; [destruct Hd as [-> _]; done..|].
  do 3 f_equal. simpl. lia.
Qed.

Lemma write_request_ok `{CC : ClientClass} {Inv Good} `{!ClientLaws CC Inv Good} x o w S out Q :
  offers x o -> Inv x (o_dest o) -> io_at w S out ->
  (forall x' w', c_base x' = c_base x -> io_at w' S (out ++ request o) -> Q (x', w') 0) ->
  mwp hev_socks5_client_write_request (x, w) Q.
Proof.
  intros (_ & Hcmd & Hd) Hinv Hio HQ. unfold hev_socks5_client_write_request, get_base.
  mstep. mstep. apply mwp_get_self. mstep. simpl. rewrite Hcmd.
  mstep. eapply mwp_mono; [by eapply get_upstream_ok|].
  intros [x' w1] r (Hb & Hio1 & a & -> & Ha).
  destruct (req_addrlen_ok a (o_dest o) Hd Ha) as [E1 E2].
  mstep. eapply mwp_mem; [done|]. mstep. eapply mwp_mem; [done|]. cbv beta iota.
  mstep. eapply mwp_mem; [done|].
  mstep. eapply io_send; [done|done|]. intros w2 Hio2 _. cbv beta.
  rewrite (proj2 (Z.leb_gt _ 0)) by (simpl; lia). mstep.
  eapply io_sys; [done|]. intros w3 Hio3 _. mstep. apply HQ; [done|].
  revert Hio3. unfold request. simpl. by rewrite app_nil_r.
Qed.

(** ** Receiving *)

Lemma stream_nonneg S i v : bytes_ok S -> S !! i = Some v -> 0 <= v.
Proof. intros Hb Hi. by apply (Forall_lookup_1 _ _ _ _ Hb) in Hi as [? _]. Qed.

Lemma read_auth_method_ok x w S out Q :
  io_at w S out ->
  (forall w' m S', spec_method S = Some (m, S') -> io_at w' S' out -> 0 <= m ->
     Q (x, w') m) ->
  (forall w' S', spec_method S = None -> io_at w' S' out -> Q (x, w') (-1)) ->
  mwp hev_socks5_client_read_auth_method (x, w) Q.
Proof.
  intros Hio HQ HQn. pose proof (io_bytes_ok _ _ _ Hio) as Hb.
  unfold hev_socks5_client_read_auth_method.
  mstep. eapply io_recv; [done|lia|..].
  - intros w' Hle Hio' _. destruct S as [|v [|m S]]; [simpl in Hle; lia..|].
    simpl in *. mstep. eapply mwp_mem; [done|]. simpl.
    unfold HEV_SOCKS5_VERSION_5. destruct (Z.eqb_spec v 5) as [->|]; simpl.
    + eapply mwp_mem; [done|]. rewrite drop_0 in Hio'.
      apply (HQ w' m S); [done|done|]. by apply (stream_nonneg (5 :: m :: S) 1 m).
    + mstep. by eapply HQn.
  - intros w' S' r buf Hlt Hio' _ Hr. cbv beta iota.
    rewrite (proj2 (Z.eqb_neq r 2)) by lia. simpl. mstep. eapply HQn; [|done].
    destruct S as [|v [|m S]]; simpl in *; done || lia.
Qed.

Lemma read_auth_creds_ok x w S out Q :
  io_at w S out ->
  (forall w' S', spec_creds S = Some S' -> io_at w' S' out -> Q (x, w') 0) ->
  (forall w' S', spec_creds S = None -> io_at w' S' out -> Q (x, w') (-1)) ->
  mwp hev_socks5_client_read_auth_creds (x, w) Q.
Proof.
  intros Hio HQ HQn. unfold hev_socks5_client_read_auth_creds.
  mstep. eapply io_recv; [done|lia|..].
  - intros w' Hle Hio' _. destruct S as [|v [|m S]]; [simpl in Hle; lia..|].
    simpl in *. rewrite drop_0 in Hio'. mstep. eapply mwp_mem; [done|]. simpl.
    unfold HEV_SOCKS5_AUTH_VERSION_1, HEV_SOCKS5_RES_REP_SUCC.
    destruct (Z.eqb_spec v 1); simpl; [|mstep; by eapply HQn].
    mstep. eapply mwp_mem; [done|].
    destruct (Z.eqb_spec m 0); simpl; mstep; [by eapply HQ|by eapply HQn].
  - intros w' S' r buf Hlt Hio' _ Hr. cbv beta iota.
    rewrite (proj2 (Z.eqb_neq r 2)) by lia. simpl. mstep. eapply HQn; [|done].
    destruct S as [|v [|m S]]; simpl in *; done || lia.
Qed.

(** The bound address of a response. *)
Lemma response_addr t l : (t = 1 /\ length l = 6%nat) \/ (t = 4 /\ length l = 18%nat) ->
  bytes_ok l ->
  exists d, addr_is (t :: l) d /\ dest_ok d /\ dest_sa d <> None.
Proof.
  intros Ht Hb.
  assert (exists n, length l = (n + 2)%nat /\ (t = 1 /\ n = 4%nat \/ t = 4 /\ n = 16%nat))
    as (n & Hl & Hn).
  { destruct Ht as [[-> E]|[-> E]]; [exists 4%nat|exists 16%nat]; lia. }
  destruct (split_at l n) as (a & p & -> & Ha); [lia|].
  rewrite length_app in Hl. assert (length p = 2%nat) as Hp by lia.
  destruct (list_len2 _ Hp) as (p1 & p2 & ->). apply Forall_app in Hb as [Hba Hbp].
  apply Forall_cons in Hbp as [H1 Hbp]. apply Forall_cons in Hbp as [H2 _].
  pose proof (be16_of_be16 p1 p2 H1 H2) as Hbe.
  assert (0 <= of_be16 p1 p2 < 65536) by (unfold of_be16, byte_ok in *; lia).
  destruct Hn as [[-> ->]|[-> ->]]; [exists (DIp4 a (of_be16 p1 p2))|exists (DIp6 a (of_be16 p1 p2))];
    (split; [exists []; simpl; by rewrite Hbe, app_nil_r|]; done).
Qed.

Lemma read_response_ok `{CC : ClientClass} {Inv Good} `{!ClientLaws CC Inv Good} x w S out Q :
  io_at w S out ->
  (forall x' w' a S' r, spec_response S = Some (a, S') -> io_at w' S' out -> Good r ->
     Q (x', w') (if Z.ltb r 0 then -1 else 0)) ->
  (forall w' S', spec_response S = None -> io_at w' S' out -> Q (x, w') (-1)) ->
  mwp hev_socks5_client_read_response (x, w) Q.
Proof.
  intros Hio HQ HQn. pose proof (io_bytes_ok _ _ _ Hio) as Hb.
  unfold hev_socks5_client_read_response.
  mstep. eapply io_recv; [done|lia|..].
  2: { intros w' S' r buf Hlt Hio' _ Hr. cbv beta iota.
    rewrite (proj2 (Z.eqb_neq r 4)) by lia. simpl. mstep. eapply HQn; [|done].
    destruct S as [|? [|? [|? [|? S]]]]; simpl in *; done || lia. }
  intros w' Hle Hio' _. destruct S as [|v [|rp [|rsv [|t S]]]]; [simpl in Hle; lia..|].
  simpl in *. rewrite drop_0 in Hio'.
  mstep. eapply mwp_mem; [done|]. simpl.
  unfold HEV_SOCKS5_VERSION_5, HEV_SOCKS5_RES_REP_SUCC, HEV_SOCKS5_ADDR_TYPE_IPV4,
    HEV_SOCKS5_ADDR_TYPE_IPV6.
  destruct (Z.eqb_spec v 5); simpl; [|mstep; by eapply HQn].
  mstep. eapply mwp_mem; [done|].
  destruct (Z.eqb_spec rp 0); simpl; [|mstep; by eapply HQn].
  mstep. eapply mwp_mem; [done|]. subst.
  assert (exists n, (n = 0%nat \/ (t = 1 /\ n = 6%nat \/ t = 4 /\ n = 18%nat)) /\
    (if Z.eqb t 1 then 6%nat else if Z.eqb t 4 then 18%nat else 0%nat) = n /\
    (if Z.eqb t 1 then 6 else if Z.eqb t 4 then 18 else -1) =
      if Nat.ltb 0 n then Z.of_nat n else -1) as (n & Hn & E1 & E2).
  { destruct (Z.eqb_spec t 1); [exists 6%nat; auto|].
    destruct (Z.eqb_spec t 4); [exists 18%nat; auto|]. exists 0%nat. auto. }
  cbv zeta in *. rewrite E1 in HQ, HQn. rewrite E2. clear E1 E2.
  destruct (Nat.ltb_spec 0 n) as [Hn0|]; simpl in *; [|mstep; by eapply HQn].
  destruct (Z.ltb_spec (Z.of_nat n) 0); [lia|].
  mstep. eapply io_recv; [done|lia|..].
  - intros w2 Hle2 Hio2 _. rewrite Nat2Z.id in *. cbv beta iota.
    rewrite Z.eqb_refl. simpl.
    destruct (Nat.leb_spec n (length S)); [|lia].
    assert (bytes_ok S) as HbS by (by do 4 apply Forall_cons in Hb as [_ Hb]).
    destruct (response_addr t (take n S)) as (d & Ha & Hd & Hsa).
    { rewrite length_take, Nat.min_l by lia. lia. }
    { by apply Forall_take. }
    mstep. eapply mwp_mono; [by eapply set_upstream_ok|].
    intros [x' w3] r [Hio3 Hg]. specialize (HQ x' w3 _ _ r eq_refl Hio3 Hg).
    destruct (Z.ltb r 0); by mstep.
  - intros w2 S' r buf Hlt Hio2 _ Hr. cbv beta iota.
    rewrite (proj2 (Z.eqb_neq r _)) by lia. simpl. mstep. eapply HQn; [|done].
    destruct (Nat.leb_spec n (length S)); [lia|done].
Qed.

End lemmas.

(** * The SOCKS5 client's descriptors: lemmas *)

Definition yes {X} (x : X) : Prop := True.

(** The descriptors of a TCP client and of a UDP client. *)
Definition own_tcp (x : HevSocks5Client) : list Z := fdl (fd (c_base x)).
Definition own_udp (x : HevSocks5Client) : list Z := fdl (fd (c_base x)) ++ fdl (c_fd x).

Section fds.
Context `{Kernel} `{Pton} (cfg : Settings) (Hfresh : fresh_fds).
Implicit Types (φ ψ : HevSocks5Client -> Prop) (own : HevSocks5Client -> list Z).

Lemma keeps_get_base φ own l : keeps (fds_are φ own l) get_base.
Proof. unfold get_base. keeps_tac. Qed.

Lemma keeps_upd_base φ own l f :
  (forall x, φ x -> φ (map_base f x)) -> (forall x, own (map_base f x) = own x) ->
  keeps (fds_are φ own l) (upd_base f).
Proof.
  intros Hφ Hown. unfold upd_base. intros [x w] [x' w'] r (Hx & Hnd & Hs) [= <- <- <-].
  split; [by apply Hφ|]. split; [done|]. simpl. by rewrite Hown.
Qed.

(** What is kept by every step but the opening of a socket. *)
Lemma hoare_ifret {A} (P : HevSocks5Client * World -> Prop) (b : bool) (r : A)
    (m : M (HevSocks5Client * World) A) (Q : HevSocks5Client * World -> A -> Prop) :
  (forall s, P s -> Q s r) -> hoare P m Q -> hoare P (if b then mret r else m) Q.
Proof. intros HPQ Hm. destruct b; [by apply hoare_ret|done]. Qed.

Lemma connect_fds ψ rest l addr port :
  (forall f x, ψ x -> ψ (map_base f x)) -> (forall f x, rest (map_base f x) = rest x) ->
  hoare (fds_are (fun x => fd (c_base x) = -1 /\ ψ x) rest l) (hev_socks5_client_connect cfg addr port)
    (fun s _ => fds_are ψ (fun x => fdl (fd (c_base x)) ++ rest x) l s).
Proof.
  intros Hψ Hrest. set (P := fds_are (fun x => fd (c_base x) = -1 /\ ψ x) rest l).
  set (Q := fds_are ψ (fun x => fdl (fd (c_base x)) ++ rest x) l).
  assert (forall s, P s -> Q s) as HPQ.
  { intros s ([Hf Hpsi] & Hnd & Hs). split; [done|]. split; [done|]. simpl. unfold fdl. rewrite Hf. done. }
  unfold hev_socks5_client_connect.
  eapply hoare_bind; [apply keeps_upd_base; [naive_solver|done]|]. intros ?.
  eapply hoare_bind; [apply keeps_get_base|]. intros base.
  eapply hoare_bind; [apply keeps_name_into_sockaddr6|]. intros [[sa fam] res].
  apply hoare_ifret; [done|].
  eapply hoare_bind; [by apply hoare_socket|]. intros f.
  destruct (Z.ltb_spec f 0).
  { apply hoare_ret. intros s [[_ Hs]|[? _]]; [by apply HPQ|lia]. }
  eapply hoare_weaken with (P' := with_fd (fun x => fd (c_base x) = -1 /\ ψ x) rest l f) (Q' := fun s _ => Q s);
    [|intros s [[? _]|[_ Hs]]; [lia|exact Hs]|done].
  assert (forall c, no_fd_call c -> keeps (with_fd (fun x => fd (c_base x) = -1 /\ ψ x) rest l f) (sys c))
    as Hsys by (intros c Hc; by apply keeps_with_fd_sys).
  assert (hoare (with_fd (fun x => fd (c_base x) = -1 /\ ψ x) rest l f) (close_failed f)
    (fun s _ => Q s)) as Hclose.
  { eapply hoare_weaken; [apply hoare_close_failed|done|]. intros s ?. apply HPQ. }
  eapply hoare_bind; [by apply Hsys|]. intros res2. destruct (Z.ltb res2 0); [done|].
  eapply hoare_bind; [by apply Hsys|]. intros res3. destruct (Z.ltb res3 0); [done|].
  eapply hoare_bind with (R := fun s _ => Q s).
  { intros [x w] [x' w'] r [Hf ([Hx Hpsi] & Hnd & Hs)] [= <- <- <-]. simpl in *.
    split; [by apply Hψ|]. split; [done|]. simpl. rewrite Hrest. unfold fdl.
    rewrite (proj2 (Z.leb_le 0 f)) by done. rewrite Hs. simpl. by rewrite Permutation_middle. }
  intros ?. eapply hoare_bind.
  { apply keeps_upd_base; [naive_solver|]. intros x. by rewrite Hrest. }
  intros ?. by apply hoare_ret.
Qed.

Section handshake.
Context `{CC : ClientClass} (φ φ' : HevSocks5Client -> Prop)
  (own own' : HevSocks5Client -> list Z) (l : list Z).
Let P := fds_are φ own l.
Let Q := fds_are φ' own' l.
Context (HPQ : forall s, P s -> Q s).
Context (Hget : keeps P get_upstream_addr).
Context (Hset : forall a, hoare P (set_upstream_addr a) (fun s _ => Q s)).
Context (Hφ : forall t x, φ x -> φ (map_base (hev_socks5_set_timeout t) x)).
Context (Hφ' : forall t x, φ' x -> φ' (map_base (hev_socks5_set_timeout t) x)).
Context (Hown : forall t x, own (map_base (hev_socks5_set_timeout t) x) = own x).
Context (Hown' : forall t x, own' (map_base (hev_socks5_set_timeout t) x) = own' x).

Lemma write_request_fds : keeps P hev_socks5_client_write_request.
Proof.
  unfold hev_socks5_client_write_request. apply keeps_bind; [apply keeps_get_base|]. intros.
  destruct (req_cmd _); [|apply keeps_ret]. apply keeps_bind; [done|]. intros. unfold P. keeps_tac.
Qed.

Lemma read_response_fds : hoare P hev_socks5_client_read_response (fun s _ => Q s).
Proof.
  unfold hev_socks5_client_read_response, P.
  eapply hoare_bind; [apply keeps_recv|]. intros [ret res]. apply hoare_ifret; [done|].
  eapply hoare_bind; [apply keeps_mem|]. intros ver. apply hoare_ifret; [done|].
  eapply hoare_bind; [apply keeps_mem|]. intros rep. apply hoare_ifret; [done|].
  eapply hoare_bind; [apply keeps_mem|]. intros atype. apply hoare_ifret; [done|].
  eapply hoare_bind; [apply keeps_recv|]. intros [ret2 addr]. apply hoare_ifret; [done|].
  eapply hoare_bind; [apply Hset|]. intros r. destruct (Z.ltb r 0); by apply hoare_ret.
Qed.

Lemma small_steps_fds :
  keeps P hev_socks5_client_write_auth_methods /\ keeps P hev_socks5_client_write_auth_creds /\
  keeps P hev_socks5_client_read_auth_method /\ keeps P hev_socks5_client_read_auth_creds.
Proof.
  unfold hev_socks5_client_write_auth_methods, hev_socks5_client_write_auth_creds,
    hev_socks5_client_read_auth_method, hev_socks5_client_read_auth_creds, P.
  split_and!; keeps_tac.
Qed.

Lemma handshake_fds pipeline :
  hoare P (hev_socks5_client_handshake cfg pipeline) (fun s _ => Q s).
Proof.
  destruct small_steps_fds as (Hm & Hc & Hrm & Hrc).
  assert (hoare P (res ← hev_socks5_client_read_response;
    if Z.ltb res 0 then mret (-1) else mret 0) (fun s _ => Q s)) as Hlast.
  { eapply hoare_bind; [apply read_response_fds|]. intros r.
    destruct (Z.ltb r 0); by apply hoare_ret. }
  unfold hev_socks5_client_handshake.
  eapply hoare_bind; [apply (keeps_upd_base φ own l); [apply Hφ|apply Hown]|]. intros ?.
  eapply hoare_bind with (R := fun s _ => Q s).
  - destruct pipeline.
    + unfold hev_socks5_client_handshake_pipeline.
      eapply hoare_bind; [apply Hm|]. intros ?. apply hoare_ifret; [done|].
      eapply hoare_bind; [apply Hc|]. intros ?. apply hoare_ifret; [done|].
      eapply hoare_bind; [apply write_request_fds|]. intros ?. apply hoare_ifret; [done|].
      eapply hoare_bind; [apply Hrm|]. intros ?. apply hoare_ifret; [done|].
      eapply hoare_bind.
      { destruct (Z.eqb _ _); [apply Hrc|]. destruct (Z.eqb _ _); apply keeps_ret. }
      intros ?. by apply hoare_ifret.
    + unfold hev_socks5_client_handshake_standard.
      eapply hoare_bind; [apply Hm|]. intros ?. apply hoare_ifret; [done|].
      eapply hoare_bind; [apply Hrm|]. intros ?. apply hoare_ifret; [done|].
      eapply hoare_bind.
      { destruct (Z.eqb _ _); [|destruct (Z.eqb _ _); apply keeps_ret].
        apply keeps_bind; [apply Hc|]. intros. destruct (Z.ltb _ 0); [apply keeps_ret|apply Hrc]. }
      intros ?. apply hoare_ifret; [done|].
      eapply hoare_bind; [apply write_request_fds|]. intros ?. by apply hoare_ifret.
  - intros res. eapply hoare_bind; [apply keeps_get_base|]. intros base.
    eapply hoare_bind with (R := fun s _ => Q s); [|intros ?; by apply hoare_ret].
    destruct (_ || _)%bool; [|by apply keeps_ret].
    apply (keeps_upd_base φ' own' l); [apply Hφ'|apply Hown'].
Qed.

End handshake.

(** ** The UDP client's association *)

Lemma udp_set_upstream_fds l a :
  hoare (fds_are (fun x => c_fd x = -1) own_tcp l) (hev_socks5_client_udp_set_upstream_addr a)
    (fun s _ => fds_are yes own_udp l s).
Proof.
  set (P := fds_are (fun x => c_fd x = -1) own_tcp l). set (Q := fds_are yes own_udp l).
  assert (forall s, P s -> Q s) as HPQ.
  { intros s (Hf & Hnd & Hs). split; [exact I|]. split; [done|]. unfold own_udp. rewrite Hf.
    simpl. by rewrite app_nil_r. }
  unfold hev_socks5_client_udp_set_upstream_addr.
  eapply hoare_bind; [apply keeps_get_base|]. intros base. apply hoare_ifret; [done|].
  eapply hoare_bind; [apply keeps_addr_into_sockaddr6|]. intros [[sa fam] res].
  apply hoare_ifret; [done|].
  eapply hoare_bind; [by apply hoare_socket|]. intros f.
  destruct (Z.ltb_spec f 0).
  { apply hoare_ret. intros s [[_ Hs]|[? _]]; [by apply HPQ|lia]. }
  eapply hoare_weaken with (P' := with_fd (fun x => c_fd x = -1) own_tcp l f) (Q' := fun s _ => Q s);
    [|intros s [[? _]|[_ Hs]]; [lia|exact Hs]|done].
  assert (forall c, no_fd_call c -> keeps (with_fd (fun x => c_fd x = -1) own_tcp l f) (sys c))
    as Hsys by (intros c Hc; by apply keeps_with_fd_sys).
  assert (hoare (with_fd (fun x => c_fd x = -1) own_tcp l f) (close_failed f)
    (fun s _ => Q s)) as Hclose.
  { eapply hoare_weaken; [apply hoare_close_failed|done|]. intros s ?. apply HPQ. }
  eapply hoare_bind; [by apply Hsys|]. intros res2. destruct (Z.ltb res2 0); [done|].
  eapply hoare_bind; [by apply Hsys|]. intros res3. destruct (Z.ltb res3 0); [done|].
  intros [x w] [x' w'] r [Hf (Hx & Hnd & Hs)] [= <- <- <-]. simpl in *.
  split; [exact I|]. split; [done|]. simpl. unfold own_udp, own_tcp in *. simpl.
  unfold fdl at 2. rewrite (proj2 (Z.leb_le 0 f)) by done. rewrite Hs.
  rewrite <- app_assoc. done.
Qed.

(** ** Destruction *)

Lemma hoare_get_self_open {X} (P : X * World -> Prop) :
  hoare P get_self (fun s x => P s /\ s.1 = x).
Proof. by intros [x w] [x' w'] r Hs [= <- <- <-]. Qed.

Lemma destruct_fds own l x :
  hoare (open_is x (fdl (fd (c_base x)) ++ l)) hev_socks5_destruct (fun s _ => open_is x l s).
Proof.
  unfold hev_socks5_destruct, get_base.
  eapply hoare_bind with (R := fun s b => b = c_base x /\ open_is x (fdl (fd (c_base x)) ++ l) s).
  { eapply hoare_bind; [apply hoare_get_self_open|]. intros c. apply hoare_ret.
    by intros s [(Hx & Hs) <-]; rewrite Hx. }
  intros b. apply hoare_pre. intros ->. apply hoare_close_field.
Qed.

Lemma fds_are_open own φ l (s : HevSocks5Client * World) :
  fds_are φ own l s -> open_is s.1 (own s.1 ++ l) s.
Proof. by intros (_ & Hnd & Hs). Qed.

Lemma tcp_destruct_fds l :
  hoare (fds_are yes own_tcp l) hev_socks5_client_tcp_destruct
    (fun s _ => open_fds (w_trace s.2) ≡ₚ l).
Proof.
  intros [x w] s' r Hs%fds_are_open E. simpl in Hs.
  assert (hoare (open_is x (own_tcp x ++ l)) hev_socks5_client_tcp_destruct
    (fun s _ => open_is x l s)) as Hd; [|by apply (Hd _ _ _ Hs E)].
  unfold hev_socks5_client_tcp_destruct.
  eapply hoare_bind with (R := fun s _ => open_is x (own_tcp x ++ l) s).
  { by intros [x0 w0] [x' w'] r0 Hs0 [= <- <- <-]. }
  intros c. eapply hoare_bind with (R := fun s _ => open_is x (own_tcp x ++ l) s).
  { destruct (c_addr c); [|by apply hoare_ret]. unfold sys_.
    apply keeps_bind; [by apply keeps_open_is|]. intros. apply keeps_ret. }
  intros ?. apply (destruct_fds own_tcp).
Qed.

Lemma udp_destruct_fds l :
  hoare (fds_are yes own_udp l) hev_socks5_client_udp_destruct
    (fun s _ => open_fds (w_trace s.2) ≡ₚ l).
Proof.
  intros [x w] s' r Hs%fds_are_open E. simpl in Hs.
  assert (hoare (open_is x (own_udp x ++ l)) hev_socks5_client_udp_destruct
    (fun s _ => open_is x l s)) as Hd; [|by apply (Hd _ _ _ Hs E)].
  unfold hev_socks5_client_udp_destruct.
  eapply hoare_bind with
    (R := fun s c => c = x /\ open_is x (fdl (c_fd x) ++ fdl (fd (c_base x)) ++ l) s).
  { intros [x0 w0] [x' w'] r0 (Hx & Hnd & Hs0) [= <- <- <-]. simpl in Hx. subst x0.
    split; [done|]. split; [done|]. split; [done|]. rewrite Hs0. unfold own_udp.
    rewrite <- app_assoc. rewrite !app_assoc. by rewrite (Permutation_app_comm (fdl (fd _))). }
  intros c. apply hoare_pre. intros ->.
  eapply hoare_bind; [apply hoare_close_field|]. intros ?. apply (destruct_fds own_udp).
Qed.

End fds.
