(* ===== verification/ClientProps.v ===== *)
(** * Properties of the SOCKS5 client *)
From S2P Require Import Prelude CInt Effect SockIO Addr AddrSpec AddrProps Socks5 Descriptors Client ClientSpec.

(** ** The two implementations of the virtual methods *)

Definition tcp_ready (x : HevSocks5Client) (d : Dest) : Prop :=
  exists a, c_addr x = Some a /\ addr_is a d.

Section instances.
Context `{Kernel} `{Pton}.

#[export] Instance tcp_laws : ClientLaws tcp_client tcp_ready (eq 0).
Proof.
  constructor.
  - done.
  - intros x d w S out (a & Ha & Hd) Hio.
    unfold get_upstream_addr, tcp_client, hev_socks5_client_tcp_get_upstream_addr.
    mstep. apply mwp_get_self. mstep. apply mwp_set_self. mstep.
    split; [done|]. split; [done|]. by exists a.
  - intros. unfold set_upstream_addr, tcp_client, hev_socks5_client_tcp_set_upstream_addr.
    by mstep.
Qed.

(** The UDP client asks for an association for any address of its family. *)
Definition udp_ready (x : HevSocks5Client) (d : Dest) : Prop :=
  (addr_family (c_base x) = AF_INET /\ d = DIp4 [0; 0; 0; 0] 0) \/
  (addr_family (c_base x) = AF_INET6 /\ d = DIp6 (replicate 16 0) 0).

(** The log of [w'] goes on where that of [w] ends. *)
Definition later (w w' : World) : Prop := w_trace w `suffix_of` w_trace w'.

Lemma later_trans w1 w2 w3 : later w1 w2 -> later w2 w3 -> later w1 w3.
Proof. unfold later. intros. by etrans. Qed.

Lemma later_step w w' e : w_trace w' = e :: w_trace w -> later w w'.
Proof. intros E. unfold later. rewrite E. by apply suffix_cons_r. Qed.

Lemma later_eq w w' : w_trace w' = w_trace w -> later w w'.
Proof. unfold later. by intros ->. Qed.

Lemma later_in w w' e : later w w' -> e ∈ w_trace w -> e ∈ w_trace w'.
Proof. intros [l E] He. rewrite E. set_solver. Qed.

Lemma sys_later {X} c (x : X) w S out (Q : X * World -> () -> Prop) :
  io_at w S out -> (forall w', io_at w' S out -> later w w' -> Q (x, w') ()) ->
  mwp (sys_ c) (x, w) Q.
Proof.
  intros Hio HQ. unfold sys_. mstep. eapply io_sys; [done|]. intros w' Hio' E. mstep.
  apply HQ; [done|by eapply later_step].
Qed.

(** A socket of this type was opened. *)
Definition opened (log : list (call * Z)) (type f : Z) : Prop := 0 <= f /\ (CSocket type, f) ∈ log.

Lemma opened_later w w' type f : later w w' -> opened (w_trace w) type f -> opened (w_trace w') type f.
Proof. intros Hl [? ?]. split; [done|by eapply later_in]. Qed.

Lemma socket_opened {X} type (x : X) w S out (Q : X * World -> Z -> Prop) :
  io_at w S out ->
  (forall w' f, io_at w' S out -> later w w' -> f < 0 \/ opened (w_trace w') type f -> Q (x, w') f) ->
  mwp (hev_socks5_socket type) (x, w) Q.
Proof.
  intros Hio HQ. unfold hev_socks5_socket. mstep. eapply io_sys; [done|].
  set (f := k_ret _ _). intros w1 Hio1 E1.
  destruct (Z.ltb_spec f 0); [mstep; apply HQ; [done|by eapply later_step|left; lia]|].
  assert (forall w', later w1 w' -> later w w' /\ opened (w_trace w') type f) as Hop.
  { intros w' Hl. split; [eapply later_trans; [by eapply later_step|done]|]. split; [done|].
    eapply later_in; [done|]. rewrite E1. apply list_elem_of_here. }
  mstep. eapply io_sys; [done|]. intros w2 Hio2 E2%later_step. destruct (Z.ltb _ 0).
  { mstep. eapply io_sys; [done|]. intros w3 Hio3 E3%later_step. mstep.
    apply HQ; [done|apply Hop; by eapply later_trans|left; lia]. }
  mstep. eapply io_sys; [done|]. intros w3 Hio3 E3%later_step. mstep.
  assert (forall w4, io_at w4 S out -> later w1 w4 -> mwp
    (_ ← (if Z.eqb type SOCK_DGRAM then sys_ (CSetsockopt f) else mret ()); mret f) (x, w4) Q) as Hend.
  { intros w4 Hio4 E4. mstep. destruct (Z.eqb type SOCK_DGRAM).
    - eapply sys_later; [done|]. intros w5 Hio5 E5. mstep.
      destruct (Hop w5) as [? ?]; [by eapply later_trans|]. apply HQ; [done..|by right].
    - do 2 mstep. destruct (Hop w4) as [? ?]; [done|]. apply HQ; [done..|by right]. }
  pose proof (later_trans _ _ _ E2 E3) as E. destruct (Z.ltb _ 0); [|mstep; by apply Hend].
  eapply sys_later; [done|]. intros w4 Hio4 E4. apply Hend; [done|by eapply later_trans].
Qed.

Lemma close_failed_later {X} f (x : X) w S out (Q : X * World -> Z -> Prop) :
  io_at w S out -> (forall w', io_at w' S out -> later w w' -> Q (x, w') (-1)) ->
  mwp (close_failed f) (x, w) Q.
Proof.
  intros Hio HQ. unfold close_failed.
  mstep. eapply io_sys; [done|]. intros w1 Hio1 E1%later_step.
  mstep. eapply io_sys; [done|]. intros w2 Hio2 E2%later_step. mstep.
  apply HQ; [done|by eapply later_trans].
Qed.

Lemma socket_io {X} type (x : X) w S out (Q : X * World -> Z -> Prop) :
  io_at w S out -> (forall w' r, io_at w' S out -> Q (x, w') r) ->
  mwp (hev_socks5_socket type) (x, w) Q.
Proof. intros Hio HQ. eapply socket_opened; [done|]. auto. Qed.

Lemma close_failed_io {X} f (x : X) w S out (Q : X * World -> Z -> Prop) :
  io_at w S out -> (forall w', io_at w' S out -> Q (x, w') (-1)) ->
  mwp (close_failed f) (x, w) Q.
Proof. intros Hio HQ. eapply close_failed_later; [done|]. auto. Qed.

(** When memory is short the null address is dereferenced. *)
Lemma udp_laws : (forall t n, k_ret t (CMalloc n) <> 0) ->
  ClientLaws udp_client udp_ready (fun _ => True).
Proof.
  intros Hm. constructor.
  - done.
  - intros x d w S out Hr Hio.
    unfold get_upstream_addr, udp_client, hev_socks5_client_udp_get_upstream_addr, get_base,
      hev_socks5_get_addr_family, malloc0_addr.
    mstep. mstep. apply mwp_get_self. mstep. simpl.
    destruct Hr as [[-> ->]|[-> ->]]; simpl; mstep; (eapply io_sys; [done|]); intros w' Hio' _;
      rewrite (proj2 (Z.eqb_neq _ 0)) by apply Hm;
      mstep; (eapply mwp_mem; [done|]); mstep; (split; [done|]); (split; [done|]);
      eexists; (split; [done|]); by exists [].
  - intros x a d w S out Ha Hd Hsa Hio.
    unfold set_upstream_addr, udp_client, hev_socks5_client_udp_set_upstream_addr, get_base.
    mstep. mstep. apply mwp_get_self. mstep. simpl.
    destruct (Z.eqb _ _); simpl; [|by mstep].
    destruct (dest_sa d) as [[sa fam]|] eqn:Esa; [|done].
    mstep. eapply addr_into_sockaddr6_ip; [done..|]. cbv beta iota. simpl. mstep.
    eapply socket_io; [done|]. intros w1 fd Hio1. destruct (Z.ltb fd 0); [by mstep|].
    mstep. eapply io_sys; [done|]. intros w2 Hio2 _.
    destruct (Z.ltb _ 0); [by eapply close_failed_io|].
    mstep. eapply io_sys; [done|]. intros w3 Hio3 _.
    destruct (Z.ltb _ 0); [by eapply close_failed_io|].
    unfold upd_base. mstep. mstep. apply mwp_get_self. apply mwp_set_self.
    mstep. apply mwp_get_self. mstep. apply mwp_set_self. by mstep.
Qed.

End instances.

(** ** The handshake *)

Section handshake.
Context `{Kernel} `{Pton} (cfg : Settings).
Context `{CC : ClientClass} {Inv : HevSocks5Client -> Dest -> Prop} {Good : Z -> Prop}
  `{!ClientLaws CC Inv Good}.

(** The result, the bytes sent and what is left to read, after a handshake. *)
Definition handshake_post (pipeline : bool) (o : Offer) (S out : list Z)
    (s : HevSocks5Client * World) (res : Z) : Prop :=
  w_sent s.2 = out ++ spec_sent pipeline o S /\
  match spec_accepts S with
  | Some (_, rest) => exists r, Good r /\ res = (if Z.ltb r 0 then -1 else 0) /\
      stream (w_rx s.2) = rest
  | None => res = -1
  end.

Lemma io_post pipeline o S out S' x w out' :
  io_at w S' out' -> spec_accepts S = None -> out' = out ++ spec_sent pipeline o S ->
  handshake_post pipeline o S out (x, w) (-1).
Proof. intros (_ & _ & _ & <-) Hs Ho. split; [done|]. by rewrite Hs. Qed.

Lemma end_of_handshake pipeline o S out S1 out' x w :
  io_at w S1 out' -> spec_auth S = Some S1 -> out' = out ++ spec_sent pipeline o S ->
  mwp (res ← hev_socks5_client_read_response;
       if Z.ltb res 0 then mret (-1) else mret 0) (x, w) (handshake_post pipeline o S out).
Proof.
  intros Hio Ha Ho. mstep. eapply read_response_ok; [done|..].
  - intros x' w' a S' r Hr (_ & _ & Hs & Hw) Hg.
    assert (handshake_post pipeline o S out (x', w') (if Z.ltb r 0 then -1 else 0)).
    { split; [by rewrite <- Ho|]. unfold spec_accepts. rewrite Ha. simpl. rewrite Hr. eauto. }
    destruct (Z.ltb r 0); simpl; by mstep.
  - intros w' S' Hr Hio'. simpl. mstep. eapply io_post; [done| |done].
    unfold spec_accepts. by rewrite Ha.
Qed.

Lemma standard_ok x o w S out :
  offers x o -> Inv x (o_dest o) -> io_at w S out ->
  mwp hev_socks5_client_handshake_standard (x, w) (handshake_post false o S out).
Proof.
  intros Ho Hinv Hio. unfold hev_socks5_client_handshake_standard.
  mstep. eapply write_auth_methods_ok; [done|done|]. intros w1 Hio1. simpl.
  mstep. eapply read_auth_method_ok; [done|..].
  2: { intros w2 S' Hm Hio2. simpl. mstep. eapply io_post; [done|..];
       unfold spec_accepts, spec_sent, spec_auth; rewrite Hm; [done|].
       by simpl; rewrite ?app_nil_r. }
  intros w2 m S1 Hm Hio2 Hm0. rewrite (proj2 (Z.ltb_ge m 0)) by done.
  unfold HEV_SOCKS5_AUTH_METHOD_USER, HEV_SOCKS5_AUTH_METHOD_NONE.
  assert (forall x' w' S2 out', spec_auth S = Some S2 -> io_at w' S2 out' ->
    out' ++ request o = out ++ spec_sent false o S -> offers x' o -> Inv x' (o_dest o) ->
    mwp (res ← hev_socks5_client_write_request;
         if Z.ltb res 0 then mret (-1) else
         res ← hev_socks5_client_read_response;
         if Z.ltb res 0 then mret (-1) else mret 0) (x', w') (handshake_post false o S out))
    as Hend.
  { intros x' w' S2 out' Ha Hio' Hout Ho' Hinv'. mstep.
    eapply write_request_ok; [done|done|done|]. intros x2 w3 _ Hio3. simpl.
    by eapply end_of_handshake. }
  destruct (Z.eqb_spec m 2) as [->|Hm2].
  - mstep. mstep. eapply write_auth_creds_ok; [done|done|]. intros w3 Hio3. simpl.
    eapply read_auth_creds_ok; [done|..].
    + intros w4 S2 Hc Hio4. simpl. eapply Hend; [|done| |done|done].
      * unfold spec_auth. by rewrite Hm.
      * unfold spec_sent, spec_auth. rewrite Hm. simpl. rewrite Hc. by rewrite <- ?app_assoc.
    + intros w4 S2 Hc Hio4. simpl. mstep. eapply io_post; [done|..];
        unfold spec_accepts, spec_sent, spec_auth; rewrite Hm; simpl; rewrite Hc; [done|].
      by rewrite ?app_nil_r, <- ?app_assoc.
  - assert (spec_sent false o S = greeting o ++
      match spec_auth S with Some _ => request o | None => [] end) as Es.
    { unfold spec_sent. rewrite Hm. by rewrite (proj2 (Z.eqb_neq m 2) Hm2). }
    destruct (Z.eqb_spec m 0) as [->|Hm00].
    + mstep. mstep. simpl.
      assert (spec_auth S = Some S1) as Ha by (unfold spec_auth; by rewrite Hm).
      eapply Hend; [done|done| |done|done]. rewrite Es, Ha. by rewrite <- ?app_assoc.
    + mstep. mstep. simpl. mstep.
      assert (spec_auth S = None) as Ha.
      { unfold spec_auth. rewrite Hm. by rewrite (proj2 (Z.eqb_neq m 2) Hm2), (proj2 (Z.eqb_neq m 0) Hm00). }
      eapply io_post; [done|..].
      * unfold spec_accepts. by rewrite Ha.
      * rewrite Es, Ha. by rewrite ?app_nil_r.
Qed.

Lemma pipeline_ok x o w S out :
  offers x o -> Inv x (o_dest o) -> io_at w S out ->
  mwp hev_socks5_client_handshake_pipeline (x, w) (handshake_post true o S out).
Proof.
  intros Ho Hinv Hio. unfold hev_socks5_client_handshake_pipeline.
  mstep. eapply write_auth_methods_ok; [done|done|]. intros w1 Hio1. simpl.
  mstep. eapply write_auth_creds_ok; [done|done|]. intros w2 Hio2. simpl.
  mstep. eapply write_request_ok; [done|done|done|]. intros x3 w3 _ Hio3. simpl.
  assert (((out ++ greeting o) ++ credentials o) ++ request o =
    out ++ spec_sent true o S) as Hout by (unfold spec_sent; by rewrite <- !app_assoc).
  rewrite Hout in Hio3.
  mstep. eapply read_auth_method_ok; [done|..].
  2: { intros w4 S' Hm Hio4. simpl. mstep. eapply io_post; [done|..|done].
       unfold spec_accepts, spec_auth. by rewrite Hm. }
  intros w4 m S1 Hm Hio4 Hm0. rewrite (proj2 (Z.ltb_ge m 0)) by done.
  unfold HEV_SOCKS5_AUTH_METHOD_USER, HEV_SOCKS5_AUTH_METHOD_NONE.
  destruct (Z.eqb_spec m 2) as [->|Hm2]; [|destruct (Z.eqb_spec m 0) as [->|Hm00]].
  - mstep. eapply read_auth_creds_ok; [done|..].
    + intros w5 S2 Hc Hio5. simpl. eapply end_of_handshake; [done| |done].
      unfold spec_auth. by rewrite Hm.
    + intros w5 S2 Hc Hio5. simpl. mstep. eapply io_post; [done|..|done].
      unfold spec_accepts, spec_auth. rewrite Hm. simpl. by rewrite Hc.
  - mstep. mstep. simpl. eapply end_of_handshake; [done| |done].
    unfold spec_auth. by rewrite Hm.
  - mstep. mstep. simpl. mstep. eapply io_post; [done|..|done].
    unfold spec_accepts, spec_auth. rewrite Hm.
    by rewrite (proj2 (Z.eqb_neq m 2) Hm2), (proj2 (Z.eqb_neq m 0) Hm00).
Qed.

Lemma client_handshake_ok pipeline x o w S out :
  offers x o -> Inv x (o_dest o) -> io_at w S out ->
  mwp (hev_socks5_client_handshake cfg pipeline) (x, w) (handshake_post pipeline o S out).
Proof.
  intros Ho Hinv Hio. unfold hev_socks5_client_handshake, upd_base.
  mstep. mstep. apply mwp_get_self. apply mwp_set_self. mstep. simpl.
  set (x1 := map_base _ x).
  assert (offers x1 o) as Ho1 by done.
  assert (Inv x1 (o_dest o)) as Hinv1 by (by apply inv_timeout).
  assert (mwp (if pipeline then hev_socks5_client_handshake_pipeline
    else hev_socks5_client_handshake_standard) (x1, w) (handshake_post pipeline o S out)) as Hhs
    by (destruct pipeline; [by apply pipeline_ok|by apply standard_ok]).
  eapply mwp_mono; [exact Hhs|]. intros [x2 w2] res Hres. unfold get_base.
  mstep. mstep. apply mwp_get_self. mstep. mstep. destruct (_ || _)%bool.
  - mstep. apply mwp_get_self. apply mwp_set_self. by mstep.
  - by do 2 mstep.
Qed.

(** C23: for every implementation of the virtual methods that keeps their
    contract, what the client sends and what it returns are the RFC's function
    of the bytes the server sends, whatever chunks and delays they come in.
    The standard handshake sends the greeting, then the credentials exactly
    when method 2 is chosen, then the request exactly when the authentication
    succeeded; the pipelined one sends all three at once.  It fails exactly on
    a reply that is malformed, negative or cut short, and otherwise consumes
    exactly the replies, so that what follows is left for the session. *)
Theorem client_handshake_correct pipeline x o w S out :
  offers x o -> Inv x (o_dest o) -> io_at w S out ->
  mwp (hev_socks5_client_handshake cfg pipeline) (x, w) (handshake_post pipeline o S out).
Proof. apply client_handshake_ok. Qed.

End handshake.

(** ** A handshake *)

Definition demo_dest : Dest := DName [97; 46; 98] 443.
Definition demo_offer : Offer := mkOffer (Some ([117], [112; 119])) 1 demo_dest.
Definition demo_client : HevSocks5Client :=
  mkClient (mkSocks5 3 (-1) 0 HEV_SOCKS5_TYPE_TCP AF_UNSPEC) (Some [117]) (Some [112; 119])
    (Some (wire demo_dest)) 0.

(** The replies come in pieces, with waits, and are followed by data. *)
Definition demo_world : World :=
  mkWorld [RxData [5]; RxAgain false; RxData [2; 1; 0; 5; 0]; RxData [0; 1; 10; 0; 0; 1; 0];
           RxData [80; 72; 73]] [TxAccept 2; TxAgain false; TxAccept 100] [] [].

Definition settings : Settings := default_settings.

Lemma demo_io : io_at demo_world [5; 2; 1; 0; 5; 0; 0; 1; 10; 0; 0; 1; 0; 80; 72; 73] [].
Proof.
  split_and!; [| |done|done].
  - repeat constructor; done || lia.
  - unfold tx_good, demo_world. simpl.
    repeat (apply Forall_cons; split; [first [by left|right; eexists; split; [done|lia]]|]).
    constructor.
Qed.

Lemma client_handshake_correct_witness :
  mwp (@hev_socks5_client_handshake quiet_kernel settings tcp_client false)
    (demo_client, demo_world)
    (fun s res => w_sent s.2 = [5; 1; 2; 1; 1; 117; 2; 112; 119; 5; 1; 0; 3; 3; 97; 46; 98; 1; 187]
       /\ exists r, 0 = r /\ res = (if Z.ltb r 0 then -1 else 0) /\ stream (w_rx s.2) = [72; 73]).
Proof.
  apply (@client_handshake_correct quiet_kernel settings tcp_client tcp_ready (eq 0)
    (@tcp_laws quiet_kernel) false demo_client demo_offer demo_world
    [5; 2; 1; 0; 5; 0; 0; 1; 10; 0; 0; 1; 0; 80; 72; 73] []).
  - split_and!; simpl; try done; repeat constructor; lia.
  - exists (wire demo_dest). split; [done|]. exists []. by rewrite app_nil_r.
  - exact demo_io.
Defined.

(** ** Descriptors *)

Section runs.
Context `{Kernel} `{Pton}.

(** The life of a client, as [hev_socks5_session_run] and the destructor lead it. *)
Definition tcp_client_run (cfg : Settings) (pipeline : bool) (addr : HevSocks5Addr)
    (name : list Z) (port : Z) : MC Z :=
  res ← hev_socks5_client_tcp_construct addr;
  if Z.ltb res 0 then mret res else
  res ← hev_socks5_client_connect cfg name port;
  res ← (if Z.ltb res 0 then mret res
         else @hev_socks5_client_handshake _ cfg tcp_client pipeline);
  _ ← hev_socks5_client_tcp_destruct;
  mret res.

Definition udp_client_run (cfg : Settings) (pipeline : bool) (type : Z)
    (name : list Z) (port : Z) : MC Z :=
  res ← hev_socks5_client_udp_construct type;
  if Z.ltb res 0 then mret res else
  res ← hev_socks5_client_connect cfg name port;
  res ← (if Z.ltb res 0 then mret res
         else @hev_socks5_client_handshake _ cfg udp_client pipeline);
  _ ← hev_socks5_client_udp_destruct;
  mret res.

Lemma tcp_run_fds cfg pipeline addr name port l : fresh_fds ->
  hoare (fun s => NoDup (open_fds (w_trace s.2)) /\ open_fds (w_trace s.2) ≡ₚ l)
    (tcp_client_run cfg pipeline addr name port)
    (fun s _ => open_fds (w_trace s.2) ≡ₚ l).
Proof.
  intros Hfresh. unfold tcp_client_run.
  set (P0 := fds_are (fun x => fd (c_base x) = -1 /\ yes x) (fun _ => []) l).
  eapply hoare_bind with (R := fun s _ => P0 s).
  { unfold hev_socks5_client_tcp_construct.
    eapply hoare_bind with (R := fun s _ => P0 s).
    { by intros [x w] [x' w'] r [Hnd Hs] [= <- <- <-]. }
    intros ?. unfold P0. apply keeps_bind; [apply keeps_mem|]. intros.
    apply keeps_bind; [by apply keeps_sys|]. intros.
    destruct (Z.eqb _ 0); [apply keeps_ret|].
    apply keeps_bind; [apply keeps_mem|]. intros copy.
    intros [x w] s' r (Hx & Hnd & Hs) [= <- <-]. done. }
  intros res. apply hoare_ifret; [by intros s (_ & _ & Hs)|].
  eapply hoare_bind; [by apply (connect_fds cfg Hfresh yes (fun _ => []))|]. intros res1.
  eapply hoare_bind with (R := fun s _ => fds_are yes own_tcp l s).
  { assert (forall s, fds_are yes (fun x => fdl (fd (c_base x)) ++ []) l s ->
      fds_are yes own_tcp l s) as Hown.
    { intros s (? & ? & Hs). rewrite app_nil_r in Hs. done. }
    apply hoare_ifret; [done|].
    eapply hoare_weaken with (P' := fds_are yes own_tcp l) (Q' := fun s _ => fds_are yes own_tcp l s);
      [|exact Hown|done].
    apply (handshake_fds cfg yes yes own_tcp own_tcp l); try done.
    - unfold get_upstream_addr, tcp_client, hev_socks5_client_tcp_get_upstream_addr.
      by intros [x w] [x' w'] r Hs [= <- <- <-].
    - intros a. apply keeps_ret. }
  intros res2. eapply hoare_bind; [apply tcp_destruct_fds|]. intros ?. by apply hoare_ret.
Qed.

Lemma udp_run_fds cfg pipeline type name port l : fresh_fds ->
  hoare (fun s => NoDup (open_fds (w_trace s.2)) /\ open_fds (w_trace s.2) ≡ₚ l)
    (udp_client_run cfg pipeline type name port)
    (fun s _ => open_fds (w_trace s.2) ≡ₚ l).
Proof.
  intros Hfresh. unfold udp_client_run.
  set (P0 := fds_are (fun x => fd (c_base x) = -1 /\ c_fd x = -1) (fun _ => []) l).
  eapply hoare_bind with (R := fun s _ => P0 s).
  { by intros [x w] [x' w'] r [Hnd Hs] [= <- <- <-]. }
  intros res. apply hoare_ifret; [by intros s (_ & _ & Hs)|].
  eapply hoare_bind; [by apply (connect_fds cfg Hfresh (fun x => c_fd x = -1) (fun _ => []))|].
  intros res1. eapply hoare_bind with (R := fun s _ => fds_are yes own_udp l s).
  { assert (forall s, fds_are (fun x => c_fd x = -1) (fun x => fdl (fd (c_base x)) ++ []) l s ->
      fds_are (fun x => c_fd x = -1) own_tcp l s) as Hown.
    { intros s (? & ? & Hs). rewrite app_nil_r in Hs. done. }
    assert (forall s, fds_are (fun x => c_fd x = -1) own_tcp l s -> fds_are yes own_udp l s)
      as Hudp.
    { intros s (Hx & Hnd & Hs). split; [exact I|]. split; [done|]. unfold own_udp. rewrite Hx.
      simpl. by rewrite app_nil_r. }
    apply hoare_ifret; [intros s Hs; by apply Hudp, Hown|].
    eapply hoare_weaken with (P' := fds_are (fun x => c_fd x = -1) own_tcp l)
      (Q' := fun s _ => fds_are yes own_udp l s); [|exact Hown|done].
    apply (handshake_fds cfg (fun x => c_fd x = -1) yes own_tcp own_udp l); try done.
    - unfold get_upstream_addr, udp_client, hev_socks5_client_udp_get_upstream_addr, malloc0_addr.
      apply keeps_bind; [apply keeps_get_base|]. intros. keeps_tac.
    - intros a. by apply udp_set_upstream_fds. }
  intros res2. eapply hoare_bind; [apply udp_destruct_fds|]. intros ?. by apply hoare_ret.
Qed.

(** C24: a client leaks no descriptor.  Whatever the kernel, the resolver, the
    proxy and the network answer, at whatever point the client fails, and
    whether it had opened one socket or two, once it is destroyed exactly the
    descriptors that were open before it are open. *)
Theorem clients_leak_no_descriptor cfg pipeline addr type name port s :
  fresh_fds -> NoDup (open_fds (w_trace s.2)) ->
  (forall s' r, tcp_client_run cfg pipeline addr name port s = Some (s', r) ->
     open_fds (w_trace s'.2) ≡ₚ open_fds (w_trace s.2)) /\
  (forall s' r, udp_client_run cfg pipeline type name port s = Some (s', r) ->
     open_fds (w_trace s'.2) ≡ₚ open_fds (w_trace s.2)).
Proof.
  intros Hfresh Hnd. split; intros s' r E.
  - by eapply (tcp_run_fds cfg pipeline addr name port _ Hfresh s s' r).
  - by eapply (udp_run_fds cfg pipeline type name port _ Hfresh s s' r).
Qed.

End runs.

(** Descriptors are numbered upwards, the UDP socket cannot be connected. *)
Definition fd_kernel : Kernel := {|
  k_ret := fun t c => match c with
    | CSocket _ => 1 + foldr Z.max 0 (open_fds t)
    | CMalloc _ => 4096
    | CConnect fd _ => if Z.ltb 4 fd then -1 else 0
    | CGetaddrinfo _ _ => AF_INET
    | _ => 0
    end;
  k_addr := fun _ _ => mkSA AF_INET6 [0; 0] (replicate 16 0) |}.

Lemma fd_kernel_fresh : @fresh_fds fd_kernel.
Proof.
  intros t type Hin. simpl in Hin.
  assert (forall l x, x ∈ l -> x <= foldr Z.max 0 l) as Hmax.
  { induction l as [|y l IH]; intros x; [by intros ?%elem_of_nil|].
    rewrite elem_of_cons. simpl. intros [->|Hx]; [lia|]. specialize (IH x Hx). lia. }
  specialize (Hmax _ _ Hin). lia.
Qed.

Definition udp_demo_world : World :=
  mkWorld [RxData [5; 0; 5; 0; 0; 1; 10; 0; 0; 1; 0; 80]] [] [] [(CSocket 1, 3)].

Lemma clients_leak_no_descriptor_witness :
  exists s' r, @udp_client_run fd_kernel no_pton settings false HEV_SOCKS5_TYPE_UDP_IN_UDP [112] 1080
    (demo_client, udp_demo_world) = Some (s', r) /\ r = -1 /\
    open_fds (w_trace s'.2) ≡ₚ [3].
Proof.
  destruct (@udp_client_run fd_kernel no_pton settings false HEV_SOCKS5_TYPE_UDP_IN_UDP [112] 1080
    (demo_client, udp_demo_world)) as [[s' r]|] eqn:E; [|vm_compute in E; discriminate E].
  exists s', r. split; [reflexivity|]. split.
  - assert (option_map snd (@udp_client_run fd_kernel no_pton settings false
      HEV_SOCKS5_TYPE_UDP_IN_UDP [112] 1080 (demo_client, udp_demo_world)) = Some (-1)) as Hr
      by (vm_compute; reflexivity).
    rewrite E in Hr. by injection Hr.
  - refine (proj2 (@clients_leak_no_descriptor fd_kernel no_pton settings false []
      HEV_SOCKS5_TYPE_UDP_IN_UDP [112] 1080 (demo_client, udp_demo_world)
      fd_kernel_fresh _) s' r E).
    apply NoDup_singleton.
Defined.
