(* ===== verification/Authenticator.v ===== *)
(** * Users and their authenticator (hev-socks5-user.c, hev-socks5-authenticator.c)

    Users are reference-counted objects that embed a tree node; a user is
    designated by the address of that node. *)
From S2P Require Import Prelude RBTree RBTreeShape RBTreeSpec RBTreeUnlink SearchTree CInt.

(** ** Names are ordered by length, then by [memcmp] *)

Record user_name := UName { uname : list Z }.

Definition name_cmp (a b : user_name) : Z :=
  let la := Z.of_nat (length (uname a)) in
  let lb := Z.of_nat (length (uname b)) in
  if Z.ltb la lb then -1 else if Z.ltb lb la then 1 else memcmp (uname a) (uname b).

#[export] Instance user_name_order : KeyOrder user_name.
Proof.
  refine {| key_cmp := name_cmp |}; unfold name_cmp, memcmp.
  - intros [a] [b]; simpl. case_Z.
    + split; [lia|intros [= ->]; lia].
    + split; [lia|intros [= ->]; lia].
    + rewrite strcmp_eq. split; [by intros ->|by intros [= ->]].
  - intros [a] [b]; simpl. case_Z. rewrite (strcmp_anti a b). lia.
  - intros [a] [b] [c]; simpl. case_Z. apply strcmp_trans.
Defined.

(** ** State *)

Record HevSocks5User := mkUser { u_name : list Z; u_pass : list Z; u_ref : Z }.

(** [users] are the live user objects; their tree nodes are cells of [atree]. *)
Record HevSocks5Authenticator := mkAuth {
  atree : HevRBTree;
  users : gmap Z HevSocks5User;
}.

Definition set_atree t s := mkAuth t (users s).
Definition set_users u s := mkAuth (atree s) u.

Definition hev_socks5_authenticator_new : HevSocks5Authenticator := mkAuth (mkRBTree 0 ∅) ∅.

(** A user object at a fresh address; its creator holds the one reference. *)
Definition hev_socks5_user_new (self : HevSocks5Authenticator) (a : Z) (name pass : list Z)
  : HevSocks5Authenticator :=
  mkAuth (mkRBTree (root (atree self)) (<[a := mkRBNode 0 0 0]> (cells (atree self))))
    (<[a := mkUser name pass 1]> (users self)).

Definition hev_socks5_user_checker (u : HevSocks5User) (pass : list Z) : Z :=
  if negb (Z.eqb (Z.of_nat (length (u_pass u))) (Z.of_nat (length pass))) then -1
  else if negb (Z.eqb (memcmp (u_pass u) pass) 0) then -1
  else 0.

Definition hev_socks5_user_check (self : HevSocks5Authenticator) (a : Z) (pass : list Z)
  : option Z :=
  u ← users self !! a; Some (hev_socks5_user_checker u pass).

Definition hev_socks5_user_destruct (self : HevSocks5Authenticator) (a : Z)
  : HevSocks5Authenticator :=
  mkAuth (mkRBTree (root (atree self)) (delete a (cells (atree self)))) (delete a (users self)).

(** [hev_object_ref] and [hev_object_unref] of a user. *)
Definition user_ref (self : HevSocks5Authenticator) (a : Z) : option HevSocks5Authenticator :=
  u ← users self !! a;
  Some (set_users (<[a := mkUser (u_name u) (u_pass u) (u_ref u + 1)]> (users self)) self).

Definition user_unref (self : HevSocks5Authenticator) (a : Z) : option HevSocks5Authenticator :=
  u ← users self !! a;
  if Z.ltb 1 (u_ref u) then
    Some (set_users (<[a := mkUser (u_name u) (u_pass u) (u_ref u - 1)]> (users self)) self)
  else Some (hev_socks5_user_destruct self a).

Definition user_key (self : HevSocks5Authenticator) (a : Z) : option user_name :=
  u ← users self !! a; Some (UName (u_name u)).

(** ** Operations *)

Definition hev_socks5_authenticator_add (fuel : nat) (self : HevSocks5Authenticator) (user : Z)
  : option (HevSocks5Authenticator * Z) :=
  k ← user_key self user;
  '(node, parent, new) ←
    descend (user_key self) fuel (atree self) k (root (atree self)) 0 LinkRoot;
  if negb (Z.eqb node 0) then Some (self, -1) else
  t ← hev_rbtree_node_link (atree self) user parent new;
  t ← hev_rbtree_insert_color fuel t user;
  Some (set_atree t self, 0).

(** The loop of [del] and [get]; 0 when the name is absent. *)
Fixpoint search_name (fuel : nat) (self : HevSocks5Authenticator) (k : user_name) (node : Z)
  : option Z :=
  match fuel with
  | O => None
  | S fuel =>
      if Z.eqb node 0 then Some 0 else
      this ← user_key self node;
      let res := name_cmp this k in
      if Z.ltb res 0 then l ← rd_left (atree self) node; search_name fuel self k l
      else if Z.ltb 0 res then r ← rd_right (atree self) node; search_name fuel self k r
      else Some node
  end.

Definition hev_socks5_authenticator_get (fuel : nat) (self : HevSocks5Authenticator)
    (name : list Z) : option Z :=
  search_name fuel self (UName name) (root (atree self)).

Definition hev_socks5_authenticator_del (fuel : nat) (self : HevSocks5Authenticator)
    (name : list Z) : option (HevSocks5Authenticator * Z) :=
  node ← search_name fuel self (UName name) (root (atree self));
  if Z.eqb node 0 then Some (self, -1) else
  t ← hev_rbtree_erase fuel (atree self) node;
  self ← user_unref (set_atree t self) node;
  Some (self, 0).

Fixpoint hev_socks5_authenticator_clear (fuel : nat) (self : HevSocks5Authenticator)
  : option HevSocks5Authenticator :=
  match fuel with
  | O => None
  | S f =>
      n ← hev_rbtree_first fuel (atree self);
      if Z.eqb n 0 then Some self else
      t ← hev_rbtree_erase fuel (atree self) n;
      self ← user_unref (set_atree t self) n;
      hev_socks5_authenticator_clear f self
  end.

(** ** The representation *)

(** [xs]: the users in the tree, in order. *)
Record auth_rep (self : HevSocks5Authenticator) (xs : list Z) : Prop := {
  ar_tree : rb_rep (atree self) xs;
  ar_sorted : sorted (user_key self) xs;
  ar_refs : Forall (fun a => exists u, users self !! a = Some u /\ 1 <= u_ref u) xs;
}.

Lemma search_descend fuel self k node parent slot :
  search_name fuel self k node =
  '(n, _, _) ← descend (user_key self) fuel (atree self) k node parent slot; Some n.
Proof.
  revert node parent slot. induction fuel as [|fuel IH]; intros node parent slot; simpl; [done|].
  destruct (Z.eqb node 0); [done|]. destruct (user_key self node) as [this|]; [|done]. simpl.
  destruct (Z.ltb (name_cmp this k) 0).
  { destruct (rd_left (atree self) node); [|done]. simpl. apply IH. }
  destruct (Z.ltb 0 (name_cmp this k)); [|done].
  destruct (rd_right (atree self) node); [|done]. simpl. apply IH.
Qed.

(** The user of a given name, as a specification. *)
Definition is_user (self : HevSocks5Authenticator) (xs : list Z) (name : list Z) (a : Z) : Prop :=
  a ∈ xs /\ user_key self a = Some (UName name).

Definition no_user (self : HevSocks5Authenticator) (xs : list Z) (name : list Z) : Prop :=
  forall a, a ∈ xs -> user_key self a <> Some (UName name).

Lemma bounds_absent self ls rs k :
  above (user_key self) k ls -> below (user_key self) k rs ->
  forall a, a ∈ ls ++ rs -> user_key self a <> Some k.
Proof.
  unfold above, below. rewrite !Forall_forall. intros Ha Hb a Hin Hk.
  apply elem_of_app in Hin as [Hin|Hin];
    [destruct (Ha a Hin) as (k' & Hk' & Hlt)|destruct (Hb a Hin) as (k' & Hk' & Hlt)];
    rewrite Hk in Hk'; simplify_eq; rewrite key_cmp_refl in Hlt; lia.
Qed.

Lemma search_ok fuel self xs name :
  auth_rep self xs -> (length xs < fuel)%nat ->
  wp (search_name fuel self (UName name) (root (atree self))) (fun a =>
    (a = 0 /\ no_user self xs name) \/ (a <> 0 /\ is_user self xs name a)).
Proof.
  intros [Ht Hs _] Hf. rewrite (search_descend _ _ _ _ 0 LinkRoot). apply wp_bind.
  eapply wp_mono; [by apply (descend_ok (user_key self) fuel (atree self) (UName name) xs)|].
  intros [[n p] slot] Hd. apply wp_ret. unfold descend_post in Hd.
  destruct (Z.eqb_spec n 0) as [->|Hne].
  - left. split; [done|]. destruct Hd as (ls & rs & -> & _ & Ha & Hb).
    intros a. by apply (bounds_absent self ls rs).
  - right. split; [done|]. by destruct Hd.
Qed.

Lemma add_ok fuel self xs user name :
  auth_rep self xs -> user_key self user = Some (UName name) ->
  addr_ok user -> user ∉ xs -> is_Some (cells (atree self) !! user) ->
  (exists u, users self !! user = Some u /\ 1 <= u_ref u) ->
  (length xs < fuel)%nat -> (depth_bound (length xs) < fuel)%nat ->
  wp (hev_socks5_authenticator_add fuel self user) (fun '(self', res) =>
    users self' = users self /\
    ((res = -1 /\ self' = self /\ exists a, is_user self xs name a) \/
     (res = 0 /\ no_user self xs name /\ exists ls rs, xs = ls ++ rs /\
        auth_rep self' (ls ++ user :: rs)))).
Proof.
  intros [Ht Hs Hr] Hk Hu Hni Hcell Hlive Hf Hf2. unfold hev_socks5_authenticator_add.
  rewrite Hk. simpl. apply wp_bind.
  eapply wp_mono; [by apply (descend_ok (user_key self) fuel (atree self) (UName name) xs)|].
  intros [[n p] slot] Hd. unfold descend_post in Hd.
  destruct (Z.eqb_spec n 0) as [->|Hne]; simpl.
  2: { apply wp_ret. split; [done|]. left. split; [done|]. split; [done|]. by exists n. }
  destruct Hd as (ls & rs & -> & Hg & Ha & Hb).
  assert (wp (rb_insert fuel (atree self) user p slot) (fun T' =>
    rb_rep T' (ls ++ user :: rs) /\
    (forall a, a ∉ ls ++ user :: rs -> cells T' !! a = cells (atree self) !! a))) as Hins.
  { by apply insert_gap_ok. }
  unfold rb_insert in Hins. apply wp_bind_inv in Hins.
  apply wp_bind. eapply wp_mono; [exact Hins|]. clear Hins. intros T1 Hins.
  apply wp_bind. eapply wp_mono; [exact Hins|]. intros T2 [Hrep Hcells].
  apply wp_ret. split; [done|]. right. split; [done|]. split.
  { intros a. by apply (bounds_absent self ls rs). }
  exists ls, rs. split; [done|]. constructor; simpl.
  - done.
  - by apply sorted_insert with (k := UName name).
  - apply Forall_app in Hr as [Hrl Hrr]. apply Forall_app. split; [done|]. by constructor.
Qed.

(** Releasing a user that has left the tree. *)
Lemma unref_ok self xs a u :
  auth_rep self xs -> a ∉ xs -> users self !! a = Some u ->
  wp (user_unref self a) (fun self' => auth_rep self' xs /\
    users self' = (if Z.ltb 1 (u_ref u)
                   then <[a := mkUser (u_name u) (u_pass u) (u_ref u - 1)]> (users self)
                   else delete a (users self))).
Proof.
  intros [Ht Hs Hr] Hni Hu. unfold user_unref. rewrite Hu. simpl.
  assert (forall us : gmap Z HevSocks5User, (forall b, b ∈ xs -> us !! b = users self !! b) ->
    forall T, sorted (user_key (mkAuth T us)) xs) as Hsort.
  { intros us Hus T. eapply sorted_ext; [|exact Hs]. intros b Hb. unfold user_key. simpl.
    by rewrite Hus. }
  assert (forall us : gmap Z HevSocks5User, (forall b, b ∈ xs -> us !! b = users self !! b) ->
    Forall (fun a => exists u, us !! a = Some u /\ 1 <= u_ref u) xs) as Hrefs.
  { intros us Hus. rewrite Forall_forall in Hr |- *. intros b Hb. rewrite Hus by done. auto. }
  destruct (Z.ltb 1 (u_ref u)); apply wp_ret; (split; [|done]).
  - assert (forall b, b ∈ xs -> <[a := mkUser (u_name u) (u_pass u) (u_ref u - 1)]> (users self) !! b
      = users self !! b) as Hsame.
    { intros b Hb. apply lookup_insert_ne. intros ->. done. }
    constructor; simpl; [done|by apply Hsort|by apply Hrefs].
  - assert (forall b, b ∈ xs -> delete a (users self) !! b = users self !! b) as Hsame.
    { intros b Hb. apply lookup_delete_ne. intros ->. done. }
    constructor; simpl; [|by apply Hsort|by apply Hrefs].
    apply (rb_rep_frame (atree self)); [done| |done]. simpl. intros b Hb.
    apply lookup_delete_ne. intros ->. done.
Qed.

Lemma erase_user_ok fuel self ls a rs :
  auth_rep self (ls ++ a :: rs) -> (length (ls ++ rs) < fuel)%nat ->
  wp (t ← hev_rbtree_erase fuel (atree self) a; user_unref (set_atree t self) a) (fun self' =>
    auth_rep self' (ls ++ rs) /\
    exists u, users self !! a = Some u /\
      users self' = (if Z.ltb 1 (u_ref u)
                     then <[a := mkUser (u_name u) (u_pass u) (u_ref u - 1)]> (users self)
                     else delete a (users self))).
Proof.
  intros [Ht Hs Hr] Hf. pose proof (rb_rep_uniq _ _ Ht) as Hu.
  apply wp_bind. eapply wp_mono; [by apply erase_ok|]. intros T [Hrep Hcells].
  assert (exists u, users self !! a = Some u /\ 1 <= u_ref u) as (u & Hua & _).
  { rewrite Forall_forall in Hr. apply Hr. set_solver. }
  eapply wp_mono.
  { apply (unref_ok (set_atree T self) (ls ++ rs) a u); [|disj|done].
    constructor; simpl; [done|by eapply sorted_delete|].
    apply Forall_app in Hr as [Hrl Hrr]. apply Forall_cons in Hrr as [_ Hrr].
    by apply Forall_app. }
  intros self' [Hr' Hus]. split; [done|]. by exists u.
Qed.
