(* ===== verification/AuthenticatorProps.v ===== *)
(** * Properties of the authenticator *)
From S2P Require Import Prelude RBTree RBTreeShape RBTreeSpec RBTreeUnlink SearchTree CInt Authenticator.

(** ** Abstract specification: a finite map from names to users *)

Definition represents (self : HevSocks5Authenticator) (m : gmap (list Z) Z) : Prop :=
  exists xs, auth_rep self xs /\ length xs = size m /\
    forall name a, m !! name = Some a <-> is_user self xs name a.

Lemma represents_None (self : HevSocks5Authenticator) (m : gmap (list Z) Z) (xs name : list Z) :
  (forall (name : list Z) a, m !! name = Some a <-> is_user self xs name a) ->
  no_user self xs name <-> m !! name = None.
Proof.
  intros Hm. split.
  - intros Hno. destruct (m !! name) as [a|] eqn:E; [|done]. apply Hm in E as [Hin Hk].
    by destruct (Hno a Hin).
  - intros E a Hin Hk. assert (m !! name = Some a) as E' by (by apply Hm). congruence.
Qed.

(** One reference less; the last one frees the object. *)
Definition released (us : gmap Z HevSocks5User) (a : Z) : gmap Z HevSocks5User :=
  match us !! a with
  | Some u => if Z.ltb 1 (u_ref u) then <[a := mkUser (u_name u) (u_pass u) (u_ref u - 1)]> us
              else delete a us
  | None => us
  end.

Lemma released_ne us a b : a <> b -> released us a !! b = us !! b.
Proof.
  intros Hne. unfold released. destruct (us !! a); [|done].
  destruct (Z.ltb _ _); [by apply lookup_insert_ne|by apply lookup_delete_ne].
Qed.

Lemma user_key_ext self self' a :
  users self' !! a = users self !! a -> user_key self' a = user_key self a.
Proof. intros E. unfold user_key. by rewrite E. Qed.

Lemma rep_erased (self self' : HevSocks5Authenticator) (m : gmap (list Z) Z) (ls : list Z) a rs name :
  auth_rep self (ls ++ a :: rs) -> auth_rep self' (ls ++ rs) ->
  users self' = released (users self) a ->
  length (ls ++ a :: rs) = size m ->
  (forall (name : list Z) a', m !! name = Some a' <-> is_user self (ls ++ a :: rs) name a') ->
  m !! name = Some a -> represents self' (delete name m).
Proof.
  intros Hrep Hrep' Hus Hlen Hm Hname. exists (ls ++ rs).
  pose proof (rb_rep_uniq _ _ (ar_tree _ _ Hrep)) as Hu.
  assert (a ∉ ls ++ rs) as Hni by disj.
  assert (forall b, b ∈ ls ++ rs -> user_key self' b = user_key self b) as Hkey.
  { intros b Hb. apply user_key_ext. rewrite Hus. apply released_ne. intros ->. done. }
  split; [done|]. split.
  - rewrite map_size_delete_Some by (by exists a). rewrite <- Hlen, !length_app. simpl. lia.
  - intros name' b. destruct (decide (name' = name)) as [->|Hne].
    + rewrite lookup_delete_eq. split; [done|]. intros [Hb Hk]. exfalso.
      rewrite Hkey in Hk by done.
      assert (m !! name = Some b) as E by (apply Hm; split; [set_solver|done]).
      rewrite Hname in E. by injection E as <-.
    + rewrite lookup_delete_ne by done. rewrite Hm. split.
      * intros [Hb Hk]. assert (b ≠ a) as Hba.
        { intros ->. apply Hm in Hname as [_ Hk']. congruence. }
        assert (b ∈ ls ++ rs) as Hb' by set_solver. split; [done|]. by rewrite Hkey.
      * intros [Hb Hk]. rewrite Hkey in Hk by done. split; [set_solver|done].
Qed.

Lemma add_represents fuel self m user u :
  represents self m -> (2 * size m + 3 < fuel)%nat ->
  users self !! user = Some u -> 1 <= u_ref u -> addr_ok user ->
  is_Some (cells (atree self) !! user) -> (forall n, m !! n <> Some user) ->
  wp (hev_socks5_authenticator_add fuel self user) (fun '(self', res) =>
    users self' = users self /\
    match m !! u_name u with
    | Some _ => res = -1 /\ self' = self
    | None => res = 0 /\ represents self' (<[u_name u := user]> m)
    end).
Proof.
  intros (xs & Hrep & Hlen & Hm) Hfuel Hu Href Haddr Hcell Hfree.
  assert (user_key self user = Some (UName (u_name u))) as Hkey by (unfold user_key; by rewrite Hu).
  assert (user ∉ xs) as Hni.
  { intros Hin. apply (Hfree (u_name u)). by apply Hm. }
  pose proof (depth_bound_le (length xs)) as Hdb.
  eapply wp_mono; [apply (add_ok fuel self xs user (u_name u)); eauto; lia|].
  intros [self' res] [Hus [(-> & -> & a & Ha)|(-> & Hno & ls & rs & -> & Hrep')]]; (split; [done|]).
  - apply Hm in Ha. by rewrite Ha.
  - apply (represents_None _ m) in Hno as Hnone; [|done]. rewrite Hnone. split; [done|].
    exists (ls ++ user :: rs). split; [done|]. split.
    { rewrite map_size_insert_None by done. rewrite <- Hlen, !length_app. simpl. lia. }
    intros name' b. assert (user_key self' b = user_key self b) as Hb
      by (apply user_key_ext; by rewrite Hus). unfold is_user. rewrite Hb.
    destruct (decide (name' = u_name u)) as [->|Hne].
    + rewrite lookup_insert_eq. split.
      * intros [= <-]. split; [set_solver|done].
      * intros [Hin Hk]. apply elem_of_app in Hin.
         destruct (decide (b = user)) as [->|]; [done|]. exfalso.
         apply (Hno b); [set_solver|done].
    + rewrite lookup_insert_ne by done. rewrite Hm. unfold is_user. split.
      * intros [Hin Hk]. split; [set_solver|done].
      * intros [Hin Hk]. split; [|done]. assert (b ≠ user); [|set_solver].
         intros ->. rewrite Hkey in Hk. congruence.
Qed.

(** C25: the authenticator is a finite map from user names to users, in any
    order of operations: [add] refuses a name that is present and changes
    nothing, and otherwise binds it; [get] gives the user bound to a name, NULL
    for any other; [del] unbinds the name and drops the map's reference to its
    user, so that the user is freed exactly when nobody else holds one; and
    each returns within a number of steps linear in the number of users,
    without touching a freed user. *)
Theorem authenticator_is_map fuel self m user u name :
  represents self m -> (2 * size m + 3 < fuel)%nat ->
  users self !! user = Some u -> 1 <= u_ref u -> addr_ok user ->
  is_Some (cells (atree self) !! user) -> (forall n, m !! n <> Some user) ->
  wp (hev_socks5_authenticator_get fuel self name) (fun a => a = default 0 (m !! name)) /\
  wp (hev_socks5_authenticator_add fuel self user) (fun '(self', res) =>
    users self' = users self /\
    match m !! u_name u with
    | Some _ => res = -1 /\ self' = self
    | None => res = 0 /\ represents self' (<[u_name u := user]> m)
    end) /\
  wp (hev_socks5_authenticator_del fuel self name) (fun '(self', res) =>
    match m !! name with
    | Some a => res = 0 /\ represents self' (delete name m) /\
        users self' = released (users self) a
    | None => res = -1 /\ self' = self
    end).
Proof.
  intros (xs & Hrep & Hlen & Hm) Hfuel Hu Href Haddr Hcell Hfree.
  split_and!.
  - eapply wp_mono; [apply (search_ok fuel self xs name Hrep); lia|].
    intros a [[-> Hno]|[_ Hyes]].
    + apply (represents_None _ m) in Hno; [|done]. by rewrite Hno.
    + apply Hm in Hyes. by rewrite Hyes.
  - apply (add_represents fuel self m user u); try done. by exists xs.
  - unfold hev_socks5_authenticator_del. apply wp_bind.
    eapply wp_mono; [apply (search_ok fuel self xs name Hrep); lia|].
    intros a [[-> Hno]|[Hne Hyes]].
    + simpl. apply wp_ret. apply (represents_None _ m) in Hno; [|done]. by rewrite Hno.
    + rewrite (proj2 (Z.eqb_neq a 0)) by done. pose proof Hyes as [Hin Hk].
      apply Hm in Hyes as Hma. rewrite Hma.
      apply list_elem_of_split in Hin as (ls & rs & ->).
      pose proof (erase_user_ok fuel self ls a rs Hrep) as He.
      rewrite length_app in Hlen. simpl in Hlen.
      assert (length (ls ++ rs) < fuel)%nat as Hf by (rewrite length_app; lia).
      apply He, wp_bind_inv in Hf. apply wp_bind. eapply wp_mono; [exact Hf|]. clear He Hf.
      intros T Hun. apply wp_bind. eapply wp_mono; [exact Hun|].
      intros self' (Hrep' & u' & Hu' & Hus). apply wp_ret.
      assert (users self' = released (users self) a) as Hrel
        by (unfold released; by rewrite Hu').
      split; [done|]. split; [|done].
      eapply (rep_erased self self' m ls a rs); try done. rewrite length_app. simpl. lia.
Qed.

(** Clearing the authenticator ends, empties it and drops exactly one
    reference to each of its users: users that nobody else holds are freed,
    the others survive with one reference less. *)
Theorem authenticator_clear_releases fuel self xs :
  auth_rep self xs -> (2 * length xs + 3 < fuel)%nat ->
  wp (hev_socks5_authenticator_clear fuel self) (fun self' =>
    auth_rep self' [] /\ users self' = foldl released (users self) xs).
Proof.
  revert self xs. induction fuel as [|fuel IH]; intros self xs Hrep Hfuel; [lia|].
  simpl hev_socks5_authenticator_clear. pose proof (depth_bound_le (length xs)) as Hd.
  apply wp_bind. eapply wp_prim; [apply (first_ok (S fuel) (atree self) xs (ar_tree _ _ Hrep)); lia|].
  destruct xs as [|x xs]; simpl.
  { apply wp_ret. done. }
  pose proof (rb_rep_addr_ok _ _ x (ar_tree _ _ Hrep)) as [Hx _]; [set_solver|].
  rewrite (proj2 (Z.eqb_neq x 0)) by done. simpl in Hfuel.
  pose proof (erase_user_ok (S fuel) self [] x xs Hrep) as He.
  assert (length ([] ++ xs) < S fuel)%nat as Hf by (simpl; lia).
  apply He, wp_bind_inv in Hf. apply wp_bind. eapply wp_mono; [exact Hf|]. clear He Hf.
  intros T Hun. apply wp_bind. eapply wp_mono; [exact Hun|].
  intros self' (Hrep' & u & Hu & Hus). simpl in Hrep'.
  eapply wp_mono; [apply (IH self' xs); [done|lia]|]. intros self2 [Hr2 Hu2].
  split; [done|]. rewrite Hu2, Hus. unfold released at 3. by rewrite Hu.
Qed.

(** ** Users are checked by their whole password *)

(** A password is accepted exactly when it equals the user's, byte by byte
    and in length. *)
Theorem user_check_exact self a u pass :
  users self !! a = Some u ->
  hev_socks5_user_check self a pass = Some 0 <-> u_pass u = pass.
Proof.
  intros Hu. unfold hev_socks5_user_check, hev_socks5_user_checker. rewrite Hu. simpl.
  destruct (Z.eqb_spec (Z.of_nat (length (u_pass u))) (Z.of_nat (length pass))); simpl.
  - unfold memcmp. destruct (Z.eqb_spec (strcmp (u_pass u) pass) 0) as [E|E]; simpl.
    + apply strcmp_eq in E. done.
    + split; [done|]. intros <-. exfalso. apply E. by apply strcmp_eq.
  - split; [done|]. intros <-. done.
Qed.

(** ** Two users *)

Definition demo_auth0 : HevSocks5Authenticator :=
  hev_socks5_user_new (hev_socks5_user_new hev_socks5_authenticator_new 8 [117] [112; 119])
    16 [118] [113].

Lemma demo_auth0_rep : represents demo_auth0 ∅.
Proof.
  exists []. split.
  - constructor; simpl; [apply rb_rep_empty|done|constructor].
  - split; [done|]. intros name a. rewrite lookup_empty. split; [done|].
    by intros [?%elem_of_nil _].
Qed.

Lemma authenticator_is_map_witness :
  wp (hev_socks5_authenticator_get 10 demo_auth0 [118]) (fun a => a = 0) /\
  wp (hev_socks5_authenticator_add 10 demo_auth0 8) (fun '(self', res) =>
    users self' = users demo_auth0 /\ res = 0 /\ represents self' (<[[117] := 8]> ∅)) /\
  wp (hev_socks5_authenticator_del 10 demo_auth0 [118]) (fun '(self', res) =>
    res = -1 /\ self' = demo_auth0).
Proof.
  pose proof (authenticator_is_map 10 demo_auth0 ∅ 8 (mkUser [117] [112; 119] 1) [118]
    demo_auth0_rep) as Hm.
  rewrite map_size_empty, !lookup_empty in Hm. apply Hm.
  - lia.
  - reflexivity.
  - simpl. lia.
  - split; [lia|reflexivity].
  - vm_compute. eauto.
  - intros n. by rewrite lookup_empty.
Defined.

Lemma authenticator_clear_releases_witness :
  wp (hev_socks5_authenticator_clear 10 demo_auth0) (fun self' =>
    auth_rep self' [] /\ users self' = users demo_auth0).
Proof.
  apply (authenticator_clear_releases 10 demo_auth0 []).
  - constructor; simpl; [apply rb_rep_empty|done|constructor].
  - simpl. lia.
Defined.

Lemma user_check_exact_witness :
  hev_socks5_user_check demo_auth0 8 [112; 119] = Some 0 <-> [112; 119] = [112; 119].
Proof. apply (user_check_exact demo_auth0 8 (mkUser [117] [112; 119] 1)). reflexivity. Defined.
