(* ===== verification/Server.v ===== *)
(** * The SOCKS5 server (hev-socks5-server.c) *)
From S2P Require Import Prelude CInt Effect SockIO Addr Socks5.

(** ** State *)

(** The union [obj]: nothing, the authenticator, or the authenticated user. *)
Inductive server_obj := NoObj | ObjAuth | ObjUser (user : Z).

Record HevSocks5Server := mkServer {
  s_base : HevSocks5;
  s_fds0 : Z;
  s_fds1 : Z;
  s_obj : server_obj;
}.

Definition map_sbase f s := mkServer (f (s_base s)) (s_fds0 s) (s_fds1 s) (s_obj s).
Definition set_fds0 v s := mkServer (s_base s) v (s_fds1 s) (s_obj s).
Definition set_fds1 v s := mkServer (s_base s) (s_fds0 s) v (s_obj s).
Definition set_obj v s := mkServer (s_base s) (s_fds0 s) (s_fds1 s) v.

Abbreviation MS := (M (HevSocks5Server * World)).

(** What the server asks of the authenticator: the user of a name, and whether
    a password is that user's. *)
Class UserDB := {
  db_get : list Z -> option Z;
  db_check : Z -> list Z -> Z;
}.

Definition get_sbase : MS HevSocks5 := s ← get_self; mret (s_base s).
Definition upd_server (f : HevSocks5Server -> HevSocks5Server) : MS () :=
  s ← get_self; set_self (f s).

Definition hev_socks5_server_construct (fd : Z) : HevSocks5Server :=
  mkServer (set_fd fd (hev_socks5_construct HEV_SOCKS5_TYPE_NONE)) (-1) (-1) NoObj.

Section server.
Context `{Kernel} `{Pton} `{UserDB} (cfg : Settings).

Definition hev_socks5_server_set_auth : MS () :=
  self ← get_self;
  _ ← (match s_obj self with NoObj => mret () | _ => sys_ CUnrefObj end);
  set_self (set_obj ObjAuth self).

(** ** Authentication *)

Definition hev_socks5_server_read_auth_method : MS Z :=
  '(res, auth) ← hev_task_io_socket_recv 2;
  if negb (Z.eqb res 2) then mret (-1) else
  ver ← mem (rd8 auth 0);
  if negb (Z.eqb ver HEV_SOCKS5_VERSION_5) then mret (-1) else
  method_len ← mem (rd8 auth 1);
  '(res, methods) ← hev_task_io_socket_recv method_len;
  if negb (Z.eqb res method_len) then mret (-1) else
  self ← get_self;
  let method := match s_obj self with
    | NoObj => HEV_SOCKS5_AUTH_METHOD_NONE | _ => HEV_SOCKS5_AUTH_METHOD_USER end in
  mret (if existsb (Z.eqb method) (take (Z.to_nat method_len) methods) then method else -1).

Definition hev_socks5_server_write_auth_method (auth_method : Z) : MS Z :=
  res ← hev_task_io_socket_send [HEV_SOCKS5_VERSION_5; u8 auth_method];
  if Z.leb res 0 then mret (-1) else mret 0.

Definition hev_socks5_server_read_auth_user : MS Z :=
  '(res, head) ← hev_task_io_socket_recv 2;
  if negb (Z.eqb res 2) then mret (-1) else
  v ← mem (rd8 head 0);
  if negb (Z.eqb v 1) then mret (-1) else
  nlen ← mem (rd8 head 1);
  if Z.eqb nlen 0 then mret (-1) else
  '(res, name) ← hev_task_io_socket_recv (nlen + 1);
  if negb (Z.eqb res (nlen + 1)) then mret (-1) else
  plen ← mem (rd8 name nlen);
  if Z.eqb plen 0 then mret (-1) else
  '(res, pass) ← hev_task_io_socket_recv plen;
  if negb (Z.eqb res plen) then mret (-1) else
  name ← mem (rdn name 0 nlen);
  pass ← mem (rdn pass 0 plen);
  match db_get name with
  | None => mret (-1)
  | Some user =>
      if Z.ltb (db_check user pass) 0 then mret (-1) else
      _ ← sys (CRefUser user);
      _ ← sys CUnrefAuth;
      _ ← upd_server (set_obj (ObjUser user));
      mret 0
  end.

Definition hev_socks5_server_write_auth_user (auth_res : Z) : MS Z :=
  res ← hev_task_io_socket_send [1; u8 auth_res];
  if Z.leb res 0 then mret (-1) else mret 0.

Definition hev_socks5_server_auth : MS Z :=
  method ← hev_socks5_server_read_auth_method;
  res ← hev_socks5_server_write_auth_method method;
  if Z.ltb res 0 then mret (-1) else
  if Z.eqb method HEV_SOCKS5_AUTH_METHOD_NONE then mret 0
  else if Z.eqb method HEV_SOCKS5_AUTH_METHOD_USER then
    res ← hev_socks5_server_read_auth_user;
    res2 ← hev_socks5_server_write_auth_user res;
    if Z.ltb (Z.lor res res2) 0 then mret (-1) else mret 0
  else mret (-1).

(** ** The request *)

(** The result, and [*cmd], [*rep] and [*addr] as the call leaves them. *)
Definition hev_socks5_server_read_request (cmd rep : Z) (addr : sockaddr_in6)
  : MS (Z * Z * Z * sockaddr_in6) :=
  '(res, req) ← hev_task_io_socket_recv 5;
  if negb (Z.eqb res 5) then mret (-1, cmd, rep, addr) else
  ver ← mem (rd8 req 0);
  if negb (Z.eqb ver HEV_SOCKS5_VERSION_5) then
    mret (0, cmd, HEV_SOCKS5_RES_REP_FAIL, addr) else
  atype ← mem (rd8 req 3);
  len ← mem (rd8 req 4);
  let addrlen :=
    if Z.eqb atype HEV_SOCKS5_ADDR_TYPE_IPV4 then 5
    else if Z.eqb atype HEV_SOCKS5_ADDR_TYPE_IPV6 then 17
    else if Z.eqb atype HEV_SOCKS5_ADDR_TYPE_NAME then 2 + len
    else -1 in
  if Z.ltb addrlen 0 then mret (0, cmd, HEV_SOCKS5_RES_REP_ADDR, addr) else
  '(res, rest) ← hev_task_io_socket_recv addrlen;
  if negb (Z.eqb res addrlen) then mret (0, cmd, HEV_SOCKS5_RES_REP_ADDR, addr) else
  base ← get_sbase;
  '(addr, family, res) ← hev_socks5_addr_into_sockaddr6 (atype :: len :: rest) addr
    (hev_socks5_get_addr_family base);
  if Z.ltb res 0 then mret (0, cmd, HEV_SOCKS5_RES_REP_ADDR, addr) else
  _ ← upd_server (map_sbase (hev_socks5_set_addr_family family));
  c ← mem (rd8 req 1);
  mret (0, c, rep, addr).

Definition hev_socks5_server_write_response (rep : Z) (addr : sockaddr_in6) : MS Z :=
  '(a, len) ← mem (hev_socks5_addr_from_sockaddr6 (replicate 260 0) addr);
  piece ← mem (rdn ([HEV_SOCKS5_VERSION_5; u8 rep; 0] ++ a) 0 (3 + len));
  ret ← hev_task_io_socket_send piece;
  if Z.leb ret 0 then mret (-1) else mret 0.

(** ** Sockets *)

Definition hev_socks5_server_connect (addr : sockaddr_in6) : MS Z :=
  fd ← hev_socks5_socket SOCK_STREAM;
  if Z.ltb fd 0 then mret (-1) else
  res ← sys (CBinder fd);
  if Z.ltb res 0 then close_failed fd else
  _ ← upd_server (map_sbase (hev_socks5_set_timeout (connect_timeout cfg)));
  res ← sys (CConnect fd addr);
  if Z.ltb res 0 then close_failed fd else
  _ ← upd_server (map_sbase (hev_socks5_set_timeout (tcp_timeout cfg)));
  _ ← upd_server (set_fds0 fd);
  mret 0.

(** Binds next to the control connection; the port is the kernel's choice. *)
Definition hev_socks5_server_udp_bind (sock : Z) (src : sockaddr_in6)
  : MS (Z * sockaddr_in6) :=
  base ← get_sbase;
  '(res, name) ← sys_addr (CGetsockname (fd base));
  if Z.ltb res 0 then mret (-1, src) else
  let src := mkSA (sin6_family name) [0; 0] (sin6_addr name) in
  res ← sys (CBind sock src);
  if Z.ltb res 0 then mret (-1, src) else
  '(res, name) ← sys_addr (CGetsockname sock);
  if Z.ltb res 0 then mret (-1, src) else
  mret (0, name).

Definition hev_socks5_server_bind (addr : option sockaddr_in6)
  : MS (Z * option sockaddr_in6) :=
  fd ← hev_socks5_socket SOCK_DGRAM;
  if Z.ltb fd 0 then mret (-1, addr) else
  _ ← upd_server (set_fds0 fd);
  match addr with
  | None => mret (0, None)
  | Some a =>
      fd ← hev_socks5_socket SOCK_DGRAM;
      if Z.ltb fd 0 then mret (-1, addr) else
      res ← sys (CSetsockopt fd);
      if Z.ltb res 0 then r ← close_failed fd; mret (r, addr) else
      '(res, a) ← hev_socks5_server_udp_bind fd a;
      if Z.ltb res 0 then r ← close_failed fd; mret (r, Some a) else
      _ ← upd_server (set_fds1 fd);
      mret (0, Some a)
  end.

(** ** The handshake and the service *)

(** [cmd0] and [addr0] are what the stack holds. *)
Definition hev_socks5_server_handshake (cmd0 : Z) (addr0 : sockaddr_in6) : MS Z :=
  _ ← upd_server (map_sbase (hev_socks5_set_timeout (tcp_timeout cfg)));
  res ← hev_socks5_server_auth;
  if Z.ltb res 0 then mret (-1) else
  '(res, cmd, rep, addr) ←
    hev_socks5_server_read_request cmd0 HEV_SOCKS5_RES_REP_SUCC addr0;
  if Z.ltb res 0 then mret (-1) else
  '(rep, addr) ←
    (if Z.eqb rep HEV_SOCKS5_RES_REP_SUCC then
       if Z.eqb cmd HEV_SOCKS5_REQ_CMD_CONNECT then
         res ← hev_socks5_server_connect addr;
         _ ← upd_server (map_sbase (set_stype HEV_SOCKS5_TYPE_TCP));
         mret (if Z.ltb res 0 then HEV_SOCKS5_RES_REP_HOST else rep, addr)
       else if Z.eqb cmd HEV_SOCKS5_REQ_CMD_UDP_ASC then
         '(res, a) ← hev_socks5_server_bind (Some addr);
         _ ← upd_server (map_sbase (set_stype HEV_SOCKS5_TYPE_UDP_IN_UDP));
         mret (if Z.ltb res 0 then HEV_SOCKS5_RES_REP_FAIL else rep, default addr a)
       else if Z.eqb cmd HEV_SOCKS5_REQ_CMD_FWD_UDP then
         '(res, _) ← hev_socks5_server_bind None;
         _ ← upd_server (map_sbase (set_stype HEV_SOCKS5_TYPE_UDP_IN_TCP));
         mret (if Z.ltb res 0 then HEV_SOCKS5_RES_REP_FAIL else rep, addr)
       else mret (HEV_SOCKS5_RES_REP_IMPL, addr)
     else mret (rep, addr));
  res ← hev_socks5_server_write_response rep addr;
  if (Z.ltb res 0 || negb (Z.eqb rep HEV_SOCKS5_RES_REP_SUCC))%bool then mret (-1)
  else mret 0.

Definition hev_socks5_server_service : MS Z :=
  self ← get_self;
  let type := stype (s_base self) in
  if Z.eqb type HEV_SOCKS5_TYPE_TCP then
    _ ← sys (CTcpSplice (fd (s_base self)) (s_fds0 self)); mret 0
  else if (Z.eqb type HEV_SOCKS5_TYPE_UDP_IN_UDP || Z.eqb type HEV_SOCKS5_TYPE_UDP_IN_TCP)%bool
  then
    _ ← upd_server (map_sbase (hev_socks5_set_timeout (udp_timeout cfg)));
    _ ← sys (CUdpSplice (s_fds0 self)); mret 0
  else mret (-1).

Definition hev_socks5_server_run (cmd0 : Z) (addr0 : sockaddr_in6) : MS Z :=
  base ← get_sbase;
  res ← sys (CTaskAddFd (fd base));
  _ ← (if Z.ltb res 0 then sys_ (CTaskModFd (fd base)) else mret ());
  res ← hev_socks5_server_handshake cmd0 addr0;
  if Z.ltb res 0 then mret (-1) else
  res ← hev_socks5_server_service;
  if Z.ltb res 0 then mret (-1) else mret 0.

Definition hev_socks5_server_get_fd : MS Z :=
  self ← get_self;
  let type := stype (s_base self) in
  if Z.eqb type HEV_SOCKS5_TYPE_UDP_IN_TCP then mret (fd (s_base self))
  else if Z.eqb type HEV_SOCKS5_TYPE_UDP_IN_UDP then mret (s_fds1 self)
  else mret (-1).

Definition close_field (f : Z) : MS () :=
  if Z.leb 0 f then _ ← sys (CTaskDelFd f); _ ← sys (CClose f); mret () else mret ().

Definition hev_socks5_server_destruct : MS () :=
  self ← get_self;
  _ ← close_field (s_fds0 self);
  _ ← close_field (s_fds1 self);
  _ ← (match s_obj self with NoObj => mret () | _ => sys_ CUnrefObj end);
  close_field (fd (s_base self)).

End server.
