(* ===== verification/ServerSpec.v ===== *)
(** * The SOCKS5 server handshake as a function of the client's stream: lemmas *)
From S2P Require Import Prelude CInt Effect SockIO Addr AddrSpec Socks5 Descriptors Client ClientSpec ClientProps Server.

(** ** Abstract specification *)

(** The credentials that are accepted. *)
Class UserLaws (DB : UserDB) (accepts : list Z -> list Z -> bool) := {
  db_accepts : forall name pass,
    match db_get name with
    | Some u => Z.ltb (db_check u pass) 0 = negb (accepts name pass)
    | None => accepts name pass = false
    end;
}.

(** The methods a client offers, and what follows them. *)
Definition spec_methods (s : list Z) : option (list Z * list Z) :=
  match s with
  | v :: n :: s =>
      if (Z.eqb v 5 && Z.leb n (Z.of_nat (length s)))%bool
      then Some (take (Z.to_nat n) s, drop (Z.to_nat n) s) else None
  | _ => None
  end.

(** The name and password of RFC 1929, and what follows them. *)
Definition spec_user (s : list Z) : option (list Z * list Z * list Z) :=
  match s with
  | v :: n :: s =>
      if (Z.eqb v 1 && Z.ltb 0 n && Z.leb (n + 1) (Z.of_nat (length s)))%bool then
        match drop (Z.to_nat n) s with
        | p :: s' =>
            if (Z.ltb 0 p && Z.leb p (Z.of_nat (length s')))%bool
            then Some (take (Z.to_nat n) s, take (Z.to_nat p) s', drop (Z.to_nat p) s') else None
        | [] => None
        end
      else None
  | _ => None
  end.

(** What is sent during authentication and what follows it when it succeeds. *)
Definition spec_server_auth (need_user : bool) (accepts : list Z -> list Z -> bool)
    (s : list Z) : list Z * option (list Z) :=
  match spec_methods s with
  | Some (ms, s) =>
      if existsb (Z.eqb (if need_user then 2 else 0)) ms then
        if need_user then
          match spec_user s with
          | Some (name, pass, s) =>
              if accepts name pass then ([5; 2; 1; 0], Some s) else ([5; 2; 1; 255], None)
          | None => ([5; 2; 1; 255], None)
          end
        else ([5; 0], Some s)
      else ([5; 255], None)
  | None => ([5; 255], None)
  end.

Inductive spec_req :=
| ReqShort
| ReqBad (rep : Z)
| ReqOk (cmd : Z) (d : Dest) (rest : list Z).

(** The port of the last two bytes. *)
Definition port_of (l : list Z) : Z := match l with [a; b] => of_be16 a b | _ => 0 end.

Definition spec_request (s : list Z) : spec_req :=
  match s with
  | v :: cmd :: _ :: t :: b :: s' =>
      if negb (Z.eqb v 5) then ReqBad 1 else
      let n := if Z.eqb t 1 then 5 else if Z.eqb t 4 then 17 else if Z.eqb t 3 then 2 + b else -1 in
      if Z.ltb n 0 then ReqBad 8
      else if Z.ltb (Z.of_nat (length s')) n then ReqBad 8
      else
        let body := take (Z.to_nat n) s' in
        let rest := drop (Z.to_nat n) s' in
        if Z.eqb t 1 then ReqOk cmd (DIp4 (b :: take 3 body) (port_of (drop 3 body))) rest
        else if Z.eqb t 4 then ReqOk cmd (DIp6 (b :: take 15 body) (port_of (drop 15 body))) rest
        else ReqOk cmd (DName (take (Z.to_nat b) body) (port_of (drop (Z.to_nat b) body))) rest
  | _ => ReqShort
  end.

(** ** The two halves of authentication *)

Section lemmas.
Context `{Kernel} `{Pton} `{DB : UserDB} {accepts : list Z -> list Z -> bool}
  `{!UserLaws DB accepts} (cfg : Settings).
Implicit Types (x : HevSocks5Server) (w : World) (S out : list Z).

Definition need_user (x : HevSocks5Server) : bool :=
  match s_obj x with NoObj => false | _ => true end.

Lemma recv_short n m (r : Z) : r < n -> negb (Z.eqb r n) = true \/ m = r.
Proof. intros. left. rewrite (proj2 (Z.eqb_neq r n)) by lia. done. Qed.

Lemma server_read_method_ok x w S out Q :
  io_at w S out ->
  (forall w' m S', io_at w' S' out ->
     (m = (if need_user x then 2 else 0) /\ (exists ms, spec_methods S = Some (ms, S') /\
        existsb (Z.eqb m) ms = true) \/
      m = -1 /\ match spec_methods S with
        | Some (ms, _) => existsb (Z.eqb (if need_user x then 2 else 0)) ms = false
        | None => True end) -> Q (x, w') m) ->
  mwp hev_socks5_server_read_auth_method (x, w) Q.
Proof.
  intros Hio HQ. pose proof (io_bytes_ok _ _ _ Hio) as Hb.
  unfold hev_socks5_server_read_auth_method.
  mstep. eapply io_recv; [done|lia|..].
  2: { intros w' S' r buf Hlt Hio' _ Hr. cbv beta iota.
    rewrite (proj2 (Z.eqb_neq r 2)) by lia. simpl. mstep. eapply HQ; [done|]. right.
    split; [done|]. destruct S as [|v [|m S]]; simpl in *; done || lia. }
  intros w' Hle Hio' _. destruct S as [|v [|n S]]; [simpl in Hle; lia..|].
  simpl in *. rewrite drop_0 in Hio'.
  apply Forall_cons in Hb as [_ Hb]. apply Forall_cons in Hb as [Hn Hb]. unfold byte_ok in Hn.
  mstep. eapply mwp_mem; [done|]. simpl. unfold HEV_SOCKS5_VERSION_5.
  destruct (Z.eqb_spec v 5); simpl.
  2: { mstep. eapply HQ; [done|]. by right. }
  mstep. eapply mwp_mem; [done|].
  mstep. eapply io_recv; [done|lia|..].
  2: { intros w2 S' r buf Hlt Hio2 _ Hr. cbv beta iota.
    rewrite (proj2 (Z.eqb_neq r n)) by lia. simpl. mstep. eapply HQ; [done|]. right.
    split; [done|]. by rewrite (proj2 (Z.leb_gt n _)) by done. }
  intros w2 Hle2 Hio2 _. cbv beta iota. rewrite Z.eqb_refl. simpl.
  mstep. apply mwp_get_self. simpl. mstep. eapply HQ; [done|].
  rewrite (proj2 (Z.leb_le n _)) by done. rewrite take_take, Nat.min_id.
  fold (need_user x).
  assert ((match s_obj x with NoObj => HEV_SOCKS5_AUTH_METHOD_NONE | _ => HEV_SOCKS5_AUTH_METHOD_USER end)
    = if need_user x then 2 else 0) as -> by (unfold need_user; by destruct (s_obj x)).
  destruct (existsb _ _) eqn:E; [left|right; done]. split; [done|]. eexists. split; [done|]. exact E.
Qed.

(** The name, the byte after it and what follows, of one receive. *)
Lemma user_name_split n p (S S' : list Z) :
  0 <= n -> bytes_ok S -> drop (Z.to_nat n) S = p :: S' ->
  length (take (Z.to_nat n) S) = Z.to_nat n /\ drop (Z.to_nat (n + 1)) S = S' /\
  take (Z.to_nat (n + 1)) S = take (Z.to_nat n) S ++ [p] /\ byte_ok p.
Proof.
  intros Hn Hb ES. destruct (split_at S (Z.to_nat n)) as (a & r & -> & Ha).
  { apply (f_equal length) in ES. rewrite length_drop in ES. simpl in ES. lia. }
  rewrite drop_app_length' in ES by done. subst r.
  replace (Z.to_nat (n + 1)) with (length (a ++ [p])) by (rewrite length_app; simpl; lia).
  rewrite take_app_length' by done. apply Forall_app in Hb as [_ Hb].
  apply Forall_cons in Hb as [Hp _].
  change (p :: S') with ([p] ++ S'). rewrite app_assoc, drop_app_length, take_app_length. done.
Qed.

Lemma server_read_user_ok x w S out Q :
  io_at w S out ->
  (forall x' w' name pass S', spec_user S = Some (name, pass, S') -> accepts name pass = true ->
     io_at w' S' out -> s_base x' = s_base x -> s_fds0 x' = s_fds0 x -> s_fds1 x' = s_fds1 x ->
     Q (x', w') 0) ->
  (forall w' S', io_at w' S' out ->
     match spec_user S with Some (name, pass, _) => accepts name pass = false | None => True end ->
     Q (x, w') (-1)) ->
  mwp hev_socks5_server_read_auth_user (x, w) Q.
Proof.
  intros Hio HQ HQn. pose proof (io_bytes_ok _ _ _ Hio) as Hb.
  unfold hev_socks5_server_read_auth_user.
  mstep. eapply io_recv; [done|lia|..].
  2: { intros w' S' r buf Hlt Hio' _ Hr. cbv beta iota.
    rewrite (proj2 (Z.eqb_neq r 2)) by lia. simpl. mstep. eapply HQn; [done|].
    destruct S as [|v [|m S]]; simpl in *; done || lia. }
  intros w' Hle Hio' _. destruct S as [|v [|n S]]; [simpl in Hle; lia..|].
  simpl in *. rewrite drop_0 in Hio'.
  apply Forall_cons in Hb as [_ Hb]. apply Forall_cons in Hb as [Hn Hb]. unfold byte_ok in Hn.
  mstep. eapply mwp_mem; [done|]. simpl.
  destruct (Z.eqb_spec v 1); simpl; [|mstep; by eapply HQn].
  mstep. eapply mwp_mem; [done|].
  destruct (Z.eqb_spec n 0) as [->|Hn0]; simpl; [mstep; by eapply HQn|].
  rewrite (proj2 (Z.ltb_lt 0 n)) in HQ, HQn by lia. simpl in HQ, HQn.
  mstep. eapply io_recv; [done|lia|..].
  2: { intros w2 S' r buf Hlt Hio2 _ Hr. cbv beta iota.
    rewrite (proj2 (Z.eqb_neq r _)) by lia. simpl. mstep. eapply HQn; [done|].
    by rewrite (proj2 (Z.leb_gt (n + 1) _)) by done. }
  intros w2 Hle2 Hio2 _. cbv beta iota. rewrite Z.eqb_refl. simpl.
  rewrite (proj2 (Z.leb_le (n + 1) _)) in HQ, HQn by done.
  destruct (drop (Z.to_nat n) S) as [|p S'] eqn:ES.
  { apply (f_equal length) in ES. rewrite length_drop in ES. simpl in ES. lia. }
  destruct (user_name_split n p S S' ltac:(lia) Hb ES) as (Hln & Hd1 & Ht1 & Hp).
  rewrite Hd1 in Hio2. rewrite Ht1.
  unfold byte_ok in Hp.
  mstep. eapply mwp_mem; [apply rd8_middle; lia|].
  destruct (Z.eqb_spec p 0) as [->|Hp0]; simpl; [mstep; by eapply HQn|].
  rewrite (proj2 (Z.ltb_lt 0 p)) in HQ, HQn by lia. simpl in HQ, HQn.
  mstep. eapply io_recv; [done|lia|..].
  2: { intros w3 S3 r buf Hlt Hio3 _ Hr. cbv beta iota.
    rewrite (proj2 (Z.eqb_neq r _)) by lia. simpl. mstep. eapply HQn; [done|].
    by rewrite (proj2 (Z.leb_gt p _)) by done. }
  intros w3 Hle3 Hio3 _. cbv beta iota. rewrite Z.eqb_refl. simpl.
  rewrite (proj2 (Z.leb_le p _)) in HQ, HQn by done.
  mstep. eapply mwp_mem; [apply (rdn_app [] _ [p]); [done|lia]|].
  mstep. eapply mwp_mem.
  { rewrite <- (app_nil_r (take (Z.to_nat p) S')).
    apply (rdn_app [] _ []); [done|rewrite length_take; lia]. }
  pose proof (db_accepts (take (Z.to_nat n) S) (take (Z.to_nat p) S')) as Hdb.
  destruct (db_get _) as [u|]; [|mstep; by eapply HQn].
  rewrite Hdb. destruct (accepts _ _) eqn:Eacc; simpl; [|mstep; by eapply HQn].
  mstep. eapply io_sys; [done|]. intros w4 Hio4 _.
  mstep. eapply io_sys; [done|]. intros w5 Hio5 _.
  unfold upd_server. mstep. mstep. apply mwp_get_self. apply mwp_set_self. simpl.
  mstep. by eapply HQ.
Qed.

Lemma server_auth_ok x w S out Q :
  io_at w S out ->
  (forall x' w' sent S', spec_server_auth (need_user x) accepts S = (sent, Some S') ->
     io_at w' S' (out ++ sent) -> s_base x' = s_base x -> s_fds0 x' = s_fds0 x ->
     s_fds1 x' = s_fds1 x -> Q (x', w') 0) ->
  (forall w' sent S', spec_server_auth (need_user x) accepts S = (sent, None) ->
     io_at w' S' (out ++ sent) -> Q (x, w') (-1)) ->
  mwp hev_socks5_server_auth (x, w) Q.
Proof.
  intros Hio HQ HQn. unfold hev_socks5_server_auth, spec_server_auth in *.
  mstep. eapply server_read_method_ok; [done|]. intros w1 m S1 Hio1 Hm.
  unfold hev_socks5_server_write_auth_method.
  mstep. mstep. eapply io_send; [done|done|]. intros w2 Hio2 _. simpl. mstep. simpl.
  unfold HEV_SOCKS5_AUTH_METHOD_NONE, HEV_SOCKS5_AUTH_METHOD_USER, HEV_SOCKS5_VERSION_5 in *.
  destruct Hm as [[Hm (ms & Hms & Hex)]|[-> Hm]].
  2: { simpl. mstep. eapply HQn; [|exact Hio2].
       destruct (spec_methods S) as [[ms S']|]; [|done]. by rewrite Hm. }
  rewrite Hms in HQ, HQn. rewrite <- Hm, Hex in HQ, HQn.
  destruct (need_user x); subst m; simpl.
  2: { mstep. by eapply HQ. }
  mstep. eapply server_read_user_ok; [done|..].
  - intros x' w3 name pass S3 Hu Hacc Hio3 Hb H0' H1'. rewrite Hu in HQ, HQn. rewrite Hacc in HQ.
    unfold hev_socks5_server_write_auth_user.
    mstep. mstep. eapply io_send; [done|done|]. intros w4 Hio4 _. simpl. mstep. simpl. mstep.
    eapply HQ; [done| |done|done|done]. by rewrite <- app_assoc in Hio4.
  - intros w3 S3 Hio3 Hu. unfold hev_socks5_server_write_auth_user.
    mstep. mstep. eapply io_send; [done|done|]. intros w4 Hio4 _. simpl. mstep. simpl. mstep.
    eapply HQn; [|by rewrite <- app_assoc in Hio4].
    destruct (spec_user S1) as [[[name pass] S']|]; [|done]. by rewrite Hu.
Qed.

(** ** The request *)

(** What is returned about a socket address is one. *)
Definition kernel_sa_ok : Prop := forall t c, sa_ok (k_addr t c).

Lemma length_set_v4 a : length a = 4%nat -> length (v4mapped ++ a) = 16%nat.
Proof. intros Ha. rewrite length_app, Ha. done. Qed.

Lemma le16_bytes v : length (le16 v) = 2%nat /\ bytes_ok (le16 v).
Proof. split; [done|]. repeat constructor; apply u8_ok. Qed.

(** What the code takes for the socket address of a destination, when resolving
    with the family [f] was logged in [log]: the address itself, a name that is
    a numeric address, or the resolver's first answer; always with the
    destination's port.  A name ends at its first zero. *)
Inductive resolves (log : list (call * Z)) (f : Z) : Dest -> sockaddr_in6 -> Prop :=
| res_ip d sa fam : dest_sa d = Some (sa, fam) -> resolves log f d sa
| res_numeric4 n p a : inet_pton4 (cstr n) = Some a ->
    resolves log f (DName n p) (mkSA AF_INET6 (be16 p) (v4mapped ++ a))
| res_numeric6 n p a : inet_pton4 (cstr n) = None -> inet_pton6 (cstr n) = Some a ->
    resolves log f (DName n p) (mkSA AF_INET6 (be16 p) a)
| res_ipv4 n p t : inet_pton4 (cstr n) = None -> inet_pton6 (cstr n) = None ->
    let c := CGetaddrinfo (cstr n) f in
    ((c, AF_INET) :: t) `suffix_of` log -> k_ret t c = AF_INET ->
    resolves log f (DName n p)
      (mkSA AF_INET6 (be16 p) (v4mapped ++ take 4 (sin6_addr (k_addr t c))))
| res_ipv6 n p t : inet_pton4 (cstr n) = None -> inet_pton6 (cstr n) = None ->
    let c := CGetaddrinfo (cstr n) f in
    ((c, AF_INET6) :: t) `suffix_of` log -> k_ret t c = AF_INET6 ->
    resolves log f (DName n p) (mkSA AF_INET6 (be16 p) (take 16 (sin6_addr (k_addr t c)))).

(** The resolver knows no address of either kind. *)
Definition unresolved (log : list (call * Z)) (f : Z) (d : Dest) : Prop :=
  exists n p t r, d = DName n p /\ inet_pton4 (cstr n) = None /\ inet_pton6 (cstr n) = None /\
    ((CGetaddrinfo (cstr n) f, r) :: t) `suffix_of` log /\ r <> AF_INET /\ r <> AF_INET6.

Lemma resolves_later w w' f d sa : later w w' -> resolves (w_trace w) f d sa -> resolves (w_trace w') f d sa.
Proof.
  unfold later. intros Hl Hr. destruct Hr; [by eapply res_ip|by apply res_numeric4|by apply res_numeric6|..].
  - apply res_ipv4; [done..|by etrans|done].
  - apply res_ipv6; [done..|by etrans|done].
Qed.

Lemma name_into_io {X} n port sa f (x : X) w S out (Q : X * World -> sockaddr_in6 * Z * Z -> Prop) :
  kernel_sa_ok -> length (sin6_addr sa) = 16%nat -> 0 <= port < 65536 -> io_at w S out ->
  (forall w' sa' f' r, io_at w' S out -> sa_ok sa' ->
     (if Z.ltb r 0 then unresolved (w_trace w') f (DName n port)
      else resolves (w_trace w') f (DName n port) sa') -> Q (x, w') (sa', f', r)) ->
  mwp (hev_socks5_name_into_sockaddr6 (cstr n) port sa f) (x, w) Q.
Proof.
  intros Hk Hsa Hport Hio HQ. unfold hev_socks5_name_into_sockaddr6.
  destruct (le16_bytes (htons port)) as [Hp1 Hp2].
  assert (forall a, length a = 16%nat -> sa_ok (mkSA AF_INET6 (le16 (htons port)) a)) as Hok
    by by intros.
  unfold hev_socks5_name_resolve_ipv4. destruct (inet_pton4 (cstr n)) as [a4|] eqn:E4; simpl.
  { mstep. apply HQ; [done|apply Hok, length_set_v4; by eapply inet_pton4_len|].
    simpl. unfold set_addr. simpl. rewrite le16_htons by done. by apply res_numeric4. }
  unfold hev_socks5_name_resolve_ipv6. destruct (inet_pton6 (cstr n)) as [a6|] eqn:E6; simpl.
  { mstep. apply HQ; [done|apply Hok; by eapply inet_pton6_len|].
    simpl. unfold set_addr. simpl. rewrite le16_htons by done. by apply res_numeric6. }
  assert (length (replicate 10 0 ++ drop 10 (sin6_addr sa)) = 16%nat) as H10
    by (rewrite length_app, length_drop, Hsa; done).
  unfold hev_socks5_name_resolve_name. mstep. apply mwp_sys_addr. cbv beta iota.
  destruct (Hk (w_trace w) (CGetaddrinfo (cstr n) f)) as (_ & _ & Hl).
  set (w1 := with_trace _ w). assert (io_at w1 S out) as Hio1 by exact Hio.
  assert (forall r, k_ret (w_trace w) (CGetaddrinfo (cstr n) f) = r ->
    ((CGetaddrinfo (cstr n) f, r) :: w_trace w) `suffix_of` w_trace w1) as Hlog by by intros ? <-.
  assert (forall r, k_ret (w_trace w) (CGetaddrinfo (cstr n) f) = r -> r <> AF_INET -> r <> AF_INET6 ->
    unresolved (w_trace w1) f (DName n port)) as Hun.
  { intros r Hr H4 H6. exists n, port, (w_trace w), r. split_and!; [done..|by apply Hlog|done|done]. }
  unfold set_addr. rewrite le16_htons in * by done.
  destruct (Z.ltb_spec (k_ret (w_trace w) (CGetaddrinfo (cstr n) f)) 0).
  { mstep. apply HQ; [done|by apply Hok|]. apply (Hun _ eq_refl); unfold AF_INET, AF_INET6; lia. }
  destruct (Z.eqb_spec (k_ret (w_trace w) (CGetaddrinfo (cstr n) f)) AF_INET) as [E|N4].
  { mstep. apply HQ; [done|apply Hok, length_set_v4; rewrite length_take, Hl; done|].
    apply (res_ipv4 _ _ _ _ (w_trace w)); auto. }
  destruct (Z.eqb_spec (k_ret (w_trace w) (CGetaddrinfo (cstr n) f)) AF_INET6) as [E|N6].
  { mstep. apply HQ; [done|apply Hok; rewrite length_take, Hl; done|].
    apply (res_ipv6 _ _ _ _ (w_trace w)); auto. }
  mstep. apply HQ; [done|by apply Hok|]. by apply (Hun _ eq_refl).
Qed.

(** A name of any bytes; the resolver sees it up to its first zero. *)
Lemma addr_into_name_io {X} n p1 p2 sa f (x : X) w S out Q :
  kernel_sa_ok -> length (sin6_addr sa) = 16%nat -> io_at w S out ->
  Z.of_nat (length n) < 256 -> byte_ok p1 -> byte_ok p2 ->
  (forall w' sa' f' r, io_at w' S out -> sa_ok sa' ->
     (if Z.ltb r 0 then unresolved (w_trace w') f (DName n (of_be16 p1 p2))
      else resolves (w_trace w') f (DName n (of_be16 p1 p2)) sa') -> Q (x, w') (sa', f', r)) ->
  mwp (hev_socks5_addr_into_sockaddr6 (3 :: Z.of_nat (length n) :: n ++ [p1; p2]) sa f) (x, w) Q.
Proof.
  intros Hk Hsa Hio Hn Hp1 Hp2 HQ. unfold hev_socks5_addr_into_sockaddr6.
  mstep. eapply mwp_mem; [done|]. simpl.
  mstep. eapply mwp_mem; [done|]. mstep.
  change (3 :: Z.of_nat (length n) :: n ++ [p1; p2])
    with ([3; Z.of_nat (length n)] ++ n ++ [p1; p2]).
  eapply mwp_mem; [by apply rdn_app|].
  destruct (split_at name_buf (length n)) as (z & zr & Ez & Hz).
  { unfold name_buf. rewrite length_replicate. lia. }
  assert (exists y zr', zr = y :: zr') as (y & zr' & ->).
  { destruct zr as [|y zr']; [|by eauto].
    apply (f_equal length) in Ez. unfold name_buf in Ez.
    rewrite length_replicate, length_app in Ez. simpl in Ez. lia. }
  mstep. eapply mwp_mem.
  { rewrite Ez. apply (memcpy_app []); [done|lia|lia]. }
  rewrite take_ge by lia. simpl app.
  mstep. eapply mwp_mem; [by apply wr8_app|]. mstep.
  eapply mwp_mem.
  { apply (load16_app (3 :: Z.of_nat (length n) :: n)). simpl. unfold off_domain_addr. lia. }
  mstep. eapply mwp_mem.
  { unfold c_string. simpl. change (u8 0) with 0. apply c_string_from_cstr. }
  rewrite ntohs_le16 by done.
  eapply name_into_io; [done..| |done|done]. unfold of_be16, byte_ok in *. lia.
Qed.

(** The structure that is read is the destination's encoding. *)
Lemma request_addr t b body n :
  bytes_ok (b :: body) -> length body = Z.to_nat n ->
  (t = 1 /\ n = 5 /\ exists d, d = DIp4 (b :: take 3 body) (port_of (drop 3 body)) /\
     t :: b :: body = wire d /\ dest_ok d) \/
  (t = 4 /\ n = 17 /\ exists d, d = DIp6 (b :: take 15 body) (port_of (drop 15 body)) /\
     t :: b :: body = wire d /\ dest_ok d) \/
  (t = 3 /\ n = 2 + b /\ exists p1 p2, drop (Z.to_nat b) body = [p1; p2] /\
     body = take (Z.to_nat b) body ++ [p1; p2] /\ byte_ok p1 /\ byte_ok p2 /\
     Z.of_nat (length (take (Z.to_nat b) body)) = b) \/
  ~ ((t = 1 /\ n = 5) \/ (t = 4 /\ n = 17) \/ (t = 3 /\ n = 2 + b)).
Proof.
  intros Hb Hl. apply Forall_cons in Hb as [Hb0 Hb]. pose proof Hb0 as Hb1. unfold byte_ok in Hb1.
  assert (forall k, Z.of_nat k + 2 = n -> exists p1 p2, drop k body = [p1; p2] /\
    body = take k body ++ [p1; p2] /\ length (take k body) = k /\ byte_ok p1 /\ byte_ok p2 /\
    bytes_ok (take k body)) as Hsplit.
  { intros k Hk. destruct (split_at body k) as (a & r & -> & Ha); [lia|].
    rewrite length_app in Hl. destruct (list_len2 r) as (p1 & p2 & ->); [lia|].
    apply Forall_app in Hb as [Hba Hbr]. apply Forall_cons in Hbr as [H1 Hbr].
    apply Forall_cons in Hbr as [H2 _].
    exists p1, p2. rewrite drop_app_length', take_app_length' by done. by split_and!. }
  destruct (decide (t = 1 /\ n = 5)) as [[-> ->]|N1].
  { left. split; [done|]. split; [done|]. destruct (Hsplit 3%nat) as (p1 & p2 & E & Eb & El & H1 & H2 & Hbt); [lia|].
    eexists. split; [done|]. rewrite E. simpl port_of. split.
    - rewrite Eb at 1. simpl. by rewrite be16_of_be16.
    - split; [simpl; by rewrite El|]. split; [by constructor|].
      unfold of_be16, byte_ok in *. lia. }
  destruct (decide (t = 4 /\ n = 17)) as [[-> ->]|N4].
  { right. left. split; [done|]. split; [done|].
    destruct (Hsplit 15%nat) as (p1 & p2 & E & Eb & El & H1 & H2 & Hbt); [lia|].
    eexists. split; [done|]. rewrite E. simpl port_of. split.
    - rewrite Eb at 1. simpl. by rewrite be16_of_be16.
    - split; [simpl; by rewrite El|]. split; [by constructor|].
      unfold of_be16, byte_ok in *. lia. }
  destruct (decide (t = 3 /\ n = 2 + b)) as [[-> ->]|N3].
  { right. right. left. split; [done|]. split; [done|].
    destruct (Hsplit (Z.to_nat b)) as (p1 & p2 & E & Eb & El & H1 & H2 & Hbt); [lia|].
    exists p1, p2. split_and!; [done..|lia]. }
  right. right. right. tauto.
Qed.

(** The address family and the command of a request that is accepted. *)
Lemma set_family_ok x w l f (c rep : Z) (sa : sockaddr_in6)
    (Q : HevSocks5Server * World -> Z * Z * Z * sockaddr_in6 -> Prop) :
  rd8 l 1 = Some c ->
  Q (map_sbase (hev_socks5_set_addr_family f) x, w) (0, c, rep, sa) ->
  mwp (_ ← upd_server (map_sbase (hev_socks5_set_addr_family f));
       c ← mem (rd8 l 1);
       mret (0, c, rep, sa)) (x, w) Q.
Proof.
  intros Hl HQ. unfold upd_server. mstep. mstep. apply mwp_get_self. apply mwp_set_self. simpl.
  mstep. eapply mwp_mem; [exact Hl|]. by mstep.
Qed.

(** The destination that type [t] makes of a first byte and what is received after it. *)
Definition body_dest (t b : Z) (body : list Z) : Dest :=
  if Z.eqb t 1 then DIp4 (b :: take 3 body) (port_of (drop 3 body))
  else if Z.eqb t 4 then DIp6 (b :: take 15 body) (port_of (drop 15 body))
  else DName (take (Z.to_nat b) body) (port_of (drop (Z.to_nat b) body)).

Definition body_len (t b : Z) : Z :=
  if Z.eqb t 1 then 5 else if Z.eqb t 4 then 17 else if Z.eqb t 3 then 2 + b else -1.

Lemma spec_request_ok c rsv t b S :
  0 <= body_len t b <= Z.of_nat (length S) ->
  spec_request (5 :: c :: rsv :: t :: b :: S) =
    ReqOk c (body_dest t b (take (Z.to_nat (body_len t b)) S)) (drop (Z.to_nat (body_len t b)) S).
Proof.
  intros Hn. simpl. unfold body_dest. fold (body_len t b).
  rewrite (proj2 (Z.ltb_ge _ 0)), (proj2 (Z.ltb_ge _ (body_len t b))) by lia.
  by repeat case_match.
Qed.

(** The part of the handler after the second receive. *)
Lemma server_request_dest_ok x w S out c rsv v t b body a0 c0 Q :
  kernel_sa_ok -> length (sin6_addr a0) = 16%nat -> io_at w S out ->
  bytes_ok (b :: body) -> 0 <= body_len t b -> length body = Z.to_nat (body_len t b) ->
  (forall w' c' a, unresolved (w_trace w') (addr_family (s_base x)) (body_dest t b body) ->
     io_at w' S out -> sa_ok a -> Q (x, w') (0, c', 8, a)) ->
  (forall w' a f, io_at w' S out -> sa_ok a ->
     resolves (w_trace w') (addr_family (s_base x)) (body_dest t b body) a ->
     Q (map_sbase (hev_socks5_set_addr_family f) x, w') (0, c, 0, a)) ->
  mwp ('(addr, family, res) ← hev_socks5_addr_into_sockaddr6 (t :: b :: body) a0
         (hev_socks5_get_addr_family (s_base x));
       if Z.ltb res 0 then mret (0, c0, HEV_SOCKS5_RES_REP_ADDR, addr) else
       _ ← upd_server (map_sbase (hev_socks5_set_addr_family family));
       c ← mem (rd8 [v; c; rsv; t; b] 1);
       mret (0, c, 0, addr)) (x, w) Q.
Proof.
  intros Hk Ha0 Hio Hbb Hn0 Hlb HQn HQ.
  destruct (request_addr t b body _ Hbb Hlb)
    as [(-> & Hn & d & Ed & Hw & Hd)|[(-> & Hn & d & Ed & Hw & Hd)|[(-> & Hn & p1 & p2 & Ed & Eb & Hp1 & Hp2 & El)|Hbad]]].
  1, 2: subst d; rewrite Hw; mstep;
    (eapply addr_into_sockaddr6_ip; [exact Hd|exists []; by rewrite app_nil_r|reflexivity|]);
    simpl; (eapply set_family_ok; [done|]); apply HQ; [done| |by eapply res_ip];
    destruct Hd as (Hl & _ & _).
  - split_and!; [done|repeat constructor; apply u8_ok|by apply length_set_v4].
  - split_and!; [done|repeat constructor; apply u8_ok|done].
  - apply Forall_cons in Hbb as [Hb0 _]. unfold byte_ok in Hb0.
    rewrite <- El at 1. rewrite Eb at 2. mstep.
    assert (body_dest 3 b body = DName (take (Z.to_nat b) body) (of_be16 p1 p2)) as Hd
      by (unfold body_dest; by rewrite Ed). rewrite Hd in *.
    eapply addr_into_name_io; [done|done|done|lia|done|done|]. intros w3 sa fam r Hio3 Hok Hres.
    destruct (Z.ltb r 0); [mstep; by eapply HQn|].
    eapply set_family_ok; [done|]. by apply HQ.
  - exfalso. apply Hbad. unfold body_len in *.
    destruct (Z.eqb_spec t 1), (Z.eqb_spec t 4), (Z.eqb_spec t 3); simpl; lia.
Qed.

Lemma server_read_request_ok x w S out c0 a0 Q :
  kernel_sa_ok -> length (sin6_addr a0) = 16%nat -> io_at w S out ->
  (forall w' S' a c r, spec_request S = ReqShort -> io_at w' S' out -> Q (x, w') (-1, c, r, a)) ->
  (forall w' S' c r, spec_request S = ReqBad r -> r <> 0 -> io_at w' S' out -> Q (x, w') (0, c, r, a0)) ->
  (forall w' c d rest c' a, spec_request S = ReqOk c d rest ->
     unresolved (w_trace w') (addr_family (s_base x)) d ->
     io_at w' rest out -> sa_ok a -> Q (x, w') (0, c', 8, a)) ->
  (forall w' c d rest a f, spec_request S = ReqOk c d rest -> io_at w' rest out -> sa_ok a ->
     resolves (w_trace w') (addr_family (s_base x)) d a ->
     Q (map_sbase (hev_socks5_set_addr_family f) x, w') (0, c, 0, a)) ->
  mwp (hev_socks5_server_read_request c0 0 a0) (x, w) Q.
Proof.
  intros Hk Ha0 Hio HQs HQb HQn HQ. pose proof (io_bytes_ok _ _ _ Hio) as Hb.
  unfold hev_socks5_server_read_request.
  mstep. eapply io_recv; [done|lia|..].
  2: { intros w' S' r buf Hlt Hio' _ Hr. cbv beta iota.
    rewrite (proj2 (Z.eqb_neq r 5)) by lia. simpl. mstep. eapply HQs; [|done].
    destruct S as [|? [|? [|? [|? [|? S]]]]]; simpl in *; done || lia. }
  intros w' Hle Hio' _. destruct S as [|v [|c [|rsv [|t [|b S]]]]]; [simpl in Hle; lia..|].
  simpl in Hio'. simpl. rewrite drop_0 in Hio'.
  assert (bytes_ok (b :: S)) as HbS by (by do 4 apply Forall_cons in Hb as [_ Hb]).
  mstep. eapply mwp_mem; [done|]. simpl negb. unfold HEV_SOCKS5_VERSION_5.
  destruct (Z.eqb_spec v 5) as [->|Hv]; simpl.
  2: { mstep. eapply HQb; [|done|done]. simpl. by rewrite (proj2 (Z.eqb_neq v 5)). }
  mstep. eapply mwp_mem; [done|]. mstep. eapply mwp_mem; [done|].
  unfold HEV_SOCKS5_ADDR_TYPE_IPV4, HEV_SOCKS5_ADDR_TYPE_IPV6, HEV_SOCKS5_ADDR_TYPE_NAME.
  fold (body_len t b).
  assert (body_len t b < 0 \/ Z.of_nat (length S) < body_len t b ->
    spec_request (5 :: c :: rsv :: t :: b :: S) = ReqBad 8) as Hbad.
  { intros Hn. simpl. fold (body_len t b). destruct (Z.ltb_spec (body_len t b) 0); [done|].
    by rewrite (proj2 (Z.ltb_lt _ (body_len t b))) by lia. }
  destruct (Z.ltb_spec (body_len t b) 0) as [Hn|Hn].
  { mstep. eapply HQb; [by apply Hbad; left|done|done]. }
  mstep. eapply io_recv; [done|lia|..].
  2: { intros w2 S' r buf Hlt Hio2 _ Hr. cbv beta iota.
    rewrite (proj2 (Z.eqb_neq r _)) by lia. simpl. mstep. eapply HQb; [|done|done].
    by apply Hbad; right. }
  intros w2 Hle2 Hio2 _. cbv beta iota. rewrite Z.eqb_refl. cbn [negb].
  rewrite spec_request_ok in HQn, HQ by lia.
  unfold get_sbase. mstep. mstep. apply mwp_get_self. mstep. cbn [fst snd].
  eapply server_request_dest_ok; [done|done|exact Hio2| |done|rewrite length_take; lia|..].
  - apply Forall_cons in HbS as [? HbS]. constructor; [done|]. by apply Forall_take.
  - intros. by eapply HQn.
  - intros. by eapply HQ.
Qed.

Lemma server_write_response_ok x w S out rep sa Q :
  sa_ok sa -> io_at w S out ->
  (forall w', io_at w' S (out ++ [5; u8 rep; 0] ++ wire (sa_dest sa)) ->
     w_trace w' = w_trace w -> Q (x, w') 0) ->
  mwp (hev_socks5_server_write_response rep sa) (x, w) Q.
Proof.
  intros Hsa Hio HQ. unfold hev_socks5_server_write_response.
  destruct (addr_from_sockaddr6_ok (replicate 260 0) sa) as [r Hr]; [rewrite length_replicate; lia|done|].
  mstep. eapply mwp_mem; [done|]. cbv beta iota. mstep. eapply mwp_mem.
  { rewrite app_assoc. apply (rdn_app []); [done|]. rewrite length_app. simpl. lia. }
  mstep. eapply io_send; [done|done|]. intros w' Hio' Htr. cbv beta.
  rewrite (proj2 (Z.leb_gt _ 0)) by (simpl; lia). mstep. by apply HQ.
Qed.

(** ** Sockets *)

(** A connection to [sa] stands on the descriptor of the object. *)
Definition connected (log : list (call * Z)) (x : HevSocks5Server) (sa : sockaddr_in6) : Prop :=
  opened log SOCK_STREAM (s_fds0 x) /\
  exists r, 0 <= r /\ (CConnect (s_fds0 x) sa, r) ∈ log.

(** Both datagram sockets are there, the client's one is bound next to the
    control connection, and [sa] is the address the kernel names for it. *)
Definition relaying (log : list (call * Z)) (x : HevSocks5Server) (sa : sockaddr_in6) : Prop :=
  opened log SOCK_DGRAM (s_fds0 x) /\ opened log SOCK_DGRAM (s_fds1 x) /\
  exists t0 r0 r1 t2 r2,
    let near := k_addr t0 (CGetsockname (fd (s_base x))) in
    ((CGetsockname (fd (s_base x)), r0) :: t0) `suffix_of` log /\ 0 <= r0 /\
    (CBind (s_fds1 x) (mkSA (sin6_family near) [0; 0] (sin6_addr near)), r1) ∈ log /\ 0 <= r1 /\
    ((CGetsockname (s_fds1 x), r2) :: t2) `suffix_of` log /\ 0 <= r2 /\
    sa = k_addr t2 (CGetsockname (s_fds1 x)).

Lemma server_connect_ok x w S out sa Q :
  io_at w S out ->
  (forall x' w', io_at w' S out -> later w w' -> Q (x', w') (-1)) ->
  (forall x' w', io_at w' S out -> later w w' -> connected (w_trace w') x' sa -> Q (x', w') 0) ->
  mwp (hev_socks5_server_connect cfg sa) (x, w) Q.
Proof.
  intros Hio HQn HQ. unfold hev_socks5_server_connect.
  mstep. eapply socket_opened; [done|]. intros w1 f Hio1 L1 Hf.
  destruct (Z.ltb_spec f 0); [mstep; by apply HQn|]. destruct Hf as [?|Hf]; [lia|].
  assert (forall x' w', io_at w' S out -> later w1 w' -> mwp (close_failed f) (x', w') Q) as Hclose.
  { intros x' w' Hio' L. eapply close_failed_later; [done|]. intros w2 Hio2 L2.
    apply HQn; [done|]. by do 2 (eapply later_trans; [done|]). }
  mstep. eapply io_sys; [done|]. intros w2 Hio2 L2%later_step.
  destruct (Z.ltb _ 0); [by apply Hclose|].
  unfold upd_server. mstep. mstep. apply mwp_get_self. apply mwp_set_self. simpl.
  mstep. eapply io_sys; [done|]. intros w3 Hio3 Ht3. pose proof (later_step _ _ _ Ht3) as L3.
  pose proof (later_trans _ _ _ L2 L3) as L.
  destruct (Z.ltb_spec (k_ret (w_trace w2) (CConnect f sa)) 0) as [|Hr]; [by apply Hclose|].
  mstep. mstep. apply mwp_get_self. apply mwp_set_self.
  mstep. mstep. apply mwp_get_self. apply mwp_set_self. mstep.
  apply HQ; [done|by eapply later_trans|]. split; [by eapply opened_later|].
  eexists. split; [exact Hr|]. simpl. rewrite Ht3. apply list_elem_of_here.
Qed.

(** Binding the client's socket. *)
Lemma server_udp_bind_ok x w S out f sa Q :
  kernel_sa_ok -> sa_ok sa -> io_at w S out -> opened (w_trace w) SOCK_DGRAM f ->
  opened (w_trace w) SOCK_DGRAM (s_fds0 x) ->
  (forall w' sa', io_at w' S out -> later w w' -> sa_ok sa' -> Q (x, w') (-1, sa')) ->
  (forall w' sa', io_at w' S out -> later w w' -> sa_ok sa' ->
     relaying (w_trace w') (set_fds1 f x) sa' -> Q (x, w') (0, sa')) ->
  mwp (hev_socks5_server_udp_bind f sa) (x, w) Q.
Proof.
  intros Hk Hsa Hio Hf Hf0 HQn HQ. unfold hev_socks5_server_udp_bind, get_sbase.
  mstep. mstep. apply mwp_get_self. mstep. mstep. apply mwp_sys_addr. cbv beta iota. cbn [fst].
  set (c0 := CGetsockname (fd (s_base x))). set (near := k_addr (w_trace w) c0).
  set (w1 := with_trace _ w). assert (io_at w1 S out) as Hio1 by exact Hio.
  assert (later w w1) as L1 by (by eapply later_step).
  destruct (Z.ltb_spec (k_ret (w_trace w) c0) 0) as [|Hr0]; [mstep; by apply HQn|].
  mstep. eapply io_sys; [done|]. intros w2 Hio2 E2. pose proof (later_step _ _ _ E2) as L2.
  set (src := mkSA (sin6_family near) [0; 0] (sin6_addr near)) in *.
  assert (sa_ok src) as Hsrc.
  { destruct (Hk (w_trace w) c0) as (_ & _ & Hl). split; [done|]. split; [repeat constructor; lia|exact Hl]. }
  pose proof (later_trans _ _ _ L1 L2) as L12.
  destruct (Z.ltb_spec (k_ret (w_trace w1) (CBind f src)) 0) as [|Hr1]; [mstep; by apply HQn|].
  mstep. apply mwp_sys_addr. cbv beta iota. set (w3 := with_trace _ w2).
  assert (io_at w3 S out) as Hio3 by exact Hio2.
  assert (later w2 w3) as L3 by (by eapply later_step).
  pose proof (later_trans _ _ _ L12 L3) as L.
  destruct (Z.ltb_spec (k_ret (w_trace w2) (CGetsockname f)) 0) as [|Hr2]; [mstep; by apply HQn|].
  mstep. apply HQ; [done..|apply Hk|].
  split; [by eapply opened_later|]. split; [by eapply opened_later|].
  exists (w_trace w), (k_ret (w_trace w) c0), (k_ret (w_trace w1) (CBind f src)), (w_trace w2),
    (k_ret (w_trace w2) (CGetsockname f)). simpl.
  split_and!; try done.
  - change (w_trace w1 `suffix_of` w_trace w3). by eapply (later_trans w1 w2 w3).
  - apply (later_in w2 w3); [done|]. rewrite E2. apply list_elem_of_here.
Qed.

(** What [bind] has done when it succeeds. *)
Definition bound (log : list (call * Z)) (x : HevSocks5Server) (a : option sockaddr_in6) : Prop :=
  match a with
  | Some sa => relaying log x sa
  | None => opened log SOCK_DGRAM (s_fds0 x)
  end.

Lemma server_bind_ok x w S out a Q :
  kernel_sa_ok -> (forall sa, a = Some sa -> sa_ok sa) -> io_at w S out ->
  (forall x' w' r a', io_at w' S out -> later w w' ->
     (forall sa, a' = Some sa -> sa_ok sa) -> (is_Some a' <-> is_Some a) ->
     r < 0 \/ bound (w_trace w') x' a' -> Q (x', w') (r, a')) ->
  mwp (hev_socks5_server_bind a) (x, w) Q.
Proof.
  intros Hk Ha Hio HQ. unfold hev_socks5_server_bind.
  mstep. eapply socket_opened; [done|]. intros w1 f Hio1 L1 Hf.
  destruct (Z.ltb_spec f 0); [mstep; apply HQ; [done..|left; lia]|]. destruct Hf as [?|Hf]; [lia|].
  unfold upd_server. mstep. mstep. apply mwp_get_self. apply mwp_set_self. simpl.
  destruct a as [sa|]; [|mstep; apply HQ; [done..|by right]].
  mstep. eapply socket_opened; [done|]. intros w2 f2 Hio2 L2 Hf2.
  pose proof (later_trans _ _ _ L1 L2) as L12.
  destruct (Z.ltb_spec f2 0); [mstep; apply HQ; [done..|left; lia]|]. destruct Hf2 as [?|Hf2]; [lia|].
  assert (forall x' w' sa', io_at w' S out -> later w2 w' -> sa_ok sa' ->
    mwp (r ← close_failed f2; mret (r, Some sa')) (x', w') Q) as Hclose.
  { intros x' w' sa' Hio' L Hsa'. mstep. eapply close_failed_later; [done|]. intros w5 Hio5 L5.
    mstep. apply HQ; [done| |by intros ? [= <-]|done|left; lia].
    by do 2 (eapply later_trans; [done|]). }
  mstep. eapply io_sys; [done|]. intros w3 Hio3 L3%later_step.
  destruct (Z.ltb _ 0); [apply Hclose; [done..|by apply Ha]|].
  mstep. eapply server_udp_bind_ok; [done|by apply Ha|exact Hio3|by eapply opened_later| | |].
  - simpl. apply (opened_later w1 w3); [by apply (later_trans w1 w2 w3)|done].
  - intros w4 sa' Hio4 L4 Hsa'. simpl. apply Hclose; [done|by apply (later_trans w2 w3 w4)|done].
  - intros w4 sa' Hio4 L4 Hsa' Hrel. simpl.
    mstep. mstep. apply mwp_get_self. apply mwp_set_self. mstep.
    apply HQ; [done| |by intros ? [= <-]|done|by right].
    by do 2 (eapply later_trans; [done|]).
Qed.

End lemmas.
