(* ===== verification/ServerProps.v ===== *)
(** * Properties of the SOCKS5 server, and of client and server together *)
From S2P Require Import Prelude RBTree RBTreeSpec CInt Effect SockIO Addr AddrSpec AddrProps Socks5 Descriptors Client ClientSpec ClientProps Authenticator AuthenticatorProps Server ServerSpec.

(** ** The authenticator serves the server *)

(** The user database that an authenticator represents. *)
Definition authenticator_db (fuel : nat) (self : HevSocks5Authenticator) : UserDB := {|
  db_get := fun name =>
    match hev_socks5_authenticator_get fuel self name with
    | Some a => if Z.eqb a 0 then None else Some a
    | None => None
    end;
  db_check := fun a pass => default (-1) (hev_socks5_user_check self a pass) |}.

Definition credentials_of (self : HevSocks5Authenticator) (m : gmap (list Z) Z)
    (name pass : list Z) : bool :=
  match m !! name with
  | Some a => match users self !! a with
              | Some u => bool_decide (u_pass u = pass) | None => false end
  | None => false
  end.

Lemma user_checker_ok u pass :
  hev_socks5_user_checker u pass = if bool_decide (u_pass u = pass) then 0 else -1.
Proof.
  unfold hev_socks5_user_checker, memcmp.
  destruct (Z.eqb_spec (Z.of_nat (length (u_pass u))) (Z.of_nat (length pass))) as [El|El]; simpl.
  - destruct (Z.eqb_spec (strcmp (u_pass u) pass) 0) as [E|E]; simpl.
    + apply strcmp_eq in E. by rewrite bool_decide_eq_true_2.
    + rewrite bool_decide_eq_false_2; [done|]. intros Eq. apply E. by apply strcmp_eq.
  - rewrite bool_decide_eq_false_2; [done|]. congruence.
Qed.

Lemma authenticator_laws fuel self m :
  represents self m -> (size m < fuel)%nat ->
  UserLaws (authenticator_db fuel self) (credentials_of self m).
Proof.
  intros (xs & Hrep & Hlen & Hm) Hf. constructor. intros name pass. simpl.
  destruct (search_ok fuel self xs name Hrep) as (a & E & Ha); [lia|].
  unfold hev_socks5_authenticator_get. rewrite E.
  destruct Ha as [[-> Hno]|[Hne Hyes]]; simpl.
  - apply (represents_None _ m) in Hno; [|done]. unfold credentials_of. by rewrite Hno.
  - rewrite (proj2 (Z.eqb_neq a 0)) by done. pose proof Hyes as [Hin _].
    pose proof (ar_refs _ _ Hrep) as Hr. rewrite Forall_forall in Hr.
    destruct (Hr a Hin) as (u & Hu & _).
    apply Hm in Hyes. unfold credentials_of, hev_socks5_user_check. rewrite Hyes, Hu. simpl.
    rewrite user_checker_ok. by destruct (bool_decide (u_pass u = pass)).
Qed.

(** ** The handshake *)

Section handshake.
Context `{Kernel} `{Pton} `{DB : UserDB} {accepts : list Z -> list Z -> bool}
  `{!UserLaws DB accepts} (cfg : Settings).

(** What a request that was understood leads to: the code of the reply, its
    address, and what then stands, by the log of the system calls. *)
Definition answered (log : list (call * Z)) (f cmd : Z) (d : Dest) (x : HevSocks5Server)
    (rep : Z) (sa : sockaddr_in6) : Prop :=
  (rep = 8 /\ unresolved log f d) \/
  exists a, resolves log f d a /\
    ((cmd = 1 /\ sa = a /\ stype (s_base x) = HEV_SOCKS5_TYPE_TCP /\
        (rep = 4 \/ rep = 0 /\ connected log x a)) \/
     (cmd = 3 /\ stype (s_base x) = HEV_SOCKS5_TYPE_UDP_IN_UDP /\
        (rep = 1 \/ rep = 0 /\ relaying log x sa)) \/
     (cmd = 5 /\ sa = a /\ stype (s_base x) = HEV_SOCKS5_TYPE_UDP_IN_TCP /\
        (rep = 1 \/ rep = 0 /\ opened log SOCK_DGRAM (s_fds0 x))) \/
     (cmd <> 1 /\ cmd <> 3 /\ cmd <> 5 /\ sa = a /\ rep = 7)).

Definition server_post (x : HevSocks5Server) (S out : list Z)
    (s : HevSocks5Server * World) (res : Z) : Prop :=
  let '(sent, next) := spec_server_auth (need_user x) accepts S in
  match next with
  | None => res = -1 /\ w_sent s.2 = out ++ sent
  | Some S1 =>
      match spec_request S1 with
      | ReqShort => res = -1 /\ w_sent s.2 = out ++ sent
      | ReqBad rep =>
          res = -1 /\ exists d, w_sent s.2 = out ++ sent ++ [5; u8 rep; 0] ++ wire d
      | ReqOk cmd d rest => exists rep sa,
          w_sent s.2 = out ++ sent ++ [5; rep; 0] ++ wire (sa_dest sa) /\
          sa_ok sa /\ res = (if Z.eqb rep 0 then 0 else -1) /\ stream (w_rx s.2) = rest /\
          answered (w_trace s.2) (addr_family (s_base x)) cmd d s.1 rep sa
      end
  end.

Lemma answered_rep log f cmd d x rep sa : answered log f cmd d x rep sa -> 0 <= rep < 256.
Proof. unfold answered. naive_solver lia. Qed.

(** The reply and the result of a request that was understood. *)
Lemma server_reply_ok f c d out sent rest x3 w3 rep sa :
  sa_ok sa -> io_at w3 rest (out ++ sent) -> answered (w_trace w3) f c d x3 rep sa ->
  mwp (res ← hev_socks5_server_write_response rep sa;
       if (Z.ltb res 0 || negb (Z.eqb rep HEV_SOCKS5_RES_REP_SUCC))%bool
       then mret (-1) else mret 0) (x3, w3)
    (fun s res => exists rep sa,
      w_sent s.2 = out ++ sent ++ [5; rep; 0] ++ wire (sa_dest sa) /\
      sa_ok sa /\ res = (if Z.eqb rep 0 then 0 else -1) /\ stream (w_rx s.2) = rest /\
      answered (w_trace s.2) f c d s.1 rep sa).
Proof.
  intros Hsa Hio3 Ha. pose proof (answered_rep _ _ _ _ _ _ _ Ha) as Hrep. mstep.
  eapply server_write_response_ok; [exact Hsa|done|]. intros w4 (_ & _ & Hs & Hw) Htr.
  simpl. assert (u8 rep = rep) as Eu by (by apply Z.mod_small).
  assert (mret (M := M (HevSocks5Server * World)) (if Z.eqb rep 0 then 0 else -1)
    = if negb (Z.eqb rep 0) then mret (-1) else mret 0) as Em by by destruct (Z.eqb rep 0).
  unfold HEV_SOCKS5_RES_REP_SUCC. rewrite <- Em. mstep.
  exists rep, sa. simpl. rewrite Htr. split_and!; try done. by rewrite Hw, Eu, <- !app_assoc.
Qed.

Lemma server_handshake_ok x w S out cmd0 addr0 :
  kernel_sa_ok -> sa_ok addr0 -> io_at w S out ->
  mwp (hev_socks5_server_handshake cfg cmd0 addr0) (x, w) (server_post x S out).
Proof.
  intros Hk Ha0 Hio. unfold hev_socks5_server_handshake, server_post, upd_server.
  mstep. mstep. apply mwp_get_self. apply mwp_set_self. mstep. simpl.
  set (x0 := map_sbase _ x). change (need_user x) with (need_user x0).
  eapply server_auth_ok; [done|..].
  2: { intros w1 sent S' -> (_ & _ & _ & Hs). simpl. by mstep. }
  intros x1 w1 sent S1 -> Hio1 Hb _ _. simpl. mstep.
  eapply server_read_request_ok; [done|apply Ha0|done|..].
  - intros w2 S' a c r -> (_ & _ & _ & Hs). simpl. by mstep.
  - intros w2 S' c r -> Hr Hio2. simpl. rewrite (proj2 (Z.eqb_neq r _)) by done.
    mstep. mstep. mstep. eapply server_write_response_ok; [exact Ha0|done|].
    intros w3 (_ & _ & _ & Hs) _. simpl. rewrite (proj2 (Z.eqb_neq r _)) by done.
    cbn [negb]. mstep. split; [done|]. eexists. simpl. by rewrite Hs, <- !app_assoc.
  - intros w2 c d rest c' a -> Hun Hio2 Hok. simpl. rewrite Hb in Hun.
    mstep. mstep. apply (server_reply_ok _ c d); [done..|]. by left.
  - intros w2 c d rest a f -> Hio2 Hok Hres. simpl. rewrite Hb in Hres. simpl in Hres.
    unfold HEV_SOCKS5_REQ_CMD_CONNECT, HEV_SOCKS5_REQ_CMD_UDP_ASC, HEV_SOCKS5_REQ_CMD_FWD_UDP.
    unfold upd_server in *. mstep.
    destruct (Z.eqb_spec c 1) as [->|N1]; [|destruct (Z.eqb_spec c 3) as [->|N3];
      [|destruct (Z.eqb_spec c 5) as [->|N5]]].
    + mstep. eapply server_connect_ok; [done|..].
      * intros x3 w3 Hio3 L. mstep. mstep. apply mwp_get_self. apply mwp_set_self. simpl. mstep.
        apply (server_reply_ok _ 1 d); [done..|]. right. exists a.
        split; [by eapply resolves_later|]. left. by auto.
      * intros x3 w3 Hio3 L Hc. mstep. mstep. apply mwp_get_self. apply mwp_set_self.
        simpl. mstep. apply (server_reply_ok _ 1 d); [done..|]. right. exists a.
        split; [by eapply resolves_later|]. left. split_and!; [done..|by right].
    + mstep. eapply server_bind_ok; [done|by intros ? [= <-]|done|].
      intros x3 w3 r a' Hio3 L Ha' Hi Hr. simpl. mstep. mstep. apply mwp_get_self. apply mwp_set_self.
      simpl. mstep. assert (is_Some a') as [sa' ->] by (by apply Hi).
      apply (server_reply_ok _ 3 d); [by apply Ha'|done|]. right. exists a.
      split; [by eapply resolves_later|]. right. left. split; [done|]. split; [done|].
      destruct (Z.ltb_spec r 0); [by left|]. destruct Hr as [?|Hr]; [lia|]. by right.
    + mstep. eapply server_bind_ok; [done|done|done|].
      intros x3 w3 r a' Hio3 L Ha' Hi Hr. simpl. mstep. mstep. apply mwp_get_self. apply mwp_set_self.
      simpl. mstep. apply (server_reply_ok _ 5 d); [done..|]. right. exists a.
      split; [by eapply resolves_later|]. right. right. left. split_and!; [done..|].
      destruct (Z.ltb_spec r 0); [by left|]. destruct Hr as [?|Hr]; [lia|]. right. split; [done|].
      destruct a' as [sa'|]; [|done]. by destruct (proj1 Hi ltac:(by eexists)).
    + mstep. apply (server_reply_ok _ c d); [done..|]. right. exists a. split; [done|].
      right. right. right. by split_and!.
Qed.

(** C26: What the server answers and returns is a function of the bytes the
    client sends and of what the system calls return, whatever chunks and delays
    the bytes come in, and no sequence of
    bytes makes it read or write outside its buffers.  It answers 255 to a
    greeting that is malformed, cut short or without the method it requires;
    with an authenticator it goes on exactly for a name and password that the
    authenticator accepts; a request of the wrong version, address type or
    length is refused with a reply.  A request that is understood ([answered])
    is refused with 8 when the resolver has no address for its name; otherwise
    the server connects to, and replies with, the address of the request or the
    one that the resolver gave for exactly its name, with the requested port
    (CONNECT), binds the client's datagram socket next to the control
    connection, replies with the address it got, and has a second one for the
    targets (UDP ASSOCIATE), has a datagram socket for the targets (UDP in TCP),
    or refuses any other command with 7; and it succeeds exactly when it replied
    with 0.  The client takes what it is sent. *)
Theorem server_handshake_correct x w S out cmd0 addr0 :
  kernel_sa_ok -> sa_ok addr0 -> io_at w S out ->
  mwp (hev_socks5_server_handshake cfg cmd0 addr0) (x, w) (server_post x S out).
Proof. apply server_handshake_ok. Qed.
End handshake.

(** ** A handshake *)

Definition demo_db : UserDB := {|
  db_get := fun name => if bool_decide (name = [117]) then Some 8 else None;
  db_check := fun _ pass => hev_socks5_user_checker (mkUser [117] [112; 119] 1) pass |}.

Definition demo_accepts (name pass : list Z) : bool :=
  (bool_decide (name = [117]) && bool_decide (pass = [112; 119]))%bool.

Lemma demo_user_laws : UserLaws demo_db demo_accepts.
Proof.
  constructor. intros name pass. simpl. unfold demo_accepts.
  destruct (bool_decide (name = [117])); [|done]. rewrite user_checker_ok. simpl.
  case_bool_decide as H1; case_bool_decide as H2; try done; congruence.
Qed.

Definition demo_server : HevSocks5Server :=
  mkServer (mkSocks5 3 (-1) 0 HEV_SOCKS5_TYPE_NONE AF_UNSPEC) (-1) (-1) ObjAuth.

(** The client's bytes: greeting, credentials, CONNECT to 10.0.0.1:80, data. *)
Definition demo_stream : list Z :=
  [5; 2; 0; 2] ++ [1; 1; 117; 2; 112; 119] ++ [5; 1; 0; 1; 10; 0; 0; 1; 0; 80] ++ [72; 73].

Definition demo_server_world : World :=
  mkWorld [RxData (take 3 demo_stream); RxAgain false; RxData (drop 3 demo_stream)]
    [TxAccept 1; TxAgain false] [] [(CSocket 1, 3)].

Lemma demo_server_io : io_at demo_server_world demo_stream [].
Proof.
  split_and!; [| |done|done].
  - repeat constructor; done || lia.
  - unfold tx_good, demo_server_world. simpl.
    repeat (apply Forall_cons; split; [first [by left|right; eexists; split; [done|lia]]|]).
    constructor.
Qed.

Lemma fd_kernel_sa_ok : @kernel_sa_ok fd_kernel.
Proof. intros t c. split; [done|]. split; [repeat constructor; lia|done]. Qed.

Lemma server_handshake_correct_witness :
  mwp (@hev_socks5_server_handshake fd_kernel no_pton demo_db settings 0
         (mkSA AF_INET6 [0; 0] (replicate 16 0)))
    (demo_server, demo_server_world)
    (fun s res => exists rep sa,
       w_sent s.2 = [5; 2; 1; 0; 5; rep; 0] ++ wire (sa_dest sa) /\
       sa_ok sa /\ res = (if Z.eqb rep 0 then 0 else -1) /\ stream (w_rx s.2) = [72; 73] /\
       @answered fd_kernel no_pton (w_trace s.2) AF_UNSPEC 1 (DIp4 [10; 0; 0; 1] 80) s.1 rep sa).
Proof.
  apply (@server_handshake_correct fd_kernel no_pton demo_db demo_accepts demo_user_laws settings
    demo_server demo_server_world demo_stream []).
  - exact fd_kernel_sa_ok.
  - split; [done|]. split; [repeat constructor; lia|done].
  - exact demo_server_io.
Defined.
