(* ===== verification/Handshake.v ===== *)
(** * The SOCKS5 client and the SOCKS5 server talk to each other *)
From S2P Require Import Prelude RBTree RBTreeSpec CInt Effect SockIO Addr AddrSpec AddrProps Socks5 Descriptors Client ClientSpec ClientProps Authenticator AuthenticatorProps Server ServerSpec ServerProps.

(** ** Each side's bytes, as the other side reads them *)

(** What the server requires is what the client has. *)
Definition matching (o : Offer) (need : bool) (accepts : list Z -> list Z -> bool) : Prop :=
  match o_creds o with
  | Some (u, p) => need = true /\ accepts u p = true /\ u <> [] /\ p <> [] /\
      Z.of_nat (length u) < 256 /\ Z.of_nat (length p) < 256
  | None => need = false
  end.

Definition auth_reply (need : bool) : list Z := if need then [5; 2; 1; 0] else [5; 0].

Lemma length_pos {A} (l : list A) : l <> [] -> 0 < Z.of_nat (length l).
Proof. destruct l; [done|simpl; lia]. Qed.

Lemma spec_user_credentials u p rest :
  u <> [] -> p <> [] ->
  spec_user (([1; Z.of_nat (length u)] ++ u ++ [Z.of_nat (length p)] ++ p) ++ rest) =
    Some (u, p, rest).
Proof.
  intros Hu%length_pos Hp%length_pos. rewrite <- !app_assoc.
  unfold spec_user. cbn [app]. rewrite Nat2Z.id.
  rewrite (proj2 (Z.ltb_lt _ _) Hu). rewrite (proj2 (Z.leb_le _ _)) by (rewrite length_app; simpl; lia).
  simpl. rewrite drop_app_length, take_app_length.
  rewrite (proj2 (Z.ltb_lt _ _) Hp). rewrite (proj2 (Z.leb_le _ _)) by (rewrite length_app; lia).
  simpl. by rewrite Nat2Z.id, drop_app_length, take_app_length.
Qed.

Lemma spec_server_auth_client o need accepts rest : matching o need accepts ->
  spec_server_auth need accepts (greeting o ++ credentials o ++ rest) =
    (auth_reply need, Some rest).
Proof.
  intros Ho. unfold matching, greeting, credentials in *. destruct (o_creds o) as [[u p]|].
  - destruct Ho as (-> & Ha & Hu & Hp & _). unfold spec_server_auth, spec_methods. cbn [app].
    rewrite (proj2 (Z.leb_le _ _)) by (simpl; lia). simpl. rewrite ?drop_0.
    pose proof (spec_user_credentials u p rest Hu Hp) as E. simpl in E. by rewrite E, Ha.
  - subst need. unfold spec_server_auth, spec_methods. cbn [app].
    rewrite (proj2 (Z.leb_le _ _)) by (simpl; lia). simpl. by rewrite ?drop_0.
Qed.

Lemma port_of_be16 p : 0 <= p < 65536 -> port_of (be16 p) = p.
Proof.
  intros Hp. unfold port_of, be16, of_be16, u8. rewrite Z.shiftr_div_pow2 by lia.
  change (2 ^ 8) with 256. dlia.
Qed.

Lemma spec_request_wire cmd d rest : dest_ok d ->
  spec_request (([5; cmd; 0] ++ wire d) ++ rest) = ReqOk cmd d rest.
Proof.
  intros Hd. destruct d as [a p|a p|n p]; simpl in Hd.
  - destruct Hd as (Hl & _ & Hp). destruct a as [|b a]; [done|]. injection Hl as Hl.
    simpl. rewrite length_app, (proj2 (Z.ltb_ge _ _)) by (rewrite length_app, Hl; simpl; lia).
    destruct a as [|a1 [|a2 [|a3 [|]]]]; try done. simpl. rewrite ?take_0, ?drop_0.
    change (of_be16 _ _) with (port_of (be16 p)). by rewrite port_of_be16.
  - destruct Hd as (Hl & _ & Hp). destruct a as [|b a]; [done|]. injection Hl as Hl.
    do 15 (destruct a as [|? a]; [done|]). destruct a; [|done].
    simpl. rewrite (proj2 (Z.ltb_ge _ _)) by lia. rewrite ?take_0, ?drop_0.
    change (of_be16 _ _) with (port_of (be16 p)). by rewrite port_of_be16.
  - destruct Hd as (Hl & _ & _ & Hp). cbn [wire app]. unfold spec_request.
    cbn [Z.eqb Pos.eqb negb]. rewrite (proj2 (Z.ltb_ge (2 + _) _)) by lia.
    rewrite (proj2 (Z.ltb_ge (Z.of_nat _) _)) by (rewrite !length_app; simpl; lia).
    replace (Z.to_nat (2 + Z.of_nat (length n))) with (length (n ++ be16 p))
      by (rewrite length_app; simpl; lia).
    rewrite take_app_length, drop_app_length, Nat2Z.id, take_app_length, drop_app_length.
    by rewrite port_of_be16.
Qed.

Lemma spec_accepts_server need rep sa rest : sa_ok sa -> 0 <= rep < 256 ->
  spec_accepts ((auth_reply need ++ [5; u8 rep; 0] ++ wire (sa_dest sa)) ++ rest) =
    if Z.eqb rep 0 then Some (wire (sa_dest sa), rest) else None.
Proof.
  intros (Hp & _ & Ha) Hrep. assert (u8 rep = rep) as -> by (by apply Z.mod_small).
  assert (spec_accepts ((auth_reply need ++ [5; rep; 0] ++ wire (sa_dest sa)) ++ rest) =
    spec_response ((([5; rep; 0] ++ wire (sa_dest sa))) ++ rest)) as -> by by destruct need.
  assert (exists t a p, wire (sa_dest sa) = t :: a ++ be16 p /\
    (t = 1 /\ length a = 4%nat \/ t = 4 /\ length a = 16%nat)) as (t & a & p & -> & Ht).
  { unfold sa_dest. destruct (IN6_IS_ADDR_V4MAPPED _); simpl; eexists _, _, _; (split; [done|]).
    - left. by rewrite length_drop, Ha.
    - by right. }
  set (tail := a ++ be16 p).
  assert (length tail = length a + 2)%nat as Hl by (unfold tail; by rewrite length_app).
  unfold spec_response. cbn [app]. rewrite Z.eqb_refl. simpl andb.
  destruct (Z.eqb rep 0); [|done]. destruct Ht as [[-> Hla]|[-> Hla]]; rewrite Hla in Hl.
  - assert (length (tail ++ rest) = 6 + length rest)%nat as E by (rewrite length_app; lia).
    cbn [Z.eqb Pos.eqb Nat.ltb Nat.leb andb]. rewrite E. simpl.
    by rewrite (take_app_length' _ _ 6), (drop_app_length' _ _ 6).
  - assert (length (tail ++ rest) = 18 + length rest)%nat as E by (rewrite length_app; lia).
    cbn [Z.eqb Pos.eqb Nat.ltb Nat.leb andb]. rewrite E. simpl.
    by rewrite (take_app_length' _ _ 18), (drop_app_length' _ _ 18).
Qed.

Lemma spec_sent_server pipeline o need accepts tail : matching o need accepts ->
  spec_sent pipeline o (auth_reply need ++ tail) = greeting o ++ credentials o ++ request o.
Proof.
  intros Ho. unfold spec_sent. destruct pipeline; [done|]. unfold matching, credentials in *.
  destruct (o_creds o) as [[u p]|].
  - by destruct Ho as (-> & _).
  - by subst need.
Qed.

(** ** The two together *)

Section interop.
Context (Kc Ks : Kernel) (Pc Ps : Pton) (cfg_c cfg_s : Settings).
Context (fuel : nat) (auth : HevSocks5Authenticator) (m : gmap (list Z) Z)
  (Hauth : represents auth m) (Hfuel : (size m < fuel)%nat).
Context (CC : ClientClass) (Inv : HevSocks5Client -> Dest -> Prop) (Good : Z -> Prop)
  (CL : @ClientLaws Kc CC Inv Good).

(** C27: The client and the server of this program understand each other, when
    the client's credentials are those that the server asks for ([matching]: a
    name and password of 1 to 255 bytes that its authenticator has, or none for a
    server without one).  A server that reads what the client has to say answers the very request that was made ([answered], as in
    [server_handshake_correct]: for a name as for an address, and for each
    command), and a client, of any class that keeps the laws of its virtual
    methods, that reads what that server answers fails if the server does and
    otherwise returns what setting up its end comes to, which for the TCP client
    is success; with the standard and with the pipelined handshake the client
    sends exactly what the server reads; and when the server succeeds, each is left
    with exactly the other's further data. *)
Theorem client_server_interop pipeline xc o xs ws up cmd0 addr0 :
  matching o (need_user xs) (credentials_of auth m) ->
  offers xc o -> Inv xc (o_dest o) ->
  @kernel_sa_ok Ks -> sa_ok addr0 ->
  io_at ws (greeting o ++ credentials o ++ request o ++ up) [] ->
  mwp (@hev_socks5_server_handshake Ks Ps (authenticator_db fuel auth) cfg_s cmd0 addr0) (xs, ws)
    (fun s r => exists rep sa,
      answered (w_trace s.2) (addr_family (s_base xs)) (o_cmd o) (o_dest o) s.1 rep sa /\
      r = (if Z.eqb rep 0 then 0 else -1) /\ stream (w_rx s.2) = up /\
      forall wc down, io_at wc (w_sent s.2 ++ down) [] ->
      mwp (@hev_socks5_client_handshake Kc cfg_c CC pipeline) (xc, wc) (fun c r' =>
        w_sent c.2 = greeting o ++ credentials o ++ request o /\
        if Z.eqb rep 0 then
          stream (w_rx c.2) = down /\ exists g, Good g /\ r' = if Z.ltb g 0 then -1 else 0
        else r' = -1)).
Proof.
  intros Hm Ho Hready Hk Ha0 Hio. pose proof Ho as (_ & _ & Hd).
  eapply mwp_mono.
  { exact (@server_handshake_ok Ks Ps (authenticator_db fuel auth) (credentials_of auth m)
      (authenticator_laws fuel auth m Hauth Hfuel) cfg_s xs ws _ [] cmd0 addr0 Hk Ha0 Hio). }
  intros s r Hs. unfold server_post in Hs.
  rewrite (spec_server_auth_client o) in Hs by done.
  unfold request in Hs. rewrite spec_request_wire in Hs by done.
  destruct Hs as (rep & sa & Hw & Hsa & -> & Hup & Hans). simpl app in Hw.
  pose proof (answered_rep _ _ _ _ _ _ _ Hans) as Hrep.
  exists rep, sa. split; [done|]. split; [done|]. split; [done|]. intros wc down Hioc.
  eapply mwp_mono; [exact (@client_handshake_ok Kc cfg_c CC Inv Good CL pipeline xc o wc _ [] Ho Hready Hioc)|].
  intros c r' [Hsent Hr]. rewrite Hw in Hr, Hsent.
  assert (u8 rep = rep) as Eu by (by apply Z.mod_small).
  pose proof (spec_accepts_server (need_user xs) rep sa down Hsa Hrep) as Hacc.
  rewrite Eu in Hacc. simpl app in Hacc. rewrite Hacc in Hr.
  rewrite <- app_assoc, (spec_sent_server pipeline o _ (credentials_of auth m)) in Hsent by done.
  split; [exact Hsent|]. destruct (Z.eqb rep 0); [|done].
  destruct Hr as (g & ? & -> & ?). by eauto.
Qed.

End interop.

(** ** A run of both *)

(** The authenticator with the user "u". *)
Definition demo_auth1 : HevSocks5Authenticator :=
  match hev_socks5_authenticator_add 10 demo_auth0 8 with Some (a, _) => a | None => demo_auth0 end.

Lemma demo_auth1_rep : represents demo_auth1 (<[[117] := 8]> ∅).
Proof.
  pose proof (add_represents 10 demo_auth0 ∅ 8 (mkUser [117] [112; 119] 1) demo_auth0_rep) as Ha.
  rewrite map_size_empty, !lookup_empty in Ha. unfold wp in Ha.
  destruct Ha as ([self' res] & Hadd & _ & _ & Hrep).
  - lia.
  - reflexivity.
  - simpl. lia.
  - split; [lia|reflexivity].
  - vm_compute. eauto.
  - intros n. by rewrite lookup_empty.
  - unfold demo_auth1. by rewrite Hadd.
Qed.

Definition interop_dest : Dest := DIp4 [10; 0; 0; 1] 80.
Definition interop_offer : Offer := mkOffer (Some ([117], [112; 119])) 1 interop_dest.
Definition interop_client : HevSocks5Client :=
  mkClient (mkSocks5 3 (-1) 0 HEV_SOCKS5_TYPE_TCP AF_UNSPEC) (Some [117]) (Some [112; 119])
    (Some (wire interop_dest)) 0.
Definition interop_stream : list Z :=
  greeting interop_offer ++ credentials interop_offer ++ request interop_offer ++ [72; 73].
Definition interop_world : World := mkWorld [RxData interop_stream] [] [] [(CSocket 1, 3)].

Lemma interop_io : io_at interop_world interop_stream [].
Proof. split_and!; [|constructor|done|done]. repeat constructor; done || lia. Qed.

Lemma client_server_interop_witness :
  mwp (@hev_socks5_server_handshake fd_kernel no_pton (authenticator_db 10 demo_auth1) settings 0
         (mkSA AF_INET6 [0; 0] (replicate 16 0))) (demo_server, interop_world)
    (fun s r => exists rep sa,
      @answered fd_kernel no_pton (w_trace s.2) AF_UNSPEC 1 interop_dest s.1 rep sa /\
      r = (if Z.eqb rep 0 then 0 else -1) /\ stream (w_rx s.2) = [72; 73] /\
      forall wc down, io_at wc (w_sent s.2 ++ down) [] ->
      mwp (@hev_socks5_client_handshake quiet_kernel settings tcp_client true) (interop_client, wc) (fun c r' =>
        w_sent c.2 = greeting interop_offer ++ credentials interop_offer ++ request interop_offer /\
        if Z.eqb rep 0 then
          stream (w_rx c.2) = down /\ exists g, 0 = g /\ r' = if Z.ltb g 0 then -1 else 0
        else r' = -1)).
Proof.
  apply (client_server_interop quiet_kernel fd_kernel no_pton settings settings 10 demo_auth1
    (<[[117] := 8]> ∅) demo_auth1_rep ltac:(vm_compute; lia) tcp_client tcp_ready (eq 0) (@tcp_laws quiet_kernel)
    true interop_client interop_offer
    demo_server interop_world [72; 73]).
  - split_and!; try done; vm_compute; reflexivity.
  - split_and!; simpl; try done; repeat constructor; lia.
  - exists (wire interop_dest). split; [done|]. exists []. by rewrite app_nil_r.
  - exact fd_kernel_sa_ok.
  - split; [done|]. split; [repeat constructor; lia|done].
  - exact interop_io.
Defined.
