(* ===== verification/UDP.v ===== *)
(** * UDP over SOCKS5 (hev-socks5-udp.c)

    Datagrams travel framed in the connection's byte stream (UDP in TCP) or in
    datagrams of a relay socket (UDP in UDP).  [errno] is part of the state: the
    code compares it with EAGAIN also after failures that do not set it. *)
From S2P Require Import Prelude CInt Effect SockIO Addr Socks5.

Definition EAGAIN : Z := 11.
Definition EIO : Z := 5.
Definition UDP_BUF_SIZE : Z := 1500.

(** ** Datagram sockets *)

Record Dgram := mkDgram { dg_data : list Z; dg_peer : sockaddr_in6 }.

(** What the next [recvmmsg] finds; after the last one nothing arrives. *)
Inductive dg_rx := DgData (batch : list Dgram) | DgRxAgain (abort : bool) | DgRxErr.
(** What the next [sendmmsg] meets; after the last one all is accepted. *)
Inductive dg_tx := DgAccept (n : Z) | DgTxAgain (abort : bool) | DgTxErr.

(** A socket, with what was sent on it, and to whom when that is said. *)
Record DgSock := mkDgSock {
  d_rx : list dg_rx;
  d_tx : list dg_tx;
  d_sent : list (option sockaddr_in6 * list Z);
}.

(** ** State *)

(** The object with the socket of its virtual [get_fd], the descriptor [fd_b] it
    is spliced to, and [errno]. *)
Record HevSocks5UDP := mkUDP {
  u_base : HevSocks5;
  u_fd : Z;
  u_a : DgSock;
  u_b : DgSock;
  errno : Z;
}.

Definition map_ubase f s := mkUDP (f (u_base s)) (u_fd s) (u_a s) (u_b s) (errno s).
Definition set_a a s := mkUDP (u_base s) (u_fd s) a (u_b s) (errno s).
Definition set_b b s := mkUDP (u_base s) (u_fd s) (u_a s) b (errno s).
Definition set_errno e s := mkUDP (u_base s) (u_fd s) (u_a s) (u_b s) e.

Abbreviation MU := (M (HevSocks5UDP * World)).

(** The pointer to an address: not yet set, NULL, or to an address. *)
Inductive addr_ptr := PtrUnset | PtrNull | PtrTo (a : HevSocks5Addr).

(** A message: its address, and the bytes from [buf] on, of which [len] count;
    [m_head]: those of its buffer that lie before [buf], after that was moved. *)
Record HevSocks5UDPMsg := mkMsgAt {
  m_addr : addr_ptr;
  m_head : list Z;
  m_buf : list Z;
  m_len : Z;
}.
Abbreviation mkMsg a b n := (mkMsgAt a [] b n).

(** The buffer of a message. *)
Definition m_slot (m : HevSocks5UDPMsg) : list Z := m_head m ++ m_buf m.

Definition upd_udp (f : HevSocks5UDP -> HevSocks5UDP) : MU () := s ← get_self; set_self (f s).

(** ** The stream, with errno *)

(** [errno] after the events between two positions of the input. *)
Definition errno_after (rx rx' : list rx_event) (e : Z) : Z :=
  foldl (fun e ev => match ev with
    | RxAgain _ => EAGAIN | RxErr => EIO | RxData _ => e end) e
    (take (length rx - length rx') rx).

(** One [recv], retried when it would block unless MSG_DONTWAIT is given. *)
Fixpoint recv_some (dontwait : bool) (rx : list rx_event) (len : Z)
  : list rx_event * Z * list Z :=
  match rx with
  | [] => ([], 0, [])
  | RxErr :: rx => (rx, -1, [])
  | RxAgain abort :: rx =>
      if dontwait then (rx, -1, []) else if abort then (rx, -2, []) else recv_some dontwait rx len
  | RxData bs :: rx =>
      let s := Z.min len (Z.of_nat (length bs)) in
      (if Z.ltb s (Z.of_nat (length bs)) then RxData (drop (Z.to_nat s) bs) :: rx else rx,
       s, take (Z.to_nat s) bs)
  end.

Definition recv_flags (dontwait : bool) (len : Z) : MU (Z * list Z) :=
  fun '(x, w) =>
    let '(rx, r, buf) := recv_some dontwait (w_rx w) len in
    Some ((set_errno (errno_after (w_rx w) rx (errno x)) x, with_rx rx w), (r, buf)).

Definition recv_waitall (len : Z) : MU (Z * list Z) :=
  fun '(x, w) =>
    let '(rx, r, buf) := recv_loop (w_rx w) len 0 [] in
    Some ((set_errno (errno_after (w_rx w) rx (errno x)) x, with_rx rx w), (r, buf)).

(** [errno] after the waits and failures of a send. *)
Definition tx_errno_after (tx tx' : list tx_event) (e : Z) : Z :=
  foldl (fun e ev => match ev with
    | TxAgain _ => EAGAIN | TxErr => EIO | TxAccept _ => e end) e
    (take (length tx - length tx') tx).

Definition sendmsg_waitall (iov : list (list Z)) : MU Z :=
  fun '(x, w) =>
    let '(tx, r, out) := send_loop (w_tx w) (concat iov) 0 in
    Some ((set_errno (tx_errno_after (w_tx w) tx (errno x)) x, with_tx tx out w), r).

(** ** Datagrams, with MSG_DONTWAIT for receiving and MSG_WAITALL for sending *)

(** At most [n] datagrams, each cut to the size of its buffer. *)
Definition recvmmsg_from (sock : DgSock) (dontwait : bool) (n : nat)
  : DgSock * Z * list Dgram * option Z :=
  (fix go rx := match rx with
    | [] => (mkDgSock [] (d_tx sock) (d_sent sock), -1, [], Some EAGAIN)
    | DgRxErr :: rx => (mkDgSock rx (d_tx sock) (d_sent sock), -1, [], Some EIO)
    | DgRxAgain abort :: rx =>
        if dontwait then (mkDgSock rx (d_tx sock) (d_sent sock), -1, [], Some EAGAIN)
        else if abort then (mkDgSock rx (d_tx sock) (d_sent sock), -2, [], Some EAGAIN)
        else go rx
    | DgData ds :: rx =>
        (mkDgSock (if Nat.ltb n (length ds) then DgData (drop n ds) :: rx else rx)
           (d_tx sock) (d_sent sock),
         Z.of_nat (length (take n ds)), take n ds, None)
    end) (d_rx sock).

(** The events left, the result, and the messages that were sent. *)
Fixpoint dg_send_loop {A} (tx : list dg_tx) (msgs : list A) (c : Z) (e : Z)
  : list dg_tx * Z * list A * Z :=
  match tx with
  | [] => ([], c + Z.of_nat (length msgs), msgs, e)
  | DgTxErr :: tx => (tx, if Z.eqb c 0 then -1 else c, [], EIO)
  | DgTxAgain abort :: tx =>
      if abort then (tx, if Z.eqb c 0 then -2 else c, [], EAGAIN)
      else dg_send_loop tx msgs c EAGAIN
  | DgAccept n :: tx =>
      let r := Z.min n (Z.of_nat (length msgs)) in
      if Z.leb r 0 then (tx, if Z.eqb c 0 then r else c, [], e) else
      if Z.ltb r (Z.of_nat (length msgs)) then
        let '(tx, res, out, e) := dg_send_loop tx (drop (Z.to_nat r) msgs) (c + r) e in
        (tx, res, take (Z.to_nat r) msgs ++ out, e)
      else (tx, c + r, msgs, e)
  end.

Definition sendmmsg_a (msgs : list (option sockaddr_in6 * list Z)) : MU Z :=
  s ← get_self;
  let '(tx, r, out, e) := dg_send_loop (d_tx (u_a s)) msgs 0 (errno s) in
  _ ← set_self (set_errno e (set_a (mkDgSock (d_rx (u_a s)) tx (d_sent (u_a s) ++ out)) s));
  mret r.

Definition sendmmsg_b (msgs : list (option sockaddr_in6 * list Z)) : MU Z :=
  s ← get_self;
  let '(tx, r, out, e) := dg_send_loop (d_tx (u_b s)) msgs 0 (errno s) in
  _ ← set_self (set_errno e (set_b (mkDgSock (d_rx (u_b s)) tx (d_sent (u_b s) ++ out)) s));
  mret r.

Definition recvmmsg_a (dontwait : bool) (n : nat) : MU (Z * list Dgram) :=
  s ← get_self;
  let '(sock, r, ds, e) := recvmmsg_from (u_a s) dontwait n in
  _ ← set_self (set_errno (default (errno s) e) (set_a sock s));
  mret (r, ds).

Definition recvmmsg_b (dontwait : bool) (n : nat) : MU (Z * list Dgram) :=
  s ← get_self;
  let '(sock, r, ds, e) := recvmmsg_from (u_b s) dontwait n in
  _ ← set_self (set_errno (default (errno s) e) (set_b sock s));
  mret (r, ds).

(** ** Sending *)

(** Only a pointer to an address can be read. *)
Definition addr_of (m : HevSocks5UDPMsg) : option HevSocks5Addr :=
  match m_addr m with PtrTo a => Some a | _ => None end.

(** The pieces of every message, or [None] at an address that is no address.
    The header's [datlen] and [hdrlen] are those of the caller. *)
Fixpoint build_iov (hdr : Z -> Z -> list Z) (msgv : list HevSocks5UDPMsg)
  : option (option (list (list (list Z)))) :=
  match msgv with
  | [] => Some (Some [])
  | m :: msgv =>
      a ← addr_of m;
      addrlen ← hev_socks5_addr_len a;
      if Z.leb addrlen 0 then Some None else
      ab ← rdn a 0 addrlen;
      db ← rdn (m_buf m) 0 (m_len m);
      r ← build_iov hdr msgv;
      Some (match r with Some l => Some ([hdr addrlen (m_len m); ab; db] :: l) | None => None end)
  end.

Definition tcp_hdr (addrlen len : Z) : list Z := le16 (htons (u16 len)) ++ [u8 (3 + addrlen)].
Definition udp_hdr (addrlen len : Z) : list Z := [0; 0; 0].

Definition hev_socks5_udp_sendmmsg_tcp (msgv : list HevSocks5UDPMsg) : MU Z :=
  iov ← mem (build_iov tcp_hdr msgv);
  match iov with
  | None => mret (-1)
  | Some iov =>
      res ← sendmsg_waitall (concat iov);
      if Z.leb res 0 then mret (-1) else mret (Z.of_nat (length msgv))
  end.

Definition hev_socks5_udp_sendmmsg_udp (msgv : list HevSocks5UDPMsg) : MU Z :=
  iov ← mem (build_iov udp_hdr msgv);
  match iov with
  | None => mret (-1)
  | Some iov => sendmmsg_a (map (fun m => (None, concat m)) iov)
  end.

Definition hev_socks5_udp_sendmmsg (msgv : list HevSocks5UDPMsg) : MU Z :=
  s ← get_self;
  let type := stype (u_base s) in
  if Z.eqb type HEV_SOCKS5_TYPE_UDP_IN_TCP then hev_socks5_udp_sendmmsg_tcp msgv
  else if Z.eqb type HEV_SOCKS5_TYPE_UDP_IN_UDP then hev_socks5_udp_sendmmsg_udp msgv
  else mret (-1).

(** ** Receiving from the stream *)

(** What a scattered read of [n1] bytes to offset 2 and then to [addrlen] leaves
    in the buffer, [bytes] having arrived. *)
Definition scatter (buf bytes : list Z) (addrlen datlen : Z) : option (list Z) :=
  let n1 := addrlen - 2 in
  _ ← rdn buf 2 n1;
  _ ← rdn buf addrlen datlen;
  let b1 := take (Z.to_nat n1) bytes in
  let b2 := drop (Z.to_nat n1) bytes in
  buf ← memcpy buf 2 b1 (Z.of_nat (length b1));
  memcpy buf addrlen b2 (Z.of_nat (length b2)).

(** The five bytes of a frame's header, the first of them perhaps without
    waiting. *)
Definition recv_head (nonblock : bool) : MU (Z * list Z) :=
  '(res, udp) ← recv_flags nonblock 5;
  if (Z.ltb 0 res && Z.ltb res 5)%bool then
    '(r, more) ← recv_waitall (5 - res); mret (res + r, udp ++ more)
  else mret (res, udp).

(** The result, and [msgv] as the call leaves it. *)
Fixpoint recv_tcp_loop (nonblock : bool) (rlen : Z) (msgv : list HevSocks5UDPMsg)
  : MU (Z * list HevSocks5UDPMsg) :=
  match msgv with
  | [] => mret (rlen, [])
  | m :: rest =>
      '(res, udp) ← recv_head nonblock;
      if negb (Z.eqb res 5) then mret (if Z.ltb 0 rlen then rlen else res, m :: rest) else
      hdrlen ← mem (rd8 udp 2);
      if Z.ltb hdrlen 5 then mret (-1, m :: rest) else
      let addrlen := hdrlen - 3 in
      d ← mem (load16 udp 0);
      let datlen := ntohs d in
      if Z.ltb (u64 (m_len m - addrlen)) datlen then mret (-1, m :: rest) else
      '(res, bytes) ← recv_waitall (addrlen - 2 + datlen);
      buf ← mem (scatter (m_buf m) bytes addrlen datlen);
      if negb (Z.eqb res (addrlen - 2 + datlen)) then
        mret (res, mkMsgAt (m_addr m) (m_head m) buf (m_len m) :: rest) else
      atype ← mem (rd8 udp 3);
      len ← mem (rd8 udp 4);
      buf ← mem (wr8 buf off_atype atype);
      buf ← mem (wr8 buf off_domain_len len);
      '(r, rest) ← recv_tcp_loop nonblock (rlen + 1) rest;
      mret (r, mkMsgAt (PtrTo buf) (m_head m ++ take (Z.to_nat addrlen) buf)
                 (drop (Z.to_nat addrlen) buf) datlen :: rest)
  end.

Definition hev_socks5_udp_recvmmsg_tcp (nonblock : bool) (msgv : list HevSocks5UDPMsg)
  : MU (Z * list HevSocks5UDPMsg) := recv_tcp_loop nonblock 0 msgv.

(** ** Receiving datagrams *)

Section receive.
Context `{Kernel}.

(** A datagram is stored to the buffer of a message. *)
Definition store_udp (m : HevSocks5UDPMsg) (dg : Dgram) : option HevSocks5UDPMsg :=
  let got := take (Z.to_nat (m_len m)) (dg_data dg) in
  buf ← memcpy (m_buf m) 0 got (Z.of_nat (length got));
  Some (mkMsgAt (m_addr m) (m_head m) buf (m_len m)).

(** The messages after the last datagram stay. *)
Fixpoint store_udps (msgv : list HevSocks5UDPMsg) (ds : list Dgram)
  : option (list HevSocks5UDPMsg) :=
  match ds, msgv with
  | [], _ => Some msgv
  | d :: ds, m :: msgv => m ← store_udp m d; r ← store_udps msgv ds; Some (m :: r)
  | _ :: _, [] => None
  end.

(** How many of its bytes were received. *)
Definition msg_len (m : HevSocks5UDPMsg) (dg : Dgram) : Z :=
  Z.of_nat (length (take (Z.to_nat (m_len m)) (dg_data dg))).

(** What is made of a message of [len] bytes; [None]: the call ends with -1. *)
Definition parse_udp (m : HevSocks5UDPMsg) (len : Z) : option (option HevSocks5UDPMsg) :=
  addrlen ← hev_socks5_addr_len (drop 3 (m_buf m));
  if Z.ltb len 4 then Some (Some (mkMsgAt PtrNull (m_head m) (m_buf m) 0)) else
  if Z.leb addrlen 0 then Some None else
  let doff := 3 + addrlen in
  if Z.ltb len doff then Some None else
  Some (Some (mkMsgAt (PtrTo (drop 3 (m_buf m))) (m_head m ++ take (Z.to_nat doff) (m_buf m))
                (drop (Z.to_nat doff) (m_buf m)) (len - doff))).

(** Every received datagram in turn. *)
Fixpoint parse_udps (msgv : list HevSocks5UDPMsg) (ds : list Dgram)
  : option (option (list HevSocks5UDPMsg)) :=
  match ds, msgv with
  | [], _ => Some (Some msgv)
  | d :: ds, m :: msgv =>
      r ← parse_udp m (msg_len m d);
      match r with
      | None => Some None
      | Some m =>
          r ← parse_udps msgv ds;
          Some (match r with Some l => Some (m :: l) | None => None end)
      end
  | _ :: _, [] => None
  end.

(** An unassociated socket is connected to the sender of the first datagram. *)
Definition hev_socks5_udp_recvmmsg_udp (nonblock : bool) (msgv : list HevSocks5UDPMsg)
  : MU (Z * list HevSocks5UDPMsg) :=
  '(res, ds) ← recvmmsg_a nonblock (length msgv);
  if Z.leb res 0 then mret (res, msgv) else
  msgv ← mem (store_udps msgv ds);
  s ← get_self;
  ok ← (if Z.eqb (udp_associated (u_base s)) 0 then
          taddr ← mem (dg_peer <$> head ds);
          r ← sys (CConnect (u_fd s) taddr);
          if Z.ltb r 0 then mret false
          else _ ← upd_udp (map_ubase (set_udp_associated 1)); mret true
        else mret true);
  if negb ok then mret (-1, msgv) else
  r ← mem (parse_udps msgv ds);
  match r with Some l => mret (res, l) | None => mret (-1, msgv) end.

Definition hev_socks5_udp_recvmmsg (nonblock : bool) (msgv : list HevSocks5UDPMsg)
  : MU (Z * list HevSocks5UDPMsg) :=
  s ← get_self;
  let type := stype (u_base s) in
  if Z.eqb type HEV_SOCKS5_TYPE_UDP_IN_TCP then hev_socks5_udp_recvmmsg_tcp nonblock msgv
  else if Z.eqb type HEV_SOCKS5_TYPE_UDP_IN_UDP then hev_socks5_udp_recvmmsg_udp nonblock msgv
  else mret (-1, msgv).

(** ** Splicing *)

Context `{Pton}.

(** For UDP in UDP the control connection is watched: its end ends the
    association. *)
Definition control_ended : MU bool :=
  s ← get_self;
  if Z.eqb (stype (u_base s)) HEV_SOCKS5_TYPE_UDP_IN_UDP then
    '(res, _) ← recv_flags true 1;
    s' ← get_self;
    if (Z.eqb res 0 || (Z.ltb res 0 && negb (Z.eqb (errno s') EAGAIN)))%bool then
      _ ← upd_udp (map_ubase (hev_socks5_set_timeout 0)); mret true
    else mret false
  else mret false.

(** [slept]: what is left of the timeout after a wait. *)
Definition task_io_yielder (type slept : Z) : MU Z :=
  stop ← control_ended;
  if (stop : bool) then mret (-1) else
  s ← get_self;
  mret (hev_socks5_task_io_yielder (u_base s) type slept).

(** The end of both directions. *)
Definition fwd_end (res : Z) : MU Z :=
  s ← get_self;
  mret (if Z.leb res 0 then
          if (Z.eqb res (-1) && Z.eqb (errno s) EAGAIN)%bool then 0 else -1
        else 1).

Definition zero_addr : sockaddr_in6 := mkSA 0 [0; 0] (replicate 16 0).

(** The destinations and payloads of the first [n] messages; [None]: invalid. *)
Fixpoint fwd_f_msgs (n : nat) (svec : list HevSocks5UDPMsg)
  : MU (option (list (option sockaddr_in6 * list Z))) :=
  match n with
  | O => mret (Some [])
  | Datatypes.S n =>
      m ← mem (head svec : option HevSocks5UDPMsg);
      if Z.eqb (m_len m) 0 then mret None else
      match m_addr m with
      | PtrUnset => mlift None
      | PtrNull => mret None
      | PtrTo a =>
          s ← get_self;
          '(sa, _, ret) ← hev_socks5_addr_into_sockaddr6 a zero_addr
            (hev_socks5_get_addr_family (u_base s));
          if Z.ltb ret 0 then mret None else
          data ← mem (rdn (m_buf m) 0 (m_len m));
          r ← fwd_f_msgs n (tail svec);
          mret (match r with Some l => Some ((Some sa, data) :: l) | None => None end)
      end
  end.

(** The messages of [num] buffers of [UDP_BUF_SIZE] bytes from [off] on. *)
Fixpoint make_svec (num : nat) (buf : list Z) (off : Z) : option (list HevSocks5UDPMsg) :=
  match num with
  | O => Some []
  | Datatypes.S num =>
      b ← rdn buf off UDP_BUF_SIZE;
      r ← make_svec num buf (off + UDP_BUF_SIZE);
      Some (mkMsg PtrUnset b UDP_BUF_SIZE :: r)
  end.

(** The block with what was stored to these buffers of it. *)
Fixpoint keep_slots (slots : list (list Z)) (buf : list Z) (off : Z) : option (list Z) :=
  match slots with
  | [] => Some buf
  | b :: slots =>
      buf ← memcpy buf off b (Z.of_nat (length b));
      keep_slots slots buf (off + UDP_BUF_SIZE)
  end.

(** The result, whether [fd_b] is bound, and the block. *)
Definition hev_socks5_udp_fwd_f (fd_b : Z) (buf : list Z) (num : nat) (bind : bool)
  : MU (Z * bool * list Z) :=
  svec ← mem (make_svec num buf 0);
  '(res, svec) ← hev_socks5_udp_recvmmsg true svec;
  buf ← mem (keep_slots (map m_slot svec) buf 0);
  if Z.ltb 0 res then
    dvec ← fwd_f_msgs (Z.to_nat res) svec;
    match dvec with
    | None => mret (-1, bind, buf)
    | Some dvec =>
        ret ← (if bind then mret 0 else sys (CBinder fd_b));
        if Z.ltb ret 0 then mret (-1, bind, buf) else
        res ← sendmmsg_b dvec;
        r ← fwd_end res; mret (r, true, buf)
    end
  else r ← fwd_end res; mret (r, bind, buf).

(** What arrives on [fd_b] is stored to the buffers from [off] on, as much of it
    as fits ... *)
Definition received_part (d : Dgram) : list Z := take (Z.to_nat UDP_BUF_SIZE) (dg_data d).

(** ... and becomes the messages to the client, with the encoded sources. *)
Fixpoint make_dvec (ds : list Dgram) (buf : list Z) (off : Z) : option (list HevSocks5UDPMsg) :=
  match ds with
  | [] => Some []
  | d :: ds =>
      b ← rdn buf off UDP_BUF_SIZE;
      '(a, _) ← hev_socks5_addr_from_sockaddr6 (replicate 19 0) (dg_peer d);
      r ← make_dvec ds buf (off + UDP_BUF_SIZE);
      Some (mkMsg (PtrTo a) b (Z.of_nat (length (received_part d))) :: r)
  end.

(** The buffers are those after the [num] ones of the other direction. *)
Definition hev_socks5_udp_fwd_b (buf : list Z) (num : nat) : MU (Z * list Z) :=
  let off := UDP_BUF_SIZE * Z.of_nat num in
  '(res, ds) ← recvmmsg_b true num;
  buf ← mem (keep_slots (map received_part ds) buf off);
  res ← (if Z.ltb 0 res then
           dvec ← mem (make_dvec ds buf off);
           hev_socks5_udp_sendmmsg dvec
         else mret res);
  r ← fwd_end res; mret (r, buf).

(** [ys]: what is left of the timeout at each yield; [false]: still running
    when they are used up. *)
Fixpoint splicer_loop (ys : list Z) (fd_b : Z) (buf : list Z) (num : nat) (res_f res_b : Z)
    (bind : bool) : MU bool :=
  match ys with
  | [] => mret false
  | slept :: ys =>
      '(res_f, bind, buf) ← (if Z.leb 0 res_f then hev_socks5_udp_fwd_f fd_b buf num bind
                             else mret (res_f, bind, buf));
      '(res_b, buf) ← (if Z.leb 0 res_b then hev_socks5_udp_fwd_b buf num
                       else mret (res_b, buf));
      if (negb (Z.ltb 0 res_f || Z.ltb 0 res_b) && negb (Z.eqb (Z.land res_f res_b) 0))%bool
      then mret true else
      let type := if (Z.ltb 0 res_f || Z.ltb 0 res_b)%bool then HEV_TASK_YIELD
                  else HEV_TASK_WAITIO in
      r ← task_io_yielder type slept;
      if negb (Z.eqb r 0) then mret true else splicer_loop ys fd_b buf num res_f res_b bind
  end.

(** [junk]: what a block of some size holds as it comes. *)
Definition hev_socks5_udp_splicer (junk : Z -> list Z) (ys : list Z) (num fd_b : Z)
  : MU (Z * bool) :=
  let size := UDP_BUF_SIZE * num * 2 in
  p ← sys (CMalloc size);
  if Z.eqb p 0 then mret (-1, true) else
  let buf := junk size in
  s ← get_self;
  res ← sys (CTaskModFd (u_fd s));
  _ ← (if Z.ltb res 0 then sys_ (CTaskAddFd (u_fd s)) else mret ());
  res ← sys (CTaskAddFd fd_b);
  _ ← (if Z.ltb res 0 then sys_ (CTaskModFd fd_b) else mret ());
  ended ← splicer_loop ys fd_b buf (Z.to_nat num) 1 1 false;
  _ ← (if (ended : bool) then sys_ CFree else mret ());
  mret (0, ended).

End receive.
