(* ===== verification/UDPSpec.v ===== *)
(** * Framed datagrams are read back as they were written, and relayed: lemmas *)
From S2P Require Import Prelude CInt Effect SockIO Addr AddrSpec Socks5 UDP.

(** ** Abstract specification *)

(** A datagram: where to or from, and its payload. *)
Abbreviation datagram := (Dest * list Z)%type.

(** Its form in the stream: the payload's length, the header's, the address, the
    payload. *)
Definition frame (x : datagram) : list Z :=
  be16 (Z.of_nat (length x.2)) ++ [3 + Z.of_nat (length (wire x.1))] ++ wire x.1 ++ x.2.

Definition frames (ds : list datagram) : list Z := concat (map frame ds).

(** Its form as a datagram of the relay socket (RFC 1928, section 7). *)
Definition packet (x : datagram) : list Z := [0; 0; 0] ++ wire x.1 ++ x.2.

(** What fits a header byte, a 16-bit length and a buffer of [cap] bytes. *)
Definition fits (cap : Z) (x : datagram) : Prop :=
  dest_ok x.1 /\ Z.of_nat (length (wire x.1)) <= 252 /\
  Z.of_nat (length x.2) < 65536 /\
  3 + Z.of_nat (length (wire x.1)) + Z.of_nat (length x.2) <= cap.

Definition msg_is (m : HevSocks5UDPMsg) (x : datagram) : Prop :=
  (exists a, m_addr m = PtrTo a /\ addr_is a x.1) /\
  (exists r, m_buf m = x.2 ++ r) /\ m_len m = Z.of_nat (length x.2).

(** ** Addresses of messages *)

(** The first two bytes of an encoding. *)
Lemma wire_head d : dest_ok d -> exists t b tl, wire d = t :: b :: tl /\ byte_ok t /\ byte_ok b.
Proof.
  intros Hd. destruct d as [a p|a p|n p]; simpl in Hd.
  1,2: destruct Hd as (Hl & Hb & _); destruct a as [|b a]; [done|];
    apply Forall_cons in Hb as [Hb _]; by eexists _, _, _.
  destruct Hd as (Hl & _). eexists _, _, _. split; [done|]. unfold byte_ok. lia.
Qed.

(** ** Sending *)

Lemma build_iov_ok hdr msgv (ds : list datagram) :
  Forall2 msg_is msgv ds -> Forall (fun x => dest_ok x.1) ds ->
  build_iov hdr msgv = Some (Some (map (fun x : datagram =>
    [hdr (Z.of_nat (length (wire x.1))) (Z.of_nat (length x.2)); wire x.1; x.2]) ds)).
Proof.
  induction 1 as [|m [d p] msgv ds Hm Hms IH]; intros Hd; [done|].
  apply Forall_cons in Hd as [Hd Hds]. destruct Hm as ((a & Ea & Ha) & (r & Eb) & El).
  simpl in *. unfold addr_of. rewrite Ea. simpl. rewrite (addr_len_ok a d Hd Ha). simpl.
  destruct (wire_head d Hd) as (t & b & tl & Ew & _).
  rewrite (proj2 (Z.leb_gt _ 0)) by (rewrite Ew; simpl; lia).
  destruct Ha as [r' ->]. rewrite (rdn_app [] (wire d) r' 0) by done. simpl.
  rewrite Eb, El, (rdn_app [] p r 0) by done. simpl. by rewrite IH.
Qed.

Lemma tcp_hdr_ok a l : 0 <= a <= 252 -> 0 <= l < 65536 -> tcp_hdr a l = be16 l ++ [3 + a].
Proof.
  intros. unfold tcp_hdr. rewrite u16_id, le16_htons by lia.
  by rewrite u8_id by (unfold byte_ok; lia).
Qed.

Lemma concat_frames (ds : list datagram) :
  Forall (fun x => Z.of_nat (length (wire x.1)) <= 252 /\ Z.of_nat (length x.2) < 65536) ds ->
  concat (concat (map (fun x : datagram => [tcp_hdr (Z.of_nat (length (wire x.1)))
    (Z.of_nat (length x.2)); wire x.1; x.2]) ds)) = frames ds.
Proof.
  induction 1 as [|[d p] ds [Hw Hp] Hds IH]; [done|].
  unfold frames in *. cbn [map concat fst snd] in *. rewrite concat_app, IH.
  rewrite tcp_hdr_ok by lia. unfold frame. cbn [concat fst snd]. by rewrite app_nil_r, <- !app_assoc.
Qed.

(** The object up to [errno]. *)
Definition same_but_errno (x x' : HevSocks5UDP) : Prop := exists e, x' = set_errno e x.

Lemma frames_nonempty x (ds : list datagram) : frames (x :: ds) <> [].
Proof. unfold frames, frame, be16. simpl. done. Qed.

Lemma sendmsg_ok iov x w S out (Q : HevSocks5UDP * World -> Z -> Prop) :
  io_at w S out -> concat iov <> [] ->
  (forall x' w', same_but_errno x x' -> io_at w' S (out ++ concat iov) ->
     Q (x', w') (Z.of_nat (length (concat iov)))) ->
  mwp (sendmsg_waitall iov) (x, w) Q.
Proof.
  intros (Hrx & Htx & <- & <-) Hne HQ. unfold sendmsg_waitall, mwp.
  pose proof (send_loop_ok (w_tx w) (concat iov) 0 Htx ltac:(lia)) as H.
  destruct (send_loop _ _ _) as [[tx r] o].
  destruct H as (Hok & -> & ->); [destruct (concat iov); [done|simpl; lia]|].
  eexists _, _. split; [done|]. rewrite Z.add_0_l. apply HQ; [by eexists|]. by split_and!.
Qed.

Lemma sendmmsg_tcp_ok msgv (ds : list datagram) cap x w S out
    (Q : HevSocks5UDP * World -> Z -> Prop) :
  Forall2 msg_is msgv ds -> Forall (fits cap) ds -> ds <> [] -> io_at w S out ->
  (forall x' w', same_but_errno x x' -> io_at w' S (out ++ frames ds) ->
     Q (x', w') (Z.of_nat (length ds))) ->
  mwp (hev_socks5_udp_sendmmsg_tcp msgv) (x, w) Q.
Proof.
  intros Hm Hfit Hne Hio HQ. unfold hev_socks5_udp_sendmmsg_tcp. mstep.
  assert (frames ds <> []) as Hf by (destruct ds; [done|apply frames_nonempty]).
  assert (0 < Z.of_nat (length (frames ds))) as Hlen by (destruct (frames ds); [done|simpl; lia]).
  pose proof (concat_frames ds) as Hc. rewrite <- Hc in Hf, Hlen, HQ
    by (eapply Forall_impl; [exact Hfit|]; intros z (_ & ? & ? & _); done).
  eapply mwp_mem.
  { apply (build_iov_ok _ _ ds Hm). eapply Forall_impl; [exact Hfit|]. by intros ? []. }
  cbv iota. mstep. eapply sendmsg_ok; [done|exact Hf|]. intros x' w' Hx Hio'.
  rewrite (proj2 (Z.leb_gt _ 0)) by exact Hlen.
  mstep. rewrite (Forall2_length _ _ _ Hm). by apply HQ.
Qed.

(** ** Receiving from the stream *)

(** Whether a reader that has had [n] bytes finds nothing to read yet. *)
Fixpoint waits (rx : list rx_event) (n : nat) : bool :=
  match rx with
  | RxAgain _ :: rx => match n with O => true | S _ => waits rx n end
  | RxData bs :: rx => if (n <? length bs)%nat then false else waits rx (n - length bs)
  | _ => false
  end.

(** [rx'] is what is left of [rx] after [n] bytes. *)
Definition advanced (n : nat) (rx rx' : list rx_event) : Prop :=
  forall m, waits rx' m = waits rx (n + m).

Lemma advanced_trans n n' rx1 rx2 rx3 :
  advanced n rx1 rx2 -> advanced n' rx2 rx3 -> advanced (n + n') rx1 rx3.
Proof. intros A1 A2 m. rewrite A2, A1. f_equal. lia. Qed.

Lemma advanced_chunk n bs rx : (n <= length bs)%nat ->
  advanced n (RxData bs :: rx) (if (n <? length bs)%nat then RxData (drop n bs) :: rx else rx).
Proof.
  intros Hn m. destruct (Nat.ltb_spec n (length bs)); simpl; rewrite ?length_drop.
  - destruct (Nat.ltb_spec m (length bs - n)), (Nat.ltb_spec (n + m) (length bs)); try done; try lia.
    f_equal. lia.
  - destruct (Nat.ltb_spec (n + m) (length bs)); [lia|]. f_equal. lia.
Qed.

Lemma advanced_again n ab rx rx' : (0 < n)%nat -> advanced n rx rx' -> advanced n (RxAgain ab :: rx) rx'.
Proof. intros Hn Ha m. rewrite Ha. by destruct n; [lia|]. Qed.

Lemma recv_loop_advanced rx len size buf :
  rx_ok rx -> 0 <= size <= len -> len - size <= Z.of_nat (length (stream rx)) ->
  advanced (Z.to_nat (len - size)) rx (recv_loop rx len size buf).1.1.
Proof.
  intros Hrx. revert size buf. induction Hrx as [|e rx He Hrx IH]; intros size buf Hs Hl.
  - simpl in Hl. assert (len = size) as -> by lia. simpl. rewrite Z.eqb_refl, Z.sub_diag. by intros m.
  - simpl recv_loop. destruct (Z.eqb_spec len size) as [->|Hne]; [rewrite Z.sub_diag; by intros m|].
    destruct e as [bs|[|]|]; [|simpl in Hl; lia| |simpl in Hl; lia].
    + destruct He as [Hnil Hbs]. assert (0 < Z.of_nat (length bs)) by (destruct bs; [done|simpl; lia]).
      simpl stream in Hl. rewrite length_app in Hl.
      destruct (Z.leb_spec (Z.min (len - size) (Z.of_nat (length bs))) 0); [lia|].
      destruct (Z.ltb_spec (size + Z.min (len - size) (Z.of_nat (length bs))) len).
      * rewrite Z.min_r by lia. rewrite Nat2Z.id, take_ge by lia.
        pose proof (advanced_chunk (length bs) bs rx ltac:(lia)) as A1. rewrite Nat.ltb_irrefl in A1.
        replace (Z.to_nat (len - size))
          with (length bs + Z.to_nat (len - (size + Z.of_nat (length bs))))%nat by lia.
        eapply advanced_trans; [exact A1|]. apply IH; lia.
      * rewrite Z.min_l by lia. cbn [fst].
        pose proof (advanced_chunk (Z.to_nat (len - size)) bs rx ltac:(lia)) as A1.
        destruct (Z.ltb_spec (len - size) (Z.of_nat (length bs)));
          destruct (Nat.ltb_spec (Z.to_nat (len - size)) (length bs)); done || lia.
    + apply advanced_again; [lia|]. by apply IH.
Qed.

Lemma recv_some_ok nb rx len :
  rx_ok rx -> 0 < len -> stream rx <> [] ->
  let '(rx', r, b) := recv_some nb rx len in
  rx_ok rx' /\
  ((nb = true /\ r = -1 /\ stream rx' = stream rx /\ exists ab, rx = RxAgain ab :: rx') \/
   (0 < r <= len /\ r <= Z.of_nat (length (stream rx)) /\ b = take (Z.to_nat r) (stream rx) /\
      stream rx' = drop (Z.to_nat r) (stream rx) /\ advanced (Z.to_nat r) rx rx' /\
      (nb = true -> waits rx 0 = false))).
Proof.
  intros Hrx Hlen. induction Hrx as [|e rx He Hrx IH]; [done|]. intros Hne. simpl.
  destruct e as [bs|ab|]; [|destruct nb|done].
  - destruct He as [Hbs Hok].
    assert (0 < Z.of_nat (length bs)) by (destruct bs; [done|simpl; lia]).
    simpl in *. rewrite length_app.
    pose proof (advanced_chunk (Z.to_nat (Z.min len (Z.of_nat (length bs)))) bs rx ltac:(lia)) as A.
    assert (nb = true -> waits (RxData bs :: rx) 0 = false) as Hw.
    { intros _. simpl. by destruct (Nat.ltb_spec 0 (length bs)); [|lia]. }
    destruct (Z.ltb_spec (Z.min len (Z.of_nat (length bs))) (Z.of_nat (length bs)));
      [rewrite (proj2 (Nat.ltb_lt _ _)) in A by lia|rewrite (proj2 (Nat.ltb_ge _ _)) in A by lia].
    + rewrite Z.min_l in A |- * by lia. split.
      { constructor; [|done]. split; [|by apply Forall_drop].
        intros E. apply (f_equal length) in E. rewrite length_drop in E. simpl in E. lia. }
      right. split_and!; [lia|lia|lia| | |exact A|exact Hw]; [by rewrite take_app_le by lia|].
      simpl. by rewrite drop_app_le by lia.
    + rewrite Z.min_r in A |- * by lia. split; [done|]. right. rewrite Nat2Z.id in A |- *.
      split_and!; [lia|lia|lia| | |exact A|exact Hw]; [by rewrite take_ge, take_app_length by lia|].
      by rewrite drop_app_length.
  - destruct ab; [done|]. split; [done|]. left. split_and!; [done|done|done|by eexists].
  - destruct ab; [done|]. specialize (IH Hne).
    destruct (recv_some _ _ _) as [[rx' r] b]. destruct IH as [Hok [[? _]|(H1 & H2 & H3 & H4 & H5 & _)]]; [done|].
    split; [done|]. right. do 4 (split; [done|]). split; [apply advanced_again; [lia|done]|done].
Qed.

Lemma recv_waitall_ok len x w S out (Q : HevSocks5UDP * World -> Z * list Z -> Prop) :
  io_at w S out -> 0 <= len <= Z.of_nat (length S) ->
  (forall x' w', same_but_errno x x' -> io_at w' (drop (Z.to_nat len) S) out ->
     advanced (Z.to_nat len) (w_rx w) (w_rx w') -> Q (x', w') (len, take (Z.to_nat len) S)) ->
  mwp (recv_waitall len) (x, w) Q.
Proof.
  intros (Hrx & Htx & <- & <-) Hlen HQ. unfold recv_waitall, mwp.
  pose proof (recv_loop_ok (w_rx w) len 0 [] Hrx ltac:(lia)) as H.
  pose proof (recv_loop_advanced (w_rx w) len 0 [] Hrx ltac:(lia) ltac:(lia)) as A.
  destruct (recv_loop _ _ _ _) as [[rx r] o]. destruct H as [Hok H].
  rewrite Z.sub_0_r in H, A.
  destruct (Z.leb_spec len (Z.of_nat (length (stream (w_rx w))))); [|lia].
  destruct H as (-> & -> & Hs). eexists _, _. split; [done|].
  apply HQ; [by eexists| |exact A]. by split_and!.
Qed.

(** The header of a frame: all of it, or nothing yet. *)
Lemma recv_head_ok nb x w S out (Q : HevSocks5UDP * World -> Z * list Z -> Prop) :
  io_at w S out -> 5 <= Z.of_nat (length S) ->
  (forall x' w', nb = true -> x' = set_errno EAGAIN x -> io_at w' S out -> waits (w_rx w) 0 = true ->
     Q (x', w') (-1, [])) ->
  (forall x' w', same_but_errno x x' -> io_at w' (drop 5 S) out ->
     advanced 5 (w_rx w) (w_rx w') -> (nb = true -> waits (w_rx w) 0 = false) ->
     Q (x', w') (5, take 5 S)) ->
  mwp (recv_head nb) (x, w) Q.
Proof.
  intros (Hrx & Htx & HS & Hout) Hlen Hagain HQ. unfold recv_head. mstep.
  pose proof (recv_some_ok nb (w_rx w) 5 Hrx ltac:(lia)) as H.
  rewrite HS in H. specialize (H ltac:(destruct S; [simpl in Hlen; lia|done])).
  unfold mwp at 1. unfold recv_flags at 1.
  destruct (recv_some nb (w_rx w) 5) as [[rx r] b] eqn:Er. eexists _, _. split; [done|].
  cbv beta iota. destruct H as [Hok [(-> & -> & Hs & ab & Ew)|(Hr & Hr2 & -> & Hs & A & Hw)]].
  - rewrite (proj2 (Z.ltb_ge 0 _)) by lia. simpl andb. cbv iota. mstep.
    assert (b = []) as ->.
    { rewrite Ew in Er. simpl in Er. by injection Er. }
    apply Hagain; [done| |by split_and!|by rewrite Ew].
    f_equal. rewrite Ew. unfold errno_after.
    replace (length (RxAgain ab :: rx) - length rx)%nat with 1%nat by (simpl; lia). done.
  - rewrite (proj2 (Z.ltb_lt 0 r)) by lia. destruct (Z.ltb_spec r 5) as [H5|]; simpl andb; cbv iota.
    + mstep. eapply (recv_waitall_ok (5 - r) _ _ (drop (Z.to_nat r) S) out).
      * by split_and!.
      * rewrite length_drop. lia.
      * intros x' w' [e Hx'] Hio' A'. cbv beta iota. mstep. replace (r + (5 - r)) with 5 by lia.
        rewrite drop_drop in Hio'.
        replace (Z.to_nat r + Z.to_nat (5 - r))%nat with 5%nat in Hio' by lia.
        rewrite take_take_drop.
        replace (Z.to_nat r + Z.to_nat (5 - r))%nat with 5%nat by lia.
        apply HQ; [|done| |done]; [exists e; by rewrite Hx'|].
        replace 5%nat with (Z.to_nat r + Z.to_nat (5 - r))%nat by lia. by eapply advanced_trans.
    + assert (r = 5) as -> by lia. mstep. apply HQ; [by eexists| |exact A|exact Hw]. by split_and!.
Qed.

Lemma scatter_ok b0 b1 bs tl p :
  Z.of_nat (length tl) + Z.of_nat (length p) <= Z.of_nat (length bs) ->
  exists r, scatter (b0 :: b1 :: bs) (tl ++ p) (Z.of_nat (length tl) + 2) (Z.of_nat (length p)) =
    Some (b0 :: b1 :: tl ++ p ++ r).
Proof.
  intros Hle. destruct (split_at bs (length tl)) as (t0 & r0 & -> & Ht0); [lia|].
  rewrite length_app in Hle. destruct (split_at r0 (length p)) as (p0 & r & -> & Hp0); [lia|].
  exists r. unfold scatter. rewrite Z.add_simpl_r.
  change (b0 :: b1 :: t0 ++ p0 ++ r) with ([b0; b1] ++ t0 ++ p0 ++ r).
  rewrite (rdn_app [b0; b1] t0 (p0 ++ r) 2) by (simpl; lia). cbn [mbind option_bind].
  rewrite (app_assoc [b0; b1]).
  rewrite (rdn_app ([b0; b1] ++ t0) p0 r) by (rewrite ?length_app; simpl; lia). cbn [mbind option_bind].
  rewrite Nat2Z.id, take_app_length, drop_app_length, <- app_assoc.
  rewrite (memcpy_app [b0; b1] t0) by (simpl; lia). cbn [mbind option_bind]. rewrite take_ge by lia.
  change (b0 :: b1 :: tl ++ p0 ++ r) with ([b0; b1] ++ tl ++ p0 ++ r). rewrite (app_assoc [b0; b1]).
  rewrite (memcpy_app ([b0; b1] ++ tl) p0 r) by (rewrite ?length_app; simpl; lia).
  by rewrite take_ge, <- app_assoc by lia.
Qed.

(** Fewer bytes stay in the buffer too. *)
Lemma scatter_in b0 b1 bs bytes n p :
  n + p <= Z.of_nat (length bs) -> 0 <= n -> 0 <= p -> Z.of_nat (length bytes) <= n + p ->
  is_Some (scatter (b0 :: b1 :: bs) bytes (n + 2) p).
Proof.
  intros Hle Hn Hp Hb. unfold scatter. rewrite Z.add_simpl_r.
  assert (forall off k, 0 <= off -> 0 <= k -> off + k <= Z.of_nat (length (b0 :: b1 :: bs)) ->
    is_Some (rdn (b0 :: b1 :: bs) off k)) as Hrd.
  { intros off k Ho Hk Hok. unfold rdn.
    by rewrite (proj2 (Z.ltb_ge off 0)), (proj2 (Z.ltb_ge k 0)), (proj2 (Z.ltb_ge _ _)) by lia. }
  assert (forall (dst src : list Z) off, 0 <= off ->
    off + Z.of_nat (length src) <= Z.of_nat (length dst) ->
    exists l, memcpy dst off src (Z.of_nat (length src)) = Some l /\ length l = length dst) as Hcp.
  { intros dst src off Ho Hok. unfold memcpy.
    rewrite (proj2 (Z.ltb_ge off 0)), (proj2 (Z.ltb_ge _ 0)), (proj2 (Z.ltb_ge _ _)),
      (proj2 (Z.ltb_ge _ _)) by lia. simpl. eexists. split; [done|].
    rewrite !length_app, !length_take, length_drop. lia. }
  cbn [length] in Hrd. destruct (Hrd 2 n) as [? ->]; [lia..|].
  destruct (Hrd (n + 2) p) as [? ->]; [lia..|]. cbn [mbind option_bind].
  destruct (Hcp (b0 :: b1 :: bs) (take (Z.to_nat n) bytes) 2) as (l & -> & Hl);
    [lia|rewrite length_take; cbn [length]; lia|].
  cbn [mbind option_bind]. cbn [length] in Hl.
  destruct (Hcp l (drop (Z.to_nat n) bytes) (n + 2)) as (l2 & -> & _);
    [lia|rewrite length_drop; lia|]. by eexists.
Qed.

(** How many of the datagrams a reader with [num] buffers gets that does not wait
    for the header of one, from the place [at_] on. *)
Fixpoint ready (num : nat) (rx : list rx_event) (at_ : nat) (ds : list datagram) : nat :=
  match num, ds with
  | S num, d :: ds => if waits rx at_ then O else S (ready num rx (at_ + length (frame d)) ds)
  | _, _ => O
  end.

Lemma ready_advanced n num rx rx' at_ (ds : list datagram) : advanced n rx rx' ->
  ready num rx' at_ ds = ready num rx (n + at_) ds.
Proof.
  intros A. revert at_ ds. induction num as [|num IH]; intros at_ [|d ds]; try done.
  cbn [ready]. rewrite A, IH. by rewrite Nat.add_assoc.
Qed.

(** What is received: datagrams and what was left, after [k] of them; [rx] is
    the input before the call. *)
Definition received (x : HevSocks5UDP) (rx : list rx_event) (msgv : list HevSocks5UDPMsg) (ds : list datagram)
    (rest out : list Z) (nb : bool) (rlen : Z) (s : HevSocks5UDP * World)
    (res : Z * list HevSocks5UDPMsg) : Prop :=
  exists k, (k <= length msgv)%nat /\ same_but_errno x s.1 /\
    io_at s.2 (frames (drop k ds) ++ rest) out /\
    Forall2 msg_is (take k res.2) (take k ds) /\
    k = (if nb then ready (length msgv) rx 0 ds else length msgv) /\
    ((msgv = [] \/ 0 < rlen + Z.of_nat k) /\ res.1 = rlen + Z.of_nat k \/
     k = 0%nat /\ rlen = 0 /\ res.1 = -1 /\ errno s.1 = EAGAIN).

(** The bytes of a frame and what follows it. *)
Lemma frame_parts d p S : dest_ok d -> exists t b tl,
  wire d = t :: b :: tl /\ byte_ok t /\ byte_ok b /\
  frame (d, p) ++ S = [u8 (Z.shiftr (Z.of_nat (length p)) 8); u8 (Z.of_nat (length p));
    3 + Z.of_nat (length (wire d)); t; b] ++ (tl ++ p) ++ S.
Proof.
  intros Hd. destruct (wire_head d Hd) as (t & b & tl & Ew & Ht & Hb).
  exists t, b, tl. split_and!; [done|done|done|]. unfold frame. cbn [fst snd].
  rewrite Ew. simpl. by rewrite <- app_assoc.
Qed.

Lemma recv_tcp_loop_ok cap nb msgv (ds : list datagram) rest x w out rlen :
  Forall (fun m => Z.of_nat (length (m_buf m)) = cap /\ m_len m = cap) msgv -> cap < 2 ^ 64 ->
  Forall (fits cap) ds -> (length msgv <= length ds)%nat -> 0 <= rlen ->
  io_at w (frames ds ++ rest) out ->
  mwp (recv_tcp_loop nb rlen msgv) (x, w) (received x (w_rx w) msgv ds rest out nb rlen).
Proof.
  intros Hms Hcap. revert ds x w rlen.
  induction Hms as [|m msgv [Hbuf Hlen] Hms IH]; intros ds x w rlen Hfit Hle Hr Hio.
  { simpl. mstep. exists 0%nat. rewrite drop_0. split_and!; try done; [by exists (errno x); destruct x|by destruct nb|].
    left. split; [by left|simpl; lia]. }
  destruct ds as [|[d p] ds]; [simpl in Hle; lia|].
  apply Forall_cons in Hfit as [(Hd & Hw & Hp & Hfits) Hfit]. cbn [fst snd] in *.
  destruct (frame_parts d p (frames ds ++ rest) Hd) as (t & b & tl & Ew & Ht & Hb & Ef).
  assert (frames ((d, p) :: ds) ++ rest = frame (d, p) ++ frames ds ++ rest) as E1
    by (unfold frames; simpl; by rewrite app_assoc).
  rewrite E1, Ef in Hio.
  assert (Z.of_nat (length (wire d)) = Z.of_nat (length tl) + 2) as Elen
    by (rewrite Ew; simpl; lia).
  cbn [recv_tcp_loop]. mstep. eapply recv_head_ok; [exact Hio|simpl; lia|..].
  { intros x' w' -> -> Hio' Hw0. simpl negb. cbv beta iota. mstep. exists 0%nat.
    rewrite drop_0, E1, Ef. split_and!; try done; [lia|by eexists|cbn [length ready]; by rewrite Hw0|].
    destruct (Z.ltb_spec 0 rlen); [left|right]; simpl; [|split_and!; try done; lia].
    split; [right|]; lia. }
  intros x1 w1 Hx1 Hio1 A1 Hw0. simpl drop in Hio1. rewrite drop_0 in Hio1. simpl take. rewrite take_0.
  cbv beta iota.
  change (negb (Z.eqb 5 5)) with false. cbv iota.
  mstep. eapply mwp_mem; [done|]. rewrite (proj2 (Z.ltb_ge _ 5)) by lia.
  mstep. eapply mwp_mem; [done|]. cbv zeta.
  rewrite le_port by lia. unfold u64. rewrite Hlen.
  rewrite (Z.mod_small (cap - _)) by lia. rewrite (proj2 (Z.ltb_ge _ _)) by lia.
  replace (3 + Z.of_nat (length (wire d)) - 3) with (Z.of_nat (length tl) + 2) by lia.
  mstep. eapply recv_waitall_ok; [exact Hio1|rewrite !length_app; lia|].
  intros x2 w2 Hx2 Hio2 A2. pose proof (advanced_trans _ _ _ _ _ A1 A2) as A. cbv beta iota.
  replace (Z.to_nat (Z.of_nat (length tl) + 2 - 2 + Z.of_nat (length p)))
    with (length (tl ++ p)) in * by (rewrite length_app; lia).
  replace (5 + length (tl ++ p))%nat with (length (frame (d, p)) + 0)%nat in A
    by (unfold frame; cbn [fst snd]; rewrite Ew, !length_app; simpl; lia).
  rewrite take_app_length. rewrite drop_app_length in Hio2.
  destruct (m_buf m) as [|b0 [|b1 bs]]; [simpl in Hbuf; lia..|]. simpl in Hbuf.
  destruct (scatter_ok b0 b1 bs tl p) as [r Hsc]; [lia|].
  mstep. eapply mwp_mem; [exact Hsc|]. rewrite Z.eqb_refl. cbn [negb].
  mstep. eapply mwp_mem; [done|]. mstep. eapply mwp_mem; [done|].
  mstep. eapply mwp_mem; [apply wr8_0|].
  mstep. eapply mwp_mem; [apply (wr8_app [u8 t])|]; [done|].
  rewrite !u8_id by done. simpl app.
  mstep. eapply mwp_mono.
  { apply (IH ds x2 w2 (rlen + 1)); [done|simpl in Hle; lia|lia|exact Hio2]. }
  intros [x3 w3] [res ms] (k & Hk & [e3 Hx3] & Hio3 & Hms3 & Hnb & Hres). cbv beta iota. mstep.
  destruct Hx1 as [e1 ->], Hx2 as [e2 ->]. cbn [fst snd] in *. exists (S k). cbn [drop take fst snd].
  split_and!; [simpl; lia|exists e3; by rewrite Hx3|exact Hio3| | |].
  - constructor; [|exact Hms3]. split; [|split; [|done]].
    + eexists. split; [done|]. exists (p ++ r). simpl. rewrite Ew. simpl. by rewrite <- ?app_assoc.
    + exists r. simpl m_buf.
      replace (Z.to_nat (Z.of_nat (length tl) + 2)) with (length (t :: b :: tl)) by (simpl; lia).
      change (t :: b :: tl ++ p ++ r) with ((t :: b :: tl) ++ p ++ r). apply drop_app_length.
  - rewrite Hnb. destruct nb; [|done]. cbn [length ready]. rewrite Hw0 by done. f_equal.
    rewrite (ready_advanced _ _ _ _ _ _ A). f_equal. lia.
  - left. destruct Hres as [[_ ->]|(_ & ? & _)]; [|lia]. split; [right|]; lia.
Qed.

(** ** Datagrams of the relay socket *)

(** Nothing outgoing fails or times out. *)
Definition dg_tx_good (tx : list dg_tx) : Prop :=
  Forall (fun e => e = DgTxAgain false \/ exists n, e = DgAccept n /\ 0 < n) tx.

Lemma dg_send_loop_ok {A} tx (msgs : list A) c e :
  dg_tx_good tx -> 0 <= c -> msgs <> [] ->
  let '(tx', r, out, e') := dg_send_loop tx msgs c e in
  dg_tx_good tx' /\ out = msgs /\ r = c + Z.of_nat (length msgs).
Proof.
  intros Htx. revert msgs c e. induction Htx as [|ev tx He Htx IH]; intros msgs c e Hc Hne; simpl.
  { split; [constructor|done]. }
  assert (0 < Z.of_nat (length msgs)) by (destruct msgs; [done|simpl; lia]).
  destruct He as [->|(n & -> & Hn)]; [by apply IH|].
  destruct (Z.leb_spec (Z.min n (Z.of_nat (length msgs))) 0); [lia|].
  destruct (Z.ltb_spec (Z.min n (Z.of_nat (length msgs))) (Z.of_nat (length msgs))).
  - rewrite Z.min_l by lia.
    specialize (IH (drop (Z.to_nat n) msgs) (c + n) e ltac:(lia)).
    rewrite length_drop in IH.
    destruct (dg_send_loop _ _ _ _) as [[[tx' r] out] e'].
    destruct IH as (? & -> & ->).
    { intros E. apply (f_equal length) in E. rewrite length_drop in E. simpl in E. lia. }
    rewrite take_drop. split_and!; [done|done|lia].
  - split_and!; [done|done|lia].
Qed.

(** The object after something was sent on one of its sockets. *)
Definition sent_a (x : HevSocks5UDP) (l : list (option sockaddr_in6 * list Z)) (x' : HevSocks5UDP)
  : Prop := exists tx e, dg_tx_good tx /\
    x' = set_errno e (set_a (mkDgSock (d_rx (u_a x)) tx (d_sent (u_a x) ++ l)) x).
Definition sent_b (x : HevSocks5UDP) (l : list (option sockaddr_in6 * list Z)) (x' : HevSocks5UDP)
  : Prop := exists tx e, dg_tx_good tx /\
    x' = set_errno e (set_b (mkDgSock (d_rx (u_b x)) tx (d_sent (u_b x) ++ l)) x).

Lemma sendmmsg_a_ok msgs x w (Q : HevSocks5UDP * World -> Z -> Prop) :
  dg_tx_good (d_tx (u_a x)) -> msgs <> [] ->
  (forall x', sent_a x msgs x' -> Q (x', w) (Z.of_nat (length msgs))) ->
  mwp (sendmmsg_a msgs) (x, w) Q.
Proof.
  intros Htx Hne HQ. unfold sendmmsg_a. mstep. apply mwp_get_self. simpl.
  pose proof (dg_send_loop_ok _ msgs 0 (errno x) Htx ltac:(lia) Hne) as H.
  destruct (dg_send_loop _ _ _ _) as [[[tx' r] out] e'] eqn:E. destruct H as (Hok & -> & ->).
  mstep. apply mwp_set_self. mstep. rewrite Z.add_0_l. apply HQ. by exists tx', e'.
Qed.

Lemma sendmmsg_b_ok msgs x w (Q : HevSocks5UDP * World -> Z -> Prop) :
  dg_tx_good (d_tx (u_b x)) -> msgs <> [] ->
  (forall x', sent_b x msgs x' -> Q (x', w) (Z.of_nat (length msgs))) ->
  mwp (sendmmsg_b msgs) (x, w) Q.
Proof.
  intros Htx Hne HQ. unfold sendmmsg_b. mstep. apply mwp_get_self. simpl.
  pose proof (dg_send_loop_ok _ msgs 0 (errno x) Htx ltac:(lia) Hne) as H.
  destruct (dg_send_loop _ _ _ _) as [[[tx' r] out] e'] eqn:E. destruct H as (Hok & -> & ->).
  mstep. apply mwp_set_self. mstep. rewrite Z.add_0_l. apply HQ. by exists tx', e'.
Qed.

Definition packets (ds : list datagram) : list (option sockaddr_in6 * list Z) :=
  map (fun x => (None, packet x)) ds.

Lemma sendmmsg_udp_ok msgv (ds : list datagram) x w (Q : HevSocks5UDP * World -> Z -> Prop) :
  Forall2 msg_is msgv ds -> Forall (fun y => dest_ok y.1) ds -> ds <> [] ->
  dg_tx_good (d_tx (u_a x)) ->
  (forall x', sent_a x (packets ds) x' -> Q (x', w) (Z.of_nat (length ds))) ->
  mwp (hev_socks5_udp_sendmmsg_udp msgv) (x, w) Q.
Proof.
  intros Hm Hd Hne Htx HQ. unfold hev_socks5_udp_sendmmsg_udp. mstep.
  eapply mwp_mem; [by apply (build_iov_ok _ _ ds Hm)|]. cbv iota.
  assert (map (fun m => (None, concat m)) (map (fun y : datagram =>
    [udp_hdr (Z.of_nat (length (wire y.1))) (Z.of_nat (length y.2)); wire y.1; y.2]) ds)
    = packets ds) as Ep.
  { unfold packets. rewrite map_map. apply map_ext. intros [d p]. simpl. by rewrite app_nil_r. }
  rewrite Ep. eapply sendmmsg_a_ok; [done|by destruct ds|]. intros x' Hx'.
  unfold packets. rewrite length_map. by apply HQ.
Qed.

(** *** Parsing *)

(** A packet is stored and read back. *)
Lemma parse_packet cap m x peer (g := mkDgram (packet x) peer) :
  Z.of_nat (length (m_buf m)) = cap -> m_len m = cap -> fits cap x ->
  exists m1 m', store_udp m g = Some m1 /\ parse_udp m1 (msg_len m1 g) = Some (Some m') /\ msg_is m' x.
Proof.
  intros Hb Hl (Hd & Hw & Hp & Hf). destruct x as [d p]. cbn [fst snd] in *.
  unfold store_udp, parse_udp, msg_len, g. cbn [dg_data]. rewrite Hl.
  assert (length (packet (d, p)) = 3 + length (wire d) + length p)%nat as El
    by (unfold packet; simpl; rewrite length_app; lia).
  rewrite take_ge by lia.
  destruct (split_at (m_buf m) (length (packet (d, p)))) as (b0 & r & Er & Hb0); [lia|].
  rewrite Er, (memcpy_app [] b0 r) by (done || lia). cbn [mbind option_bind app].
  rewrite take_ge by lia. eexists. cbn [m_buf m_len m_head].
  assert (packet (d, p) ++ r = ([0; 0; 0] ++ wire d) ++ p ++ r) as Ep
    by (unfold packet; cbn [fst snd]; by rewrite <- !app_assoc).
  assert (drop 3 (packet (d, p) ++ r) = wire d ++ p ++ r) as Edrop by by rewrite Ep.
  assert (hev_socks5_addr_len (drop 3 (packet (d, p) ++ r)) = Some (Z.of_nat (length (wire d)))) as Ea
    by (rewrite Edrop; apply (addr_len_ok _ d Hd); by exists (p ++ r)).
  pose proof (wire_head d Hd) as (t & b & tl & Ew & _).
  assert (2 <= length (wire d))%nat as H2 by (rewrite Ew; simpl; lia).
  eexists. split; [done|]. cbn [m_buf m_len m_head]. rewrite Ea. cbn [mbind option_bind].
  rewrite take_ge, El by lia.
  rewrite (proj2 (Z.ltb_ge _ 4)), (proj2 (Z.leb_gt _ 0)), (proj2 (Z.ltb_ge _ _)) by lia.
  split; [done|]. split; [|split].
  - eexists. split; [done|]. exists (p ++ r). exact Edrop.
  - exists r. cbn [m_buf snd]. rewrite Ep.
    replace (Z.to_nat (3 + Z.of_nat (length (wire d)))) with (length ([0; 0; 0] ++ wire d))
      by (rewrite length_app; cbn [length]; lia).
    by rewrite drop_app_length.
  - cbn [m_len snd]. lia.
Qed.

(** The datagrams that arrive with some packets. *)
Definition arrive (g : Dgram) (x : datagram) : Prop := dg_data g = packet x.

Lemma parse_packets cap msgv gs (ds : list datagram) :
  Forall (fun m => Z.of_nat (length (m_buf m)) = cap /\ m_len m = cap) msgv ->
  Forall2 arrive gs ds -> Forall (fits cap) ds -> (length ds <= length msgv)%nat ->
  exists st out, store_udps msgv gs = Some st /\ parse_udps st gs = Some (Some out) /\
    Forall2 msg_is (take (length ds) out) ds.
Proof.
  intros Hms Hgs. revert msgv Hms. induction Hgs as [|g x gs ds Hg Hgs IH]; intros msgv Hms Hf Hle.
  { exists msgv, msgv. by destruct msgv. }
  destruct msgv as [|m msgv]; [simpl in Hle; lia|].
  apply Forall_cons in Hms as [[Hb Hl] Hms]. apply Forall_cons in Hf as [Hx Hf].
  destruct (parse_packet cap m x (dg_peer g) Hb Hl Hx) as (m1 & m' & E1 & E & Hm').
  assert (g = mkDgram (packet x) (dg_peer g)) as Eg by (destruct g; unfold arrive in Hg; simpl in *; congruence).
  rewrite <- Eg in E, E1. destruct (IH msgv Hms Hf) as (st & out & E2 & E3 & Hout); [simpl in Hle; lia|].
  exists (m1 :: st), (m' :: out). cbn [store_udps parse_udps]. rewrite E1. cbn [mbind option_bind].
  rewrite E2. split; [done|]. rewrite E. cbn [mbind option_bind]. rewrite E3.
  split; [done|]. by constructor.
Qed.

(** ** Buffers in a block *)

Lemma rdn_in b off n : 0 <= off -> 0 <= n -> off + n <= Z.of_nat (length b) ->
  rdn b off n = Some (take (Z.to_nat n) (drop (Z.to_nat off) b)).
Proof.
  intros Ho Hn Hl. unfold rdn.
  by rewrite (proj2 (Z.ltb_ge off 0)), (proj2 (Z.ltb_ge n 0)), (proj2 (Z.ltb_ge _ _)) by lia.
Qed.

Lemma memcpy_in b off src : 0 <= off -> off + Z.of_nat (length src) <= Z.of_nat (length b) ->
  memcpy b off src (Z.of_nat (length src)) =
    Some (take (Z.to_nat off) b ++ src ++ drop (Z.to_nat off + length src) b).
Proof.
  intros Ho Hl. unfold memcpy.
  rewrite (proj2 (Z.ltb_ge off 0)), !(proj2 (Z.ltb_ge _ _)) by lia. cbn [orb].
  rewrite Nat2Z.id, (take_ge src) by lia. do 4 f_equal. lia.
Qed.

(** A message of a whole buffer. *)
Definition fresh_msg (P : list Z -> Prop) (m : HevSocks5UDPMsg) : Prop :=
  exists b, m = mkMsg PtrUnset b UDP_BUF_SIZE /\ Z.of_nat (length b) = UDP_BUF_SIZE /\ P b.

Lemma make_svec_ok num buf off (whole := take (Z.to_nat (off + UDP_BUF_SIZE * Z.of_nat num)) buf) :
  0 <= off -> off + UDP_BUF_SIZE * Z.of_nat num <= Z.of_nat (length buf) ->
  exists svec, make_svec num buf off = Some svec /\ length svec = num /\
    Forall (fresh_msg (fun b => bytes_ok whole -> bytes_ok b)) svec.
Proof.
  unfold whole, UDP_BUF_SIZE. clear whole. revert off. induction num as [|num IH]; intros off Ho Hl; [by exists []|].
  cbn [make_svec]. unfold UDP_BUF_SIZE. rewrite rdn_in by lia. cbn [mbind option_bind].
  destruct (IH (off + 1500)) as (svec & -> & <- & Hs); [lia..|]. cbn [mbind option_bind].
  replace (off + 1500 + 1500 * Z.of_nat (length svec)) with (off + 1500 * Z.of_nat (S (length svec))) in Hs by lia.
  eexists. split; [done|]. split; [done|]. constructor; [|done].
  eexists. split; [done|]. split; [rewrite length_take, length_drop; unfold UDP_BUF_SIZE; lia|].
  intros Hb. rewrite take_drop_commute. apply Forall_drop.
  replace (Z.to_nat off + Z.to_nat 1500)%nat
    with ((Z.to_nat off + 1500) `min` Z.to_nat (off + 1500 * Z.of_nat (S (length svec))))%nat by lia.
  rewrite <- take_take. by apply Forall_take.
Qed.

(** The bytes of a block before the place where a slot is kept. *)
Lemma keep_prefix (buf buf1 buf' b : list Z) (n k : nat) :
  buf1 = take n buf ++ b ++ drop (n + length b) buf -> (n <= length buf)%nat -> (n <= k)%nat ->
  take k buf' = take k buf1 -> take n buf' = take n buf.
Proof.
  intros -> Hn Hk Ht. replace n with (n `min` k)%nat by lia. rewrite <- take_take, Ht, take_take.
  rewrite Nat.min_l by done. by rewrite take_app_le, take_take, Nat.min_id by (rewrite length_take; lia).
Qed.

Lemma keep_slots_ok slots buf off :
  Forall (fun b => Z.of_nat (length b) <= UDP_BUF_SIZE) slots -> 0 <= off ->
  off + UDP_BUF_SIZE * Z.of_nat (length slots) <= Z.of_nat (length buf) ->
  exists buf', keep_slots slots buf off = Some buf' /\ length buf' = length buf /\
    take (Z.to_nat off) buf' = take (Z.to_nat off) buf.
Proof.
  unfold UDP_BUF_SIZE. intros Hs. revert buf off. induction Hs as [|b slots Hb _ IH]; intros buf off Ho Hl.
  { by exists buf. }
  cbn [keep_slots length] in *. rewrite memcpy_in by lia. cbn [mbind option_bind].
  remember (_ ++ _ ++ _) as buf1 eqn:E1.
  assert (length buf1 = length buf) as Hl1 by (rewrite E1, !length_app, length_take, length_drop; lia).
  destruct (IH buf1 (off + UDP_BUF_SIZE)) as (buf' & -> & Hl' & Ht); unfold UDP_BUF_SIZE in *; [lia..|].
  exists buf'. split; [done|]. split; [lia|]. by eapply keep_prefix; [| | |exact Ht]; [|lia..].
Qed.

(** Whole buffers are all that is found at their places. *)
Lemma keep_slots_full slots buf off buf' :
  Forall (fun b => Z.of_nat (length b) = UDP_BUF_SIZE) slots -> 0 <= off ->
  off + UDP_BUF_SIZE * Z.of_nat (length slots) <= Z.of_nat (length buf) ->
  keep_slots slots buf off = Some buf' ->
  take (Z.to_nat (off + UDP_BUF_SIZE * Z.of_nat (length slots))) buf' = take (Z.to_nat off) buf ++ concat slots.
Proof.
  unfold UDP_BUF_SIZE. intros Hs. revert buf off. induction Hs as [|b slots Hb _ IH]; intros buf off Ho Hl.
  { intros [= <-]. simpl. rewrite app_nil_r. f_equal. lia. }
  cbn [keep_slots length] in *. rewrite memcpy_in by lia. cbn [mbind option_bind].
  remember (_ ++ _ ++ _) as buf1 eqn:E1. intros E.
  assert (length buf1 = length buf) as Hl1 by (rewrite E1, !length_app, length_take, length_drop; lia).
  unfold UDP_BUF_SIZE in E. specialize (IH buf1 (off + 1500) ltac:(lia) ltac:(lia) E).
  replace (off + 1500 * Z.of_nat (S (length slots))) with (off + 1500 + 1500 * Z.of_nat (length slots)) by lia.
  rewrite IH. cbn [concat]. rewrite app_assoc. f_equal. rewrite E1, app_assoc.
  apply take_app_length'. rewrite length_app, length_take. lia.
Qed.

(** *** What receiving does to the size of the buffers: nothing *)

Definition same_slots (ms ms' : list HevSocks5UDPMsg) : Prop :=
  map (fun m => length (m_slot m)) ms' = map (fun m => length (m_slot m)) ms.

Lemma memcpy_length b off src n b' : memcpy b off src n = Some b' -> length b' = length b.
Proof.
  unfold memcpy. destruct (_ || _)%bool eqn:E; [done|]. intros [= <-].
  rewrite !orb_false_iff, !Z.ltb_ge in E. rewrite !length_app, !length_take, length_drop. lia.
Qed.

(** * Relaying datagrams between a carrier and a socket: lemmas *)

(** ** What arrives, on either carrier *)

(** The carrier holds the datagrams [ds], framed in the stream or as one batch
    of packets, for a receiver with [num] buffers. *)
Definition arriving (num : nat) (rest out : list Z) (rx' : list dg_rx) (ds : list datagram)
    (s : HevSocks5UDP * World) : Prop :=
  (stype (u_base s.1) = HEV_SOCKS5_TYPE_UDP_IN_TCP /\ (num <= length ds)%nat /\
     io_at s.2 (frames ds ++ rest) out) \/
  (stype (u_base s.1) = HEV_SOCKS5_TYPE_UDP_IN_UDP /\ (length ds <= num)%nat /\
     exists gs, Forall2 arrive gs ds /\ d_rx (u_a s.1) = DgData gs :: rx').

(** What is left after [k] of them. *)
Definition left_over (rest out : list Z) (rx' : list dg_rx) (ds : list datagram) (k : nat)
    (s : HevSocks5UDP * World) : Prop :=
  (stype (u_base s.1) = HEV_SOCKS5_TYPE_UDP_IN_TCP /\ io_at s.2 (frames (drop k ds) ++ rest) out) \/
  (stype (u_base s.1) = HEV_SOCKS5_TYPE_UDP_IN_UDP /\ k = length ds /\ d_rx (u_a s.1) = rx').

(** How many of them one call reads. *)
Definition readable (num : nat) (ds : list datagram) (s : HevSocks5UDP * World) : nat :=
  if Z.eqb (stype (u_base s.1)) HEV_SOCKS5_TYPE_UDP_IN_TCP then ready num (w_rx s.2) 0 ds
  else length ds.

(** What receiving leaves alone. *)
Definition kept (x x' : HevSocks5UDP) : Prop :=
  u_b x' = u_b x /\ d_tx (u_a x') = d_tx (u_a x) /\ d_sent (u_a x') = d_sent (u_a x) /\
  stype (u_base x') = stype (u_base x).

Lemma kept_errno x x' : same_but_errno x x' -> kept x x'.
Proof. by intros [e ->]. Qed.

Section relay.
Context `{Kernel} `{Pton}.

(** The kernel connects the relay socket to its first sender. *)
Definition may_associate (x : HevSocks5UDP) : Prop :=
  udp_associated (u_base x) <> 0 \/ forall t sa, 0 <= k_ret t (CConnect (u_fd x) sa).

Lemma same_slots_refl ms : same_slots ms ms.
Proof. done. Qed.

Lemma same_slots_cons m m' ms ms' :
  length (m_slot m') = length (m_slot m) -> same_slots ms ms' -> same_slots (m :: ms) (m' :: ms').
Proof. unfold same_slots. simpl. congruence. Qed.

Lemma slot_length a h b l : length (m_slot (mkMsgAt a h b l)) = (length h + length b)%nat.
Proof. apply length_app. Qed.

Lemma slot_moved a h b n l : length (m_slot (mkMsgAt a (h ++ take n b) (drop n b) l)) = (length h + length b)%nat.
Proof. rewrite slot_length, length_app, length_take, length_drop. lia. Qed.

Lemma store_udps_slots msgv gs st : store_udps msgv gs = Some st -> same_slots msgv st.
Proof.
  revert gs st. induction msgv as [|m msgv IH]; intros [|g gs] st; cbn [store_udps]; try done;
    try by intros [= <-].
  unfold store_udp. destruct (memcpy _ _ _ _) as [b|] eqn:Em; [|done]. cbn [mbind option_bind].
  destruct (store_udps msgv gs) as [r|] eqn:Er; [|done]. intros [= <-].
  apply same_slots_cons; [|by apply (IH gs)]. rewrite slot_length.
  apply memcpy_length in Em. unfold m_slot. rewrite length_app. lia.
Qed.

Lemma parse_udps_slots msgv gs out : parse_udps msgv gs = Some (Some out) -> same_slots msgv out.
Proof.
  revert gs out. induction msgv as [|m msgv IH]; intros [|g gs] out; cbn [parse_udps]; try done;
    try by intros [= <-].
  destruct (parse_udp m (msg_len m g)) as [[m'|]|] eqn:Em; [|done..]. cbn [mbind option_bind].
  destruct (parse_udps msgv gs) as [[r|]|] eqn:Er; [|done..]. intros [= <-].
  apply same_slots_cons; [|by apply (IH gs)]. revert Em. unfold parse_udp.
  destruct (hev_socks5_addr_len _) as [n|]; [|done]. cbn [mbind option_bind].
  destruct (Z.ltb _ 4); [intros [= <-]; by unfold m_slot; cbn [m_head m_buf]|].
  destruct (Z.leb n 0); [done|]. destruct (Z.ltb _ _); [done|]. intros [= <-].
  rewrite slot_moved. unfold m_slot. by rewrite length_app.
Qed.

(** A computation whose result always satisfies [R]. *)
Definition yields {A} (R : A -> Prop) (m : MU A) : Prop := hoare (fun _ => True) m (fun _ => R).

Lemma yields_bind {A B} (R : B -> Prop) (m : MU A) (f : A -> MU B) :
  (forall a, yields R (f a)) -> yields R (m ≫= f).
Proof. intros Hf. eapply hoare_bind with (R := fun _ _ => True); [by intros ? ? ?|done]. Qed.

Lemma yields_mem {A B} (R : B -> Prop) (o : option A) (f : A -> MU B) :
  (forall a, o = Some a -> yields R (f a)) -> yields R (mem o ≫= f).
Proof.
  intros Hf. eapply hoare_bind with (R := fun _ a => o = Some a); [by apply hoare_lift|].
  intros a s s' b E. by apply Hf.
Qed.

Lemma yields_ret {A} (R : A -> Prop) (a : A) : R a -> yields R (mret a).
Proof. intros Ha. by apply hoare_ret. Qed.

Lemma yields_tail {A B} (R : A -> Prop) (R' : B -> Prop) (m : MU A) (f : A -> MU B) :
  yields R m -> (forall a, R a -> yields R' (f a)) -> yields R' (m ≫= f).
Proof.
  intros Hm Hf. eapply hoare_bind; [exact Hm|]. intros a s s' b Ha. by apply Hf.
Qed.

Lemma scatter_length buf bs n d b : scatter buf bs n d = Some b -> length b = length buf.
Proof.
  unfold scatter. destruct (rdn buf 2 _); [|done]. cbn [mbind option_bind].
  destruct (rdn buf n d); [|done]. cbn [mbind option_bind].
  destruct (memcpy buf 2 _ _) as [b1|] eqn:E1; [|done]. cbn [mbind option_bind].
  intros E2. apply memcpy_length in E1, E2. congruence.
Qed.

Lemma recv_tcp_slots nb rlen msgv : yields (fun r => same_slots msgv r.2) (recv_tcp_loop nb rlen msgv).
Proof.
  revert rlen. induction msgv as [|m msgv IH]; intros rlen; cbn [recv_tcp_loop]; [by apply yields_ret|].
  apply yields_bind. intros [r udp]. destruct (negb _); [by apply yields_ret|].
  apply yields_mem. intros h _. destruct (Z.ltb h 5); [by apply yields_ret|].
  apply yields_mem. intros d _. destruct (Z.ltb _ _); [by apply yields_ret|].
  apply yields_bind. intros [r2 bs]. apply yields_mem. intros buf Hbuf%scatter_length.
  assert (length (m_head m) + length buf = length (m_slot m))%nat as Hl
    by (unfold m_slot; rewrite length_app; lia).
  destruct (negb _).
  { apply yields_ret. apply same_slots_cons; [|done]. by rewrite slot_length. }
  apply yields_mem. intros t _. apply yields_mem. intros l _.
  apply yields_mem. intros b1 E1%wr8_length. apply yields_mem. intros b2 E2%wr8_length.
  eapply yields_tail; [apply IH|]. intros [r3 ms] Hms. cbn [snd] in Hms. apply yields_ret.
  apply same_slots_cons; [|done]. rewrite slot_moved. lia.
Qed.

Lemma recvmmsg_slots nb msgv : yields (fun r => same_slots msgv r.2) (hev_socks5_udp_recvmmsg nb msgv).
Proof.
  unfold hev_socks5_udp_recvmmsg. apply yields_bind. intros s.
  destruct (Z.eqb _ _); [apply recv_tcp_slots|]. destruct (Z.eqb _ _); [|by apply yields_ret].
  unfold hev_socks5_udp_recvmmsg_udp. apply yields_bind. intros [r ds].
  destruct (Z.leb r 0); [by apply yields_ret|].
  apply yields_mem. intros st Hst%store_udps_slots. apply yields_bind. intros s'.
  apply yields_bind. intros []; cbn [negb]; [|by apply yields_ret].
  apply yields_mem. intros [out|] Hout; apply yields_ret; [|done].
  apply parse_udps_slots in Hout. unfold same_slots in *. cbn [snd]. congruence.
Qed.

Lemma mwp_yields {A} (R : A -> Prop) (m : MU A) s (Q : HevSocks5UDP * World -> A -> Prop) :
  yields R m -> mwp m s (fun s a => R a -> Q s a) -> mwp m s Q.
Proof. intros Hm (s' & a & E & HQ). exists s', a. split; [done|]. by apply HQ, (Hm s s' a). Qed.

Lemma recvmmsg_udp_ok cap msgv (ds : list datagram) gs rx' x w
    (Q : HevSocks5UDP * World -> Z * list HevSocks5UDPMsg -> Prop) :
  Forall (fun m => Z.of_nat (length (m_buf m)) = cap /\ m_len m = cap) msgv ->
  Forall (fits cap) ds -> ds <> [] -> (length ds <= length msgv)%nat ->
  Forall2 arrive gs ds -> d_rx (u_a x) = DgData gs :: rx' -> may_associate x ->
  (forall x' w' out, kept x x' -> d_rx (u_a x') = rx' -> w_tx w' = w_tx w -> w_rx w' = w_rx w ->
     w_sent w' = w_sent w -> Forall2 msg_is (take (length ds) out) ds ->
     Q (x', w') (Z.of_nat (length ds), out)) ->
  mwp (hev_socks5_udp_recvmmsg_udp true msgv) (x, w) Q.
Proof.
  intros Hms Hf Hne Hle Hgs Hrx Hassoc HQ. pose proof (Forall2_length _ _ _ Hgs) as Hlen.
  assert (0 < Z.of_nat (length ds)) as Hpos by (destruct ds; [done|simpl; lia]).
  unfold hev_socks5_udp_recvmmsg_udp, recvmmsg_a. mstep. mstep. apply mwp_get_self.
  unfold recvmmsg_from. cbn [fst]. rewrite Hrx. rewrite take_ge by lia.
  replace (Nat.ltb (length msgv) (length gs)) with false by (symmetry; apply Nat.ltb_ge; lia).
  mstep. apply mwp_set_self. mstep. cbv beta iota. rewrite Hlen.
  rewrite (proj2 (Z.leb_gt _ 0)) by done.
  destruct (parse_packets cap msgv gs ds Hms Hgs Hf Hle) as (st & out & Est & Ep & Hout).
  mstep. eapply mwp_mem; [exact Est|]. mstep. apply mwp_get_self. mstep.
  set (x1 := set_errno _ _).
  assert (forall x2 w2, kept x x2 -> d_rx (u_a x2) = rx' -> w_tx w2 = w_tx w ->
    w_rx w2 = w_rx w -> w_sent w2 = w_sent w ->
    mwp (r ← mem (parse_udps st gs);
         match r with Some l => mret (Z.of_nat (length ds), l) | None => mret (-1, st) end)
      (x2, w2) Q) as Hend.
  { intros. mstep. eapply mwp_mem; [exact Ep|]. cbv iota. mstep. by apply HQ. }
  cbn [fst]. destruct (Z.eqb_spec (udp_associated (u_base x1)) 0) as [E0|].
  2: { mstep. simpl negb. cbv iota. by apply Hend. }
  destruct Hassoc as [|Hok]; [done|].
  destruct gs as [|g gs]; [by destruct ds|]. mstep. eapply mwp_mem; [done|].
  mstep. apply mwp_sys. rewrite (proj2 (Z.ltb_ge _ 0)) by apply Hok. unfold upd_udp.
  mstep. mstep. apply mwp_get_self. apply mwp_set_self. mstep. simpl negb. cbv iota. by apply Hend.
Qed.

Lemma recvmmsg_ok cap msgv (ds : list datagram) rest out rx' x w
    (Q : HevSocks5UDP * World -> Z * list HevSocks5UDPMsg -> Prop) :
  Forall (fun m => Z.of_nat (length (m_buf m)) = cap /\ m_len m = cap) msgv -> cap < 2 ^ 64 ->
  Forall (fits cap) ds -> ds <> [] -> msgv <> [] -> may_associate x ->
  arriving (length msgv) rest out rx' ds (x, w) ->
  (forall s' r ms k, k = readable (length msgv) ds (x, w) -> kept x s'.1 ->
     (k <= length msgv)%nat -> (k <= length ds)%nat ->
     left_over rest out rx' ds k s' ->
     Forall2 msg_is (take k ms) (take k ds) ->
     (0 < k)%nat /\ r = Z.of_nat k \/ k = 0%nat /\ r = -1 /\ errno s'.1 = EAGAIN ->
     Q s' (r, ms)) ->
  mwp (hev_socks5_udp_recvmmsg true msgv) (x, w) Q.
Proof.
  intros Hms Hcap Hf Hne Hnem Hassoc Harr HQ. unfold hev_socks5_udp_recvmmsg.
  mstep. apply mwp_get_self. cbn [fst] in *.
  destruct Harr as [(Et & Hle & Hio)|(Et & Hle & gs & Hgs & Hrx)]; cbn [fst snd] in *; rewrite Et;
    cbn [Z.eqb Pos.eqb HEV_SOCKS5_TYPE_UDP_IN_TCP HEV_SOCKS5_TYPE_UDP_IN_UDP].
  - eapply mwp_mono.
    { apply (recv_tcp_loop_ok cap true msgv ds rest x w out 0); try done. }
    intros s' [r ms] (k & Hk & Hx & Hio' & Hms' & Ek & Hres). cbn [fst snd] in *.
    apply (HQ s' r ms k); [unfold readable; cbn [fst]; by rewrite Et|by apply kept_errno|done|lia| |done|].
    + left. split; [|done]. by destruct Hx as [e ->].
    + destruct Hres as [[[?|?] ->]|(? & _ & ? & ?)]; [done| |by right]. left. lia.
  - eapply recvmmsg_udp_ok; [done|done|done|done|done|done|done|].
    intros x' w' ms Hk Hrx' _ _ _ Hms'. apply (HQ _ _ _ (length ds)); try done.
    + unfold readable. cbn [fst]. by rewrite Et.
    + right. cbn [fst]. destruct Hk as (_ & _ & _ & ->). done.
    + by rewrite (take_ge ds) by lia.
    + left. split; [|done]. destruct ds; [done|simpl; lia].
Qed.

(** ** Towards the network *)

(** A datagram as it is sent to its destination. *)
Definition forwarded (x : datagram) : option sockaddr_in6 * list Z := (fst <$> dest_sa x.1, x.2).

(** It needs no resolving, and it is not empty. *)
Definition direct (x : datagram) : Prop := dest_sa x.1 <> None /\ x.2 <> [].

Lemma fwd_f_msgs_ok ms (ds : list datagram) s :
  Forall2 msg_is (take (length ds) ms) ds -> (length ds <= length ms)%nat ->
  Forall (fun x => dest_ok x.1) ds -> Forall direct ds ->
  mwp (fwd_f_msgs (length ds) ms) s (fun s' r => s' = s /\ r = Some (map forwarded ds)).
Proof.
  intros Hms Hle Hd Hdir. revert ms Hms Hle.
  induction Hdir as [|[d p] ds [Hsa Hp] Hdir IH]; intros ms Hms Hle; [simpl; by mstep|].
  apply Forall_cons in Hd as [Hd Hds]. destruct ms as [|m ms]; [simpl in Hle; lia|].
  cbn [length take] in Hms. apply Forall2_cons in Hms as [Hm Hms].
  destruct Hm as ((a & Ea & Ha) & (r & Eb) & El). cbn [fst snd length] in *.
  cbn [fwd_f_msgs]. mstep. eapply mwp_mem; [done|]. rewrite El.
  rewrite (proj2 (Z.eqb_neq _ 0)) by (destruct p; [done|simpl; lia]). rewrite Ea.
  mstep. apply mwp_get_self. mstep.
  destruct (dest_sa d) as [[sa fam]|] eqn:Esa; [|done].
  eapply addr_into_sockaddr6_ip; [exact Hd|exact Ha|exact Esa|]. cbv beta iota. change (Z.ltb 0 0) with false. cbv iota.
  mstep. eapply mwp_mem; [rewrite Eb; by apply (rdn_app [])|]. mstep. simpl tail.
  eapply mwp_mono; [apply (IH Hds ms Hms); lia|]. intros s' r' [-> ->]. cbv beta iota. mstep.
  split; [done|]. simpl. unfold forwarded at 2. simpl. by rewrite Esa.
Qed.

Lemma fwd_end_ok res s (Q : HevSocks5UDP * World -> Z -> Prop) :
  (res = -1 /\ errno s.1 = EAGAIN /\ Q s 0) \/ (0 < res /\ Q s 1) -> mwp (fwd_end res) s Q.
Proof.
  intros HQ. unfold fwd_end. mstep. apply mwp_get_self. mstep.
  destruct HQ as [(-> & -> & HQ)|[Hr HQ]]; [done|]. by rewrite (proj2 (Z.leb_gt res 0)).
Qed.

(** ** Towards the client *)

(** The datagram that a received one becomes: named by its source. *)
Definition answered (g : Dgram) : datagram :=
  (sa_dest (dg_peer g), take (Z.to_nat UDP_BUF_SIZE) (dg_data g)).

Definition dgram_ok (g : Dgram) : Prop := sa_ok (dg_peer g) /\ bytes_ok (sin6_addr (dg_peer g)).

Lemma sa_dest_ok sa : sa_ok sa -> bytes_ok (sin6_addr sa) ->
  dest_ok (sa_dest sa) /\ (length (wire (sa_dest sa)) <= 19)%nat.
Proof.
  intros (Hp & Hpb & Ha) Hab. unfold sa_dest, sa_port.
  destruct (list_len2 _ Hp) as (a & b & Ep). rewrite Ep in Hpb |- *.
  apply Forall_cons in Hpb as [Ha0 Hpb]. apply Forall_cons in Hpb as [Hb0 _].
  unfold byte_ok in *. assert (0 <= of_be16 a b < 65536) by (unfold of_be16; lia).
  destruct (IN6_IS_ADDR_V4MAPPED _); simpl; rewrite ?length_app, ?length_drop, Ha; simpl.
  - split; [|lia]. split; [done|]. split; [by apply Forall_drop|done].
  - split; [|lia]. done.
Qed.

(** What was stored is what the messages to the client hold. *)
Lemma make_dvec_ok gs buf off : Forall dgram_ok gs -> 0 <= off ->
  off + UDP_BUF_SIZE * Z.of_nat (length gs) <= Z.of_nat (length buf) ->
  exists buf' ms, keep_slots (map received_part gs) buf off = Some buf' /\
    length buf' = length buf /\ take (Z.to_nat off) buf' = take (Z.to_nat off) buf /\
    make_dvec gs buf' off = Some ms /\ Forall2 msg_is ms (map answered gs).
Proof.
  unfold UDP_BUF_SIZE. intros Hgs. revert buf off.
  induction Hgs as [|g gs [Hsa Hb] _ IH]; intros buf off Ho Hl; [by exists buf, []|].
  cbn [map keep_slots make_dvec length] in *. set (got := received_part g).
  assert (length got <= 1500)%nat as Hgot
    by (unfold got, received_part, UDP_BUF_SIZE; rewrite length_take; lia).
  rewrite memcpy_in by lia. cbn [mbind option_bind]. set (buf1 := _ ++ _ ++ _).
  assert (length buf1 = length buf) as Hl1
    by (unfold buf1; rewrite !length_app, length_take, length_drop; lia).
  destruct (IH buf1 (off + 1500)) as (buf' & ms & E1 & Hl' & Ht & E2 & Hms); [lia..|].
  assert (take (Z.to_nat off) buf' = take (Z.to_nat off) buf) as Hoff
    by (by eapply keep_prefix; [| | |exact Ht]; [|lia..]).
  assert (exists r, take 1500 (drop (Z.to_nat off) buf') = got ++ r) as [r Hr].
  { rewrite take_drop_commute. replace (Z.to_nat off + 1500)%nat with (Z.to_nat (off + 1500)) by lia.
    rewrite Ht. replace (Z.to_nat (off + 1500)) with (Z.to_nat off + 1500)%nat by lia.
    rewrite <- take_drop_commute. unfold buf1.
    rewrite drop_app_length' by (rewrite length_take; lia).
    rewrite take_app_ge by lia. eauto. }
  exists buf'. destruct (addr_from_sockaddr6_ok (replicate 19 0) (dg_peer g)) as [r' Er];
    [rewrite length_replicate; lia|done|].
  eexists. split; [exact E1|]. split; [lia|]. split; [done|].
  rewrite rdn_in by (unfold UDP_BUF_SIZE; lia). cbn [mbind option_bind]. rewrite Er. cbn [mbind option_bind].
  change (off + UDP_BUF_SIZE) with (off + 1500). rewrite E2. cbn [mbind option_bind]. split; [done|].
  constructor; [|done]. split; [|split; [|done]].
  - eexists. split; [done|]. by exists r'.
  - exists r. exact Hr.
Qed.

End relay.
