(* ===== verification/UDPSafe.v ===== *)
(** * The relay is safe on arbitrary packets: lemmas *)
From S2P Require Import Prelude CInt Effect SockIO Addr AddrSpec Socks5 Descriptors Client ClientSpec ClientProps Server ServerSpec UDP UDPSpec.

Lemma rd8_some b off : bytes_ok b -> 0 <= off < Z.of_nat (length b) ->
  exists v, rd8 b off = Some v /\ byte_ok v.
Proof. intros Hb Ho. destruct (rd8_in b off Ho) as [v Hv]. exists v. eauto using rd8_ok. Qed.

Lemma addr_len_in a : bytes_ok a -> 2 <= Z.of_nat (length a) ->
  exists n, hev_socks5_addr_len a = Some n /\ n <= 259.
Proof.
  intros Hb Hl. unfold hev_socks5_addr_len.
  destruct (rd8_some a off_atype) as (t & -> & _); [done|unfold off_atype; lia|].
  destruct (rd8_some a off_domain_len) as (l & El & Hlb); [done|unfold off_domain_len; lia|].
  cbn [mbind option_bind]. unfold byte_ok in Hlb.
  repeat (destruct (Z.eqb t _); [first [by eexists|rewrite El; eexists; split; [done|lia]]|]).
  by eexists.
Qed.

Section safe.
Context `{Kernel} `{Pton}.

(** Reading an address from a whole buffer never leaves it. *)
Lemma addr_into_sockaddr6_safe {X} a sa f (x : X) w :
  bytes_ok a -> 260 <= Z.of_nat (length a) ->
  mwp (hev_socks5_addr_into_sockaddr6 a sa f) (x, w) (fun s _ => s.1 = x).
Proof.
  intros Hb Hl. unfold hev_socks5_addr_into_sockaddr6.
  destruct (rd8_some a off_atype) as (t & Et & _); [done|unfold off_atype; lia|].
  mstep. eapply mwp_mem; [exact Et|].
  destruct (Z.eqb t HEV_SOCKS5_ADDR_TYPE_IPV4).
  { mstep. eapply mwp_mem; [|by mstep]. unfold hev_socks5_ipv4_into_sockaddr6.
    unfold off_ipv4_port, off_ipv4_addr. rewrite !rdn_in by lia. done. }
  destruct (Z.eqb t HEV_SOCKS5_ADDR_TYPE_IPV6).
  { mstep. eapply mwp_mem; [|by mstep]. unfold hev_socks5_ipv6_into_sockaddr6.
    unfold off_ipv6_port, off_ipv6_addr. rewrite !rdn_in by lia. done. }
  destruct (Z.eqb t HEV_SOCKS5_ADDR_TYPE_NAME); [|by mstep].
  destruct (rd8_some a off_domain_len) as (l & El & Hlb); [done|unfold off_domain_len; lia|].
  unfold byte_ok in Hlb. mstep. eapply mwp_mem; [exact El|].
  mstep. eapply mwp_mem; [apply rdn_in; unfold off_domain_addr; lia|].
  set (n := take _ _). assert (Z.of_nat (length n) = l) as Hn.
  { unfold n. rewrite length_take, length_drop. unfold off_domain_addr. lia. }
  destruct (split_at name_buf (length n)) as (z & zr & Ez & Hz).
  { unfold name_buf. rewrite length_replicate. lia. }
  assert (exists y zr', zr = y :: zr') as (y & zr' & ->).
  { destruct zr as [|y zr']; [|by eauto].
    apply (f_equal length) in Ez. unfold name_buf in Ez.
    rewrite length_replicate, length_app in Ez. simpl in Ez. lia. }
  mstep. eapply mwp_mem; [rewrite Ez; apply (memcpy_app []); done || lia|].
  rewrite take_ge by lia. simpl app. mstep. eapply mwp_mem; [by apply wr8_app|].
  destruct (rd8_some a (off_domain_addr + l)) as (p1 & E1 & _); [done|unfold off_domain_addr; lia|].
  destruct (rd8_some a (off_domain_addr + l + 1)) as (p2 & E2 & _);
    [done|unfold off_domain_addr; lia|].
  mstep. eapply mwp_mem; [unfold load16; rewrite E1; cbn [mbind option_bind]; by rewrite E2|].
  mstep. eapply mwp_mem; [unfold c_string; simpl; change (u8 0) with 0; apply c_string_from_cstr|].
  unfold hev_socks5_name_into_sockaddr6.
  destruct (hev_socks5_name_resolve_ipv4 _ _) as [sa1 r1]. destruct (Z.eqb r1 0); [by mstep|].
  destruct (hev_socks5_name_resolve_ipv6 _ _) as [sa2 r2]. destruct (Z.eqb r2 0); [by mstep|].
  unfold hev_socks5_name_resolve_name. mstep. apply mwp_sys_addr. cbv beta iota.
  destruct (Z.ltb _ 0); [by mstep|]. destruct (Z.eqb _ AF_INET); [by mstep|].
  destruct (Z.eqb _ AF_INET6); by mstep.
Qed.

(** ** Parsing arbitrary packets *)

(** A message that can be used: no address, or a whole one with its payload in
    the buffer. *)
Definition usable (m : HevSocks5UDPMsg) : Prop :=
  0 <= m_len m <= Z.of_nat (length (m_buf m)) /\
  (m_addr m = PtrNull \/ exists a, m_addr m = PtrTo a /\ bytes_ok a /\ 260 <= Z.of_nat (length a)).

Definition buffer_ok (m : HevSocks5UDPMsg) : Prop :=
  Z.of_nat (length (m_buf m)) = UDP_BUF_SIZE /\ m_len m = UDP_BUF_SIZE /\ bytes_ok (m_slot m).

(** Reading a message moves into its buffer. *)
Lemma parse_udp_slot m n m' : parse_udp m n = Some (Some m') -> m_slot m' = m_slot m.
Proof.
  unfold parse_udp. destruct (hev_socks5_addr_len _) as [k|]; [|done]. cbn [mbind option_bind].
  destruct (Z.ltb n 4); [by intros [= <-]|]. destruct (Z.leb k 0); [done|].
  destruct (Z.ltb _ _); [done|]. intros [= <-]. unfold m_slot. cbn [m_head m_buf].
  by rewrite <- app_assoc, take_drop.
Qed.

Lemma store_udp_safe m g : buffer_ok m -> bytes_ok (dg_data g) ->
  exists m1, store_udp m g = Some m1 /\ buffer_ok m1 /\ msg_len m1 g <= UDP_BUF_SIZE /\
    msg_len m1 g = Z.of_nat (length (take (Z.to_nat UDP_BUF_SIZE) (dg_data g))).
Proof.
  unfold buffer_ok, store_udp, msg_len. intros (Hb & Hl & Hok) Hg. rewrite Hl.
  set (got := take _ _).
  assert (Z.of_nat (length got) <= UDP_BUF_SIZE) as Hgot
    by (unfold got, UDP_BUF_SIZE; rewrite length_take; lia).
  assert (bytes_ok got) as Hgok by by apply Forall_take.
  rewrite memcpy_in by lia. cbn [mbind option_bind]. eexists. split; [done|].
  cbn [m_buf m_len]. fold got. split; [|done]. apply Forall_app in Hok as [Hh Hok].
  split; [rewrite !length_app, length_take, length_drop; lia|]. split; [done|].
  unfold m_slot. cbn [m_head m_buf]. unfold bytes_ok. rewrite !Forall_app.
  split_and!; [done|by apply Forall_take|done|by apply Forall_drop].
Qed.

Lemma parse_udp_safe m n : buffer_ok m -> n <= UDP_BUF_SIZE ->
  exists r, parse_udp m n = Some r /\ forall m', r = Some m' -> usable m'.
Proof.
  unfold buffer_ok, UDP_BUF_SIZE. intros (Hb & Hl & Hok) Hn. unfold parse_udp.
  apply Forall_app in Hok as [_ Hok].
  assert (bytes_ok (drop 3 (m_buf m))) as Ha by by apply Forall_drop.
  destruct (addr_len_in (drop 3 (m_buf m))) as (k & -> & Hk); [done|rewrite length_drop; lia|].
  cbn [mbind option_bind]. destruct (Z.ltb_spec n 4).
  { eexists. split; [done|]. intros m' [= <-]. split; [simpl; lia|by left]. }
  destruct (Z.leb_spec k 0); [by eexists|].
  destruct (Z.ltb_spec n (3 + k)); [by eexists|].
  eexists. split; [done|]. intros m' [= <-]. split; cbn [m_buf m_len m_addr].
  - rewrite length_drop. lia.
  - right. eexists. split; [done|]. split; [done|]. rewrite length_drop. lia.
Qed.

(** Every packet in [P] is stored and parsed without a fault, to a message in [U]. *)
Definition parses_to (P : Dgram -> Prop) (U : HevSocks5UDPMsg -> Prop) : Prop :=
  forall m g, buffer_ok m -> P g ->
    exists m1 r, store_udp m g = Some m1 /\ buffer_ok m1 /\ parse_udp m1 (msg_len m1 g) = Some r /\
      forall m', r = Some m' -> U m'.

Lemma parses_usable : parses_to (fun g => bytes_ok (dg_data g)) usable.
Proof.
  intros m g Hm Hg. destruct (store_udp_safe m g Hm Hg) as (m1 & E1 & H1 & Hle & _).
  destruct (parse_udp_safe m1 _ H1 Hle) as (r & E & Hr). by exists m1, r.
Qed.

(** A message with an address, when the packet is no shorter than its prefix. *)
Definition addressed (m : HevSocks5UDPMsg) : Prop :=
  0 <= m_len m <= Z.of_nat (length (m_buf m)) /\
  exists a, m_addr m = PtrTo a /\ bytes_ok a /\ 260 <= Z.of_nat (length a).

Lemma parses_addressed :
  parses_to (fun g => bytes_ok (dg_data g) /\ 4 <= Z.of_nat (length (dg_data g))) addressed.
Proof.
  intros m g Hm [Hg Hl]. destruct (store_udp_safe m g Hm Hg) as (m1 & E1 & H1 & Hle & En).
  destruct (parse_udp_safe m1 _ H1 Hle) as (r & E & Hr).
  exists m1, r. split; [done|]. split; [done|]. split; [done|]. intros m' ->.
  destruct (Hr m' eq_refl) as [Hlen [Hnull|Ha]]; [|done].
  exfalso. revert E. unfold parse_udp.
  destruct (hev_socks5_addr_len _) as [n|]; [|done]. cbn [mbind option_bind].
  rewrite En, length_take. unfold UDP_BUF_SIZE. rewrite (proj2 (Z.ltb_ge _ 4)) by lia.
  destruct (Z.leb n 0); [done|]. destruct (Z.ltb _ _); [done|]. intros [= <-]. discriminate Hnull.
Qed.

Lemma parse_udps_safe P U msgv gs :
  parses_to P U -> Forall buffer_ok msgv -> Forall P gs -> (length gs <= length msgv)%nat ->
  exists st r, store_udps msgv gs = Some st /\ Forall buffer_ok st /\ parse_udps st gs = Some r /\
    forall out, r = Some out -> Forall U (take (length gs) out) /\ (length gs <= length out)%nat /\
      map m_slot out = map m_slot st.
Proof.
  intros HPU Hms Hgs. revert gs Hgs. induction Hms as [|m msgv Hm Hms IH]; intros [|g gs] Hgs Hle;
    try (simpl in Hle; lia).
  - exists [], (Some []). split; [done|]. split; [done|]. split; [done|]. by intros out [= <-].
  - exists (m :: msgv), (Some (m :: msgv)). split; [done|]. split; [by constructor|]. split; [done|].
    intros out [= <-]. split; [constructor|]. split; [simpl; lia|done].
  - apply Forall_cons in Hgs as [Hg Hgs]. destruct (HPU m g Hm Hg) as (m1 & r & E1 & H1 & E & Hr).
    destruct (IH gs Hgs) as (st & r2 & E2 & Hst & E3 & Hr2); [simpl in Hle; lia|].
    cbn [store_udps]. rewrite E1. cbn [mbind option_bind]. rewrite E2. cbn [mbind option_bind].
    exists (m1 :: st). cbn [parse_udps]. rewrite E. cbn [mbind option_bind].
    destruct r as [m'|]; [|eexists; split; [done|]; split; [by constructor|]; by split].
    rewrite E3. cbn [mbind option_bind].
    eexists. split; [done|]. split; [by constructor|]. split; [done|].
    intros out E4. destruct r2 as [l|]; [|done]. injection E4 as <-.
    destruct (Hr2 l eq_refl) as (Hu & Hl2 & Hs). cbn [length take map]. split; [|split; [lia|]].
    + constructor; [by apply Hr|done].
    + rewrite Hs. f_equal. by apply (parse_udp_slot m1 (msg_len m1 g)).
Qed.

Lemma fwd_f_msgs_safe n ms x w :
  Forall usable (take n ms) -> (n <= length ms)%nat ->
  mwp (fwd_f_msgs n ms) (x, w) (fun s _ => s.1 = x).
Proof.
  revert ms w. induction n as [|n IH]; intros ms w Hms Hle; [simpl; by mstep|].
  destruct ms as [|m ms]; [simpl in Hle; lia|]. cbn [take] in Hms.
  apply Forall_cons in Hms as [[Hl Ha] Hms]. cbn [fwd_f_msgs length] in *.
  mstep. eapply mwp_mem; [done|]. destruct (Z.eqb (m_len m) 0); [by mstep|].
  destruct Ha as [->|(a & -> & Hok & Ha)]; [by mstep|].
  mstep. apply mwp_get_self. mstep. eapply mwp_mono; [by apply addr_into_sockaddr6_safe|].
  intros [x' w'] [[sa fam] ret] Hx'. cbn [fst] in Hx'. subst x'. cbv beta iota.
  destruct (Z.ltb ret 0); [by mstep|].
  mstep. eapply mwp_mem; [apply rdn_in; lia|]. mstep.
  eapply mwp_mono; [apply (IH ms w' Hms); lia|]. intros s' r Hs'. cbv beta. by mstep.
Qed.

(** ** The invariant of an association *)

Definition batch_ok (P : Dgram -> Prop) (ev : dg_rx) : Prop :=
  match ev with DgData ds => Forall P ds | _ => True end.

(** The packets are bytes, the addresses of peers are addresses. *)
Definition udp_inv_of (P : Dgram -> Prop) (x : HevSocks5UDP) : Prop :=
  stype (u_base x) = HEV_SOCKS5_TYPE_UDP_IN_UDP /\ Forall (batch_ok P) (d_rx (u_a x)) /\
  Forall (batch_ok (fun g => sa_ok (dg_peer g) /\ bytes_ok (sin6_addr (dg_peer g)))) (d_rx (u_b x)).

Definition udp_inv : HevSocks5UDP -> Prop := udp_inv_of (fun g => bytes_ok (dg_data g)).

Lemma recvmmsg_from_ok P sock nb n :
  Forall (batch_ok P) (d_rx sock) ->
  let '(sock', r, ds, e) := recvmmsg_from sock nb n in
  Forall (batch_ok P) (d_rx sock') /\ Forall P ds /\
  (length ds <= n)%nat /\ (r = Z.of_nat (length ds) \/ r < 0 /\ ds = []).
Proof.
  unfold recvmmsg_from. induction 1 as [|ev rx Hev Hrx IH]; simpl.
  - split_and!; [constructor|constructor|lia|right; done].
  - destruct ev as [ds|ab|]; [|destruct nb; [|destruct ab; [|exact IH]]|]; simpl.
    2-4: split_and!; [done|constructor|lia|by right].
    split; [|split; [by apply Forall_take|split; [rewrite length_take; lia|by left]]].
    destruct (Nat.ltb n (length ds)); [|done]. constructor; [by apply Forall_drop|done].
Qed.

Lemma recvmmsg_a_safe P nb n x w (Q : HevSocks5UDP * World -> Z * list Dgram -> Prop) :
  udp_inv_of P x ->
  (forall x' r ds, udp_inv_of P x' -> Forall P ds -> (length ds <= n)%nat ->
     r = Z.of_nat (length ds) \/ r < 0 /\ ds = [] -> Q (x', w) (r, ds)) ->
  mwp (recvmmsg_a nb n) (x, w) Q.
Proof.
  intros (Ht & Ha & Hb) HQ. unfold recvmmsg_a. mstep. apply mwp_get_self. cbn [fst].
  pose proof (recvmmsg_from_ok _ (u_a x) nb n Ha) as H'.
  destruct (recvmmsg_from (u_a x) nb n) as [[[sock r] ds] e]. destruct H' as (Hs & Hds & Hl & Hr).
  mstep. apply mwp_set_self. mstep. by apply HQ.
Qed.

Lemma recvmmsg_b_safe nb n x w (Q : HevSocks5UDP * World -> Z * list Dgram -> Prop) :
  udp_inv x ->
  (forall x' r ds, udp_inv x' ->
     Forall (fun g => sa_ok (dg_peer g) /\ bytes_ok (sin6_addr (dg_peer g))) ds ->
     (length ds <= n)%nat -> Q (x', w) (r, ds)) ->
  mwp (recvmmsg_b nb n) (x, w) Q.
Proof.
  intros (Ht & Ha & Hb) HQ. unfold recvmmsg_b. mstep. apply mwp_get_self. cbn [fst].
  pose proof (recvmmsg_from_ok _ (u_b x) nb n Hb) as H'.
  destruct (recvmmsg_from (u_b x) nb n) as [[[sock r] ds] e]. destruct H' as (Hs & Hds & Hl & _).
  mstep. apply mwp_set_self. mstep. by apply HQ.
Qed.

Lemma sendmmsg_a_safe P msgs x w : udp_inv_of P x ->
  mwp (sendmmsg_a msgs) (x, w) (fun s _ => udp_inv_of P s.1).
Proof.
  intros Hx. unfold sendmmsg_a. mstep. apply mwp_get_self. cbn [fst].
  destruct (dg_send_loop _ _ _ _) as [[[tx r] out] e]. mstep. apply mwp_set_self. by mstep.
Qed.

Lemma sendmmsg_b_safe msgs x w : udp_inv x ->
  mwp (sendmmsg_b msgs) (x, w) (fun s _ => udp_inv s.1).
Proof.
  intros Hx. unfold sendmmsg_b. mstep. apply mwp_get_self. cbn [fst].
  destruct (dg_send_loop _ _ _ _) as [[[tx r] out] e]. mstep. apply mwp_set_self. by mstep.
Qed.

(** Results of a step. *)
Definition step_result (r : Z) : Prop := r = -1 \/ r = 0 \/ r = 1.

Lemma fwd_end_safe res s (Q : HevSocks5UDP * World -> Z -> Prop) :
  (forall r, step_result r -> Q s r) -> mwp (fwd_end res) s Q.
Proof.
  intros HQ. unfold fwd_end. mstep. apply mwp_get_self. mstep. apply HQ. unfold step_result.
  destruct (Z.leb res 0); [|by auto]. destruct (_ && _)%bool; auto.
Qed.

Lemma recvmmsg_udp_safe P U nb msgv x w :
  parses_to P U -> udp_inv_of P x -> Forall buffer_ok msgv ->
  mwp (hev_socks5_udp_recvmmsg_udp nb msgv) (x, w) (fun s res => udp_inv_of P s.1 /\
    (res.1 <= 0 \/ exists n, res.1 = Z.of_nat n /\ Forall U (take n res.2) /\
       (n <= length res.2)%nat) /\ Forall (fun m => bytes_ok (m_slot m)) res.2).
Proof.
  intros HPU Hx Hms. unfold hev_socks5_udp_recvmmsg_udp.
  mstep. eapply recvmmsg_a_safe; [done|]. intros x1 r ds Hx1 Hds Hl Hr. cbv beta iota.
  assert (forall ms, Forall buffer_ok ms -> Forall (fun m => bytes_ok (m_slot m)) ms) as Hslots.
  { intros ms Hb. eapply Forall_impl; [exact Hb|]. by intros m (_ & _ & ?). }
  destruct (Z.leb_spec r 0); [mstep; by auto|].
  destruct Hr as [->|[? _]]; [|lia].
  destruct (parse_udps_safe P U msgv ds HPU Hms Hds Hl) as (st & pr & Est & Hst & Ep & Hpr).
  mstep. eapply mwp_mem; [exact Est|]. mstep. apply mwp_get_self. cbn [fst].
  set (Q := fun (s : HevSocks5UDP * World) (res : Z * list HevSocks5UDPMsg) => _).
  assert (forall s, udp_inv_of P s.1 -> Q s (-1, st)) as Hfail.
  { intros s Hs. split; [done|]. split; [left; simpl; lia|by apply Hslots]. }
  assert (forall s, udp_inv_of P s.1 -> mwp (r ← mem (parse_udps st ds);
    match r with Some l => mret (Z.of_nat (length ds), l) | None => mret (-1, st) end) s Q)
    as Hparse.
  { intros s Hs. mstep. eapply mwp_mem; [exact Ep|]. destruct pr as [l|]; mstep; [|by apply Hfail].
    destruct (Hpr l eq_refl) as (Hu & Hle & Em). split; [done|]. split; [right; by exists (length ds)|].
    apply Forall_map with (P := bytes_ok). cbn [snd]. rewrite Em. by apply Forall_map, Hslots. }
  mstep. destruct (Z.eqb _ 0); [|mstep; by apply Hparse].
  destruct ds as [|g ds]; [simpl in *; lia|]. mstep. eapply mwp_mem; [done|].
  mstep. apply mwp_sys. destruct (Z.ltb _ 0); [mstep; cbn [negb]; mstep; by apply Hfail|].
  unfold upd_udp. mstep. mstep. apply mwp_get_self. apply mwp_set_self. mstep. by apply Hparse.
Qed.

(** The block: two buffers for each of [num] messages, the first of which hold
    bytes. *)
Definition block_ok (num : nat) (buf : list Z) : Prop :=
  Z.of_nat (length buf) = UDP_BUF_SIZE * Z.of_nat num * 2 /\
  bytes_ok (take (Z.to_nat (UDP_BUF_SIZE * Z.of_nat num)) buf).

Definition keeps_inv (num : nat) (s : HevSocks5UDP * World) (res : Z * bool * list Z) : Prop :=
  udp_inv s.1 /\ step_result res.1.1 /\ block_ok num res.2.

Lemma fwd_finish_safe num s r bd buf : udp_inv s.1 -> block_ok num buf ->
  mwp (r ← fwd_end r; mret (r, bd, buf)) s (keeps_inv num).
Proof. intros Hs Hb. mstep. apply fwd_end_safe. intros r' Hr. by mstep. Qed.

(** The messages of the block, and the block with what they received. *)
Lemma block_svec num buf : block_ok num buf -> exists svec, make_svec num buf 0 = Some svec /\
  Forall buffer_ok svec /\
  forall ms, same_slots svec ms -> Forall (fun m => bytes_ok (m_slot m)) ms ->
    exists buf', keep_slots (map m_slot ms) buf 0 = Some buf' /\ block_ok num buf'.
Proof.
  intros [Hl Hb]. unfold UDP_BUF_SIZE in Hl.
  destruct (make_svec_ok num buf 0) as (svec & -> & Hn & Hs); [lia|unfold UDP_BUF_SIZE; lia|].
  exists svec. split; [done|]. split.
  { eapply Forall_impl; [exact Hs|]. intros m (b & -> & Hlb & Hbb). split; [done|]. split; [done|].
    by apply Hbb. }
  intros ms Hsame Hms.
  assert (length (map m_slot ms) = num) as Hnum.
  { apply (f_equal length) in Hsame. rewrite !length_map in Hsame. rewrite length_map. congruence. }
  assert (Forall (fun b => Z.of_nat (length b) = UDP_BUF_SIZE) (map m_slot ms)) as Hfull.
  { apply Forall_map. apply Forall_map with (P := fun n => Z.of_nat n = UDP_BUF_SIZE).
    unfold same_slots in Hsame. rewrite Hsame. apply Forall_map.
    eapply Forall_impl; [exact Hs|]. by intros m (b & -> & Hlb & _). }
  destruct (keep_slots_ok (map m_slot ms) buf 0) as (buf' & E & Hl' & _).
  - eapply Forall_impl; [exact Hfull|]. intros b ->. done.
  - done.
  - rewrite Hnum. unfold UDP_BUF_SIZE. lia.
  - exists buf'. split; [done|]. split; [rewrite Hl'; unfold UDP_BUF_SIZE; lia|].
    apply keep_slots_full in E; [|done|done|rewrite Hnum; unfold UDP_BUF_SIZE; lia].
    rewrite Hnum, Z.add_0_l in E. rewrite E. simpl. apply Forall_concat. by apply Forall_map.
Qed.

Lemma fwd_f_safe fd_b buf num bind x w :
  udp_inv x -> block_ok num buf ->
  mwp (hev_socks5_udp_fwd_f fd_b buf num bind) (x, w) (keeps_inv num).
Proof.
  intros Hx Hbuf. unfold hev_socks5_udp_fwd_f.
  destruct (block_svec num buf Hbuf) as (svec & Esv & Hsv & Hkeep).
  assert (step_result (-1)) as Hm1 by by left.
  mstep. eapply mwp_mem; [exact Esv|].
  mstep. eapply mwp_yields; [apply recvmmsg_slots|]. unfold hev_socks5_udp_recvmmsg.
  mstep. apply mwp_get_self. cbn [fst]. pose proof Hx as [-> _].
  change (Z.eqb HEV_SOCKS5_TYPE_UDP_IN_UDP HEV_SOCKS5_TYPE_UDP_IN_TCP) with false.
  rewrite Z.eqb_refl. cbv iota. eapply mwp_mono.
  { by apply recvmmsg_udp_safe; [exact parses_usable|..]. }
  intros [x1 w1] [res ms] (Hx1 & Hres & Hms) Hsame. cbn [fst snd] in *.
  destruct (Hkeep ms Hsame Hms) as (buf' & Ek & Hbuf'). mstep. eapply mwp_mem; [exact Ek|].
  destruct (Z.ltb_spec 0 res); [|by apply fwd_finish_safe].
  destruct Hres as [|(n & -> & Hu & Hn)]; [lia|]. rewrite Nat2Z.id.
  mstep. eapply mwp_mono; [by apply fwd_f_msgs_safe|]. intros [x2 w2] dvec Hx2. cbn [fst] in Hx2. subst x2.
  cbn [fst]. destruct dvec as [dvec|]; [|by mstep].
  assert (forall s ret, udp_inv s.1 -> mwp (if Z.ltb ret 0 then mret (-1, bind, buf') else
    res ← sendmmsg_b dvec; r ← fwd_end res; mret (r, true, buf')) s (keeps_inv num)) as Hlast.
  { intros [x3 w3] ret Hx3. destruct (Z.ltb ret 0); [by mstep|]. mstep.
    eapply mwp_mono; [by apply sendmmsg_b_safe|]. intros s r Hs. by apply fwd_finish_safe. }
  mstep. destruct bind; [mstep; by apply Hlast|]. apply mwp_sys. by apply Hlast.
Qed.

Lemma fwd_b_safe buf num x w : udp_inv x -> block_ok num buf ->
  mwp (hev_socks5_udp_fwd_b buf num) (x, w) (fun s res =>
    udp_inv s.1 /\ step_result res.1 /\ block_ok num res.2).
Proof.
  intros Hx [Hl Hb]. unfold hev_socks5_udp_fwd_b. mstep. eapply recvmmsg_b_safe; [done|].
  intros x1 r ds Hx1 Hds Hlen. cbv beta iota.
  assert (forall s r buf', udp_inv s.1 -> block_ok num buf' -> mwp (r ← fwd_end r; mret (r, buf')) s
    (fun s res => udp_inv s.1 /\ step_result res.1 /\ block_ok num res.2)) as Hend.
  { intros s r' buf' Hs Hb'. mstep. apply fwd_end_safe. intros r2 Hr2. by mstep. }
  destruct (make_dvec_ok ds buf (UDP_BUF_SIZE * Z.of_nat num)) as (buf' & ms & Ek & Hl' & Ht & E & Hms);
    [done|unfold UDP_BUF_SIZE; lia|unfold UDP_BUF_SIZE in *; lia|].
  assert (block_ok num buf') as Hbuf' by (split; [by rewrite Hl'|by rewrite Ht]).
  mstep. eapply mwp_mem; [exact Ek|].
  destruct (Z.ltb 0 r); [|mstep; mstep; by apply Hend].
  mstep. mstep. eapply mwp_mem; [exact E|]. unfold hev_socks5_udp_sendmmsg.
  mstep. apply mwp_get_self. cbn [fst]. pose proof Hx1 as [-> _].
  change (Z.eqb HEV_SOCKS5_TYPE_UDP_IN_UDP HEV_SOCKS5_TYPE_UDP_IN_TCP) with false.
  rewrite Z.eqb_refl. cbv iota. unfold hev_socks5_udp_sendmmsg_udp. mstep.
  eapply mwp_mem; [apply (build_iov_ok _ _ (map answered ds) Hms)|].
  { apply Forall_map. eapply Forall_impl; [exact Hds|]. intros g [Hsa Hga]. by apply sa_dest_ok. }
  cbv iota. eapply mwp_mono; [by apply sendmmsg_a_safe|]. intros s r' Hs. by apply Hend.
Qed.

Lemma control_ended_safe P x w : udp_inv_of P x ->
  mwp control_ended (x, w) (fun s _ => udp_inv_of P s.1).
Proof.
  intros Hx. unfold control_ended. mstep. apply mwp_get_self. cbn [fst].
  pose proof Hx as [-> _]. rewrite Z.eqb_refl. mstep. unfold mwp at 1. unfold recv_flags.
  destruct (recv_some _ _ _) as [[rx r] b]. eexists _, _. split; [done|]. cbv beta iota.
  mstep. apply mwp_get_self. destruct (_ || _)%bool; [|by mstep].
  unfold upd_udp. mstep. mstep. apply mwp_get_self. apply mwp_set_self. by mstep.
Qed.

Lemma yielder_safe type slept x w : udp_inv x ->
  mwp (task_io_yielder type slept) (x, w) (fun s _ => udp_inv s.1).
Proof.
  intros Hx. unfold task_io_yielder. mstep.
  eapply mwp_mono; [by apply control_ended_safe|]. intros s [] Hs; [by mstep|].
  mstep. apply mwp_get_self. by mstep.
Qed.

Lemma splicer_loop_safe ys fd_b buf num res_f res_b bind x w :
  udp_inv x -> block_ok num buf ->
  mwp (splicer_loop ys fd_b buf num res_f res_b bind) (x, w) (fun s _ => udp_inv s.1).
Proof.
  intros Hx Hbuf. revert res_f res_b bind x w buf Hx Hbuf.
  induction ys as [|slept ys IH]; intros res_f res_b bind x w buf Hx Hbuf; [by simpl; mstep|].
  cbn [splicer_loop]. mstep. apply mwp_mono with (P := fun s r => udp_inv s.1 /\ block_ok num r.2).
  { destruct (Z.leb 0 res_f); [|by mstep].
    eapply mwp_mono; [by apply fwd_f_safe|]. by intros s r (? & _ & ?). }
  intros [x1 w1] [[rf bd] buf1] [Hx1 Hb1]. mstep.
  apply mwp_mono with (P := fun s r => udp_inv s.1 /\ block_ok num r.2).
  { destruct (Z.leb 0 res_b); [|by mstep].
    eapply mwp_mono; [by apply fwd_b_safe|]. by intros s r (? & _ & ?). }
  intros [x2 w2] [rb buf2] [Hx2 Hb2]. destruct (_ && _)%bool; [by mstep|]. cbv zeta. mstep.
  eapply mwp_mono; [by apply yielder_safe|]. intros [x3 w3] r Hx3. cbv beta.
  destruct (negb (Z.eqb r 0)); [by mstep|]. by apply IH.
Qed.

End safe.
