(* ===== verification/UDPProps.v ===== *)
(** * Properties of UDP over SOCKS5 *)
From S2P Require Import Prelude CInt Effect SockIO Addr AddrSpec AddrProps Socks5 Descriptors Client ClientSpec ClientProps Server ServerSpec UDP UDPSpec UDPSafe.

(** ** Round trips *)

(** C28: Datagrams that are written into the stream, which takes them, are read
    back from it by a reader with at most as many buffers: the same destinations
    and payloads in the same order, whatever the chunks and the waits, none lost,
    doubled or cut, as long as each has an encoded destination of at most 252
    bytes (a name of at most 248), for the byte that holds the length of the
    header wraps around beyond that, and fits the reader's buffers.  A reader that
    must not wait gets exactly those before the first whose header has not begun
    to arrive ([ready]), or is told to try again, and finds the others in the
    stream afterwards. *)
Theorem udp_in_tcp_roundtrip cap msgv (ds : list datagram) x w S out :
  Forall2 msg_is msgv ds -> Forall (fits cap) ds -> ds <> [] -> cap < 2 ^ 64 -> io_at w S out ->
  mwp (hev_socks5_udp_sendmmsg_tcp msgv) (x, w) (fun s r =>
    r = Z.of_nat (length ds) /\ exists sent, w_sent s.2 = out ++ sent /\
    forall nb bufs xr wr rest outr,
      Forall (fun m => Z.of_nat (length (m_buf m)) = cap /\ m_len m = cap) bufs ->
      (length bufs <= length ds)%nat -> io_at wr (sent ++ rest) outr ->
      mwp (hev_socks5_udp_recvmmsg_tcp nb bufs) (xr, wr)
        (received xr (w_rx wr) bufs ds rest outr nb 0)).
Proof.
  intros Hm Hf Hne Hcap Hio. eapply sendmmsg_tcp_ok; [done..|].
  intros x' w' _ (_ & _ & _ & Hsent). split; [done|]. exists (frames ds). split; [done|].
  intros nb bufs xr wr rest outr Hb Hle Hior. by apply (recv_tcp_loop_ok cap).
Qed.

Section relay.
Context `{Kernel} `{Pton}.


(** ** The relay *)

(** C30: one step of the relay towards the network, whichever carrier the client
    uses: the datagrams that can be read, [readable], are sent on, each to exactly its
    destination with exactly its payload, in order; the rest stays where it was,
    and the step reports progress exactly when there was some.  From the stream
    those are as many as there are buffers, or those before the first whose
    header has not begun to arrive; of a batch of packets they are all.  The
    datagrams are to addresses, not to names, and not empty (an empty one ends
    the relay), they fit, and of those in the stream there are at least as many as
    buffers; the sockets can be bound and connected, and take what they are sent. *)
Theorem udp_fwd_f_relays fd_b buf num bind (ds : list datagram) rest out rx' x w :
  UDP_BUF_SIZE * Z.of_nat num <= Z.of_nat (length buf) -> (0 < num)%nat ->
  Forall (fits UDP_BUF_SIZE) ds -> Forall direct ds -> ds <> [] ->
  may_associate x -> (forall t, 0 <= k_ret t (CBinder fd_b)) ->
  dg_tx_good (d_tx (u_b x)) ->
  arriving num rest out rx' ds (x, w) ->
  let k := readable num ds (x, w) in
  mwp (hev_socks5_udp_fwd_f fd_b buf num bind) (x, w) (fun s '(res, bind', buf') =>
    left_over rest out rx' ds k s /\ length buf' = length buf /\
    d_sent (u_b s.1) = d_sent (u_b x) ++ map forwarded (take k ds) /\
    ((0 < k)%nat /\ res = 1 /\ bind' = true \/ k = 0%nat /\ res = 0 /\ bind' = bind)).
Proof.
  intros Hbuf Hnum Hf Hdir Hdne Hassoc Hbind Htx Harr kk. unfold hev_socks5_udp_fwd_f.
  destruct (make_svec_ok num buf 0) as (svec & Esv & Hsvl & Hsv); [lia|done|].
  mstep. eapply mwp_mem; [exact Esv|]. mstep. eapply mwp_yields; [apply recvmmsg_slots|].
  eapply recvmmsg_ok with (cap := UDP_BUF_SIZE); [|done|exact Hf|done| |done| |].
  { eapply Forall_impl; [exact Hsv|]. by intros m (b & -> & Hlb & _). }
  { intros ->. simpl in Hsvl. lia. }
  { rewrite Hsvl. exact Harr. }
  intros [x' w'] r ms k Ek Hk Hkm Hkd Hleft Hms Hres Hsame. cbv beta iota. cbn [snd] in Hsame.
  rewrite Hsvl in Ek, Hkm. fold kk in Ek. subst k. clearbody kk. rename kk into k.
  assert (exists buf', keep_slots (map m_slot ms) buf 0 = Some buf' /\ length buf' = length buf)
    as (buf' & Ekeep & Hlen).
  { destruct (keep_slots_ok (map m_slot ms) buf 0) as (buf' & E & Hl & _); [|lia| |by eauto].
    - apply Forall_map. apply Forall_map with (P := fun n => Z.of_nat n <= UDP_BUF_SIZE).
      unfold same_slots in Hsame. rewrite Hsame. apply Forall_map.
      eapply Forall_impl; [exact Hsv|]. intros m (b & -> & Hlb & _). unfold m_slot. simpl. lia.
    - apply (f_equal length) in Hsame. rewrite !length_map in Hsame. rewrite length_map. lia. }
  mstep. eapply mwp_mem; [exact Ekeep|].
  destruct Hres as [[Hk0 ->]|(-> & -> & He)].
  2: { change (Z.ltb 0 (-1)) with false. cbv iota. mstep. apply fwd_end_ok. left. split; [done|]. split; [done|].
    mstep. destruct Hk as (-> & _). split; [done|]. split; [done|]. rewrite app_nil_r.
    split; [done|]. by right. }
  rewrite (proj2 (Z.ltb_lt 0 _)) by lia. rewrite Nat2Z.id. mstep.
  assert (length (take k ds) = k) as Elen by (rewrite length_take; lia).
  eapply mwp_mono.
  { rewrite <- Elen at 1. apply (fwd_f_msgs_ok ms (take k ds)).
    - by rewrite Elen.
    - rewrite Elen. apply Forall2_length in Hms. rewrite !length_take in Hms. lia.
    - apply Forall_take. eapply Forall_impl; [exact Hf|]. by intros y [].
    - by apply Forall_take. }
  intros s' r [-> ->]. cbv beta iota.
  assert (map forwarded (take k ds) <> []) as Hfw
    by (destruct ds; [done|]; destruct k; [lia|done]).
  assert (forall w2, w_rx w2 = w_rx w' -> w_tx w2 = w_tx w' -> w_sent w2 = w_sent w' ->
    mwp (res ← sendmmsg_b (map forwarded (take k ds));
         r ← fwd_end res; mret (r, true, buf')) (x', w2) (fun s '(res, bind', buf') =>
      left_over rest out rx' ds k s /\ length buf' = length buf /\
      d_sent (u_b s.1) = d_sent (u_b x) ++ map forwarded (take k ds) /\
      ((0 < k)%nat /\ res = 1 /\ bind' = true \/ k = 0%nat /\ res = 0 /\ bind' = bind))) as Hend.
  { intros w2 Hw1 Hw2 Hw3. destruct Hk as (Eb & Ea1 & Ea2 & Et). cbn [fst] in Eb. mstep.
    apply sendmmsg_b_ok; [by rewrite Eb|exact Hfw|]. intros x2 (tx & e & _ & ->).
    mstep. apply fwd_end_ok. right. split; [rewrite length_map, Elen; lia|].
    mstep. split; [|split; [done|split; [|by left]]].
    - destruct Hleft as [[Ht (H1 & H2 & H3 & H4)]|Ht]; [left|by right].
      split; [done|]. unfold io_at. cbn [snd]. by rewrite Hw1, Hw2, Hw3.
    - cbn. by rewrite Eb. }
  destruct bind; mstep; [mstep; change (Z.ltb 0 0) with false; cbv iota; by apply Hend|].
  apply mwp_sys. rewrite (proj2 (Z.ltb_ge _ 0)) by apply Hbind. by apply Hend.
Qed.

(** ** Towards the client *)

(** One step of the relay towards the client: the datagrams that arrive from
    the network are handed to the client on its carrier, in order, each named by
    its source and with its payload up to the size of a buffer. *)
Theorem udp_fwd_b_relays buf num gs rx' x w S out :
  UDP_BUF_SIZE * Z.of_nat num * 2 <= Z.of_nat (length buf) ->
  gs <> [] -> (length gs <= num)%nat -> Forall dgram_ok gs ->
  d_rx (u_b x) = DgData gs :: rx' -> dg_tx_good (d_tx (u_a x)) -> io_at w S out ->
  stype (u_base x) = HEV_SOCKS5_TYPE_UDP_IN_TCP \/ stype (u_base x) = HEV_SOCKS5_TYPE_UDP_IN_UDP ->
  mwp (hev_socks5_udp_fwd_b buf num) (x, w) (fun s '(res, buf') =>
    res = 1 /\ length buf' = length buf /\ d_rx (u_b s.1) = rx' /\
    if Z.eqb (stype (u_base x)) HEV_SOCKS5_TYPE_UDP_IN_TCP then
      io_at s.2 S (out ++ frames (map answered gs))
    else d_sent (u_a s.1) = d_sent (u_a x) ++ packets (map answered gs)).
Proof.
  intros Hbuf Hne Hle Hgs Hrx Htx Hio Ht. unfold hev_socks5_udp_fwd_b, recvmmsg_b.
  mstep. mstep. apply mwp_get_self. unfold recvmmsg_from. cbn [fst]. rewrite Hrx.
  rewrite take_ge by lia.
  replace (Nat.ltb num (length gs)) with false by (symmetry; apply Nat.ltb_ge; lia).
  mstep. apply mwp_set_self. mstep. cbv beta iota.
  assert (0 < length gs)%nat as Hpos by (destruct gs; [done|simpl; lia]).
  destruct (make_dvec_ok gs buf (UDP_BUF_SIZE * Z.of_nat num)) as (buf' & ms & Ek & Hl' & _ & E & Hms);
    [done|unfold UDP_BUF_SIZE; lia|unfold UDP_BUF_SIZE in *; lia|].
  mstep. eapply mwp_mem; [exact Ek|]. rewrite (proj2 (Z.ltb_lt 0 _)) by lia.
  mstep. mstep. eapply mwp_mem; [exact E|].
  assert (Forall (fits 1600) (map answered gs)) as Hfit.
  { apply Forall_map. eapply Forall_impl; [exact Hgs|]. intros g [Hsa Hb].
    destruct (sa_dest_ok _ Hsa Hb) as [Hd Hw]. split; [done|]. unfold answered. cbn [fst snd].
    rewrite length_take. unfold UDP_BUF_SIZE. lia. }
  assert (map answered gs <> []) as Hne' by by destruct gs.
  unfold hev_socks5_udp_sendmmsg. mstep. apply mwp_get_self. set (x1 := set_errno _ _).
  cbn [fst snd]. change (stype (u_base x1)) with (stype (u_base x)).
  destruct Ht as [-> | ->];
    cbn [Z.eqb Pos.eqb HEV_SOCKS5_TYPE_UDP_IN_TCP HEV_SOCKS5_TYPE_UDP_IN_UDP].
  - eapply (sendmmsg_tcp_ok ms (map answered gs) 1600); [done..|]. intros x2 w2 [e ->] Hio2.
    mstep. apply fwd_end_ok. right. split; [rewrite length_map; lia|]. by mstep.
  - eapply (sendmmsg_udp_ok ms (map answered gs)); [done| |done|done|].
    { eapply Forall_impl; [exact Hfit|]. by intros y []. }
    intros x2 (tx & e & _ & ->). mstep. apply fwd_end_ok. right. split; [rewrite length_map; lia|]. by mstep.
Qed.

(** ** Safety *)


(** ** A truncated frame *)

(** The receiver takes the cut frame for as many messages as bytes arrived. *)
Lemma recv_truncated d p n b bufs x tx sent t :
  fits UDP_BUF_SIZE (d, p) -> (5 < n < length (frame (d, p)))%nat ->
  Z.of_nat (length b) = UDP_BUF_SIZE -> stype (u_base x) = HEV_SOCKS5_TYPE_UDP_IN_TCP ->
  mwp (hev_socks5_udp_recvmmsg true (mkMsg PtrUnset b 1500 :: bufs))
    (x, mkWorld [RxData (take n (frame (d, p)))] tx sent t) (fun s res =>
      res.1 = Z.of_nat (n - 5) /\ exists m ms, res.2 = m :: ms /\ m_addr m = PtrUnset /\
        m_len m = 1500).
Proof.
  unfold UDP_BUF_SIZE. intros (Hd & Hw & Hp & Hf) Hn Hb Ht. cbn [fst snd] in *.
  destruct (frame_parts d p [] Hd) as (t0 & b0 & tl & Ew & _ & _ & Ef).
  rewrite !app_nil_r in Ef.
  set (body := take (n - 5) (tl ++ p)).
  assert (Z.of_nat (length (wire d)) = Z.of_nat (length tl) + 2) as Elen
    by (rewrite Ew; simpl; lia).
  assert (length (frame (d, p)) = 5 + length (tl ++ p))%nat as El by by rewrite Ef.
  rewrite length_app in El.
  assert (length body = n - 5)%nat as Hbody
    by (unfold body; rewrite length_take, length_app; lia).
  set (hd := [u8 (Z.shiftr (Z.of_nat (length p)) 8); u8 (Z.of_nat (length p));
    3 + Z.of_nat (length (wire d)); t0; b0]) in Ef.
  assert (take n (frame (d, p)) = hd ++ body) as Etake.
  { rewrite Ef. rewrite take_app_ge by (simpl; lia). done. }
  unfold hev_socks5_udp_recvmmsg. mstep. apply mwp_get_self. cbn [fst]. rewrite Ht, Z.eqb_refl.
  unfold hev_socks5_udp_recvmmsg_tcp. cbn [recv_tcp_loop]. rewrite Etake.
  assert (exists y body', body = y :: body') as (y & body' & Eb)
    by (destruct body; [simpl in Hbody; lia|eauto]).
  mstep. unfold recv_head. mstep. unfold mwp at 1. unfold recv_flags. cbn [w_rx recv_some].
  rewrite Z.min_l by (rewrite length_app; simpl; lia).
  rewrite (proj2 (Z.ltb_lt 5 _)) by (rewrite length_app; simpl; lia).
  eexists _, _. split; [done|]. cbv beta iota.
  change (Z.ltb 0 5 && Z.ltb 5 5)%bool with false. cbv iota. mstep. cbv beta iota.
  change (Z.to_nat 5) with (length hd). rewrite take_app_length, drop_app_length.
  change (negb (Z.eqb 5 5)) with false. cbv iota. cbn [m_len m_buf m_addr].
  mstep. eapply mwp_mem; [done|]. rewrite (proj2 (Z.ltb_ge _ 5)) by lia.
  mstep. eapply mwp_mem; [done|]. cbv zeta.
  rewrite le_port by lia. unfold u64.
  rewrite (Z.mod_small (1500 - _)) by lia. rewrite (proj2 (Z.ltb_ge _ _)) by lia.
  replace (3 + Z.of_nat (length (wire d)) - 3) with (Z.of_nat (length tl) + 2) by lia.
  mstep. unfold mwp at 1. unfold recv_waitall. cbn [with_rx w_rx recv_loop].
  rewrite Z.sub_0_r, Z.min_r by lia.
  rewrite (proj2 (Z.eqb_neq _ 0)) by lia. rewrite (proj2 (Z.leb_gt _ 0)) by lia.
  rewrite (proj2 (Z.ltb_lt _ _)) by lia. cbn [recv_loop].
  rewrite (proj2 (Z.eqb_neq _ _)) by lia. rewrite size_or_nz by lia.
  rewrite Nat2Z.id, take_ge by lia. cbn [app].
  eexists _, _. split; [done|]. cbv beta iota.
  destruct b as [|c0 [|c1 b]]; [simpl in Hb; lia..|].
  destruct (scatter_in c0 c1 b body (Z.of_nat (length tl)) (Z.of_nat (length p)))
    as [buf Hbuf]; [simpl in Hb; lia|lia..|].
  mstep. eapply mwp_mem; [exact Hbuf|]. rewrite (proj2 (Z.eqb_neq _ _)) by lia. cbn [negb].
  mstep. cbn [fst snd]. split; [lia|]. by eexists _, _.
Qed.

(** A frame in the stream that ends before its last byte is taken for as
    many messages as bytes of it arrived, so that the relay reads the address
    of a message that was never received. *)
Theorem truncated_frame_faults fd_b bind d p n buf num x tx sent t :
  fits UDP_BUF_SIZE (d, p) -> (5 < n < length (frame (d, p)))%nat ->
  UDP_BUF_SIZE * Z.of_nat num <= Z.of_nat (length buf) -> (0 < num)%nat ->
  stype (u_base x) = HEV_SOCKS5_TYPE_UDP_IN_TCP ->
  hev_socks5_udp_fwd_f fd_b buf num bind
    (x, mkWorld [RxData (take n (frame (d, p)))] tx sent t) = None.
Proof.
  intros Hf Hn Hbuf Hnum Ht.
  destruct (hev_socks5_udp_fwd_f _ _ _ _ _) as [r|] eqn:E; [exfalso|done].
  unfold hev_socks5_udp_fwd_f, mbind, M_bind, mem, mlift in E.
  destruct (make_svec_ok num buf 0) as (svec & Esv & Hsvl & Hsv); [lia|done|].
  rewrite Esv in E. destruct svec as [|m0 svec]; [simpl in Hsvl; lia|].
  apply Forall_cons in Hsv as [(b & -> & Hb & _) _].
  destruct (recv_truncated d p n b svec x tx sent t Hf Hn Hb Ht)
    as (s' & res & Es & Er1 & m & ms & Er2 & Em & Eml).
  unfold UDP_BUF_SIZE in E. rewrite Es in E. destruct res as [r1 ms']. cbn [fst snd] in *. subst.
  destruct (keep_slots _ _ _); [|done].
  rewrite (proj2 (Z.ltb_lt 0 _)), Nat2Z.id in E by lia.
  destruct (n - 5)%nat as [|k] eqn:Ek; [lia|]. cbn [fwd_f_msgs] in E.
  unfold mbind, M_bind, mem, mlift in E. cbn [head] in E. rewrite Eml, Em in E.
  by destruct s'.
Qed.

End relay.

(** ** Two datagrams *)

Definition demo_ds : list datagram :=
  [(DIp4 [10; 0; 0; 1] 53, [1; 2; 3]); (DIp6 (replicate 15 0 ++ [1]) 443, [9])].
Definition demo_msgs : list HevSocks5UDPMsg :=
  map (fun x => mkMsg (PtrTo (wire x.1)) x.2 (Z.of_nat (length x.2))) demo_ds.
Definition idle : DgSock := mkDgSock [] [] [].
Definition demo_udp (type assoc : Z) (a b : DgSock) : HevSocks5UDP :=
  mkUDP (mkSocks5 3 (-1) assoc type AF_UNSPEC) 4 a b 0.
Definition demo_peer : sockaddr_in6 := mkSA AF_INET6 [0; 53] (v4mapped ++ [10; 0; 0; 1]).

Lemma demo_msgs_ok : Forall2 msg_is demo_msgs demo_ds.
Proof.
  assert (forall x, msg_is (mkMsg (PtrTo (wire x.1)) x.2 (Z.of_nat (length x.2))) x) as Hmk.
  { intros x. split; [|split; [|done]]; [eexists; split; [done|]|]; exists []; by rewrite app_nil_r. }
  constructor; [apply Hmk|]. constructor; [apply Hmk|constructor].
Qed.

Lemma demo_fits : Forall (fits 1500) demo_ds.
Proof. repeat constructor; simpl; lia. Qed.

Lemma world_io S : S <> [] -> bytes_ok S -> io_at (mkWorld [RxData S] [] [] []) S [].
Proof.
  intros Hne Hb. split_and!; [repeat constructor; done|constructor|simpl; apply app_nil_r|done].
Qed.

Lemma udp_in_tcp_roundtrip_witness :
  mwp (hev_socks5_udp_sendmmsg_tcp demo_msgs) (demo_udp 2 0 idle idle, mkWorld [] [TxAccept 7] [] [])
    (fun s r => r = 2 /\ exists sent, w_sent s.2 = sent /\
    forall nb bufs xr wr rest outr,
      Forall (fun m => Z.of_nat (length (m_buf m)) = 1500 /\ m_len m = 1500) bufs ->
      (length bufs <= 2)%nat -> io_at wr (sent ++ rest) outr ->
      mwp (hev_socks5_udp_recvmmsg_tcp nb bufs) (xr, wr)
        (received xr (w_rx wr) bufs demo_ds rest outr nb 0)).
Proof.
  apply (udp_in_tcp_roundtrip 1500 demo_msgs demo_ds (demo_udp 2 0 idle idle)
    (mkWorld [] [TxAccept 7] [] []) [] []).
  - exact demo_msgs_ok.
  - exact demo_fits.
  - done.
  - lia.
  - split_and!; [constructor| |done|done]. constructor; [right; exists 7; split; [done|lia]|constructor].
Defined.


Lemma udp_fwd_f_relays_witness :
  mwp (@hev_socks5_udp_fwd_f quiet_kernel no_pton 9 (replicate 3000 7) 2 false)
    (demo_udp 2 0 idle idle, mkWorld [RxData (frames demo_ds ++ [0])] [] [] [])
    (fun s '(res, bind', buf') =>
      left_over [0] [] [] demo_ds 2 s /\ length buf' = 3000%nat /\
      d_sent (u_b s.1) = map forwarded (take 2 demo_ds) /\
      ((0 < 2)%nat /\ res = 1 /\ bind' = true \/ 2%nat = 0%nat /\ res = 0 /\ bind' = false)).
Proof.
  apply (@udp_fwd_f_relays quiet_kernel no_pton 9 (replicate 3000 7) 2 false
    demo_ds [0] [] [] (demo_udp 2 0 idle idle)).
  - done.
  - lia.
  - exact demo_fits.
  - repeat constructor; done.
  - done.
  - right. intros t sa. simpl. lia.
  - intros t. simpl. lia.
  - constructor.
  - left. split; [done|]. split; [simpl; lia|]. apply world_io; [done|].
    repeat constructor; unfold byte_ok; vm_compute; intuition discriminate.
Defined.

Lemma udp_fwd_b_relays_witness :
  mwp (hev_socks5_udp_fwd_b (replicate 3000 7) 1)
    (demo_udp 3 1 idle (mkDgSock [DgData [mkDgram [1; 2] demo_peer]] [] []), mkWorld [] [] [] [])
    (fun s '(res, buf') => res = 1 /\ length buf' = 3000%nat /\ d_rx (u_b s.1) = [] /\
       d_sent (u_a s.1) = packets [(DIp4 [10; 0; 0; 1] 53, [1; 2])]).
Proof.
  apply (@udp_fwd_b_relays (replicate 3000 7) 1 [mkDgram [1; 2] demo_peer] []
    (demo_udp 3 1 idle (mkDgSock [DgData [mkDgram [1; 2] demo_peer]] [] [])) (mkWorld [] [] [] []) [] []).
  - done.
  - done.
  - simpl. lia.
  - repeat constructor; unfold byte_ok; lia.
  - done.
  - constructor.
  - split_and!; [constructor|constructor|done|done].
  - by right.
Defined.


Lemma truncated_frame_faults_witness :
  @hev_socks5_udp_fwd_f quiet_kernel no_pton 9 (replicate 1500 0) 1 true
    (demo_udp 2 0 idle idle, mkWorld [RxData [0; 3; 10; 1; 10; 0]] [] [] []) = None.
Proof.
  apply (@truncated_frame_faults quiet_kernel no_pton 9 true (DIp4 [10; 0; 0; 1] 53) [1; 2; 3] 6
    (replicate 1500 0) 1 (demo_udp 2 0 idle idle) [] [] []).
  - pose proof demo_fits as Hf. by apply Forall_cons in Hf as [Hf _].
  - simpl. lia.
  - done.
  - lia.
  - reflexivity.
Defined.
