(* ===== verification/Config.v ===== *)
(** * The configuration (hev-config.c)

    The YAML library hands over a document of nodes; the section parsers store
    what they understand in process-wide variables, which the getters read. *)
From S2P Require Import Prelude SearchTree CInt Effect SockIO Addr.
From Stdlib Require Import String Ascii.

(** ** Documents *)

Inductive yaml_node :=
| YamlScalar (value : list Z)
| YamlSequence
| YamlMapping (pairs : list (Z * Z)).

Definition yaml_document : Type := list yaml_node.

Definition yaml_document_get_node (doc : yaml_document) (index : Z) : option yaml_node :=
  if (Z.ltb 0 index && Z.leb index (Z.of_nat (List.length doc)))%bool
  then doc !! Z.to_nat (index - 1) else None.

Definition yaml_document_get_root_node (doc : yaml_document) : option yaml_node := head doc.

(** The bytes of a literal. *)
Definition str (s : string) : list Z := map (fun a => Z.of_nat (nat_of_ascii a)) (list_ascii_of_string s).

(** ** libc *)

Definition tolower (c : Z) : Z := if (Z.leb 65 c && Z.leb c 90)%bool then c + 32 else c.
Definition strcasecmp (a b : list Z) : Z := strcmp (map tolower a) (map tolower b).
Definition isspace (c : Z) : bool := (Z.eqb c 32 || (Z.leb 9 c && Z.leb c 13))%bool.
Definition digit (c : Z) : option Z :=
  if (Z.leb 48 c && Z.leb c 57)%bool then Some (c - 48)
  else if (Z.leb 97 c && Z.leb c 122)%bool then Some (c - 87)
  else if (Z.leb 65 c && Z.leb c 90)%bool then Some (c - 55)
  else None.

Fixpoint skip_space (s : list Z) : list Z :=
  match s with c :: s' => if isspace c then skip_space s' else s | [] => [] end.

(** The number that the leading digits of base [b] make. *)
Fixpoint digits (b : Z) (s : list Z) (acc : Z) : Z :=
  match s with
  | c :: s =>
      match digit c with
      | Some d => if Z.ltb d b then digits b s (b * acc + d) else acc
      | None => acc
      end
  | [] => acc
  end.

(** The sign, and the base and digits after an optional prefix. *)
Definition split_sign (s : list Z) : bool * list Z :=
  match s with
  | c :: s' => if Z.eqb c 45 then (true, s') else if Z.eqb c 43 then (false, s') else (false, s)
  | [] => (false, [])
  end.

Definition is_hex (c : Z) : bool :=
  match digit c with Some d => Z.ltb d 16 | None => false end.

Definition split_base (base : Z) (s : list Z) : Z * list Z :=
  if Z.eqb base 0 then
    match s with
    | c :: x :: d :: s' =>
        if (Z.eqb c 48 && Z.eqb (tolower x) 120 && is_hex d)%bool then (16, d :: s')
        else if Z.eqb c 48 then (8, s) else (10, s)
    | c :: _ => if Z.eqb c 48 then (8, s) else (10, s)
    | [] => (10, s)
    end
  else (base, s).

(** The proxy; [srv_user] and [srv_pass]: whether the pointers are set. *)
Record HevConfigServer := mkSrv {
  srv_user : bool;
  srv_pass : bool;
  srv_mark : Z;
  srv_udp_in_udp : Z;
  srv_port : Z;
  srv_pipeline : Z;
  srv_fastopen : Z;
  srv_udp_addr : list Z;
  srv_addr : list Z;
}.

Definition set_srv_user v s :=
  mkSrv v (srv_pass s) (srv_mark s) (srv_udp_in_udp s) (srv_port s) (srv_pipeline s)
    (srv_fastopen s) (srv_udp_addr s) (srv_addr s).
Definition set_srv_pass v s :=
  mkSrv (srv_user s) v (srv_mark s) (srv_udp_in_udp s) (srv_port s) (srv_pipeline s)
    (srv_fastopen s) (srv_udp_addr s) (srv_addr s).
Definition set_srv_mark v s :=
  mkSrv (srv_user s) (srv_pass s) v (srv_udp_in_udp s) (srv_port s) (srv_pipeline s)
    (srv_fastopen s) (srv_udp_addr s) (srv_addr s).
Definition set_srv_udp_in_udp v s :=
  mkSrv (srv_user s) (srv_pass s) (srv_mark s) v (srv_port s) (srv_pipeline s) (srv_fastopen s)
    (srv_udp_addr s) (srv_addr s).
Definition set_srv_port v s :=
  mkSrv (srv_user s) (srv_pass s) (srv_mark s) (srv_udp_in_udp s) v (srv_pipeline s)
    (srv_fastopen s) (srv_udp_addr s) (srv_addr s).
Definition set_srv_pipeline v s :=
  mkSrv (srv_user s) (srv_pass s) (srv_mark s) (srv_udp_in_udp s) (srv_port s) v
    (srv_fastopen s) (srv_udp_addr s) (srv_addr s).
Definition set_srv_fastopen v s :=
  mkSrv (srv_user s) (srv_pass s) (srv_mark s) (srv_udp_in_udp s) (srv_port s) (srv_pipeline s)
    v (srv_udp_addr s) (srv_addr s).
Definition set_srv_udp_addr v s :=
  mkSrv (srv_user s) (srv_pass s) (srv_mark s) (srv_udp_in_udp s) (srv_port s) (srv_pipeline s)
    (srv_fastopen s) v (srv_addr s).
Definition set_srv_addr v s :=
  mkSrv (srv_user s) (srv_pass s) (srv_mark s) (srv_udp_in_udp s) (srv_port s) (srv_pipeline s)
    (srv_fastopen s) (srv_udp_addr s) v.

(** The variables of each section: C strings lie in arrays. *)
Record TunnelVars := mkTunnel {
  tun_name : list Z;
  tun_mtu : Z;
  multi_queue : Z;
  tun_ipv4_address : list Z;
  tun_ipv6_address : list Z;
  tun_post_up_script : list Z;
  tun_pre_down_script : list Z;
}.

Definition set_tun_name v s :=
  mkTunnel v (tun_mtu s) (multi_queue s) (tun_ipv4_address s) (tun_ipv6_address s)
    (tun_post_up_script s) (tun_pre_down_script s).
Definition set_tun_mtu v s :=
  mkTunnel (tun_name s) v (multi_queue s) (tun_ipv4_address s) (tun_ipv6_address s)
    (tun_post_up_script s) (tun_pre_down_script s).
Definition set_multi_queue v s :=
  mkTunnel (tun_name s) (tun_mtu s) v (tun_ipv4_address s) (tun_ipv6_address s)
    (tun_post_up_script s) (tun_pre_down_script s).
Definition set_tun_ipv4_address v s :=
  mkTunnel (tun_name s) (tun_mtu s) (multi_queue s) v (tun_ipv6_address s)
    (tun_post_up_script s) (tun_pre_down_script s).
Definition set_tun_ipv6_address v s :=
  mkTunnel (tun_name s) (tun_mtu s) (multi_queue s) (tun_ipv4_address s) v
    (tun_post_up_script s) (tun_pre_down_script s).
Definition set_tun_post_up_script v s :=
  mkTunnel (tun_name s) (tun_mtu s) (multi_queue s) (tun_ipv4_address s) (tun_ipv6_address s) v
    (tun_pre_down_script s).
Definition set_tun_pre_down_script v s :=
  mkTunnel (tun_name s) (tun_mtu s) (multi_queue s) (tun_ipv4_address s) (tun_ipv6_address s)
    (tun_post_up_script s) v.

(** [srv], with the static arrays that its pointers lead to. *)
Record Socks5Vars := mkSocks5Vars {
  srv : HevConfigServer;
  _user : list Z;
  _pass : list Z;
}.

Record MapdnsVars := mkMapdns {
  mapdns_address : Z;
  mapdns_port : Z;
  mapdns_network : Z;
  mapdns_netmask : Z;
  mapdns_cache_size : Z;
}.

Definition set_mapdns_address v s :=
  mkMapdns v (mapdns_port s) (mapdns_network s) (mapdns_netmask s) (mapdns_cache_size s).
Definition set_mapdns_port v s :=
  mkMapdns (mapdns_address s) v (mapdns_network s) (mapdns_netmask s) (mapdns_cache_size s).
Definition set_mapdns_network v s :=
  mkMapdns (mapdns_address s) (mapdns_port s) v (mapdns_netmask s) (mapdns_cache_size s).
Definition set_mapdns_netmask v s :=
  mkMapdns (mapdns_address s) (mapdns_port s) (mapdns_network s) v (mapdns_cache_size s).
Definition set_mapdns_cache_size v s :=
  mkMapdns (mapdns_address s) (mapdns_port s) (mapdns_network s) (mapdns_netmask s) v.

Record MiscVars := mkMisc {
  log_file : list Z;
  pid_file : list Z;
  max_session_count : Z;
  cfg_task_stack_size : Z;
  tcp_buffer_size : Z;
  cfg_udp_recv_buffer_size : Z;
  cfg_udp_copy_buffer_nums : Z;
  cfg_connect_timeout : Z;
  tcp_read_write_timeout : Z;
  udp_read_write_timeout : Z;
  limit_nofile : Z;
  log_level : Z;
}.

Definition set_log_file v s :=
  mkMisc v (pid_file s) (max_session_count s) (cfg_task_stack_size s) (tcp_buffer_size s)
    (cfg_udp_recv_buffer_size s) (cfg_udp_copy_buffer_nums s) (cfg_connect_timeout s)
    (tcp_read_write_timeout s) (udp_read_write_timeout s) (limit_nofile s) (log_level s).
Definition set_pid_file v s :=
  mkMisc (log_file s) v (max_session_count s) (cfg_task_stack_size s) (tcp_buffer_size s)
    (cfg_udp_recv_buffer_size s) (cfg_udp_copy_buffer_nums s) (cfg_connect_timeout s)
    (tcp_read_write_timeout s) (udp_read_write_timeout s) (limit_nofile s) (log_level s).
Definition set_max_session_count v s :=
  mkMisc (log_file s) (pid_file s) v (cfg_task_stack_size s) (tcp_buffer_size s)
    (cfg_udp_recv_buffer_size s) (cfg_udp_copy_buffer_nums s) (cfg_connect_timeout s)
    (tcp_read_write_timeout s) (udp_read_write_timeout s) (limit_nofile s) (log_level s).
Definition set_cfg_task_stack_size v s :=
  mkMisc (log_file s) (pid_file s) (max_session_count s) v (tcp_buffer_size s)
    (cfg_udp_recv_buffer_size s) (cfg_udp_copy_buffer_nums s) (cfg_connect_timeout s)
    (tcp_read_write_timeout s) (udp_read_write_timeout s) (limit_nofile s) (log_level s).
Definition set_tcp_buffer_size v s :=
  mkMisc (log_file s) (pid_file s) (max_session_count s) (cfg_task_stack_size s) v
    (cfg_udp_recv_buffer_size s) (cfg_udp_copy_buffer_nums s) (cfg_connect_timeout s)
    (tcp_read_write_timeout s) (udp_read_write_timeout s) (limit_nofile s) (log_level s).
Definition set_cfg_udp_recv_buffer_size v s :=
  mkMisc (log_file s) (pid_file s) (max_session_count s) (cfg_task_stack_size s)
    (tcp_buffer_size s) v (cfg_udp_copy_buffer_nums s) (cfg_connect_timeout s)
    (tcp_read_write_timeout s) (udp_read_write_timeout s) (limit_nofile s) (log_level s).
Definition set_cfg_udp_copy_buffer_nums v s :=
  mkMisc (log_file s) (pid_file s) (max_session_count s) (cfg_task_stack_size s)
    (tcp_buffer_size s) (cfg_udp_recv_buffer_size s) v (cfg_connect_timeout s)
    (tcp_read_write_timeout s) (udp_read_write_timeout s) (limit_nofile s) (log_level s).
Definition set_cfg_connect_timeout v s :=
  mkMisc (log_file s) (pid_file s) (max_session_count s) (cfg_task_stack_size s)
    (tcp_buffer_size s) (cfg_udp_recv_buffer_size s) (cfg_udp_copy_buffer_nums s) v
    (tcp_read_write_timeout s) (udp_read_write_timeout s) (limit_nofile s) (log_level s).
Definition set_tcp_read_write_timeout v s :=
  mkMisc (log_file s) (pid_file s) (max_session_count s) (cfg_task_stack_size s)
    (tcp_buffer_size s) (cfg_udp_recv_buffer_size s) (cfg_udp_copy_buffer_nums s)
    (cfg_connect_timeout s) v (udp_read_write_timeout s) (limit_nofile s) (log_level s).
Definition set_udp_read_write_timeout v s :=
  mkMisc (log_file s) (pid_file s) (max_session_count s) (cfg_task_stack_size s)
    (tcp_buffer_size s) (cfg_udp_recv_buffer_size s) (cfg_udp_copy_buffer_nums s)
    (cfg_connect_timeout s) (tcp_read_write_timeout s) v (limit_nofile s) (log_level s).
Definition set_limit_nofile v s :=
  mkMisc (log_file s) (pid_file s) (max_session_count s) (cfg_task_stack_size s)
    (tcp_buffer_size s) (cfg_udp_recv_buffer_size s) (cfg_udp_copy_buffer_nums s)
    (cfg_connect_timeout s) (tcp_read_write_timeout s) (udp_read_write_timeout s) v
    (log_level s).
Definition set_log_level v s :=
  mkMisc (log_file s) (pid_file s) (max_session_count s) (cfg_task_stack_size s)
    (tcp_buffer_size s) (cfg_udp_recv_buffer_size s) (cfg_udp_copy_buffer_nums s)
    (cfg_connect_timeout s) (tcp_read_write_timeout s) (udp_read_write_timeout s)
    (limit_nofile s) v.

Record Config := mkConfig {
  c_tunnel : TunnelVars;
  c_socks5 : Socks5Vars;
  c_mapdns : MapdnsVars;
  c_misc : MiscVars;
}.

Definition set_c_tunnel v c := mkConfig v (c_socks5 c) (c_mapdns c) (c_misc c).
Definition set_c_socks5 v c := mkConfig (c_tunnel c) v (c_mapdns c) (c_misc c).
Definition set_c_mapdns v c := mkConfig (c_tunnel c) (c_socks5 c) v (c_misc c).
Definition set_c_misc v c := mkConfig (c_tunnel c) (c_socks5 c) (c_mapdns c) v.

Definition HEV_LOGGER_DEBUG : Z := 0.
Definition HEV_LOGGER_INFO : Z := 1.
Definition HEV_LOGGER_WARN : Z := 2.
Definition HEV_LOGGER_ERROR : Z := 3.

Definition UDP_BUF_SIZE : Z := 1500.
Definition TASK_STACK_SIZE : Z := 20480.
Definition TCP_SND_BUF : Z := 8 * 8191.

(** Their initial values. *)
Definition zeros (n : nat) : list Z := replicate n 0.
Definition config0 : Config :=
  mkConfig
    (mkTunnel (zeros 64) 8500 0 (zeros 16) (zeros 64) (zeros 1024) (zeros 1024))
    (mkSocks5Vars (mkSrv false false 0 0 0 0 0 (zeros 256) (zeros 256)) (zeros 256) (zeros 256))
    (mkMapdns 0 0 0 0 0)
    (mkMisc (zeros 1024) (zeros 1024) 0 86016 65536 524288 10 10000 300000 60000 65535
       HEV_LOGGER_WARN).

(** The local variables of the parser of the proxy's section. *)
Record Socks5Locals := mkLocals {
  l_addr : option (list Z);
  l_port : option (list Z);
  l_udpm : option (list Z);
  l_udpa : option (list Z);
  l_user : option (list Z);
  l_pass : option (list Z);
  l_mark : option (list Z);
  l_pipe : option (list Z);
  l_tfso : option (list Z);
}.

Definition set_l_addr v s :=
  mkLocals v (l_port s) (l_udpm s) (l_udpa s) (l_user s) (l_pass s) (l_mark s) (l_pipe s)
    (l_tfso s).
Definition set_l_port v s :=
  mkLocals (l_addr s) v (l_udpm s) (l_udpa s) (l_user s) (l_pass s) (l_mark s) (l_pipe s)
    (l_tfso s).
Definition set_l_udpm v s :=
  mkLocals (l_addr s) (l_port s) v (l_udpa s) (l_user s) (l_pass s) (l_mark s) (l_pipe s)
    (l_tfso s).
Definition set_l_udpa v s :=
  mkLocals (l_addr s) (l_port s) (l_udpm s) v (l_user s) (l_pass s) (l_mark s) (l_pipe s)
    (l_tfso s).
Definition set_l_user v s :=
  mkLocals (l_addr s) (l_port s) (l_udpm s) (l_udpa s) v (l_pass s) (l_mark s) (l_pipe s)
    (l_tfso s).
Definition set_l_pass v s :=
  mkLocals (l_addr s) (l_port s) (l_udpm s) (l_udpa s) (l_user s) v (l_mark s) (l_pipe s)
    (l_tfso s).
Definition set_l_mark v s :=
  mkLocals (l_addr s) (l_port s) (l_udpm s) (l_udpa s) (l_user s) (l_pass s) v (l_pipe s)
    (l_tfso s).
Definition set_l_pipe v s :=
  mkLocals (l_addr s) (l_port s) (l_udpm s) (l_udpa s) (l_user s) (l_pass s) (l_mark s) v
    (l_tfso s).
Definition set_l_tfso v s :=
  mkLocals (l_addr s) (l_port s) (l_udpm s) (l_udpa s) (l_user s) (l_pass s) (l_mark s)
    (l_pipe s) v.

(** ** Parsing

    [long_bits]: the width of the target's [long]. *)
Section parse.
Context `{Pton} (long_bits : Z).

Definition strtoul (s : list Z) (base : Z) : Z :=
  let '(neg, s) := split_sign (skip_space s) in
  let '(b, s) := split_base base s in
  let v := digits b s 0 in
  if Z.leb (2 ^ long_bits) v then 2 ^ long_bits - 1
  else if neg then (- v) mod 2 ^ long_bits else v.

Definition strtol (s : list Z) (base : Z) : Z :=
  let '(neg, s) := split_sign (skip_space s) in
  let '(b, s) := split_base base s in
  let v := digits b s 0 in
  if neg then Z.max (- v) (- 2 ^ (long_bits - 1)) else Z.min v (2 ^ (long_bits - 1) - 1).

Definition eqs (key : list Z) (s : string) : bool := Z.eqb (strcmp key (str s)) 0.

(** The loop over the pairs of a mapping, which ends at the first one whose key
    or value is no scalar. *)
Fixpoint for_scalars {S} (doc : yaml_document) (body : list Z -> list Z -> M S ())
    (pairs : list (Z * Z)) : M S () :=
  match pairs with
  | [] => mret ()
  | (k, v) :: pairs =>
      if (Z.eqb k 0 || Z.eqb v 0)%bool then mret () else
      match yaml_document_get_node doc k, yaml_document_get_node doc v with
      | Some (YamlScalar key), Some (YamlScalar value) =>
          _ ← body (cstr key) (cstr value); for_scalars doc body pairs
      | _, _ => mret ()
      end
  end.

(** [strncpy (var, value, n)] for an array variable. *)
Definition copy_to {S} (get : S -> list Z) (set : list Z -> S -> S) (value : list Z) (n : Z)
  : M S () :=
  s ← mget; b ← mlift (strncpy (get s) 0 value n); mput (set b s).

Definition store {S} (f : S -> S) : M S () := s ← mget; mput (f s).

Definition hev_config_parse_tunnel_ipv4 (doc : yaml_document) (base : option yaml_node)
  : M TunnelVars Z :=
  match base with
  | Some (YamlMapping pairs) =>
      _ ← for_scalars doc (fun key value =>
        if eqs key "address" then copy_to tun_ipv4_address set_tun_ipv4_address value (16 - 1)
        else mret ()) pairs;
      mret 0
  | _ => mret (-1)
  end.

Definition hev_config_parse_tunnel_ipv6 (doc : yaml_document) (base : option yaml_node)
  : M TunnelVars Z :=
  match base with
  | Some (YamlMapping pairs) =>
      _ ← for_scalars doc (fun key value =>
        if eqs key "address" then copy_to tun_ipv6_address set_tun_ipv6_address value (64 - 1)
        else mret ()) pairs;
      mret 0
  | _ => mret (-1)
  end.

Definition tunnel_scalar (key value : list Z) : M TunnelVars () :=
  if eqs key "name" then copy_to tun_name set_tun_name value (64 - 1)
  else if eqs key "mtu" then store (set_tun_mtu (u32 (strtoul value 10)))
  else if eqs key "multi-queue" then store (set_multi_queue (strcasecmp value (str "false")))
  else if eqs key "ipv4" then copy_to tun_ipv4_address set_tun_ipv4_address value (16 - 1)
  else if eqs key "ipv6" then copy_to tun_ipv6_address set_tun_ipv6_address value (64 - 1)
  else if eqs key "post-up-script" then
    copy_to tun_post_up_script set_tun_post_up_script value (64 - 1)
  else if eqs key "pre-down-script" then
    copy_to tun_pre_down_script set_tun_pre_down_script value (64 - 1)
  else mret ().

Definition tunnel_nested (doc : yaml_document) (key : list Z) (node : yaml_node)
  : M TunnelVars () :=
  if eqs key "ipv4" then _ ← hev_config_parse_tunnel_ipv4 doc (Some node); mret ()
  else if eqs key "ipv6" then _ ← hev_config_parse_tunnel_ipv6 doc (Some node); mret ()
  else mret ().

Fixpoint tunnel_loop (doc : yaml_document) (pairs : list (Z * Z)) : M TunnelVars () :=
  match pairs with
  | [] => mret ()
  | (k, v) :: pairs =>
      if (Z.eqb k 0 || Z.eqb v 0)%bool then mret () else
      match yaml_document_get_node doc k, yaml_document_get_node doc v with
      | Some (YamlScalar key), Some node =>
          _ ← (match node with
               | YamlScalar value => tunnel_scalar (cstr key) (cstr value)
               | _ => tunnel_nested doc (cstr key) node
               end);
          tunnel_loop doc pairs
      | _, _ => mret ()
      end
  end.

Definition hev_config_parse_tunnel (doc : yaml_document) (base : option yaml_node)
  : M TunnelVars Z :=
  match base with
  | Some (YamlMapping pairs) => _ ← tunnel_loop doc pairs; mret 0
  | _ => mret (-1)
  end.

Definition socks5_local (key value : list Z) (l : Socks5Locals) : Socks5Locals :=
  if eqs key "port" then set_l_port (Some value) l
  else if eqs key "address" then set_l_addr (Some value) l
  else if eqs key "udp" then set_l_udpm (Some value) l
  else if eqs key "udp-address" then set_l_udpa (Some value) l
  else if eqs key "pipeline" then set_l_pipe (Some value) l
  else if eqs key "username" then set_l_user (Some value) l
  else if eqs key "password" then set_l_pass (Some value) l
  else if eqs key "mark" then set_l_mark (Some value) l
  else if eqs key "tcp-fastopen" then set_l_tfso (Some value) l
  else l.

Definition map_srv f s := mkSocks5Vars (f (srv s)) (_user s) (_pass s).
Definition set__user v s := mkSocks5Vars (srv s) v (_pass s).
Definition set__pass v s := mkSocks5Vars (srv s) (_user s) v.

Definition when_some {S} (o : option (list Z)) (f : list Z -> M S ()) : M S () :=
  match o with Some v => f v | None => mret () end.

(** [srv.user] and [srv.pass] point to the arrays [_user] and [_pass]. *)
Definition store_socks5 (addr port : list Z) (l : Socks5Locals) : M Socks5Vars () :=
  _ ← copy_to (fun s => srv_addr (srv s)) (fun v => map_srv (set_srv_addr v)) addr (256 - 1);
  _ ← store (map_srv (set_srv_port (u16 (strtoul port 10))));
  _ ← when_some (l_pipe l) (fun v =>
    if Z.eqb (strcasecmp v (str "true")) 0 then store (map_srv (set_srv_pipeline 1)) else mret ());
  _ ← when_some (l_udpm l) (fun v =>
    if Z.eqb (strcasecmp v (str "udp")) 0 then store (map_srv (set_srv_udp_in_udp 1)) else mret ());
  _ ← when_some (l_udpa l) (fun v =>
    copy_to (fun s => srv_udp_addr (srv s)) (fun v => map_srv (set_srv_udp_addr v)) v (256 - 1));
  _ ← (match l_user l, l_pass l with
       | Some user, Some pass =>
           _ ← copy_to _user set__user user (256 - 1);
           _ ← copy_to _pass set__pass pass (256 - 1);
           store (map_srv (fun s => set_srv_user true (set_srv_pass true s)))
       | _, _ => mret ()
       end);
  _ ← when_some (l_mark l) (fun v => store (map_srv (set_srv_mark (u32 (strtoul v 0)))));
  when_some (l_tfso l) (fun v =>
    store (map_srv (set_srv_fastopen (if Z.eqb (strcasecmp v (str "true")) 0 then 1 else 0)))).

(** The locals after the loop. *)
Fixpoint socks5_loop (doc : yaml_document) (pairs : list (Z * Z)) (l : Socks5Locals)
  : Socks5Locals :=
  match pairs with
  | [] => l
  | (k, v) :: pairs =>
      if (Z.eqb k 0 || Z.eqb v 0)%bool then l else
      match yaml_document_get_node doc k, yaml_document_get_node doc v with
      | Some (YamlScalar key), Some (YamlScalar value) =>
          socks5_loop doc pairs (socks5_local (cstr key) (cstr value) l)
      | _, _ => l
      end
  end.

Definition no_locals : Socks5Locals := mkLocals None None None None None None None None None.

Definition hev_config_parse_socks5 (doc : yaml_document) (base : option yaml_node)
  : M Socks5Vars Z :=
  match base with
  | Some (YamlMapping pairs) =>
      let l := socks5_loop doc pairs no_locals in
      match l_port l, l_addr l with
      | None, _ => mret (-1)
      | _, None => mret (-1)
      | Some port, Some addr =>
          match l_user l, l_pass l with
          | Some _, None | None, Some _ => mret (-1)
          | _, _ => _ ← store_socks5 addr port l; mret 0
          end
      end
  | _ => mret (-1)
  end.

(** [inet_pton] into an [int] variable, which it leaves alone when it fails. *)
Definition pton_to {S} (set : Z -> S -> S) (value : list Z) : M S () :=
  match inet_pton4 value with Some a => store (set (i32 (le32 a))) | None => mret () end.

Definition mapdns_scalar (key value : list Z) : M MapdnsVars () :=
  if eqs key "address" then pton_to set_mapdns_address value
  else if eqs key "port" then store (set_mapdns_port (i32 (strtoul value 10)))
  else if eqs key "network" then pton_to set_mapdns_network value
  else if eqs key "netmask" then pton_to set_mapdns_netmask value
  else if eqs key "cache-size" then store (set_mapdns_cache_size (i32 (strtoul value 10)))
  else mret ().

Definition hev_config_parse_mapdns (doc : yaml_document) (base : option yaml_node)
  : M MapdnsVars Z :=
  match base with
  | Some (YamlMapping pairs) =>
      _ ← for_scalars doc mapdns_scalar pairs;
      s ← mget;
      _ ← store (set_mapdns_network (i32 (ntohl (u32 (mapdns_network s)))));
      _ ← store (set_mapdns_netmask (i32 (ntohl (u32 (mapdns_netmask s)))));
      mret 0
  | _ => mret (-1)
  end.

Definition hev_config_parse_log_level (value : list Z) : Z :=
  if eqs value "debug" then HEV_LOGGER_DEBUG
  else if eqs value "info" then HEV_LOGGER_INFO
  else if eqs value "error" then HEV_LOGGER_ERROR
  else HEV_LOGGER_WARN.

(** The variables with the parser's local timeouts. *)
Record MiscLocals := mkMiscLocals {
  l_misc : MiscVars;
  tcp_rw_timeout : Z;
  udp_rw_timeout : Z;
  rw_timeout : Z;
}.

Definition on_misc (f : MiscVars -> MiscVars) l :=
  mkMiscLocals (f (l_misc l)) (tcp_rw_timeout l) (udp_rw_timeout l) (rw_timeout l).
Definition set_tcp_rw v l := mkMiscLocals (l_misc l) v (udp_rw_timeout l) (rw_timeout l).
Definition set_udp_rw v l := mkMiscLocals (l_misc l) (tcp_rw_timeout l) v (rw_timeout l).
Definition set_rw v l := mkMiscLocals (l_misc l) (tcp_rw_timeout l) (udp_rw_timeout l) v.

Definition misc_scalar (key value : list Z) : M MiscLocals () :=
  let int := i32 (strtoul value 10) in
  if eqs key "task-stack-size" then store (on_misc (set_cfg_task_stack_size int))
  else if eqs key "tcp-buffer-size" then store (on_misc (set_tcp_buffer_size int))
  else if eqs key "udp-recv-buffer-size" then store (on_misc (set_cfg_udp_recv_buffer_size int))
  else if eqs key "udp-copy-buffer-nums" then store (on_misc (set_cfg_udp_copy_buffer_nums int))
  else if eqs key "max-session-count" then store (on_misc (set_max_session_count int))
  else if eqs key "connect-timeout" then store (on_misc (set_cfg_connect_timeout int))
  else if eqs key "read-write-timeout" then store (set_rw int)
  else if eqs key "tcp-read-write-timeout" then store (set_tcp_rw int)
  else if eqs key "udp-read-write-timeout" then store (set_udp_rw int)
  else if eqs key "pid-file" then
    copy_to (fun l => pid_file (l_misc l)) (fun v => on_misc (set_pid_file v)) value (1024 - 1)
  else if eqs key "log-file" then
    copy_to (fun l => log_file (l_misc l)) (fun v => on_misc (set_log_file v)) value (1024 - 1)
  else if eqs key "log-level" then
    store (on_misc (set_log_level (hev_config_parse_log_level value)))
  else if eqs key "limit-nofile" then
    store (on_misc (set_limit_nofile (i32 (strtol value 10))))
  else mret ().

Definition misc_timeouts (l : MiscLocals) : MiscVars :=
  let tcp := if Z.leb (tcp_rw_timeout l) 0 then rw_timeout l else tcp_rw_timeout l in
  let udp := if Z.leb (udp_rw_timeout l) 0 then rw_timeout l else udp_rw_timeout l in
  let s := l_misc l in
  let s := if Z.ltb 0 tcp then set_tcp_read_write_timeout tcp s else s in
  if Z.ltb 0 udp then set_udp_read_write_timeout udp s else s.

Definition hev_config_parse_misc (doc : yaml_document) (base : option yaml_node)
  : M MiscVars Z :=
  match base with
  | Some (YamlMapping pairs) => fun s =>
      match for_scalars doc misc_scalar pairs (mkMiscLocals s (-1) (-1) (-1)) with
      | Some (l, _) => Some (misc_timeouts l, 0)
      | None => None
      end
  | _ => mret (-1)
  end.

(** ** The document *)

(** A section's parser acts on its variables. *)
Definition on_part {S} (get : Config -> S) (set : S -> Config -> Config) (m : M S Z) : M Config Z :=
  fun c => match m (get c) with Some (s, r) => Some (set s c, r) | None => None end.

Definition parse_section (doc : yaml_document) (key : list Z) (node : option yaml_node)
  : M Config Z :=
  if eqs key "tunnel" then on_part c_tunnel set_c_tunnel (hev_config_parse_tunnel doc node)
  else if eqs key "socks5" then on_part c_socks5 set_c_socks5 (hev_config_parse_socks5 doc node)
  else if eqs key "mapdns" then on_part c_mapdns set_c_mapdns (hev_config_parse_mapdns doc node)
  else if eqs key "misc" then on_part c_misc set_c_misc (hev_config_parse_misc doc node)
  else mret 0.

(** Whether every section was parsed. *)
Fixpoint sections_loop (doc : yaml_document) (pairs : list (Z * Z)) : M Config bool :=
  match pairs with
  | [] => mret true
  | (k, v) :: pairs =>
      if (Z.eqb k 0 || Z.eqb v 0)%bool then mret true else
      match yaml_document_get_node doc k with
      | Some (YamlScalar key) =>
          res ← parse_section doc (cstr key) (yaml_document_get_node doc v);
          if Z.ltb res 0 then mret false else sections_loop doc pairs
      | _ => mret true
      end
  end.

(** A result of [int] arithmetic; overflow is undefined. *)
Definition int_of (z : Z) : option Z :=
  if (Z.leb (- 2 ^ 31) z && Z.ltb z (2 ^ 31))%bool then Some z else None.

Definition fit_buffers : M MiscVars () :=
  s ← mget;
  _ ← (if Z.ltb TCP_SND_BUF (tcp_buffer_size s) then store (set_tcp_buffer_size TCP_SND_BUF)
       else mret ());
  s ← mget;
  udp_buffer_size ← mlift (int_of (UDP_BUF_SIZE * cfg_udp_copy_buffer_nums s));
  min_task_stack_size ← mlift (int_of (TASK_STACK_SIZE +
    if Z.ltb udp_buffer_size (tcp_buffer_size s) then tcp_buffer_size s else udp_buffer_size));
  if Z.ltb (cfg_task_stack_size s) min_task_stack_size then
    store (set_cfg_task_stack_size min_task_stack_size) else mret ().

Definition hev_config_parse_doc (doc : yaml_document) : M Config Z :=
  match yaml_document_get_root_node doc with
  | Some (YamlMapping pairs) =>
      ok ← sections_loop doc pairs;
      if negb ok then mret (-1) else
      on_part c_misc set_c_misc (_ ← fit_buffers; mret 0)
  | _ => mret (-1)
  end.

(** [loaded]: whether the parser could be set up, and the document that it made
    of the text, when it is one. *)
Definition hev_config_init_from_str (initialized : bool) (loaded : option yaml_document)
  : M Config Z :=
  if negb initialized then mret (-1) else
  match loaded with None => mret (-1) | Some doc => hev_config_parse_doc doc end.

(** [opened]: whether the file could be opened. *)
Definition hev_config_init_from_file (initialized opened : bool) (loaded : option yaml_document)
  : M Config Z :=
  if negb initialized then mret (-1) else
  if negb opened then mret (-1) else
  match loaded with None => mret (-1) | Some doc => hev_config_parse_doc doc end.

End parse.

(** ** Getters *)

(** A string variable is NULL when it is empty. *)
Definition get_string (var : list Z) : option (option (list Z)) :=
  c ← rd8 var 0; if Z.eqb c 0 then Some None else s ← c_string var 0; Some (Some s).

Definition hev_config_get_tunnel_name (c : Config) := get_string (tun_name (c_tunnel c)).
Definition hev_config_get_tunnel_mtu (c : Config) := tun_mtu (c_tunnel c).
Definition hev_config_get_tunnel_multi_queue (c : Config) := multi_queue (c_tunnel c).
Definition hev_config_get_tunnel_ipv4_address (c : Config) :=
  get_string (tun_ipv4_address (c_tunnel c)).
Definition hev_config_get_tunnel_ipv6_address (c : Config) :=
  get_string (tun_ipv6_address (c_tunnel c)).
Definition hev_config_get_tunnel_post_up_script (c : Config) :=
  get_string (tun_post_up_script (c_tunnel c)).
Definition hev_config_get_tunnel_pre_down_script (c : Config) :=
  get_string (tun_pre_down_script (c_tunnel c)).
Definition hev_config_get_socks5_server (c : Config) : Socks5Vars := c_socks5 c.
Definition hev_config_get_mapdns_address (c : Config) := mapdns_address (c_mapdns c).
Definition hev_config_get_mapdns_port (c : Config) := mapdns_port (c_mapdns c).
Definition hev_config_get_mapdns_network (c : Config) := mapdns_network (c_mapdns c).
Definition hev_config_get_mapdns_netmask (c : Config) := mapdns_netmask (c_mapdns c).
Definition hev_config_get_mapdns_cache_size (c : Config) := mapdns_cache_size (c_mapdns c).
Definition hev_config_get_misc_task_stack_size (c : Config) := cfg_task_stack_size (c_misc c).
Definition hev_config_get_misc_tcp_buffer_size (c : Config) := tcp_buffer_size (c_misc c).
Definition hev_config_get_misc_udp_recv_buffer_size (c : Config) :=
  cfg_udp_recv_buffer_size (c_misc c).
Definition hev_config_get_misc_udp_copy_buffer_nums (c : Config) :=
  cfg_udp_copy_buffer_nums (c_misc c).
Definition hev_config_get_misc_max_session_count (c : Config) := max_session_count (c_misc c).
Definition hev_config_get_misc_connect_timeout (c : Config) := cfg_connect_timeout (c_misc c).
Definition hev_config_get_misc_tcp_read_write_timeout (c : Config) :=
  tcp_read_write_timeout (c_misc c).
Definition hev_config_get_misc_udp_read_write_timeout (c : Config) :=
  udp_read_write_timeout (c_misc c).
Definition hev_config_get_misc_limit_nofile (c : Config) := limit_nofile (c_misc c).
Definition hev_config_get_misc_pid_file (c : Config) := get_string (pid_file (c_misc c)).
Definition hev_config_get_misc_log_file (c : Config) : option (list Z) :=
  o ← get_string (log_file (c_misc c)); Some (default (str "stderr") o).
Definition hev_config_get_misc_log_level (c : Config) := log_level (c_misc c).
