(* ===== verification/ConfigSpec.v ===== *)
(** * What the configuration's parsers promise

    Well-formed variables, and the pairs of a section that its parser reaches. *)
From Stdlib Require Import String.
From S2P Require Import Prelude SearchTree CInt Effect SockIO Addr Config.

(** ** Well-formed variables *)

(** An array of [n] bytes that holds a string of at most [k]. *)
Definition cvar (n k : nat) (v : list Z) : Prop := length v = n /\ v !! k = Some 0.
Definition int_ok (z : Z) : Prop := - 2 ^ 31 <= z < 2 ^ 31.
Definition flag_ok (z : Z) : Prop := z = 0 \/ z = 1.

Definition tunnel_ok (t : TunnelVars) : Prop :=
  cvar 64 63 (tun_name t) /\ 0 <= tun_mtu t < 2 ^ 32 /\ int_ok (multi_queue t) /\
  cvar 16 15 (tun_ipv4_address t) /\ cvar 64 63 (tun_ipv6_address t) /\
  cvar 1024 63 (tun_post_up_script t) /\ cvar 1024 63 (tun_pre_down_script t).

Definition socks5_ok (v : Socks5Vars) : Prop :=
  cvar 256 255 (srv_addr (srv v)) /\ cvar 256 255 (srv_udp_addr (srv v)) /\
  cvar 256 255 (_user v) /\ cvar 256 255 (_pass v) /\
  0 <= srv_port (srv v) < 2 ^ 16 /\ 0 <= srv_mark (srv v) < 2 ^ 32 /\
  flag_ok (srv_udp_in_udp (srv v)) /\ flag_ok (srv_pipeline (srv v)) /\
  flag_ok (srv_fastopen (srv v)) /\ srv_user (srv v) = srv_pass (srv v).

Definition mapdns_ok (m : MapdnsVars) : Prop :=
  int_ok (mapdns_address m) /\ int_ok (mapdns_port m) /\ int_ok (mapdns_network m) /\
  int_ok (mapdns_netmask m) /\ int_ok (mapdns_cache_size m).

Definition misc_ok (m : MiscVars) : Prop :=
  cvar 1024 1023 (log_file m) /\ cvar 1024 1023 (pid_file m) /\ int_ok (max_session_count m) /\
  int_ok (cfg_task_stack_size m) /\ int_ok (tcp_buffer_size m) /\
  int_ok (cfg_udp_recv_buffer_size m) /\ int_ok (cfg_udp_copy_buffer_nums m) /\
  int_ok (cfg_connect_timeout m) /\ 0 < tcp_read_write_timeout m < 2 ^ 31 /\
  0 < udp_read_write_timeout m < 2 ^ 31 /\ int_ok (limit_nofile m) /\
  HEV_LOGGER_DEBUG <= log_level m <= HEV_LOGGER_ERROR.

Definition cfg_ok (c : Config) : Prop :=
  tunnel_ok (c_tunnel c) /\ socks5_ok (c_socks5 c) /\ mapdns_ok (c_mapdns c) /\
  misc_ok (c_misc c).

(** The buffers fit the socket's and the task's stack. *)
Definition buffers_fit (m : MiscVars) : Prop :=
  tcp_buffer_size m <= TCP_SND_BUF /\
  TASK_STACK_SIZE + Z.max (tcp_buffer_size m) (UDP_BUF_SIZE * cfg_udp_copy_buffer_nums m)
    <= cfg_task_stack_size m.

(** The sizes that make [fit_buffers] overflow. *)
Definition sizes_overflow (m : MiscVars) : Prop :=
  let udp := UDP_BUF_SIZE * cfg_udp_copy_buffer_nums m in
  udp < - 2 ^ 31 \/ 2 ^ 31 <= udp + TASK_STACK_SIZE.

(** What every string variable's getter returns. *)
Definition holds_string (v : list Z) (s : list Z) : Prop := c_string v 0 = Some s.

(** ** The pairs that are reached *)

Fixpoint scalars (doc : yaml_document) (pairs : list (Z * Z)) : list (list Z * list Z) :=
  match pairs with
  | [] => []
  | (k, v) :: pairs =>
      if (Z.eqb k 0 || Z.eqb v 0)%bool then [] else
      match yaml_document_get_node doc k, yaml_document_get_node doc v with
      | Some (YamlScalar key), Some (YamlScalar value) =>
          (cstr key, cstr value) :: scalars doc pairs
      | _, _ => []
      end
  end.

Fixpoint entries (doc : yaml_document) (pairs : list (Z * Z))
  : list (list Z * option yaml_node) :=
  match pairs with
  | [] => []
  | (k, v) :: pairs =>
      if (Z.eqb k 0 || Z.eqb v 0)%bool then [] else
      match yaml_document_get_node doc k with
      | Some (YamlScalar key) => (cstr key, yaml_document_get_node doc v) :: entries doc pairs
      | _ => []
      end
  end.

(** The value of the last pair with the key. *)
Fixpoint last_value (key : string) (kvs : list (list Z * list Z)) : option (list Z) :=
  match kvs with
  | [] => None
  | (k, v) :: kvs =>
      match last_value key kvs with
      | Some w => Some w
      | None => if eqs k key then Some v else None
      end
  end.

Definition has (key : string) (kvs : list (list Z * list Z)) : bool :=
  match last_value key kvs with Some _ => true | None => false end.

(** ** Validity *)

Definition socks5_valid (kvs : list (list Z * list Z)) : bool :=
  (has "port" kvs && has "address" kvs && Bool.eqb (has "username" kvs) (has "password" kvs))%bool.

Definition section_valid (doc : yaml_document) (e : list Z * option yaml_node) : bool :=
  match e.2 with
  | Some (YamlMapping pairs) =>
      if eqs e.1 "socks5" then socks5_valid (scalars doc pairs) else true
  | _ => negb (eqs e.1 "tunnel" || eqs e.1 "socks5" || eqs e.1 "mapdns" || eqs e.1 "misc")
  end.

Definition doc_valid (doc : yaml_document) : bool :=
  match yaml_document_get_root_node doc with
  | Some (YamlMapping pairs) => forallb (section_valid doc) (entries doc pairs)
  | _ => false
  end.

(** ** Total correctness with an invariant *)

(** [safe I m]: from a state in [I] the computation returns, in [I]. *)
Definition safe {S A} (I : S -> Prop) (m : M S A) : Prop :=
  forall s, I s -> mwp m s (fun s' _ => I s').

Lemma safe_ret {S A} (I : S -> Prop) (a : A) : safe I (mret a).
Proof. intros s Hs. by apply mwp_ret. Qed.

Lemma safe_bind {S A B} I (m : M S A) (f : A -> M S B) :
  safe I m -> (forall a, safe I (f a)) -> safe I (m ≫= f).
Proof.
  intros Hm Hf s Hs. apply mwp_bind. eapply mwp_mono; [by apply Hm|]. intros s' a. apply Hf.
Qed.

Lemma safe_store {S} (I : S -> Prop) (f : S -> S) : (forall s, I s -> I (f s)) -> safe I (store f).
Proof. intros Hf s Hs. unfold store. msteps. by apply Hf. Qed.

Create HintDb safe.
#[export] Hint Resolve safe_ret : safe.

Ltac safe_step :=
  match goal with
  | |- safe _ (_ ≫= _) => apply safe_bind; [|intros]
  | |- safe _ (if ?b then _ else _) => destruct b
  | |- safe _ (match ?x with _ => _ end) => destruct x
  | |- safe _ _ => solve [auto with safe]
  end.
Ltac safe_tac := repeat safe_step.

(** ** Strings in arrays *)

Lemma cstr_nonzero v : nonzero (cstr v).
Proof.
  induction v as [|x v IH]; simpl; [constructor|].
  destruct (Z.eqb_spec x 0); constructor; auto.
Qed.

Lemma eqs_spec k s : eqs k s = true <-> k = str s.
Proof. unfold eqs. rewrite Z.eqb_eq. apply strcmp_eq. Qed.

Lemma strncpy_array n k v value : cvar n k v -> nonzero value ->
  exists v', strncpy v 0 value (Z.of_nat k) = Some v' /\ cvar n k v' /\
    holds_string v' (take k value).
Proof.
  intros [Hl Hz] Hv. pose proof (lookup_lt_Some _ _ _ Hz) as Hk.
  unfold strncpy, memcpy. rewrite Nat2Z.id.
  set (src := take k value ++ replicate (k - length (take k value)) 0).
  assert (length src = k) as Hsrc.
  { unfold src. rewrite length_app, length_replicate, length_take. lia. }
  rewrite (proj2 (Z.ltb_ge 0 0)), (proj2 (Z.ltb_ge (Z.of_nat k) 0)), Hsrc,
    (proj2 (Z.ltb_ge (Z.of_nat k) (Z.of_nat k))),
    (proj2 (Z.ltb_ge (Z.of_nat (length v)) (0 + Z.of_nat k))) by lia.
  cbn [orb]. rewrite (take_ge src k), Z.add_0_l, Nat2Z.id by lia.
  eexists. split; [done|]. change (take (Z.to_nat 0) v) with (@nil Z). cbn [app].
  rewrite (drop_S _ _ _ Hz). split.
  - split; [rewrite length_app, Hsrc; cbn; rewrite length_drop; lia|].
    rewrite lookup_app_r by lia. by replace (k - length src)%nat with 0%nat by lia.
  - unfold holds_string, c_string, src. change (Z.ltb 0 0) with false. cbv iota.
    change (Z.to_nat 0) with 0%nat. rewrite drop_0, <- app_assoc.
    destruct (k - length (take k value))%nat as [|d];
      apply c_string_from_app; by apply Forall_take.
Qed.

Lemma cstr_length w : (length (cstr w) <= length w)%nat.
Proof. induction w as [|x w IH]; simpl; [lia|]. destruct (Z.eqb x 0); simpl; lia. Qed.

Lemma cvar_string n k v : cvar n k v -> exists s, holds_string v s /\ (length s <= k)%nat.
Proof.
  intros [Hl Hz]. exists (cstr (take k v)). split.
  - unfold holds_string, c_string. change (Z.ltb 0 0) with false. cbv iota.
    change (Z.to_nat 0) with 0%nat. rewrite drop_0, <- (take_drop k v) at 1.
    rewrite (drop_S _ _ _ Hz). apply c_string_from_cstr.
  - pose proof (cstr_length (take k v)). rewrite length_take in *. lia.
Qed.

(** A string getter returns. *)
Lemma get_string_ok n k v : cvar n k v -> is_Some (get_string v).
Proof.
  intros Hv. unfold get_string. destruct (cvar_string n k v Hv) as (s & Hs & _).
  destruct Hv as [Hl Hz]. pose proof (lookup_lt_Some _ _ _ Hz) as Hk.
  destruct (rd8_in v 0) as [x Hx]; [lia|]. rewrite Hx. cbn [mbind option_bind].
  destruct (Z.eqb x 0); [done|]. by rewrite Hs.
Qed.

Lemma copy_to_ok {S} get (set : list Z -> S -> S) value n (k : nat) i (s : S) Q :
  i = Z.of_nat k -> cvar n k (get s) -> nonzero value ->
  (forall v', cvar n k v' -> holds_string v' (take k value) -> Q (set v' s) tt) ->
  mwp (copy_to get set value i) s Q.
Proof.
  intros -> Hv Hnz HQ. destruct (strncpy_array n k (get s) value Hv Hnz) as (v' & E & Hc & Hs).
  unfold copy_to. msteps. eapply mwp_lift; [exact E|]. msteps. by apply HQ.
Qed.

Lemma safe_copy_to {S} (I : S -> Prop) get set value n (k : nat) i :
  i = Z.of_nat k -> nonzero value -> (forall s, I s -> cvar n k (get s)) ->
  (forall s v', I s -> cvar n k v' -> I (set v' s)) -> safe I (copy_to get set value i).
Proof. intros. intros s Hs. eapply copy_to_ok; eauto. Qed.

(** ** Loops *)

Lemma safe_for_scalars {S} (I : S -> Prop) doc (body : list Z -> list Z -> M S ()) pairs :
  (forall k v, nonzero v -> safe I (body k v)) -> safe I (for_scalars doc body pairs).
Proof.
  intros Hb. induction pairs as [|[k v] pairs IH]; cbn [for_scalars]; [auto with safe|].
  destruct (_ || _)%bool; [auto with safe|].
  destruct (yaml_document_get_node doc k) as [[key| |]|]; try auto with safe.
  destruct (yaml_document_get_node doc v) as [[value| |]|]; try auto with safe.
  apply safe_bind; [apply Hb, cstr_nonzero|done].
Qed.

Definition latest (o : option (list Z)) (n : option (list Z)) : option (list Z) :=
  match n with Some _ => n | None => o end.

Lemma latest_cons key k v kvs o :
  latest o (last_value key ((k, v) :: kvs)) =
  latest (if eqs k key then Some v else o) (last_value key kvs).
Proof. simpl. destruct (last_value key kvs); [done|]. by destruct (eqs k key). Qed.

Lemma eqs_other k s s' : eqs k s = true -> s <> s' -> eqs k s' = false.
Proof.
  intros Hk Hne. apply Bool.not_true_iff_false. rewrite eqs_spec in *. intros ->. apply Hne.
  assert (forall l l', map (fun a => Z.of_nat (Ascii.nat_of_ascii a)) l =
    map (fun a => Z.of_nat (Ascii.nat_of_ascii a)) l' -> l = l') as Hinj.
  { induction l as [|a l IH]; intros [|b l']; simpl; try done. intros [= E El].
    f_equal; [|auto]. rewrite <- (Ascii.ascii_nat_embedding a), <- (Ascii.ascii_nat_embedding b).
    f_equal. lia. }
  apply Hinj in Hk.
  rewrite <- (string_of_list_ascii_of_string s), <- (string_of_list_ascii_of_string s').
  by rewrite Hk.
Qed.
