(* ===== verification/ConfigParse.v ===== *)
(** * The parser of each section

    What every section's parser leaves in its variables and returns. *)
From Stdlib Require Import String.
From S2P Require Import Prelude SearchTree CInt Effect SockIO Addr Config ConfigSpec.

Lemma i32_ok z : int_ok (i32 z).
Proof. unfold int_ok, i32. pose proof (Z.mod_pos_bound (z + 2 ^ 31) (2 ^ 32)). lia. Qed.

Lemma strcmp_int_ok a b : int_ok (strcmp a b).
Proof.
  unfold int_ok. revert b. induction a as [|x a IH]; intros [|y b]; simpl; try lia.
  destruct (Z.ltb x y); [lia|]. destruct (Z.ltb y x); [lia|]. apply IH.
Qed.
#[export] Hint Resolve i32_ok strcmp_int_ok : safe.

Ltac u_bound := unfold u32, u16; apply Z.mod_pos_bound; lia.

Section sections.
Context `{Pton} (long_bits : Z).

(** What every section's parser promises. *)
Definition parses {S} (I : S -> Prop) (valid : bool) (m : M S Z) : Prop :=
  forall s, I s -> mwp m s (fun s' r => I s' /\ r = if valid then 0 else -1).

Lemma parses_body {S} (I : S -> Prop) (m : M S ()) : safe I m -> parses I true (_ ← m; mret 0).
Proof.
  intros Hm s Hs. apply mwp_bind. eapply mwp_mono; [by apply Hm|]. intros s' ? Hs'.
  by apply mwp_ret.
Qed.

Lemma parses_fail {S} (I : S -> Prop) : parses I false (mret (-1)).
Proof. intros s Hs. by apply mwp_ret. Qed.

Lemma parses_safe {S} (I : S -> Prop) valid m : parses I valid m -> safe I m.
Proof. intros Hm s Hs. eapply mwp_mono; [by apply Hm|]. intros s' r HQ. apply HQ. Qed.

Definition is_mapping (node : option yaml_node) : bool :=
  match node with Some (YamlMapping _) => true | _ => false end.

(** ** tunnel *)

Ltac array_size :=
  match goal with |- safe _ (copy_to _ _ _ ?k) =>
    let n := eval vm_compute in (Z.to_nat k) in eapply (safe_copy_to _ _ _ _ _ n); [done|done|..]
  end.
Ltac keep_array :=
  array_size; [by unfold tunnel_ok, misc_ok; intros s0 Hs0; apply Hs0|
    unfold tunnel_ok, misc_ok; intros; cbn; tauto].
Ltac keep_value :=
  apply safe_store; unfold tunnel_ok, mapdns_ok, misc_ok; intros; cbn;
  repeat match goal with |- _ /\ _ => split end; try tauto; try u_bound;
  first [apply i32_ok|apply strcmp_int_ok].

Lemma parse_tunnel_ipv4_ok doc base :
  parses tunnel_ok (is_mapping base) (hev_config_parse_tunnel_ipv4 doc base).
Proof.
  destruct base as [[| |pairs]|]; try apply parses_fail. apply parses_body, safe_for_scalars.
  intros k v Hv. safe_tac. keep_array.
Qed.

Lemma parse_tunnel_ipv6_ok doc base :
  parses tunnel_ok (is_mapping base) (hev_config_parse_tunnel_ipv6 doc base).
Proof.
  destruct base as [[| |pairs]|]; try apply parses_fail. apply parses_body, safe_for_scalars.
  intros k v Hv. safe_tac. keep_array.
Qed.

Lemma tunnel_scalar_ok k v : nonzero v -> safe tunnel_ok (tunnel_scalar long_bits k v).
Proof. intros Hv. unfold tunnel_scalar. safe_tac; first [keep_array|keep_value]. Qed.

Lemma tunnel_nested_ok doc k node : safe tunnel_ok (tunnel_nested doc k node).
Proof.
  unfold tunnel_nested. safe_tac; eapply parses_safe;
    [apply parse_tunnel_ipv4_ok|apply parse_tunnel_ipv6_ok].
Qed.

Lemma tunnel_loop_ok doc pairs : safe tunnel_ok (tunnel_loop long_bits doc pairs).
Proof.
  induction pairs as [|[k v] pairs IH]; cbn [tunnel_loop]; [auto with safe|].
  destruct (_ || _)%bool; [auto with safe|].
  destruct (yaml_document_get_node doc k) as [[key| |]|]; try auto with safe.
  destruct (yaml_document_get_node doc v) as [node|]; [|auto with safe].
  apply safe_bind; [|done]. destruct node; [|apply tunnel_nested_ok..].
  apply tunnel_scalar_ok, cstr_nonzero.
Qed.

Lemma parse_tunnel_ok doc base :
  parses tunnel_ok (is_mapping base) (hev_config_parse_tunnel long_bits doc base).
Proof.
  destruct base as [[| |pairs]|]; try apply parses_fail. apply parses_body, tunnel_loop_ok.
Qed.

(** ** mapdns *)

Lemma pton_to_ok (set : Z -> MapdnsVars -> MapdnsVars) v :
  (forall z s, int_ok z -> mapdns_ok s -> mapdns_ok (set z s)) -> safe mapdns_ok (pton_to set v).
Proof. intros Hset. unfold pton_to. safe_tac. apply safe_store. auto with safe. Qed.

Lemma mapdns_scalar_ok k v : safe mapdns_ok (mapdns_scalar long_bits k v).
Proof.
  unfold mapdns_scalar. safe_tac;
    first [keep_value | apply pton_to_ok; unfold mapdns_ok; intros; cbn; tauto].
Qed.

Lemma parse_mapdns_ok doc base :
  parses mapdns_ok (is_mapping base) (hev_config_parse_mapdns long_bits doc base).
Proof.
  destruct base as [[| |pairs]|]; try apply parses_fail. intros s Hs.
  unfold hev_config_parse_mapdns. apply mwp_bind. eapply mwp_mono.
  { apply (safe_for_scalars mapdns_ok); [|exact Hs]. intros. apply mapdns_scalar_ok. }
  intros s' ? Hs'. unfold store. msteps. split; [|done]. unfold mapdns_ok in *. cbn.
  repeat split; try apply i32_ok; apply Hs'.
Qed.

(** ** misc *)

Definition misc_locals_ok (l : MiscLocals) : Prop :=
  misc_ok (l_misc l) /\ int_ok (tcp_rw_timeout l) /\ int_ok (udp_rw_timeout l) /\
  int_ok (rw_timeout l).

Lemma log_level_ok v :
  HEV_LOGGER_DEBUG <= hev_config_parse_log_level v <= HEV_LOGGER_ERROR.
Proof.
  unfold hev_config_parse_log_level, HEV_LOGGER_DEBUG, HEV_LOGGER_INFO, HEV_LOGGER_ERROR,
    HEV_LOGGER_WARN.
  destruct (eqs v "debug"), (eqs v "info"), (eqs v "error"); lia.
Qed.

Lemma on_misc_ok f l :
  (misc_ok (l_misc l) -> misc_ok (f (l_misc l))) -> misc_locals_ok l -> misc_locals_ok (on_misc f l).
Proof. unfold misc_locals_ok. cbn. tauto. Qed.

Lemma misc_scalar_ok k v : nonzero v -> safe misc_locals_ok (misc_scalar long_bits k v).
Proof.
  intros Hv. unfold misc_scalar.
  pose proof (i32_ok (strtoul long_bits v 10)) as Hi.
  pose proof (i32_ok (strtol long_bits v 10)) as Hl. pose proof (log_level_ok v) as Hlog.
  repeat match goal with |- safe _ (if ?b then _ else _) => destruct b end;
    [apply safe_store; intros; first [apply on_misc_ok; [|done]; unfold misc_ok | unfold misc_locals_ok in *];
       cbn; tauto..| | | | |].
  - array_size; [intros s0 Hs0; apply (proj1 Hs0)|].
    intros l v' Hl' Hv'. apply on_misc_ok; [|done]. unfold misc_ok. cbn. tauto.
  - array_size; [intros s0 Hs0; apply (proj1 Hs0)|].
    intros l v' Hl' Hv'. apply on_misc_ok; [|done]. unfold misc_ok. cbn. tauto.
  - apply safe_store; intros; apply on_misc_ok; [|done]; unfold misc_ok; cbn; tauto.
  - apply safe_store; intros; apply on_misc_ok; [|done]; unfold misc_ok; cbn; tauto.
  - auto with safe.
Qed.

Lemma misc_timeouts_ok l : misc_locals_ok l -> misc_ok (misc_timeouts l).
Proof.
  intros (Hm & Ht & Hu & Hr). unfold misc_timeouts, misc_ok, int_ok in *.
  destruct Hm as (? & ? & ? & ? & ? & ? & ? & ? & ? & ? & ? & ?).
  case_Z; cbn; repeat match goal with |- _ /\ _ => split end; try assumption; lia.
Qed.

Lemma parse_misc_ok doc base :
  parses misc_ok (is_mapping base) (hev_config_parse_misc long_bits doc base).
Proof.
  destruct base as [[| |pairs]|]; try apply parses_fail. intros s Hs.
  unfold hev_config_parse_misc.
  destruct (safe_for_scalars misc_locals_ok doc (misc_scalar long_bits) pairs misc_scalar_ok
    (mkMiscLocals s (-1) (-1) (-1))) as (l & [] & E & Hl).
  { split; [done|]. cbn. unfold int_ok. lia. }
  exists (misc_timeouts l), 0. rewrite E. split; [done|]. split; [by apply misc_timeouts_ok|done].
Qed.
End sections.

(** * The proxy's section

    The parser's locals are the last values of their keys, and the variables
    get their values only when the section is valid. *)

Lemma socks5_local_eq key v l :
  socks5_local key v l =
  mkLocals (if eqs key "address" then Some v else l_addr l)
    (if eqs key "port" then Some v else l_port l) (if eqs key "udp" then Some v else l_udpm l)
    (if eqs key "udp-address" then Some v else l_udpa l)
    (if eqs key "username" then Some v else l_user l)
    (if eqs key "password" then Some v else l_pass l) (if eqs key "mark" then Some v else l_mark l)
    (if eqs key "pipeline" then Some v else l_pipe l)
    (if eqs key "tcp-fastopen" then Some v else l_tfso l).
Proof.
  unfold socks5_local.
  repeat match goal with
  | |- (if eqs key ?s then _ else _) = _ =>
      let E := fresh "E" in destruct (eqs key s) eqn:E;
      [rewrite ?(fun s' Hne => eqs_other key s s' E Hne) by done; done|]
  end.
  by destruct l.
Qed.

Lemma socks5_loop_eq doc pairs l :
  let kvs := scalars doc pairs in
  socks5_loop doc pairs l =
  mkLocals (latest (l_addr l) (last_value "address" kvs)) (latest (l_port l) (last_value "port" kvs))
    (latest (l_udpm l) (last_value "udp" kvs)) (latest (l_udpa l) (last_value "udp-address" kvs))
    (latest (l_user l) (last_value "username" kvs)) (latest (l_pass l) (last_value "password" kvs))
    (latest (l_mark l) (last_value "mark" kvs)) (latest (l_pipe l) (last_value "pipeline" kvs))
    (latest (l_tfso l) (last_value "tcp-fastopen" kvs)).
Proof.
  cbv zeta. revert l. induction pairs as [|[k v] pairs IH]; intros l; cbn [socks5_loop scalars];
    [by destruct l|].
  destruct (_ || _)%bool; [by destruct l|].
  destruct (yaml_document_get_node doc k) as [[key| |]|]; try by destruct l.
  destruct (yaml_document_get_node doc v) as [[value| |]|]; try by destruct l.
  rewrite IH, !latest_cons. by rewrite !socks5_local_eq.
Qed.

Section socks5.
Context (long_bits : Z).

(** Whether the last value of the key is the word, in any case. *)
Definition says (key word : string) (kvs : list (list Z * list Z)) : bool :=
  match last_value key kvs with Some v => Z.eqb (strcasecmp v (str word)) 0 | None => false end.

(** The variables after a valid section with these pairs. *)
Definition socks5_values (kvs : list (list Z * list Z)) (s s' : Socks5Vars) : Prop :=
  (forall a, last_value "address" kvs = Some a -> holds_string (srv_addr (srv s')) (take 255 a)) /\
  (forall p, last_value "port" kvs = Some p -> srv_port (srv s') = u16 (strtoul long_bits p 10)) /\
  srv_pipeline (srv s') = (if says "pipeline" "true" kvs then 1 else srv_pipeline (srv s)) /\
  srv_udp_in_udp (srv s') = (if says "udp" "udp" kvs then 1 else srv_udp_in_udp (srv s)) /\
  match last_value "udp-address" kvs with
  | Some a => holds_string (srv_udp_addr (srv s')) (take 255 a)
  | None => srv_udp_addr (srv s') = srv_udp_addr (srv s)
  end /\
  match last_value "username" kvs, last_value "password" kvs with
  | Some u, Some p =>
      srv_user (srv s') = true /\ srv_pass (srv s') = true /\
      holds_string (_user s') (take 255 u) /\ holds_string (_pass s') (take 255 p)
  | _, _ => srv_user (srv s') = srv_user (srv s) /\ srv_pass (srv s') = srv_pass (srv s) /\
      _user s' = _user s /\ _pass s' = _pass s
  end /\
  srv_mark (srv s') =
    match last_value "mark" kvs with
    | Some m => u32 (strtoul long_bits m 0) | None => srv_mark (srv s) end /\
  srv_fastopen (srv s') =
    match last_value "tcp-fastopen" kvs with
    | Some _ => if says "tcp-fastopen" "true" kvs then 1 else 0 | None => srv_fastopen (srv s) end.

Lemma mwp_store {S} (f : S -> S) s Q : Q (f s) tt -> mwp (store f) s Q.
Proof. intros HQ. unfold store. msteps. done. Qed.

Lemma mwp_when_store {S} o (f : list Z -> S -> S) s Q :
  Q (match o with Some v => f v s | None => s end) tt ->
  mwp (when_some o (fun v => store (f v))) s Q.
Proof. intros HQ. destruct o; [by apply mwp_store|by apply mwp_ret]. Qed.

Lemma mwp_when_if_store {S} o (b : list Z -> bool) (f : S -> S) s Q :
  Q (if match o with Some v => b v | None => false end then f s else s) tt ->
  mwp (when_some o (fun v => if b v then store f else mret ())) s Q.
Proof.
  intros HQ. destruct o as [v|]; [|by apply mwp_ret]. cbn [when_some].
  destruct (b v); [by apply mwp_store|by apply mwp_ret].
Qed.

Lemma last_value_nonzero doc pairs key v : last_value key (scalars doc pairs) = Some v -> nonzero v.
Proof.
  induction pairs as [|[k w] pairs IH]; cbn [scalars]; [done|].
  destruct (_ || _)%bool; [done|].
  destruct (yaml_document_get_node doc k) as [[key'| |]|]; try done.
  destruct (yaml_document_get_node doc w) as [[value| |]|]; try done.
  cbn [last_value]. destruct (last_value key (scalars doc pairs)); [done|].
  destruct (eqs _ key); [|done]. intros [= <-]. apply cstr_nonzero.
Qed.

(** A copy into one of the section's arrays. *)
Ltac copy_array :=
  match goal with |- mwp (copy_to _ _ _ ?k) _ _ =>
    let n := eval vm_compute in (Z.to_nat k) in
    eapply (copy_to_ok _ _ _ 256 n); [done|cbn; tauto|done|]
  end.

Lemma store_socks5_ok kvs addr port s :
  (forall key v, last_value key kvs = Some v -> nonzero v) -> socks5_ok s ->
  last_value "address" kvs = Some addr -> last_value "port" kvs = Some port ->
  Bool.eqb (has "username" kvs) (has "password" kvs) = true ->
  mwp (store_socks5 long_bits addr port
    (mkLocals (Some addr) (Some port) (last_value "udp" kvs) (last_value "udp-address" kvs)
      (last_value "username" kvs) (last_value "password" kvs) (last_value "mark" kvs)
      (last_value "pipeline" kvs) (last_value "tcp-fastopen" kvs))) s
    (fun s' _ => socks5_ok s' /\ socks5_values kvs s s').
Proof.
  intros Hnz (Ha & Hua & Hu & Hp & Hport & Hmark & Hudp & Hpipe & Hfast & Hboth) Eaddr Eport Heq.
  unfold store_socks5. pose proof (Hnz _ _ Eaddr) as Hna.
  apply mwp_bind. copy_array. intros va Hva Hsa. cbn [l_pipe l_udpm l_udpa l_user l_pass l_mark l_tfso].
  apply mwp_bind, mwp_store, mwp_bind, mwp_when_if_store, mwp_bind, mwp_when_if_store, mwp_bind.
  fold (says "pipeline" "true" kvs). fold (says "udp" "udp" kvs).
  set (s1 := if says "udp" "udp" kvs then _ else _).
  assert (s1 = mkSocks5Vars (mkSrv (srv_user (srv s)) (srv_pass (srv s)) (srv_mark (srv s))
      (if says "udp" "udp" kvs then 1 else srv_udp_in_udp (srv s)) (u16 (strtoul long_bits port 10))
      (if says "pipeline" "true" kvs then 1 else srv_pipeline (srv s)) (srv_fastopen (srv s))
      (srv_udp_addr (srv s)) va) (_user s) (_pass s)) as ->.
  { unfold s1. by destruct (says "udp" "udp" kvs), (says "pipeline" "true" kvs). }
  unfold has in Heq.
  destruct (last_value "udp-address" kvs) as [ua|] eqn:Eua; cbn [when_some];
    [pose proof (Hnz _ _ Eua); copy_array; intros vu Hvu Hsu|apply mwp_ret];
    apply mwp_bind;
    destruct (last_value "username" kvs) as [user|] eqn:Euser,
      (last_value "password" kvs) as [pass|] eqn:Epass; try done.
  all: match goal with
    | |- mwp (mret _) _ _ => apply mwp_ret
    | _ =>
        pose proof (Hnz _ _ Euser); pose proof (Hnz _ _ Epass);
        apply mwp_bind; copy_array; intros vn Hvn Hsn;
        apply mwp_bind; copy_array; intros vp Hvp Hsp; apply mwp_store
    end.
  all: apply mwp_bind, mwp_when_store, mwp_when_store.
  all: unfold socks5_values; rewrite ?Eua, ?Euser, ?Epass.
  all: destruct (last_value "mark" kvs), (last_value "tcp-fastopen" kvs) eqn:Etf;
    unfold socks5_ok, flag_ok in *; cbn -[str];
    repeat match goal with |- _ /\ _ => split end; try done; try u_bound;
    try (by intros ? [= <-]); try (by intros ? E; congruence);
    unfold says; rewrite ?Etf; repeat case_match; try tauto.
Qed.

(** The section's parser: an invalid section changes nothing. *)
Lemma parse_socks5_ok doc pairs s :
  let kvs := scalars doc pairs in socks5_ok s ->
  mwp (hev_config_parse_socks5 long_bits doc (Some (YamlMapping pairs))) s (fun s' r =>
    socks5_ok s' /\
    if socks5_valid kvs then r = 0 /\ socks5_values kvs s s' else r = -1 /\ s' = s).
Proof.
  intros kvs Hs. unfold hev_config_parse_socks5. rewrite socks5_loop_eq. fold kvs. cbn.
  pose proof (fun key v => last_value_nonzero doc pairs key v : last_value key kvs = Some v -> _)
    as Hnz.
  unfold socks5_valid, has.
  assert (forall o, latest None o = o) as Hl by by intros [].
  rewrite !Hl.
  destruct (last_value "port" kvs) as [port|] eqn:Ep; [|by apply mwp_ret].
  destruct (last_value "address" kvs) as [addr|] eqn:Ea; [|by apply mwp_ret].
  pose proof (store_socks5_ok kvs addr port s Hnz Hs Ea Ep) as Hst. unfold has in Hst. cbn [andb].
  destruct (last_value "username" kvs) eqn:Eu, (last_value "password" kvs) eqn:Epw;
    try (by apply mwp_ret); cbn [Bool.eqb];
    (apply mwp_bind; eapply mwp_mono; [by apply Hst|]; intros s' ? [??]; by apply mwp_ret).
Qed.
End socks5.

(** * The section of the timeouts and limits

    Every variable holds the last value of its key. *)

Section misc.
Context `{Pton} (long_bits : Z).

(** The number under a key, or the one before. *)
Definition number (old : Z) (o : option (list Z)) : Z :=
  match o with Some v => i32 (strtoul long_bits v 10) | None => old end.

(** The string under a key, in an array of 1024 bytes, or the array before. *)
Definition text (old new : list Z) (o : option (list Z)) : Prop :=
  match o with Some v => holds_string new (take 1023 v) | None => new = old end.

Definition level (old : Z) (o : option (list Z)) : Z :=
  match o with Some v => hev_config_parse_log_level v | None => old end.

(** The keys of the numbers. *)
Definition misc_numbers : list (string * (MiscVars -> Z)) :=
  [("task-stack-size", cfg_task_stack_size); ("tcp-buffer-size", tcp_buffer_size);
   ("udp-recv-buffer-size", cfg_udp_recv_buffer_size);
   ("udp-copy-buffer-nums", cfg_udp_copy_buffer_nums);
   ("max-session-count", max_session_count); ("connect-timeout", cfg_connect_timeout)]%string.

Definition misc_keys : list (string * (MiscLocals -> Z)) :=
  ((fun p => (p.1, fun l => p.2 (l_misc l))) <$> misc_numbers) ++
  [("read-write-timeout", rw_timeout); ("tcp-read-write-timeout", tcp_rw_timeout);
   ("udp-read-write-timeout", udp_rw_timeout)]%string.

Definition misc_relates (kvs : list (list Z * list Z)) (l l' : MiscLocals) : Prop :=
  Forall (fun p => p.2 l' = number (p.2 l) (last_value p.1 kvs)) misc_keys /\
  text (pid_file (l_misc l)) (pid_file (l_misc l')) (last_value "pid-file" kvs) /\
  text (log_file (l_misc l)) (log_file (l_misc l')) (last_value "log-file" kvs) /\
  log_level (l_misc l') = level (log_level (l_misc l)) (last_value "log-level" kvs) /\
  tcp_read_write_timeout (l_misc l') = tcp_read_write_timeout (l_misc l) /\
  udp_read_write_timeout (l_misc l') = udp_read_write_timeout (l_misc l).

Lemma misc_relates_step k v l :
  nonzero v -> misc_locals_ok l ->
  mwp (misc_scalar long_bits k v) l (fun l' _ => misc_locals_ok l' /\ misc_relates [(k, v)] l l').
Proof.
  intros Hv Hl.
  assert (mwp (misc_scalar long_bits k v) l (fun l' _ => misc_relates [(k, v)] l l')) as Hr.
  { unfold misc_scalar.
    repeat match goal with
    | |- mwp (if eqs k ?s then _ else _) _ _ =>
        let E := fresh "E" in destruct (eqs k s) eqn:E;
        [try rewrite ?(fun s' Hne => eqs_other k s s' E Hne) by done|]
    end.
    all: match goal with
      | |- mwp (copy_to _ _ _ _) _ _ =>
          eapply (copy_to_ok _ _ _ 1024 1023); [done|apply Hl|done|intros v' Hv' Hs']
      | |- mwp (store _) _ _ => unfold store; msteps
      | |- mwp (mret _) _ _ => apply mwp_ret
      end.
    all: unfold misc_relates, misc_keys, misc_numbers, number, text, level;
      cbn [fmap list_fmap app]; split;
      [repeat first [apply Forall_nil_2|apply Forall_cons_2]|]; cbn [fst snd last_value].
    all: repeat match goal with
      | E : eqs ?x ?s = true |- context [eqs ?x ?s'] =>
          first [constr_eq s s'; rewrite E | rewrite (eqs_other x s s' E) by done]
      | E : eqs ?x ?s = false |- context [eqs ?x ?s] => rewrite E
      end.
    all: repeat match goal with |- _ /\ _ => split end; done. }
  destruct (misc_scalar_ok long_bits k v Hv l Hl) as (l1 & [] & E1 & Hl1).
  destruct Hr as (l2 & [] & E2 & Hl2). rewrite E1 in E2. injection E2 as <-.
  by exists l1, tt.
Qed.

Lemma number_cons old key k v kvs :
  number old (last_value key ((k, v) :: kvs)) =
  number (number old (last_value key [(k, v)])) (last_value key kvs).
Proof. cbn. destruct (last_value key kvs); [done|]. by destruct (eqs k key). Qed.

Lemma level_cons old key k v kvs :
  level old (last_value key ((k, v) :: kvs)) =
  level (level old (last_value key [(k, v)])) (last_value key kvs).
Proof. cbn. destruct (last_value key kvs); [done|]. by destruct (eqs k key). Qed.

Lemma text_cons old mid new key k v kvs :
  text old mid (last_value key [(k, v)]) -> text mid new (last_value key kvs) ->
  text old new (last_value key ((k, v) :: kvs)).
Proof.
  cbn -[holds_string]. destruct (last_value key kvs); [done|].
  destruct (eqs k key); cbn -[holds_string]; intros H1 H2; by subst.
Qed.

Lemma misc_relates_cons k v kvs l l1 l2 :
  misc_relates [(k, v)] l l1 -> misc_relates kvs l1 l2 -> misc_relates ((k, v) :: kvs) l l2.
Proof.
  intros (Hn1 & Hp1 & Hl1 & Hg1 & Ht1 & Hu1) (Hn2 & Hp2 & Hl2 & Hg2 & Ht2 & Hu2).
  split; [|split; [|split; [|split; [|split]]]]; try congruence.
  - rewrite Forall_forall in *. intros p Hp. rewrite number_cons.
    rewrite (Hn2 p Hp). by rewrite (Hn1 p Hp).
  - by eapply text_cons.
  - by eapply text_cons.
  - by rewrite level_cons, Hg2, Hg1.
Qed.

Lemma misc_loop_ok doc pairs l :
  misc_locals_ok l ->
  mwp (for_scalars doc (misc_scalar long_bits) pairs) l
    (fun l' _ => misc_locals_ok l' /\ misc_relates (scalars doc pairs) l l').
Proof.
  assert (forall l, misc_relates [] l l) as Hnil.
  { intros. repeat split. by apply Forall_true. }
  revert l. induction pairs as [|[k v] pairs IH]; intros l Hl; cbn [for_scalars scalars];
    [by apply mwp_ret|].
  destruct (_ || _)%bool; [by apply mwp_ret|].
  destruct (yaml_document_get_node doc k) as [[key| |]|]; try by apply mwp_ret.
  destruct (yaml_document_get_node doc v) as [[value| |]|]; try by apply mwp_ret.
  apply mwp_bind. eapply mwp_mono; [by apply misc_relates_step; [apply cstr_nonzero|]|].
  intros l1 ? [Hl1 H1]. eapply mwp_mono; [by apply IH|]. intros l2 ? [Hl2 H2].
  split; [done|]. by eapply misc_relates_cons.
Qed.

(** The variables after the section: a timeout for one kind of session comes
    before the common one, and only positive ones count. *)
Definition misc_values (kvs : list (list Z * list Z)) (s s' : MiscVars) : Prop :=
  let rw := number (-1) (last_value "read-write-timeout" kvs) in
  let tcp := number (-1) (last_value "tcp-read-write-timeout" kvs) in
  let udp := number (-1) (last_value "udp-read-write-timeout" kvs) in
  Forall (fun p => p.2 s' = number (p.2 s) (last_value p.1 kvs)) misc_numbers /\
  text (pid_file s) (pid_file s') (last_value "pid-file" kvs) /\
  text (log_file s) (log_file s') (last_value "log-file" kvs) /\
  log_level s' = level (log_level s) (last_value "log-level" kvs) /\
  tcp_read_write_timeout s' =
    (if Z.ltb 0 tcp then tcp else if Z.ltb 0 rw then rw else tcp_read_write_timeout s) /\
  udp_read_write_timeout s' =
    (if Z.ltb 0 udp then udp else if Z.ltb 0 rw then rw else udp_read_write_timeout s).

Lemma misc_timeouts_other (f : MiscVars -> Z) l :
  (forall z s, f (set_tcp_read_write_timeout z s) = f s) ->
  (forall z s, f (set_udp_read_write_timeout z s) = f s) -> f (misc_timeouts l) = f (l_misc l).
Proof. intros Ht Hu. unfold misc_timeouts. repeat case_match; by rewrite ?Hu, ?Ht. Qed.

Lemma parse_misc_values doc pairs s :
  misc_ok s ->
  mwp (hev_config_parse_misc long_bits doc (Some (YamlMapping pairs))) s (fun s' r =>
    misc_ok s' /\ r = 0 /\ misc_values (scalars doc pairs) s s').
Proof.
  intros Hs. unfold hev_config_parse_misc.
  destruct (misc_loop_ok doc pairs (mkMiscLocals s (-1) (-1) (-1))) as (l & [] & E & Hl & Hr).
  { split; [done|]. cbn. unfold int_ok. lia. }
  exists (misc_timeouts l), 0. rewrite E. split; [done|].
  split; [by apply misc_timeouts_ok|]. split; [done|].
  destruct Hr as (Hn & Hp & Hf & Hg & Ht & Hu). unfold misc_values.
  unfold misc_keys in Hn. apply Forall_app in Hn as [Hn Hk].
  rewrite !Forall_cons in Hk. destruct Hk as (Hrw & Htcp & Hudp & _). cbn in Hrw, Htcp, Hudp.
  rewrite <- Hrw, <- Htcp, <- Hudp. cbn in Ht, Hu, Hp, Hf, Hg.
  split; [|split; [|split; [|split; [|split]]]].
  - assert (Forall (fun p => p.2 (misc_timeouts l) = p.2 (l_misc l)) misc_numbers) as Hsame.
    { repeat constructor; by apply misc_timeouts_other. }
    rewrite Forall_fmap in Hn. rewrite Forall_forall in *. intros p Hp'.
    rewrite (Hsame p Hp'). by apply (Hn p).
  - replace (pid_file (misc_timeouts l)) with (pid_file (l_misc l)); [done|].
    unfold misc_timeouts. by repeat case_match.
  - replace (log_file (misc_timeouts l)) with (log_file (l_misc l)); [done|].
    unfold misc_timeouts. by repeat case_match.
  - by rewrite misc_timeouts_other.
  - unfold misc_timeouts. case_Z; cbn; lia.
  - unfold misc_timeouts. case_Z; cbn; lia.
Qed.
End misc.
