(* ===== verification/ConfigProps.v ===== *)
(** * The configuration's properties *)
From Stdlib Require Import String.
From S2P Require Import Prelude SearchTree CInt Effect SockIO Addr Config ConfigSpec ConfigParse.

Lemma config0_ok : cfg_ok config0.
Proof. unfold cfg_ok, tunnel_ok, socks5_ok, mapdns_ok, misc_ok, cvar, int_ok, flag_ok. by vm_compute; intuition congruence. Qed.

Section doc.
Context `{Pton} (long_bits : Z).

Lemma on_part_ok {T} (get : Config -> T) set (I : T -> Prop) valid (m : M T Z) c :
  I (get c) -> parses I valid m -> (forall t, I t -> cfg_ok (set t c)) ->
  mwp (on_part get set m) c (fun c' r => cfg_ok c' /\ r = if valid then 0 else -1).
Proof.
  intros Hc Hm Hset. destruct (Hm _ Hc) as (t & r & E & Ht & ->).
  exists (set t c). eexists. unfold on_part. rewrite E. split; [done|]. auto.
Qed.

Lemma parse_socks5_parses doc node :
  parses socks5_ok
    match node with Some (YamlMapping pairs) => socks5_valid (scalars doc pairs) | _ => false end
    (hev_config_parse_socks5 long_bits doc node).
Proof.
  destruct node as [[| |pairs]|]; try apply parses_fail. intros s Hs.
  eapply mwp_mono; [by apply parse_socks5_ok|]. intros s' r [Hs' Hr]. split; [done|].
  by destruct (socks5_valid _), Hr.
Qed.

Lemma parse_section_ok doc key node c :
  cfg_ok c ->
  mwp (parse_section long_bits doc key node) c
    (fun c' r => cfg_ok c' /\ r = if section_valid doc (key, node) then 0 else -1).
Proof.
  intros Hc. unfold parse_section, section_valid. cbn [fst snd].
  destruct (eqs key "tunnel") eqn:Et.
  { rewrite ?(fun s' Hne => eqs_other key _ s' Et Hne) by done.
    eapply mwp_mono; [eapply (on_part_ok _ _ tunnel_ok); [apply Hc|apply parse_tunnel_ok|]|].
    - intros t Ht. split; [done|apply Hc].
    - intros c' r [? ->]. split; [done|]. by destruct node as [[| |]|]. }
  destruct (eqs key "socks5") eqn:Es.
  { rewrite ?(fun s' Hne => eqs_other key _ s' Es Hne) by done.
    eapply mwp_mono; [eapply (on_part_ok _ _ socks5_ok); [apply Hc|apply parse_socks5_parses|]|].
    - intros t Ht. split; [apply Hc|]. split; [done|apply Hc].
    - intros c' r [? ->]. split; [done|]. by destruct node as [[| |]|]. }
  destruct (eqs key "mapdns") eqn:Em.
  { rewrite ?(fun s' Hne => eqs_other key _ s' Em Hne) by done.
    eapply mwp_mono; [eapply (on_part_ok _ _ mapdns_ok); [apply Hc|apply parse_mapdns_ok|]|].
    - intros t Ht. split; [apply Hc|]. split; [apply Hc|]. split; [done|apply Hc].
    - intros c' r [? ->]. split; [done|]. by destruct node as [[| |]|]. }
  destruct (eqs key "misc") eqn:Ei.
  { eapply mwp_mono; [eapply (on_part_ok _ _ misc_ok); [apply Hc|apply parse_misc_ok|]|].
    - intros t Ht. split; [apply Hc|]. split; [apply Hc|]. split; [apply Hc|done].
    - intros c' r [? ->]. split; [done|]. by destruct node as [[| |]|]. }
  apply mwp_ret. split; [done|]. by destruct node as [[| |]|].
Qed.

Lemma sections_loop_ok doc pairs c :
  cfg_ok c ->
  mwp (sections_loop long_bits doc pairs) c
    (fun c' ok => cfg_ok c' /\ ok = forallb (section_valid doc) (entries doc pairs)).
Proof.
  revert c. induction pairs as [|[k v] pairs IH]; intros c Hc; cbn [sections_loop entries];
    [by apply mwp_ret|].
  destruct (_ || _)%bool; [by apply mwp_ret|].
  destruct (yaml_document_get_node doc k) as [[key| |]|]; try by apply mwp_ret.
  apply mwp_bind. eapply mwp_mono; [by apply parse_section_ok|]. intros c' r [Hc' ->].
  cbn [forallb]. destruct (section_valid doc _); [by apply IH|by apply mwp_ret].
Qed.

Lemma int_of_some z : - 2 ^ 31 <= z < 2 ^ 31 -> int_of z = Some z.
Proof.
  intros Hz. unfold int_of. by rewrite (proj2 (Z.leb_le _ _)), (proj2 (Z.ltb_lt _ _)) by lia.
Qed.

Lemma int_of_none z : ~ (- 2 ^ 31 <= z < 2 ^ 31) -> int_of z = None.
Proof.
  intros Hz. unfold int_of. destruct (Z.leb_spec (- 2 ^ 31) z), (Z.ltb_spec z (2 ^ 31)); try done.
  lia.
Qed.

(** The sizes are adjusted unless they overflow. *)
Lemma fit_buffers_ok m :
  misc_ok m ->
  match fit_buffers m with
  | Some (m', _) => misc_ok m' /\ buffers_fit m'
  | None => sizes_overflow m
  end.
Proof.
  intros (? & ? & ? & ? & ? & ? & ? & ? & ? & ? & ? & ?).
  unfold fit_buffers, sizes_overflow, buffers_fit, TCP_SND_BUF, UDP_BUF_SIZE, TASK_STACK_SIZE,
    int_ok in *. unfold mbind, M_bind, mget, store, mput, mlift, mret, M_ret.
  set (t := if Z.ltb (8 * 8191) (tcp_buffer_size m) then _ else _).
  assert (t = (fun s => Some ((if Z.ltb (8 * 8191) (tcp_buffer_size m)
    then set_tcp_buffer_size (8 * 8191) s else s), ()))) as ->.
  { unfold t. by destruct (Z.ltb _ _). }
  set (m1 := if Z.ltb (8 * 8191) (tcp_buffer_size m) then _ else m).
  assert (cfg_udp_copy_buffer_nums m1 = cfg_udp_copy_buffer_nums m) as Hn
    by (unfold m1; by destruct (Z.ltb _ _)).
  assert (tcp_buffer_size m1 = Z.min (tcp_buffer_size m) (8 * 8191)) as Ht
    by (unfold m1; case_Z; cbn; lia).
  assert (misc_ok m1) as Hm1.
  { unfold m1, misc_ok, int_ok. case_Z; cbn; repeat match goal with |- _ /\ _ => split end;
      try assumption; lia. }
  clearbody m1. rewrite Hn. unfold misc_ok, int_ok in Hm1.
  destruct (decide (- 2 ^ 31 <= 1500 * cfg_udp_copy_buffer_nums m < 2 ^ 31)) as [Hu|Hu];
    [rewrite (int_of_some _ Hu)|rewrite (int_of_none _ Hu); lia].
  set (sz := if Z.ltb _ (tcp_buffer_size m1) then _ else _).
  assert (sz = Z.max (tcp_buffer_size m1) (1500 * cfg_udp_copy_buffer_nums m)) as ->
    by (unfold sz; case_Z).
  destruct (decide (- 2 ^ 31 <= 20480 + Z.max (tcp_buffer_size m1) (1500 * cfg_udp_copy_buffer_nums m)
    < 2 ^ 31)) as [Hs|Hs]; [rewrite (int_of_some _ Hs)|rewrite (int_of_none _ Hs); lia].
  destruct Hm1 as (? & ? & ? & ? & ? & ? & ? & ? & ? & ? & ? & ?).
  unfold misc_ok, int_ok. case_Z; cbv beta iota; split.
  - cbn. repeat match goal with |- _ /\ _ => split end; try assumption; lia.
  - split; [cbn; lia|]. cbn [set_cfg_task_stack_size tcp_buffer_size cfg_udp_copy_buffer_nums
      cfg_task_stack_size]. lia.
  - tauto.
  - lia.
Qed.

(** The document's result, and what remains when it overflows. *)
Lemma parse_doc_ok doc c :
  cfg_ok c ->
  match hev_config_parse_doc long_bits doc c with
  | Some (c', r) =>
      cfg_ok c' /\ r = (if doc_valid doc then 0 else -1) /\ (r = 0 -> buffers_fit (c_misc c'))
  | None => doc_valid doc = true /\ exists pairs c1,
      yaml_document_get_root_node doc = Some (YamlMapping pairs) /\
      sections_loop long_bits doc pairs c = Some (c1, true) /\ cfg_ok c1 /\
      sizes_overflow (c_misc c1)
  end.
Proof.
  intros Hc. unfold hev_config_parse_doc, doc_valid.
  destruct (yaml_document_get_root_node doc) as [[| |pairs]|] eqn:Er; try by cbn.
  destruct (sections_loop_ok doc pairs c Hc) as (c1 & ok & E & Hc1 & Hok).
  unfold mbind, M_bind. rewrite E, <- Hok. destruct ok; cbn [negb]; [|by cbn].
  unfold on_part. pose proof (fit_buffers_ok (c_misc c1) (proj2 (proj2 (proj2 Hc1)))) as Hf.
  destruct (fit_buffers (c_misc c1)) as [[m' u]|]; cbn.
  - destruct Hf as [Hm Hb]. split; [|done].
    split; [apply Hc1|]. split; [apply Hc1|]. split; [apply Hc1|done].
  - split; [done|]. by exists pairs, c1.
Qed.

(** Every getter of a string returns. *)
Definition strings_readable (c : Config) : Prop :=
  is_Some (hev_config_get_tunnel_name c) /\ is_Some (hev_config_get_tunnel_ipv4_address c) /\
  is_Some (hev_config_get_tunnel_ipv6_address c) /\
  is_Some (hev_config_get_tunnel_post_up_script c) /\
  is_Some (hev_config_get_tunnel_pre_down_script c) /\
  is_Some (hev_config_get_misc_pid_file c) /\ is_Some (hev_config_get_misc_log_file c).

Lemma cfg_ok_readable c : cfg_ok c -> strings_readable c.
Proof.
  intros ((? & ? & ? & ? & ? & ? & ?) & _ & _ & Hm).
  destruct Hm as (Hlog & Hpid & _).
  unfold strings_readable. repeat match goal with |- _ /\ _ => split end;
    try by (eapply get_string_ok; eassumption).
  unfold hev_config_get_misc_log_file. by destruct (get_string_ok _ _ _ Hlog) as [o ->].
Qed.

(** C32: The variables stay well formed under every document: each array keeps
    its size and a terminating zero within the bytes that are copied, each
    number stays in its type, so every getter reads inside its array; and after
    a success the buffers fit the socket's and the task's stack. The only
    document that makes the parser misbehave has buffer counts whose product
    overflows an [int]. *)
Theorem config_wellformed initialized opened loaded c :
  cfg_ok c ->
  match hev_config_init_from_file long_bits initialized opened loaded c with
  | Some (c', r) =>
      cfg_ok c' /\ strings_readable c' /\ (r = 0 \/ r = -1) /\ (r = 0 -> buffers_fit (c_misc c'))
  | None => exists doc pairs c1, loaded = Some doc /\
      yaml_document_get_root_node doc = Some (YamlMapping pairs) /\
      sections_loop long_bits doc pairs c = Some (c1, true) /\ cfg_ok c1 /\
      sizes_overflow (c_misc c1)
  end.
Proof.
  intros Hc. pose proof (cfg_ok_readable c Hc). unfold hev_config_init_from_file.
  assert (forall c' : Config, c' = c -> cfg_ok c' /\ strings_readable c' /\ (-1 = 0 \/ -1 = -1) /\
    (-1 = 0 -> buffers_fit (c_misc c'))) as Hrefused by (intros ? ->; split_and!; [done|done|by right|done]).
  destruct initialized; cbn [negb]; [|by apply Hrefused].
  destruct opened; cbn [negb]; [|by apply Hrefused].
  destruct loaded as [doc|]; [|by apply Hrefused].
  pose proof (parse_doc_ok doc c Hc) as Hd.
  destruct (hev_config_parse_doc long_bits doc c) as [[c' r]|].
  - destruct Hd as (Hc' & -> & Hb). split; [done|]. split; [by apply cfg_ok_readable|].
    split; [|done]. destruct (doc_valid doc); auto.
  - destruct Hd as (_ & pairs & c1 & ?). by exists doc, pairs, c1.
Qed.

(** C33: A configuration is refused exactly when the parser cannot be set up,
    the file cannot be opened, the text is no document, or the document is
    invalid: its root must be a mapping and each of its four sections, up to
    the first key that is no scalar, a mapping; the proxy's one with a port, an
    address and either both or none of a user name and a password. Both ways to
    load it agree. *)
Theorem config_errors_exact initialized opened loaded c :
  cfg_ok c ->
  let ok := (initialized && opened && match loaded with Some doc => doc_valid doc | None => false end)%bool in
  match hev_config_init_from_file long_bits initialized opened loaded c with
  | Some (_, r) => r = (if ok then 0 else -1)
  | None => ok = true
  end /\
  hev_config_init_from_str long_bits initialized loaded c =
    hev_config_init_from_file long_bits initialized true loaded c.
Proof.
  intros Hc ok. split; [|done]. unfold ok, hev_config_init_from_file.
  destruct initialized; cbn [negb andb]; [|done]. destruct opened; cbn [negb]; [|done].
  destruct loaded as [doc|]; [|done]. pose proof (parse_doc_ok doc c Hc) as Hd.
  destruct (hev_config_parse_doc long_bits doc c) as [[c' r]|]; apply Hd.
Qed.

(** In the proxy's section and in the one of the timeouts and limits the
    last value of each key counts: strings are cut to their array, numbers are
    those of strtoul at the width of their variable, a timeout for one kind of
    session comes before the common one and only positive ones count, and a
    variable without a value keeps the one it had. An invalid proxy's section
    changes nothing. *)
Theorem config_last_wins doc pairs socks5 misc :
  socks5_ok socks5 -> misc_ok misc ->
  let kvs := scalars doc pairs in
  let base := Some (YamlMapping pairs) in
  mwp (hev_config_parse_socks5 long_bits doc base) socks5 (fun socks5' r =>
    if socks5_valid kvs then r = 0 /\ socks5_values long_bits kvs socks5 socks5'
    else r = -1 /\ socks5' = socks5) /\
  mwp (hev_config_parse_misc long_bits doc base) misc (fun misc' r =>
    r = 0 /\ misc_values long_bits kvs misc misc').
Proof.
  intros Hs Hm. cbv zeta. split.
  - eapply mwp_mono; [by apply parse_socks5_ok|]. intros s' r Hr. apply Hr.
  - eapply mwp_mono; [by apply parse_misc_values|]. intros s' r Hr. apply Hr.
Qed.
End doc.

(** ** Witnesses *)

(** A document as the YAML library makes it of

      socks5: {port: 1080, address: ::1, port: 1081, udp: UDP}
      misc: {read-write-timeout: 5000, tcp-buffer-size: 70000} *)
Definition sample : yaml_document :=
  [YamlMapping [(2, 3); (12, 13)];
   YamlScalar (str "socks5"); YamlMapping [(4, 5); (6, 7); (8, 9); (10, 11)];
   YamlScalar (str "port"); YamlScalar (str "1080");
   YamlScalar (str "address"); YamlScalar (str "::1");
   YamlScalar (str "port"); YamlScalar (str "1081");
   YamlScalar (str "udp"); YamlScalar (str "UDP");
   YamlScalar (str "misc"); YamlMapping [(14, 15); (16, 17)];
   YamlScalar (str "read-write-timeout"); YamlScalar (str "5000");
   YamlScalar (str "tcp-buffer-size"); YamlScalar (str "70000")].

Definition dotted_pton : Pton.
Proof.
  refine {| inet_pton4 := fun s => if bool_decide (s = str "1.2.3.4") then Some [1; 2; 3; 4] else None;
            inet_pton6 := fun _ => None |}; [|done].
  intros s a. case_bool_decide; by intros [= <-].
Defined.

(** What the sample leaves. *)
Definition sample_result : option (Z * Z * Z * Z * Z * option (option (list Z))) :=
  '(c, r) ← @hev_config_init_from_file dotted_pton 64 true true (Some sample) config0;
  Some (r, srv_port (srv (hev_config_get_socks5_server c)),
    hev_config_get_misc_tcp_buffer_size c, hev_config_get_misc_task_stack_size c,
    hev_config_get_misc_tcp_read_write_timeout c, hev_config_get_tunnel_name c).

Lemma config_wellformed_witness :
  sample_result = Some (0, 1081, 65528, 86016, 5000, Some None) /\
  match @hev_config_init_from_file dotted_pton 64 true true (Some sample) config0 with
  | Some (c', r) =>
      cfg_ok c' /\ strings_readable c' /\ (r = 0 \/ r = -1) /\ (r = 0 -> buffers_fit (c_misc c'))
  | None => exists doc pairs c1, Some sample = Some doc /\
      yaml_document_get_root_node doc = Some (YamlMapping pairs) /\
      @sections_loop dotted_pton 64 doc pairs config0 = Some (c1, true) /\ cfg_ok c1 /\
      sizes_overflow (c_misc c1)
  end.
Proof.
  split; [by vm_compute|].
  apply (@config_wellformed dotted_pton 64 true true (Some sample) config0 config0_ok).
Defined.

Lemma config_errors_exact_witness :
  doc_valid sample = true /\ doc_valid (take 5 sample) = false /\
  match @hev_config_init_from_file dotted_pton 64 true true (Some (take 5 sample)) config0 with
  | Some (_, r) => r = -1
  | None => false = true
  end.
Proof.
  split; [by vm_compute|]. split; [by vm_compute|].
  apply (@config_errors_exact dotted_pton 64 true true (Some (take 5 sample)) config0 config0_ok).
Defined.

Lemma config_last_wins_witness :
  mwp (hev_config_parse_socks5 64 sample (Some (YamlMapping [(4, 5); (6, 7); (8, 9); (10, 11)])))
    (c_socks5 config0) (fun s' r => r = 0 /\ srv_port (srv s') = 1081).
Proof.
  destruct (config_last_wins 64 sample [(4, 5); (6, 7); (8, 9); (10, 11)]
    (c_socks5 config0) (c_misc config0)
    (proj1 (proj2 config0_ok)) (proj2 (proj2 (proj2 config0_ok)))) as [H _].
  eapply mwp_mono; [exact H|]. intros s' r Hr.
  assert (socks5_valid (scalars sample [(4, 5); (6, 7); (8, 9); (10, 11)]) = true) as E
    by by vm_compute.
  cbv zeta in Hr. rewrite E in Hr. destruct Hr as [Hr Hv]. split; [exact Hr|].
  rewrite (proj1 (proj2 Hv) (str "1081")); by vm_compute.
Defined.
