(* ===== verification/SessionUDP.v ===== *)
(** * The UDP session (hev-socks5-session-udp.c)

    lwIP's callback queues the application's datagrams in frames; the session's
    task sends them to the proxy and hands the proxy's datagrams to lwIP.  The
    callback runs whenever the task waits, so the state after a wait is that of
    a script of events.  No task waits while it holds the mutex, so the mutex is
    free whenever it is asked for. *)
From S2P Require Import Prelude CInt List Effect SockIO Addr Socks5 UDP.

Definition UDP_POOL_SIZE : Z := 512.
Definition ERR_OK : Z := 0.

(** ** State *)

(** A packet buffer: its identity, and the payloads of its chain. *)
Record pbuf := mkPbuf { pb_id : Z; pb_chain : list (list Z) }.
Definition payload (p : pbuf) : list Z := List.hd [] (pb_chain p).

(** The node of a frame is its first field, so both have the same address. *)
Record HevSocks5UDPFrame := mkFrame { f_addr : HevSocks5Addr; f_data : pbuf }.

(** The source of a datagram for the application; the type of the address is not
    set when it is the mapped one. *)
Inductive lwip_src := SrcMapped (addr port : Z) | SrcIp (ip : ip_addr_t) (port : Z).

(** What lwIP and the tunnel have seen: the buffers handed over and given back,
    the datagrams sent to the application, the calls that mark the session as
    recently used. *)
Record UNet := mkUNet {
  n_received : list Z;
  n_freed : list Z;
  n_to_app : list (lwip_src * list Z);
  n_updates : nat;
}.

Record HevSocks5SessionUDP := mkSess {
  s_base : HevSocks5UDP;
  frame_list : HevList;
  frame_mem : gmap Z HevSocks5UDPFrame;
  su_frames : Z;
  su_addr : Z;
  su_port : Z;
  su_pcb : bool;
  su_net : UNet;
}.

Definition set_sbase b s := mkSess b (frame_list s) (frame_mem s) (su_frames s) (su_addr s)
  (su_port s) (su_pcb s) (su_net s).
Definition set_list l m n s := mkSess (s_base s) l m n (su_addr s) (su_port s) (su_pcb s) (su_net s).
Definition set_mapped a p s := mkSess (s_base s) (frame_list s) (frame_mem s) (su_frames s) a p
  (su_pcb s) (su_net s).
Definition set_supcb b s := mkSess (s_base s) (frame_list s) (frame_mem s) (su_frames s)
  (su_addr s) (su_port s) b (su_net s).
Definition map_net f s := mkSess (s_base s) (frame_list s) (frame_mem s) (su_frames s) (su_addr s)
  (su_port s) (su_pcb s) (f (su_net s)).

Definition net_got p n := mkUNet (n_received n ++ [pb_id p]) (n_freed n) (n_to_app n) (n_updates n).
Definition net_free p n := mkUNet (n_received n) (n_freed n ++ [pb_id p]) (n_to_app n) (n_updates n).
Definition net_app x n := mkUNet (n_received n) (n_freed n) (n_to_app n ++ [x]) (n_updates n).
Definition net_update n := mkUNet (n_received n) (n_freed n) (n_to_app n) (Datatypes.S (n_updates n)).

Definition pbuf_free (p : pbuf) := map_net (net_free p).

Abbreviation MS := (M (HevSocks5SessionUDP * World)).

(** A computation of the base object. *)
Definition on_udp {A} (m : MU A) : MS A := fun '(x, w) =>
  match m (s_base x, w) with
  | Some ((b, w), a) => Some ((set_sbase b x, w), a)
  | None => None
  end.

(** The allocator of frames: an address that is not in use. *)
Class FrameAlloc := {
  fresh_frame : gmap Z HevSocks5UDPFrame -> Z;
  fresh_frame_nonzero : forall m, fresh_frame m <> 0;
  fresh_frame_new : forall m, m !! fresh_frame m = None;
}.

Definition hev_socks5_session_terminate (s : HevSocks5SessionUDP) : HevSocks5SessionUDP :=
  set_sbase (map_ubase (hev_socks5_set_timeout 0) (s_base s)) s.

(** ** The callback *)

(** A call of the callback: with NULL, or with a buffer while the connection's
    local address is [ip] and [port]; whether memory is short, what the
    allocated memory holds, and the name that the mapped DNS has for [ip]. *)
Inductive udp_event :=
| UdpNull
| UdpRecv (p : pbuf) (ip : ip_addr_t) (port : Z) (nomem : bool) (garbage : list Z)
    (name : option (list Z)).

Definition ip_2_ip4 (ip : ip_addr_t) : Z :=
  match ip with IpV4 a => i32 (le32 a) | IpV6 a => i32 (le32 (take 4 a)) | IpAny => 0 end.

Section session.
Context `{FrameAlloc}.

Definition udp_recv_handler (e : udp_event) (self : HevSocks5SessionUDP)
  : option HevSocks5SessionUDP :=
  match e with
  | UdpNull => Some (hev_socks5_session_terminate self)
  | UdpRecv p ip port nomem garbage name =>
      let self := map_net (net_got p) self in
      if Z.ltb UDP_POOL_SIZE (su_frames self) then Some (pbuf_free p self) else
      let frame := if nomem then 0 else fresh_frame (frame_mem self) in
      if Z.eqb frame 0 then Some (pbuf_free p self) else
      '(_, (addr, _)) ← hev_socks5_addr_from_lwip (fun _ => mret name : M () _) garbage ip port ();
      atype ← rd8 addr off_atype;
      let self := if Z.eqb atype HEV_SOCKS5_ADDR_TYPE_NAME
                  then set_mapped (ip_2_ip4 ip) port self else self in
      let l := frame_list self in
      l ← hev_list_add_tail
        (mkList (l_head l) (l_tail l) (<[frame := mkListNode 0 0]> (lcells l))) frame;
      Some (set_list l (<[frame := mkFrame addr p]> (frame_mem self)) (su_frames self + 1) self)
  end.

Fixpoint udp_handles (evs : list udp_event) (self : HevSocks5SessionUDP)
  : option HevSocks5SessionUDP :=
  match evs with [] => Some self | e :: evs => self ← udp_recv_handler e self; udp_handles evs self end.

(** The task waits. *)
Definition wait (evs : list udp_event) : MS () :=
  self ← get_self; self ← mem (udp_handles evs self); set_self self.

(** ** From the application to the proxy *)

(** The messages of the first [n] frames. *)
Fixpoint fwd_f_collect (n : nat) (node : Z) (self : HevSocks5SessionUDP)
  : option (list HevSocks5UDPMsg) :=
  match n with
  | O => Some []
  | Datatypes.S n =>
      frame ← frame_mem self !! node;
      next ← hev_list_node_next (frame_list self) node;
      let buf := payload (f_data frame) in
      r ← fwd_f_collect n next self;
      Some (mkMsg (PtrTo (f_addr frame)) buf (Z.of_nat (length buf)) :: r)
  end.

(** A frame's memory is given back. *)
Definition hev_free (frame : Z) (l : HevList) : HevList :=
  mkList (l_head l) (l_tail l) (delete frame (lcells l)).

Fixpoint fwd_f_release (n : nat) (self : HevSocks5SessionUDP) : option HevSocks5SessionUDP :=
  match n with
  | O => Some self
  | Datatypes.S n =>
      let node := hev_list_first (frame_list self) in
      frame ← frame_mem self !! node;
      l ← hev_list_del (frame_list self) node;
      fwd_f_release n (pbuf_free (f_data frame)
        (set_list (hev_free node l) (delete node (frame_mem self)) (su_frames self - 1) self))
  end.

Definition hev_socks5_session_udp_fwd_f (num : Z) (evs : list udp_event) : MS Z :=
  self ← get_self;
  let res := su_frames self in
  if Z.leb res 0 then mret 0 else
  let res := if Z.ltb num res then num else res in
  msgv ← mem (fwd_f_collect (Z.to_nat res) (hev_list_first (frame_list self)) self);
  res ← on_udp (hev_socks5_udp_sendmmsg msgv);
  _ ← wait evs;
  if Z.leb res 0 then mret (-1) else
  self ← get_self;
  self ← mem (fwd_f_release (Z.to_nat res) self);
  _ ← set_self self;
  mret 1.

(** ** From the proxy to the application *)

Context `{Kernel} `{Pton}.

Definition source (self : HevSocks5SessionUDP) (m : HevSocks5UDPMsg) : option (option lwip_src) :=
  if (negb (Z.eqb (su_addr self) 0) && negb (Z.eqb (su_port self) 0))%bool
  then Some (Some (SrcMapped (su_addr self) (su_port self)))
  else a ← addr_of m; o ← hev_socks5_addr_into_lwip a; Some ('(ip, port) ← o; Some (SrcIp ip port)).

(** [outs]: for each message whether lwIP has a buffer, and the result of
    [udp_sendfrom]. *)
Fixpoint fwd_b_msgs (n : nat) (msgv : list HevSocks5UDPMsg) (outs : list (bool * Z)) : MS Z :=
  match n with
  | O => mret 1
  | Datatypes.S n =>
      m ← mem (head msgv : option HevSocks5UDPMsg);
      self ← get_self;
      src ← mem (source self m);
      match src with
      | None => mret (-1)
      | Some src =>
          let '(b, err) := List.hd (true, ERR_OK) outs in
          if negb b then mret (-1) else
          data ← mem (rdn (m_buf m) 0 (m_len m));
          _ ← (if Z.eqb err ERR_OK then set_self (map_net (net_app (src, data)) self)
               else mret ());
          if negb (Z.eqb err ERR_OK) then mret (-1) else fwd_b_msgs n (tail msgv) (tail outs)
      end
  end.

Definition hev_socks5_session_udp_fwd_b (bufs : list (list Z)) (evs : list udp_event)
    (outs : list (bool * Z)) : MS Z :=
  '(res, msgv) ← on_udp (hev_socks5_udp_recvmmsg true
    (map (fun b => mkMsg PtrUnset b UDP_BUF_SIZE) bufs));
  _ ← wait evs;
  if Z.leb res 0 then
    self ← get_self;
    mret (if (Z.eqb res (-1) && Z.eqb (errno (s_base self)) EAGAIN)%bool then 0 else -1)
  else fwd_b_msgs (Z.to_nat res) msgv outs.

(** ** The splice loop *)

(** [slept]: what is left of the timeout after the wait. *)
Definition session_task_io_yielder (type slept : Z) (evs : list udp_event) : MS Z :=
  stop ← on_udp control_ended;
  if (stop : bool) then mret (-1) else
  self ← get_self;
  _ ← wait evs;
  let res := hev_socks5_task_io_yielder (u_base (s_base self)) type slept in
  self ← get_self;
  _ ← set_self (map_net net_update self);
  mret res.

(** The events while the datagrams are sent, received and while the task sleeps. *)
Record uturn := mkUTurn {
  t_send : list udp_event;
  t_receive : list udp_event;
  t_outs : list (bool * Z);
  t_sleep : list udp_event;
  t_slept : Z;
}.

(** [false]: still running when the turns are used up. *)
Fixpoint udp_splice_loop (ts : list uturn) (bufs : list (list Z)) (res_f res_b : Z) : MS bool :=
  match ts with
  | [] => mret false
  | t :: ts =>
      res_f ← (if Z.leb 0 res_f
               then hev_socks5_session_udp_fwd_f (Z.of_nat (length bufs)) (t_send t)
               else mret res_f);
      res_b ← (if Z.leb 0 res_b
               then hev_socks5_session_udp_fwd_b bufs (t_receive t) (t_outs t)
               else mret res_b);
      if (negb (Z.ltb 0 res_f || Z.ltb 0 res_b) && negb (Z.eqb (Z.land res_f res_b) 0))%bool
      then mret true else
      let type := if (Z.ltb 0 res_f || Z.ltb 0 res_b)%bool then HEV_TASK_YIELD
                  else HEV_TASK_WAITIO in
      r ← session_task_io_yielder type (t_slept t) (t_sleep t);
      if negb (Z.eqb r 0) then mret true else udp_splice_loop ts bufs res_f res_b
  end.

Definition hev_socks5_session_udp_splice (ts : list uturn) (bufs : list (list Z)) : MS bool :=
  self ← get_self;
  let fd := u_fd (s_base self) in
  res ← sys (CTaskModFd fd);
  _ ← (if Z.ltb res 0 then sys_ (CTaskAddFd fd) else mret ());
  udp_splice_loop ts bufs 1 1.

(** ** Construction and destruction *)

Definition hev_socks5_session_udp_construct (udp_in_udp : Z) (self : HevSocks5SessionUDP)
  : HevSocks5SessionUDP :=
  let type := if negb (Z.eqb udp_in_udp 0) then HEV_SOCKS5_TYPE_UDP_IN_UDP
              else HEV_SOCKS5_TYPE_UDP_IN_TCP in
  set_supcb true (set_sbase (map_ubase (fun _ => hev_socks5_construct type) (s_base self)) self).

(** Zeroed memory. *)
Definition hev_socks5_session_udp_new (udp_in_udp : Z) (zeroed : HevSocks5UDP)
  : HevSocks5SessionUDP :=
  hev_socks5_session_udp_construct udp_in_udp
    (mkSess zeroed (mkList 0 0 ∅) ∅ 0 0 0 false (mkUNet [] [] [] 0)).

Fixpoint destruct_loop (fuel : nat) (node : Z) (self : HevSocks5SessionUDP)
  : option HevSocks5SessionUDP :=
  if Z.eqb node 0 then Some self else
  match fuel with
  | O => None
  | Datatypes.S fuel =>
      frame ← frame_mem self !! node;
      next ← hev_list_node_next (frame_list self) node;
      destruct_loop fuel next (pbuf_free (f_data frame)
        (set_list (hev_free node (frame_list self)) (delete node (frame_mem self))
           (su_frames self) self))
  end.

(** The connection is removed with its callback; [base_destruct]: the
    destructor of the UDP client. *)
Definition hev_socks5_session_udp_destruct (base_destruct : MU ()) : MS () :=
  self ← get_self;
  self ← mem (destruct_loop (size (frame_mem self)) (hev_list_first (frame_list self)) self);
  _ ← set_self (if su_pcb self then set_supcb false self else self);
  on_udp base_destruct.

End session.
