(* ===== verification/SessionUDPSpec.v ===== *)
(** * What the UDP session's queue holds: lemmas

    The intrusive list and the memory of its frames represent a queue of packet
    buffers with their destinations; every buffer that was handed over is either
    in the queue or was given back once. *)
From S2P Require Import Prelude List CInt Effect SockIO Addr AddrSpec AddrProps Socks5 UDP UDPSpec UDPSafe SessionUDP.

(** ** Abstract queue *)

Abbreviation entry := (pbuf * Dest)%type.

Definition entry_datagram (x : entry) : datagram := (x.2, payload x.1).

Definition frame_is (f : HevSocks5UDPFrame) (x : entry) : Prop :=
  f_data f = x.1 /\ addr_is (f_addr f) x.2 /\ dest_ok x.2.

Definition represents (s : HevSocks5SessionUDP) (q : list entry) : Prop :=
  exists ids, dll (frame_list s) ids /\
    Forall2 (fun i x => exists f, frame_mem s !! i = Some f /\ frame_is f x) ids q /\
    dom (frame_mem s) = list_to_set ids /\
    su_frames s = Z.of_nat (length q) /\ Z.of_nat (length q) <= UDP_POOL_SIZE + 1 /\
    n_received (su_net s) ≡ₚ map (fun x : entry => pb_id x.1) q ++ n_freed (su_net s).

(** The destination that an event's buffer gets. *)
Definition event_dest (ip : ip_addr_t) (port : Z) (name : option (list Z)) : Dest :=
  match ip, name with IpV4 _, Some n => DName n port | _, _ => ip_dest ip port end.

Definition event_ok (e : udp_event) : Prop :=
  match e with
  | UdpNull => True
  | UdpRecv p ip port nomem garbage name =>
      Z.of_nat (length garbage) = sizeof_addr /\ ip_ok ip /\ dest_ok (event_dest ip port name)
  end.

(** The queue after an event: full, or without memory, it drops the buffer. *)
Definition queue_event (q : list entry) (e : udp_event) : list entry :=
  match e with
  | UdpNull => q
  | UdpRecv p ip port nomem _ name =>
      if (Z.ltb UDP_POOL_SIZE (Z.of_nat (length q)) || nomem)%bool then q
      else q ++ [(p, event_dest ip port name)]
  end.

Definition queue_events (evs : list udp_event) (q : list entry) : list entry :=
  foldl queue_event q evs.

Lemma queue_event_prefix q e : exists r, queue_event q e = q ++ r.
Proof.
  destruct e as [|p ip port nomem g name]; simpl; [exists []; by rewrite app_nil_r|].
  destruct (_ || _)%bool; [exists []; by rewrite app_nil_r|by eexists].
Qed.

Lemma queue_events_prefix evs q : exists r, queue_events evs q = q ++ r.
Proof.
  revert q. induction evs as [|e evs IH]; intros q; [exists []; by rewrite app_nil_r|].
  destruct (queue_event_prefix q e) as [r Hr]. destruct (IH (queue_event q e)) as [r' Hr'].
  exists (r ++ r'). cbn [queue_events foldl]. unfold queue_events in Hr'. by rewrite Hr', Hr, <- app_assoc.
Qed.

(** ** The list *)

Lemma node_next_ok L xs x ys : dll L (xs ++ x :: ys) ->
  hev_list_node_next L x = Some (hd_or 0 ys).
Proof.
  intros (_ & _ & Hs & _). apply seg_app in Hs as [_ Hs]. simpl in Hs.
  destruct Hs as (_ & Hc & _). unfold hev_list_node_next. by rewrite Hc.
Qed.

Lemma dll_frame L L' xs : dll L xs -> l_head L' = l_head L -> l_tail L' = l_tail L ->
  (forall a, a ∈ xs -> lcells L' !! a = lcells L !! a) -> dll L' xs.
Proof.
  intros (Hh & Ht & Hs & Hu) Eh Et Hc. split; [congruence|]. split; [congruence|].
  split; [by eapply seg_frame|done].
Qed.

Lemma dll_free L xs x : dll L xs -> x ∉ xs -> dll (hev_free x L) xs.
Proof.
  intros Hd Hx. eapply dll_frame; [done|done|done|]. intros a Ha. simpl.
  apply lookup_delete_ne. congruence.
Qed.

Lemma Forall2_impl_in {A B} (P Q : A -> B -> Prop) l k :
  Forall2 P l k -> (forall x y, x ∈ l -> P x y -> Q x y) -> Forall2 Q l k.
Proof.
  intros HP. induction HP as [|x y l k Hxy HP IH]; intros HQ; constructor.
  - apply HQ; [by left|done].
  - apply IH. intros. apply HQ; [by right|done].
Qed.

(** ** The parts that the queue does not depend on *)

Definition same_queue (s s' : HevSocks5SessionUDP) : Prop :=
  frame_list s' = frame_list s /\ frame_mem s' = frame_mem s /\ su_frames s' = su_frames s /\
  n_received (su_net s') = n_received (su_net s) /\ n_freed (su_net s') = n_freed (su_net s).

Lemma represents_same s s' q : same_queue s s' -> represents s q -> represents s' q.
Proof.
  intros (El & Em & Ef & Er & Efr) (ids & Hd & Hf & Hdom & Hn & Hle & Hp). exists ids.
  rewrite El, Em, Ef, Er, Efr. done.
Qed.

(** What the callback leaves alone. *)
Definition same_work (s s' : HevSocks5SessionUDP) : Prop :=
  n_to_app (su_net s') = n_to_app (su_net s) /\ n_updates (su_net s') = n_updates (su_net s) /\
  u_a (s_base s') = u_a (s_base s) /\ u_b (s_base s') = u_b (s_base s) /\
  u_fd (s_base s') = u_fd (s_base s) /\ errno (s_base s') = errno (s_base s) /\
  stype (u_base (s_base s')) = stype (u_base (s_base s)) /\ su_pcb s' = su_pcb s.

#[export] Instance same_work_preorder : PreOrder same_work.
Proof.
  split; [by intros s|]. unfold same_work. intros s1 s2 s3 H1 H2. intuition congruence.
Qed.

(** ** The callback *)

Section handler.
Context `{FrameAlloc}.

Lemma event_addr ip port name garbage :
  Z.of_nat (length garbage) = sizeof_addr -> ip_ok ip -> dest_ok (event_dest ip port name) ->
  mwp (hev_socks5_addr_from_lwip (fun _ => mret name : M () _) garbage ip port) ()
    (fun _ '(addr, _) => addr_is addr (event_dest ip port name)).
Proof.
  intros Hg Hip Hd. unfold sizeof_addr in Hg.
  destruct ip as [a|a|]; [| |done]; unfold hev_socks5_addr_from_lwip.
  - mstep. mstep. destruct name as [n|].
    + destruct Hd as (Hn & _ & Hnz & Hp).
      destruct (addr_from_name_ok garbage n port Hg Hn Hnz Hp) as [r E].
      mstep. eapply mwp_lift; [exact E|]. cbv beta iota. mstep. by exists r.
    + destruct Hd as (Ha & _ & Hp). mstep.
      eapply mwp_lift; [by apply addr_from_ipv4_ok; [lia|..]|]. cbv beta iota. mstep. by eexists.
  - destruct Hd as (Ha & _ & Hp). mstep.
    eapply mwp_lift; [by apply addr_from_ipv6_ok; [lia|..]|]. cbv beta iota. mstep. by eexists.
Qed.

(** A buffer that is dropped is given back. *)
Lemma represents_drop p s q :
  represents s q -> represents (pbuf_free p (map_net (net_got p) s)) q.
Proof.
  intros (ids & Hd & Hf & Hdom & Hn & Hle & Hp). exists ids.
  unfold pbuf_free, map_net, net_free, net_got in *. cbn in *. split_and!; try done.
  rewrite Hp. by rewrite app_assoc.
Qed.

Lemma wire_type d r : dest_ok d -> exists t, rd8 (wire d ++ r) off_atype = Some t /\
  (t = HEV_SOCKS5_ADDR_TYPE_NAME <-> exists n p, d = DName n p).
Proof.
  intros Hd. destruct d as [a p|a p|n p]; (eexists; split; [done|]); split; try done;
    try (by intros (? & ? & ?)); by eauto.
Qed.

Lemma handler_ok s q e :
  represents s q -> event_ok e ->
  wp (udp_recv_handler e s) (fun s' => represents s' (queue_event q e) /\ same_work s s').
Proof.
  intros Hr He. destruct e as [|p ip port nomem garbage name].
  { apply wp_ret. split; [|done]. by eapply represents_same. }
  pose proof Hr as (ids & Hd & Hf & Hdom & Hn & Hle & Hp). cbn [udp_recv_handler queue_event].
  cbv zeta. cbn [su_frames map_net]. rewrite Hn.
  destruct (Z.ltb_spec UDP_POOL_SIZE (Z.of_nat (length q))) as [Hfull|Hroom]; cbn [orb].
  { apply wp_ret. split; [by apply represents_drop|done]. }
  destruct nomem; [apply wp_ret; split; [by apply represents_drop|done]|].
  cbv iota. change (frame_mem (map_net (net_got p) s)) with (frame_mem s). set (fr := fresh_frame (frame_mem s)).
  pose proof (fresh_frame_nonzero (frame_mem s)) as Hnz. fold fr in Hnz.
  pose proof (fresh_frame_new (frame_mem s)) as Hnew. fold fr in Hnew.
  rewrite (proj2 (Z.eqb_neq _ _) Hnz). destruct He as (Hg & Hip & Hdest).
  destruct (event_addr ip port name garbage Hg Hip Hdest) as ([] & [addr res] & E & Haddr).
  unfold mwp in E. rewrite E. cbn [mbind option_bind].
  pose proof Haddr as [r ->].
  destruct (wire_type (event_dest ip port name) r Hdest) as (t & Et & _). rewrite Et.
  cbn [mbind option_bind].
  set (s1 := if Z.eqb t HEV_SOCKS5_ADDR_TYPE_NAME then _ else _).
  assert (frame_list s1 = frame_list s /\ frame_mem s1 = frame_mem s /\ su_frames s1 = su_frames s /\
    su_net s1 = net_got p (su_net s) /\ s_base s1 = s_base s /\ su_pcb s1 = su_pcb s)
    as (El & Em & Ef & En & Eb & Epc) by (unfold s1; by destruct (Z.eqb _ _)).
  clearbody s1. rewrite El.
  assert (fr ∉ ids) as Hni.
  { intros Hin. apply (elem_of_list_to_set (C := gset Z)) in Hin. rewrite <- Hdom in Hin.
    apply elem_of_dom in Hin as [? Hx]. by rewrite Hnew in Hx. }
  set (L := mkList _ _ _). assert (dll L ids) as HdL.
  { eapply dll_frame; [exact Hd|done|done|]. intros a Ha. simpl. apply lookup_insert_ne. congruence. }
  apply wp_bind. eapply wp_mono.
  { apply (add_tail_ok L ids fr HdL Hnz Hni). simpl. rewrite lookup_insert_eq. by eexists. }
  intros L' [HdL' _]. apply wp_ret. split.
  - exists (ids ++ [fr]). unfold set_list. cbn. rewrite Em, Ef, En, !length_app. cbn.
    split_and!; [done| | | lia | unfold UDP_POOL_SIZE in *; lia |].
    + apply Forall2_app.
      * eapply Forall2_impl; [exact Hf|]. intros i x (f & Hi & Hfx). exists f. split; [|done].
        rewrite lookup_insert_ne; [done|]. intros <-. by rewrite Hnew in Hi.
      * constructor; [|constructor]. eexists. rewrite lookup_insert_eq. split; [done|].
        split; [done|]. split; [by exists r|done].
    + rewrite dom_insert_L, Hdom, list_to_set_app_L. cbn. set_solver.
    + rewrite Hp, map_app, <- !app_assoc. cbn. apply Permutation_app_head.
      by rewrite Permutation_app_comm.
  - unfold same_work, set_list. cbn. by rewrite En, Eb, Epc.
Qed.

Lemma handles_ok evs s q :
  represents s q -> Forall event_ok evs ->
  wp (udp_handles evs s) (fun s' => represents s' (queue_events evs q) /\ same_work s s').
Proof.
  revert s q. induction evs as [|e evs IH]; intros s q Hr He; [by apply wp_ret|].
  apply Forall_cons in He as [He Hes]. cbn [udp_handles]. apply wp_bind.
  eapply wp_mono; [by apply handler_ok|]. intros s1 [Hr1 Hw1].
  eapply wp_mono; [by apply IH|]. intros s2 [Hr2 Hw2]. split; [done|]. by etrans.
Qed.

(** ** Reading and releasing frames *)

Lemma collect_ok n s ids1 ids2 q2 :
  dll (frame_list s) (ids1 ++ ids2) ->
  Forall2 (fun i x => exists f, frame_mem s !! i = Some f /\ frame_is f x) ids2 q2 ->
  (n <= length q2)%nat ->
  exists ms, fwd_f_collect n (hd_or 0 ids2) s = Some ms /\
    Forall2 msg_is ms (map entry_datagram (take n q2)).
Proof.
  revert ids1 ids2 q2. induction n as [|n IH]; intros ids1 ids2 q2 Hd Hf Hn.
  { exists []. split; [done|]. constructor. }
  destruct Hf as [|i [p d] ids2 q2 (f & Hi & Hfp & Ha & Hok) Hf]; [simpl in Hn; lia|].
  cbn [fwd_f_collect]. change (hd_or 0 (i :: ids2)) with i. rewrite Hi. cbn [mbind option_bind].
  rewrite (node_next_ok _ _ _ _ Hd). cbn [mbind option_bind].
  destruct (IH (ids1 ++ [i]) ids2 q2) as (ms & E & Hms).
  - by rewrite <- app_assoc.
  - done.
  - simpl in Hn. lia.
  - rewrite E. eexists. split; [done|]. cbn [take map]. constructor; [|done].
    cbn [fst] in Hfp. subst p. split; [by eexists|]. split; [exists []|done]. by rewrite app_nil_r.
Qed.

Lemma represents_pop s p d q :
  represents s ((p, d) :: q) ->
  exists i f l, hev_list_first (frame_list s) = i /\ frame_mem s !! i = Some f /\ f_data f = p /\
    hev_list_del (frame_list s) i = Some l /\
    represents (pbuf_free p (set_list (hev_free i l) (delete i (frame_mem s)) (su_frames s - 1) s)) q.
Proof.
  intros (ids & Hd & Hf & Hdom & Hn & Hle & Hp).
  apply Forall2_cons_inv_r in Hf as (i & ids' & (f & Hi & Hfp & _) & Hf & ->).
  destruct (del_ok (frame_list s) [] i ids' Hd) as (l & El & Hdl & _ & _). cbn [app] in Hdl.
  exists i, f, l. pose proof Hd as (Hh & _ & _ & Hu). split; [done|]. split; [done|].
  split; [done|]. split; [done|]. exists ids'.
  assert (i ∉ ids') as Hni by disj.
  unfold pbuf_free, map_net, set_list, net_free. cbn in *.
  split_and!; [by apply dll_free| | |lia|lia|].
  - eapply Forall2_impl_in; [exact Hf|]. intros j x Hin (g & Hj & Hg). exists g. split; [|done].
    rewrite lookup_delete_ne; [done|]. congruence.
  - rewrite dom_delete_L, Hdom. set_solver.
  - rewrite Hp. rewrite app_assoc. by rewrite Permutation_cons_append, <- app_assoc.
Qed.
End handler.

(** * The steps of the UDP session: lemmas *)

(** ** Computations of the base object *)

Lemma mwp_on_udp {A} (m : MU A) s w (Q : HevSocks5SessionUDP * World -> A -> Prop) :
  mwp m (s_base s, w) (fun s' a => Q (set_sbase s'.1 s, s'.2) a) -> mwp (on_udp m) (s, w) Q.
Proof.
  intros ([b w'] & a & E & HQ). exists (set_sbase b s, w'), a. unfold on_udp. by rewrite E.
Qed.

(** ** Releasing *)

Section run.
Context `{FrameAlloc}.

Lemma release_ok n s q :
  represents s q -> (n <= length q)%nat ->
  wp (fwd_f_release n s) (fun s' => represents s' (drop n q) /\ same_work s s' /\
    s_base s' = s_base s).
Proof.
  revert s q. induction n as [|n IH]; intros s q Hr Hn; [by apply wp_ret|].
  destruct q as [|[p d] q]; [simpl in Hn; lia|].
  destruct (represents_pop s p d q Hr) as (i & f & l & Ei & Ef & Efp & El & Hr').
  cbn [fwd_f_release]. rewrite Ei, Ef. cbn [mbind option_bind]. rewrite El.
  cbn [mbind option_bind]. rewrite Efp. eapply wp_mono; [apply (IH _ q Hr'); simpl in Hn; lia|].
  intros s' (Hr2 & Hw & Hb). split; [done|]. split; [|by rewrite Hb]. etrans; [|exact Hw]. done.
Qed.

(** What the destructor's loop leaves. *)
Lemma frames_freed_ok ids p q s :
  seg (lcells (frame_list s)) p ids 0 -> uniq ids ->
  Forall2 (fun i x => exists f, frame_mem s !! i = Some f /\ f_data f = x) ids q ->
  dom (frame_mem s) = list_to_set ids ->
  wp (destruct_loop (length ids) (hd_or 0 ids) s) (fun s' =>
    frame_mem s' = ∅ /\ n_freed (su_net s') = n_freed (su_net s) ++ map pb_id q /\
    n_received (su_net s') = n_received (su_net s) /\ same_work s s' /\ s_base s' = s_base s).
Proof.
  revert p q s. induction ids as [|i ids IH]; intros p q s Hs Hu Hf Hdom.
  { apply Forall2_nil_inv_l in Hf as ->. apply wp_ret. cbn in Hdom |- *. rewrite app_nil_r.
    split; [|done]. by apply dom_empty_inv_L. }
  apply Forall2_cons_inv_l in Hf as (x & q' & (f & Hi & Hfx) & Hf & ->).
  destruct Hs as (Hnz & Hc & Hs). cbn [length destruct_loop]. change (hd_or 0 (i :: ids)) with i.
  rewrite (proj2 (Z.eqb_neq _ _) Hnz), Hi. cbn [mbind option_bind].
  unfold hev_list_node_next. rewrite Hc. cbn [mbind option_bind l_next].
  assert (i ∉ ids) as Hni by disj.
  eapply wp_mono.
  { apply (IH i q').
    - unfold pbuf_free, map_net, set_list, hev_free. cbn. eapply seg_frame; [|exact Hs].
      intros a Ha. apply lookup_delete_ne. congruence.
    - disj.
    - unfold pbuf_free, map_net, set_list. cbn. eapply Forall2_impl_in; [exact Hf|].
      intros j y Hin (g & Hj & Hg). exists g. split; [|done].
      rewrite lookup_delete_ne; [done|]. congruence.
    - unfold pbuf_free, map_net, set_list. cbn. rewrite dom_delete_L, Hdom.
      cbn. set_solver. }
  intros s' (Hm & Hfr & Hrc & Hw & Hb). split; [done|].
  split; [rewrite Hfr; unfold pbuf_free, map_net, set_list, net_free; cbn; by rewrite Hfx, <- app_assoc|].
  split; [by rewrite Hrc|]. split; [|by rewrite Hb]. etrans; [|exact Hw]. done.
Qed.

Lemma represents_size s q : represents s q -> exists ids, dll (frame_list s) ids /\
  size (frame_mem s) = length ids /\ dom (frame_mem s) = list_to_set ids /\
  Forall2 (fun i x => exists f, frame_mem s !! i = Some f /\ f_data f = x) ids (map fst q) /\
  n_received (su_net s) ≡ₚ map pb_id (map fst q) ++ n_freed (su_net s).
Proof.
  intros (ids & Hd & Hf & Hdom & _ & _ & Hp). exists ids. split; [done|].
  split; [|split; [done|split]].
  - rewrite <- size_dom, Hdom. apply size_list_to_set, uniq_NoDup, Hd.
  - apply Forall2_fmap_r. eapply Forall2_impl; [exact Hf|]. intros i x (f & Hi & Hfx & _). eauto.
  - by rewrite map_map.
Qed.

(** The destructor gives every remaining buffer back. *)
Lemma udp_destruct_ok base s w q :
  represents s q -> (forall x w, mwp base (x, w) (fun _ _ => True)) ->
  mwp (hev_socks5_session_udp_destruct base) (s, w) (fun s' _ =>
    n_received (su_net s'.1) ≡ₚ n_freed (su_net s'.1) /\ frame_mem s'.1 = ∅ /\
    su_pcb s'.1 = false /\ n_received (su_net s'.1) = n_received (su_net s)).
Proof.
  intros Hr Hbase. destruct (represents_size s q Hr) as (ids & Hd & Hsz & Hdom & Hf & Hp).
  unfold hev_socks5_session_udp_destruct. mstep. apply mwp_get_self. cbn [fst].
  rewrite Hsz. unfold hev_list_first. pose proof Hd as (-> & _ & Hseg & Hu).
  destruct (frames_freed_ok ids 0 (map fst q) s Hseg Hu Hf Hdom) as (s' & E & Hm & Hfr & Hrc & Hw & Hb).
  mstep. eapply mwp_mem; [exact E|]. mstep. apply mwp_set_self. cbn [fst snd].
  apply mwp_on_udp. eapply mwp_mono; [apply Hbase|]. intros [b w'] [] _. cbn [fst snd].
  assert (n_received (su_net s') ≡ₚ n_freed (su_net s')) as Hp'.
  { rewrite Hrc, Hfr, Hp. apply Permutation_app_comm. }
  destruct (su_pcb s') eqn:Epc; cbn; by split_and!.
Qed.

(** ** Waiting *)

Lemma wait_ok evs s w q (Q : HevSocks5SessionUDP * World -> () -> Prop) :
  represents s q -> Forall event_ok evs ->
  (forall s', represents s' (queue_events evs q) -> same_work s s' -> Q (s', w) tt) ->
  mwp (wait evs) (s, w) Q.
Proof.
  intros Hr He HQ. destruct (handles_ok evs s q Hr He) as (s' & E & Hr' & Hw).
  unfold wait. mstep. apply mwp_get_self. mstep. eapply mwp_mem; [exact E|].
  apply mwp_set_self. by apply HQ.
Qed.

(** ** Sending, whatever the network does *)

(** What was sent is what the result counts. *)
Lemma dg_send_loop_any {A} tx (msgs : list A) c e :
  0 <= c ->
  let '(tx', r, out, e') := dg_send_loop tx msgs c e in
  out = take (Z.to_nat (r - c)) msgs /\ r <= c + Z.of_nat (length msgs) /\ (0 < c -> c <= r).
Proof.
  revert msgs c e. induction tx as [|ev tx IH]; intros msgs c e Hc; simpl.
  { split_and!; [rewrite take_ge by lia; done|lia|lia]. }
  destruct ev as [n|ab|].
  - destruct (Z.leb_spec (Z.min n (Z.of_nat (length msgs))) 0).
    { destruct (Z.eqb_spec c 0); split_and!; try lia;
        by replace (Z.to_nat _) with 0%nat by lia. }
    destruct (Z.ltb_spec (Z.min n (Z.of_nat (length msgs))) (Z.of_nat (length msgs))).
    + rewrite Z.min_l by lia. specialize (IH (drop (Z.to_nat n) msgs) (c + n) e ltac:(lia)).
      destruct (dg_send_loop _ _ _ _) as [[[tx' r] out] e']. destruct IH as (-> & Hr & Hc2).
      rewrite length_drop in Hr. split_and!; [|lia|lia].
      rewrite take_take_drop. f_equal. lia.
    + split_and!; [rewrite take_ge by lia; done|lia|lia].
  - destruct ab; [|by apply IH]. destruct (Z.eqb_spec c 0); split_and!; try lia;
      by replace (Z.to_nat _) with 0%nat by lia.
  - destruct (Z.eqb_spec c 0); split_and!; try lia;
      by replace (Z.to_nat _) with 0%nat by lia.
Qed.

(** What sending leaves alone. *)
Definition send_kept (x x' : HevSocks5UDP) : Prop :=
  u_b x' = u_b x /\ d_rx (u_a x') = d_rx (u_a x) /\ u_base x' = u_base x /\ u_fd x' = u_fd x.

(** In datagrams the result counts those that were sent, which are the first
    ones; in the stream it is all or nothing. *)
Definition sent_exactly (x x' : HevSocks5UDP) (ds : list datagram) (r : Z) : Prop :=
  r <= Z.of_nat (length ds) /\
  (stype (u_base x) = HEV_SOCKS5_TYPE_UDP_IN_UDP ->
     d_sent (u_a x') = d_sent (u_a x) ++ packets (take (Z.to_nat r) ds)) /\
  (stype (u_base x) = HEV_SOCKS5_TYPE_UDP_IN_TCP -> r = Z.of_nat (length ds) \/ r = -1).

Lemma sendmmsg_any msgv (ds : list datagram) x w :
  Forall2 msg_is msgv ds -> Forall (fun y => dest_ok y.1) ds -> ds <> [] ->
  mwp (hev_socks5_udp_sendmmsg msgv) (x, w) (fun s' r =>
    send_kept x s'.1 /\ sent_exactly x s'.1 ds r).
Proof.
  intros Hm Hd Hne. assert (0 < Z.of_nat (length ds)) by (destruct ds; [done|simpl; lia]).
  unfold hev_socks5_udp_sendmmsg. mstep. apply mwp_get_self. cbn [fst].
  destruct (Z.eqb_spec (stype (u_base x)) HEV_SOCKS5_TYPE_UDP_IN_TCP) as [Et|Et].
  { unfold hev_socks5_udp_sendmmsg_tcp. mstep. eapply mwp_mem; [by apply (build_iov_ok _ _ ds Hm)|].
    cbv iota. mstep. unfold mwp at 1. unfold sendmsg_waitall.
    destruct (send_loop _ _ _) as [[tx r] out]. eexists _, _. split; [done|].
    destruct (Z.leb r 0); mstep; (split; [done|]); split_and!; try (rewrite Et; done);
      rewrite ?(Forall2_length _ _ _ Hm); try lia; by auto. }
  destruct (Z.eqb_spec (stype (u_base x)) HEV_SOCKS5_TYPE_UDP_IN_UDP) as [Eu|Eu].
  2: { mstep. split; [done|]. split_and!; [lia|done|by auto]. }
  unfold hev_socks5_udp_sendmmsg_udp. mstep.
  eapply mwp_mem; [by apply (build_iov_ok _ _ ds Hm)|]. cbv iota.
  set (msgs := map _ (map _ ds)). assert (msgs = packets ds) as ->.
  { unfold msgs, packets. rewrite map_map. apply map_ext. intros [d p]. simpl. by rewrite app_nil_r. }
  unfold sendmmsg_a. mstep. apply mwp_get_self. cbn [fst].
  pose proof (dg_send_loop_any (d_tx (u_a x)) (packets ds) 0 (errno x) ltac:(lia)) as H'.
  destruct (dg_send_loop _ _ _ _) as [[[tx r] out] e]. destruct H' as (-> & Hr & _).
  mstep. apply mwp_set_self. mstep. split; [done|].
  unfold packets in *. rewrite length_map in Hr. split_and!; [lia| |by rewrite Eu].
  intros _. cbn. by rewrite Z.sub_0_r, firstn_map.
Qed.

Lemma frame_entries ids q (m : gmap Z HevSocks5UDPFrame) :
  Forall2 (fun i x => exists f, m !! i = Some f /\ frame_is f x) ids q ->
  Forall (fun y : datagram => dest_ok y.1) (map entry_datagram q).
Proof. induction 1 as [|i [p d] ids q (f & _ & _ & _ & Hd) Hf IH]; constructor; done. Qed.

(** A step towards the proxy: [r] messages were sent. *)
Definition forwards (num : Z) (evs : list udp_event) (q : list entry) (s : HevSocks5SessionUDP)
    (w : World) (s' : HevSocks5SessionUDP * World) (res : Z) : Prop :=
  let n := Nat.min (Z.to_nat num) (length q) in
  let ds := map entry_datagram (take n q) in
  exists x' r, send_kept (s_base s) x' /\ sent_exactly (s_base s) x' ds r /\
    represents s'.1 (drop (Z.to_nat r) (queue_events evs q)) /\
    same_work (set_sbase x' s) s'.1 /\ res = (if Z.leb r 0 then -1 else 1) /\
    (forall S out cap, stype (u_base (s_base s)) = HEV_SOCKS5_TYPE_UDP_IN_TCP ->
       io_at w S out -> Forall (fits cap) ds ->
       r = Z.of_nat n /\ io_at s'.2 S (out ++ frames ds)).

Lemma fwd_f_ok num evs s w q :
  represents s q -> Forall event_ok evs -> 0 < num ->
  mwp (hev_socks5_session_udp_fwd_f num evs) (s, w) (fun s' r =>
    if bool_decide (q = []) then s' = (s, w) /\ r = 0 else forwards num evs q s w s' r).
Proof.
  intros Hr He Hnum. pose proof Hr as (ids & Hd & Hf & _ & Hn & _).
  unfold hev_socks5_session_udp_fwd_f. mstep. apply mwp_get_self. cbn [fst]. cbv zeta. rewrite Hn.
  case_bool_decide as Hq; [subst q; rewrite (proj2 (Z.leb_le _ 0)) by done; by mstep|].
  assert (0 < Z.of_nat (length q)) by (destruct q; [done|simpl; lia]).
  rewrite (proj2 (Z.leb_gt _ 0)) by done.
  set (m := Z.to_nat (if Z.ltb num _ then _ else _)). set (n := Nat.min (Z.to_nat num) (length q)).
  assert (m = n) as -> by (unfold m, n; destruct (Z.ltb_spec num (Z.of_nat (length q))); lia).
  set (ds := map entry_datagram (take n q)).
  assert (0 < n)%nat as Hn0 by (unfold n; lia). assert (n <= length q)%nat as Hnq by (unfold n; lia).
  assert (length ds = n) as Hds by (unfold ds; rewrite length_map, length_take; lia).
  unfold hev_list_first. pose proof Hd as (-> & _).
  destruct (collect_ok n s [] ids q Hd Hf Hnq) as (ms & E & Hms).
  mstep. eapply mwp_mem; [exact E|].
  assert (Forall (fun y : datagram => dest_ok y.1) ds) as Hok.
  { unfold ds. rewrite <- firstn_map. apply Forall_take. by eapply frame_entries. }
  assert (ds <> []) as Hne by (intros E0; rewrite E0 in Hds; simpl in Hds; lia).
  destruct (sendmmsg_any ms ds (s_base s) w Hms Hok Hne) as ([x' w'] & r & Es & Hk & Hsent).
  mstep. apply mwp_on_udp. exists (x', w'), r. split; [exact Es|]. cbn [fst snd].
  assert (forall S out cap, stype (u_base (s_base s)) = HEV_SOCKS5_TYPE_UDP_IN_TCP ->
       io_at w S out -> Forall (fits cap) ds ->
       r = Z.of_nat n /\ io_at w' S (out ++ frames ds)) as Hio.
  { intros S out cap Et Hio Hfit.
    assert (mwp (hev_socks5_udp_sendmmsg ms) (s_base s, w) (fun s' r =>
      r = Z.of_nat (length ds) /\ io_at s'.2 S (out ++ frames ds))) as (s2 & r2 & E2 & -> & Hio2).
    { unfold hev_socks5_udp_sendmmsg. mstep. apply mwp_get_self. cbn [fst]. rewrite Et.
      rewrite Z.eqb_refl. eapply sendmmsg_tcp_ok; done. }
    rewrite Es in E2. injection E2 as <- ->. by rewrite Hds in *. }
  mstep. eapply wait_ok; [by eapply represents_same|done|]. intros s' Hr' Hw.
  assert (Z.of_nat (length ds) = Z.of_nat n) as Hlen by lia. destruct Hsent as (Hle & Hsent).
  destruct (Z.leb_spec r 0) as [Hr0|Hr0].
  - mstep. exists x', r. fold n ds. split; [done|]. split; [done|]. cbn [fst].
    replace (Z.to_nat r) with 0%nat by lia. split; [done|]. split; [done|].
    split; [|done]. by rewrite (proj2 (Z.leb_le r 0)).
  - mstep. apply mwp_get_self. cbn [fst].
    destruct (queue_events_prefix evs q) as [ex Hex].
    destruct (release_ok (Z.to_nat r) s' (queue_events evs q) Hr') as (s2 & E2 & Hr2 & Hw2 & Hb2).
    { rewrite Hex, length_app. lia. }
    mstep. eapply mwp_mem; [exact E2|]. mstep. apply mwp_set_self. mstep.
    exists x', r. fold n ds. split; [done|]. split; [done|]. cbn [fst snd].
    split; [done|]. split; [by etrans|]. split; [|done].
    by rewrite (proj2 (Z.leb_gt r 0)).
Qed.
End run.
