(* ===== verification/SessionUDPRelay.v ===== *)
(** * From the proxy to the application, and whole sessions: lemmas *)
From S2P Require Import Prelude CInt List Effect SockIO Addr AddrSpec AddrProps Socks5 UDP UDPSpec UDPSafe SessionUDP SessionUDPSpec.

(** ** The source that the application sees *)

Definition as_ip (d : Dest) : option (ip_addr_t * Z) :=
  match d with
  | DIp4 a p => Some (IpV4 a, p) | DIp6 a p => Some (IpV6 a, p) | DName _ _ => None
  end.

(** Whether the session stands for a name of the mapped DNS. *)
Definition mapped (s : HevSocks5SessionUDP) : bool :=
  (negb (Z.eqb (su_addr s) 0) && negb (Z.eqb (su_port s) 0))%bool.

Definition source_of (s : HevSocks5SessionUDP) (d : Dest) : option lwip_src :=
  if mapped s then Some (SrcMapped (su_addr s) (su_port s))
  else '(ip, port) ← as_ip d; Some (SrcIp ip port).

Lemma source_ok s m x :
  msg_is m x -> dest_ok x.1 -> (mapped s = true \/ is_Some (as_ip x.1)) ->
  source s m = Some (source_of s x.1) /\ is_Some (source_of s x.1).
Proof.
  intros ((a & Ea & Ha) & _) Hd Hs. unfold source, source_of, mapped in *.
  destruct (_ && _)%bool; [split; [done|by eexists]|].
  destruct Hs as [Hs|[[ip port] Hs]]; [done|]. unfold addr_of. rewrite Ea.
  cbn [mbind option_bind]. rewrite (addr_into_lwip_ok a ip port).
  - rewrite Hs. cbn. split; [done|by eexists].
  - destruct (x.1); simplify_eq/=; naive_solver.
  - destruct (x.1); simplify_eq/=; naive_solver.
  - destruct (x.1); simplify_eq/=; done.
Qed.

(** lwIP takes everything. *)
Definition outs_good (outs : list (bool * Z)) : Prop := Forall (fun o => o = (true, ERR_OK)) outs.

Definition given (l : list (lwip_src * list Z)) (s : HevSocks5SessionUDP) : HevSocks5SessionUDP :=
  map_net (fun n => mkUNet (n_received n) (n_freed n) (n_to_app n ++ l) (n_updates n)) s.

Lemma given_nil s : given [] s = s.
Proof. destruct s as [? ? ? ? ? ? ? []]. unfold given, map_net. simpl. by rewrite app_nil_r. Qed.

Lemma given_app l l' s : given l' (given l s) = given (l ++ l') s.
Proof. unfold given, map_net. simpl. by rewrite app_assoc. Qed.

Section relay.
Context `{FrameAlloc} `{Kernel} `{Pton}.

Lemma sess_fwd_b_msgs_ok ms (ds : list datagram) outs s w :
  Forall2 msg_is (take (length ds) ms) ds -> (length ds <= length ms)%nat ->
  Forall (fun x => dest_ok x.1 /\ (mapped s = true \/ is_Some (as_ip x.1))) ds -> outs_good outs ->
  exists l, map (fun x : datagram => source_of s x.1) ds = map Some (map fst l) /\
    map snd l = map snd ds /\
    mwp (fwd_b_msgs (length ds) ms outs) (s, w) (fun s' r => s' = (given l s, w) /\ r = 1).
Proof.
  intros Hms Hle Hds Ho. revert ms outs s Hms Hle Hds Ho.
  induction ds as [|x ds IH]; intros ms outs s Hms Hle Hds Ho.
  { exists []. split; [done|]. split; [done|]. cbn [length fwd_b_msgs]. mstep. by rewrite given_nil. }
  apply Forall_cons in Hds as [[Hd Hs] Hds].
  destruct ms as [|m ms]; [simpl in Hle; lia|]. cbn [length take] in Hms.
  apply Forall2_cons in Hms as [Hm Hms]. destruct (source_ok s m x Hm Hd Hs) as [Es [src Esrc]].
  destruct (IH ms (tail outs) (given [(src, x.2)] s)) as (l & El1 & El2 & Hl).
  - done.
  - simpl in Hle. lia.
  - done.
  - destruct Ho; [constructor|done].
  - exists ((src, x.2) :: l). split; [|split].
    + cbn [map fst]. rewrite Esrc. by rewrite <- El1.
    + cbn [map snd]. by rewrite El2.
    + cbn [length fwd_b_msgs head]. mstep. eapply mwp_mem; [done|]. mstep. apply mwp_get_self. cbn [fst].
      mstep. eapply mwp_mem; [exact Es|]. rewrite Esrc.
      assert (List.hd (true, ERR_OK) outs = (true, ERR_OK)) as -> by (destruct Ho; done).
      cbn [negb]. destruct Hm as (_ & (rb & Eb) & Elen).
      mstep. eapply mwp_mem; [rewrite Eb, Elen; by apply (rdn_app [])|].
      rewrite Z.eqb_refl. cbn [negb]. mstep. apply mwp_set_self. cbn [snd tail].
      change (map_net (net_app (src, x.2)) s) with (given [(src, x.2)] s).
      rewrite given_app in Hl. exact Hl.
Qed.

(** A step towards the application: [k] datagrams arrived. *)
Definition delivers (ds : list datagram) (rest out : list Z) (rx' : list dg_rx)
    (s s' : HevSocks5SessionUDP) (w' : World) (r : Z) : Prop :=
  exists k l, left_over rest out rx' ds k (s_base s', w') /\ (k <= length ds)%nat /\
    r = (if bool_decide (k = 0%nat) then 0 else 1) /\
    n_to_app (su_net s') = n_to_app (su_net s) ++ l /\
    map (fun x : datagram => source_of s' x.1) (take k ds) = map Some (map fst l) /\
    map snd l = map snd (take k ds).

Lemma left_over_work rest out rx' (ds : list datagram) k s s' w :
  same_work s s' -> left_over rest out rx' ds k (s_base s, w) ->
  left_over rest out rx' ds k (s_base s', w).
Proof.
  intros (_ & _ & Ea & _ & _ & _ & Et & _). unfold left_over. cbn [fst snd]. by rewrite Ea, Et.
Qed.

Lemma fwd_b_ok bufs evs outs (ds : list datagram) rest out rx' s w q :
  represents s q -> Forall event_ok evs -> outs_good outs ->
  Forall (fun b : list Z => Z.of_nat (length b) = UDP_BUF_SIZE) bufs -> bufs <> [] ->
  Forall (fits UDP_BUF_SIZE) ds -> Forall (fun x : datagram => is_Some (as_ip x.1)) ds -> ds <> [] ->
  may_associate (s_base s) -> arriving (length bufs) rest out rx' ds (s_base s, w) ->
  mwp (hev_socks5_session_udp_fwd_b bufs evs outs) (s, w) (fun s' r =>
    represents s'.1 (queue_events evs q) /\ delivers ds rest out rx' s s'.1 s'.2 r).
Proof.
  intros Hr He Ho Hbufs Hbne Hfit Hip Hne Hassoc Harr. unfold hev_socks5_session_udp_fwd_b.
  mstep. apply mwp_on_udp. eapply (recvmmsg_ok UDP_BUF_SIZE _ ds rest out rx').
  { apply Forall_map. eapply Forall_impl; [exact Hbufs|]. by intros b Hb. }
  { done. } { done. } { done. } { by destruct bufs. } { done. } { by rewrite length_map. }
  intros [x1 w1] r ms k _ Hk Hkm Hkd Hleft Hms Hres. cbn [fst snd] in *. cbv beta iota.
  rewrite length_map in Hkm.
  mstep. eapply wait_ok; [by eapply represents_same|exact He|]. intros s2 Hr2 Hw2.
  pose proof (left_over_work _ _ _ ds k _ s2 w1 Hw2 Hleft) as Hleft2.
  pose proof Hw2 as (Eapp & _ & _ & _ & _ & Eerr & _). cbn in Eapp, Eerr.
  destruct Hres as [[Hk0 ->]|(-> & -> & Eag)].
  - rewrite (proj2 (Z.leb_gt _ 0)) by lia. rewrite Nat2Z.id.
    assert (length (take k ds) = k) as Hlk by (rewrite length_take; lia).
    pose proof (Forall2_length _ _ _ Hms) as Hlm. rewrite Hlk, length_take in Hlm.
    destruct (sess_fwd_b_msgs_ok ms (take k ds) outs s2 w1) as (l & El1 & El2 & Hm).
    + by rewrite Hlk.
    + lia.
    + apply Forall_take. rewrite Forall_forall in Hfit, Hip |- *. intros x Hx.
      split; [apply (Hfit x Hx)|right; by apply Hip].
    + done.
    + rewrite Hlk in Hm. eapply mwp_mono; [exact Hm|]. intros s3 r [-> ->]. cbn [fst snd].
      split; [by eapply represents_same|]. exists k, l. split; [done|]. split; [done|].
      rewrite bool_decide_eq_false_2 by lia. split; [done|]. split; [|done].
      cbn. by rewrite Eapp.
  - change (Z.leb (-1) 0) with true. cbv iota. mstep. apply mwp_get_self. mstep. cbn [fst snd].
    rewrite Eerr, Eag. cbn [Z.eqb andb Pos.eqb]. split; [done|].
    exists 0%nat, []. split; [done|]. split; [lia|]. split; [done|]. by rewrite app_nil_r.
Qed.

(** ** Datagrams of any content *)

(** A packet of the relay socket that is no shorter than the shortest address. *)
Definition packet_ok (g : Dgram) : Prop := bytes_ok (dg_data g) /\ 4 <= Z.of_nat (length (dg_data g)).

Definition session_ok (s : HevSocks5SessionUDP) : Prop :=
  (exists q, represents s q) /\ udp_inv_of packet_ok (s_base s).

Definition bufs_ok (bufs : list (list Z)) : Prop :=
  Forall (fun b => Z.of_nat (length b) = UDP_BUF_SIZE /\ bytes_ok b) bufs.

Lemma session_ok_same s s' : same_queue s s' -> s_base s' = s_base s -> session_ok s -> session_ok s'.
Proof.
  intros Hq Hb [[q Hr] Hi]. split; [exists q; by eapply represents_same|]. by rewrite Hb.
Qed.

Lemma session_ok_base s x : udp_inv_of packet_ok x -> session_ok s -> session_ok (set_sbase x s).
Proof. intros Hx [[q Hr] _]. split; [exists q; by eapply represents_same|done]. Qed.

Lemma wait_safe evs s w (Q : HevSocks5SessionUDP * World -> () -> Prop) :
  session_ok s -> Forall event_ok evs -> (forall s', session_ok s' -> Q (s', w) tt) ->
  mwp (wait evs) (s, w) Q.
Proof.
  intros [[q Hr] (Ht & Ha & Hb)] He HQ. eapply wait_ok; [done|done|]. intros s' Hr' Hw.
  apply HQ. split; [by eexists|]. destruct Hw as (_ & _ & Ea & Eb & _ & _ & Et & _).
  unfold udp_inv_of. by rewrite Ea, Eb, Et.
Qed.

Lemma addr_into_lwip_safe a : bytes_ok a -> 260 <= Z.of_nat (length a) ->
  is_Some (hev_socks5_addr_into_lwip a).
Proof.
  intros Ha Hl. unfold hev_socks5_addr_into_lwip.
  destruct (rd8_in a off_atype) as [t ->]; [unfold off_atype; lia|]. cbn [mbind option_bind].
  assert (forall off, 0 <= off < 259 -> is_Some (load16 a off)) as Hload.
  { intros off Ho. unfold load16. destruct (rd8_in a off) as [x ->]; [lia|]. cbn [mbind option_bind].
    destruct (rd8_in a (off + 1)) as [y ->]; [lia|]. by eexists. }
  destruct (Z.eqb t _); [|destruct (Z.eqb t _)].
  - rewrite (rdn_in a off_ipv4_addr 4) by (unfold off_ipv4_addr; lia). cbn [mbind option_bind].
    destruct (Hload off_ipv4_port) as [p ->]; [unfold off_ipv4_port; lia|]. by eexists.
  - rewrite (rdn_in a off_ipv6_addr 16) by (unfold off_ipv6_addr; lia). cbn [mbind option_bind].
    destruct (Hload off_ipv6_port) as [p ->]; [unfold off_ipv6_port; lia|]. by eexists.
  - by eexists.
Qed.

Lemma fwd_b_msgs_safe n ms outs s w :
  Forall addressed (take n ms) -> (n <= length ms)%nat -> session_ok s ->
  mwp (fwd_b_msgs n ms outs) (s, w) (fun s' _ => session_ok s'.1).
Proof.
  revert ms outs s. induction n as [|n IH]; intros ms outs s Hms Hle Hs; [by cbn; apply mwp_ret|].
  destruct ms as [|m ms]; [simpl in Hle; lia|]. cbn [take] in Hms.
  apply Forall_cons in Hms as [(Hlen & a & Ea & Hok & Ha) Hms].
  cbn [fwd_b_msgs head]. mstep. eapply mwp_mem; [done|]. mstep. apply mwp_get_self. cbn [fst].
  destruct (addr_into_lwip_safe a Hok Ha) as [o Eo].
  assert (is_Some (source s m)) as [src Esrc].
  { unfold source, addr_of. destruct (_ && _)%bool; [by eexists|]. rewrite Ea.
    cbn [mbind option_bind]. rewrite Eo. by eexists. }
  mstep. eapply mwp_mem; [exact Esrc|]. destruct src as [src|]; [|by mstep].
  destruct (List.hd _ outs) as [b err]. destruct b; cbn [negb]; [|by mstep].
  mstep. eapply mwp_mem; [apply rdn_in; lia|].
  mstep. destruct (Z.eqb err ERR_OK); cbn [negb]; [|by mstep; mstep].
  apply mwp_set_self. cbn [snd tail]. apply IH; [done|simpl in Hle; lia|].
  by eapply session_ok_same.
Qed.

Abbreviation returns_ok := (fun (s : HevSocks5SessionUDP * World) (_ : Z) => session_ok s.1).

Lemma sess_fwd_f_safe num evs s w : session_ok s -> Forall event_ok evs -> 0 < num ->
  mwp (hev_socks5_session_udp_fwd_f num evs) (s, w) returns_ok.
Proof.
  intros Hs He Hnum. pose proof Hs as [[q Hr] (Ht & Ha & Hb)].
  eapply mwp_mono; [by apply fwd_f_ok|]. intros s' r Hres. cbv beta in *.
  case_bool_decide; [by destruct Hres as [-> _]|].
  destruct Hres as (x' & n & (Eb & Ea & Ebase & _) & _ & Hr' & Hw & _).
  destruct Hw as (_ & _ & Ea2 & Eb2 & _ & _ & Et2 & _). cbn in Ea2, Eb2, Et2.
  split; [by eexists|]. unfold udp_inv_of. by rewrite Ea2, Eb2, Et2, Ea, Eb, Ebase.
Qed.

Lemma sess_fwd_b_safe bufs evs outs s w : session_ok s -> Forall event_ok evs -> bufs_ok bufs ->
  mwp (hev_socks5_session_udp_fwd_b bufs evs outs) (s, w) returns_ok.
Proof.
  intros Hs He Hbufs. unfold hev_socks5_session_udp_fwd_b. mstep. apply mwp_on_udp.
  unfold hev_socks5_udp_recvmmsg. mstep. apply mwp_get_self. cbn [fst].
  pose proof Hs as [_ Hi]. pose proof Hi as [-> _].
  change (Z.eqb HEV_SOCKS5_TYPE_UDP_IN_UDP HEV_SOCKS5_TYPE_UDP_IN_TCP) with false.
  rewrite Z.eqb_refl. cbv iota. eapply mwp_mono.
  { apply (recvmmsg_udp_safe packet_ok addressed); [exact parses_addressed|done|].
    apply Forall_map. eapply Forall_impl; [exact Hbufs|]. by intros b []. }
  intros [x1 w1] [res ms] (Hx1 & Hres & _). cbn [fst snd] in *.
  mstep. eapply wait_safe; [by apply session_ok_base|done|]. intros s2 Hs2.
  destruct (Z.leb_spec res 0); [mstep; apply mwp_get_self; by mstep|].
  destruct Hres as [|(n & -> & Hu & Hn)]; [lia|]. rewrite Nat2Z.id. by apply fwd_b_msgs_safe.
Qed.

Lemma sess_yielder_safe type slept evs s w : session_ok s -> Forall event_ok evs ->
  mwp (session_task_io_yielder type slept evs) (s, w) returns_ok.
Proof.
  intros Hs He. unfold session_task_io_yielder. mstep. apply mwp_on_udp.
  eapply mwp_mono; [apply control_ended_safe, Hs|]. intros [x1 w1] stop Hx1. cbn [fst snd] in *.
  pose proof (session_ok_base s x1 Hx1 Hs) as Hs1.
  destruct stop; [by mstep|]. mstep. apply mwp_get_self. cbn [fst].
  mstep. eapply wait_safe; [done|done|]. intros s2 Hs2. mstep. apply mwp_get_self. cbn [fst].
  mstep. apply mwp_set_self. mstep. cbn [fst snd]. by eapply session_ok_same.
Qed.

Definition turn_ok (t : uturn) : Prop :=
  Forall event_ok (t_send t) /\ Forall event_ok (t_receive t) /\ Forall event_ok (t_sleep t).

Lemma splice_loop_safe ts bufs res_f res_b s w :
  session_ok s -> Forall turn_ok ts -> bufs_ok bufs -> bufs <> [] ->
  mwp (udp_splice_loop ts bufs res_f res_b) (s, w) (fun s' _ => session_ok s'.1).
Proof.
  intros Hs Hts Hbufs Hne. assert (0 < Z.of_nat (length bufs)) by (destruct bufs; [done|simpl; lia]).
  revert res_f res_b s w Hs. induction Hts as [|t ts (Hf & Hb & Hy) Hts IH];
    intros res_f res_b s w Hs; [by cbn; apply mwp_ret|].
  cbn [udp_splice_loop]. mstep. apply mwp_mono with (P := returns_ok).
  { destruct (Z.leb 0 res_f); [by apply sess_fwd_f_safe|by mstep]. }
  intros [s1 w1] rf Hs1. mstep. apply mwp_mono with (P := returns_ok).
  { destruct (Z.leb 0 res_b); [by apply sess_fwd_b_safe|by mstep]. }
  intros [s2 w2] rb Hs2. destruct (_ && _)%bool; [by mstep|]. cbv zeta. mstep.
  eapply mwp_mono; [by apply sess_yielder_safe|]. intros [s3 w3] r Hs3. cbv beta.
  destruct (negb (Z.eqb r 0)); [by mstep|]. by apply IH.
Qed.

Lemma splice_safe ts bufs s w :
  session_ok s -> Forall turn_ok ts -> bufs_ok bufs -> bufs <> [] ->
  mwp (hev_socks5_session_udp_splice ts bufs) (s, w) (fun s' _ => session_ok s'.1).
Proof.
  intros Hs Hts Hbufs Hne. unfold hev_socks5_session_udp_splice.
  mstep. apply mwp_get_self. mstep. apply mwp_sys. mstep.
  destruct (Z.ltb _ 0); [apply mwp_sys_|mstep]; by apply splice_loop_safe.
Qed.

(** ** Any carrier: if a step returns, the queue is still represented *)

Definition tracked (s : HevSocks5SessionUDP * World) : Prop := exists q, represents s.1 q.

Lemma keeps_on_udp {A} (m : MU A) : keeps tracked (on_udp m).
Proof.
  intros [s w] [s' w'] a [q Hr] E. unfold on_udp in E.
  destruct (m _) as [[[b w1] a1]|]; [|done]. injection E as <- <- <-. exists q. by eapply represents_same.
Qed.

Lemma keeps_wait evs : Forall event_ok evs -> keeps tracked (wait evs).
Proof.
  intros He [s w] s' a [q Hr] E. 
  destruct (wait_ok evs s w q (fun s' _ => tracked s') Hr He) as (s2 & [] & E2 & H2).
  { intros s2 Hr2 _. by eexists. }
  rewrite E in E2. by injection E2 as ->.
Qed.

Lemma keeps_fwd_f num evs : Forall event_ok evs -> 0 < num ->
  keeps tracked (hev_socks5_session_udp_fwd_f num evs).
Proof.
  intros He Hnum [s w] s' a [q Hr] E.
  destruct (fwd_f_ok num evs s w q Hr He Hnum) as (s2 & r & E2 & H2).
  rewrite E in E2. injection E2 as <- _. case_bool_decide; [destruct H2 as [-> _]; by eexists|].
  destruct H2 as (x' & n & _ & _ & Hr' & _). by eexists.
Qed.

Lemma fwd_b_msgs_queue n ms outs s w s' w' a :
  fwd_b_msgs n ms outs (s, w) = Some ((s', w'), a) -> same_queue s s'.
Proof.
  revert ms outs s. induction n as [|n IH]; intros ms outs s; cbn [fwd_b_msgs].
  { intros [= <- _ _]. done. }
  unfold mem, mlift, get_self, set_self, mret, M_ret, mbind, M_bind. cbn [fst snd].
  destruct (head ms) as [m|]; [|done]. cbv iota beta. cbn [fst snd].
  destruct (source s m) as [[src|]|]; [| |done].
  2: { intros [= <- _ _]. done. }
  destruct (List.hd _ outs) as [b err]. destruct b; cbn [negb]; [|intros [= <- _ _]; done].
  cbv iota beta. destruct (rdn _ _ _) as [data|]; [|done]. cbv iota beta.
  destruct (Z.eqb err ERR_OK); cbn [negb]; [|intros [= <- _ _]; done].
  intros E. apply IH in E. destruct E as (? & ? & ? & ? & ?). by split_and!.
Qed.

Lemma keeps_fwd_b_msgs n ms outs : keeps tracked (fwd_b_msgs n ms outs).
Proof.
  intros [s w] [s' w'] a [q Hr] E. exists q. eapply represents_same; [|exact Hr].
  by eapply fwd_b_msgs_queue.
Qed.

Lemma keeps_get {A} (f : HevSocks5SessionUDP -> MS A) :
  (forall s, keeps tracked (f s)) -> keeps tracked (self ← get_self; f self).
Proof. intros Hf s s' a Hs E. exact (Hf s.1 s s' a Hs E). Qed.

Lemma keeps_fwd_b bufs evs outs : Forall event_ok evs ->
  keeps tracked (hev_socks5_session_udp_fwd_b bufs evs outs).
Proof.
  intros He. unfold hev_socks5_session_udp_fwd_b.
  apply keeps_bind; [apply keeps_on_udp|]. intros [res ms].
  apply keeps_bind; [by apply keeps_wait|]. intros _.
  destruct (Z.leb res 0); [|apply keeps_fwd_b_msgs]. apply keeps_get. intros s. apply keeps_ret.
Qed.

Lemma keeps_update : keeps tracked (self ← get_self; set_self (map_net net_update self) : MS ()).
Proof. intros [s w] s' a [q Hr] [= <- _]. exists q. by eapply represents_same. Qed.

Lemma keeps_yielder type slept evs : Forall event_ok evs ->
  keeps tracked (session_task_io_yielder type slept evs).
Proof.
  intros He. unfold session_task_io_yielder. apply keeps_bind; [apply keeps_on_udp|].
  intros []; [apply keeps_ret|]. apply keeps_get. intros s0.
  apply keeps_bind; [by apply keeps_wait|]. intros _ [s w] s' a [q Hr] [= <- _].
  exists q. by eapply represents_same.
Qed.

Lemma keeps_splice_loop ts bufs res_f res_b : Forall turn_ok ts -> bufs <> [] ->
  keeps tracked (udp_splice_loop ts bufs res_f res_b).
Proof.
  intros Hts Hne. assert (0 < Z.of_nat (length bufs)) by (destruct bufs; [done|simpl; lia]).
  revert res_f res_b. induction Hts as [|t ts (Hf & Hb & Hy) Hts IH]; intros res_f res_b;
    cbn [udp_splice_loop]; [apply keeps_ret|].
  apply keeps_bind; [destruct (Z.leb 0 res_f); [by apply keeps_fwd_f|apply keeps_ret]|]. intros rf.
  apply keeps_bind; [destruct (Z.leb 0 res_b); [by apply keeps_fwd_b|apply keeps_ret]|]. intros rb.
  destruct (_ && _)%bool; [apply keeps_ret|]. cbv zeta.
  apply keeps_bind; [by apply keeps_yielder|]. intros r.
  destruct (negb (Z.eqb r 0)); [apply keeps_ret|apply IH].
Qed.

Lemma sess_keeps_sys c : keeps tracked (sys c).
Proof. intros [s w] s' a [q Hr] [= <- _]. by exists q. Qed.

Lemma keeps_splice ts bufs : Forall turn_ok ts -> bufs <> [] ->
  keeps tracked (hev_socks5_session_udp_splice ts bufs).
Proof.
  intros Hts Hne. unfold hev_socks5_session_udp_splice. apply keeps_get. intros s. cbv zeta.
  apply keeps_bind; [apply sess_keeps_sys|]. intros res.
  apply keeps_bind; [destruct (Z.ltb res 0)|].
  - unfold sys_. apply keeps_bind; [apply sess_keeps_sys|]. intros _. apply keeps_ret.
  - apply keeps_ret.
  - intros _. by apply keeps_splice_loop.
Qed.
End relay.
