(* ===== verification/SessionUDPProps.v ===== *)
(** * Properties of the UDP session *)
From S2P Require Import Prelude CInt List Effect SockIO Addr AddrSpec AddrProps Socks5 MappedDNSProps UDP UDPSpec UDPSafe UDPProps SessionUDP SessionUDPSpec SessionUDPRelay ClientProps.

Section props.
Context `{FrameAlloc} `{Kernel} `{Pton}.

(** The end of a session: every buffer that lwIP handed over was given back
    exactly once, no frame is left, and the callback is gone. *)
Definition all_released (s : HevSocks5SessionUDP) : Prop :=
  n_received (su_net s) ≡ₚ n_freed (su_net s) /\ frame_mem s = ∅ /\ su_pcb s = false.

(** C34: whatever lwIP's callback, the network and the allocator do during the
    life of a session, and in whatever order, the session that is destroyed has
    given back every packet buffer exactly once and every frame.  This holds of
    every life that no receive cuts short with a fault (see C31); over UDP the
    life is proved to run to its end as long as the relay sends no packet of less
    than four bytes. *)
Theorem udp_session_releases_buffers base ts bufs s w q :
  represents s q -> Forall turn_ok ts -> bufs_ok bufs -> bufs <> [] ->
  (forall x w, mwp base (x, w) (fun _ _ => True)) ->
  let life := _ ← hev_socks5_session_udp_splice ts bufs; hev_socks5_session_udp_destruct base in
  hoare (fun s' => s' = (s, w)) life (fun s' _ => all_released s'.1) /\
  (udp_inv_of packet_ok (s_base s) -> mwp life (s, w) (fun s' _ => all_released s'.1)) /\
  mwp (hev_socks5_session_udp_destruct base) (s, w) (fun s' _ => all_released s'.1).
Proof.
  intros Hr Hts Hbufs Hne Hbase life.
  assert (forall s w, tracked (s, w) ->
    mwp (hev_socks5_session_udp_destruct base) (s, w) (fun s' _ => all_released s'.1)) as Hend.
  { intros s1 w1 [q1 Hr1]. eapply mwp_mono; [by eapply udp_destruct_ok|].
    intros s' _ (? & ? & ? & _). done. }
  split; [|split].
  - intros [s0 w0] s' a [= -> ->] E. unfold life, mbind, M_bind in E.
    destruct (hev_socks5_session_udp_splice ts bufs (s, w)) as [[[s1 w1] r]|] eqn:Es; [|done].
    assert (tracked (s1, w1)) as Ht.
    { eapply (keeps_splice ts bufs Hts Hne (s, w)); [by exists q|exact Es]. }
    destruct (Hend s1 w1 Ht) as (s2 & b & E2 & H2). rewrite E in E2. by injection E2 as <- _.
  - intros Hi. unfold life. mstep. eapply mwp_mono.
    { apply splice_safe; [|done|done|done]. split; [by eexists|done]. }
    intros [s1 w1] r [Hq _]. by apply Hend.
  - apply Hend. by exists q.
Qed.

(** The application's datagrams wait in a queue of at most one more than
    UDP_POOL_SIZE; the callback appends each with its destination (the mapped
    name, if there is one) or, when the queue is full or memory is short, drops
    it.  A step sends a prefix of the queue in order, removes exactly what was
    sent, even when the kernel takes only a part and more datagrams arrive
    meanwhile, and keeps the rest; over a working stream it sends all that the
    step's buffers allow. *)
Theorem udp_session_forwards_in_order num evs s w q :
  represents s q -> Forall event_ok evs -> 0 < num ->
  wp (udp_handles evs s) (fun s' => represents s' (queue_events evs q) /\
    0 <= su_frames s' <= UDP_POOL_SIZE + 1) /\
  mwp (hev_socks5_session_udp_fwd_f num evs) (s, w) (fun s' r =>
    if bool_decide (q = []) then s' = (s, w) /\ r = 0 else forwards num evs q s w s' r).
Proof.
  intros Hr He Hnum. split; [|by apply fwd_f_ok].
  eapply wp_mono; [by apply handles_ok|]. intros s' [Hr' _]. split; [done|].
  destruct Hr' as (ids & _ & _ & _ & -> & Hle & _). lia.
Qed.

(** A step towards the application hands lwIP every datagram that the proxy
    sent, on either carrier, in order and with its payload, from the source that
    the proxy named, or, in a session that stands for a name, from the address
    that the mapped DNS gave out for the name; a datagram that is not there yet
    is waited for. *)
Theorem udp_session_delivers bufs evs outs (ds : list datagram) rest out rx' s w q :
  represents s q -> Forall event_ok evs -> outs_good outs ->
  Forall (fun b : list Z => Z.of_nat (length b) = UDP_BUF_SIZE) bufs -> bufs <> [] ->
  Forall (fits UDP_BUF_SIZE) ds -> Forall (fun x : datagram => is_Some (as_ip x.1)) ds -> ds <> [] ->
  may_associate (s_base s) -> arriving (length bufs) rest out rx' ds (s_base s, w) ->
  mwp (hev_socks5_session_udp_fwd_b bufs evs outs) (s, w) (fun s' r =>
    represents s'.1 (queue_events evs q) /\ delivers ds rest out rx' s s'.1 s'.2 r).
Proof. apply fwd_b_ok. Qed.

End props.

(** ** Witnesses *)

#[export] Instance bump_frames : FrameAlloc.
Proof.
  refine {| fresh_frame := fun m => set_fold Z.max 0 (dom m) + 1 |}.
  - intros m. pose proof (set_fold_nonneg (dom m)). lia.
  - intros m. apply not_elem_of_dom. intros Hin. apply set_fold_max in Hin. lia.
Defined.

Definition demo_new (type : Z) (a : DgSock) : HevSocks5SessionUDP :=
  hev_socks5_session_udp_new type (demo_udp 0 1 a idle).

(** Two datagrams for a name and for an address. *)
Definition demo_events : list udp_event :=
  [UdpRecv (mkPbuf 7 [[1; 2; 3]]) (IpV4 [100; 64; 0; 1]) 53 false (replicate 260 170)
     (Some [97; 46; 98]);
   UdpRecv (mkPbuf 8 [[4]]) (IpV4 [8; 8; 8; 8]) 53 false (replicate 260 170) None].

Lemma demo_events_ok : Forall event_ok demo_events.
Proof.
  constructor; [|constructor; [|constructor]]; (split; [done|]); split; cbn.
  - split; [done|]. repeat constructor; unfold byte_ok; lia.
  - split; [lia|]. split; [repeat constructor; unfold byte_ok; lia|].
    split; [repeat constructor; lia|lia].
  - split; [done|]. repeat constructor; unfold byte_ok; lia.
  - split; [done|]. split; [repeat constructor; unfold byte_ok; lia|lia].
Qed.

Lemma demo_new_represents type a : represents (demo_new type a) [].
Proof.
  exists []. unfold demo_new. split_and!; try done; apply dll_empty.
Qed.

Lemma udp_session_releases_buffers_witness :
  mwp (_ ← @hev_socks5_session_udp_splice bump_frames fd_kernel
        [mkUTurn demo_events [] [] demo_events 100; mkUTurn [] [] [] demo_events 0]
        [replicate 1500 0];
      hev_socks5_session_udp_destruct (mret ()))
    (demo_new 1 (mkDgSock [DgData [mkDgram [0; 0; 0; 1; 9; 9; 9; 9; 0; 53; 5] demo_peer]] [] []),
     mkWorld [RxAgain false] [] [] [])
    (fun s' _ => all_released s'.1).
Proof.
  assert (Forall turn_ok [mkUTurn demo_events [] [] demo_events 100; mkUTurn [] [] [] demo_events 0])
    as Hts.
  { constructor; [|constructor; [|constructor]]; (split; [|split]);
      first [exact demo_events_ok|constructor]. }
  assert (bufs_ok [replicate 1500 0]) as Hb.
  { constructor; [|constructor]. split; [done|]. apply Forall_replicate. unfold byte_ok. lia. }
  destruct (udp_session_releases_buffers (H0 := fd_kernel) (mret ()) _ _ _
    (mkWorld [RxAgain false] [] [] []) [] (demo_new_represents 1
      (mkDgSock [DgData [mkDgram [0; 0; 0; 1; 9; 9; 9; 9; 0; 53; 5] demo_peer]] [] [])) Hts Hb)
    as (_ & Hlife & _); [done|intros; by apply mwp_ret|].
  apply Hlife. split; [done|]. split; [|constructor]. constructor; [|constructor]. simpl.
  constructor; [|constructor]. split; [|simpl; lia]. repeat constructor; simpl; unfold byte_ok; lia.
Defined.

Lemma udp_session_forwards_in_order_witness :
  exists q s, @udp_handles bump_frames demo_events (demo_new 1 idle) = Some s /\ represents s q /\
  map entry_datagram q = [(DName [97; 46; 98] 53, [1; 2; 3]); (DIp4 [8; 8; 8; 8] 53, [4])] /\
  mwp (@hev_socks5_session_udp_fwd_f bump_frames 1 demo_events) (s, mkWorld [] [] [] [])
    (fun s' r => forwards 1 demo_events q s (mkWorld [] [] [] []) s' r).
Proof.
  destruct (udp_session_forwards_in_order 1 demo_events (demo_new 1 idle) (mkWorld [] [] [] []) []
    (demo_new_represents 1 idle) demo_events_ok) as [(s & E & Hs & _) _]; [lia|].
  exists (queue_events demo_events []), s. split; [exact E|]. split; [exact Hs|]. split; [by vm_compute|].
  destruct (udp_session_forwards_in_order 1 demo_events s (mkWorld [] [] [] [])
    (queue_events demo_events []) Hs demo_events_ok) as [_ Hf]; [lia|]. exact Hf.
Defined.

Lemma udp_session_delivers_witness :
  mwp (@hev_socks5_session_udp_fwd_b bump_frames quiet_kernel
        [replicate 1500 0; replicate 1500 7] demo_events [])
    (demo_new 0 idle, mkWorld [RxData (frames demo_ds ++ [0])] [] [] []) (fun s' r =>
    represents s'.1 (queue_events demo_events []) /\
    delivers demo_ds [0] [] [] (demo_new 0 idle) s'.1 s'.2 r).
Proof.
  apply (udp_session_delivers (H0 := quiet_kernel)).
  - apply demo_new_represents.
  - exact demo_events_ok.
  - constructor.
  - repeat constructor.
  - done.
  - exact demo_fits.
  - repeat constructor; by eexists.
  - done.
  - right. intros t sa. simpl. lia.
  - left. split; [done|]. split; [simpl; lia|]. apply world_io; [done|].
    repeat constructor; unfold byte_ok; vm_compute; intuition discriminate.
Defined.
