(* ===== verification/Session.v ===== *)
(** * Sessions (hev-socks5-session.c, and what hev-socks5-session-tcp.c and
    hev-socks5-session-udp.c add to the clients)

    A session is a client that connects to the configured proxy and then
    splices. *)
From S2P Require Import Prelude CInt Effect SockIO Addr Socks5 Client Config RingBuffer SessionTCP.

Section session.
Context `{Kernel} `{Pton} (cfg : Settings).

(** [splicer]: the session's virtual method. *)
Definition hev_socks5_session_run `{ClientClass} (s : Socks5Vars) (splicer : MC ()) : MC () :=
  addr ← mem (c_string (srv_addr (srv s)) 0);
  res ← hev_socks5_client_connect cfg addr (srv_port (srv s));
  if Z.ltb res 0 then mret () else
  _ ← (if (srv_user (srv s) && srv_pass (srv s))%bool then
         user ← mem (c_string (_user s) 0);
         pass ← mem (c_string (_pass s) 0);
         self ← get_self;
         set_self (hev_socks5_client_set_auth (Some user) (Some pass) self)
       else mret ());
  res ← hev_socks5_client_handshake cfg (negb (Z.eqb (srv_pipeline (srv s)) 0));
  if Z.ltb res 0 then mret () else splicer.

(** ** The sockets' options (hev-utils.c), on Linux *)

Definition set_sock_mark (fd mark : Z) : MC Z := sys (CSetsockopt fd).

Definition set_sock_tcp_fastopen (fd enable : Z) : MC () :=
  if Z.eqb enable 0 then mret () else sys_ (CSetsockopt fd).

Definition hev_socks5_session_bind (s : HevConfigServer) (fd : Z) : MC Z :=
  let mark := srv_mark s in
  res ← (if negb (Z.eqb mark 0) then set_sock_mark fd mark else mret 0);
  if Z.ltb res 0 then mret (-1) else
  _ ← set_sock_tcp_fastopen fd (srv_fastopen s); mret 0.

(** ** The UDP session's upstream address *)

(** The two bytes of the port, as the host loads them. *)
Definition hev_socks5_addr_get_port (addr : HevSocks5Addr) : option Z :=
  atype ← rd8 addr off_atype;
  if Z.eqb atype HEV_SOCKS5_ADDR_TYPE_IPV4 then load16 addr off_ipv4_port
  else if Z.eqb atype HEV_SOCKS5_ADDR_TYPE_IPV6 then load16 addr off_ipv6_port
  else if Z.eqb atype HEV_SOCKS5_ADDR_TYPE_NAME then
    l ← rd8 addr off_domain_len; load16 addr (off_domain_addr + l)
  else Some 0.

(** [tail]: what follows [addr] in the caller's structure. *)
Definition hev_socks5_session_udp_set_upstream_addr (s : HevConfigServer) (tail : list Z)
    (addr : HevSocks5Addr) : MC Z :=
  first ← mem (rd8 (srv_udp_addr s) 0);
  addr ← (if (negb (Z.eqb (srv_udp_in_udp s) 0) && negb (Z.eqb first 0))%bool then
            port ← mem (hev_socks5_addr_get_port (addr ++ tail));
            name ← mem (c_string (srv_udp_addr s) 0);
            '(addr, _) ← mem (hev_socks5_addr_from_name (addr ++ tail) name port);
            mret addr
          else mret addr);
  hev_socks5_client_udp_set_upstream_addr addr.

Definition session_udp_client (s : HevConfigServer) (tail : list Z) : ClientClass := {|
  get_upstream_addr := hev_socks5_client_udp_get_upstream_addr;
  set_upstream_addr := hev_socks5_session_udp_set_upstream_addr s tail |}.

(** ** The TCP session's life *)

(** [garbage]: what the stack holds where the address is built; [name]: what the
    mapped DNS knows of [ip]. *)
Definition hev_socks5_session_tcp_construct (ip : ip_addr_t) (port : Z) (garbage : list Z)
    (name : option (list Z)) (zeroed : HevSocks5SessionTCP) : MC (option HevSocks5SessionTCP) :=
  '(addr, res) ← hev_socks5_addr_from_lwip (fun _ => mret name) garbage ip port;
  if Z.ltb res 0 then mret None else
  res ← hev_socks5_client_tcp_construct addr;
  if Z.ltb res 0 then mret None else mret (Some (set_pcb true zeroed)).

(** [None]: memory is short; a session that could not be made is given back. *)
Definition hev_socks5_session_tcp_new (ip : ip_addr_t) (port : Z) (garbage : list Z)
    (name : option (list Z)) (zeroed : HevSocks5SessionTCP) : MC (option HevSocks5SessionTCP) :=
  p ← sys (CMalloc 0);
  if Z.eqb p 0 then mret None else
  o ← hev_socks5_session_tcp_construct ip port garbage name zeroed;
  match o with
  | Some s => mret (Some s)
  | None => _ ← sys_ CFree; mret None
  end.

(** The connection is aborted and what is queued is freed; the result is the
    freed chain. *)
Definition hev_socks5_session_tcp_destruct (self : HevSocks5SessionTCP)
  : MC (HevSocks5SessionTCP * list (list Z)) :=
  let freed := queue self in
  let self := if pcb self then set_pcb false self else self in
  _ ← hev_socks5_client_tcp_destruct;
  mret (self, freed).

End session.
