(* ===== verification/Tunnel.v ===== *)
(** * The tunnel's sessions (hev-socks5-tunnel.c)

    The tunnel accepts lwIP's connections, runs a task for each session and
    keeps the sessions in a list, the least recently active first.  A step of
    the model is a call of one of lwIP's callbacks or what a session's task does
    between two waits. *)
From S2P Require Import Prelude List Effect SockIO Addr Socks5.

(** ** State *)

Definition ERR_OK : Z := 0.
Definition ERR_MEM : Z := -1.
Definition ERR_RST : Z := -14.

(** What the tunnel reaches of a session through its node: the timeout of its
    base object, the type and the timeout of the wait that its task is in, and
    whether the task has been woken since that wait began. *)
Record HevSocks5SessionData := mkSD {
  sd_timeout : Z;
  sd_wait : option (Z * Z);
  sd_woken : bool;
}.

(** [freed]: sessions whose last reference was dropped; [pcbs]: the connections
    that were removed. *)
Record HevSocks5Tunnel := mkTun {
  run : bool;
  session_count : Z;
  session_set : HevList;
  sessions : gmap Z HevSocks5SessionData;
  timer_woken : bool;
  freed : list Z;
  pcbs_removed : nat;
}.

Definition set_run b t := mkTun b (session_count t) (session_set t) (sessions t) (timer_woken t)
  (freed t) (pcbs_removed t).
Definition set_set l n t := mkTun (run t) n l (sessions t) (timer_woken t) (freed t) (pcbs_removed t).
Definition set_sessions m t := mkTun (run t) (session_count t) (session_set t) m (timer_woken t)
  (freed t) (pcbs_removed t).
Definition wake_timer t := mkTun (run t) (session_count t) (session_set t) (sessions t) true
  (freed t) (pcbs_removed t).
Definition udp_remove t := mkTun (run t) (session_count t) (session_set t) (sessions t)
  (timer_woken t) (freed t) (Datatypes.S (pcbs_removed t)).

(** The static variables before [hev_socks5_tunnel_run] sets [run]. *)
Definition tunnel0 : HevSocks5Tunnel := mkTun false 0 (mkList 0 0 ∅) ∅ false [] 0.

(** ** The list *)

(** hev-socks5-session.c: [iface->get_task] and [hev_socks5_set_timeout] of the
    session at [node]. *)
Definition hev_socks5_session_terminate (node : Z) (t : HevSocks5Tunnel) : option HevSocks5Tunnel :=
  sd ← sessions t !! node;
  Some (set_sessions (<[node := mkSD 0 (sd_wait sd) true]> (sessions t)) t).

Definition hev_socks5_tunnel_insert_session (max_session_count node : Z) (t : HevSocks5Tunnel)
  : option HevSocks5Tunnel :=
  l ← hev_list_add_tail (session_set t) node;
  let t := set_set l (session_count t + 1) t in
  if (Z.eqb max_session_count 0 || Z.ltb (session_count t) max_session_count)%bool then Some t
  else hev_socks5_session_terminate (hev_list_first (session_set t)) t.

Definition hev_socks5_tunnel_delete_session (node : Z) (t : HevSocks5Tunnel)
  : option HevSocks5Tunnel :=
  l ← hev_list_del (session_set t) node;
  Some (set_set l (session_count t - 1) t).

Definition hev_socks5_tunnel_update_session (max_session_count node : Z) (t : HevSocks5Tunnel)
  : option HevSocks5Tunnel :=
  if Z.eqb max_session_count 0 then Some t else
  l ← hev_list_del (session_set t) node;
  l ← hev_list_add_tail l node;
  Some (set_set l (session_count t) t).

(** ** lwIP's callbacks *)

(** The address of a new session's node; the memory of the sessions that live is
    not given out. *)
Class SessionAlloc := {
  fresh_session : gmap Z HevSocks5SessionData -> Z;
  fresh_session_nonzero : forall m, fresh_session m <> 0;
  fresh_session_new : forall m, m !! fresh_session m = None;
}.

Section tunnel.
Context `{SessionAlloc} (max_session_count : Z).

(** [hev_socks5_session_tcp_new] and [_udp_new]: zeroed memory for the node, no
    timeout yet. *)
Definition session_new (t : HevSocks5Tunnel) : HevSocks5Tunnel * Z :=
  let node := fresh_session (sessions t) in
  let l := session_set t in
  (set_set (mkList (l_head l) (l_tail l) (<[node := mkListNode 0 0]> (lcells l))) (session_count t)
     (set_sessions (<[node := mkSD (-1) None false]> (sessions t)) t), node).

(** The last reference is dropped: the session is destroyed. *)
Definition hev_object_unref (node : Z) (t : HevSocks5Tunnel) : HevSocks5Tunnel :=
  let l := session_set t in
  mkTun (run t) (session_count t) (mkList (l_head l) (l_tail l) (delete node (lcells l)))
    (delete node (sessions t)) (timer_woken t) (freed t ++ [node]) (pcbs_removed t).

(** [new_ok], [task_ok]: whether there is memory for the session and its task. *)
Definition tcp_accept_handler (err : Z) (new_ok task_ok : bool) (t : HevSocks5Tunnel)
  : option (HevSocks5Tunnel * Z) :=
  if negb (Z.eqb err ERR_OK) then Some (t, err) else
  if negb (run t) then Some (t, ERR_RST) else
  if negb new_ok then Some (t, ERR_MEM) else
  let '(t, node) := session_new t in
  if negb task_ok then Some (hev_object_unref node t, ERR_MEM) else
  t ← hev_socks5_tunnel_insert_session max_session_count node t;
  Some (wake_timer t, ERR_OK).

(** [dns]: whether the mapped DNS exists and the datagram is for its address.
    The result: whether the connection's datagrams go to the DNS. *)
Definition udp_recv_handler (dns new_ok task_ok : bool) (t : HevSocks5Tunnel)
  : option (HevSocks5Tunnel * bool) :=
  if negb (run t) then Some (udp_remove t, false) else
  if dns then Some (t, true) else
  if negb new_ok then Some (udp_remove t, false) else
  let '(t, node) := session_new t in
  if negb task_ok then Some (udp_remove (hev_object_unref node t), false) else
  t ← hev_socks5_tunnel_insert_session max_session_count node t;
  Some (wake_timer t, false).

(** ** The tasks *)

(** The end of [hev_socks5_session_task_entry], after the session has run. *)
Definition task_end (node : Z) (t : HevSocks5Tunnel) : option HevSocks5Tunnel :=
  t ← hev_socks5_tunnel_delete_session node t; Some (hev_object_unref node t).

Fixpoint terminate_loop (fuel : nat) (node : Z) (t : HevSocks5Tunnel) : option HevSocks5Tunnel :=
  if Z.eqb node 0 then Some t else
  match fuel with
  | O => None
  | Datatypes.S fuel =>
      t ← hev_socks5_session_terminate node t;
      next ← hev_list_node_next (session_set t) node;
      terminate_loop fuel next t
  end.

(** [event_task_entry] once the stop event has been read. *)
Definition event_task_stop (t : HevSocks5Tunnel) : option HevSocks5Tunnel :=
  let t := set_run false t in
  terminate_loop (size (sessions t)) (hev_list_first (session_set t)) t.

(** [hev_task_sleep] of zero milliseconds returns zero; a sleep that is cut short
    by a wake-up returns the [rest]. *)
Definition hev_task_sleep (timeout rest : Z) : Z := if Z.eqb timeout 0 then 0 else rest.

(** A session's wait, in two parts with the other tasks between them: the timeout
    that counts is the one before the wait.  A session that splices then marks
    itself as active (the sessions' [task_io_yielder]). *)
Definition session_sleep (node type : Z) (t : HevSocks5Tunnel) : option HevSocks5Tunnel :=
  sd ← sessions t !! node;
  Some (set_sessions
    (<[node := mkSD (sd_timeout sd) (Some (type, sd_timeout sd)) false]> (sessions t)) t).

Definition session_wake (node rest : Z) (splicing : bool) (t : HevSocks5Tunnel)
  : option (HevSocks5Tunnel * Z) :=
  sd ← sessions t !! node;
  '(type, timeout) ← sd_wait sd;
  let res := hev_socks5_task_io_yielder (mkSocks5 0 timeout 0 0 0) type
               (hev_task_sleep timeout rest) in
  let t := set_sessions (<[node := mkSD (sd_timeout sd) None false]> (sessions t)) t in
  t ← (if splicing then hev_socks5_tunnel_update_session max_session_count node t else Some t);
  Some (t, res).

(** The client sets its timeouts when it connects and when it starts its
    handshake. *)
Definition session_set_timeout (node timeout : Z) (t : HevSocks5Tunnel) : option HevSocks5Tunnel :=
  sd ← sessions t !! node;
  Some (set_sessions (<[node := mkSD timeout (sd_wait sd) (sd_woken sd)]> (sessions t)) t).

(** ** Steps *)

Inductive tstep :=
| TAccept (err : Z) (new_ok task_ok : bool)
| TDatagram (dns new_ok task_ok : bool)
| TSleep (node type : Z)
| TWake (node rest : Z) (splicing : bool)
| TSetTimeout (node timeout : Z)
| TEnd (node : Z)
| TStop.

(** A session whose wait reports an abort or a timeout ends; a TCP session that
    has data to be acknowledged waits once more, with the same result. *)
Definition tstep_run (e : tstep) (t : HevSocks5Tunnel) : option HevSocks5Tunnel :=
  match e with
  | TAccept err new_ok task_ok => '(t, _) ← tcp_accept_handler err new_ok task_ok t; Some t
  | TDatagram dns new_ok task_ok => '(t, _) ← udp_recv_handler dns new_ok task_ok t; Some t
  | TSleep node type => session_sleep node type t
  | TWake node rest splicing =>
      '(t, res) ← session_wake node rest splicing t;
      if Z.ltb res 0 then task_end node t else Some t
  | TSetTimeout node timeout => session_set_timeout node timeout t
  | TEnd node => task_end node t
  | TStop => event_task_stop t
  end.

Fixpoint tsteps (es : list tstep) (t : HevSocks5Tunnel) : option HevSocks5Tunnel :=
  match es with [] => Some t | e :: es => t ← tstep_run e t; tsteps es t end.

End tunnel.
