(* ===== verification/TunnelSpec.v ===== *)
(** * The tunnel's sessions as a list: lemmas *)
From S2P Require Import Prelude List Effect SockIO Addr Socks5 Tunnel.

(** ** Abstract state *)

(** The live sessions, each once, the least recently active first. *)
Definition tun_rep (t : HevSocks5Tunnel) (ids : list Z) : Prop :=
  dll (session_set t) ids /\ dom (sessions t) = list_to_set ids /\
  session_count t = Z.of_nat (length ids).

Definition without (n : Z) (ids : list Z) : list Z := filter (fun x => x <> n) ids.

Lemma without_notin n ids : n ∉ ids -> without n ids = ids.
Proof.
  unfold without. induction ids as [|x ids IH]; [done|]. rewrite not_elem_of_cons. intros [Hx Hn].
  rewrite filter_cons_True by done. by rewrite IH.
Qed.

Lemma without_app n xs ys : n ∉ xs -> n ∉ ys -> without n (xs ++ n :: ys) = xs ++ ys.
Proof.
  intros Hx Hy. pose proof (without_notin n xs Hx) as Ex. pose proof (without_notin n ys Hy) as Ey.
  unfold without in *. by rewrite filter_app, filter_cons_False, Ex, Ey by (by intros []).
Qed.

Lemma dll_split L ids n : dll L ids -> n ∈ ids ->
  exists xs ys, ids = xs ++ n :: ys /\ n ∉ xs /\ n ∉ ys.
Proof.
  intros (_ & _ & _ & Hu) Hin. apply list_elem_of_split in Hin as (xs & ys & ->).
  exists xs, ys. split; [done|]. split; disj.
Qed.

Lemma dll_head L ids : dll L ids -> hev_list_first L = hd_or 0 ids.
Proof. by intros []. Qed.

Lemma dll_next L xs y ys :
  dll L (xs ++ y :: ys) -> y <> 0 /\ hev_list_node_next L y = Some (hd_or 0 ys).
Proof.
  intros (_ & _ & Hs & _). apply seg_app in Hs as [_ (Hy & Hc & _)]. split; [done|].
  unfold hev_list_node_next. by rewrite Hc.
Qed.

Lemma tun_rep_in t ids n : tun_rep t ids -> n ∈ ids <-> is_Some (sessions t !! n).
Proof.
  intros (_ & Hd & _). rewrite <- elem_of_dom, Hd. by rewrite elem_of_list_to_set.
Qed.

Lemma dom_insert_same (m : gmap Z HevSocks5SessionData) n v :
  is_Some (m !! n) -> dom (<[n := v]> m) = dom m.
Proof. intros Hn. rewrite dom_insert_L. apply elem_of_dom in Hn. set_solver. Qed.

(** ** The operations *)

(** A terminated session: no more time, and awake. *)
Definition ended (sd : HevSocks5SessionData) : HevSocks5SessionData := mkSD 0 (sd_wait sd) true.

(** A new one. *)
Definition new_session : HevSocks5SessionData := mkSD (-1) None false.

Lemma alter_insert {A} (f : A -> A) (m : gmap Z A) n x : m !! n = Some x -> alter f n m = <[n := f x]> m.
Proof.
  intros Hn. apply map_eq. intros a. destruct (decide (a = n)) as [->|Ha].
  - by rewrite lookup_alter_eq, lookup_insert_eq, Hn.
  - by rewrite lookup_alter_ne, lookup_insert_ne by done.
Qed.

Lemma terminate_ok t ids n :
  tun_rep t ids -> n ∈ ids ->
  exists t', hev_socks5_session_terminate n t = Some t' /\ tun_rep t' ids /\
    t' = set_sessions (alter ended n (sessions t)) t.
Proof.
  intros Hr Hn. pose proof (proj1 (tun_rep_in t ids n Hr) Hn) as Hs.
  unfold hev_socks5_session_terminate. destruct Hs as [sd Hs]. rewrite Hs. eexists. split; [done|].
  split; [|by rewrite (alter_insert _ _ _ _ Hs)]. destruct Hr as (Hl & Hd & Hc). split; [done|]. split; [|done].
  cbn. rewrite dom_insert_same by (by eexists). done.
Qed.

Lemma delete_ok t xs n ys :
  tun_rep t (xs ++ n :: ys) ->
  exists t', hev_socks5_tunnel_delete_session n t = Some t' /\
    dll (session_set t') (xs ++ ys) /\ sessions t' = sessions t /\
    session_count t' = Z.of_nat (length (xs ++ ys)) /\
    run t' = run t /\ freed t' = freed t /\ timer_woken t' = timer_woken t /\
    pcbs_removed t' = pcbs_removed t.
Proof.
  intros (Hl & Hd & Hc). destruct (del_ok _ xs n ys Hl) as (l & El & Hdl & _ & _).
  unfold hev_socks5_tunnel_delete_session. rewrite El. eexists. split; [done|]. cbn.
  split_and!; try done. rewrite Hc, !length_app. cbn. lia.
Qed.

Lemma update_ok max t xs n ys :
  tun_rep t (xs ++ n :: ys) ->
  exists t', hev_socks5_tunnel_update_session max n t = Some t' /\
    tun_rep t' (if Z.eqb max 0 then xs ++ n :: ys else xs ++ ys ++ [n]) /\
    sessions t' = sessions t /\ run t' = run t /\ freed t' = freed t.
Proof.
  intros Hr. unfold hev_socks5_tunnel_update_session.
  destruct (Z.eqb max 0); [by eexists|]. pose proof Hr as (Hl & Hd & Hc).
  destruct (del_add_tail_ok _ xs n ys Hl) as (l & El & Hdl & _).
  apply bind_Some in El as (l1 & E1 & E2). rewrite E1. cbn [mbind option_bind]. rewrite E2.
  eexists. split; [done|]. split; [|done]. split; [done|]. split.
  - cbn. rewrite Hd. set_solver.
  - cbn. rewrite Hc, !length_app. cbn. lia.
Qed.

(** The destruction of a session that is in no list. *)
Lemma session_unref_ok t n ids :
  dll (session_set t) ids -> n ∉ ids -> dom (sessions t) = {[ n ]} ∪ list_to_set ids ->
  session_count t = Z.of_nat (length ids) -> tun_rep (hev_object_unref n t) ids.
Proof.
  intros Hl Hn Hd Hc. split; [|split; [|done]].
  - destruct Hl as (Hh & Ht & Hs & Hu). split; [done|]. split; [done|]. split; [|done].
    cbn. eapply seg_frame; [|exact Hs]. intros a Ha. apply lookup_delete_ne. congruence.
  - cbn. rewrite dom_delete_L, Hd. set_solver.
Qed.

Lemma task_end_ok t ids n :
  tun_rep t ids -> n ∈ ids ->
  exists t', task_end n t = Some t' /\ tun_rep t' (without n ids) /\ run t' = run t /\
    freed t' = freed t ++ [n] /\ sessions t' = delete n (sessions t).
Proof.
  intros Hr Hn. destruct (dll_split _ ids n (proj1 Hr) Hn) as (xs & ys & -> & Hx & Hy).
  destruct (delete_ok t xs n ys Hr) as (t1 & E & Hl & Hs & Hc & Hrun & Hf & _).
  unfold task_end. rewrite E. cbn [mbind option_bind]. eexists. split; [done|].
  rewrite without_app by done. split; [|cbn; rewrite Hrun, Hf, Hs; done].
  apply session_unref_ok; [done|set_solver| |done]. rewrite Hs. destruct Hr as (_ & -> & _). set_solver.
Qed.

Section tunnel.
Context `{SessionAlloc} (max : Z).

Lemma session_new_ok t ids :
  tun_rep t ids ->
  let '(t', n) := session_new t in
  n <> 0 /\ n ∉ ids /\ dll (session_set t') ids /\ is_Some (lcells (session_set t') !! n) /\
  dom (sessions t') = {[ n ]} ∪ list_to_set ids /\ session_count t' = Z.of_nat (length ids) /\
  sessions t' = <[n := new_session]> (sessions t) /\ run t' = run t /\ freed t' = freed t.
Proof.
  intros Hr. pose proof Hr as ((Hh & Ht & Hs & Hu) & Hd & Hc). unfold session_new.
  set (n := fresh_session (sessions t)).
  pose proof (fresh_session_new (sessions t)) as Hnew. fold n in Hnew.
  assert (n ∉ ids) as Hn.
  { intros Hin. apply (tun_rep_in t ids n Hr) in Hin. rewrite Hnew in Hin. by destruct Hin. }
  split; [apply fresh_session_nonzero|]. split; [done|]. split.
  { split; [done|]. split; [done|]. split; [|done]. cbn. eapply seg_frame; [|exact Hs].
    intros a Ha. apply lookup_insert_ne. congruence. }
  split; [cbn; rewrite lookup_insert_eq; by eexists|]. split; [cbn; by rewrite dom_insert_L, Hd|].
  done.
Qed.

(** The sessions of [ids'] after the insertion of its last one. *)
Definition limited (ids' : list Z) (before after : gmap Z HevSocks5SessionData) : Prop :=
  if (Z.eqb max 0 || Z.ltb (Z.of_nat (length ids')) max)%bool then after = before
  else after = alter ended (hd_or 0 ids') before.

Lemma insert_ok t ids n :
  n <> 0 -> n ∉ ids -> dll (session_set t) ids -> is_Some (lcells (session_set t) !! n) ->
  dom (sessions t) = {[ n ]} ∪ list_to_set ids -> session_count t = Z.of_nat (length ids) ->
  exists t', hev_socks5_tunnel_insert_session max n t = Some t' /\ tun_rep t' (ids ++ [n]) /\
    limited (ids ++ [n]) (sessions t) (sessions t') /\ run t' = run t /\ freed t' = freed t.
Proof.
  intros Hnz Hn Hl Hcell Hd Hc.
  destruct (add_tail_ok _ ids n Hl Hnz Hn Hcell) as (l & El & Hdl & _).
  unfold hev_socks5_tunnel_insert_session, limited. rewrite El. cbn [mbind option_bind].
  cbn [session_count set_set]. rewrite Hc.
  replace (Z.of_nat (length ids) + 1) with (Z.of_nat (length (ids ++ [n])))
    by (rewrite length_app; simpl; lia).
  set (t1 := set_set _ _ _). assert (tun_rep t1 (ids ++ [n])) as Hr1.
  { split; [done|]. split; [|done]. cbn. rewrite Hd. set_solver. }
  destruct (_ || _)%bool; [by eexists|].
  assert (hd_or 0 (ids ++ [n]) ∈ ids ++ [n]) as Hin by (destruct ids; cbn; set_solver).
  cbn [session_set t1 set_set]. rewrite (dll_head _ _ Hdl).
  destruct (terminate_ok t1 _ _ Hr1 Hin) as (t2 & E2 & Hr2 & ->).
  eexists. split; [exact E2|]. split; [done|]. done.
Qed.

(** A session that is dropped before it was inserted. *)
Lemma new_dropped_ok t ids t1 n :
  tun_rep t ids -> session_new t = (t1, n) ->
  tun_rep (hev_object_unref n t1) ids /\ sessions (hev_object_unref n t1) = sessions t /\
  n ∉ ids /\ freed (hev_object_unref n t1) = freed t ++ [n].
Proof.
  intros Hr E. pose proof (session_new_ok t ids Hr) as Hnew. rewrite E in Hnew.
  destruct Hnew as (Hnz & Hn & Hl & _ & Hd & Hc & Hs & _ & Hf).
  split; [by apply session_unref_ok|]. split; [|cbn; by rewrite Hf]. cbn. rewrite Hs.
  apply delete_insert_id. destruct (sessions t !! n) eqn:En; [|done]. exfalso. apply Hn.
  apply (tun_rep_in t ids n Hr). by eexists.
Qed.

(** A session that is inserted. *)
Lemma new_inserted_ok t ids t1 n :
  tun_rep t ids -> session_new t = (t1, n) ->
  exists t', hev_socks5_tunnel_insert_session max n t1 = Some t' /\ n ∉ ids /\
    tun_rep t' (ids ++ [n]) /\
    limited (ids ++ [n]) (<[n := new_session]> (sessions t)) (sessions t') /\
    run t' = run t /\ freed t' = freed t.
Proof.
  intros Hr E. pose proof (session_new_ok t ids Hr) as Hnew. rewrite E in Hnew.
  destruct Hnew as (Hnz & Hn & Hl & Hcell & Hd & Hc & Hs & Hrun & Hf).
  destruct (insert_ok t1 ids n Hnz Hn Hl Hcell Hd Hc) as (t2 & E2 & Hr2 & Hlim & Hrun2 & Hf2).
  exists t2. rewrite Hs in Hlim. by rewrite Hrun2, Hf2.
Qed.

(** What a callback that [opens] a session does to the sessions. *)
Inductive opened (opens task_ok : bool) (ids : list Z) (t : HevSocks5Tunnel) :
  list Z -> HevSocks5Tunnel -> Prop :=
| opened_no t' : opens = false -> sessions t' = sessions t -> freed t' = freed t ->
    opened opens task_ok ids t ids t'
| opened_dropped n t' : opens = true -> task_ok = false -> n ∉ ids ->
    sessions t' = sessions t -> freed t' = freed t ++ [n] -> opened opens task_ok ids t ids t'
| opened_new n t' : opens = true -> task_ok = true -> n ∉ ids ->
    limited (ids ++ [n]) (<[n := new_session]> (sessions t)) (sessions t') ->
    freed t' = freed t -> opened opens task_ok ids t (ids ++ [n]) t'.

(** The common end of the two callbacks. *)
Lemma opens_ok {R} t ids task_ok (drop : HevSocks5Tunnel -> HevSocks5Tunnel) (bad good : R) t1 n :
  tun_rep t ids -> session_new t = (t1, n) ->
  (forall u l, tun_rep u l -> tun_rep (drop u) l) ->
  (forall u, sessions (drop u) = sessions u /\ freed (drop u) = freed u /\ run (drop u) = run u) ->
  exists t' ids', (if negb task_ok then Some (drop (hev_object_unref n t1), bad) else
      t ← hev_socks5_tunnel_insert_session max n t1; Some (wake_timer t, good)) =
      Some (t', if task_ok then good else bad) /\
    run t' = run t /\ tun_rep t' ids' /\ opened true task_ok ids t ids' t'.
Proof.
  intros Hr En Hdrop Hsame. destruct task_ok; cbn [negb].
  - destruct (new_inserted_ok t ids t1 n Hr En) as (t2 & E & Hn & Hr2 & Hlim & Hrun & Hf).
    rewrite E. exists (wake_timer t2), (ids ++ [n]). do 3 (split; [done|]). by apply opened_new.
  - destruct (new_dropped_ok t ids t1 n Hr En) as (Hr2 & Hs & Hn & Hf).
    destruct (Hsame (hev_object_unref n t1)) as (Hs' & Hf' & Hrun').
    eexists _, ids. split; [done|]. split; [rewrite Hrun'; by injection En as <- _|].
    split; [by apply Hdrop|]. by apply (opened_dropped _ _ _ _ n); rewrite ?Hs', ?Hf'.
Qed.

Lemma accept_ok t ids new_ok task_ok err :
  tun_rep t ids ->
  exists t' r ids', tcp_accept_handler max err new_ok task_ok t = Some (t', r) /\ run t' = run t /\
    (r = ERR_OK <-> (Z.eqb err ERR_OK && run t && new_ok && task_ok)%bool = true) /\
    tun_rep t' ids' /\ opened (Z.eqb err ERR_OK && run t && new_ok) task_ok ids t ids' t'.
Proof.
  intros Hr. unfold tcp_accept_handler.
  destruct (Z.eqb_spec err ERR_OK) as [->|He]; cbn [negb andb];
    [|by eexists _, _, ids; repeat (split; [done|]); constructor].
  destruct (run t) eqn:Er; cbn [negb andb]; [|by eexists _, _, ids; repeat (split; [done|]); constructor].
  destruct new_ok; cbn [negb andb]; [|by eexists _, _, ids; repeat (split; [done|]); constructor].
  destruct (session_new t) as [t1 n] eqn:En.
  destruct (opens_ok t ids task_ok id ERR_MEM ERR_OK t1 n Hr En) as (t' & ids' & E & Hrun & Hr' & Ho);
    [done|done|].
  unfold id in E. rewrite E. eexists _, _, ids'. split; [done|]. rewrite Hrun. split; [done|].
  split; [by destruct task_ok|done].
Qed.

Lemma datagram_ok t ids dns new_ok task_ok :
  tun_rep t ids ->
  exists t' r ids', udp_recv_handler max dns new_ok task_ok t = Some (t', r) /\ run t' = run t /\
    r = (run t && dns)%bool /\
    tun_rep t' ids' /\ opened (run t && negb dns && new_ok) task_ok ids t ids' t'.
Proof.
  intros Hr. unfold udp_recv_handler.
  destruct (run t) eqn:Er; cbn [negb andb]; [|by eexists _, _, ids; repeat (split; [done|]); constructor].
  destruct dns; cbn [negb andb]; [by eexists _, _, ids; repeat (split; [done|]); constructor|].
  destruct new_ok; cbn [negb andb]; [|by eexists _, _, ids; repeat (split; [done|]); constructor].
  destruct (session_new t) as [t1 n] eqn:En.
  destruct (opens_ok t ids task_ok udp_remove false false t1 n Hr En) as (t' & ids' & E & Hrun & Hr' & Ho);
    [done|done|].
  rewrite E. eexists _, _, ids'. split; [done|]. rewrite Hrun. split; [done|].
  split; [by destruct task_ok|done].
Qed.

(** Changing the data of a live session. *)
Lemma set_data_ok t ids n sd :
  tun_rep t ids -> is_Some (sessions t !! n) ->
  tun_rep (set_sessions (<[n := sd]> (sessions t)) t) ids.
Proof.
  intros (Hl & Hd & Hc) Hn. split; [done|]. split; [|done]. cbn. by rewrite dom_insert_same.
Qed.

(** The end of a wait: the timeout before it decides, and a session that splices
    moves to the end. *)
Lemma wake_ok t ids n sd type timeout rest splicing :
  tun_rep t ids -> sessions t !! n = Some sd -> sd_wait sd = Some (type, timeout) ->
  exists t', session_wake max n rest splicing t = Some (t', hev_socks5_task_io_yielder
      (mkSocks5 0 timeout 0 0 0) type (hev_task_sleep timeout rest)) /\
    tun_rep t' (if (splicing && negb (Z.eqb max 0))%bool then without n ids ++ [n] else ids) /\
    sessions t' = <[n := mkSD (sd_timeout sd) None false]> (sessions t) /\ run t' = run t /\
    freed t' = freed t.
Proof.
  intros Hr Hn Hw. unfold session_wake. rewrite Hn. cbn [mbind option_bind]. rewrite Hw.
  cbn [mbind option_bind].
  assert (is_Some (sessions t !! n)) as Hn' by (by eexists).
  pose proof (set_data_ok t ids n (mkSD (sd_timeout sd) None false) Hr Hn') as Hr1.
  set (t1 := set_sessions _ t) in *.
  destruct splicing; cbn [andb]; [|by eexists; repeat (split; [done|])].
  destruct (dll_split _ ids n (proj1 Hr)) as (xs & ys & -> & Hx & Hy);
    [by apply (tun_rep_in t ids n Hr)|].
  destruct (update_ok max t1 xs n ys Hr1) as (t2 & E & Hr2 & Hs & Hrun & Hf).
  rewrite E, without_app by done. eexists. split; [done|]. rewrite Hs, Hrun, Hf. split; [|done].
  destruct (Z.eqb max 0); [done|]. cbn [negb]. by rewrite <- app_assoc.
Qed.

(** The stop: every session of the list is told to end. *)
Lemma terminate_loop_ok ys : forall xs t fuel,
  tun_rep t (xs ++ ys) -> (length ys <= fuel)%nat ->
  exists t', terminate_loop fuel (hd_or 0 ys) t = Some t' /\ tun_rep t' (xs ++ ys) /\
    run t' = run t /\ freed t' = freed t /\
    (forall n, sessions t' !! n = if decide (n ∈ ys) then ended <$> sessions t !! n else sessions t !! n).
Proof.
  induction ys as [|y ys IH]; intros xs t fuel Hr Hf.
  { exists t. destruct fuel; (split; [done|]); repeat (split; [done|]); intros n;
      by rewrite decide_False by set_solver. }
  destruct fuel as [|fuel]; [simpl in Hf; lia|]. change (hd_or 0 (y :: ys)) with y. cbn [terminate_loop].
  destruct (dll_next _ _ _ _ (proj1 Hr)) as [Hy Hnext].
  destruct (Z.eqb_spec y 0) as [|_]; [done|].
  destruct (terminate_ok t _ y Hr) as (t1 & E & Hr1 & Et1); [set_solver|].
  rewrite E. cbn [mbind option_bind].
  assert (session_set t1 = session_set t) as -> by (by rewrite Et1). rewrite Hnext.
  cbn [mbind option_bind]. rewrite (cons_middle y xs ys), app_assoc in Hr1 |- *.
  destruct (IH (xs ++ [y]) t1 fuel Hr1) as (t2 & E2 & Hr2 & Hrun & Hfr & Hlk); [simpl in Hf; lia|].
  exists t2. split; [exact E2|]. split; [done|]. rewrite Hrun, Hfr, Et1. split; [done|].
  split; [done|]. intros n. rewrite Hlk, Et1. cbn.
  destruct (decide (n = y)) as [->|].
  - rewrite lookup_alter_eq, (decide_True (P := y ∈ y :: ys)) by (by left).
    destruct (decide (y ∈ ys)); [|done]. by destruct (sessions t !! y).
  - rewrite lookup_alter_ne by done. destruct (decide (n ∈ ys)).
    + by rewrite decide_True by (by right).
    + by rewrite decide_False by set_solver.
Qed.

Lemma stop_ok t ids :
  tun_rep t ids ->
  exists t', event_task_stop t = Some t' /\ tun_rep t' ids /\ run t' = false /\
    freed t' = freed t /\ sessions t' = ended <$> sessions t.
Proof.
  intros Hr. unfold event_task_stop. change (session_set (set_run false t)) with (session_set t).
  change (sessions (set_run false t)) with (sessions t). rewrite (dll_head _ ids (proj1 Hr)).
  destruct (terminate_loop_ok ids [] (set_run false t) (size (sessions t))) as
    (t' & E & Hr' & Hrun & Hf & Hlk); [done| |].
  { destruct Hr as (Hl & Hd & _). rewrite <- size_dom, Hd, size_list_to_set; [done|].
    destruct Hl as (_ & _ & _ & Hu). by apply uniq_NoDup. }
  exists t'. split; [exact E|]. split; [done|]. split; [by rewrite Hrun|]. split; [by rewrite Hf|].
  apply map_eq. intros n. rewrite Hlk, lookup_fmap. cbn.
  destruct (decide (n ∈ ids)) as [|Hn]; [done|].
  destruct (sessions t !! n) eqn:En; [|done]. exfalso. apply Hn, (tun_rep_in t ids n Hr). by eexists.
Qed.
End tunnel.
