(* ===== verification/TunnelProps.v ===== *)
(** * The tunnel's sessions: the properties *)
From S2P Require Import Prelude List Effect SockIO Addr Socks5 Tunnel TunnelSpec.

Section tunnel.
Context `{SessionAlloc} (max : Z).

(** ** Schedules *)

(** A session that lives is in a wait, or it runs. *)
Definition waits (n : Z) (t : HevSocks5Tunnel) : Prop :=
  match sessions t !! n with Some sd => is_Some (sd_wait sd) | None => False end.
Definition runs (n : Z) (t : HevSocks5Tunnel) : Prop :=
  match sessions t !! n with Some sd => sd_wait sd = None | None => False end.

Definition enabled (e : tstep) (t : HevSocks5Tunnel) : Prop :=
  match e with
  | TWake n _ _ => waits n t
  | TSleep n _ | TSetTimeout n _ | TEnd n => runs n t
  | TAccept _ _ _ | TDatagram _ _ _ | TStop => True
  end.

#[export] Instance enabled_dec e t : Decision (enabled e t).
Proof. destruct e; cbn; unfold runs, waits; try destruct (sessions t !! _); apply _. Defined.

Lemma runs_live n t : runs n t -> exists sd, sessions t !! n = Some sd /\ sd_wait sd = None.
Proof. unfold runs. destruct (sessions t !! n) as [sd|]; [|done]. by exists sd. Qed.

Lemma waits_live n t :
  waits n t -> exists sd type timeout, sessions t !! n = Some sd /\ sd_wait sd = Some (type, timeout).
Proof.
  unfold waits. destruct (sessions t !! n) as [sd|]; [|done]. intros [[type timeout] E].
  by exists sd, type, timeout.
Qed.

Inductive trun : HevSocks5Tunnel -> list tstep -> HevSocks5Tunnel -> Prop :=
| trun_nil t : trun t [] t
| trun_cons t e t' es t'' : enabled e t -> tstep_run max e t = Some t' -> trun t' es t'' ->
    trun t (e :: es) t''.

(** The states after [hev_socks5_tunnel_run] has set [run]. *)
Definition treach (t : HevSocks5Tunnel) : Prop := exists es, trun (set_run true tunnel0) es t.

(** ** The abstract machine: a list of sessions, the least recently active first *)

Definition closes (n : Z) (ids : list Z) (t : HevSocks5Tunnel) (ids' : list Z) (t' : HevSocks5Tunnel) :=
  ids' = without n ids /\ sessions t' = delete n (sessions t) /\ freed t' = freed t ++ [n].

Definition acts (e : tstep) (ids : list Z) (t : HevSocks5Tunnel) (ids' : list Z)
    (t' : HevSocks5Tunnel) : Prop :=
  match e with
  | TStop => run t' = false /\ ids' = ids /\ freed t' = freed t /\ sessions t' = ended <$> sessions t
  | _ => run t' = run t /\
    match e with
    | TStop => False
    | TAccept err new_ok task_ok =>
        opened max (Z.eqb err ERR_OK && run t && new_ok) task_ok ids t ids' t'
    | TDatagram dns new_ok task_ok =>
        opened max (run t && negb dns && new_ok) task_ok ids t ids' t'
    | TEnd n => closes n ids t ids' t'
    | TSetTimeout n timeout => ids' = ids /\ freed t' = freed t /\ exists sd,
        sessions t !! n = Some sd /\ sessions t' = <[n := mkSD timeout (sd_wait sd) (sd_woken sd)]> (sessions t)
    | TSleep n type => ids' = ids /\ freed t' = freed t /\ exists sd, sessions t !! n = Some sd /\
        sessions t' = <[n := mkSD (sd_timeout sd) (Some (type, sd_timeout sd)) false]> (sessions t)
    | TWake n rest splicing => exists sd type timeout,
        sessions t !! n = Some sd /\ sd_wait sd = Some (type, timeout) /\
        if Z.ltb (hev_socks5_task_io_yielder (mkSocks5 0 timeout 0 0 0) type
                    (hev_task_sleep timeout rest)) 0
        then closes n ids t ids' t'
        else ids' = (if (splicing && negb (Z.eqb max 0))%bool then without n ids ++ [n] else ids) /\
          freed t' = freed t /\
          sessions t' = <[n := mkSD (sd_timeout sd) None false]> (sessions t)
    end
  end.

Lemma without_moved n ids b : without n (if b : bool then without n ids ++ [n] else ids) = without n ids.
Proof.
  destruct b; [|done]. unfold without.
  rewrite filter_app, list_filter_filter_l, filter_cons_False by (done || by intros []).
  by rewrite filter_nil, app_nil_r.
Qed.

(** Every step of the code is a step of the abstract machine. *)
Lemma tstep_ok t ids e :
  tun_rep t ids -> enabled e t ->
  exists t' ids', tstep_run max e t = Some t' /\ tun_rep t' ids' /\ acts e ids t ids' t'.
Proof.
  intros Hr He.
  destruct e as [err new_ok task_ok|dns new_ok task_ok|n type|n rest splicing|n timeout|n|].
  - destruct (accept_ok max t ids new_ok task_ok err Hr) as (t' & r & ids' & E & Hrun & _ & Hr' & Ho).
    exists t', ids'. cbn [tstep_run]. by rewrite E.
  - destruct (datagram_ok max t ids dns new_ok task_ok Hr) as (t' & r & ids' & E & Hrun & _ & Hr' & Ho).
    exists t', ids'. cbn [tstep_run]. by rewrite E.
  - destruct (runs_live n t He) as (sd & Hsd & _). cbn [tstep_run acts]. unfold session_sleep.
    rewrite Hsd. eexists _, ids. split; [done|]. split; [by apply set_data_ok; [|eexists]|].
    repeat (split; [done|]). by exists sd.
  - destruct (waits_live n t He) as (sd & type & timeout & Hsd & Hw).
    destruct (wake_ok max t ids n sd type timeout rest splicing Hr Hsd Hw)
      as (t1 & E & Hr1 & Hs & Hrun & Hf).
    cbn [tstep_run acts]. rewrite E. cbn [mbind option_bind].
    destruct (Z.ltb _ 0) eqn:Eres.
    + destruct (task_end_ok t1 _ n Hr1) as (t2 & E2 & Hr2 & Hrun2 & Hf2 & Hs2).
      { apply (tun_rep_in t1 _ n Hr1). rewrite Hs, lookup_insert_eq. by eexists. }
      rewrite without_moved in Hr2. exists t2, (without n ids). split; [exact E2|]. split; [done|].
      split; [by rewrite Hrun2, Hrun|]. exists sd, type, timeout. split; [done|]. split; [done|].
      rewrite Eres. split; [done|]. by rewrite Hs2, Hs, Hf2, Hf, delete_insert_eq.
    + eexists t1, _. split; [done|]. split; [exact Hr1|]. split; [done|]. exists sd, type, timeout.
      split; [done|]. split; [done|]. by rewrite Eres.
  - destruct (runs_live n t He) as (sd & Hsd & _). cbn [tstep_run acts]. unfold session_set_timeout.
    rewrite Hsd. eexists _, ids. split; [done|]. split; [by apply set_data_ok; [|eexists]|].
    repeat (split; [done|]). by exists sd.
  - destruct (runs_live n t He) as (sd & Hsd & _).
    assert (n ∈ ids) as Hn by (apply (tun_rep_in t ids n Hr); by eexists).
    destruct (task_end_ok t ids n Hr Hn) as (t' & E & Hr' & Hrun & Hf & Hs). by eexists t', _.
  - destruct (stop_ok t ids Hr) as (t' & E & Hr' & Hrun & Hf & Hs). by exists t', ids.
Qed.

Lemma trun_rep t es t' ids : trun t es t' -> tun_rep t ids -> exists ids', tun_rep t' ids'.
Proof.
  intros Hrun. revert ids. induction Hrun as [t|t e t1 es t' He E _ IH]; intros ids Hr; [by exists ids|].
  destruct (tstep_ok t ids e Hr He) as (t2 & ids2 & E2 & Hr2 & _).
  assert (t2 = t1) as -> by congruence. by apply (IH ids2).
Qed.

Lemma treach_rep t : treach t -> exists ids, tun_rep t ids.
Proof.
  intros (es & Hrun). apply (trun_rep _ _ _ [] Hrun). split; [apply dll_empty|].
  split; [|done]. by apply dom_empty_L.
Qed.

Lemma trun_tsteps t es t' : trun t es t' -> tsteps max es t = Some t'.
Proof. induction 1 as [|t e t1 es t' _ E _ IH]; [done|]. cbn [tsteps]. by rewrite E. Qed.

(** The steps, each only if it is enabled. *)
Fixpoint checked (es : list tstep) (t : HevSocks5Tunnel) : option HevSocks5Tunnel :=
  match es with
  | [] => Some t
  | e :: es => if decide (enabled e t) then t ← tstep_run max e t; checked es t else None
  end.

Lemma checked_trun es : forall t t', checked es t = Some t' -> trun t es t'.
Proof.
  induction es as [|e es IH]; intros t t'; cbn [checked]; [intros [= ->]; constructor|].
  destruct (decide (enabled e t)) as [He|]; [|done]. intros (t1 & E & H1)%bind_Some.
  econstructor; [done|exact E|by apply IH].
Qed.

(** C35: In every state that the tunnel can reach, its list is a well-formed list
    of the live sessions, each once, and its counter is their number.  Each
    callback and each step of a session's task succeeds and does to the list
    what the abstract machine does: a new session goes to the end (and nothing
    happens when the tunnel stops, memory is short or the datagram is for the
    mapped DNS); with a limit, once there are that many, the first is told to
    end; a session that waits and splices moves to the end; one whose wait
    fails, or that is done, is removed and released; a stop tells every one to
    end. *)
Theorem tunnel_sessions_refine t :
  treach t ->
  exists ids, tun_rep t ids /\ forall e, enabled e t ->
    exists t' ids', tstep_run max e t = Some t' /\ tun_rep t' ids' /\ acts e ids t ids' t'.
Proof.
  intros Ht. destruct (treach_rep t Ht) as [ids Hr]. exists ids. split; [done|].
  intros e. by apply tstep_ok.
Qed.

(** ** The stop *)

Definition quiet (e : tstep) : Prop := match e with TSetTimeout _ _ => False | _ => True end.

(** No session starts, and those that live have no time left. *)
Definition stopping (t : HevSocks5Tunnel) : Prop :=
  run t = false /\ forall n sd, sessions t !! n = Some sd -> sd_timeout sd = 0.

Lemma opened_stopped opens task_ok ids t ids' t' :
  opened max opens task_ok ids t ids' t' -> opens = false ->
  ids' = ids /\ sessions t' = sessions t /\ freed t' = freed t.
Proof. destruct 1; intros; [done|congruence|congruence]. Qed.

Lemma without_perm n ids : uniq ids -> n ∈ ids -> ids ≡ₚ n :: without n ids.
Proof.
  intros Hu Hin. apply list_elem_of_split in Hin as (xs & ys & ->).
  rewrite without_app by disj. by rewrite Permutation_middle.
Qed.

Lemma insert_stopping n sd t t' :
  stopping t -> run t' = run t -> sd_timeout sd = 0 -> sessions t' = <[n := sd]> (sessions t) ->
  stopping t'.
Proof.
  intros [Hrun Ht] Hrun' Hsd Hs. split; [congruence|]. intros m sdm. rewrite Hs.
  intros [[_ <-]|[_ Hm]]%lookup_insert_Some; [done|by apply (Ht m)].
Qed.

Lemma closes_stopping n ids t ids' t' :
  tun_rep t ids -> is_Some (sessions t !! n) -> stopping t -> run t' = run t ->
  closes n ids t ids' t' ->
  stopping t' /\ exists gone, freed t' = freed t ++ gone /\ ids ≡ₚ gone ++ ids'.
Proof.
  intros Hr Hn [Hrun Ht] Hrun' (-> & Hs & Hf). split.
  { split; [congruence|]. intros m sd. rewrite Hs. intros [_ Hm]%lookup_delete_Some. by apply (Ht m). }
  exists [n]. split; [done|]. apply without_perm; [apply Hr|by apply (tun_rep_in t ids n Hr)].
Qed.

(** One step: no session is added, and each that goes is released. *)
Lemma stopping_step t ids e t' ids' :
  tun_rep t ids -> enabled e t -> quiet e -> stopping t -> acts e ids t ids' t' ->
  stopping t' /\ exists gone, freed t' = freed t ++ gone /\ ids ≡ₚ gone ++ ids'.
Proof.
  intros Hr He Hq Hst Ha. pose proof Hst as [Hrun Ht].
  destruct e as [err new_ok task_ok|dns new_ok task_ok|n type|n rest splicing|n timeout|n|];
    cbn [acts enabled quiet] in *; [| | | |done| |].
  1-2: destruct Ha as [Hrun' Ho]; apply opened_stopped in Ho as (-> & Hs & Hf);
    [|by rewrite Hrun, ?andb_false_r]; split;
    [split; [congruence|by rewrite Hs]|exists []; by rewrite app_nil_r].
  - destruct Ha as (Hrun' & -> & Hf & sd & Hsd & Hs). split; [|exists []; by rewrite app_nil_r].
    eapply insert_stopping; [done|done| |exact Hs]. exact (Ht n sd Hsd).
  - destruct Ha as (Hrun' & sd & type & timeout & Hsd & Hw & Hcase).
    assert (is_Some (sessions t !! n)) as Hn by (by eexists).
    destruct (Z.ltb _ 0) in Hcase; [by apply (closes_stopping n)|].
    destruct Hcase as (-> & Hf & Hs). split.
    + eapply insert_stopping; [done|done| |exact Hs]. exact (Ht n sd Hsd).
    + exists []. rewrite app_nil_r. split; [done|]. destruct (_ && _)%bool; [|done].
      etrans; [apply (without_perm n)|apply Permutation_cons_append]; [apply Hr|].
      by apply (tun_rep_in t ids n Hr).
  - destruct (runs_live n t He) as (sd & Hsd & _). destruct Ha as [Hrun' Hc].
    apply (closes_stopping n ids t ids' t' Hr); [by eexists|done|done|done].
  - destruct Ha as (Hrun' & -> & Hf & Hs). split; [|exists []; by rewrite app_nil_r].
    split; [done|]. intros m sd. rewrite Hs, lookup_fmap. destruct (sessions t !! m); by intros [= <-].
Qed.

(** ** A session's turns *)

Definition wakes (n : Z) (es : list tstep) : Prop := exists rest splicing, TWake n rest splicing ∈ es.

(** The session's task is done, or it goes through one wait for I/O. *)
Definition had_turn (n : Z) (es : list tstep) : Prop :=
  TEnd n ∈ es \/ exists es1 es2, es = es1 ++ TSleep n HEV_TASK_WAITIO :: es2 /\ wakes n es2.

(** What a session is in for: it is gone, its turns are still to come, or it is
    in a wait that began without time left. *)
Definition will_end (n : Z) (t : HevSocks5Tunnel) (es : list tstep) : Prop :=
  sessions t !! n = None \/ had_turn n es \/
  (sd_wait <$> sessions t !! n = Some (Some (HEV_TASK_WAITIO, 0)) /\ wakes n es).

(** The steps of the others, and those of the tunnel, leave a session's wait as it
    is. *)
Definition is_step_of (n : Z) (e : tstep) : Prop :=
  match e with
  | TSleep m _ | TWake m _ _ | TSetTimeout m _ | TEnd m => m = n
  | TAccept _ _ _ | TDatagram _ _ _ | TStop => False
  end.

Lemma step_of_other n ids e t ids' t' :
  run t = false -> ~ is_step_of n e -> acts e ids t ids' t' ->
  sd_wait <$> sessions t' !! n = sd_wait <$> sessions t !! n.
Proof.
  intros Hrun Hne Ha.
  destruct e as [err new_ok task_ok|dns new_ok task_ok|m type|m rest splicing|m timeout|m|];
    cbn [acts is_step_of] in *.
  1-2: destruct Ha as [_ Ho]; apply opened_stopped in Ho as (_ & -> & _);
    [done|by rewrite Hrun, ?andb_false_r].
  - destruct Ha as (_ & _ & _ & sd & _ & ->). by rewrite lookup_insert_ne.
  - destruct Ha as (_ & sd & type & timeout & _ & _ & Hc).
    destruct (Z.ltb _ 0) in Hc; [destruct Hc as (_ & -> & _)|destruct Hc as (_ & _ & ->)];
      [by rewrite lookup_delete_ne|by rewrite lookup_insert_ne].
  - destruct Ha as (_ & _ & _ & sd & _ & ->). by rewrite lookup_insert_ne.
  - destruct Ha as (_ & _ & -> & _). by rewrite lookup_delete_ne.
  - destruct Ha as (_ & _ & _ & ->). rewrite lookup_fmap. by destruct (sessions t !! n).
Qed.

Lemma is_step_of_dec n e : is_step_of n e \/ ~ is_step_of n e.
Proof.
  destruct e as [| |m ?|m ? ?|m ?|m|]; cbn; try (right; tauto);
    match goal with |- ?x = n \/ _ => destruct (decide (x = n)); auto end.
Qed.

Lemma closed_gone n ids t ids' t' : closes n ids t ids' t' -> sessions t' !! n = None.
Proof. intros (_ & -> & _). apply lookup_delete_eq. Qed.

Lemma had_turn_cons n e es :
  had_turn n (e :: es) ->
  e = TEnd n \/ (e = TSleep n HEV_TASK_WAITIO /\ wakes n es) \/ had_turn n es.
Proof.
  intros [Hin|(es1 & es2 & E & Hw)].
  - apply elem_of_cons in Hin as [<-|Hin]; [by left|]. right; right. by left.
  - destruct es1 as [|e1 es1]; cbn in E; injection E as -> ->; [by right; left|].
    right; right; right. by exists es1, es2.
Qed.

Lemma wakes_cons n e es : wakes n (e :: es) -> (exists r b, e = TWake n r b) \/ wakes n es.
Proof.
  intros (r & b & Hin). apply elem_of_cons in Hin as [<-|Hin]; [left|right]; by exists r, b.
Qed.

(** A step of the session itself. *)
Lemma will_end_own n ids e t ids' t' es :
  enabled e t -> quiet e -> stopping t -> is_step_of n e -> acts e ids t ids' t' ->
  will_end n t (e :: es) -> will_end n t' es.
Proof.
  intros He Hq [Hrun Ht] Hof Ha Hw.
  destruct e as [err new_ok task_ok|dns new_ok task_ok|m type|m rest splicing|m timeout|m|];
    cbn in Hof, Hq; try done; subst m; cbn [enabled acts] in *.
  - destruct Ha as (_ & _ & _ & sd & Hsd & Hs). destruct (runs_live n t He) as (sd' & Hsd' & Hnw).
    assert (sd' = sd) as -> by congruence. unfold will_end in *. rewrite Hsd in Hw.
    destruct Hw as [Hw|[Hw|[Hw _]]]; [done| |cbn in Hw; congruence].
    apply had_turn_cons in Hw as [Hw|[[Hw Hwk]|Hw]]; [done| |by right; left].
    injection Hw as ->. right; right. rewrite Hs, lookup_insert_eq. cbn. by rewrite (Ht n sd Hsd).
  - destruct Ha as (_ & sd & type & timeout & Hsd & Hwt & Hc). unfold will_end in *.
    rewrite Hsd in Hw. destruct Hw as [Hw|[Hw|[Hw _]]]; [done| |].
    + apply had_turn_cons in Hw as [Hw|[[Hw _]|Hw]]; [done|done|by right; left].
    + cbn in Hw. rewrite Hwt in Hw. injection Hw as -> ->. left. exact (closed_gone _ _ _ _ _ Hc).
  - left. exact (closed_gone _ _ _ _ _ (proj2 Ha)).
Qed.

(** Every step brings a session nearer to its end. *)
Lemma will_end_step n ids e t ids' t' es :
  enabled e t -> quiet e -> stopping t -> acts e ids t ids' t' ->
  will_end n t (e :: es) -> will_end n t' es.
Proof.
  intros He Hq Hst Ha Hw. destruct (is_step_of_dec n e) as [Hof|Hof]; [by eapply will_end_own|].
  pose proof (step_of_other n ids e t ids' t' (proj1 Hst) Hof Ha) as Hsame.
  unfold will_end. rewrite Hsame. destruct Hw as [Hw|[Hw|[Hw Hwk]]].
  - left. rewrite Hw in Hsame. by destruct (sessions t' !! n).
  - apply had_turn_cons in Hw as [->|[[-> _]|Hw]]; [by destruct (Hof eq_refl)..|by right; left].
  - apply wakes_cons in Hwk as [(r & b & ->)|Hwk]; [by destruct (Hof eq_refl)|by right; right].
Qed.

Lemma stopping_run t es t' ids :
  trun t es t' -> tun_rep t ids -> Forall quiet es -> stopping t ->
  exists ids' gone, tun_rep t' ids' /\ stopping t' /\ freed t' = freed t ++ gone /\
    ids ≡ₚ gone ++ ids' /\ (forall n, will_end n t es -> sessions t' !! n = None).
Proof.
  intros Hrun. revert ids. induction Hrun as [t|t e t1 es t' He E _ IH]; intros ids Hr Hq Hst.
  { exists ids, []. rewrite app_nil_r. repeat (split; [done|]).
    intros n [Hn|[[Hn|(es1 & ? & Hn & _)]|[_ (? & ? & Hn)]]]; [done| |by destruct es1|];
      by apply elem_of_nil in Hn. }
  apply Forall_cons in Hq as [Hq1 Hq].
  destruct (tstep_ok t ids e Hr He) as (t2 & ids2 & E2 & Hr2 & Ha).
  assert (t2 = t1) as -> by congruence.
  destruct (stopping_step t ids e t1 ids2 Hr He Hq1 Hst Ha) as (Hst1 & gone & Hf & Hp).
  destruct (IH ids2 Hr2 Hq Hst1) as (ids' & gone' & Hr' & Hst' & Hf' & Hp' & He').
  exists ids', (gone ++ gone'). split; [done|]. split; [done|].
  rewrite Hf', Hf, <- !app_assoc. split; [done|]. split; [by rewrite Hp, Hp'|].
  intros n Hw. apply He'. by eapply will_end_step.
Qed.

Lemma trun_app t es1 t1 es2 t2 : trun t es1 t1 -> trun t1 es2 t2 -> trun t (es1 ++ es2) t2.
Proof. induction 1 as [|t e t' es t'' He E _ IH]; intros; [done|]. econstructor; eauto. Qed.

Lemma trun_one t e t' : enabled e t -> tstep_run max e t = Some t' -> trun t [e] t'.
Proof. intros He E. econstructor; [done|done|constructor]. Qed.

(** One session can always be brought to its end. *)
Lemma one_ends t ids n :
  tun_rep t ids -> stopping t -> is_Some (sessions t !! n) ->
  exists es t', trun t es t' /\ Forall quiet es /\ sessions t' !! n = None.
Proof.
  assert (forall t ids, tun_rep t ids -> runs n t ->
    exists t', trun t [TEnd n] t' /\ sessions t' !! n = None) as Hend.
  { intros t0 ids0 Hr0 Hn0. destruct (tstep_ok t0 ids0 (TEnd n) Hr0 Hn0) as (t1 & ids1 & E & _ & _ & Ha).
    exists t1. split; [by apply trun_one|exact (closed_gone _ _ _ _ _ Ha)]. }
  intros Hr Hst [sd Hsd]. destruct (sd_wait sd) as [w|] eqn:Ew.
  - assert (enabled (TWake n 0 true) t) as He by (unfold enabled, waits; by rewrite Hsd, Ew).
    destruct (tstep_ok t ids _ Hr He) as (t1 & ids1 & E & Hr1 & Ha).
    destruct Ha as (_ & sd' & type & timeout & Hsd' & Hw & Hc). destruct (Z.ltb _ 0) in Hc.
    + exists [TWake n 0 true], t1. split; [by apply trun_one|]. split; [by repeat constructor|].
      by eapply closed_gone.
    + destruct Hc as (_ & _ & Hs). destruct (Hend t1 ids1 Hr1) as (t2 & Ht2 & Hn2).
      { unfold runs. by rewrite Hs, lookup_insert_eq. }
      exists [TWake n 0 true; TEnd n], t2. split; [by econstructor|]. split; [by repeat constructor|done].
  - destruct (Hend t ids Hr) as (t1 & Ht1 & Hn1); [unfold runs; by rewrite Hsd|].
    exists [TEnd n], t1. split; [done|]. split; [by repeat constructor|done].
Qed.

(** So can all of them. *)
Lemma all_end k : forall t ids, tun_rep t ids -> stopping t -> (length ids <= k)%nat ->
  exists es t', trun t es t' /\ Forall quiet es /\ sessions t' = ∅.
Proof.
  induction k as [|k IH]; intros t ids Hr Hst Hk.
  { destruct ids; [|simpl in Hk; lia]. exists [], t. split; [constructor|]. split; [constructor|].
    apply dom_empty_iff_L, (proj1 (proj2 Hr)). }
  destruct ids as [|n ids].
  { exists [], t. split; [constructor|]. split; [constructor|].
    apply dom_empty_iff_L, (proj1 (proj2 Hr)). }
  assert (is_Some (sessions t !! n)) as Hn by (apply (tun_rep_in t _ n Hr); by left).
  destruct (one_ends t _ n Hr Hst Hn) as (es1 & t1 & Hes1 & Hq1 & Hn1).
  destruct (stopping_run t es1 t1 _ Hes1 Hr Hq1 Hst) as (ids1 & gone & Hr1 & Hst1 & _ & Hp & _).
  destruct (IH t1 ids1 Hr1 Hst1) as (es2 & t2 & Hes2 & Hq2 & Hn2).
  { assert (n ∉ ids1) as Hni by (intros Hin; apply (tun_rep_in t1 ids1 n Hr1) in Hin; rewrite Hn1 in Hin; by destruct Hin).
    destruct gone as [|g gone].
    - exfalso. apply Hni. cbn in Hp. rewrite <- Hp. by left.
    - apply Permutation_length in Hp. rewrite length_app in Hp. simpl in Hp, Hk. lia. }
  exists (es1 ++ es2), t2. split; [by eapply trun_app|]. split; [by apply Forall_app|done].
Qed.

(** C36: Once the stop event is read, the tunnel takes no new session, and every
    session that lives, waiting or not, has its timeout at zero and is woken.
    In every schedule from then on in which no session restarts its timeout (the
    handshake of a session that is still connecting would do that, hence
    [quiet]), a session that is done, or that goes through one wait for I/O, is gone; each
    one that is gone was released exactly once; and whatever has happened, the
    sessions that are left can all be brought to their end, with the list empty
    and the counter zero. *)
Theorem tunnel_stops t :
  treach t ->
  exists t1, event_task_stop t = Some t1 /\ run t1 = false /\ sessions t1 = ended <$> sessions t /\
    forall es t2, trun t1 es t2 -> Forall quiet es ->
      (forall n, had_turn n es -> sessions t2 !! n = None) /\
      (exists gone, freed t2 = freed t1 ++ gone /\
         elements (dom (sessions t)) ≡ₚ gone ++ elements (dom (sessions t2))) /\
      (exists es' t3, trun t2 es' t3 /\ Forall quiet es' /\ sessions t3 = ∅ /\ session_count t3 = 0 /\
         hev_list_first (session_set t3) = 0).
Proof.
  intros Ht. destruct (treach_rep t Ht) as [ids Hr].
  destruct (stop_ok t ids Hr) as (t1 & E & Hr1 & Hrun & Hf & Hs). exists t1. do 3 (split; [done|]).
  assert (stopping t1) as Hst.
  { split; [done|]. intros n sd. rewrite Hs, lookup_fmap. destruct (sessions t !! n); by intros [= <-]. }
  intros es t2 Hes Hq.
  destruct (stopping_run t1 es t2 ids Hes Hr1 Hq Hst) as (ids2 & gone & Hr2 & Hst2 & Hf2 & Hp & Hgone).
  split; [intros n Hn; apply Hgone; by right; left|]. split.
  - exists gone. split; [done|].
    assert (forall u l, tun_rep u l -> elements (dom (sessions u)) ≡ₚ l) as Hdom.
    { intros u l ((_ & _ & _ & Hu) & -> & _). apply elements_list_to_set. by apply uniq_NoDup. }
    by rewrite (Hdom t ids Hr), (Hdom t2 ids2 Hr2).
  - destruct (all_end (length ids2) t2 ids2 Hr2 Hst2) as (es' & t3 & Hes' & Hq' & H3); [done|].
    destruct (stopping_run t2 es' t3 ids2 Hes' Hr2 Hq' Hst2) as (ids3 & _ & Hr3 & _).
    assert (ids3 = []) as ->.
    { apply elem_of_nil_inv. intros n Hn. apply (tun_rep_in t3 ids3 n Hr3) in Hn.
      rewrite H3 in Hn. by destruct Hn. }
    destruct Hr3 as ((Hh & _) & _ & Hc). exists es', t3. do 4 (split; [done|]). done.
Qed.
End tunnel.

(** ** Witnesses *)

#[export] Instance bump_sessions : SessionAlloc.
Proof.
  refine {| fresh_session := fun m => set_fold Z.max 0 (dom m) + 1 |}.
  - intros m. pose proof (set_fold_nonneg (dom m)). lia.
  - intros m. apply not_elem_of_dom. intros Hin. apply set_fold_max in Hin. lia.
Defined.

(** With a limit of three: a session that has been active, an older one, and a new one. *)
Definition demo_steps : list tstep :=
  [TAccept ERR_OK true true; TDatagram false true true; TSetTimeout 1 5000;
   TSleep 1 HEV_TASK_WAITIO; TWake 1 300 true; TSleep 2 HEV_TASK_WAITIO; TDatagram true true true; TAccept ERR_OK true false;
   TAccept ERR_OK true true].

Definition demo_tunnel : HevSocks5Tunnel :=
  default tunnel0 (tsteps 3 demo_steps (set_run true tunnel0)).

Lemma demo_reach : treach 3 demo_tunnel.
Proof. exists demo_steps. apply checked_trun. vm_compute. reflexivity. Qed.

Example demo_tunnel_state :
  (session_count demo_tunnel, freed demo_tunnel, sessions demo_tunnel !! 2) =
  (3, [3], Some (mkSD 0 (Some (HEV_TASK_WAITIO, -1)) true)).
Proof. vm_compute. reflexivity. Qed.

Lemma tunnel_sessions_refine_witness :
  exists ids, tun_rep demo_tunnel ids /\ forall e, enabled e demo_tunnel ->
    exists t' ids', tstep_run 3 e demo_tunnel = Some t' /\ tun_rep t' ids' /\
      acts 3 e ids demo_tunnel ids' t'.
Proof. exact (tunnel_sessions_refine 3 demo_tunnel demo_reach). Defined.

Lemma tunnel_stops_witness :
  exists t1, event_task_stop demo_tunnel = Some t1 /\ run t1 = false /\
    exists es t2, trun 3 t1 es t2 /\ sessions t2 = ∅ /\ session_count t2 = 0.
Proof.
  destruct (tunnel_stops 3 demo_tunnel demo_reach) as (t1 & E & Hrun & _ & Hall).
  exists t1. split; [exact E|]. split; [exact Hrun|].
  destruct (Hall [] t1) as (_ & _ & es & t2 & Hes & _ & Hs & Hc & _); [constructor|constructor|].
  exists es, t2. split; [exact Hes|]. split; [exact Hs|exact Hc].
Defined.
