(* ===== verification/TunDevice.v ===== *)
(** * The tunnel device on Linux (hev-tunnel-linux.c)

    The calls go to a kernel that decides which of them fail; a call that
    succeeds gives a handle that is not in use. *)
From S2P Require Import Prelude CInt Effect Addr.

(** ** The outside *)

(** Descriptors, tasks, lwIP's control blocks, allocators and other memory. *)
Inductive kind := KFd | KTask | KTcp | KUdp | KAllocator | KMemory.

#[export] Instance kind_eq_dec : EqDecision kind.
Proof. solve_decision. Defined.

#[export] Instance kind_countable : Countable kind.
Proof.
  refine (inj_countable' (fun k => match k with KFd => 0%nat | KTask => 1%nat | KTcp => 2%nat | KUdp => 3%nat | KAllocator => 4%nat | KMemory => 5%nat end)
    (fun n => match n with 0%nat => KFd | 1%nat => KTask | 2%nat => KTcp | 3%nat => KUdp | 4%nat => KAllocator | _ => KMemory end) _).
  by intros [].
Defined.

(** The control requests; a [struct ifreq] begins with the device's [name]. *)
Inductive request :=
| FIONBIO (on : Z)
| TUNSETIFF (name : list Z) (flags : Z)
| SIOCSIFMTU (name : list Z) (mtu : Z)
| SIOCGIFFLAGS (name : list Z)
| SIOCSIFFLAGS (name : list Z) (flags : Z)
| SIOCSIFADDR (name : list Z) (addr : list Z)
| SIOCSIFNETMASK (name : list Z) (mask : list Z)
| SIOCGIFINDEX (name : list Z)
| SIOCSIFADDR6 (ifindex : Z) (addr : list Z) (prefix : Z).

Inductive devcall :=
| DNew (k : kind)
| DFree (k : kind) (h : Z)
| DPair
| DIoctl (fd : Z) (r : request)
| DExec (script : list Z) (name : list Z) (index : Z) (wait : Z)
| DNameToIndex (name : list Z)
| DDup (fd : Z)
| DOpen (path : list Z)
| DWritePid (fd : Z)
| DDaemon
| DGetrlimit
| DSetrlimit (cur max : Z)
| DSetspecific
| DEpollCreate
| DFcntl (fd : Z)
| DSigaltstack
| DSigaction.

(** [d_ret]: negative for a call that fails, then minus the [errno]; the other
    functions: what it stores. *)
Class Device := {
  d_ret : list devcall -> devcall -> Z;
  d_name : list devcall -> list Z;
  d_int : list devcall -> Z;
  d_fresh : kind -> gset (kind * Z) -> Z;
  d_fresh_new : forall k live, (k, d_fresh k live) ∉ live;
  d_fresh_fd : forall live, 0 <= d_fresh KFd live;
  d_fresh_ptr : forall k live, d_fresh k live <> 0 \/ k = KFd;
}.

(** [tun_name] is the static variable; [live]: the handles that exist; [calls]:
    the calls made, the latest first. *)
Record Dev := mkDev { tun_name : list Z; live : gset (kind * Z); calls : list devcall }.

Definition dev0 : Dev := mkDev (replicate 16 0) ∅ [].

Section device.
Context `{Device} `{Pton}.
Abbreviation MD := (M Dev).

Definition did (c : devcall) (d : Dev) : Dev := mkDev (tun_name d) (live d) (c :: calls d).
Definition set_live l (d : Dev) : Dev := mkDev (tun_name d) l (calls d).
Definition set_tun_name n (d : Dev) : Dev := mkDev n (live d) (calls d).

Definition dev_call (c : devcall) : MD Z :=
  d ← mget; _ ← mput (did c d); mret (d_ret (calls d) c).

(** What a failed [k] returns. *)
Definition none_of (k : kind) : Z := match k with KFd => -1 | _ => 0 end.

(** The call that makes a handle. *)
Definition dev_make (k : kind) (c : devcall) : MD Z :=
  r ← dev_call c;
  if Z.ltb r 0 then mret (none_of k) else
  d ← mget;
  let h := d_fresh k (live d) in
  _ ← mput (set_live ({[ (k, h) ]} ∪ live d) d);
  mret h.

Definition dev_new (k : kind) : MD Z := dev_make k (DNew k).

(** A descriptor that is not open is an error that no caller looks at; any other
    handle must exist. *)
Definition dev_free (k : kind) (h : Z) : MD () :=
  _ ← dev_call (DFree k h);
  d ← mget;
  if (bool_decide (k = KFd) || bool_decide ((k, h) ∈ live d))%bool
  then mput (set_live (live d ∖ {[ (k, h) ]}) d) else mlift None.

(** The result and [errno]. *)
Definition ioctl (fd : Z) (r : request) : MD (Z * Z) :=
  res ← dev_call (DIoctl fd r);
  mret (if Z.ltb res 0 then (-1, - res) else (res, 0)).

(** ** The functions *)

Definition IFNAMSIZ : Z := 16.
Definition IFF_UP : Z := 1.
Definition IFF_TUN : Z := 1.
Definition IFF_MULTI_QUEUE : Z := 256.
Definition IFF_NO_PI : Z := 4096.
Definition EEXIST : Z := 17.

Definition hev_tunnel_open (name : option (list Z)) (multi_queue : Z) : MD Z :=
  fd ← dev_new KFd;
  if Z.ltb fd 0 then mret (-1) else
  let flags := Z.lor IFF_TUN IFF_NO_PI in
  let flags := if Z.eqb multi_queue 0 then flags else Z.lor flags IFF_MULTI_QUEUE in
  ifr_name ← (match name with
              | Some name => mlift (strncpy (replicate 16 0) 0 name (IFNAMSIZ - 1))
              | None => mret (replicate 16 0)
              end);
  '(res, _) ← ioctl fd (TUNSETIFF ifr_name flags);
  if Z.ltb res 0 then _ ← dev_free KFd fd; mret res else
  d ← mget;
  _ ← mput (set_tun_name (d_name (calls d)) d);
  mret fd.

Definition hev_tunnel_close (fd : Z) : MD () := dev_free KFd fd.

(** [body] with a socket, which is then closed. *)
Definition with_socket (body : Z -> MD Z) : MD Z :=
  fd ← dev_new KFd;
  if Z.ltb fd 0 then mret (-1) else
  res ← body fd;
  _ ← dev_free KFd fd;
  mret res.

Definition hev_tunnel_set_mtu (mtu : Z) : MD Z :=
  with_socket (fun fd =>
    d ← mget;
    '(res, _) ← ioctl fd (SIOCSIFMTU (tun_name d) mtu);
    mret res).

Definition hev_tunnel_set_state (state : Z) : MD Z :=
  with_socket (fun fd =>
    d ← mget;
    '(res, _) ← ioctl fd (SIOCGIFFLAGS (tun_name d));
    if Z.ltb res 0 then mret res else
    d ← mget;
    let flags := d_int (calls d) in
    let flags := if Z.eqb state 0 then Z.land flags (Z.lnot IFF_UP) else Z.lor flags IFF_UP in
    '(res, _) ← ioctl fd (SIOCSIFFLAGS (tun_name d) flags);
    mret res).

(** [htonl (((unsigned int)(-1)) << (32 - prefix))], as stored; a shift by 32 is
    undefined. *)
Definition netmask (prefix : Z) : option (list Z) :=
  if Z.leb 32 (32 - prefix) then None else
  let m := Z.shiftl 4294967295 (32 - prefix) in
  Some (map (fun s => u8 (Z.shiftr m s)) [24; 16; 8; 0]).

Definition hev_tunnel_set_ipv4 (addr : list Z) (prefix : Z) : MD Z :=
  with_socket (fun fd =>
    match inet_pton4 addr with
    | None => mret 0
    | Some a =>
        d ← mget;
        '(res, _) ← ioctl fd (SIOCSIFADDR (tun_name d) a);
        if Z.ltb res 0 then mret res else
        mask ← mlift (netmask prefix);
        '(res, errno) ← ioctl fd (SIOCSIFNETMASK (tun_name d) mask);
        mret (if (Z.ltb res 0 && Z.eqb errno EEXIST)%bool then 0 else res)
    end).

Definition hev_tunnel_set_ipv6 (addr : list Z) (prefix : Z) : MD Z :=
  with_socket (fun fd =>
    d ← mget;
    '(res, _) ← ioctl fd (SIOCGIFINDEX (tun_name d));
    if Z.ltb res 0 then mret res else
    d ← mget;
    let ifindex := d_int (calls d) in
    match inet_pton6 addr with
    | None => mret 0
    | Some a =>
        '(res, errno) ← ioctl fd (SIOCSIFADDR6 ifindex a prefix);
        mret (if (Z.ltb res 0 && Z.eqb errno EEXIST)%bool then 0 else res)
    end).

Definition hev_tunnel_get_name : MD (list Z) := d ← mget; mret (tun_name d).

Definition hev_tunnel_get_index : MD Z := d ← mget; dev_call (DNameToIndex (tun_name d)).

(** ** Handles

    [owns l d]: the handles that exist are those of [l]. *)
Definition owns (l : list (kind * Z)) (d : Dev) : Prop := NoDup l /\ live d = list_to_set l.

Lemma owns_perm l l' d : l ≡ₚ l' -> owns l d -> owns l' d.
Proof.
  intros Hp [Hnd Hl]. split; [by rewrite <- Hp|]. rewrite Hl. by apply list_to_set_perm_L.
Qed.

Lemma mwp_dev_call c d Q : Q (did c d) (d_ret (calls d) c) -> mwp (dev_call c) d Q.
Proof. intros HQ. unfold dev_call. by msteps. Qed.

Lemma mwp_dev_make k c l d (Q : Dev -> Z -> Prop) :
  owns l d ->
  (forall d', owns l d' -> d_ret (calls d) c < 0 -> Q d' (none_of k)) ->
  (forall d' h, owns ((k, h) :: l) d' -> 0 <= d_ret (calls d) c ->
     match k with KFd => 0 <= h | _ => h <> 0 end -> Q d' h) ->
  mwp (dev_make k c) d Q.
Proof.
  intros [Hnd Hl] Hbad Hgood. unfold dev_make. mstep. apply mwp_dev_call.
  destruct (Z.ltb_spec (d_ret (calls d) c) 0); [mstep; by apply Hbad|]. msteps.
  apply Hgood; [|done|].
  - split; cbn; [|by rewrite Hl]. apply NoDup_cons. split; [|done].
    rewrite <- (elem_of_list_to_set (C := gset _)), <- Hl. apply d_fresh_new.
  - cbn [live did]. destruct k; [apply d_fresh_fd|..]; edestruct d_fresh_ptr; done.
Qed.

Lemma mwp_dev_new k l d (Q : Dev -> Z -> Prop) :
  owns l d ->
  (forall d', owns l d' -> d_ret (calls d) (DNew k) < 0 -> Q d' (none_of k)) ->
  (forall d' h, owns ((k, h) :: l) d' -> 0 <= d_ret (calls d) (DNew k) ->
     match k with KFd => 0 <= h | _ => h <> 0 end -> Q d' h) ->
  mwp (dev_new k) d Q.
Proof. apply mwp_dev_make. Qed.

Lemma mwp_dev_free k h l d (Q : Dev -> () -> Prop) :
  owns ((k, h) :: l) d -> (forall d', owns l d' -> Q d' ()) -> mwp (dev_free k h) d Q.
Proof.
  intros [Hnd Hl] HQ. unfold dev_free. mstep. apply mwp_dev_call. mstep. mstep.
  rewrite (bool_decide_eq_true_2 ((k, h) ∈ _)), orb_true_r by (cbn; rewrite Hl; set_solver).
  mstep. apply HQ. apply NoDup_cons in Hnd as [Hk Hnd]. split; [done|]. cbn. rewrite Hl.
  set_solver.
Qed.

Lemma mwp_ioctl fd r l d (Q : Dev -> Z * Z -> Prop) :
  owns l d -> (forall d' a, owns l d' -> (a.1 < 0 <-> d_ret (calls d) (DIoctl fd r) < 0) -> Q d' a) ->
  mwp (ioctl fd r) d Q.
Proof.
  intros Ho HQ. unfold ioctl. mstep. apply mwp_dev_call. mstep. apply HQ; [done|].
  destruct (Z.ltb_spec (d_ret (calls d) (DIoctl fd r)) 0); cbn [fst]; lia.
Qed.

(** A function that uses only a socket of its own leaves the handles as they
    were, whatever fails. *)
Lemma mwp_with_socket body l d :
  owns l d ->
  (forall fd d, owns ((KFd, fd) :: l) d -> mwp (body fd) d (fun d' _ => owns ((KFd, fd) :: l) d')) ->
  mwp (with_socket body) d (fun d' _ => owns l d').
Proof.
  intros Ho Hb. unfold with_socket. mstep. apply (mwp_dev_new KFd l); [done| |].
  - intros d' Hd' _. cbn. by mstep.
  - intros d' h Hd' _ Hh. cbn in Hh. destruct (Z.ltb_spec h 0); [lia|]. mstep.
    eapply mwp_mono; [by apply Hb|]. intros d2 r Hd2. mstep. apply (mwp_dev_free KFd h l); [done|].
    intros d3 Hd3. by mstep.
Qed.

Ltac dev_body :=
  repeat first
    [ mstep
    | eapply mwp_ioctl; [eassumption|intros ? [] ? _; cbn [fst]]
    | progress cbv beta iota
    | eapply mwp_lift; [reflexivity|]
    | match goal with |- mwp (if ?b then _ else _) _ _ => destruct b end
    | match goal with |- mwp (match ?x with _ => _ end) _ _ => destruct x end
    | eassumption ].

Lemma set_mtu_owns mtu l d :
  owns l d -> mwp (hev_tunnel_set_mtu mtu) d (fun d' _ => owns l d').
Proof. intros Ho. apply mwp_with_socket; [done|]. intros fd d' Hd'. dev_body. Qed.

Lemma set_state_owns state l d :
  owns l d -> mwp (hev_tunnel_set_state state) d (fun d' _ => owns l d').
Proof. intros Ho. apply mwp_with_socket; [done|]. intros fd d' Hd'. dev_body. Qed.

Lemma set_ipv4_owns addr prefix l d :
  0 < prefix -> owns l d -> mwp (hev_tunnel_set_ipv4 addr prefix) d (fun d' _ => owns l d').
Proof.
  intros Hp Ho. apply mwp_with_socket; [done|]. intros fd d' Hd'.
  assert (exists m, netmask prefix = Some m) as [m Hm].
  { unfold netmask. destruct (Z.leb_spec 32 (32 - prefix)); [lia|by eexists]. }
  rewrite Hm. dev_body.
Qed.

Lemma set_ipv6_owns addr prefix l d :
  owns l d -> mwp (hev_tunnel_set_ipv6 addr prefix) d (fun d' _ => owns l d').
Proof. intros Ho. apply mwp_with_socket; [done|]. intros fd d' Hd'. dev_body. Qed.

(** A device that could not be set up is closed. *)
Lemma open_owns name multi_queue l d (Q : Dev -> Z -> Prop) :
  owns l d ->
  (forall d' r, r < 0 -> owns l d' -> Q d' r) ->
  (forall d' fd, 0 <= fd -> owns ((KFd, fd) :: l) d' -> Q d' fd) ->
  mwp (hev_tunnel_open name multi_queue) d Q.
Proof.
  intros Ho Hbad Hgood. unfold hev_tunnel_open. mstep. apply (mwp_dev_new KFd l); [done| |].
  { intros d' Hd' _. cbn. mstep. by apply Hbad. }
  intros d' fd Hd' _ Hfd. cbn in Hfd. destruct (Z.ltb_spec fd 0); [lia|]. mstep.
  assert (exists n, (match name with
    | Some name => mlift (strncpy (replicate 16 0) 0 name (IFNAMSIZ - 1))
    | None => mret (replicate 16 0) end : M Dev (list Z)) d' = Some (d', n)) as [n En].
  { destruct name as [name|]; [|by eexists]. unfold mlift.
    assert (is_Some (strncpy (replicate 16 0) 0 name (IFNAMSIZ - 1))) as [n ->]; [|by exists n].
    unfold strncpy, memcpy, IFNAMSIZ. rewrite length_app, !length_replicate, length_take.
    destruct (_ || _)%bool eqn:E; [|by eexists]. rewrite !orb_true_iff, !Z.ltb_lt in E. lia. }
  exists d', n. split; [done|]. mstep. apply (mwp_ioctl _ _ _ _ _ Hd'). intros d2 [res e] Hd2 _.
  destruct (Z.ltb_spec res 0); [|msteps; by apply Hgood].
  mstep. apply (mwp_dev_free KFd fd l); [done|]. intros d3 Hd3. mstep. by apply Hbad.
Qed.
End device.
