(* ===== verification/TunnelInit.v ===== *)
(** * The tunnel's start and end (hev-socks5-tunnel.c)

    The static variables, and the functions that fill and release them. *)
From S2P Require Import Prelude CInt Effect List RBTree Addr MappedDNS Config TunDevice.

(** The packets and bytes counted, modulo the width of [size_t]. *)
Record Stats := mkStats { tx_packets : Z; rx_packets : Z; tx_bytes : Z; rx_bytes : Z }.

Record Globals := mkGlobals {
  dev : Dev;
  tun_fd : Z;
  tun_fd_local : Z;
  event_fds : Z * Z;
  tcp : Z;
  udp : Z;
  task_event : Z;
  task_lwip_io : Z;
  task_lwip_timer : Z;
  dns : singleton;
  netif_added : bool;
  stats : Stats;
}.

Definition globals0 : Globals :=
  mkGlobals dev0 (-1) 0 (-1, -1) 0 0 0 0 0 None false (mkStats 0 0 0 0).

Definition set_dev d g := mkGlobals d (tun_fd g) (tun_fd_local g) (event_fds g) (tcp g) (udp g)
  (task_event g) (task_lwip_io g) (task_lwip_timer g) (dns g) (netif_added g) (stats g).
Definition set_tun fd local g := mkGlobals (dev g) fd local (event_fds g) (tcp g) (udp g)
  (task_event g) (task_lwip_io g) (task_lwip_timer g) (dns g) (netif_added g) (stats g).
Definition set_event_fds p g := mkGlobals (dev g) (tun_fd g) (tun_fd_local g) p (tcp g) (udp g)
  (task_event g) (task_lwip_io g) (task_lwip_timer g) (dns g) (netif_added g) (stats g).
Definition set_pcbs t u g := mkGlobals (dev g) (tun_fd g) (tun_fd_local g) (event_fds g) t u
  (task_event g) (task_lwip_io g) (task_lwip_timer g) (dns g) (netif_added g) (stats g).
Definition set_tasks e i t g := mkGlobals (dev g) (tun_fd g) (tun_fd_local g) (event_fds g) (tcp g)
  (udp g) e i t (dns g) (netif_added g) (stats g).
Definition set_dns d g := mkGlobals (dev g) (tun_fd g) (tun_fd_local g) (event_fds g) (tcp g)
  (udp g) (task_event g) (task_lwip_io g) (task_lwip_timer g) d (netif_added g) (stats g).
Definition set_netif b g := mkGlobals (dev g) (tun_fd g) (tun_fd_local g) (event_fds g) (tcp g)
  (udp g) (task_event g) (task_lwip_io g) (task_lwip_timer g) (dns g) b (stats g).
Definition set_stats s g := mkGlobals (dev g) (tun_fd g) (tun_fd_local g) (event_fds g) (tcp g)
  (udp g) (task_event g) (task_lwip_io g) (task_lwip_timer g) (dns g) (netif_added g) s.

Abbreviation MG := (M Globals).

Definition on_dev {A} (m : M Dev A) : MG A := fun g =>
  match m (dev g) with Some (d, a) => Some (set_dev d g, a) | None => None end.

Definition modify (f : Globals -> Globals) : MG () := g ← mget; mput (f g).

Section init.
Context `{Device} `{Pton} (cfg : Config).

(** ** The device *)

Definition run_script (script : option (list Z)) (down : Z) : MG () :=
  match script with
  | None => mret ()
  | Some s =>
      name ← on_dev hev_tunnel_get_name;
      index ← on_dev hev_tunnel_get_index;
      _ ← on_dev (dev_call (DExec s name index down)); mret ()
  end.

(** The settings of a device that was just opened. *)
Definition tunnel_setup : MG Z :=
  res ← on_dev (hev_tunnel_set_mtu (hev_config_get_tunnel_mtu cfg));
  if Z.ltb res 0 then mret (-1) else
  ipv4 ← mlift (hev_config_get_tunnel_ipv4_address cfg);
  res ← (match ipv4 with Some a => on_dev (hev_tunnel_set_ipv4 a 32) | None => mret 0 end);
  if Z.ltb res 0 then mret (-1) else
  ipv6 ← mlift (hev_config_get_tunnel_ipv6_address cfg);
  res ← (match ipv6 with Some a => on_dev (hev_tunnel_set_ipv6 a 128) | None => mret 0 end);
  if Z.ltb res 0 then mret (-1) else
  res ← on_dev (hev_tunnel_set_state 1);
  if Z.ltb res 0 then mret (-1) else
  script_path ← mlift (hev_config_get_tunnel_post_up_script cfg);
  _ ← run_script script_path 0;
  g ← mget;
  _ ← mput (set_tun (tun_fd g) 1 g);
  mret 0.

Definition tunnel_init (extern_tun_fd : Z) : MG Z :=
  if Z.leb 0 extern_tun_fd then
    '(res, _) ← on_dev (ioctl extern_tun_fd (FIONBIO 1));
    if Z.ltb res 0 then mret (-1) else
    _ ← modify (fun g => set_tun extern_tun_fd (tun_fd_local g) g);
    mret 0
  else
    name ← mlift (hev_config_get_tunnel_name cfg);
    fd ← on_dev (hev_tunnel_open name (hev_config_get_tunnel_multi_queue cfg));
    _ ← modify (fun g => set_tun fd (tun_fd_local g) g);
    if Z.ltb fd 0 then mret (-1) else tunnel_setup.

Definition tunnel_fini : MG () :=
  g ← mget;
  if Z.eqb (tun_fd_local g) 0 then mret () else
  script_path ← mlift (hev_config_get_tunnel_pre_down_script cfg);
  _ ← run_script script_path 1;
  _ ← on_dev (hev_tunnel_close (tun_fd g));
  modify (set_tun (-1) 0).

(** ** lwIP's side *)

(** The binding stores into the block: NULL is a fault, and so is a block that
    was freed. *)
Definition bind_netif (k : kind) (pcb : Z) : MG () :=
  g ← mget; if bool_decide ((k, pcb) ∈ live (dev g)) then mret () else mlift None.

(** A new block takes the place of the connection's, which is freed; without
    memory the connection's stays and the result is NULL. *)
Definition tcp_listen (pcb : Z) : MG Z :=
  lpcb ← on_dev (dev_new KTcp);
  if Z.eqb lpcb 0 then mret 0 else
  _ ← on_dev (dev_free KTcp pcb); mret lpcb.

Definition gateway_init : MG Z :=
  _ ← modify (set_netif true);
  t ← on_dev (dev_new KTcp);
  _ ← bind_netif KTcp t;
  t ← tcp_listen t;
  _ ← modify (fun g => set_pcbs t (udp g) g);
  u ← on_dev (dev_new KUdp);
  _ ← modify (fun g => set_pcbs (tcp g) u g);
  _ ← bind_netif KUdp u;
  mret 0.

(** [udp_remove] and [tcp_close] return at once for NULL. *)
Definition gateway_fini : MG () :=
  g ← mget;
  _ ← (if Z.eqb (udp g) 0 then mret () else on_dev (dev_free KUdp (udp g)));
  _ ← (if Z.eqb (tcp g) 0 then mret () else on_dev (dev_free KTcp (tcp g)));
  modify (set_netif false).

(** ** The tasks *)

Definition socketpair : MG Z :=
  res ← on_dev (dev_call DPair);
  if Z.ltb res 0 then mret (-1) else
  d ← on_dev mget;
  let a := d_fresh KFd (live d) in
  let l := {[ (KFd, a) ]} ∪ live d in
  let b := d_fresh KFd l in
  _ ← on_dev (mput (set_live ({[ (KFd, b) ]} ∪ l) d));
  _ ← modify (set_event_fds (a, b));
  mret 0.

Definition event_task_init : MG Z :=
  res ← socketpair;
  if Z.ltb res 0 then mret (-1) else
  g ← mget;
  '(res, _) ← on_dev (ioctl (event_fds g).1 (FIONBIO 1));
  if Z.ltb res 0 then mret (-1) else
  t ← on_dev (dev_new KTask);
  _ ← modify (fun g => set_tasks t (task_lwip_io g) (task_lwip_timer g) g);
  if Z.eqb t 0 then mret (-1) else mret 0.

Definition event_task_fini : MG () :=
  g ← mget;
  _ ← (if Z.eqb (task_event g) 0 then mret () else
         _ ← on_dev (dev_free KTask (task_event g));
         modify (fun g => set_tasks 0 (task_lwip_io g) (task_lwip_timer g) g));
  g ← mget;
  _ ← (if Z.leb 0 (event_fds g).1 then
         _ ← on_dev (dev_free KFd (event_fds g).1);
         modify (fun g => set_event_fds (-1, (event_fds g).2) g)
       else mret ());
  g ← mget;
  if Z.leb 0 (event_fds g).2 then
    _ ← on_dev (dev_free KFd (event_fds g).2);
    modify (fun g => set_event_fds ((event_fds g).1, -1) g)
  else mret ().

Definition lwip_io_task_init : MG Z :=
  t ← on_dev (dev_new KTask);
  _ ← modify (fun g => set_tasks (task_event g) t (task_lwip_timer g) g);
  if Z.eqb t 0 then mret (-1) else mret 0.

Definition lwip_io_task_fini : MG () :=
  g ← mget;
  if Z.eqb (task_lwip_io g) 0 then mret () else
  _ ← on_dev (dev_free KTask (task_lwip_io g));
  modify (fun g => set_tasks (task_event g) 0 (task_lwip_timer g) g).

Definition lwip_timer_task_init : MG Z :=
  t ← on_dev (dev_new KTask);
  _ ← modify (fun g => set_tasks (task_event g) (task_lwip_io g) t g);
  if Z.eqb t 0 then mret (-1) else mret 0.

Definition lwip_timer_task_fini : MG () :=
  g ← mget;
  if Z.eqb (task_lwip_timer g) 0 then mret () else
  _ ← on_dev (dev_free KTask (task_lwip_timer g));
  modify (fun g => set_tasks (task_event g) (task_lwip_io g) 0 g).

(** ** The mapped DNS *)

Definition mapped_dns_init : MG Z :=
  let network := hev_config_get_mapdns_network cfg in
  let netmask := hev_config_get_mapdns_netmask cfg in
  let cache_size := hev_config_get_mapdns_cache_size cfg in
  if Z.eqb cache_size 0 then mret 0 else
  match hev_mapped_dns_new network netmask cache_size with
  | None => mret (-1)
  | Some d => _ ← modify (fun g => set_dns (hev_mapped_dns_put (dns g) (Some d)) g); mret 0
  end.

Definition mapped_dns_fini : MG () :=
  g ← mget;
  match hev_mapped_dns_get (dns g) with
  | None => mret ()
  | Some d =>
      _ ← mlift (hev_mapped_dns_destruct (Datatypes.S (size (nodes d))) d);
      modify (fun g => set_dns (hev_mapped_dns_put (dns g) None) g)
  end.

(** ** The whole *)

Definition hev_socks5_tunnel_fini : MG () :=
  _ ← mapped_dns_fini;
  _ ← lwip_timer_task_fini;
  _ ← lwip_io_task_fini;
  _ ← event_task_fini;
  _ ← gateway_fini;
  _ ← tunnel_fini;
  modify (set_stats (mkStats 0 0 0 0)).

(** The steps in their order; the first that fails ends them. *)
Fixpoint init_steps (steps : list (MG Z)) : MG Z :=
  match steps with
  | [] => mret 0
  | s :: steps =>
      res ← s;
      if Z.ltb res 0 then _ ← hev_socks5_tunnel_fini; mret (-1) else init_steps steps
  end.

Definition hev_socks5_tunnel_init (fd : Z) : MG Z :=
  init_steps [tunnel_init fd; gateway_init; event_task_init; lwip_io_task_init;
              lwip_timer_task_init; mapped_dns_init].

(** ** Counting *)

Definition ERR_OK : Z := 0.
Definition ERR_WOULDBLOCK : Z := -7.
Definition ERR_IF : Z := -12.
Definition size_t (v : Z) : Z := v mod 18446744073709551616.

(** [s]: what [hev_tunnel_write] returned; [again]: whether [errno] is EAGAIN. *)
Definition netif_output_handler (s : Z) (again : bool) : MG Z :=
  if Z.leb s 0 then mret (if again then ERR_WOULDBLOCK else ERR_IF) else
  _ ← modify (fun g => let st := stats g in
        set_stats (mkStats (tx_packets st) (size_t (rx_packets st + 1)) (tx_bytes st)
          (size_t (rx_bytes st + s))) g);
  mret ERR_OK.

(** A packet of [n] bytes that was read from the device ([lwip_io_task_entry]). *)
Definition count_packet (n : Z) (st : Stats) : Stats :=
  mkStats (size_t (tx_packets st + 1)) (rx_packets st) (size_t (tx_bytes st + n)) (rx_bytes st).

Definition hev_socks5_tunnel_stats (g : Globals) : Stats := stats g.

End init.
