(* ===== verification/TunnelInitProps.v ===== *)
(** * The tunnel's start and end: what is held and what is given back *)
From S2P Require Import Prelude CInt Effect List Addr RBTree MappedDNS MappedDNSSpec Config ConfigProps TunDevice TunnelInit.

Definition opt {A} (b : bool) (x : A) : list A := if b then [x] else [].

(** The handles that the variables hold, in the order in which they are
    released. *)
Definition held (g : Globals) : list (kind * Z) :=
  opt (negb (Z.eqb (task_lwip_timer g) 0)) (KTask, task_lwip_timer g) ++
  opt (negb (Z.eqb (task_lwip_io g) 0)) (KTask, task_lwip_io g) ++
  opt (negb (Z.eqb (task_event g) 0)) (KTask, task_event g) ++
  opt (Z.leb 0 (event_fds g).1) (KFd, (event_fds g).1) ++
  opt (Z.leb 0 (event_fds g).2) (KFd, (event_fds g).2) ++
  opt (negb (Z.eqb (udp g) 0)) (KUdp, udp g) ++
  opt (negb (Z.eqb (tcp g) 0)) (KTcp, tcp g) ++
  opt (negb (Z.eqb (tun_fd_local g) 0)) (KFd, tun_fd g).

(** Everything but the pointers to lwIP's blocks is as before the first start. *)
Definition idle (g : Globals) : Prop :=
  task_lwip_timer g = 0 /\ task_lwip_io g = 0 /\ task_event g = 0 /\
  (event_fds g).1 < 0 /\ (event_fds g).2 < 0 /\ tun_fd_local g = 0 /\ dns g = None.

(** A cache that can be destroyed. *)
Definition cache_ok (s : singleton) : Prop :=
  match s with
  | None => True
  | Some d => is_Some (hev_mapped_dns_destruct (Datatypes.S (size (nodes d))) d)
  end.

Lemma cache_rep_ok `{Allocator} d l : dns_rep d l -> cache_ok (Some d).
Proof.
  intros Hr. pose proof Hr as (addrs & Hc & _ & _ & HF).
  assert (size (nodes d) = length l) as Hsz.
  { rewrite <- (Forall2_length _ _ _ HF), <- size_dom.
    assert (dom (nodes d) = list_to_set addrs) as ->.
    { destruct Hc as [_ _ Hn _]. apply set_eq. intros a.
      by rewrite elem_of_dom, elem_of_list_to_set, Hn. }
    apply size_list_to_set. by eapply core_uniq. }
  destruct (destruct_ok (Datatypes.S (size (nodes d))) d l Hr) as (d' & E & _); [lia|]. by exists d'.
Qed.

Lemma cache_new_ok net_ mask_ max_ d : hev_mapped_dns_new net_ mask_ max_ = Some d -> cache_ok (Some d).
Proof.
  unfold hev_mapped_dns_new, hev_mapped_dns_construct. destruct (Z.ltb _ _); [done|].
  cbn. intros [= <-]. by eexists.
Qed.

Section props.
Context `{Device} `{Pton} (cfg : Config) (Hcfg : strings_readable cfg).

Lemma mwp_on_dev {A} (m : M Dev A) g (Q : Globals -> A -> Prop) :
  mwp m (dev g) (fun d a => Q (set_dev d g) a) -> mwp (on_dev m) g Q.
Proof. intros (d & a & E & HQ). exists (set_dev d g), a. unfold on_dev. by rewrite E. Qed.

Lemma mwp_modify f g (Q : Globals -> () -> Prop) : Q (f g) () -> mwp (modify f) g Q.
Proof. intros. unfold modify. by msteps. Qed.

(** ** The release *)

(** A release step: the variable's handle is given back and the variable is
    reset by [f]; [b]: whether it holds one. *)
Lemma mwp_release (b : bool) (k : kind) (h : Z) rest (f : Globals -> Globals) g (Q : Globals -> () -> Prop) :
  owns (opt b (k, h) ++ rest) (dev g) ->
  (forall d, owns rest d -> Q (if b then f (set_dev d g) else set_dev d g) ()) ->
  mwp (if b then _ ← on_dev (dev_free k h); modify f else mret ()) g Q.
Proof.
  intros Ho HQ. destruct b; cbn [opt app] in Ho.
  - mstep. apply mwp_on_dev, (mwp_dev_free k h rest); [done|]. intros d Hd. by apply mwp_modify, HQ.
  - mstep. replace g with (set_dev (dev g) g) by (by destruct g). by apply HQ.
Qed.

Lemma if_negb {A} (b : bool) (x y : A) : (if b then x else y) = if negb b then y else x.
Proof. by destruct b. Qed.

(** Resetting a variable that holds nothing changes nothing. *)
Ltac unchanged HQ :=
  let d := fresh "d" in let Hd := fresh "Hd" in
  intros d Hd; specialize (HQ d Hd);
  match goal with |- context [Z.eqb ?x 0] => destruct (Z.eqb_spec x 0) end;
  [match goal with g : Globals |- _ => destruct g; cbn in *; subst end|]; done.

Definition gone (fd : Z) : Z := if Z.leb 0 fd then -1 else fd.

Lemma timer_fini_ok rest g Q :
  owns (opt (negb (Z.eqb (task_lwip_timer g) 0)) (KTask, task_lwip_timer g) ++ rest) (dev g) ->
  (forall d, owns rest d -> Q (set_tasks (task_event g) (task_lwip_io g) 0 (set_dev d g)) ()) ->
  mwp lwip_timer_task_fini g Q.
Proof.
  intros Ho HQ. unfold lwip_timer_task_fini. mstep. mstep. rewrite if_negb.
  apply (mwp_release _ _ _ rest); [done|]. unchanged HQ.
Qed.

Lemma io_fini_ok rest g Q :
  owns (opt (negb (Z.eqb (task_lwip_io g) 0)) (KTask, task_lwip_io g) ++ rest) (dev g) ->
  (forall d, owns rest d -> Q (set_tasks (task_event g) 0 (task_lwip_timer g) (set_dev d g)) ()) ->
  mwp lwip_io_task_fini g Q.
Proof.
  intros Ho HQ. unfold lwip_io_task_fini. mstep. mstep. rewrite if_negb.
  apply (mwp_release _ _ _ rest); [done|]. unchanged HQ.
Qed.

Lemma event_fini_ok rest g Q :
  owns (opt (negb (Z.eqb (task_event g) 0)) (KTask, task_event g) ++
        opt (Z.leb 0 (event_fds g).1) (KFd, (event_fds g).1) ++
        opt (Z.leb 0 (event_fds g).2) (KFd, (event_fds g).2) ++ rest) (dev g) ->
  (forall d, owns rest d ->
     Q (set_event_fds (gone (event_fds g).1, gone (event_fds g).2)
          (set_tasks 0 (task_lwip_io g) (task_lwip_timer g) (set_dev d g))) ()) ->
  mwp event_task_fini g Q.
Proof.
  intros Ho HQ. unfold event_task_fini. mstep. mstep. mstep. rewrite if_negb.
  eapply mwp_release; [exact Ho|]. intros d1 Ho1.
  replace (if negb _ then _ else _)
    with (set_tasks 0 (task_lwip_io g) (task_lwip_timer g) (set_dev d1 g))
    by (destruct (Z.eqb_spec (task_event g) 0); [destruct g; cbn in *; by subst|done]).
  mstep. mstep. mstep. eapply mwp_release; [exact Ho1|]. intros d2 Ho2.
  mstep. mstep. unfold gone in HQ. destruct g as [d0 fd local [fd0 fd1] t u te ti tt s na st].
  cbn [event_fds set_tasks set_dev fst snd] in *.
  destruct (Z.leb 0 fd0) eqn:E1; (eapply mwp_release; [exact Ho2|]); intros d3 Ho3;
    specialize (HQ d3 Ho3); cbn [event_fds set_tasks set_dev set_event_fds fst snd];
    destruct (Z.leb 0 fd1); exact HQ.
Qed.

Lemma dns_fini_ok g Q : cache_ok (dns g) -> Q (set_dns None g) () -> mwp mapped_dns_fini g Q.
Proof.
  intros Hc HQ. unfold mapped_dns_fini, hev_mapped_dns_get. mstep. mstep.
  destruct (dns g) as [d|] eqn:Ed.
  - destruct Hc as [d' E]. mstep. eapply mwp_lift; [exact E|]. by apply mwp_modify.
  - mstep. destruct g; cbn in *; by subst.
Qed.

(** Handles that lwIP's blocks no longer stand for are freed again. *)
Lemma gateway_fini_ok rest g Q :
  owns (opt (negb (Z.eqb (udp g) 0)) (KUdp, udp g) ++
        opt (negb (Z.eqb (tcp g) 0)) (KTcp, tcp g) ++ rest) (dev g) ->
  (forall d, owns rest d -> Q (set_netif false (set_dev d g)) ()) ->
  mwp gateway_fini g Q.
Proof.
  intros Ho HQ. unfold gateway_fini. mstep. mstep. mstep.
  assert (forall (k : kind) h l g1 Q1, owns (opt (negb (Z.eqb h 0)) (k, h) ++ l) (dev g1) ->
    (forall d, owns l d -> Q1 (set_dev d g1) ()) ->
    mwp (if Z.eqb h 0 then mret () else on_dev (dev_free k h)) g1 Q1) as Hfree.
  { intros k h l g1 Q1 Ho1 HQ1. destruct (Z.eqb h 0); cbn in Ho1.
    - mstep. replace g1 with (set_dev (dev g1) g1) by (by destruct g1). by apply HQ1.
    - apply mwp_on_dev. by eapply mwp_dev_free. }
  eapply Hfree; [exact Ho|]. intros d1 Ho1. mstep. eapply Hfree; [exact Ho1|].
  intros d2 Ho2. apply mwp_modify. by apply (HQ d2).
Qed.

Lemma script_owns script down l g (Q : Globals -> () -> Prop) :
  owns l (dev g) -> (forall d, owns l d -> Q (set_dev d g) ()) -> mwp (run_script script down) g Q.
Proof.
  intros Ho HQ. unfold run_script. destruct script as [s|].
  - mstep. apply mwp_on_dev. unfold hev_tunnel_get_name. msteps. apply mwp_on_dev.
    unfold hev_tunnel_get_index. msteps. apply mwp_dev_call. mstep.
    apply mwp_on_dev, mwp_dev_call. mstep. by apply HQ.
  - mstep. replace g with (set_dev (dev g) g) by (by destruct g). by apply HQ.
Qed.

Lemma tunnel_fini_ok rest g (Q : Globals -> () -> Prop) :
  owns (opt (negb (Z.eqb (tun_fd_local g) 0)) (KFd, tun_fd g) ++ rest) (dev g) ->
  (forall d fd, owns rest d -> Q (set_tun fd 0 (set_dev d g)) ()) ->
  mwp (tunnel_fini cfg) g Q.
Proof.
  intros Ho HQ. unfold tunnel_fini. mstep. mstep.
  destruct (Z.eqb_spec (tun_fd_local g) 0) as [E|E]; cbn in Ho.
  - mstep. replace g with (set_tun (tun_fd g) 0 (set_dev (dev g) g))
      by (destruct g; cbn in *; by subst). by apply HQ.
  - mstep. destruct (proj1 (proj2 (proj2 (proj2 (proj2 Hcfg))))) as [script Es].
    eapply mwp_lift; [exact Es|]. mstep. eapply script_owns; [exact Ho|]. intros d1 Ho1. mstep.
    apply mwp_on_dev. eapply mwp_dev_free; [exact Ho1|]. intros d2 Ho2. apply mwp_modify.
    by apply (HQ d2).
Qed.

(** ** The whole release *)

Definition ended (rest : list (kind * Z)) (g g' : Globals) : Prop :=
  idle g' /\ owns rest (dev g') /\ tcp g' = tcp g /\ udp g' = udp g /\ netif_added g' = false /\
  stats g' = mkStats 0 0 0 0.

Lemma gone_neg fd : gone fd < 0.
Proof. unfold gone. destruct (Z.leb_spec 0 fd); lia. Qed.

Lemma fini_ok rest g :
  owns (held g ++ rest) (dev g) -> cache_ok (dns g) ->
  mwp (hev_socks5_tunnel_fini cfg) g (fun g' _ => ended rest g g').
Proof.
  unfold held. rewrite <- !app_assoc. intros Ho Hc. unfold hev_socks5_tunnel_fini.
  mstep. apply dns_fini_ok; [done|]. mstep. eapply timer_fini_ok; [exact Ho|]. intros d1 Ho1.
  mstep. eapply io_fini_ok; [exact Ho1|]. intros d2 Ho2.
  mstep. eapply event_fini_ok; [exact Ho2|]. intros d3 Ho3.
  mstep. eapply gateway_fini_ok; [exact Ho3|]. intros d4 Ho4.
  mstep. eapply tunnel_fini_ok; [exact Ho4|]. intros d5 fd Ho5. apply mwp_modify.
  unfold ended, idle. cbn. pose proof (gone_neg (event_fds g).1). pose proof (gone_neg (event_fds g).2).
  by split_and!.
Qed.

(** ** The start *)

Lemma mwp_dev_owns {A} (m : M Dev A) l g (Q : Globals -> A -> Prop) :
  (forall d, owns l d -> mwp m d (fun d' _ => owns l d')) -> owns l (dev g) ->
  (forall d a, owns l d -> Q (set_dev d g) a) -> mwp (on_dev m) g Q.
Proof.
  intros Hm Ho HQ. apply mwp_on_dev. eapply mwp_mono; [by apply Hm|]. intros d a Hd. by apply HQ.
Qed.

Lemma ioctl_owns fd r l d : owns l d -> mwp (ioctl fd r) d (fun d' _ => owns l d').
Proof. intros Ho. eapply mwp_ioctl; [done|]. by intros. Qed.

(** An optional setting. *)
Lemma mwp_optional {B} (o : option B) (m : B -> M Dev Z) l g (Q : Globals -> Z -> Prop) :
  (forall b d, owns l d -> mwp (m b) d (fun d' _ => owns l d')) -> owns l (dev g) ->
  (forall d a, owns l d -> Q (set_dev d g) a) ->
  mwp (match o with Some b => on_dev (m b) | None => mret 0 end) g Q.
Proof.
  intros Hm Ho HQ. destruct o as [b|]; [exact (mwp_dev_owns _ _ _ _ (Hm b) Ho HQ)|]. mstep.
  replace g with (set_dev (dev g) g) by (by destruct g). by apply HQ.
Qed.

Lemma setup_ok l g (Q : Globals -> Z -> Prop) :
  owns l (dev g) ->
  (forall d, owns l d -> Q (set_dev d g) (-1)) ->
  (forall d, owns l d -> Q (set_tun (tun_fd g) 1 (set_dev d g)) 0) ->
  mwp (tunnel_setup cfg) g Q.
Proof.
  intros Ho Hbad Hgood. destruct Hcfg as (_ & [ipv4 E4] & [ipv6 E6] & [script Es] & _).
  unfold tunnel_setup. mstep. eapply mwp_dev_owns; [intros; by apply set_mtu_owns|exact Ho|].
  intros d1 r1 Ho1. destruct (Z.ltb r1 0); [mstep; by apply Hbad|].
  mstep. eapply mwp_lift; [exact E4|]. mstep.
  eapply mwp_optional; [intros; by apply set_ipv4_owns|exact Ho1|].
  intros d2 r2 Ho2. destruct (Z.ltb r2 0); [mstep; by apply Hbad|].
  mstep. eapply mwp_lift; [exact E6|]. mstep.
  eapply mwp_optional; [intros; by apply set_ipv6_owns|exact Ho2|].
  intros d3 r3 Ho3. destruct (Z.ltb r3 0); [mstep; by apply Hbad|].
  mstep. eapply mwp_dev_owns; [intros; by apply set_state_owns|exact Ho3|].
  intros d4 r4 Ho4. destruct (Z.ltb r4 0); [mstep; by apply Hbad|].
  mstep. eapply mwp_lift; [exact Es|]. mstep. eapply script_owns; [exact Ho4|].
  intros d5 Ho5. msteps. by apply (Hgood d5).
Qed.

(** The device: what is open when it fails is what was open, and the tunnel's
    own descriptor when one of its settings failed. *)
Lemma tunnel_init_ok fd l g (Q : Globals -> Z -> Prop) :
  owns l (dev g) -> tun_fd_local g = 0 ->
  (forall d f, owns l d -> Q (set_tun f 0 (set_dev d g)) (-1)) ->
  (forall d f, fd < 0 -> owns ((KFd, f) :: l) d -> Q (set_tun f 0 (set_dev d g)) (-1)) ->
  (forall d f local, owns (opt (negb (Z.eqb local 0)) (KFd, f) ++ l) d ->
     (0 <= fd -> f = fd /\ local = 0) -> Q (set_tun f local (set_dev d g)) 0) ->
  mwp (tunnel_init cfg fd) g Q.
Proof.
  intros Ho Hlocal Hbad Hleak Hgood. unfold tunnel_init.
  destruct (Z.leb_spec 0 fd) as [Hfd|Hfd].
  - mstep. eapply mwp_dev_owns; [intros; by apply ioctl_owns|exact Ho|].
    intros d [r e] Hd. destruct (Z.ltb r 0).
    + mstep. replace (set_dev d g) with (set_tun (tun_fd g) 0 (set_dev d g))
        by (destruct g; cbn in *; by subst). by apply Hbad.
    + mstep. apply mwp_modify. mstep. cbn [tun_fd_local set_dev]. rewrite Hlocal. by apply Hgood.
  - destruct (proj1 Hcfg) as [name En]. mstep. eapply mwp_lift; [exact En|]. mstep.
    apply mwp_on_dev. eapply open_owns; [exact Ho| |].
    + intros d r Hr Hd. mstep. apply mwp_modify. destruct (Z.ltb_spec r 0); [|lia]. mstep.
      cbn [tun_fd_local set_dev]. rewrite Hlocal. by apply Hbad.
    + intros d f Hf Hd. mstep. apply mwp_modify. destruct (Z.ltb_spec f 0); [lia|].
      cbn [tun_fd_local set_dev]. rewrite Hlocal. eapply setup_ok; [exact Hd| |]; intros d' Hd'.
      * by apply (Hleak d' f).
      * apply (Hgood d' f 1); [done|lia].
Qed.

(** lwIP has memory for its blocks. *)
Definition lwip_memory : Prop :=
  forall calls k, k = KTcp \/ k = KUdp -> 0 <= d_ret calls (DNew k).

Lemma gateway_init_ok l g (Q : Globals -> Z -> Prop) :
  lwip_memory -> owns l (dev g) ->
  (forall d t u, t <> 0 -> u <> 0 -> owns ((KUdp, u) :: (KTcp, t) :: l) d ->
     Q (set_pcbs t u (set_netif true (set_dev d g))) 0) ->
  mwp gateway_init g Q.
Proof.
  intros Hmem Ho HQ. unfold gateway_init. mstep. apply mwp_modify. mstep. apply mwp_on_dev.
  apply (mwp_dev_new KTcp l); [done|intros d Hd Hb; exfalso; eapply Z.lt_nge; [exact Hb|apply Hmem; by left]|].
  intros d1 t Ho1 _ Ht. unfold bind_netif. mstep. mstep. mstep.
  rewrite bool_decide_eq_true_2 by (cbn; rewrite (proj2 Ho1); set_solver). mstep.
  mstep. unfold tcp_listen. mstep. apply mwp_on_dev. eapply (mwp_dev_new KTcp); [exact Ho1| |].
  { intros d Hd Hb. exfalso. eapply Z.lt_nge; [exact Hb|apply Hmem; by left]. }
  intros d2 t2 Ho2 _ Ht2. destruct (Z.eqb_spec t2 0); [done|]. mstep. apply mwp_on_dev.
  eapply mwp_dev_free; [eapply owns_perm; [apply Permutation_swap|exact Ho2]|]. intros d3 Ho3.
  mstep. mstep. apply mwp_modify. mstep. apply mwp_on_dev. eapply (mwp_dev_new KUdp); [exact Ho3| |].
  { intros d Hd Hb. exfalso. eapply Z.lt_nge; [exact Hb|apply Hmem; by right]. }
  intros d4 u Ho4 _ Hu. mstep. apply mwp_modify. mstep. mstep. mstep.
  rewrite bool_decide_eq_true_2 by (cbn; rewrite (proj2 Ho4); set_solver). msteps.
  by apply (HQ d4 t2 u).
Qed.

Lemma socketpair_ok l g (Q : Globals -> Z -> Prop) :
  owns l (dev g) -> (forall d, owns l d -> Q (set_dev d g) (-1)) ->
  (forall d a b, 0 <= a -> 0 <= b -> owns ((KFd, a) :: (KFd, b) :: l) d ->
     Q (set_event_fds (a, b) (set_dev d g)) 0) ->
  mwp socketpair g Q.
Proof.
  intros [Hnd Hl] Hbad Hgood.
  assert (forall x, x ∈ l -> x ∈ live (dev g)) as Hin.
  { intros x Hx. rewrite Hl. by apply elem_of_list_to_set. }
  unfold socketpair. mstep. apply mwp_on_dev, mwp_dev_call.
  destruct (Z.ltb _ 0); [mstep; by apply (Hbad (did DPair (dev g)))|].
  mstep. apply mwp_on_dev. mstep. mstep. apply mwp_on_dev. mstep. mstep. apply mwp_modify. mstep.
  pose proof (d_fresh_new KFd (live (dev g))) as Ha.
  pose proof (d_fresh_new KFd ({[(KFd, d_fresh KFd (live (dev g)))]} ∪ live (dev g))) as Hb.
  apply (Hgood (set_live _ (did DPair (dev g)))); [apply d_fresh_fd..|].
  split; cbn [live set_live did dev set_dev].
  - apply not_elem_of_union in Hb as [Hb1 Hb2]. rewrite not_elem_of_singleton in Hb1.
    apply NoDup_cons. split; [|apply NoDup_cons; split; [|done]].
    + apply not_elem_of_cons. split; [congruence|]. intros Hx. by apply Ha, Hin.
    + intros Hx. by apply Hb2, Hin.
  - rewrite Hl. set_solver.
Qed.

Lemma task_new_ok l g (Q : Globals -> Z -> Prop) :
  owns l (dev g) -> (forall d, owns l d -> Q (set_dev d g) 0) ->
  (forall d t, t <> 0 -> owns ((KTask, t) :: l) d -> Q (set_dev d g) t) ->
  mwp (on_dev (dev_new KTask)) g Q.
Proof.
  intros Ho Hbad Hgood. apply mwp_on_dev. eapply mwp_dev_new; [exact Ho| |].
  - intros d Hd _. by apply Hbad.
  - intros d t Hd _ Ht. by apply Hgood.
Qed.

Lemma event_init_ok l g (Q : Globals -> Z -> Prop) :
  owns l (dev g) -> task_event g = 0 ->
  (forall d, owns l d -> Q (set_dev d g) (-1)) ->
  (forall d a b, 0 <= a -> 0 <= b -> owns ((KFd, a) :: (KFd, b) :: l) d ->
     Q (set_event_fds (a, b) (set_dev d g)) (-1)) ->
  (forall d a b t, 0 <= a -> 0 <= b -> t <> 0 -> owns ((KTask, t) :: (KFd, a) :: (KFd, b) :: l) d ->
     Q (set_tasks t (task_lwip_io g) (task_lwip_timer g) (set_event_fds (a, b) (set_dev d g))) 0) ->
  mwp event_task_init g Q.
Proof.
  intros Ho Ht Hbad Hbad2 Hgood. unfold event_task_init. mstep. eapply socketpair_ok; [exact Ho| |].
  { intros d Hd. change (Z.ltb (-1) 0) with true. cbv iota. mstep. by apply Hbad. }
  intros d1 a b Ha Hb Ho1. change (Z.ltb 0 0) with false. cbv iota. mstep. mstep. mstep.
  eapply mwp_dev_owns; [intros; by apply ioctl_owns|exact Ho1|]. intros d2 [r e] Ho2.
  destruct (Z.ltb r 0); [mstep; by apply (Hbad2 d2 a b)|].
  mstep. eapply task_new_ok; [exact Ho2| |].
  - intros d3 Ho3. mstep. apply mwp_modify. change (Z.eqb 0 0) with true. cbv iota. mstep. specialize (Hbad2 d3 a b Ha Hb Ho3).
    clear - Ht Hbad2. destruct g; cbn in Ht; subst. exact Hbad2.
  - intros d3 t Hnz Ho3. mstep. apply mwp_modify. rewrite (proj2 (Z.eqb_neq t 0) Hnz). mstep.
    by apply (Hgood d3 a b t).
Qed.

Lemma init_step s steps g (Q : Globals -> Z -> Prop) :
  mwp s g (fun g' r => if Z.ltb r 0 then mwp (hev_socks5_tunnel_fini cfg) g' (fun g'' _ => Q g'' (-1))
                       else mwp (init_steps cfg steps) g' Q) ->
  mwp (init_steps cfg (s :: steps)) g Q.
Proof.
  intros Hs. cbn [init_steps]. mstep. eapply mwp_mono; [exact Hs|]. intros g' r.
  cbv beta. destruct (Z.ltb r 0); [|done]. intros Hf. mstep. eapply mwp_mono; [exact Hf|].
  intros g'' [] HQ. by mstep.
Qed.

(** What the tunnel's variables hold while it runs, beside what was open before. *)
Definition ready (base : list (kind * Z)) (fd : Z) (g : Globals) : Prop :=
  owns (held g ++ base) (dev g) /\ cache_ok (dns g) /\ netif_added g = true /\
  task_event g <> 0 /\ task_lwip_io g <> 0 /\ task_lwip_timer g <> 0 /\
  0 <= (event_fds g).1 /\ 0 <= (event_fds g).2 /\ tcp g <> 0 /\ udp g <> 0 /\
  (0 <= fd -> tun_fd g = fd /\ tun_fd_local g = 0).

(** The result of a start from [g0]. *)
Definition started (base : list (kind * Z)) (fd : Z) (g : Globals) (r : Z) : Prop :=
  (r = 0 /\ ready base fd g) \/
  (r = -1 /\ idle g /\ netif_added g = false /\
   (owns base (dev g) \/ (fd < 0 /\ exists f, owns ((KFd, f) :: base) (dev g)))).

(** A failed step leads to the release, after which nothing is held but [l]. *)
Lemma fail_ok base l fd g :
  owns (held g ++ l) (dev g) -> cache_ok (dns g) ->
  l = base \/ (fd < 0 /\ exists f, l = (KFd, f) :: base) ->
  mwp (hev_socks5_tunnel_fini cfg) g (fun g' _ => started base fd g' (-1)).
Proof.
  intros Ho Hc Hl. eapply mwp_mono; [by apply (fini_ok l)|].
  intros g' [] (Hi & Ho' & _ & _ & Hn & _). right. split; [done|]. split; [done|]. split; [done|].
  destruct Hl as [->|(Hfd & f & ->)]; [by left|right]. split; [done|]. by exists f.
Qed.

(** Evaluates [held] at variables whose contents are known. *)
Ltac eval_held :=
  unfold held, cache_ok in *; cbn in *;
  repeat match goal with
  | H : ?x <> 0 |- context [Z.eqb ?x 0] => rewrite (proj2 (Z.eqb_neq x 0) H)
  | H : 0 <= ?x |- context [Z.leb 0 ?x] => rewrite (proj2 (Z.leb_le 0 x) H)
  | H : ?x < 0 |- context [Z.leb 0 ?x] => rewrite (proj2 (Z.leb_gt 0 x) H)
  end; cbn.

(** A step that fails, with the handles of the variables. *)
Ltac failing base l :=
  cbv beta; change (Z.eqb 0 0) with true; cbv iota; try mstep;
  change (Z.ltb (-1) 0) with true; cbv iota;
  apply (fail_ok base base); [eval_held; by subst l|done|by left].

(** From lwIP's blocks on, a start either completes or releases everything. *)
Lemma init_rest_ok base fd l g :
  lwip_memory -> idle g -> owns l (dev g) ->
  forall f local, l = opt (negb (Z.eqb local 0)) (KFd, f) ++ base -> (0 <= fd -> f = fd /\ local = 0) ->
  mwp (init_steps cfg [gateway_init; event_task_init; lwip_io_task_init; lwip_timer_task_init;
         mapped_dns_init cfg]) (set_tun f local g) (started base fd).
Proof.
  intros Hmem (Et & Ei & Ee & Ef1 & Ef2 & _ & Ed) Ho f local El Hfd.
  destruct g as [d0 tf tl [e0 e1] t0 u0 te ti tt s na st].
  cbn in Et, Ei, Ee, Ef1, Ef2, Ed, Ho. subst te ti tt s.
  apply init_step. eapply gateway_init_ok; [done|exact Ho|]. intros d1 t u Ht Hu Ho1.
  change (Z.ltb 0 0) with false. cbv iota.
  apply init_step. eapply event_init_ok; [exact Ho1|done|..].
  { intros d Hd. failing base l. }
  { intros d a b Ha Hb Hd. failing base l. }
  intros d2 a b te Ha Hb Hte Ho2. change (Z.ltb 0 0) with false. cbv iota.
  apply init_step. unfold lwip_io_task_init. mstep. eapply task_new_ok; [exact Ho2| |].
  { intros d Hd. mstep. apply mwp_modify. failing base l. }
  intros d3 ti Hti Ho3. mstep. apply mwp_modify. rewrite (proj2 (Z.eqb_neq ti 0) Hti). mstep.
  change (Z.ltb 0 0) with false. cbv iota.
  apply init_step. unfold lwip_timer_task_init. mstep. eapply task_new_ok; [exact Ho3| |].
  { intros d Hd. mstep. apply mwp_modify. failing base l. }
  intros d4 tt Htt Ho4. mstep. apply mwp_modify. rewrite (proj2 (Z.eqb_neq tt 0) Htt). mstep.
  change (Z.ltb 0 0) with false. cbv iota.
  apply init_step. unfold mapped_dns_init.
  assert (forall o, cache_ok o -> started base fd (set_dns o (set_tasks te ti tt
    (mkGlobals d4 f local (a, b) t u te ti 0 None true st))) 0) as Hready.
  { intros o Hc. left. split; [done|]. unfold ready. eval_held. by subst l. }
  destruct (Z.eqb (hev_config_get_mapdns_cache_size cfg) 0).
  { mstep. change (Z.ltb 0 0) with false. cbv iota. cbn [init_steps]. mstep. by apply (Hready None). }
  destruct (hev_mapped_dns_new _ _ _) as [c|] eqn:Ec.
  - mstep. apply mwp_modify. mstep. change (Z.ltb 0 0) with false. cbv iota. cbn [init_steps]. mstep.
    apply (Hready (Some c)). by eapply cache_new_ok.
  - failing base l.
Qed.

(** The outcomes of the first step. *)
Lemma tunnel_init_cases base fd g :
  idle g -> owns base (dev g) ->
  mwp (tunnel_init cfg fd) g (fun g' r => exists d f local l,
    g' = set_tun f local (set_dev d g) /\ owns l d /\
    ((r = -1 /\ local = 0 /\ (l = base \/ (fd < 0 /\ exists f, l = (KFd, f) :: base))) \/
     (r = 0 /\ l = opt (negb (Z.eqb local 0)) (KFd, f) ++ base /\ (0 <= fd -> f = fd /\ local = 0)))).
Proof.
  intros Hi Ho. eapply tunnel_init_ok; [exact Ho|apply Hi|..].
  - intros d f Hd. exists d, f, 0, base. split; [done|]. split; [done|]. left. auto.
  - intros d f Hfd Hd. exists d, f, 0, ((KFd, f) :: base). split; [done|]. split; [done|]. left.
    split; [done|]. split; [done|]. right. eauto.
  - intros d f local Hd Hf. exists d, f, local, (opt (negb (Z.eqb local 0)) (KFd, f) ++ base).
    split; [done|]. split; [done|]. by right.
Qed.

Lemma fini_dangling g :
  idle g -> udp g <> 0 -> (KUdp, udp g) ∉ live (dev g) -> hev_socks5_tunnel_fini cfg g = None.
Proof.
  destruct g as [d f local [e0 e1] t u te ti tt s na st].
  intros (Et & Ei & Ee & E0 & E1 & _ & Ed) Hu Hd. cbn in Et, Ei, Ee, E0, E1, Ed, Hu, Hd. subst.
  unfold hev_socks5_tunnel_fini, mapped_dns_fini, lwip_timer_task_fini, lwip_io_task_fini,
    event_task_fini, gateway_fini, mbind, M_bind, mret, M_ret, mget, modify, on_dev, dev_free,
    dev_call, mbind, M_bind, mget, mput.
  cbn. rewrite (proj2 (Z.leb_gt 0 e0) E0). cbn. rewrite (proj2 (Z.leb_gt 0 e1) E1). cbn.
  rewrite (proj2 (Z.eqb_neq u 0) Hu). cbn. by rewrite (bool_decide_eq_false_2 (KUdp = KFd)), (bool_decide_eq_false_2 (_ ∈ live d)).
Qed.

(** A start, from variables that hold nothing and with lwIP's blocks of no earlier
    life, or of one whose device can be opened again. *)
Lemma start_ok base fd g0 : lwip_memory -> idle g0 -> owns base (dev g0) ->
  ((tcp g0 = 0 /\ udp g0 = 0) \/ (forall g1 r, tunnel_init cfg fd g0 = Some (g1, r) -> 0 <= r)) ->
  mwp (hev_socks5_tunnel_init cfg fd) g0 (started base fd).
Proof.
  intros Hmem Hidle Ho Hfresh. pose proof Hidle as (_ & _ & _ & _ & _ & Hlocal & Hdns). apply init_step.
  destruct (tunnel_init_cases base fd g0 Hidle Ho) as (g1 & r & E & d & f & local & l & -> & Hd & Hc).
  eexists _, r. split; [exact E|]. destruct Hc as [(-> & -> & Hl)|(-> & El & Hf)].
  - destruct Hfresh as [[Et Eu]|Hok]; [|by apply Hok in E]. apply (fail_ok base l); [|cbn; by rewrite Hdns|done].
    destruct Hidle as (E1 & E2 & E3 & E4 & E5 & _). unfold held. cbn.
    rewrite E1, E2, E3, Et, Eu, (proj2 (Z.leb_gt _ _) E4), (proj2 (Z.leb_gt _ _) E5). done.
  - by apply (init_rest_ok base fd l).
Qed.

(** The end of what was started. *)
Lemma end_ok base fd g names : ready base fd g -> cache_ok names ->
  mwp (hev_socks5_tunnel_fini cfg) (set_dns names g) (fun g' _ => ended base g g').
Proof.
  intros (Hh & _) Hn. eapply mwp_mono; [by apply (fini_ok base)|]. by intros g' [].
Qed.

(** C37: The start and the end of the tunnel.  From variables that hold nothing,
    with memory for lwIP's blocks, whatever the kernel refuses and whatever else
    the process has open, a start completes or gives back all it took, the
    descriptor of a device of its own whose settings failed excepted; after a complete start the variables hold
    exactly what it took, and the end gives all of it back, whatever names the
    mapped DNS has by then.  The one condition: lwIP's blocks of an earlier life
    are still pointed to after its end, so when a later start fails at its first
    step they are freed again. *)
Theorem tunnel_lifecycle base fd g0 :
  lwip_memory -> idle g0 -> owns base (dev g0) ->
  ((tcp g0 = 0 /\ udp g0 = 0) \/
   (forall g1 r, tunnel_init cfg fd g0 = Some (g1, r) -> 0 <= r) ->
   mwp (hev_socks5_tunnel_init cfg fd) g0 (fun g r =>
     started base fd g r /\
     (r = 0 -> forall names, cache_ok names ->
        mwp (hev_socks5_tunnel_fini cfg) (set_dns names g) (fun g' _ =>
          idle g' /\ owns base (dev g') /\ netif_added g' = false /\ stats g' = mkStats 0 0 0 0)))) /\
  (forall g1 r, tunnel_init cfg fd g0 = Some (g1, r) -> r < 0 -> udp g0 <> 0 -> (KUdp, udp g0) ∉ base ->
     hev_socks5_tunnel_init cfg fd g0 = None).
Proof.
  intros Hmem Hidle Ho. split.
  - intros Hfresh. eapply mwp_mono; [by apply (start_ok base)|]. intros g r Hs. split; [done|]. intros -> names Hn.
    destruct Hs as [[_ Hr]|[? _]]; [|done]. eapply mwp_mono; [by eapply end_ok|].
    intros g' [] (Hi & Ho' & _ & _ & Hna & Hst). by split_and!.
  - intros g1 r E Hr Hu Hb. unfold hev_socks5_tunnel_init. cbn [init_steps].
    destruct (tunnel_init_cases base fd g0 Hidle Ho) as (g2 & r2 & E2 & d & f & local & l & Eg & Hd & Hc).
    assert (g2 = g1 /\ r2 = r) as [-> ->] by (split; congruence).
    destruct Hc as [(_ & -> & Hl)|(-> & _)]; [|lia].
    unfold mbind, M_bind at 1. rewrite E. destruct (Z.ltb_spec r 0); [|lia].
    unfold mbind, M_bind. rewrite fini_dangling; [done|rewrite Eg..]; [|done|].
    { destruct Hidle as (? & ? & ? & ? & ? & _ & ?). unfold idle. by split_and!. }
    cbn. rewrite (proj2 Hd), elem_of_list_to_set. destruct Hl as [->|(_ & f' & ->)]; [done|].
    by intros [[=]|?]%elem_of_cons.
Qed.
End props.

(** ** Witnesses *)

(** A kernel that refuses to make a descriptor non-blocking. *)
#[export] Instance refusing_device : Device.
Proof.
  refine {| d_ret := fun _ c => match c with DIoctl _ (FIONBIO _) => -1 | _ => 0 end;
            d_name := fun _ => replicate 16 0; d_int := fun _ => 0;
            d_fresh := fun _ live => set_fold Z.max 0 (set_map (D := gset Z) snd live) + 1 |}.
  - intros k live Hin. apply (elem_of_map_2 (D := gset Z) snd), set_fold_max in Hin. cbn in Hin. lia.
  - intros live. pose proof (set_fold_nonneg (set_map (D := gset Z) snd live)). lia.
  - intros k live. left. pose proof (set_fold_nonneg (set_map (D := gset Z) snd live)). lia.
Defined.

Lemma owns_nothing : owns [] dev0.
Proof. split; [constructor|done]. Qed.

Lemma tunnel_lifecycle_witness :
  mwp (hev_socks5_tunnel_init (H0 := dotted_pton) config0 (-1)) globals0 (fun g r => started [] (-1) g r) /\
  hev_socks5_tunnel_init (H0 := dotted_pton) config0 5 (set_pcbs 7 9 globals0) = None.
Proof.
  assert (lwip_memory) as Hmem by (intros calls k Hk; cbn; lia).
  assert (strings_readable config0) as Hcfg by (apply cfg_ok_readable, config0_ok).
  split.
  - destruct (tunnel_lifecycle (H0 := dotted_pton) config0 Hcfg [] (-1) globals0 Hmem) as [Hs _];
      [repeat split; lia|exact owns_nothing|].
    eapply mwp_mono; [apply Hs; left; split; reflexivity|]. intros g r [Hst _]. exact Hst.
  - destruct (tunnel_lifecycle (H0 := dotted_pton) config0 Hcfg [] 5 (set_pcbs 7 9 globals0) Hmem) as [_ Hd];
      [repeat split; lia|exact owns_nothing|].
    eapply (Hd (set_dev (did (DIoctl 5 (FIONBIO 1)) dev0) (set_pcbs 7 9 globals0)) (-1));
      [reflexivity|lia|discriminate|apply not_elem_of_nil].
Defined.
