(* ===== verification/TunPackets.v ===== *)
(** * The packets of the tunnel (hev-tunnel.h and the packet paths of
    hev-socks5-tunnel.c), on lwIP's packet buffers *)
From S2P Require Import Prelude CInt Config MappedDNS MappedDNSSpec MappedDNSQuery Pbuf PbufRefs PbufOps PbufSpec PbufProps MappedDNSProps TunnelInit.

(** What the tasks that run meanwhile do: they change the heap, and with it the
    references that are theirs. *)
Definition others : Type := pstate -> pstate.

(** One round of [lwip_io_task_entry]: the old contents of the memory that the
    allocator gives ([None]: it has none), what happens
    while [hev_task_io_read] waits, what it delivers ([None]: it fails or the
    yielder stops it), what happens while the task waits for the mutex, and
    what lwIP's input does with the buffer and returns. *)
Record round := mkRound {
  r_alloc : option (list Z);
  r_wait : others;
  r_read : option (list Z);
  r_lock : others;
  r_input : Z -> pstate -> pstate * Z;
}.

Section tunnel.
Context `{CF : CustomFree} `{AL : Allocator}.
Variable fuel : nat.

(** The allocator's choice of an address. *)
Variable new_address : Heap -> Z.
Definition answer (junk : option (list Z)) (h : Heap) : list (Z * list Z) :=
  match junk with Some l => [(new_address h, l)] | None => [] end.

(** ** Reading and writing the device *)

(** [hev_task_io_read] stores at most [len] bytes of the packet. *)
Definition hev_tunnel_read (mtu : Z) (r : round) (st : pstate) : option (pstate * Z) :=
  let '(h, roots) := st in
  '(h, buf) ← pbuf_alloc fuel (answer (r_alloc r) h) PBUF_RAW (u16 mtu) PBUF_RAM h;
  if Z.eqb buf 0 then Some ((h, roots), 0) else
  let '(h, roots) := r_wait r (h, roots) in
  b ← pbufs h !! buf;
  let bs := take (Z.to_nat (len b)) (default [] (r_read r)) in
  let s := Z.of_nat (length bs) in
  if Z.leb s 0 then '(h, _) ← pbuf_free fuel buf h; Some ((h, roots), 0) else
  h ← wr_bytes (payload b) bs h;
  h ← upd buf (fun b => set_len (u16 s) (set_tot_len (u16 s) b)) h;
  Some ((h, roots), buf).

(** [for (i = 0; p && (i < 512); p = p->next)]. *)
Fixpoint iov_loop (n : nat) (p i : Z) (h : Heap) : option (list (pointer * Z)) :=
  match n with
  | O => None
  | S n =>
      if (Z.eqb p 0 || Z.leb 512 i)%bool then Some [] else
      b ← pbufs h !! p; iov ← iov_loop n (next b) (i + 1) h; Some ((payload b, len b) :: iov)
  end.

(** The bytes that a [writev] of these pieces sends. *)
Fixpoint gather (iov : list (pointer * Z)) (h : Heap) : option (list Z) :=
  match iov with
  | [] => Some []
  | (x, n) :: iov => bs ← rd_bytes x n h; rest ← gather iov h; Some (bs ++ rest)
  end.

(** The one packet that [write] or [writev] gives to the device. *)
Definition hev_tunnel_write (p : Z) (h : Heap) : option (list Z) :=
  b ← pbufs h !! p;
  if Z.eqb (next b) 0 then rd_bytes (payload b) (len b) h else
  iov ← iov_loop fuel p 0 h; gather iov h.

(** ** From the device to lwIP *)

(** The loop runs a round while [run] is set; the last result is what lwIP's
    input was given, in order. *)
Fixpoint lwip_io_loop (mtu : Z) (rs : list round) (st : pstate) (tx : Stats)
  : option (pstate * Stats * list (list Z)) :=
  match rs with
  | [] => Some (st, tx, [])
  | r :: rs =>
      '(st, buf) ← hev_tunnel_read mtu r st;
      if Z.eqb buf 0 then lwip_io_loop mtu rs st tx else
      b ← pbufs st.1 !! buf;
      let tx := count_packet (tot_len b) tx in
      let st := r_lock r st in
      b ← pbufs st.1 !! buf;
      given ← rd_bytes (payload b) (len b) st.1;
      let '(st, err) := r_input r buf st in
      st ← (if Z.eqb err ERR_OK then Some st else '(h, _) ← pbuf_free fuel buf st.1; Some (h, st.2));
      '(st, tx, seen) ← lwip_io_loop mtu rs st tx;
      Some (st, tx, given :: seen)
  end.

(** ** Queries to the mapped DNS *)

(** The memory from a pointer on. *)
Definition memory (x : pointer) (h : Heap) : option (list Z) :=
  l ← blocks h !! x.1; if Z.leb 0 x.2 then Some (drop (Z.to_nat x.2) l) else None.

(** [send]: what [udp_sendfrom] does meanwhile.  The result holds the bytes that
    it was given, if it was called. *)
Definition dns_recv_handler (junk : option (list Z)) (send : others) (dns : HevMappedDNS) (p : Z) (st : pstate)
  : option (pstate * HevMappedDNS * option (list Z)) :=
  let '(h, roots) := st in
  '(h, b) ← pbuf_alloc fuel (answer junk h) PBUF_TRANSPORT UDP_BUF_SIZE PBUF_RAM h;
  if Z.eqb b 0 then '(h, _) ← pbuf_free fuel p h; Some ((h, roots), dns, None) else
  pb ← pbufs h !! p;
  bb ← pbufs h !! b;
  req ← memory (payload pb) h;
  res ← rd_bytes (payload bb) (len bb) h;
  '(dns, req, res, r) ← hev_mapped_dns_handle fuel dns req (len pb) res (len bb);
  h ← wr_bytes (payload pb) req h;
  h ← wr_bytes (payload bb) res h;
  '(h, roots, sent) ←
    (if Z.ltb r 0 then Some (h, roots, None) else
     h ← upd b (fun b => set_tot_len (u16 r) (set_len (u16 r) b)) h;
     bb ← pbufs h !! b;
     reply ← rd_bytes (payload bb) (len bb) h;
     let '(h, roots) := send (h, roots) in Some (h, roots, Some reply));
  '(h, _) ← pbuf_free fuel b h;
  '(h, _) ← pbuf_free fuel p h;
  Some ((h, roots), dns, sent).

(** ** lwIP's timers *)

Inductive timer_step := TcpTmr | IpReassTmr | Nd6Tmr | Ip6ReassTmr | TimerSleep (ms : Z) | TimerWaitIo.

#[export] Instance timer_step_eq_dec : EqDecision timer_step.
Proof. solve_decision. Defined.

Definition TCP_TMR_INTERVAL : Z := 250.

(** The loop, with the mutex held during each round's timers; [sessions]: whether
    each round finds a session.  [i] is an unsigned int. *)
Fixpoint lwip_timer_loop (sessions : list bool) (i : Z) : list timer_step :=
  match sessions with
  | [] => []
  | s :: sessions =>
      TcpTmr :: (if Z.eqb (Z.land i 3) 0 then [IpReassTmr; Nd6Tmr; Ip6ReassTmr] else []) ++
      (if s then TimerSleep TCP_TMR_INTERVAL else TimerWaitIo) :: lwip_timer_loop sessions (u32 (i + 1))
  end.

Definition lwip_timer_task_entry (sessions : list bool) : list timer_step := lwip_timer_loop sessions 1.

(** ** The other tasks *)

(** How many buffers each of them may add at a time. *)
Variable grow : nat.

(** They give no reference of ours away and leave our buffer alone. *)
Definition keeps (ours : list Z) (buf : Z) (f : others) : Prop := forall h roots,
  heap_ok (pbufs h) (ours ++ roots) ->
  let '(h', roots') := f (h, roots) in
  heap_ok (pbufs h') (ours ++ roots') /\ (size (pbufs h') <= size (pbufs h) + grow)%nat /\
  pbufs h' !! buf = pbufs h !! buf /\
  forall b, pbufs h !! buf = Some b -> blocks h' !! (payload b).1 = blocks h !! (payload b).1.

(** lwIP's input takes the reference over if it answers [ERR_OK], and else leaves
    it to the caller. *)
Definition takes (f : Z -> pstate -> pstate * Z) : Prop := forall buf h roots,
  heap_ok (pbufs h) (buf :: roots) ->
  let '((h', roots'), err) := f buf (h, roots) in
  (size (pbufs h') <= size (pbufs h) + grow)%nat /\ heap_ok (pbufs h') (if Z.eqb err ERR_OK then roots' else buf :: roots').

Definition round_ok (r : round) : Prop :=
  (forall buf, keeps [buf] buf (r_wait r)) /\ (forall buf, keeps [buf] buf (r_lock r)) /\ takes (r_input r).

Hypothesis new_address_ok : forall h, fresh (new_address h) h /\
  forall a b, pbufs h !! a = Some b -> (payload b).1 <> new_address h.

Lemma ptr_add_0 x : ptr_add x 0 = x.
Proof. destruct x. unfold ptr_add. cbn. by rewrite Z.add_0_r. Qed.

Lemma align_arith s : LWIP_MEM_ALIGN_SIZE s = (s + 3) / 4 * 4.
Proof.
  unfold LWIP_MEM_ALIGN_SIZE. change 3 with (Z.ones 2) at 2. rewrite <- Z.ldiff_land, Z.ldiff_ones_r by lia.
  by rewrite Z.shiftl_mul_pow2, Z.shiftr_div_pow2 by lia.
Qed.

(** A buffer in one piece. *)
Lemma ram_alloc junk layer n h roots : heap_ok (pbufs h) roots -> 0 <= n <= 65535 -> (S (size (pbufs h)) < fuel)%nat ->
  wp (pbuf_alloc fuel (answer junk h) layer n PBUF_RAM h) (fun '(h', r) => heap_ok (pbufs h') (as_roots r roots) /\
    match junk with
    | None => h' = h /\ r = 0
    | Some l => r = new_address h /\ r <> 0 /\ let x := (r, LWIP_MEM_ALIGN_SIZE (layer_size layer)) in
        pbufs h' = <[r := mkPbuf 0 x n n (u8 (type_value PBUF_RAM)) 0 1]> (pbufs h) /\
        (forall y, y <> r -> blocks h' !! y = blocks h !! y) /\
        exists m, blocks h' !! r = Some m /\ x.2 + n <= Z.of_nat (length m) /\ 0 <= x.2 /\ (bytes_ok l -> bytes_ok m)
    end).
Proof.
  intros H0 Hn Hf. destruct (new_address_ok h) as [Hfr Hpl].
  assert (Hok : wp (pbuf_alloc fuel (answer junk h) layer n PBUF_RAM h) (fun '(h', r) => heap_ok (pbufs h') (as_roots r roots))).
  { apply pbuf_alloc_ok; [done|done| | |].
    - destruct junk; [apply NoDup_singleton|constructor].
    - destruct junk; [by intros a ->%list_elem_of_singleton|by intros a ?%not_elem_of_nil].
    - destruct junk; cbn; lia. }
  destruct Hok as ([h' r] & E & Hok). exists (h', r). split; [done|]. split; [done|]. revert E. unfold pbuf_alloc. cbv zeta.
  assert (Hlay : 0 <= layer_size layer <= 76) by (destruct layer; split; by vm_compute).
  rewrite !align_arith. unfold SIZEOF_STRUCT_PBUF. change ((24 + 3) / 4 * 4) with 24.
  rewrite !u64_id by (rewrite ?u64_id; dlia). destruct (Z.ltb_spec ((layer_size layer + 3) / 4 * 4 + (n + 3) / 4 * 4) ((n + 3) / 4 * 4)); [dlia|].
  destruct (Z.ltb_spec (24 + ((layer_size layer + 3) / 4 * 4 + (n + 3) / 4 * 4)) ((n + 3) / 4 * 4)); [dlia|]. cbn [orb].
  destruct junk as [l|]; cbn [answer head]; [|by intros [= <- <-]]. intros [= <- <-]. split; [done|]. split; [apply Hfr|].
  cbn zeta. split; [done|]. cbn [new_block pbuf_init_alloced_pbuf blocks fst snd]. split; [intros y Hy; by rewrite lookup_insert_ne|].
  rewrite lookup_insert_eq. eexists. split; [done|]. rewrite length_resize. split; [unfold SIZEOF_STRUCT_PBUF; dlia|]. split; [dlia|].
  intros Hb. apply Forall_resize; [unfold byte_ok; lia|done].
Qed.

(** What a round gets from the device: at most as many bytes as the 16 bits of
    the MTU say, and nothing without memory. *)
Definition received (mtu : Z) (r : round) : list Z :=
  match r_alloc r with Some _ => take (Z.to_nat (u16 mtu)) (default [] (r_read r)) | None => [] end.

(** A buffer of its own that holds a packet. *)
Record holds (h : Heap) (buf : Z) (bs : list Z) : Prop := {
  hd_packet : packet h buf [(buf, bs)];
  hd_lone : forall b, pbufs h !! buf = Some b -> next b = 0 /\ ref b = 1 /\ tot_len b = Z.of_nat (length bs) /\ len b = tot_len b;
}.

Lemma holds_keeps h h' buf bs : holds h buf bs -> pbufs h' !! buf = pbufs h !! buf ->
  (forall b, pbufs h !! buf = Some b -> blocks h' !! (payload b).1 = blocks h !! (payload b).1) -> holds h' buf bs.
Proof.
  intros [Hp Hl] Ep Eb. constructor; [|by rewrite Ep].
  eapply packet_frame; [| |exact Hp]; cbn; intros a; [by intros ->%list_elem_of_singleton|by intros b ->%list_elem_of_singleton; apply Eb].
Qed.

(** A buffer of its own that is cut. *)
Lemma shorten a b n c k h roots : heap_ok (pbufs h) (a :: roots) -> pbufs h !! a = Some b -> ref b = 1 -> next b = 0 ->
  tot_len b = n -> len b = n -> rd_bytes (payload b) n h = Some c -> 0 <= k <= n -> n <= 65535 ->
  heap_ok (<[a := set_len k (set_tot_len k b)]> (pbufs h)) (a :: roots) /\
  size (<[a := set_len k (set_tot_len k b)]> (pbufs h)) = size (pbufs h) /\
  forall h', blocks h' = blocks h -> rd_bytes (payload b) k h' = Some (take (Z.to_nat k) c).
Proof.
  intros H0 Hb Hr Hn Et El Hc Hk Hm. split_and!.
  - eapply heap_ok_sole; [exact H0| |exact Hb|done|cbn; lia|cbn; lia|cbn; lia].
    eapply sole_root; [exact (ho_refs _ _ H0)|left|exact Hb|done].
  - by rewrite map_size_insert_Some by (by eexists).
  - intros h' E. rewrite (rd_bytes_frame _ _ h) by by rewrite E.
    pose proof (rd_bytes_sub _ n h c 0 k ltac:(lia) Hc ltac:(lia) ltac:(lia) ltac:(lia)) as Es. by rewrite ptr_add_0 in Es.
Qed.

Lemma hev_tunnel_read_ok mtu r h roots : heap_ok (pbufs h) roots -> (S (size (pbufs h)) + grow < fuel)%nat -> round_ok r ->
  wp (hev_tunnel_read mtu r (h, roots)) (fun '((h', roots'), buf) => (size (pbufs h') <= S (size (pbufs h)) + grow)%nat /\
    match received mtu r with
    | [] => buf = 0 /\ heap_ok (pbufs h') roots'
    | bs => buf <> 0 /\ heap_ok (pbufs h') (buf :: roots') /\ holds h' buf bs
    end).
Proof.
  intros H0 Hf (Hw & _ & _). unfold hev_tunnel_read. pose proof (u16_ok mtu) as Hm.
  destruct (ram_alloc (r_alloc r) PBUF_RAW (u16 mtu) h roots H0 Hm ltac:(lia)) as ([h1 buf] & -> & H1 & Ha). cbn [mbind option_bind].
  unfold received. destruct (r_alloc r) as [junk|].
  2: { destruct Ha as [-> ->]. cbn [Z.eqb]. apply wp_ret. split; [lia|done]. }
  destruct Ha as (-> & Hb0 & E1 & Eb & m & Hmem & Hlen & Hx0 & _). set (buf := new_address h) in *.
  assert (Hs1 : (size (pbufs h1) <= S (size (pbufs h)))%nat) by (rewrite E1, map_size_insert; destruct (pbufs h !! buf); cbn; lia).
  unfold as_roots in H1. destruct (Z.eqb_spec buf 0); [done|]. pose proof (Hw buf h1 roots H1) as K.
  destruct (r_wait r (h1, roots)) as [h2 roots2]. destruct K as (H2 & Hf2 & Ep & Ebl). rewrite E1, lookup_insert_eq in Ep.
  rewrite Ep. cbn [mbind option_bind len payload]. set (bs := take _ _). set (b := mkPbuf _ _ _ _ _ _ _) in *.
  assert (Hbs : Z.of_nat (length bs) <= u16 mtu) by (subst bs; rewrite length_take; lia).
  clearbody bs. cbn [app] in H2. destruct (Z.leb_spec (Z.of_nat (length bs)) 0) as [Hz|Hz].
  - apply wp_bind. eapply wp_mono; [apply (pbuf_free_ok fuel buf h2 roots2 H2); lia|]. intros [h3 k] (H3 & Sh & _). apply wp_ret.
    split; [|destruct bs; [done|cbn in Hz; lia]]. pose proof (shrunk_size _ _ Sh). lia.
  - assert (Hm2 : blocks h2 !! buf = Some m).
    { specialize (Ebl b). rewrite E1, lookup_insert_eq in Ebl. exact (eq_trans (Ebl eq_refl) Hmem). }
    set (x := (buf, _)) in *.
    destruct (wr_bytes_ok x (u16 mtu) h2 (take (Z.to_nat (u16 mtu)) (drop (Z.to_nat x.2) m)) 0 bs) as (h3 & Ew & Ep3 & _ & Hr); [lia| |lia|lia|].
    { unfold rd_bytes. destruct (Z.eqb_spec (u16 mtu) 0); [lia|]. change x.1 with buf. rewrite Hm2. cbn [mbind option_bind].
      destruct (Z.leb_spec 0 x.2); [|lia]. destruct (Z.leb_spec (x.2 + u16 mtu) (Z.of_nat (length m))); [done|lia]. }
    rewrite ptr_add_0 in Ew.
    rewrite Ew. cbn [mbind option_bind]. rewrite (upd_eq buf _ b) by by rewrite Ep3. cbn [mbind option_bind]. apply wp_ret.
    assert (Hr3 : rd_bytes x (u16 mtu) h3 = Some (list_inserts 0 bs (take (Z.to_nat (u16 mtu)) (drop (Z.to_nat x.2) m)))) by exact Hr.
    rewrite !u16_id by lia. rewrite <- Ep3 in H2, Ep.
    destruct (shorten buf b (u16 mtu) _ (Z.of_nat (length bs)) h3 roots2 H2 Ep eq_refl eq_refl eq_refl eq_refl Hr3) as (K & Es & Hrd); [lia..|].
    cbn [pbufs blocks]. set (b' := set_len _ _) in *. split; [rewrite Es, Ep3; lia|].
    set (h4 := mkHeap _ _ _). enough (buf <> 0 /\ heap_ok (<[buf := b']> (pbufs h3)) (buf :: roots2) /\ holds h4 buf bs) as G.
    { destruct bs; [cbn in Hz; lia|exact G]. }
    split; [done|]. split; [done|]. constructor.
    + split; [done|]. split; [done|]. exists b'. split; [apply lookup_insert_eq|]. split; [cbn; lia|]. split; [|done].
      cbn [b' payload len set_len set_tot_len]. change (payload b) with x in *. rewrite (Hrd h4) by done. f_equal.
      change (slice 0 (Z.of_nat (length bs)) (list_inserts 0 bs (take (Z.to_nat (u16 mtu)) (drop (Z.to_nat x.2) m))) = bs).
      apply (slice_inserts _ 0). rewrite length_take, length_drop. cbn in *. lia.
    + intros c. cbn [h4 pbufs]. rewrite lookup_insert_eq. intros [= <-]. done.
Qed.

(** ** Timers *)

Definition runs (x : timer_step) (l : list timer_step) : Z := Z.of_nat (length (filter (fun y => y = x) l)).

Lemma runs_app x l l' : runs x (l ++ l') = runs x l + runs x l'.
Proof. unfold runs. rewrite filter_app, length_app. lia. Qed.

(** The timers of a round, and its wait. *)
Definition timer_round (s : bool) (i : Z) : list timer_step :=
  TcpTmr :: (if Z.eqb (Z.land i 3) 0 then [IpReassTmr; Nd6Tmr; Ip6ReassTmr] else []) ++
  [if s then TimerSleep TCP_TMR_INTERVAL else TimerWaitIo].

Lemma timer_loop_cons s sessions i :
  lwip_timer_loop (s :: sessions) i = timer_round s i ++ lwip_timer_loop sessions (u32 (i + 1)).
Proof. cbn [lwip_timer_loop timer_round app]. by rewrite <- app_assoc. Qed.

Lemma timer_loop_runs sessions i x : x ∈ [IpReassTmr; Nd6Tmr; Ip6ReassTmr] -> 0 <= i ->
  runs x (lwip_timer_loop sessions i) = ((i + 3) mod 4 + Z.of_nat (length sessions)) / 4.
Proof.
  intros Hx. revert i. induction sessions as [|s sessions IH]; intros i Hi; [change (0 = ((i + 3) mod 4 + 0) / 4); dlia|].
  assert (Hn : 0 <= u32 (i + 1) /\ u32 (i + 1) mod 4 = (i + 1) mod 4) by (unfold u32; dlia).
  assert (E : runs x (timer_round s i) = if Z.eqb (Z.land i 3) 0 then 1 else 0).
  { clear - Hx. unfold timer_round. destruct (Z.eqb (Z.land i 3) 0), s;
      repeat (apply elem_of_cons in Hx as [->|Hx]; [reflexivity|]); by apply not_elem_of_nil in Hx. }
  rewrite timer_loop_cons, runs_app, E, (IH _ (proj1 Hn)).
  change 3 with (Z.ones 2) at 1. rewrite Z.land_ones by lia. change (2 ^ 2) with 4.
  cbn [length]. destruct (Z.eqb_spec (i mod 4) 0); dlia.
Qed.

(** The reassembly and neighbour timers run in every fourth round of the TCP
    timer, also after the counter has wrapped around. *)
Lemma timers_in_step sessions x : x ∈ [IpReassTmr; Nd6Tmr; Ip6ReassTmr] ->
  runs x (lwip_timer_task_entry sessions) = runs TcpTmr (lwip_timer_task_entry sessions) / 4 /\
  runs TcpTmr (lwip_timer_task_entry sessions) = Z.of_nat (length sessions).
Proof.
  intros Hx. assert (E : forall i, runs TcpTmr (lwip_timer_loop sessions i) = Z.of_nat (length sessions)).
  { induction sessions as [|s sessions IH]; intros i; [done|]. rewrite timer_loop_cons, runs_app, IH. unfold timer_round.
    destruct (Z.eqb (Z.land i 3) 0), s; change (1 + Z.of_nat (length sessions) = Z.of_nat (S (length sessions))); lia. }
  unfold lwip_timer_task_entry. rewrite E, (timer_loop_runs _ _ _ Hx) by lia. done.
Qed.

(** ** Writing *)

Lemma gather_chain cs n p i h : packet h p cs -> (length cs < n)%nat -> 0 <= i <= 512 ->
  wp (iov_loop n p i h) (fun iov => gather iov h = Some (bytes_of (take (Z.to_nat (512 - i)) cs))).
Proof.
  revert cs p i. induction n as [|n IH]; intros cs p i Hp Hn Hi; [lia|]. cbn [iov_loop].
  destruct cs as [|[a c] cs].
  { cbn in Hp. subst p. cbn [Z.eqb orb]. apply wp_ret. by rewrite take_nil. }
  destruct Hp as (-> & Ha & b & Hb & Hl & Hr & Hp). destruct (Z.eqb_spec a 0); [done|]. cbn [orb].
  destruct (Z.leb_spec 512 i).
  { replace (Z.to_nat (512 - i)) with 0%nat by lia. by apply wp_ret. }
  rewrite Hb. cbn [mbind option_bind]. apply wp_bind. eapply wp_mono; [apply (IH cs); [done|cbn in Hn; lia|lia]|].
  intros iov E. apply wp_ret. cbn [gather]. rewrite Hr. cbn [mbind option_bind]. rewrite E. cbn.
  replace (Z.to_nat (512 - i)) with (S (Z.to_nat (512 - (i + 1)))) by lia. done.
Qed.

(** What lwIP hands over goes to the device as one packet with all its bytes, as
    long as it has no more buffers than the array of [writev]. *)
Theorem device_gets_packet h p cs : packet h p cs -> p <> 0 -> (length cs < fuel)%nat ->
  hev_tunnel_write p h = Some (bytes_of (take 512 cs)).
Proof.
  intros Hp Hp0 Hf. unfold hev_tunnel_write. destruct cs as [|[a c] cs]; [done|].
  pose proof Hp as (-> & Ha & b & Hb & Hl & Hr & Ht). rewrite Hb. cbn [mbind option_bind].
  destruct (Z.eqb_spec (next b) 0) as [E|E].
  - destruct cs as [|[a' c'] cs]; [|destruct Ht as (? & ? & _); congruence]. rewrite Hr. cbn. by rewrite app_nil_r.
  - destruct (gather_chain _ fuel a 0 h Hp Hf ltac:(lia)) as (iov & Ei & Eg). rewrite Ei. exact Eg.
Qed.

(** ** Reading *)

Definition size_ok (st : Stats) : Prop := tx_packets st = size_t (tx_packets st) /\ tx_bytes st = size_t (tx_bytes st).

(** The counters after packets of these bytes. *)
Definition counted (st : Stats) (seen : list (list Z)) : Stats :=
  mkStats (size_t (tx_packets st + Z.of_nat (length seen))) (rx_packets st)
    (size_t (tx_bytes st + Z.of_nat (length (concat seen)))) (rx_bytes st).

Lemma counted_nil st : size_ok st -> counted st [] = st.
Proof. intros [E1 E2]. destruct st. unfold counted in *. cbn in *. by rewrite !Z.add_0_r, <- E1, <- E2. Qed.

Lemma counted_cons st bs seen :
  counted (count_packet (Z.of_nat (length bs)) st) seen = counted st (bs :: seen).
Proof.
  unfold counted, count_packet. cbn [tx_packets tx_bytes rx_packets rx_bytes concat length]. rewrite length_app.
  unfold size_t. rewrite !Zplus_mod_idemp_l. f_equal; f_equal; lia.
Qed.

Lemma count_size_ok n st : size_ok (count_packet n st).
Proof. unfold size_ok, count_packet, size_t. cbn. by rewrite !Zmod_mod. Qed.

(** C38: the device's task hands lwIP every packet that it can read, with the
    bytes that the device gave, once and in order, whatever the other tasks do
    while it waits for the device or the mutex: a buffer is
    counted by its true length, belongs to lwIP from then on if that accepts it
    and is freed if not, as it is when the read fails, and no round touches a
    buffer of the others.  A round without memory delivers nothing. *)
Theorem device_packets_reach_stack mtu rs h roots st :
  heap_ok (pbufs h) roots -> (S (size (pbufs h)) + length rs * S (3 * grow) < fuel)%nat -> Forall round_ok rs -> size_ok st ->
  wp (lwip_io_loop mtu rs (h, roots) st) (fun '((h', roots'), st', seen) =>
    heap_ok (pbufs h') roots' /\ seen = filter (fun bs => bs <> []) (received mtu <$> rs) /\ st' = counted st seen).
Proof.
  revert h roots st. induction rs as [|r rs IH]; intros h roots st H0 Hf Hr Hst; cbn [lwip_io_loop fmap list_fmap].
  { apply wp_ret. by rewrite counted_nil. }
  inversion_clear Hr as [|? ? H1 H2]. cbn [length] in Hf. rewrite Nat.mul_succ_l in Hf.
  apply wp_bind. eapply wp_mono; [apply hev_tunnel_read_ok; done || lia|].
  intros [[h1 roots1] buf] (Hf1 & K). destruct (received mtu r) as [|x bs0] eqn:Er.
  { destruct K as [-> K]. cbn [Z.eqb]. eapply wp_mono; [apply IH; done || lia|]. intros [[[h2 roots2] st2] seen]. by rewrite filter_cons_False by auto. }
  rewrite filter_cons_True by done. set (bs := x :: bs0) in *. clearbody bs.
  destruct K as (Hb0 & K & Hh). destruct (Z.eqb_spec buf 0); [done|]. cbn [fst].
  pose proof (hd_packet _ _ _ Hh) as (_ & _ & b & Hb & _ & _ & _). rewrite Hb. cbn [mbind option_bind].
  destruct (hd_lone _ _ _ Hh b Hb) as (_ & _ & Et & _). rewrite Et.
  destruct H1 as (_ & Hlk & Hin). pose proof (Hlk buf h1 roots1 K) as K2.
  destruct (r_lock r (h1, roots1)) as [h2 roots2]. destruct K2 as (K2 & Hf2 & Ep & Eb).
  assert (Hh2 : holds h2 buf bs) by (by eapply holds_keeps). cbn [fst].
  pose proof (hd_packet _ _ _ Hh2) as (_ & _ & b2 & Hb2 & _ & Hrd & _). rewrite Hb2. cbn [mbind option_bind].
  rewrite Hrd. cbn [mbind option_bind]. pose proof (Hin buf h2 roots2 K2) as K3.
  destruct (r_input r buf (h2, roots2)) as [[h3 roots3] err]. destruct K3 as (Hf3 & K3).
  apply wp_bind. apply (wp_mono _ (fun st => (size (pbufs st.1) <= size (pbufs h3))%nat /\ heap_ok (pbufs st.1) st.2)).
  { destruct (Z.eqb err ERR_OK); [by apply wp_ret; split|]. cbn [fst snd]. apply wp_bind.
    eapply wp_mono; [apply (pbuf_free_ok fuel buf h3 roots3 K3); lia|]. intros [h4 k] (K4 & Sh & _). apply wp_ret.
    split; [pose proof (shrunk_size _ _ Sh); cbn; lia|done]. }
  intros [h4 roots4] [Hf4 K4]. apply wp_bind. eapply wp_mono; [apply IH; try done; [cbn in Hf4; lia|apply count_size_ok]|].
  intros [[[h5 roots5] st5] seen] (K5 & -> & ->). apply wp_ret. split; [done|]. split; [done|]. apply counted_cons.
Qed.

(** ** Queries to the mapped DNS *)

Lemma memory_rd x h req : memory x h = Some req -> req <> [] -> rd_bytes x (Z.of_nat (length req)) h = Some req.
Proof.
  unfold memory, rd_bytes. intros Hm Hr. destruct (Z.eqb_spec (Z.of_nat (length req)) 0); [by destruct req|].
  destruct (blocks h !! x.1) as [l|]; [|done]. cbn [mbind option_bind] in *. destruct (Z.leb_spec 0 x.2); [|done].
  injection Hm as Hm. rewrite <- Hm in *. rewrite length_drop in *. 
  destruct (Z.leb_spec (x.2 + Z.of_nat (length l - Z.to_nat x.2)) (Z.of_nat (length l))); [|lia].
  cbn. f_equal. apply take_ge. rewrite length_drop. lia.
Qed.

(** The whole of what can be read is written anew. *)
Lemma wr_bytes_all x h c bs : rd_bytes x (Z.of_nat (length c)) h = Some c -> length bs = length c ->
  exists h', wr_bytes x bs h = Some h' /\ pbufs h' = pbufs h /\
    (forall y, y <> x.1 -> blocks h' !! y = blocks h !! y) /\ rd_bytes x (Z.of_nat (length c)) h' = Some bs.
Proof.
  intros Hr Hl. destruct (wr_bytes_ok x (Z.of_nat (length c)) h c 0 bs) as (h' & Ew & Ep & Eb & Hr'); [lia|done|lia|lia|].
  rewrite ptr_add_0 in Ew. exists h'. split_and!; [done..|]. rewrite Hr'. f_equal. change (Z.to_nat 0) with 0%nat.
  apply list_eq_same_length with (n := length c); rewrite ?length_inserts; [done..|].
  intros i y z Hi Hy Hz. rewrite list_lookup_inserts in Hy by lia. rewrite Nat.sub_0_r in Hy. congruence.
Qed.

Lemma free_both {A} (k : Heap -> option A) Q b p h roots : heap_ok (pbufs h) (b :: p :: roots) -> (size (pbufs h) < fuel)%nat ->
  (forall h', heap_ok (pbufs h') roots -> wp (k h') Q) -> wp ('(h, _) ← pbuf_free fuel b h; '(h, _) ← pbuf_free fuel p h; k h) Q.
Proof.
  intros H0 Hf Hk. apply wp_bind. eapply wp_mono; [apply (pbuf_free_ok fuel b h _ H0 Hf)|].
  intros [h1 n] (H1 & Sh & _). pose proof (shrunk_size _ _ Sh). apply wp_bind.
  eapply wp_mono; [apply (pbuf_free_ok fuel p h1 _ H1); lia|]. intros [h2 m] (H2 & _). by apply Hk.
Qed.

(** The answer's buffer as it comes. *)
Lemma answer_buffer x h m n : blocks h !! x.1 = Some m -> 0 <= x.2 -> x.2 + n <= Z.of_nat (length m) -> bytes_ok m ->
  0 < n -> exists res, rd_bytes x n h = Some res /\ Z.of_nat (length res) = n /\ bytes_ok res.
Proof.
  intros Hm Hx Hl Hb Hn. unfold rd_bytes. destruct (Z.eqb_spec n 0); [lia|]. rewrite Hm. cbn [mbind option_bind].
  destruct (Z.leb_spec 0 x.2); [|lia]. destruct (Z.leb_spec (x.2 + n) (Z.of_nat (length m))); [|lia]. eexists. split; [done|].
  rewrite length_take, length_drop. split; [lia|]. by apply Forall_take, Forall_drop.
Qed.

(** The handler on the two buffers' memory. *)
Lemma handle_on_buffers `{!StrdupWorks} dns l y req qlen x res h : dns_rep dns l -> 1 <= max dns -> (S (Z.to_nat (max dns)) < fuel)%nat ->
  (length req <= fuel)%nat -> bytes_ok req -> bytes_ok res -> 12 <= qlen < Z.of_nat (length req) ->
  memory y h = Some req -> rd_bytes x (Z.of_nat (length res)) h = Some res -> y.1 <> x.1 ->
  exists dns' req' res' r h1 h2, hev_mapped_dns_handle fuel dns req qlen res (Z.of_nat (length res)) = Some (dns', req', res', r) /\
    wr_bytes y req' h = Some h1 /\ wr_bytes x res' h1 = Some h2 /\ pbufs h2 = pbufs h /\
    rd_bytes x (Z.of_nat (length res)) h2 = Some res' /\ same_config dns dns' /\ (exists l', dns_rep dns' l') /\
    (r = -1 \/ 12 <= r <= Z.of_nat (length res)).
Proof.
  intros Hdns Hmax Hfd Hfr Hbr Hbs Hq Hm Hr Hne.
  destruct (handle_ok fuel dns l req qlen res (Z.of_nat (length res))) as ([[[dns' req'] res'] r] & Eh & [Lq _] & [Ls _] & Hcfg & Hrep & Hr0); try done.
  destruct (wr_bytes_all y h req req') as (h1 & Ew1 & Ep1 & Eb1 & _); [apply memory_rd; [done|destruct req; [cbn in Hq; lia|done]]|done|].
  destruct (wr_bytes_all x h1 res res') as (h2 & Ew2 & Ep2 & _ & Hr2); [rewrite <- Hr; by apply rd_bytes_frame, Eb1|done|].
  exists dns', req', res', r, h1, h2. rewrite <- Ep1. by split_and!.
Qed.

(** C39: a query of at least a header that reaches the mapped DNS, in a buffer
    whose block goes on for a byte after it, is consumed and both buffers are
    given back, without memory for the answer, with no answer and with one,
    while there is memory for the copies of the names.  The handler's answer (see
    [handle_memory_safe] and [handle_answers_query]) is sent exactly when there
    is one, with its length. *)
Theorem dns_handler_answers `{!StrdupWorks} junk send dns l p pb req h roots :
  heap_ok (pbufs h) (p :: roots) -> (S (S (size (pbufs h))) + grow < fuel)%nat -> (forall b, keeps [b; p] b send) ->
  pbufs h !! p = Some pb -> memory (payload pb) h = Some req -> bytes_ok req -> 12 <= len pb < Z.of_nat (length req) ->
  (length req <= fuel)%nat -> (forall j, junk = Some j -> bytes_ok j) ->
  dns_rep dns l -> 1 <= max dns -> (S (Z.to_nat (max dns)) < fuel)%nat ->
  wp (dns_recv_handler junk send dns p (h, roots)) (fun '((h', roots'), dns', sent) =>
    heap_ok (pbufs h') roots' /\ same_config dns dns' /\ (exists l', dns_rep dns' l') /\
    match junk with
    | None => sent = None /\ dns' = dns
    | Some _ => exists res req' res' r, Z.of_nat (length res) = UDP_BUF_SIZE /\
        hev_mapped_dns_handle fuel dns req (len pb) res UDP_BUF_SIZE = Some (dns', req', res', r) /\
        sent = if Z.ltb r 0 then None else Some (take (Z.to_nat r) res')
    end).
Proof.
  intros H0 Hf Hs Hpb Hmem Hbr Hlen Hfr Hj Hdns Hmax Hfd. unfold dns_recv_handler.
  destruct (ram_alloc junk PBUF_TRANSPORT UDP_BUF_SIZE h (p :: roots) H0 ltac:(unfold UDP_BUF_SIZE; lia) ltac:(lia)) as ([h1 b] & -> & H1 & Ha).
  cbn [mbind option_bind]. destruct junk as [j|].
  2: { destruct Ha as [-> ->]. cbn [Z.eqb]. apply wp_bind. eapply wp_mono; [apply (pbuf_free_ok fuel p h roots H0); lia|].
    intros [h2 k] (H2 & _). apply wp_ret. split_and!; eauto. done. }
  destruct Ha as (-> & Hb0 & E1 & Eb & m & Hm & Hml & Hx0 & Hbm). set (b := new_address h) in *.
  destruct (new_address_ok h) as [Hfrb Hpl]. fold b in Hfrb, Hpl.
  assert (Hpb1 : pbufs h1 !! p = Some pb).
  { rewrite E1, lookup_insert_ne; [done|]. intros E. destruct Hfrb as [_ Hn]. congruence. }
  assert (Hbb : pbufs h1 !! b = Some (mkPbuf 0 (b, LWIP_MEM_ALIGN_SIZE (layer_size PBUF_TRANSPORT)) UDP_BUF_SIZE UDP_BUF_SIZE (u8 (type_value PBUF_RAM)) 0 1)) by (by rewrite E1, lookup_insert_eq).
  assert (Hs1 : (size (pbufs h1) <= S (size (pbufs h)))%nat) by (rewrite E1, map_size_insert; destruct (pbufs h !! b); cbn; lia).
  clear E1. set (bb := mkPbuf _ _ _ _ _ _ _) in Hbb. set (x := (b, _)) in *.
  assert (Hmem1 : memory (payload pb) h1 = Some req) by (unfold memory; rewrite Eb by (by eapply Hpl); exact Hmem).
  destruct (answer_buffer x h1 m UDP_BUF_SIZE Hm Hx0 Hml (Hbm (Hj j eq_refl)) ltac:(unfold UDP_BUF_SIZE; lia)) as (res & Hres & Hlr & Hbr').
  destruct (Z.eqb_spec b 0); [done|]. rewrite Hpb1, Hbb. cbn [mbind option_bind]. rewrite Hmem1. cbn [mbind option_bind].
  change (payload bb) with x. change (len bb) with UDP_BUF_SIZE. rewrite Hres. cbn [mbind option_bind].
  rewrite <- Hlr in Hres. destruct (handle_on_buffers dns l (payload pb) req (len pb) x res h1) as
    (dns' & req' & res' & r & h2 & h3 & Eh & Ew2 & Ew3 & Ep3 & Hr3 & Hcfg & Hrep & Hr); try done; [by eapply Hpl|].
  rewrite Hlr in *. rewrite Eh. cbn [mbind option_bind]. rewrite Ew2. cbn [mbind option_bind]. rewrite Ew3. cbn [mbind option_bind].
  assert (H3 : heap_ok (pbufs h3) (b :: p :: roots)) by (rewrite Ep3; unfold as_roots in H1; by destruct (Z.eqb_spec b 0)).
  assert (Hs3 : size (pbufs h3) = size (pbufs h1)) by (by rewrite Ep3). rewrite <- Ep3 in Hbb.
  destruct (Z.ltb_spec r 0) as [Hneg|Hpos]; [cbn [mbind option_bind]; eapply free_both; [exact H3|lia|intros h' H'; apply wp_ret; split_and!; [done..|exists res, req', res', r; by destruct (Z.ltb_spec r 0); [|lia]]]|].
  assert (Hr' : 0 <= r <= UDP_BUF_SIZE) by lia. unfold UDP_BUF_SIZE in Hr'.
  rewrite (upd_eq b _ bb), !u16_id by (done || lia). cbn [mbind option_bind pbufs]. rewrite lookup_insert_eq. cbn [mbind option_bind].
  set (h4 := mkHeap _ _ _). cbn [payload len set_tot_len set_len].
  destruct (shorten b bb UDP_BUF_SIZE res' r h3 (p :: roots) H3 Hbb eq_refl eq_refl eq_refl eq_refl) as (K4 & Hs4 & E4); [done..|].
  rewrite (E4 h4) by done. cbn [mbind option_bind]. rewrite Hs3 in Hs4. change (size (pbufs h4) = size (pbufs h1)) in Hs4.
  pose proof (Hs b h4 roots K4) as K5. destruct (send (h4, roots)) as [h5 roots5]. destruct K5 as (K5 & Hs5 & _).
  cbn [mbind option_bind]. eapply free_both; [exact K5|lia|].
  intros h' H'. apply wp_ret. split_and!; [done..|]. exists res, req', res', r. by destruct (Z.ltb_spec r 0); [lia|].
Qed.
End tunnel.

(** ** Witnesses *)

Definition addresses (h : Heap) : list Z := mjoin ((fun x => [x.1; (payload x.2).1]) <$> map_to_list (pbufs h)).
Definition next_address (h : Heap) : Z := 1 + foldr Z.max 0 (addresses h).

Lemma foldr_max_ge l x : x ∈ l -> x <= foldr Z.max 0 l.
Proof. induction l as [|y l IH]; [by intros ?%not_elem_of_nil|]. intros [->|Hx]%elem_of_cons; cbn; [lia|]. specialize (IH Hx). lia. Qed.

Lemma foldr_max_0 l : 0 <= foldr Z.max 0 l.
Proof. induction l; cbn; lia. Qed.

Lemma next_address_ok h : fresh (next_address h) h /\ forall a b, pbufs h !! a = Some b -> (payload b).1 <> next_address h.
Proof.
  assert (K : forall a b x, pbufs h !! a = Some b -> x ∈ [a; (payload b).1] -> x < next_address h).
  { intros a b x Hb Hx. unfold next_address. enough (x <= foldr Z.max 0 (addresses h)) by lia. apply foldr_max_ge, list_elem_of_join.
    exists [a; (payload b).1]. split; [done|]. apply list_elem_of_fmap. exists (a, b). split; [done|]. by apply elem_of_map_to_list. }
  split; [split|].
  - unfold next_address. pose proof (foldr_max_0 (addresses h)). lia.
  - destruct (pbufs h !! _) as [b|] eqn:Eb; [|done]. exfalso. pose proof (K _ _ (next_address h) Eb ltac:(left)). lia.
  - intros a b Hb E. pose proof (K a b (payload b).1 Hb ltac:(right; left)). lia.
Qed.

Lemma keeps_nothing ours buf : keeps 0 ours buf id.
Proof. intros h roots H0. cbn. split_and!; [done|lia|done|done]. Qed.

Definition refuse (buf : Z) (st : pstate) : pstate * Z := (st, ERR_MEM).
Definition accept (buf : Z) (st : pstate) : pstate * Z := ((st.1, buf :: st.2), ERR_OK).

(** Three bytes that are accepted, a round without memory, two bytes that are
    refused. *)
Definition rounds : list round :=
  [mkRound (Some []) id (Some [1; 2; 3]) id accept; mkRound None id (Some [9]) id accept; mkRound (Some []) id (Some [4; 5]) id refuse].

Lemma rounds_ok : Forall (round_ok 0) rounds.
Proof.
  assert (takes 0 accept /\ takes 0 refuse) as [Ha Hr] by (split; intros buf h roots H0; cbn; split; [lia|done|lia|done]).
  unfold rounds. repeat (apply Forall_cons; split; [split_and!; [intros; apply keeps_nothing..|done]|]). done.
Qed.

Lemma device_packets_reach_stack_witness : exists h' roots',
  lwip_io_loop 10 next_address 8500 rounds (empty_heap, []) (mkStats 0 0 0 0) =
    Some ((h', roots'), mkStats 2 0 5 0, [[1; 2; 3]; [4; 5]]) /\ heap_ok (pbufs h') roots'.
Proof.
  destruct (device_packets_reach_stack 10 next_address 0 next_address_ok 8500 rounds empty_heap [] (mkStats 0 0 0 0)
    empty_heap_ok ltac:(vm_compute; lia) rounds_ok ltac:(by split)) as ([[[h' roots'] st'] seen] & E & H' & -> & ->).
  exists h', roots'. split; [exact E|exact H'].
Defined.

(** A query that waits in one buffer. *)
Definition query_buffer : pstate := after [OpAlloc [(1, [])] PBUF_RAW 21 PBUF_RAM].
Definition query_heap : Heap := mkHeap (pbufs query_buffer.1) {[1 := demo_query ++ [0; 0; 0]]} false.

Lemma query_heap_ok : heap_ok (pbufs query_heap) [1].
Proof.
  apply (run_heap_ok [OpAlloc [(1, [])] PBUF_RAW 21 PBUF_RAM] query_buffer); [by vm_compute|].
  eapply legal_run_cons; [|by vm_compute|done].
  split; [vm_compute; lia|]. split_and!; [lia|lia|apply NoDup_singleton| |vm_compute; lia]. by intros a ->%list_elem_of_singleton.
Qed.

Definition answer_memory : list Z := replicate 1600 0.

Lemma dns_handler_answers_witness :
  wp (dns_recv_handler 50 next_address (Some answer_memory) id demo_cache 1 (query_heap, [])) (fun '((h', roots'), _, sent) =>
    heap_ok (pbufs h') roots' /\ pbufs h' = ∅ /\ sent = Some (response 18 52 1 0 [[97]; [98]] demo_net)).
Proof.
  destruct (dns_handler_answers 50 next_address 0 next_address_ok (Some answer_memory) id demo_cache [] 1
    (mkPbuf 0 (1, 0) 21 21 128 0 1) (demo_query ++ [0; 0; 0]) query_heap [] query_heap_ok) as ([[[h' roots'] dns'] sent] & E & H' & _);
    [vm_compute; lia|intros; apply keeps_nothing|by vm_compute|by vm_compute|by apply bytes_ok_dec|by vm_compute|
     vm_compute; lia|by intros j [= <-]; apply bytes_ok_dec|exact demo_cache_rep|done|vm_compute; lia|].
  exists ((h', roots'), dns', sent). split; [exact E|]. split; [exact H'|]. clear H'.
  vm_compute in E. injection E as <- _ _ <-. split; by vm_compute.
Defined.

(** Two buffers go to the device as one packet. *)
Lemma device_gets_packet_witness : hev_tunnel_write 10 1 one_packet = Some [7; 8; 9; 4; 5; 6].
Proof. exact (device_gets_packet 10 one_packet 1 [(1, [7; 8; 9]); (2, [4; 5; 6])] one_packet_bytes ltac:(done) ltac:(cbn; lia)). Defined.
