(* ===== verification/Program.v ===== *)
(** * The program (hev-main.c): the parts in their order, from the configuration
    to the end, with the loggers (misc/hev-logger.c, core/src/hev-socks5-logger.c),
    the construction of the task system (kern/core/hev-task-system.c and the
    objects it makes) and the limits of misc/hev-utils.c *)
From S2P Require Import Prelude CInt Effect Addr MappedDNS MappedDNSSpec Config ConfigSpec ConfigParse ConfigProps Socks5 TunDevice TunnelInit TunnelInitProps.
From Stdlib Require Import String.

(** ** The state *)

(** [fd] and [req_level] of a logger. *)
Record Logger := mkLogger { log_fd : Z; req_level : Z }.

(** [struct _HevTaskSystemContext]: the blocks of memory, and the reactor's
    descriptor.  The scheduler's fields are Sched's. *)
Record Context := mkContext {
  ctx_block : Z;
  ctx_reactor : Z;
  reactor_fd : Z;
  ctx_timer : Z;
  ctx_detector : Z;
}.

(** The static variables of the parts, and the thread's allocator and context
    (0 and [None]: none). *)
Record Process := mkProcess {
  globals : Globals;
  config : Config;
  settings : Settings;
  logger : Logger;
  socks5_logger : Logger;
  allocator : Z;
  context : option Context;
}.

Definition set_globals v p := mkProcess v (config p) (settings p) (logger p) (socks5_logger p) (allocator p) (context p).
Definition set_config v p := mkProcess (globals p) v (settings p) (logger p) (socks5_logger p) (allocator p) (context p).
Definition set_settings v p := mkProcess (globals p) (config p) v (logger p) (socks5_logger p) (allocator p) (context p).
Definition set_logger v p := mkProcess (globals p) (config p) (settings p) v (socks5_logger p) (allocator p) (context p).
Definition set_socks5_logger v p := mkProcess (globals p) (config p) (settings p) (logger p) v (allocator p) (context p).
Definition set_allocator v p := mkProcess (globals p) (config p) (settings p) (logger p) (socks5_logger p) v (context p).
Definition set_ctx v p := mkProcess (globals p) (config p) (settings p) (logger p) (socks5_logger p) (allocator p) v.

Definition process0 : Process :=
  mkProcess globals0 config0 default_settings (mkLogger (-1) 0) (mkLogger (-1) 0) 0 None.

Abbreviation MP := (M Process).

Definition update (f : Process -> Process) : MP () := p ← mget; mput (f p).

(** The parts' own monads. *)
Definition on_globals {A} (m : M Globals A) : MP A := fun p =>
  match m (globals p) with Some (g, a) => Some (set_globals g p, a) | None => None end.
Definition on_config {A} (m : M Config A) : MP A := fun p =>
  match m (config p) with Some (c, a) => Some (set_config c p, a) | None => None end.
Definition sys {A} (m : M Dev A) : MP A := on_globals (on_dev m).

Definition hev_socks5_set_connect_timeout (v : Z) (s : Settings) : Settings :=
  mkSettings v (tcp_timeout s) (udp_timeout s) (task_stack_size s) (udp_recv_buffer_size s) (udp_copy_buffer_nums s).
Definition hev_socks5_set_tcp_timeout (v : Z) (s : Settings) : Settings :=
  mkSettings (connect_timeout s) v (udp_timeout s) (task_stack_size s) (udp_recv_buffer_size s) (udp_copy_buffer_nums s).
Definition hev_socks5_set_udp_timeout (v : Z) (s : Settings) : Settings :=
  mkSettings (connect_timeout s) (tcp_timeout s) v (task_stack_size s) (udp_recv_buffer_size s) (udp_copy_buffer_nums s).
Definition hev_socks5_set_udp_recv_buffer_size (v : Z) (s : Settings) : Settings :=
  mkSettings (connect_timeout s) (tcp_timeout s) (udp_timeout s) (task_stack_size s) v (udp_copy_buffer_nums s).

Section program.
Context `{Device} `{Pton}.

(** ** Loggers *)

(** The descriptor that the path stands for. *)
Definition logger_open (path : list Z) : M Dev Z :=
  if Z.eqb 0 (strcmp path (str "stdout")) then dev_make KFd (DDup 1)
  else if Z.eqb 0 (strcmp path (str "stderr")) then dev_make KFd (DDup 2)
  else dev_make KFd (DOpen path).

Definition hev_logger_init (level : Z) (path : list Z) : MP Z :=
  fd ← sys (logger_open path);
  _ ← update (set_logger (mkLogger fd level));
  mret (if Z.ltb fd 0 then -1 else 0).

Definition hev_socks5_logger_init (level : Z) (path : list Z) : MP Z :=
  fd ← sys (logger_open path);
  _ ← update (set_socks5_logger (mkLogger fd level));
  mret (if Z.ltb fd 0 then -1 else 0).

(** The variable keeps the descriptor. *)
Definition hev_logger_fini : MP () := p ← mget; sys (dev_free KFd (log_fd (logger p))).
Definition hev_socks5_logger_fini : MP () := p ← mget; sys (dev_free KFd (log_fd (socks5_logger p))).

Definition hev_logger_enabled (level : Z) (p : Process) : Z :=
  if (Z.leb (req_level (logger p)) level && Z.leb 0 (log_fd (logger p)))%bool then 1 else 0.
Definition hev_socks5_logger_enabled (level : Z) (p : Process) : Z :=
  if (Z.leb (req_level (socks5_logger p)) level && Z.leb 0 (log_fd (socks5_logger p)))%bool then 1 else 0.

(** ** Limits *)

Definition set_limit_nofile (limit_nofile : Z) : M Dev Z :=
  res ← dev_call DGetrlimit;
  if Z.ltb res 0 then mret (-1) else
  d ← mget;
  let rlim_max := d_int (calls d) in
  res ← dev_call (DSetrlimit rlim_max rlim_max);
  if Z.ltb res 0 then mret (-1) else
  dev_call (DSetrlimit limit_nofile limit_nofile).

Definition run_as_daemon (pid_file : list Z) : M Dev () :=
  fp ← dev_make KFd (DOpen pid_file);
  if Z.ltb fp 0 then mret () else
  _ ← dev_call DDaemon;
  _ ← dev_call (DWritePid fp);
  dev_free KFd fp.

(** ** The task system *)

(** The previous one. *)
Definition hev_memory_allocator_set_default (a : Z) : MP Z :=
  p ← mget; _ ← mput (set_allocator a p); mret (allocator p).

(** There is one reference to an allocator. *)
Definition hev_memory_allocator_unref (a : Z) : MP () := sys (dev_free KAllocator a).

(** [hev_malloc0] by the thread's allocator, which is made when there is none. *)
Definition alloc_block : MP Z :=
  p ← mget;
  _ ← (if Z.eqb (allocator p) 0 then a ← sys (dev_new KAllocator); update (set_allocator a) else mret ());
  p ← mget;
  if Z.eqb (allocator p) 0 then mlift None else sys (dev_new KMemory).

Definition free_block (a : Z) : MP () := sys (dev_free KMemory a).

Definition hev_task_io_reactor_new : MP (Z * Z) :=
  self ← alloc_block;
  if Z.eqb self 0 then mret (0, -1) else
  fd ← sys (dev_make KFd DEpollCreate);
  if Z.ltb fd 0 then _ ← free_block self; mret (0, fd) else
  flags ← sys (dev_call (DFcntl fd));
  if Z.ltb flags 0 then _ ← free_block self; mret (0, fd) else
  res ← sys (dev_call (DFcntl fd));
  if Z.ltb res 0 then _ ← free_block self; mret (0, fd) else
  mret (self, fd).

Definition hev_task_io_reactor_destroy (self fd : Z) : MP () :=
  _ ← sys (dev_free KFd fd); free_block self.

(** By the C library's allocator. *)
Definition hev_task_stack_detector_new : MP Z :=
  self ← sys (dev_new KMemory);
  if Z.eqb self 0 then mret 0 else
  r1 ← sys (dev_call DSigaltstack);
  r2 ← sys (dev_call DSigaction);
  r3 ← sys (dev_call DSigaction);
  if Z.ltb (Z.lor (Z.lor (Z.lor 0 r1) r2) r3) 0 then _ ← free_block self; mret 0 else
  mret self.

Definition hev_task_stack_detector_destroy (self : Z) : MP () :=
  _ ← sys (dev_call DSigaction);
  _ ← sys (dev_call DSigaction);
  _ ← sys (dev_call DSigaltstack);
  free_block self.

(** [pthread_setspecific] reports a failure by a positive number. *)
Definition hev_task_system_set_context (c : option Context) : MP Z :=
  res ← sys (dev_call DSetspecific);
  if Z.ltb 0 res then mret res else _ ← update (set_ctx c); mret 0.

Definition set_reactor r fd (c : Context) := mkContext (ctx_block c) r fd (ctx_timer c) (ctx_detector c).
Definition set_timer t (c : Context) := mkContext (ctx_block c) (ctx_reactor c) (reactor_fd c) t (ctx_detector c).
Definition set_detector d (c : Context) := mkContext (ctx_block c) (ctx_reactor c) (reactor_fd c) (ctx_timer c) d.

(** The struct changes where the thread's variable points to, if it does. *)
Definition in_context (f : Context -> Context) : MP () := update (fun p => set_ctx (f <$> context p) p).

(** The labels [free_context], [rest_context], [free_reactor], each falling into
    the one before it. *)
Definition free_context (block : Z) : MP Z := _ ← free_block block; mret (-1).
Definition rest_context (block : Z) : MP Z := _ ← hev_task_system_set_context None; free_context block.
Definition free_reactor (block reactor fd : Z) : MP Z :=
  _ ← hev_task_io_reactor_destroy reactor fd; rest_context block.

Definition hev_task_system_init : MP Z :=
  a ← sys (dev_new KAllocator);
  old ← hev_memory_allocator_set_default a;
  _ ← (if Z.eqb old 0 then mret () else hev_memory_allocator_unref old);
  p ← mget;
  if bool_decide (context p <> None) then mret (-1) else
  block ← alloc_block;
  if Z.eqb block 0 then mret (-1) else
  res ← hev_task_system_set_context (Some (mkContext block 0 0 0 0));
  if Z.ltb res 0 then free_context block else
  '(reactor, fd) ← hev_task_io_reactor_new;
  _ ← in_context (set_reactor reactor fd);
  if Z.eqb reactor 0 then rest_context block else
  timer ← alloc_block;
  _ ← in_context (set_timer timer);
  if Z.eqb timer 0 then free_reactor block reactor fd else
  detector ← hev_task_stack_detector_new;
  _ ← in_context (set_detector detector);
  if Z.eqb detector 0 then _ ← free_block timer; free_reactor block reactor fd else
  mret 0.

(** Without a context it follows a null pointer.  The resolver's thread is not
    modelled. *)
Definition hev_task_system_fini : MP () :=
  p ← mget;
  c ← mlift (context p);
  _ ← hev_task_stack_detector_destroy (ctx_detector c);
  _ ← free_block (ctx_timer c);
  _ ← hev_task_io_reactor_destroy (ctx_reactor c) (reactor_fd c);
  _ ← free_block (ctx_block c);
  _ ← hev_task_system_set_context None;
  old ← hev_memory_allocator_set_default 0;
  if Z.eqb old 0 then mret () else hev_memory_allocator_unref old.

(** ** The program *)

Definition hev_config_fini : MP () := mret ().

(** [run]: what the tasks do until all of them have ended
    (hev_socks5_tunnel_run; Tunnel, Sched).  lwIP's own start is part of it. *)
Variable run : MG ().

Definition hev_socks5_tunnel_main_inner (tun_fd : Z) : MP Z :=
  p ← mget;
  let cfg := config p in
  log_file ← mlift (hev_config_get_misc_log_file cfg);
  let log_level := hev_config_get_misc_log_level cfg in
  _ ← update (fun p => set_settings (hev_socks5_set_connect_timeout (hev_config_get_misc_connect_timeout cfg) (settings p)) p);
  _ ← update (fun p => set_settings (hev_socks5_set_tcp_timeout (hev_config_get_misc_tcp_read_write_timeout cfg) (settings p)) p);
  _ ← update (fun p => set_settings (hev_socks5_set_udp_timeout (hev_config_get_misc_udp_read_write_timeout cfg) (settings p)) p);
  _ ← update (fun p => set_settings (hev_socks5_set_udp_recv_buffer_size (hev_config_get_misc_udp_recv_buffer_size cfg) (settings p)) p);
  res ← hev_logger_init log_level log_file;
  if Z.ltb res 0 then mret (-2) else
  res ← hev_socks5_logger_init log_level log_file;
  if Z.ltb res 0 then mret (-3) else
  _ ← sys (set_limit_nofile (hev_config_get_misc_limit_nofile cfg));
  pid_file ← mlift (hev_config_get_misc_pid_file cfg);
  _ ← (match pid_file with Some f => sys (run_as_daemon f) | None => mret () end);
  res ← hev_task_system_init;
  if Z.ltb res 0 then mret (-4) else
  res ← on_globals (hev_socks5_tunnel_init cfg tun_fd);
  if Z.ltb res 0 then mret (-5) else
  _ ← on_globals run;
  _ ← on_globals (hev_socks5_tunnel_fini cfg);
  _ ← hev_socks5_logger_fini;
  _ ← hev_logger_fini;
  _ ← hev_config_fini;
  _ ← hev_task_system_fini;
  mret 0.

Variable long_bits : Z.

Definition hev_socks5_tunnel_main_from_file (initialized opened : bool) (loaded : option yaml_document) (tun_fd : Z) : MP Z :=
  res ← on_config (hev_config_init_from_file long_bits initialized opened loaded);
  if Z.ltb res 0 then mret (-1) else hev_socks5_tunnel_main_inner tun_fd.

Definition hev_socks5_tunnel_main_from_str (initialized : bool) (loaded : option yaml_document) (tun_fd : Z) : MP Z :=
  res ← on_config (hev_config_init_from_str long_bits initialized loaded);
  if Z.ltb res 0 then mret (-1) else hev_socks5_tunnel_main_inner tun_fd.

Definition hev_socks5_tunnel_main := hev_socks5_tunnel_main_from_file.

(** The process's exit status: [arg]: whether there is an argument, and one that
    is not [--version]. *)
Definition main (arg : option (list Z)) (initialized opened : bool) (loaded : option yaml_document) : MP Z :=
  match arg with
  | None => mret (-1)
  | Some a =>
      if Z.eqb (strcmp a (str "--version")) 0 then mret (-1) else
      res ← hev_socks5_tunnel_main initialized opened loaded (-1);
      mret (if Z.ltb res 0 then -2 else 0)
  end.

(** The descriptor that the stop event is written to, by what [event_fds[1]]
    reads as, every tenth of a second ([None]: still waiting). *)
Fixpoint hev_socks5_tunnel_stop (reads : list Z) : option Z :=
  match reads with
  | [] => None
  | fd :: reads => if Z.leb 0 fd then Some fd else hev_socks5_tunnel_stop reads
  end.

(** ** Lemmas *)

Definition with_dev (d : Dev) (p : Process) : Process := set_globals (set_dev d (globals p)) p.
Abbreviation pdev p := (dev (globals p)).

Lemma mwp_globals {A} (m : MG A) p (Q : Process -> A -> Prop) :
  mwp m (globals p) (fun g a => Q (set_globals g p) a) -> mwp (on_globals m) p Q.
Proof. intros (g & a & E & HQ). exists (set_globals g p), a. unfold on_globals. by rewrite E. Qed.

Lemma mwp_on_sys {A} (m : M Dev A) p (Q : Process -> A -> Prop) :
  mwp m (pdev p) (fun d a => Q (with_dev d p) a) -> mwp (sys m) p Q.
Proof. intros Hm. apply mwp_globals. by apply mwp_on_dev. Qed.

Lemma mwp_update f p (Q : Process -> () -> Prop) : Q (f p) () -> mwp (update f) p Q.
Proof. intros. unfold update. by msteps. Qed.

(** Calls that make and free nothing. *)
Lemma sys_owns {A} (m : M Dev A) l p (Q : Process -> A -> Prop) :
  (forall d, owns l d -> mwp m d (fun d' _ => owns l d')) -> owns l (pdev p) ->
  (forall d a, owns l d -> Q (with_dev d p) a) -> mwp (sys m) p Q.
Proof.
  intros Hm Ho HQ. apply mwp_on_sys. eapply mwp_mono; [by apply Hm|]. intros d a Hd. by apply HQ.
Qed.

Lemma call_owns c l d : owns l d -> mwp (dev_call c) d (fun d' _ => owns l d').
Proof. intros Ho. by apply mwp_dev_call. Qed.

Lemma nofile_owns n l d : owns l d -> mwp (set_limit_nofile n) d (fun d' _ => owns l d').
Proof.
  intros Ho. unfold set_limit_nofile. mstep. apply mwp_dev_call. destruct (Z.ltb _ 0); [by mstep|].
  mstep. mstep. mstep. apply mwp_dev_call. destruct (Z.ltb _ 0); [by mstep|]. by apply mwp_dev_call.
Qed.

Lemma daemon_owns f l d : owns l d -> mwp (run_as_daemon f) d (fun d' _ => owns l d').
Proof.
  intros Ho. unfold run_as_daemon. mstep. apply (mwp_dev_make KFd _ l); [done| |].
  - intros d1 Hd1 _. cbn. by mstep.
  - intros d1 h Hd1 _ Hh. cbn in Hh. destruct (Z.ltb_spec h 0); [lia|]. mstep. apply mwp_dev_call. mstep. apply mwp_dev_call.
    by apply (mwp_dev_free KFd h l).
Qed.

Lemma logger_open_ok path l d (Q : Dev -> Z -> Prop) : owns l d ->
  (forall d', owns l d' -> Q d' (-1)) -> (forall d' fd, 0 <= fd -> owns ((KFd, fd) :: l) d' -> Q d' fd) ->
  mwp (logger_open path) d Q.
Proof.
  intros Ho Hbad Hgood. unfold logger_open.
  repeat case_match; (apply (mwp_dev_make KFd _ l); [done|intros; by apply Hbad|intros; by apply Hgood]).
Qed.

Lemma free_block_ok a l p (Q : Process -> () -> Prop) : owns ((KMemory, a) :: l) (pdev p) ->
  (forall d, owns l d -> Q (with_dev d p) ()) -> mwp (free_block a) p Q.
Proof. intros Ho HQ. apply mwp_on_sys. by eapply mwp_dev_free. Qed.

Lemma alloc_block_ok l p (Q : Process -> Z -> Prop) : allocator p <> 0 -> owns l (pdev p) ->
  (forall d, owns l d -> Q (with_dev d p) 0) ->
  (forall d a, a <> 0 -> owns ((KMemory, a) :: l) d -> Q (with_dev d p) a) -> mwp alloc_block p Q.
Proof.
  intros Ha Ho Hbad Hgood. unfold alloc_block. mstep. mstep. mstep. rewrite (proj2 (Z.eqb_neq _ _) Ha).
  mstep. mstep. mstep. rewrite (proj2 (Z.eqb_neq _ _) Ha). apply mwp_on_sys, (mwp_dev_new KMemory l); [done| |].
  - intros d Hd _. by apply Hbad.
  - intros d a Hd _ Hn. by apply Hgood.
Qed.

(** ** The task system's objects *)

Lemma reactor_new_ok l p (Q : Process -> Z * Z -> Prop) : allocator p <> 0 -> owns l (pdev p) ->
  (forall d f, owns l d \/ owns ((KFd, f) :: l) d -> Q (with_dev d p) (0, f)) ->
  (forall d a f, a <> 0 -> owns ((KFd, f) :: (KMemory, a) :: l) d -> Q (with_dev d p) (a, f)) ->
  mwp hev_task_io_reactor_new p Q.
Proof.
  intros Ha Ho Hbad Hgood. unfold hev_task_io_reactor_new. mstep. apply (alloc_block_ok l); [done|done| |].
  { intros d Hd. cbn. mstep. apply Hbad. by left. }
  intros d a Hn Hd. rewrite (proj2 (Z.eqb_neq a 0) Hn). mstep. apply mwp_on_sys. eapply (mwp_dev_make KFd); [exact Hd| |].
  { intros d1 Hd1 _. cbn. mstep. eapply free_block_ok; [exact Hd1|]. intros d2 Hd2. mstep. apply (Hbad d2). by left. }
  intros d1 f Hd1 _ Hf. cbn in Hf. destruct (Z.ltb_spec f 0); [lia|].
  assert (Hdrop : forall d2, owns ((KFd, f) :: (KMemory, a) :: l) d2 ->
    mwp (_ ← free_block a; mret (0, f)) (with_dev d2 p) Q).
  { intros d2 Hd2. mstep. eapply free_block_ok; [eapply owns_perm; [apply Permutation_swap|exact Hd2]|].
    intros d3 Hd3. mstep. apply (Hbad d3). by right. }
  mstep. eapply sys_owns; [intros; by apply call_owns|exact Hd1|]. intros d2 r2 Hd2. destruct (Z.ltb r2 0); [by apply Hdrop|].
  mstep. eapply sys_owns; [intros; by apply call_owns|exact Hd2|]. intros d3 r3 Hd3. destruct (Z.ltb r3 0); [by apply Hdrop|].
  mstep. by apply Hgood.
Qed.

Lemma detector_new_ok l p (Q : Process -> Z -> Prop) : owns l (pdev p) ->
  (forall d, owns l d -> Q (with_dev d p) 0) ->
  (forall d a, a <> 0 -> owns ((KMemory, a) :: l) d -> Q (with_dev d p) a) ->
  mwp hev_task_stack_detector_new p Q.
Proof.
  intros Ho Hbad Hgood. unfold hev_task_stack_detector_new. mstep. apply mwp_on_sys, (mwp_dev_new KMemory l); [done| |].
  { intros d Hd _. cbn. mstep. by apply Hbad. }
  intros d a Hd _ Hn. rewrite (proj2 (Z.eqb_neq a 0) Hn).
  do 3 (mstep; eapply sys_owns; [intros; by apply call_owns|eassumption|]; intros ? ? ?).
  destruct (Z.ltb _ 0); [|mstep; by apply Hgood].
  mstep. eapply free_block_ok; [eassumption|]. intros d4 Hd4. mstep. by apply (Hbad d4).
Qed.

(** There is memory for an allocator and a variable of the thread. *)
Record process_memory : Prop := {
  pm_allocator : forall calls, 0 <= d_ret calls (DNew KAllocator);
  pm_specific : forall calls, d_ret calls DSetspecific = 0;
}.

Lemma set_context_ok c l p (Q : Process -> Z -> Prop) : process_memory -> owns l (pdev p) ->
  (forall d, owns l d -> Q (set_ctx c (with_dev d p)) 0) -> mwp (hev_task_system_set_context c) p Q.
Proof.
  intros M Ho HQ. unfold hev_task_system_set_context. mstep. apply mwp_on_sys, mwp_dev_call.
  rewrite (pm_specific M). cbn [Z.ltb Z.compare]. mstep. apply mwp_update. mstep. by apply HQ.
Qed.

(** What a context holds. *)
Definition handles (c : Context) : list (kind * Z) :=
  [(KMemory, ctx_detector c); (KMemory, ctx_timer c); (KFd, reactor_fd c); (KMemory, ctx_reactor c); (KMemory, ctx_block c)].

Lemma rest_context_ok block l p (Q : Process -> Z -> Prop) : process_memory -> owns ((KMemory, block) :: l) (pdev p) ->
  (forall d, owns l d -> Q (set_ctx None (with_dev d p)) (-1)) -> mwp (rest_context block) p Q.
Proof.
  intros M Ho HQ. unfold rest_context, free_context. mstep. eapply set_context_ok; [done|exact Ho|]. intros d Hd. mstep.
  eapply free_block_ok; [exact Hd|]. intros d1 Hd1. mstep. by apply (HQ d1).
Qed.

Lemma reactor_destroy_ok r f l p (Q : Process -> () -> Prop) : owns ((KFd, f) :: (KMemory, r) :: l) (pdev p) ->
  (forall d, owns l d -> Q (with_dev d p) ()) -> mwp (hev_task_io_reactor_destroy r f) p Q.
Proof.
  intros Ho HQ. unfold hev_task_io_reactor_destroy. mstep. apply mwp_on_sys. eapply mwp_dev_free; [exact Ho|]. intros d Hd.
  eapply free_block_ok; [exact Hd|]. intros d1 Hd1. by apply (HQ d1).
Qed.

Lemma free_reactor_ok block r f l p (Q : Process -> Z -> Prop) : process_memory ->
  owns ((KFd, f) :: (KMemory, r) :: (KMemory, block) :: l) (pdev p) ->
  (forall d, owns l d -> Q (set_ctx None (with_dev d p)) (-1)) -> mwp (free_reactor block r f) p Q.
Proof.
  intros M Ho HQ. unfold free_reactor. mstep. eapply reactor_destroy_ok; [exact Ho|]. intros d Hd.
  eapply rest_context_ok; [done|exact Hd|]. intros d1 Hd1. by apply (HQ d1).
Qed.

(** All of [l] and perhaps a descriptor that nothing refers to any more. *)
Definition holds (l : list (kind * Z)) (d : Dev) : Prop := owns l d \/ exists f, owns ((KFd, f) :: l) d.

(** An [init] that fails gives its blocks back, but not its allocator, nor the
    descriptor of a reactor that could not be set up. *)
Lemma system_init_ok l p (Q : Process -> Z -> Prop) : process_memory -> context p = None -> allocator p = 0 -> owns l (pdev p) ->
  (forall d a, a <> 0 -> holds ((KAllocator, a) :: l) d -> Q (set_ctx None (set_allocator a (with_dev d p))) (-1)) ->
  (forall d a c, a <> 0 -> owns (handles c ++ (KAllocator, a) :: l) d ->
     Q (set_ctx (Some c) (set_allocator a (with_dev d p))) 0) ->
  mwp hev_task_system_init p Q.
Proof.
  intros M Hc Ha Ho Hbad Hgood. unfold hev_task_system_init. mstep. apply mwp_on_sys, (mwp_dev_new KAllocator l); [done| |].
  { intros d _ Hn. pose proof (pm_allocator M (calls (pdev p))). lia. }
  intros d a Hd _ Hn. destruct p as [g cf st lg l5 al cx]. cbn in Hc, Ha, Ho. subst al cx.
  unfold hev_memory_allocator_set_default. do 3 (mstep; try mstep). cbn [Z.eqb allocator with_dev set_globals]. mstep. mstep. mstep. mstep.
  cbn [context set_allocator with_dev set_globals]. rewrite bool_decide_eq_false_2 by (intros E; by apply E).
  mstep. eapply (alloc_block_ok ((KAllocator, a) :: l)); [exact Hn|exact Hd| |].
  { intros d1 Hd1. cbn [Z.eqb]. mstep. apply (Hbad d1 a Hn). by left. }
  intros d1 b Hb Hd1. rewrite (proj2 (Z.eqb_neq b 0) Hb). mstep. eapply set_context_ok; [done|exact Hd1|]. intros d2 Hd2.
  cbn [Z.ltb Z.compare]. mstep. eapply reactor_new_ok; [exact Hn|exact Hd2| |].
  { intros d3 f Hd3. mstep. apply mwp_update. cbn [Z.eqb]. destruct Hd3 as [Hd3|Hd3].
    - eapply rest_context_ok; [done|exact Hd3|]. intros d4 Hd4. apply (Hbad d4 a Hn). by left.
    - eapply rest_context_ok; [done|eapply owns_perm; [apply Permutation_swap|exact Hd3]|].
      intros d4 Hd4. apply (Hbad d4 a Hn). right. by exists f. }
  intros d3 r f Hr Hd3. mstep. apply mwp_update. rewrite (proj2 (Z.eqb_neq r 0) Hr).
  mstep. eapply alloc_block_ok; [exact Hn|exact Hd3| |].
  { intros d4 Hd4. mstep. apply mwp_update. cbn [Z.eqb]. eapply free_reactor_ok; [done|exact Hd4|].
    intros d5 Hd5. apply (Hbad d5 a Hn). by left. }
  intros d4 t Ht Hd4. mstep. apply mwp_update. rewrite (proj2 (Z.eqb_neq t 0) Ht).
  mstep. eapply detector_new_ok; [exact Hd4| |].
  { intros d5 Hd5. mstep. apply mwp_update. cbn [Z.eqb]. mstep. eapply free_block_ok; [exact Hd5|]. intros d6 Hd6.
    eapply free_reactor_ok; [done|exact Hd6|]. intros d7 Hd7. apply (Hbad d7 a Hn). by left. }
  intros d5 dt Hdt Hd5. mstep. apply mwp_update. rewrite (proj2 (Z.eqb_neq dt 0) Hdt). mstep.
  by apply (Hgood d5 a (mkContext b r f t dt) Hn).
Qed.

Lemma system_fini_ok c l p (Q : Process -> () -> Prop) : process_memory -> context p = Some c -> allocator p <> 0 ->
  owns (handles c ++ (KAllocator, allocator p) :: l) (pdev p) ->
  (forall d, owns l d -> Q (set_allocator 0 (set_ctx None (with_dev d p))) ()) -> mwp hev_task_system_fini p Q.
Proof.
  intros M Hc Ha Ho HQ. cbn [handles app] in Ho. unfold hev_task_system_fini. mstep. mstep. mstep. eapply mwp_lift; [exact Hc|].
  mstep. unfold hev_task_stack_detector_destroy.
  do 3 (mstep; eapply sys_owns; [intros; by apply call_owns|eassumption|]; intros ? ? ?).
  eapply free_block_ok; [eassumption|]. intros d4 Hd4. mstep. eapply free_block_ok; [exact Hd4|]. intros d5 Hd5.
  mstep. eapply reactor_destroy_ok; [exact Hd5|]. intros d6 Hd6. mstep. eapply free_block_ok; [exact Hd6|]. intros d7 Hd7.
  mstep. eapply set_context_ok; [done|exact Hd7|]. intros d8 Hd8. unfold hev_memory_allocator_set_default.
  mstep. mstep. mstep. mstep. mstep. mstep. cbn [allocator set_ctx with_dev set_globals]. rewrite (proj2 (Z.eqb_neq _ _) Ha).
  apply mwp_on_sys. eapply mwp_dev_free; [exact Hd8|]. intros d9 Hd9. by apply (HQ d9).
Qed.

(** ** The whole *)

Lemma owns_middle l1 x l2 d : owns (l1 ++ x :: l2) d -> owns (x :: l1 ++ l2) d.
Proof. apply owns_perm. symmetry. apply Permutation_middle. Qed.

(** Running ends with the variables holding what they held; names may have been
    mapped and packets counted. *)
Hypothesis run_ok : forall base fd g, ready base fd g -> mwp run g (fun g' _ => ready base fd g').

(** The SOCKS5 library's settings that the configuration gives. *)
Definition configured (c : Config) (s : Settings) : Settings :=
  mkSettings (hev_config_get_misc_connect_timeout c) (hev_config_get_misc_tcp_read_write_timeout c)
    (hev_config_get_misc_udp_read_write_timeout c) (task_stack_size s) (hev_config_get_misc_udp_recv_buffer_size c)
    (udp_copy_buffer_nums s).

(** What the process holds beside [base], by the result. *)
Definition leaves (base : list (kind * Z)) (fd : Z) (p : Process) (r : Z) : Prop :=
  let logs := [(KFd, log_fd (socks5_logger p)); (KFd, log_fd (logger p))] in
  (r = -2 /\ owns base (pdev p)) \/
  (r = -3 /\ owns ((KFd, log_fd (logger p)) :: base) (pdev p)) \/
  (r = -4 /\ context p = None /\ holds ((KAllocator, allocator p) :: logs ++ base) (pdev p)) \/
  (r = -5 /\ exists c, context p = Some c /\
     (owns (handles c ++ (KAllocator, allocator p) :: logs ++ base) (pdev p) \/
      (fd < 0 /\ holds (handles c ++ (KAllocator, allocator p) :: logs ++ base) (pdev p)))) \/
  (r = 0 /\ context p = None /\ allocator p = 0 /\ owns base (pdev p)).

Lemma optional_daemon_ok o l p (Q : Process -> () -> Prop) : owns l (pdev p) -> (forall d, owns l d -> Q (with_dev d p) ()) ->
  mwp (match o with Some f => sys (run_as_daemon f) | None => mret () end) p Q.
Proof.
  intros Ho HQ. destruct o as [f|]; [eapply sys_owns; [intros; by apply daemon_owns|exact Ho|]; intros d [] Hd; by apply HQ|].
  mstep. assert (p = with_dev (pdev p) p) as -> by (by destruct p as [[]]). by apply HQ.
Qed.

(** The end, from a running tunnel. *)
Lemma main_end_ok base fd p c (Q : Process -> Z -> Prop) : process_memory -> strings_readable (config p) ->
  context p = Some c -> allocator p <> 0 ->
  ready (handles c ++ (KAllocator, allocator p) :: (KFd, log_fd (socks5_logger p)) :: (KFd, log_fd (logger p)) :: base) fd (globals p) ->
  (forall g, idle g -> owns base (dev g) -> Q (set_allocator 0 (set_ctx None (set_globals g p))) 0) ->
  mwp (_ ← on_globals run; _ ← on_globals (hev_socks5_tunnel_fini (config p)); _ ← hev_socks5_logger_fini; _ ← hev_logger_fini;
       _ ← hev_config_fini; _ ← hev_task_system_fini; mret 0) p Q.
Proof.
  intros M Hcfg Hc Ha Hr HQ. mstep. apply mwp_globals. eapply mwp_mono; [by apply run_ok|]. intros g1 [] Hr1.
  mstep. apply mwp_globals. destruct Hr1 as (Hh & Hca & _). eapply mwp_mono; [by apply fini_ok|]. intros g2 [] (Hi & Ho & _).
  unfold hev_socks5_logger_fini. mstep. mstep. mstep. apply mwp_on_sys.
  eapply mwp_dev_free; [exact (owns_middle (handles c ++ [_]) _ _ _ Ho)|]. intros d1 Hd1.
  unfold hev_logger_fini. mstep. mstep. mstep. apply mwp_on_sys.
  eapply mwp_dev_free; [exact (owns_middle (handles c ++ [_]) _ _ _ Hd1)|]. intros d2 Hd2.
  unfold hev_config_fini. mstep. mstep. mstep. eapply (system_fini_ok c); [done|exact Hc|exact Ha|exact Hd2|].
  intros d3 Hd3. mstep. by apply (HQ (set_dev d3 g2)).
Qed.

Lemma main_inner_ok base fd p : process_memory -> lwip_memory -> context p = None -> allocator p = 0 -> idle (globals p) ->
  tcp (globals p) = 0 -> udp (globals p) = 0 -> strings_readable (config p) -> owns base (pdev p) ->
  mwp (hev_socks5_tunnel_main_inner fd) p (fun p' r => config p' = config p /\ idle (globals p') /\
    settings p' = configured (config p) (settings p) /\ leaves base fd p' r).
Proof.
  intros M Ml Hc Ha Hi Ht Hu Hcfg Ho. pose proof Hcfg as (_ & _ & _ & _ & _ & [pid Ep] & [file Ef]).
  unfold hev_socks5_tunnel_main_inner. mstep. mstep. mstep. eapply mwp_lift; [exact Ef|]. clear Ef. do 4 (mstep; apply mwp_update).
  set (Q := fun p' r => _). destruct p as [g cf st lg l5 al cx].
  cbn [config context allocator globals] in *. subst al cx. unfold hev_logger_init. mstep. mstep. apply mwp_on_sys. eapply logger_open_ok; [exact Ho| |].
  { intros d Hd. mstep. apply mwp_update. mstep. cbn [Z.ltb Z.compare]. mstep. split_and!; [done..|]. by left. }
  intros d1 f1 Hf1 Hd1. mstep. apply mwp_update. mstep. destruct (Z.ltb_spec f1 0); [lia|]. cbn [Z.ltb Z.compare].
  unfold hev_socks5_logger_init. mstep. mstep. apply mwp_on_sys. eapply logger_open_ok; [exact Hd1| |].
  { intros d Hd. mstep. apply mwp_update. mstep. cbn [Z.ltb Z.compare]. mstep. split_and!; [done..|]. right. by left. }
  intros d2 f2 Hf2 Hd2. mstep. apply mwp_update. mstep. destruct (Z.ltb_spec f2 0); [lia|]. cbn [Z.ltb Z.compare].
  mstep. eapply sys_owns; [intros; by apply nofile_owns|exact Hd2|]. intros d3 r3 Hd3.
  mstep. eapply mwp_lift; [exact Ep|]. mstep. eapply optional_daemon_ok; [exact Hd3|]. intros d4 Hd4.
  mstep. eapply system_init_ok; [done|done|done|exact Hd4| |].
  { intros d a Hn Hd. cbn [Z.ltb Z.compare]. mstep. split_and!; [done..|]. do 2 right. left. by split_and!. }
  intros d5 a c Hn Hd5. cbn [Z.ltb Z.compare]. mstep. apply mwp_globals.
  eapply mwp_mono; [eapply start_ok; [exact Hcfg|exact Ml|exact Hi|exact Hd5|by left]|].
  intros g1 r [[-> Hr]|(-> & Hi1 & _ & Ho1)].
  - cbn [Z.ltb Z.compare]. set (p1 := set_globals g1 _).
    apply (main_end_ok base fd p1 c Q M Hcfg eq_refl Hn Hr).
    intros g2 Hi2 Ho2. split_and!; [done..|]. do 4 right. by split_and!.
  - cbn [Z.ltb Z.compare]. mstep. split_and!; [done..|]. do 3 right. left. split; [done|]. exists c. split; [done|].
    destruct Ho1 as [Ho1|[Hfd [f Ho1]]]; [by left|right]. split; [done|]. right. by exists f.
Qed.

Lemma config_cases initialized opened loaded c c' r : cfg_ok c ->
  hev_config_init_from_file long_bits initialized opened loaded c = Some (c', r) ->
  cfg_ok c' /\ r = if (initialized && opened && match loaded with Some doc => doc_valid doc | None => false end)%bool then 0 else -1.
Proof.
  intros Hc. unfold hev_config_init_from_file. destruct initialized; cbn [negb andb]; [|by intros [= <- <-]].
  destruct opened; cbn [negb]; [|by intros [= <- <-]]. destruct loaded as [doc|]; [|by intros [= <- <-]].
  intros E. pose proof (parse_doc_ok long_bits doc c Hc) as Hd. rewrite E in Hd. by destruct Hd as (? & ? & _).
Qed.


(** Both ways to start agree. *)
Lemma main_from_str_file initialized loaded fd :
  hev_socks5_tunnel_main_from_str initialized loaded fd = hev_socks5_tunnel_main_from_file initialized true loaded fd.
Proof. done. Qed.

(** Without a tunnel, which is so before it has started and after its end and
    after every failure, a stop waits for ever. *)
Lemma stop_without_tunnel p n : idle (globals p) -> hev_socks5_tunnel_stop (replicate n (event_fds (globals p)).2) = None.
Proof.
  intros (_ & _ & _ & _ & Hf & _). induction n as [|n IH]; [done|]. cbn. by destruct (Z.leb_spec 0 (event_fds (globals p)).2); [lia|].
Qed.
End program.

(** ** Witnesses *)

(** A kernel that refuses nothing, and one that makes no socket pair. *)
Definition kernel_that (refuses : devcall -> bool) : Device.
Proof.
  refine {| d_ret := fun _ c => if refuses c then -1 else 0; d_name := fun _ => replicate 16 0; d_int := fun _ => 0;
            d_fresh := d_fresh (Device := refusing_device) |}.
  - apply d_fresh_new.
  - apply d_fresh_fd.
  - apply d_fresh_ptr.
Defined.

Definition no_pair (c : devcall) : bool := match c with DPair => true | _ => false end.

Definition run_nothing : MG () := mret ().

Definition sample_main (refuses : devcall -> bool) : option (Z * list (kind * Z)) :=
  '(p, r) ← @hev_socks5_tunnel_main_from_file (kernel_that refuses) dotted_pton run_nothing 64 true true (Some sample) (-1) process0;
  Some (r, elements (live (dev (globals p)))).

